(* ===== verification/_CoqProject ===== *)
-Q . S2P
Prelude.v
Bytes.v
Params.v
Kalloc.v
Vm.v
VmSpace.v
Proc.v
ProcInv.v
ProcFork.v
Trap.v
Clock.v
Locks.v
Pipe.v
Bio.v
Log.v
LogDisk.v
Fs.v
FsBlocks.v
FsFile.v
FsInode.v
FsIO.v
FsTrunc.v
FsDir.v
FsPath.v
Mkfs.v
MkfsBoot.v
File.v
FileWrite.v
Exec.v
Sysfile.v
Descriptors.v
Ulib.v
Umalloc.v
Grep.v
Shell.v
ShellParse.v
ShellPrint.v
Console.v
Split.v
Merge.v
Mystrings.v
Pipeline.v
Spin.v
Mp.v
Entry.v
Ide.v
Boot.v
Start.v
Cmds.v
