(* ===== verification/Prelude.v ===== *)
(** * ASO: a verification development

    The repository holds a modified xv6 kernel for 32-bit x86 with its user
    programs ([src/xv6]) and exercises on the POSIX interface ([src/POSIX]).  The
    kernel differs from xv6 in lazy allocation of the heap with a guard page below
    the stack (trap.c, exec.c, vm.c), exit statuses and the W macros (proc.c,
    user.h), [dup2], [freemem] and [date], and files with a doubly-indirect block
    (fs.c).  This library translates the code into Rocq functions and proves what
    makes each part correct.

    ** How the code is translated

    A routine that changes state is a function [S -> outcome (A * S)] (the monad
    [M] of this file), with one definition per C function and one per loop.  An
    [outcome] is a result, a call of [panic], a sleep that only another process
    can end ([Block]), an access that C gives no meaning to ([Undef]), or the end
    of the model's iteration bound ([NoFuel]).  A failed test of a host program
    that exits is a [Panic].  Integers are [Z] with the wrap-around of their width
    written out ([u8], [u16], [u32], [s16], [s32]); memories, disk blocks and
    buffers are total maps from addresses to bytes ([mem], Bytes).  A pointer
    into a kernel array is an index; pages, page tables, kernel stacks, trap
    frames and the free list are in memory, at the addresses and offsets of the C
    structures.

    The kernel is modelled on one CPU: a kernel path runs until it gives the CPU
    up in [sched].  Where the interleaving matters it is explicit: processes
    between their sleeps (ProcInv, Pipe), system calls in any order (Descriptors),
    crashes between block writes (Log), and CPUs between accesses to a lock (Spin,
    which also justifies the one-CPU [acquire] and [release] of this file).

    ** The files

    This file has the monad, machine integers, loops, locks as one CPU sees them,
    and the tactics: [mby] runs the next statement of a monadic program by a known
    equation, [mgo] the statements that compute, [zlia] is [lia] with division.
    Bytes has memories and string.c; Params has the constants and macros of
    param.h, memlayout.h, mmu.h, fs.h, stat.h and fcntl.h.

    - Memory.  Kalloc translates kalloc.c and states what it promises as the class
      [PageAllocator], whose abstract state is the list of free pages.  Vm
      translates vm.c over any instance of it; VmSpace proves what the routines do
      to an address space, entry by entry, and to the free pages.
    - Processes.  Proc translates proc.c over Vm and an interface to the file layer
      ([FileLayer], discharged in File).  ProcInv is the table as a state machine
      with its invariant and the fairness of the scheduler; ProcFork is [fork] and
      [wait] down to page tables and stacks.  Trap translates trap.c, syscall.c,
      sysproc.c and the W macros; Clock is [cmostime] of lapic.c and [sys_date].
    - Locks and pipes.  Locks is sleeplock.c, Spin is spinlock.c on many CPUs, Pipe
      is pipe.c.
    - Storage.  Bio is bio.c and memide.c, Log is log.c; LogDisk states what the
      file system relies on as the classes [LoggedDisk] and [Transactions] and
      discharges them with Bio and Log.  Fs translates fs.c over that interface;
      FsBlocks (free map), FsFile (tree of blocks, [bmap]), FsInode (inodes on
      disk), FsIO ([readi], [writei]), FsTrunc ([itrunc]), FsDir (directories) and
      FsPath ([namex]) have its theorems.  Mkfs is mkfs.c, the program that makes
      the initial disk, and MkfsBoot the kernel on that disk.  Ide is ide.c over
      any controller that has the ports of the class [IdePorts] and behaves as
      [IdeDisk] says; it implements the memory disk of Bio.  File is file.c, FileWrite the composition of [filewrite]
      with the file system and the log.
    - System calls.  Exec is exec.c and Sysfile is sysfile.c, over all of the above;
      Descriptors follows the reference counts of open files through all of them.
    - Processor and devices.  Entry has the descriptors of mmu.h, the routines of
      vm.c and trap.c that load them, and the assembly of traps and switches
      (vectors.pl, trapasm.S, swtch.S, usys.S) over a model of the instructions
      they use.  Boot is bootmain.c.  Mp is mp.c; Start is ioapic.c, picirq.c, the
      rest of lapic.c over the class [Lapic], and from main.c and entryother.S the
      start of the other CPUs.  Console is console.c with uart.c and kbd.c.
    - User programs.  Ulib is ulib.c and printf.c, Umalloc is umalloc.c, Grep is
      grep.c; Shell translates sh.c, ShellParse and ShellPrint are about its
      parser; Cmds is wc.c, cat.c, ls.c and the smaller commands.  Split is
      POSIX/split_files.c, Merge is POSIX/merge_files.c, Mystrings is
      POSIX/mystrings.c, and Pipeline is POSIX/merge_mystrings_split.c, which
      connects the three with pipes, and POSIX/ejemplo_3_tuberias.c.

    ** What the theorems show

    Crash safety: a transaction is all or nothing at every crash point, also when
    recovery itself is interrupted (Log); large writes are cut into transactions
    that fit (FileWrite).  Files: what is written is read back, and nothing else
    changes (FsIO); the free map, truncation, inodes, directories and paths do what
    their users rely on (FsBlocks, FsTrunc, FsInode, FsDir, FsPath); the kernel
    finds on the image of mkfs.c the files that were put there (MkfsBoot).  Memory:
    [copyuvm], [allocuvm], [deallocuvm], [freevm] and the page-fault handler change
    exactly the entries and pages they should, on success and when memory runs out,
    and with [fork] they fail exactly when fewer pages are free than they need,
    which is counted ([grow_cost], [copy_cost], [fork_cost]; VmSpace, ProcFork,
    Trap); the allocators hand out memory that is in use by nobody, malloc as long
    as the heap stays below [KERNBASE] (Kalloc, Umalloc).  Processes: the
    invariant of the table, no lost wakeup,
    [fork], [wait], and a fair scheduler (ProcInv, ProcFork).  Sharing: mutual
    exclusion (Spin), pipes as queues (Pipe), counts of open files (Descriptors),
    the buffer cache (Bio), and the disk driver with interrupts at any time, which
    does what the memory disk does (Ide).  Processor: a trap saves and restores
    every register, and [fork] returns twice, from the instruction in the parent to
    the first instruction of the child (Entry); the boot loader places the kernel
    (Boot), and the other CPUs are found and started (Mp, Start).  Devices and
    programs: the line discipline (Console), the parser (ShellParse, ShellPrint),
    the pattern matcher (Grep), splitting and merging files (Split, Merge), the
    strings of a file (Mystrings), and the processes and pipes of a pipeline with
    the deadlock it can run into (Pipeline).  The code also does things it does not mean
    to; those are theorems too (for instance [itrunc_double_panics],
    [forked_guard_panics], [reservation_overflow]).

    ** Bounds

    Loops that count are structural ([for_]).  Other loops take fuel, computed from
    the input in the definition that starts the loop: the length of a string or
    path, the number of bytes to move ([io_fuel]), the number of pages or table
    entries, the number of buffers.  The theorems are of the form "returns [Ok]",
    so they include that the fuel is enough.  Where a loop can go on for ever in C
    (a free list that is a cycle, a clock that never settles) the result is
    [NoFuel], and the theorems say for which inputs it does not happen.

    ** Parameters

    Code outside the repository is an argument: the handlers of device interrupts
    and of devices ([devsw]), the registers of the clock chip, what [read], [write]
    and [getopt] of the host return, the system calls a user program makes, and
    the bytes the assembler makes of entryother.S, which are linked into the
    kernel.  Hardware is an interface where the code depends on what it answers: a
    disk controller and a local APIC that end what they are asked for after a
    bounded number of looks at their status, the disk without errors.

    ** Not modelled

    bootasm.S and entry.S switch the boot CPU to protected mode and paging before
    any C code runs, and initcode.S is a single [exec].  [main] is a list of calls
    of the init functions; [uartinit] only writes ports, [procdump] only prints,
    and [forkret] calls [iinit] and [initlog] once.  init.c and the test programs
    (usertests.c, forktest.c, stressfs.c, tsbrk1.c and the like) are sequences of
    system calls.  POSIX/openimg.c starts a viewer for each image. *)

From Stdlib Require Import ZArith Lia String.
From stdpp Require Import base numbers list.

Declare Scope kernel_scope.
Delimit Scope kernel_scope with kernel.
Local Open Scope Z_scope.

(** ** Outcomes

    What a piece of kernel code can do: return, call [panic], wait for
    something only another process can provide ([Block]), perform an access C
    gives no meaning to ([Undef]), or run past the iteration bound the model
    gives a loop ([NoFuel]; the theorems show that it is never reached). *)
Inductive outcome (A : Type) : Type :=
| Ok (a : A)
| Panic (msg : string)
| Block
| Undef
| NoFuel.
Arguments Ok {A} _.
Arguments Panic {A} _.
Arguments Block {A}.
Arguments Undef {A}.
Arguments NoFuel {A}.

Definition obind {A B} (m : outcome A) (k : A -> outcome B) : outcome B :=
  match m with
  | Ok a => k a
  | Panic e => Panic e
  | Block => Block
  | Undef => Undef
  | NoFuel => NoFuel
  end.

(** State-passing computations over a state [S]. *)
Definition M (S A : Type) : Type := S -> outcome (A * S).

Definition mret {S A} (a : A) : M S A := fun s => Ok (a, s).
Definition mbind {S A B} (m : M S A) (k : A -> M S B) : M S B :=
  fun s => obind (m s) (fun '(a, s') => k a s').
Definition mpanic {S A} (e : string) : M S A := fun _ => Panic e.
Definition mblock {S A} : M S A := fun _ => Block.
Definition mundef {S A} : M S A := fun _ => Undef.
Definition mnofuel {S A} : M S A := fun _ => NoFuel.
Definition mget {S A} (f : S -> A) : M S A := fun s => Ok (f s, s).
Definition mset {S} (f : S -> S) : M S unit := fun s => Ok (tt, f s).

Notation "'let!' x ':=' m 'in' k" := (mbind m (fun x => k))
  (at level 10, x pattern, m at level 100, k at level 200,
   format "'[v' 'let!'  x  ':='  m  'in' '/' k ']'") : kernel_scope.
Notation "m ';;!' k" := (mbind m (fun _ => k))
  (at level 100, k at level 200, right associativity,
   format "'[v' m  ';;!' '/' k ']'") : kernel_scope.

(** ** Machine integers *)

Definition u8 (x : Z) : Z := x mod 2 ^ 8.
Definition u16 (x : Z) : Z := x mod 2 ^ 16.
Definition u32 (x : Z) : Z := x mod 2 ^ 32.
Definition s32 (x : Z) : Z := (x + 2 ^ 31) mod 2 ^ 32 - 2 ^ 31.
Definition s16 (x : Z) : Z := (x + 2 ^ 15) mod 2 ^ 16 - 2 ^ 15.

Definition is_u32 (x : Z) : Prop := 0 <= x < 2 ^ 32.
Definition is_byte (x : Z) : Prop := 0 <= x < 256.

(** C truth values. *)
Definition b2z (b : bool) : Z := if b then 1 else 0.

(** ** Counted loops

    [for_ n i body] is [for (; n iterations; i++) body]. *)
Fixpoint for_ {S} (n : nat) (i : Z) (body : Z -> M S unit) : M S unit :=
  match n with
  | O => mret tt
  | Datatypes.S n' => (body i ;;! for_ n' (i + 1) body)%kernel
  end.

(** ** Spin locks as one CPU sees them

    The models run one kernel path at a time, so a lock that is found held is
    held by this very CPU: [acquire] panics on it (spinlock.c:28), and
    [release] panics on a lock that is not held (spinlock.c:49). *)
Definition acquire {S} (held : S -> bool) (set : bool -> S -> S) : M S unit :=
  fun s => if held s then Panic "acquire" else Ok (tt, set true s).
Definition release {S} (held : S -> bool) (set : bool -> S -> S) : M S unit :=
  fun s => if held s then Ok (tt, set false s) else Panic "release".

(** [if (c) m;] *)
Definition mwhen {S} (c : bool) (m : M S unit) : M S unit := if c then m else mret tt.

(** ** Postconditions

    [post m s Q]: if [m] returns from [s], the result satisfies [Q].  Used for
    invariants; that an operation does return is stated with [Ok]. *)
Definition post {S A} (m : M S A) (s : S) (Q : A -> S -> Prop) : Prop :=
  forall a s', m s = Ok (a, s') -> Q a s'.

(** ** Tactics *)

Ltac zbool :=
  repeat match goal with
  | H : (_ =? _) = true |- _ => apply Z.eqb_eq in H
  | H : (_ =? _) = false |- _ => apply Z.eqb_neq in H
  | H : (_ <? _) = true |- _ => apply Z.ltb_lt in H
  | H : (_ <? _) = false |- _ => apply Z.ltb_ge in H
  | H : (_ <=? _) = true |- _ => apply Z.leb_le in H
  | H : (_ <=? _) = false |- _ => apply Z.leb_gt in H
  | H : (_ >=? _) = _ |- _ => rewrite Z.geb_leb in H
  | H : (_ >? _) = _ |- _ => rewrite Z.gtb_ltb in H
  | H : (_ && _)%bool = true |- _ => apply andb_true_iff in H; destruct H
  | H : (_ || _)%bool = false |- _ => apply orb_false_iff in H; destruct H
  | H : (_ && _)%bool = false |- _ => apply andb_false_iff in H; destruct H
  | H : (_ || _)%bool = true |- _ => apply orb_true_iff in H; destruct H
  | H : negb _ = true |- _ => apply negb_true_iff in H
  | H : negb _ = false |- _ => apply negb_false_iff in H
  end.

(** Case analysis on the integer test that guards a conditional of the goal. *)
Ltac zcase :=
  match goal with
  | |- context [if ?a =? ?b then _ else _] => destruct (Z.eqb_spec a b)
  | |- context [if ?a <? ?b then _ else _] => destruct (Z.ltb_spec a b)
  | |- context [if ?a <=? ?b then _ else _] => destruct (Z.leb_spec a b)
  | |- context [if ?b then _ else _] => destruct b eqn:?; zbool
  end.

(** Linear arithmetic with division and remainder by constants. *)
Ltac zlia := Z.to_euclidean_division_equations; lia.

Ltac mstep := cbn [mbind mret mget mset mpanic mblock mundef mnofuel obind].

(** Decides the comparison in the goal that arithmetic settles. *)
Ltac ztrue t := rewrite (proj2 t) by lia.

(** ** Generic lemmas *)

Lemma mbind_ok {S A B} (m : M S A) (k : A -> M S B) s a s' :
  m s = Ok (a, s') -> mbind m k s = k a s'.
Proof. intros H. unfold mbind. by rewrite H. Qed.

Lemma mbind_assoc {S A B C} (m : M S A) (k : A -> M S B) (h : B -> M S C) s :
  mbind (mbind m k) h s = mbind m (fun a => mbind (k a) h) s.
Proof. unfold mbind. by destruct (m s) as [[a s']| | | |]. Qed.

Lemma mbind_panic {S A B} (m : M S A) (k : A -> M S B) s e :
  m s = Panic e -> mbind m k s = Panic e.
Proof. intros H. unfold mbind. by rewrite H. Qed.

Lemma mbind_get {S A B} (f : S -> A) (k : A -> M S B) s : mbind (mget f) k s = k (f s) s.
Proof. reflexivity. Qed.
Lemma mbind_set {S B} (f : S -> S) (k : unit -> M S B) s : mbind (mset f) k s = k tt (f s).
Proof. reflexivity. Qed.
Lemma mbind_ret {S A B} (a : A) (k : A -> M S B) s : mbind (mret a) k s = k a s.
Proof. reflexivity. Qed.

(** Runs the state accesses at the head of the computation in the goal. *)
Ltac mgo :=
  repeat (match goal with
  | |- context [mbind (mget ?f) ?k ?s] => rewrite (mbind_get f k s)
  | |- context [mbind (mset ?f) ?k ?s] => rewrite (mbind_set f k s)
  | |- context [mbind (mret ?a) ?k ?s] => rewrite (mbind_ret a k s)
  | |- context [mbind (mbind ?m ?k1) ?k ?s] => rewrite (mbind_assoc m k1 k s)
  end; cbv beta).

(** Runs the first step of the computation in the goal, by its equation [H]. *)
Ltac mby H := rewrite (mbind_ok _ _ _ _ _ H); cbv beta; mgo.

Lemma mbind_inv {S A B} (m : M S A) (k : A -> M S B) s r :
  mbind m k s = Ok r -> exists a s', m s = Ok (a, s') /\ k a s' = Ok r.
Proof.
  unfold mbind. destruct (m s) as [[a s']| | | |]; simpl; try discriminate.
  intros H. eauto.
Qed.

Lemma post_bind {S A B} (m : M S A) (k : A -> M S B) s Q :
  post m s (fun a s' => post (k a) s' Q) -> post (mbind m k) s Q.
Proof.
  intros H b s' E. unfold mbind in E. destruct (m s) as [[a s1]| | | |] eqn:Em; try done.
  exact (H a s1 Em b s' E).
Qed.

Lemma post_conseq {S A} (m : M S A) s (P Q : A -> S -> Prop) :
  post m s P -> (forall a s', P a s' -> Q a s') -> post m s Q.
Proof. intros H HPQ a s' E. apply HPQ, H, E. Qed.

Lemma post_ret {S A} (a : A) (s : S) (Q : A -> S -> Prop) : Q a s -> post (mret a) s Q.
Proof. intros H b s' E. by injection E as <- <-. Qed.

Lemma post_get {S A} (f : S -> A) (s : S) (Q : A -> S -> Prop) : Q (f s) s -> post (mget f) s Q.
Proof. intros H b s' E. by injection E as <- <-. Qed.

Lemma post_set {S} (f : S -> S) (s : S) (Q : unit -> S -> Prop) : Q tt (f s) -> post (mset f) s Q.
Proof. intros H b s' E. by injection E as <- <-. Qed.

Lemma post_acquire {S} (h : S -> bool) set (s : S) (Q : unit -> S -> Prop) :
  (h s = false -> Q tt (set true s)) -> post (acquire h set) s Q.
Proof. intros H b s' E. unfold acquire in E. destruct (h s) eqn:Eh; [done|]. injection E as <- <-. auto. Qed.

Lemma post_release {S} (h : S -> bool) set (s : S) (Q : unit -> S -> Prop) :
  (h s = true -> Q tt (set false s)) -> post (release h set) s Q.
Proof. intros H b s' E. unfold release in E. destruct (h s) eqn:Eh; [|done]. injection E as <- <-. auto. Qed.

Lemma post_panic {S A} e (s : S) (Q : A -> S -> Prop) : post (mpanic e) s Q.
Proof. done. Qed.

Lemma post_undef {S A} (s : S) (Q : A -> S -> Prop) : post mundef s Q.
Proof. done. Qed.

Lemma post_when {S} (c : bool) (m : M S unit) s Q :
  (c = true -> post m s Q) -> (c = false -> Q tt s) -> post (mwhen c m) s Q.
Proof. intros H1 H2. unfold mwhen. destruct c; [auto|]. apply post_ret. auto. Qed.

Lemma post_for {S} (I : Z -> S -> Prop) (body : Z -> M S unit) n i s :
  I i s ->
  (forall j t, i <= j < i + Z.of_nat n -> I j t -> post (body j) t (fun _ t' => I (j + 1) t')) ->
  post (for_ n i body) s (fun _ s' => I (i + Z.of_nat n) s').
Proof.
  revert i s. induction n as [|n IH]; intros i s Hi Hb; simpl.
  - apply post_ret. by rewrite Z.add_0_r.
  - apply post_bind. intros u t Ht. specialize (Hb i s) as Hbi.
    intros u' t' E. replace (i + Z.of_nat (Datatypes.S n)) with (i + 1 + Z.of_nat n) by lia.
    revert u' t' E. apply IH.
    + apply (Hbi ltac:(lia) Hi _ _ Ht).
    + intros j t1 Hj. apply Hb. lia.
Qed.

(** The invariant rule for counted loops. *)
Lemma for_inv {S} (I : Z -> S -> Prop) (body : Z -> M S unit) n i s :
  I i s ->
  (forall j t, i <= j < i + Z.of_nat n -> I j t ->
     exists t', body j t = Ok (tt, t') /\ I (j + 1) t') ->
  exists s', for_ n i body s = Ok (tt, s') /\ I (i + Z.of_nat n) s'.
Proof.
  revert i s. induction n as [|n IH]; intros i s Hi Hb; simpl.
  - exists s. rewrite Z.add_0_r. split; [reflexivity|exact Hi].
  - destruct (Hb i s) as (t & Ht & HI); [lia|done|].
    destruct (IH (i + 1) t HI) as (s' & Hs' & HI').
    { intros j u Hj. apply Hb. lia. }
    exists s'. rewrite (mbind_ok _ _ _ _ _ Ht).
    split; [done|]. by replace (i + Z.of_nat (Datatypes.S n)) with (i + 1 + Z.of_nat n) by lia.
Qed.

(** A loop panics when one iteration does. *)
Lemma for_panic {S} (I : Z -> S -> Prop) (body : Z -> M S unit) n i k s msg :
  I i s -> i <= k < i + Z.of_nat n ->
  (forall j t, i <= j < k -> I j t -> exists t', body j t = Ok (tt, t') /\ I (j + 1) t') ->
  (forall t, I k t -> body k t = Panic msg) ->
  for_ n i body s = Panic msg.
Proof.
  revert i s. induction n as [|n IH]; intros i s Hi Hk Hb Hp; [lia|]. simpl.
  destruct (Z.eq_dec i k) as [->|Hne]; [by apply mbind_panic, Hp|].
  destruct (Hb i s) as (t & Ht & HI); [lia|done|]. rewrite (mbind_ok _ _ _ _ _ Ht).
  apply (IH (i + 1) t HI); [lia| |done]. intros j u Hj. apply Hb. lia.
Qed.

(** Updating a list at a position that holds [x]. *)
Lemma alter_insert {A} (f : A -> A) i (l : list A) x : l !! i = Some x -> alter f i l = <[i := f x]> l.
Proof.
  intros Hx. apply list_eq. intros j. rewrite list_lookup_alter. destruct (decide (i = j)) as [<-|Hne].
  - rewrite Hx, list_lookup_insert_eq by (by eapply lookup_lt_Some). done.
  - by rewrite list_lookup_insert_ne.
Qed.

Lemma u32_small x : is_u32 x -> u32 x = x.
Proof. intros H. apply Z.mod_small. exact H. Qed.

Lemma u32_range x : is_u32 (u32 x).
Proof. unfold is_u32, u32. apply Z.mod_pos_bound. lia. Qed.

Lemma u32_u32 x : u32 (u32 x) = u32 x.
Proof. apply u32_small, u32_range. Qed.

Lemma u32_sub_u32 x y : u32 (u32 x - y) = u32 (x - y).
Proof. unfold u32. by rewrite Zminus_mod_idemp_l. Qed.

Lemma u32_add_u32 x y : u32 (u32 x + y) = u32 (x + y).
Proof. unfold u32. by rewrite Zplus_mod_idemp_l. Qed.

Lemma s32_small x : - 2 ^ 31 <= x < 2 ^ 31 -> s32 x = x.
Proof. intros H. unfold s32. rewrite Z.mod_small; lia. Qed.

(** Rounding down to a multiple of [2^k], as a mask. *)
Lemma land_round_down x k :
  0 <= k -> Z.land x (- 2 ^ k) = x - x mod 2 ^ k.
Proof.
  intros Hk. replace (- 2 ^ k) with (Z.lnot (Z.ones k)).
  - rewrite <- Z.ldiff_land, Z.sub_nocarry_ldiff.
    + rewrite <- Z.land_ones by done. apply Z.bits_inj'. intros n Hn.
      rewrite !Z.ldiff_spec, Z.land_spec. destruct (Z.testbit x n); simpl; [|done].
      by destruct (Z.testbit (Z.ones k) n).
    + rewrite <- Z.land_ones by done. apply Z.bits_inj'. intros n Hn.
      rewrite Z.ldiff_spec, Z.land_spec, Z.bits_0.
      by destruct (Z.testbit x n), (Z.testbit (Z.ones k) n).
  - rewrite Z.ones_equiv. unfold Z.lnot. lia.
Qed.

(** The same with the mask as a 32-bit constant. *)
Lemma land_round_down_u32 x k :
  0 <= k <= 32 -> is_u32 x -> Z.land x (2 ^ 32 - 2 ^ k) = x - x mod 2 ^ k.
Proof.
  intros Hk Hx. rewrite <- land_round_down by lia.
  apply Z.bits_inj'. intros n Hn. rewrite !Z.land_spec.
  destruct (Z.lt_ge_cases n 32) as [Hn32|Hn32].
  - f_equal. replace (2 ^ 32 - 2 ^ k) with ((- 2 ^ k) mod 2 ^ 32).
    + by rewrite Z.mod_pow2_bits_low by lia.
    + pose proof (Z.pow_pos_nonneg 2 k ltac:(lia) ltac:(lia)).
      pose proof (Z.pow_le_mono_r 2 k 32 ltac:(lia) ltac:(lia)).
      symmetry. apply (Z.mod_unique_pos _ _ (-1)); lia.
  - rewrite (Z.bits_above_log2 x n); [done|unfold is_u32 in *; lia|].
    destruct (Z.eq_dec x 0) as [->|]; [simpl; lia|].
    apply Z.log2_lt_pow2; unfold is_u32 in *; [lia|].
    pose proof (Z.pow_le_mono_r 2 32 n ltac:(lia) ltac:(lia)). lia.
Qed.

(** Putting flag bits below an aligned address is addition. *)
Lemma lor_aligned a f k :
  0 <= k -> a mod 2 ^ k = 0 -> 0 <= f < 2 ^ k -> Z.lor a f = a + f.
Proof.
  intros Hk Ha Hf. symmetry. apply Z.add_nocarry_lor.
  apply Z.bits_inj'. intros n Hn. rewrite Z.land_spec, Z.bits_0.
  destruct (Z.lt_ge_cases n k) as [H|H].
  - rewrite <- (Z.mod_pow2_bits_low a k n), Ha, Z.bits_0 by lia. done.
  - rewrite (Z.mod_pow2_bits_high f k n) || (rewrite <- (Z.mod_small f (2 ^ k)) by lia;
      rewrite Z.mod_pow2_bits_high by lia); apply andb_false_r.
Qed.
