(* ===== verification/Bytes.v ===== *)
(** * Byte-addressed memories and [string.c]

    A memory (kernel memory, a disk block, a user buffer) is a total map from
    addresses to byte values.  The first part gives loads and stores of bytes,
    16- and 32-bit little-endian words and whole ranges; the second part
    translates [src/xv6/string.c], loop by loop, and proves that each routine
    has the effect of the range operations the other files use. *)

From Stdlib Require Import ZArith Lia.
From stdpp Require Import base numbers list.
From S2P Require Import Prelude.

Local Open Scope Z_scope.

(** ** Memories *)

Definition mem : Type := Z -> Z.

Definition mem_eq (m1 m2 : mem) : Prop := forall a, m1 a = m2 a.
Infix "≡ₘ" := mem_eq (at level 70) : kernel_scope.
Local Open Scope kernel_scope.

Definition wf_mem (m : mem) : Prop := forall a, is_byte (m a).

Definition put8 (m : mem) (a v : Z) : mem :=
  fun x => if x =? a then u8 v else m x.

Definition get16 (m : mem) (a : Z) : Z := m a + 256 * m (a + 1).
Definition put16 (m : mem) (a v : Z) : mem :=
  put8 (put8 m a v) (a + 1) (Z.shiftr v 8).

Definition get32 (m : mem) (a : Z) : Z :=
  m a + 256 * m (a + 1) + 65536 * m (a + 2) + 16777216 * m (a + 3).
Definition put32 (m : mem) (a v : Z) : mem :=
  put8 (put8 (put8 (put8 m a v) (a + 1) (Z.shiftr v 8)) (a + 2) (Z.shiftr v 16))
       (a + 3) (Z.shiftr v 24).

(** [n] bytes from [a]. *)
Fixpoint load (m : mem) (a : Z) (n : nat) : list Z :=
  match n with
  | O => []
  | S n' => m a :: load m (a + 1) n'
  end.

(** Store the bytes of [l] from [a] on. *)
Fixpoint store (m : mem) (a : Z) (l : list Z) : mem :=
  match l with
  | [] => m
  | c :: l' => store (put8 m a c) (a + 1) l'
  end.

(** The effect of filling and of copying a range. *)
Definition fill (m : mem) (a n c : Z) : mem :=
  fun x => if (a <=? x) && (x <? a + n) then c else m x.
Definition copy (m : mem) (d s n : Z) : mem :=
  fun x => if (d <=? x) && (x <? d + n) then m (s + (x - d)) else m x.

(** The string a NUL-terminated byte sequence denotes. *)
Fixpoint cstr (l : list Z) : list Z :=
  match l with
  | [] => []
  | c :: l' => if c =? 0 then [] else c :: cstr l'
  end.

(** ** [string.c] *)

(** [rep stosb] and [rep stosl] of x86.h. *)
Fixpoint stosb (m : mem) (addr data : Z) (cnt : nat) : mem :=
  match cnt with
  | O => m
  | S n => stosb (put8 m addr data) (addr + 1) data n
  end.

Fixpoint stosl (m : mem) (addr data : Z) (cnt : nat) : mem :=
  match cnt with
  | O => m
  | S n => stosl (put32 m addr data) (addr + 4) data n
  end.

Definition memset (m : mem) (dst c n : Z) : mem :=
  if (Z.rem (s32 dst) 4 =? 0) && (n mod 4 =? 0)
  then
    let c := Z.land c 255 in
    stosl m dst (Z.lor (Z.lor (Z.lor (Z.shiftl c 24) (Z.shiftl c 16)) (Z.shiftl c 8)) c)
          (Z.to_nat (n / 4))
  else stosb m dst c (Z.to_nat n).

Fixpoint memcmp (m : mem) (s1 s2 : Z) (n : nat) : Z :=
  match n with
  | O => 0
  | S n' => if m s1 =? m s2 then memcmp m (s1 + 1) (s2 + 1) n' else m s1 - m s2
  end.

(** The two loops of [memmove]. *)
Fixpoint memmove_down (m : mem) (d s : Z) (n : nat) : mem :=
  match n with
  | O => m
  | S n' => memmove_down (put8 m (d - 1) (m (s - 1))) (d - 1) (s - 1) n'
  end.

Fixpoint memmove_up (m : mem) (d s : Z) (n : nat) : mem :=
  match n with
  | O => m
  | S n' => memmove_up (put8 m d (m s)) (d + 1) (s + 1) n'
  end.

Definition memmove (m : mem) (d s n : Z) : mem :=
  if (s <? d) && (s + n >? d)
  then memmove_down m (d + n) (s + n) (Z.to_nat n)
  else memmove_up m d s (Z.to_nat n).

Definition memcpy (m : mem) (d s n : Z) : mem := memmove m d s n.

Fixpoint strncmp (m : mem) (p q : Z) (n : nat) : Z :=
  match n with
  | O => 0
  | S n' =>
      if negb (m p =? 0) && (m p =? m q) then strncmp m (p + 1) (q + 1) n'
      else m p - m q
  end.

(** First loop of [strncpy]: the memory, the destination pointer and the count
    it leaves. *)
Fixpoint strncpy_copy (m : mem) (s t : Z) (n : nat) : mem * Z * nat :=
  match n with
  | O => (m, s, O)
  | S n' =>
      let c := m t in
      let m' := put8 m s c in
      if c =? 0 then (m', s + 1, n') else strncpy_copy m' (s + 1) (t + 1) n'
  end.

Definition strncpy (m : mem) (s t : Z) (n : nat) : mem :=
  let '(m1, s1, n1) := strncpy_copy m s t n in stosb m1 s1 0 n1.

(** The loop of [safestrcpy]: the memory and the destination pointer. *)
Fixpoint safestrcpy_copy (m : mem) (s t : Z) (n : nat) : mem * Z :=
  match n with
  | O => (m, s)
  | S n' =>
      let c := m t in
      let m' := put8 m s c in
      if c =? 0 then (m', s + 1) else safestrcpy_copy m' (s + 1) (t + 1) n'
  end.

Definition safestrcpy (m : mem) (s t n : Z) : mem :=
  if n <=? 0 then m
  else let '(m1, s1) := safestrcpy_copy m s t (Z.to_nat (n - 1)) in put8 m1 s1 0.

(** [strlen] reads on until a NUL: the bound is the caller's. *)
Fixpoint strlen_from (m : mem) (s : Z) (n : Z) (fuel : nat) : outcome Z :=
  match fuel with
  | O => NoFuel
  | S f => if m (s + n) =? 0 then Ok n else strlen_from m s (n + 1) f
  end.
Definition strlen (m : mem) (s : Z) (fuel : nat) : outcome Z := strlen_from m s 0 fuel.

(** ** Setoid structure *)

#[export] Instance mem_eq_equiv : Equivalence mem_eq.
Proof.
  split.
  - intros m a. reflexivity.
  - intros m1 m2 H a. by rewrite H.
  - intros m1 m2 m3 H1 H2 a. by rewrite H1.
Qed.

#[export] Instance put8_proper : Proper (mem_eq ==> eq ==> eq ==> mem_eq) put8.
Proof. intros m1 m2 H a ? <- v ? <- x. unfold put8. by rewrite H. Qed.

#[export] Instance get32_proper : Proper (mem_eq ==> eq ==> eq) get32.
Proof. intros m1 m2 H a ? <-. unfold get32. by rewrite !H. Qed.

#[export] Instance put32_proper : Proper (mem_eq ==> eq ==> eq ==> mem_eq) put32.
Proof. intros m1 m2 H a ? <- v ? <-. unfold put32. by rewrite H. Qed.

#[export] Instance load_proper : Proper (mem_eq ==> eq ==> eq ==> eq) load.
Proof.
  intros m1 m2 H a ? <- n ? <-. revert a.
  induction n as [|n IH]; intros a; simpl; [done|]. by rewrite H, IH.
Qed.

#[export] Instance fill_proper : Proper (mem_eq ==> eq ==> eq ==> eq ==> mem_eq) fill.
Proof. intros m1 m2 H a ? <- n ? <- c ? <- x. unfold fill. by rewrite H. Qed.

(** ** Lemmas on loads and stores *)

Create HintDb mem.

Lemma put8_eq m a v : put8 m a v a = u8 v.
Proof. unfold put8. by rewrite Z.eqb_refl. Qed.

Lemma put8_ne m a v x : x <> a -> put8 m a v x = m x.
Proof. intros H. unfold put8. by rewrite (proj2 (Z.eqb_neq x a) H). Qed.

Lemma u8_byte v : is_byte v -> u8 v = v.
Proof. intros H. apply Z.mod_small. exact H. Qed.

Lemma is_byte_u8 v : is_byte (u8 v).
Proof. unfold is_byte, u8. pose proof (Z.mod_pos_bound v (2 ^ 8)). lia. Qed.

Lemma wf_zero : wf_mem (fun _ => 0).
Proof. intros a. unfold is_byte. lia. Qed.

Lemma wf_put8 m a v : wf_mem m -> wf_mem (put8 m a v).
Proof. intros H x. unfold put8. zcase; first [apply is_byte_u8|apply H]. Qed.

Lemma wf_put32 m a v : wf_mem m -> wf_mem (put32 m a v).
Proof. intros H. unfold put32. by repeat apply wf_put8. Qed.

Lemma wf_fill m a n c : wf_mem m -> is_byte c -> wf_mem (fill m a n c).
Proof. intros H Hc x. unfold fill. zcase; first [done|apply H]. Qed.

Lemma wf_copy m d s n : wf_mem m -> wf_mem (copy m d s n).
Proof. intros H x. unfold copy. zcase; apply H. Qed.

#[export] Hint Resolve wf_put8 wf_put32 wf_fill wf_copy is_byte_u8 : mem.

Ltac put8_solve :=
  repeat (rewrite put8_eq || (rewrite put8_ne by lia)).

Lemma put32_ne m a v x : x < a \/ a + 4 <= x -> put32 m a v x = m x.
Proof. intros H. unfold put32. by rewrite !put8_ne by lia. Qed.

Lemma shiftr_bytes v :
  is_u32 v ->
  u8 v + 256 * u8 (Z.shiftr v 8) + 65536 * u8 (Z.shiftr v 16)
  + 16777216 * u8 (Z.shiftr v 24) = v.
Proof.
  intros H. unfold u8, is_u32 in *. rewrite !Z.shiftr_div_pow2 by lia.
  change (2 ^ 8) with 256. change (2 ^ 16) with 65536. change (2 ^ 24) with 16777216.
  zlia.
Qed.

Lemma get32_put32_eq m a v : is_u32 v -> get32 (put32 m a v) a = v.
Proof.
  intros H. rewrite <- (shiftr_bytes v H) at 2. unfold get32, put32. by put8_solve.
Qed.

Lemma get32_ext m m' a :
  (forall x, a <= x < a + 4 -> m' x = m x) -> get32 m' a = get32 m a.
Proof. intros H. unfold get32. by rewrite !H by lia. Qed.

Lemma get32_put32_ne m a v b :
  b + 4 <= a \/ a + 4 <= b -> get32 (put32 m a v) b = get32 m b.
Proof. intros H. apply get32_ext. intros x Hx. apply put32_ne. lia. Qed.

Lemma get32_range m a : wf_mem m -> is_u32 (get32 m a).
Proof.
  intros H. unfold get32, is_u32.
  pose proof (H a). pose proof (H (a + 1)). pose proof (H (a + 2)). pose proof (H (a + 3)).
  unfold is_byte in *. lia.
Qed.

Lemma fill_in m a n c x : a <= x < a + n -> fill m a n c x = c.
Proof. intros H. unfold fill. zcase; first [done|lia]. Qed.

Lemma fill_out m a n c x : x < a \/ a + n <= x -> fill m a n c x = m x.
Proof. intros H. unfold fill. zcase; first [lia|done]. Qed.

Lemma copy_in m d s n x : d <= x < d + n -> copy m d s n x = m (s + (x - d)).
Proof. intros H. unfold copy. zcase; first [done|lia]. Qed.

Lemma copy_out m d s n x : x < d \/ d + n <= x -> copy m d s n x = m x.
Proof. intros H. unfold copy. zcase; first [lia|done]. Qed.

Lemma get32_fill_out m a n c b :
  b + 4 <= a \/ a + n <= b -> get32 (fill m a n c) b = get32 m b.
Proof. intros H. apply get32_ext. intros x Hx. apply fill_out. lia. Qed.

Lemma get32_fill_zero m a n b :
  a <= b -> b + 4 <= a + n -> get32 (fill m a n 0) b = 0.
Proof. intros H1 H2. unfold get32. by rewrite !fill_in by lia. Qed.

Lemma length_load m a n : length (load m a n) = n.
Proof. revert a. induction n as [|n IH]; intros a; simpl; [done|]. by rewrite IH. Qed.

Lemma load_ext m m' a n :
  (forall x, a <= x < a + Z.of_nat n -> m' x = m x) -> load m' a n = load m a n.
Proof.
  revert a. induction n as [|n IH]; intros a H; simpl; [done|].
  rewrite H by lia. rewrite IH; [done|]. intros x Hx. apply H. lia.
Qed.

Lemma load_lookup m a n i :
  (i < n)%nat -> load m a n !! i = Some (m (a + Z.of_nat i)).
Proof.
  revert a i. induction n as [|n IH]; intros a i H; [lia|].
  destruct i as [|i]; simpl; [by rewrite Z.add_0_r|].
  rewrite IH by lia. f_equal. f_equal. lia.
Qed.

Lemma load_app m a n1 n2 :
  load m a (n1 + n2) = load m a n1 ++ load m (a + Z.of_nat n1) n2.
Proof.
  revert a. induction n1 as [|n IH]; intros a; simpl.
  - by rewrite Z.add_0_r.
  - rewrite IH. by replace (a + Z.of_nat (S n)) with (a + 1 + Z.of_nat n) by lia.
Qed.

Lemma load_copy m m' a b n :
  (forall k, 0 <= k < Z.of_nat n -> m (a + k) = m' (b + k)) -> load m a n = load m' b n.
Proof.
  revert a b. induction n as [|n IH]; intros a b H; simpl; [done|]. f_equal.
  - specialize (H 0). rewrite !Z.add_0_r in H. apply H. lia.
  - apply IH. intros k Hk. specialize (H (k + 1)). rewrite !(Z.add_comm k 1), !Z.add_assoc in H. apply H. lia.
Qed.

Lemma load_fill_in m a n c b k :
  a <= b -> b + Z.of_nat k <= a + n -> load (fill m a n c) b k = replicate k c.
Proof.
  revert b. induction k as [|k IH]; intros b H1 H2; simpl; [done|].
  rewrite fill_in, IH by lia. done.
Qed.

Lemma store_out m a l x :
  x < a \/ a + Z.of_nat (length l) <= x -> store m a l x = m x.
Proof.
  revert m a. induction l as [|c l IH]; intros m a H; simpl in *; [done|].
  rewrite IH by lia. apply put8_ne. lia.
Qed.

Lemma load_store m a l :
  Forall is_byte l -> load (store m a l) a (length l) = l.
Proof.
  revert m a. induction l as [|c l IH]; intros m a H; simpl in *; [done|].
  inversion H as [|? ? Hc Hl]; subst.
  rewrite IH by done. rewrite store_out by lia. rewrite put8_eq, u8_byte by done. done.
Qed.

Lemma Forall_load m a n : wf_mem m -> Forall is_byte (load m a n).
Proof.
  intros H. revert a. induction n as [|n IH]; intros a; simpl; constructor; [apply H|apply IH].
Qed.

(** ** Correctness of [string.c] *)

Lemma stosb_fill m a c n : stosb m a c n ≡ₘ fill m a (Z.of_nat n) (u8 c).
Proof.
  revert m a. induction n as [|n IH]; intros m a x; simpl.
  - by rewrite fill_out by lia.
  - rewrite IH. unfold fill, put8. repeat zcase; first [done|lia].
Qed.

Lemma stosl_fill m a w c n :
  u8 w = c -> u8 (Z.shiftr w 8) = c -> u8 (Z.shiftr w 16) = c -> u8 (Z.shiftr w 24) = c ->
  stosl m a w n ≡ₘ fill m a (4 * Z.of_nat n) c.
Proof.
  intros H0 H1 H2 H3. revert m a. induction n as [|n IH]; intros m a x; simpl.
  - by rewrite fill_out by lia.
  - rewrite IH. unfold fill, put32, put8. rewrite H0, H1, H2, H3.
    repeat zcase; first [done|lia].
Qed.

Lemma memset_word_bytes c :
  let w := Z.lor (Z.lor (Z.lor (Z.shiftl (Z.land c 255) 24) (Z.shiftl (Z.land c 255) 16))
                        (Z.shiftl (Z.land c 255) 8)) (Z.land c 255) in
  u8 w = u8 c /\ u8 (Z.shiftr w 8) = u8 c /\ u8 (Z.shiftr w 16) = u8 c /\
  u8 (Z.shiftr w 24) = u8 c.
Proof.
  intros w. unfold u8. change 255 with (Z.ones 8) in w. subst w.
  rewrite !Z.land_ones by lia.
  assert (Hb : 0 <= c mod 2 ^ 8 < 2 ^ 8) by (apply Z.mod_pos_bound; lia).
  set (b := c mod 2 ^ 8) in *.
  rewrite !Z.shiftl_mul_pow2 by lia.
  rewrite (lor_aligned (b * 2 ^ 24) (b * 2 ^ 16) 24) by (try lia; zlia).
  rewrite (lor_aligned (b * 2 ^ 24 + b * 2 ^ 16) (b * 2 ^ 8) 16) by (try lia; zlia).
  rewrite (lor_aligned (b * 2 ^ 24 + b * 2 ^ 16 + b * 2 ^ 8) b 8) by (try lia; zlia).
  rewrite !Z.shiftr_div_pow2 by lia.
  repeat split; zlia.
Qed.

(** Both the word and the byte path of [memset] fill the range. *)
Lemma memset_spec m dst c n :
  0 <= n -> memset m dst c n ≡ₘ fill m dst n (u8 c).
Proof.
  intros Hn. unfold memset. zcase.
  - destruct (memset_word_bytes c) as (E0 & E1 & E2 & E3).
    rewrite (stosl_fill _ _ _ (u8 c)) by done.
    by replace (4 * Z.of_nat (Z.to_nat (n / 4))) with n by zlia.
  - rewrite stosb_fill. by rewrite Z2Nat.id by lia.
  - rewrite stosb_fill. by rewrite Z2Nat.id by lia.
Qed.

Lemma memmove_up_spec m d s n :
  wf_mem m -> d <= s \/ s + Z.of_nat n <= d ->
  memmove_up m d s n ≡ₘ copy m d s (Z.of_nat n).
Proof.
  revert m d s. induction n as [|n IH]; intros m d s Hw H x; simpl.
  - by rewrite copy_out by lia.
  - rewrite IH by (auto with mem; lia). unfold copy.
    destruct (Z.eq_dec x d) as [->|Hx].
    + repeat zcase; try lia. rewrite put8_eq, u8_byte by apply Hw. f_equal. lia.
    + repeat zcase; try lia; rewrite put8_ne by lia; f_equal; lia.
Qed.

Lemma memmove_down_spec m d s n :
  wf_mem m -> s < d ->
  memmove_down m (d + Z.of_nat n) (s + Z.of_nat n) n ≡ₘ copy m d s (Z.of_nat n).
Proof.
  revert m. induction n as [|n IH]; intros m Hw H x.
  - simpl. by rewrite copy_out by lia.
  - cbn [memmove_down].
    replace (d + Z.of_nat (S n) - 1) with (d + Z.of_nat n) by lia.
    replace (s + Z.of_nat (S n) - 1) with (s + Z.of_nat n) by lia.
    rewrite IH by auto with mem. unfold copy.
    destruct (Z.eq_dec x (d + Z.of_nat n)) as [->|Hx].
    + repeat zcase; try lia. rewrite put8_eq, u8_byte by apply Hw. f_equal. lia.
    + repeat zcase; try lia; rewrite put8_ne by lia; f_equal; lia.
Qed.

(** [memmove] copies the original bytes whatever the overlap. *)
Lemma memmove_spec m d s n :
  wf_mem m -> 0 <= n -> memmove m d s n ≡ₘ copy m d s n.
Proof.
  intros Hw Hn. unfold memmove. remember (Z.to_nat n) as k eqn:Hk.
  replace n with (Z.of_nat k) by lia. clear Hk Hn n. zcase.
  - apply memmove_down_spec; [done|lia].
  - apply memmove_up_spec; [done|lia].
  - apply memmove_up_spec; [done|lia].
Qed.

Lemma strncpy_S m s t n :
  strncpy m s t (S n) =
  if m t =? 0 then stosb (put8 m s (m t)) (s + 1) 0 n
  else strncpy (put8 m s (m t)) (s + 1) (t + 1) n.
Proof. unfold strncpy. simpl. by zcase. Qed.

Lemma strncpy_out m s t n x :
  x < s \/ s + Z.of_nat n <= x -> strncpy m s t n x = m x.
Proof.
  revert m s t. induction n as [|n IH]; intros m s t H; [done|].
  rewrite strncpy_S. zcase.
  - rewrite stosb_fill, fill_out by lia. apply put8_ne. lia.
  - rewrite IH by lia. apply put8_ne. lia.
Qed.

Lemma length_cstr l : (length (cstr l) <= length l)%nat.
Proof. induction l as [|c l IH]; simpl; [done|]. zcase; simpl; lia. Qed.

Lemma cstr_nonzero l : Forall (fun c => c <> 0) (cstr l).
Proof. induction l as [|c l IH]; simpl; [done|]. zcase; by constructor. Qed.

Lemma cstr_app_zero l k : (0 < k)%nat -> Forall (fun c => c <> 0) l -> cstr (l ++ replicate k 0) = l.
Proof.
  intros Hk H. induction H as [|c l Hc Hl IH]; simpl.
  - by destruct k; [lia|].
  - zcase; [done|]. by rewrite IH.
Qed.

Lemma cstr_id l : Forall (fun c => c <> 0) l -> cstr l = l.
Proof. intros H. induction H as [|c l Hc Hl IH]; simpl; [done|]. zcase; [done|by rewrite IH]. Qed.

Lemma strncpy_load m s t n :
  wf_mem m -> s + Z.of_nat n <= t \/ t + Z.of_nat n <= s ->
  load (strncpy m s t n) s n =
  cstr (load m t n) ++ replicate (n - length (cstr (load m t n))) 0.
Proof.
  revert m s t. induction n as [|n IH]; intros m s t Hw H; [done|].
  rewrite strncpy_S. cbn [load cstr]. destruct (Z.eqb_spec (m t) 0) as [E|E].
  - simpl. f_equal.
    + rewrite stosb_fill, fill_out, put8_eq by lia. by rewrite E.
    + rewrite stosb_fill. apply load_fill_in; lia.
  - rewrite strncpy_out by lia. rewrite put8_eq, u8_byte by apply Hw.
    simpl. f_equal. rewrite IH; [|auto with mem|lia].
    rewrite (load_ext m (put8 _ _ _) (t + 1) n); [done|].
    intros x Hx. apply put8_ne. lia.
Qed.

Lemma strncmp_zero m p q n :
  strncmp m p q n = 0 <-> cstr (load m p n) = cstr (load m q n).
Proof.
  revert p q. induction n as [|n IH]; intros p q; simpl; [done|].
  destruct (Z.eqb_spec (m p) 0) as [Ep|Ep], (Z.eqb_spec (m p) (m q)) as [E|E]; simpl.
  - rewrite <- E, Ep. simpl. rewrite ?Z.sub_diag. by split.
  - destruct (Z.eqb_spec (m q) 0); [lia|]. split; [lia|done].
  - rewrite <- E. destruct (Z.eqb_spec (m p) 0); [lia|]. rewrite IH. split; congruence.
  - destruct (Z.eqb_spec (m q) 0); split; intros H; try lia; try done. congruence.
Qed.

Lemma safestrcpy_copy_S m s t n :
  safestrcpy_copy m s t (S n) =
  if m t =? 0 then (put8 m s (m t), s + 1)
  else safestrcpy_copy (put8 m s (m t)) (s + 1) (t + 1) n.
Proof. done. Qed.

Lemma safestrcpy_copy_spec m s t n m1 s1 :
  wf_mem m -> s + Z.of_nat n <= t \/ t + Z.of_nat n <= s ->
  safestrcpy_copy m s t n = (m1, s1) ->
  let k := length (cstr (load m t n)) in
  load (put8 m1 s1 0) s (S k) = cstr (load m t n) ++ [0] /\
  (forall x, x < s \/ s + Z.of_nat n < x -> put8 m1 s1 0 x = m x) /\
  s <= s1 <= s + Z.of_nat n.
Proof.
  revert m s t. induction n as [|n IH]; intros m s t Hw H Hr.
  - injection Hr as <- <-. simpl. split; [|split].
    + by rewrite put8_eq.
    + intros x Hx. apply put8_ne. lia.
    + lia.
  - rewrite safestrcpy_copy_S in Hr. cbn [load cstr].
    destruct (Z.eqb_spec (m t) 0) as [E|E].
    + injection Hr as <- <-. rewrite E. simpl. split; [|split; [|lia]].
      * rewrite put8_ne, put8_eq by lia. done.
      * intros x Hx. rewrite !put8_ne by lia. done.
    + apply IH in Hr as (Hl & Ho & Hb); [|auto with mem|lia].
      rewrite (load_ext m (put8 _ _ _) (t + 1) n) in Hl
        by (intros x Hx; apply put8_ne; lia).
      cbv zeta. split; [|split; [|lia]].
      * change (length (m t :: cstr (load m (t + 1) n)))
          with (S (length (cstr (load m (t + 1) n)))).
        remember (S (length (cstr (load m (t + 1) n)))) as k eqn:Hk.
        cbn [load app]. rewrite Ho by lia. rewrite put8_eq, u8_byte by apply Hw.
        f_equal. exact Hl.
      * intros x Hx. rewrite Ho by lia. apply put8_ne. lia.
Qed.

Lemma strlen_from_spec m s k i fuel :
  0 <= i -> i + Z.of_nat k < i + Z.of_nat fuel ->
  (forall j, i <= j < i + Z.of_nat k -> m (s + j) <> 0) -> m (s + (i + Z.of_nat k)) = 0 ->
  strlen_from m s i fuel = Ok (i + Z.of_nat k).
Proof.
  revert i fuel. induction k as [|k IH]; intros i fuel Hi Hf Hn Hz;
    (destruct fuel as [|fuel]; [lia|]); simpl.
  - rewrite Z.add_0_r in *. by rewrite (proj2 (Z.eqb_eq _ _) Hz).
  - rewrite (proj2 (Z.eqb_neq _ _) (Hn i ltac:(lia))).
    rewrite IH; [f_equal; lia|lia|lia|intros j Hj; apply Hn; lia|].
    by replace (i + 1 + Z.of_nat k) with (i + Z.of_nat (S k)) by lia.
Qed.

(** ** Properties *)

(** [memmove] leaves at the destination exactly the [n] bytes the source
    held before the call, for every overlap of the two ranges, and changes
    nothing outside the destination. *)
Theorem memmove_correct m d s n :
  wf_mem m ->
  load (memmove m d s (Z.of_nat n)) d n = load m s n /\
  (forall x, x < d \/ d + Z.of_nat n <= x -> memmove m d s (Z.of_nat n) x = m x).
Proof.
  intros Hw. split.
  - rewrite memmove_spec by (done || lia). apply list_eq. intros i.
    destruct (decide (i < n)%nat).
    + rewrite !load_lookup by done. rewrite copy_in by lia. f_equal. f_equal. lia.
    + rewrite !lookup_ge_None_2; [done|rewrite length_load; lia..].
  - intros x Hx. rewrite memmove_spec by (done || lia). by apply copy_out.
Qed.

Lemma memmove_correct_witness :
  load (memmove (fun a => u8 a) 12 10 5) 12 5 = [10; 11; 12; 13; 14] /\
  load (memmove (fun a => u8 a) 10 12 5) 10 5 = [12; 13; 14; 15; 16].
Proof.
  split.
  - apply (memmove_correct (fun a => u8 a) 12 10 5). intros a. apply is_byte_u8.
  - apply (memmove_correct (fun a => u8 a) 10 12 5). intros a. apply is_byte_u8.
Defined.

(** After [strncpy(s, t, n)] the field at [s] compares equal under
    [strncmp(_, _, n)] with a string [q] exactly when [q] and [t] denote the
    same name once both are cut at [n] bytes; nothing outside the field is
    written.  This is what directory entries rely on. *)
Theorem strncpy_strncmp m s t q n :
  wf_mem m ->
  s + Z.of_nat n <= t \/ t + Z.of_nat n <= s ->
  s + Z.of_nat n <= q \/ q + Z.of_nat n <= s ->
  (strncmp (strncpy m s t n) q s n = 0 <-> cstr (load m q n) = cstr (load m t n)) /\
  (forall x, x < s \/ s + Z.of_nat n <= x -> strncpy m s t n x = m x).
Proof.
  intros Hw Ht Hq. split; [|intros x Hx; by apply strncpy_out].
  rewrite strncmp_zero, strncpy_load by done.
  rewrite (load_ext m (strncpy _ _ _ _) q n) by (intros x Hx; apply strncpy_out; lia).
  destruct (decide (length (cstr (load m t n)) < n)%nat) as [Hl|Hl].
  - by rewrite cstr_app_zero by (try lia; apply cstr_nonzero).
  - replace (n - length (cstr (load m t n)))%nat with O by lia. simpl.
    rewrite app_nil_r. by rewrite (cstr_id (cstr (load m t n))) by apply cstr_nonzero.
Qed.

Lemma strncpy_strncmp_witness :
  let m : mem := store (store (fun _ => 7) 100 [97; 98; 0; 9]) 200 [97; 98; 0; 5] in
  strncmp (strncpy m 300 100 4) 200 300 4 = 0.
Proof.
  intros m. apply (strncpy_strncmp m 300 100 200 4); [|lia|lia|].
  - assert (Hw : wf_mem (fun _ => 7)) by (intros a; unfold is_byte; lia).
    unfold m. simpl. auto 10 with mem.
  - reflexivity.
Defined.

(** [safestrcpy(s, t, n)] with [n > 0] always leaves a NUL-terminated
    string in the [n] bytes of the destination: the source cut at [n - 1]
    bytes; it writes nothing outside them. *)
Theorem safestrcpy_terminates m s t n :
  wf_mem m -> 0 < n -> s + n <= t \/ t + n <= s ->
  let c := cstr (load m t (Z.to_nat (n - 1))) in
  load (safestrcpy m s t n) s (S (length c)) = c ++ [0] /\
  Z.of_nat (length c) < n /\
  (forall x, x < s \/ s + n <= x -> safestrcpy m s t n x = m x).
Proof.
  intros Hw Hn Hd c. unfold safestrcpy. zcase; [lia|].
  destruct (safestrcpy_copy m s t (Z.to_nat (n - 1))) as [m1 s1] eqn:E.
  apply safestrcpy_copy_spec in E as (Hl & Ho & _); [|done|lia].
  split; [exact Hl|]. split.
  - unfold c. pose proof (length_cstr (load m t (Z.to_nat (n - 1)))) as Hc.
    rewrite length_load in Hc. lia.
  - intros x Hx. apply Ho. lia.
Qed.

Lemma safestrcpy_terminates_witness :
  let m : mem := store (fun _ => 7) 100 [105; 110; 105; 116; 99; 111; 100; 101; 0] in
  load (safestrcpy m 200 100 5) 200 5 = [105; 110; 105; 116; 0].
Proof.
  intros m. apply (safestrcpy_terminates m 200 100 5); [|lia|lia].
  assert (Hw : wf_mem (fun _ => 7)) by (intros a; unfold is_byte; lia).
  unfold m. simpl. auto 20 with mem.
Defined.
