(* ===== verification/Params.v ===== *)
(** * Constants and address arithmetic

    The constants of [param.h], [memlayout.h], [mmu.h], [fs.h], [stat.h],
    [fcntl.h] and [traps.h] the models use, and the address macros of
    [memlayout.h] and [mmu.h] with the facts about them. *)

From Stdlib Require Import ZArith Lia.
From stdpp Require Import base numbers list.
From S2P Require Import Prelude.

Local Open Scope Z_scope.

(** [param.h] *)
Definition NPROC : Z := 64.
Definition KSTACKSIZE : Z := 4096.
Definition NOFILE : Z := 16.
Definition NFILE : Z := 100.
Definition NINODE : Z := 50.
Definition NDEV : Z := 10.
Definition ROOTDEV : Z := 1.
Definition MAXARG : Z := 32.
Definition MAXOPBLOCKS : Z := 10.
Definition LOGSIZE : Z := MAXOPBLOCKS * 3.
Definition NBUF : Z := MAXOPBLOCKS * 3.
Definition FSSIZE : Z := 20000.

(** [memlayout.h] *)
Definition EXTMEM : Z := 0x100000.
Definition PHYSTOP : Z := 0xE000000.
Definition DEVSPACE : Z := 0xFE000000.
Definition KERNBASE : Z := 0x80000000.
Definition KERNLINK : Z := KERNBASE + EXTMEM.

Definition V2P (a : Z) : Z := u32 (a - KERNBASE).
Definition P2V (a : Z) : Z := u32 (a + KERNBASE).

(** [mmu.h] *)
Definition NPDENTRIES : Z := 1024.
Definition NPTENTRIES : Z := 1024.
Definition PGSIZE : Z := 4096.
Definition PTXSHIFT : Z := 12.
Definition PDXSHIFT : Z := 22.

Definition PDX (va : Z) : Z := Z.land (Z.shiftr va PDXSHIFT) 0x3FF.
Definition PTX (va : Z) : Z := Z.land (Z.shiftr va PTXSHIFT) 0x3FF.
Definition PGADDR (d t o : Z) : Z :=
  u32 (Z.lor (Z.lor (Z.shiftl d PDXSHIFT) (Z.shiftl t PTXSHIFT)) o).

Definition PGROUNDUP (sz : Z) : Z := Z.land (u32 (sz + PGSIZE - 1)) (u32 (Z.lnot (PGSIZE - 1))).
Definition PGROUNDDOWN (a : Z) : Z := Z.land a (u32 (Z.lnot (PGSIZE - 1))).

Definition PTE_P : Z := 1.
Definition PTE_W : Z := 2.
Definition PTE_U : Z := 4.

Definition PTE_ADDR (pte : Z) : Z := Z.land pte (u32 (Z.lnot 0xFFF)).
Definition PTE_FLAGS (pte : Z) : Z := Z.land pte 0xFFF.

Definition F_PAGES : Z := 0.
Definition F_BYTES : Z := 1.

(** [fs.h] *)
Definition ROOTINO : Z := 1.
Definition BSIZE : Z := 512.
Definition NDIRECT : Z := 11.
Definition NINDIRECT : Z := BSIZE / 4.
Definition NBDE : Z := NINDIRECT * NINDIRECT.
Definition MAXFILE : Z := NDIRECT + NINDIRECT + NBDE.
Definition DIRSIZ : Z := 14.
(** [sizeof(struct dinode)]: four shorts, the size and the block addresses. *)
Definition DINODE_SIZE : Z := 2 + 2 + 2 + 2 + 4 + 4 * (NDIRECT + 2).
Definition IPB : Z := BSIZE / DINODE_SIZE.
Definition BPB : Z := BSIZE * 8.
(** [sizeof(struct dirent)]. *)
Definition DIRENT_SIZE : Z := 2 + DIRSIZ.

(** [stat.h] *)
Definition T_DIR : Z := 1.
Definition T_FILE : Z := 2.
Definition T_DEV : Z := 3.

(** [fcntl.h] *)
Definition O_RDONLY : Z := 0x000.
Definition O_WRONLY : Z := 0x001.
Definition O_RDWR : Z := 0x002.
Definition O_CREATE : Z := 0x200.

(** [syscall.h] *)
Definition SYS_fork : Z := 1.
Definition SYS_exit : Z := 2.
Definition SYS_wait : Z := 3.
Definition SYS_pipe : Z := 4.
Definition SYS_read : Z := 5.
Definition SYS_kill : Z := 6.
Definition SYS_exec : Z := 7.
Definition SYS_fstat : Z := 8.
Definition SYS_chdir : Z := 9.
Definition SYS_dup : Z := 10.
Definition SYS_getpid : Z := 11.
Definition SYS_sbrk : Z := 12.
Definition SYS_sleep : Z := 13.
Definition SYS_uptime : Z := 14.
Definition SYS_open : Z := 15.
Definition SYS_write : Z := 16.
Definition SYS_mknod : Z := 17.
Definition SYS_unlink : Z := 18.
Definition SYS_link : Z := 19.
Definition SYS_mkdir : Z := 20.
Definition SYS_close : Z := 21.
Definition SYS_date : Z := 22.
Definition SYS_dup2 : Z := 23.
Definition SYS_freemem : Z := 24.

(** [traps.h] *)
Definition T_DIVIDE : Z := 0.
Definition T_PGFLT : Z := 14.
Definition T_SYSCALL : Z := 64.
Definition T_IRQ0 : Z := 32.
Definition IRQ_TIMER : Z := 0.
Definition IRQ_KBD : Z := 1.
Definition IRQ_COM1 : Z := 4.
Definition IRQ_IDE : Z := 14.
Definition IRQ_SPURIOUS : Z := 31.
Definition DPL_USER : Z := 3.
Definition SEG_UCODE : Z := 3.
Definition SEG_UDATA : Z := 4.
Definition FL_IF : Z := 0x200.

(** ** Facts about the macros *)

Lemma pgrounddown_eq a : is_u32 a -> PGROUNDDOWN a = a - a mod 4096.
Proof.
  intros H. unfold PGROUNDDOWN.
  change (u32 (Z.lnot (PGSIZE - 1))) with (2 ^ 32 - 2 ^ 12).
  change 4096 with (2 ^ 12). by apply land_round_down_u32.
Qed.

Lemma pgroundup_eq sz :
  0 <= sz <= 2 ^ 32 - 4096 -> PGROUNDUP sz = (sz + 4095) - (sz + 4095) mod 4096.
Proof.
  intros H. unfold PGROUNDUP. replace (sz + PGSIZE - 1) with (sz + 4095) by (unfold PGSIZE; lia).
  rewrite u32_small by (unfold is_u32; lia).
  change (u32 (Z.lnot (PGSIZE - 1))) with (2 ^ 32 - 2 ^ 12).
  change 4096 with (2 ^ 12). apply land_round_down_u32; unfold is_u32; lia.
Qed.

Lemma pte_addr_eq p : is_u32 p -> PTE_ADDR p = p - p mod 4096.
Proof. apply pgrounddown_eq. Qed.

Lemma pte_flags_eq p : PTE_FLAGS p = p mod 4096.
Proof. unfold PTE_FLAGS. change 0xFFF with (Z.ones 12). by rewrite Z.land_ones by lia. Qed.

Lemma pdx_eq va : is_u32 va -> PDX va = va / 4194304.
Proof.
  intros H. unfold PDX, PDXSHIFT. change 0x3FF with (Z.ones 10).
  rewrite Z.land_ones, Z.shiftr_div_pow2 by lia. change (2 ^ 22) with 4194304.
  apply Z.mod_small. unfold is_u32 in H. zlia.
Qed.

Lemma ptx_eq va : PTX va = (va / 4096) mod 1024.
Proof.
  unfold PTX, PTXSHIFT. change 0x3FF with (Z.ones 10).
  by rewrite Z.land_ones, Z.shiftr_div_pow2 by lia.
Qed.

Lemma pdx_range va : 0 <= PDX va < 1024.
Proof.
  unfold PDX. change 0x3FF with (Z.ones 10). rewrite Z.land_ones by lia.
  apply Z.mod_pos_bound. lia.
Qed.

Lemma ptx_range va : 0 <= PTX va < 1024.
Proof. rewrite ptx_eq. apply Z.mod_pos_bound. lia. Qed.

(** Two page-aligned addresses with the same indices are the same page. *)
Lemma pdx_ptx_inj a b :
  is_u32 a -> is_u32 b -> a mod 4096 = 0 -> b mod 4096 = 0 ->
  PDX a = PDX b -> PTX a = PTX b -> a = b.
Proof.
  intros Ha Hb Ma Mb. rewrite !pdx_eq, !ptx_eq by done. unfold is_u32 in *. zlia.
Qed.

(** First address of the page-directory slot after the one of [a]. *)
Lemma pgaddr_next a :
  is_u32 a -> PDX a < 1023 -> PGADDR (PDX a + 1) 0 0 = (PDX a + 1) * 4194304.
Proof.
  intros Ha Hd. unfold PGADDR. rewrite Z.shiftl_0_l, !Z.lor_0_r.
  rewrite Z.shiftl_mul_pow2 by (unfold PDXSHIFT; lia). apply u32_small.
  pose proof (pdx_range a). unfold is_u32, PDXSHIFT. lia.
Qed.
