(* ===== verification/Kalloc.v ===== *)
(** * The physical page allocator, [kalloc.c]

    The free pages form a list threaded through the pages themselves:
    [kmem.freelist] is the address of the first one and the first word of a
    free page is the address of the next.  The abstract state is the list of
    free pages; [kalloc], [kfree], [freerange] and [freemem] implement it. *)

From Stdlib Require Import ZArith Lia String.
From stdpp Require Import base numbers list.
From S2P Require Import Prelude Bytes Params.

Local Open Scope Z_scope.
Local Open Scope kernel_scope.

(** ** The interface page-table code relies on

    [pa_inv s l]: the allocator is in order in state [s] and [l] are the pages
    it can still hand out. *)
Class PageAllocator (S : Type) := {
  pa_page : Z -> Prop;
  pa_kalloc : M S Z;
  pa_kfree : Z -> M S unit;
  pa_mem : S -> mem;
  pa_setmem : mem -> S -> S;
  pa_inv : S -> list Z -> Prop;
  pa_page_range p :
    pa_page p -> p mod PGSIZE = 0 /\ KERNBASE < p /\ p + PGSIZE <= KERNBASE + PHYSTOP;
  pa_inv_pages s l : pa_inv s l -> Forall pa_page l /\ NoDup l /\ wf_mem (pa_mem s);
  pa_mem_setmem m s : pa_mem (pa_setmem m s) = m;
  pa_setmem_setmem m m' s : pa_setmem m (pa_setmem m' s) = pa_setmem m s;
  pa_inv_setmem m s l :
    pa_inv s l -> wf_mem m ->
    (forall p x, p ∈ l -> p <= x < p + PGSIZE -> m x = pa_mem s x) ->
    pa_inv (pa_setmem m s) l;
  pa_kalloc_empty s :
    pa_inv s [] -> exists s', pa_kalloc s = Ok (0, s') /\ pa_inv s' [] /\ pa_mem s' = pa_mem s;
  pa_kalloc_cons s p l :
    pa_inv s (p :: l) ->
    exists s', pa_kalloc s = Ok (p, s') /\ pa_inv s' l /\ pa_mem s' = pa_mem s;
  pa_kfree_ok s l p :
    pa_inv s l -> pa_page p -> p ∉ l ->
    exists s', pa_kfree p s = Ok (tt, s') /\ pa_inv s' (p :: l) /\
      (forall x, x < p \/ p + PGSIZE <= x -> pa_mem s' x = pa_mem s x)
}.

(** ** State *)

(** [kmem] together with the kernel's memory (addressed by kernel virtual
    addresses). *)
Record kstate := mkK {
  k_locked : bool;       (* kmem.lock *)
  k_use_lock : bool;
  k_freelist : Z;
  k_mem : mem
}.

Definition set_locked (b : bool) (s : kstate) : kstate :=
  mkK b (k_use_lock s) (k_freelist s) (k_mem s).
Definition set_use_lock (b : bool) (s : kstate) : kstate :=
  mkK (k_locked s) b (k_freelist s) (k_mem s).
Definition set_freelist (r : Z) (s : kstate) : kstate :=
  mkK (k_locked s) (k_use_lock s) r (k_mem s).
Definition set_mem (m : mem) (s : kstate) : kstate :=
  mkK (k_locked s) (k_use_lock s) (k_freelist s) m.

Section Kalloc.

(** [end]: the first address after the kernel image, set by the linker. *)
Context (kend : Z).

Definition kfree (v : Z) : M kstate unit :=
  if negb (v mod PGSIZE =? 0) || (v <? kend) || (V2P v >=? PHYSTOP)
  then mpanic "kfree"
  else
    mset (fun s => set_mem (memset (k_mem s) v 1 PGSIZE) s) ;;!
    let! use_lock := mget k_use_lock in
    mwhen use_lock (acquire k_locked set_locked) ;;!
    mset (fun s => set_mem (put32 (k_mem s) v (k_freelist s)) s) ;;!
    mset (set_freelist v) ;;!
    mwhen use_lock (release k_locked set_locked).

Definition kalloc : M kstate Z :=
  let! use_lock := mget k_use_lock in
  mwhen use_lock (acquire k_locked set_locked) ;;!
  let! r := mget k_freelist in
  mwhen (negb (r =? 0)) (mset (fun s => set_freelist (get32 (k_mem s) r) s)) ;;!
  mwhen use_lock (release k_locked set_locked) ;;!
  mret r.

(** The loop of [freerange]; [fuel] bounds the pages of the range. *)
Fixpoint freerange_loop (fuel : nat) (p vend : Z) : M kstate unit :=
  if p + PGSIZE <=? vend then
    match fuel with
    | O => mnofuel
    | S f => kfree p ;;! freerange_loop f (p + PGSIZE) vend
    end
  else mret tt.

Definition freerange (vstart vend : Z) : M kstate unit :=
  let p := PGROUNDUP vstart in
  freerange_loop (Z.to_nat ((vend - p) / PGSIZE)) p vend.

Definition kinit1 (vstart vend : Z) : M kstate unit :=
  mset (set_locked false) ;;! mset (set_use_lock false) ;;! freerange vstart vend.

Definition kinit2 (vstart vend : Z) : M kstate unit :=
  freerange vstart vend ;;! mset (set_use_lock true).

(** The counting loop of [freemem]. *)
Fixpoint count_free (fuel : nat) (m : mem) (r pages : Z) : outcome Z :=
  if r =? 0 then Ok pages
  else match fuel with
       | O => NoFuel
       | S f => count_free f m (get32 m r) (pages + 1)
       end.

Definition freemem (fuel : nat) (type : Z) : M kstate Z :=
  let! use_lock := mget k_use_lock in
  mwhen use_lock (acquire k_locked set_locked) ;;!
  let! r := mget k_freelist in
  let! m := mget k_mem in
  let! pages := (fun s => obind (count_free fuel m r 0) (fun n => Ok (n, s))) in
  mwhen use_lock (release k_locked set_locked) ;;!
  mret (if type =? F_PAGES then pages
        else if type =? F_BYTES then s32 (PGSIZE * pages)
        else -1).

(** ** Abstract state *)

(** A page [kfree] accepts. *)
Definition kpage (p : Z) : Prop :=
  p mod PGSIZE = 0 /\ kend <= p /\ p + PGSIZE <= KERNBASE + PHYSTOP.

(** [l] is the list that starts at address [r]. *)
Fixpoint chain (m : mem) (r : Z) (l : list Z) : Prop :=
  match l with
  | [] => r = 0
  | p :: l' => r = p /\ chain m (get32 m p) l'
  end.

Definition kinv (s : kstate) (l : list Z) : Prop :=
  k_locked s = false /\ wf_mem (k_mem s) /\ chain (k_mem s) (k_freelist s) l /\
  NoDup l /\ Forall kpage l.

(** The pages of [[p, vend)], last one first: the order [freerange] leaves. *)
Fixpoint pages_from (n : nat) (p : Z) (acc : list Z) : list Z :=
  match n with
  | O => acc
  | S n' => pages_from n' (p + PGSIZE) (p :: acc)
  end.

(** Client calls, run on the code and on the abstract list of free pages.
    The abstract run has no result when a client frees something that is not a
    page, or is already free. *)
Inductive kop :=
| KAlloc
| KFree (p : Z).

Fixpoint run_ops (ops : list kop) : M kstate (list Z) :=
  match ops with
  | [] => mret []
  | KAlloc :: ops' => let! p := kalloc in let! rs := run_ops ops' in mret (p :: rs)
  | KFree p :: ops' => kfree p ;;! run_ops ops'
  end.

Definition kpageb (p : Z) : bool :=
  (p mod PGSIZE =? 0) && (kend <=? p) && (p + PGSIZE <=? KERNBASE + PHYSTOP).

Fixpoint abs_ops (ops : list kop) (l : list Z) : option (list Z * list Z) :=
  match ops with
  | [] => Some ([], l)
  | KAlloc :: ops' =>
      match abs_ops ops' (tail l) with
      | Some (rs, l') => Some (default 0 (head l) :: rs, l')
      | None => None
      end
  | KFree p :: ops' =>
      if kpageb p && bool_decide (p ∉ l) then abs_ops ops' (p :: l) else None
  end.

(** The image starts above [KERNLINK] and ends within the 4MB the boot page
    table maps. *)
Context (Hend : KERNLINK < kend <= KERNBASE + 4 * 1024 * 1024).

(** ** Lemmas *)

Lemma kpage_pos p : kpage p -> KERNBASE < p /\ p < 2 ^ 32.
Proof. unfold kpage, KERNLINK, KERNBASE, EXTMEM, PHYSTOP, PGSIZE in *. lia. Qed.

Lemma kpage_disjoint p q : kpage p -> kpage q -> p <> q -> p + PGSIZE <= q \/ q + PGSIZE <= p.
Proof. unfold kpage, PGSIZE. intros (Hp & _ & _) (Hq & _ & _) Hne. zlia. Qed.

Lemma kpage_accepted v :
  kpage v -> negb (v mod PGSIZE =? 0) || (v <? kend) || (V2P v >=? PHYSTOP) = false.
Proof.
  intros Hv. pose proof (kpage_pos v Hv) as [H1 H2]. destruct Hv as (Ha & Hb & Hc).
  rewrite Ha. simpl. apply orb_false_iff. split; [apply Z.ltb_ge; lia|].
  rewrite Z.geb_leb. apply Z.leb_gt. unfold V2P. rewrite u32_small.
  - unfold PGSIZE in *. lia.
  - unfold is_u32, KERNBASE in *. lia.
Qed.

Lemma chain_ext m m' r l :
  (forall p x, p ∈ l -> p <= x < p + PGSIZE -> m' x = m x) -> chain m r l -> chain m' r l.
Proof.
  revert r. induction l as [|p l IH]; intros r He Hc; simpl in *; [done|].
  destruct Hc as [-> Hc]. split; [done|].
  rewrite (get32_ext m m' p).
  - apply IH; [|done]. intros q x Hq. apply He. by right.
  - intros x Hx. apply (He p); [left|unfold PGSIZE; lia].
Qed.

(** Writing the bytes of pages that are not free keeps the allocator in order. *)
Lemma kinv_set_mem m s l :
  kinv s l -> wf_mem m ->
  (forall p x, p ∈ l -> p <= x < p + PGSIZE -> m x = k_mem s x) ->
  kinv (set_mem m s) l.
Proof.
  intros (Hl & Hw & Hc & Hn & Hp) Hm He. unfold kinv. split_and!; try done.
  by apply (chain_ext (k_mem s)).
Qed.

Lemma kfree_run v s :
  kpage v -> k_locked s = false ->
  kfree v s =
  Ok (tt, mkK false (k_use_lock s) v (put32 (memset (k_mem s) v 1 PGSIZE) v (k_freelist s))).
Proof.
  intros Hv Hl. unfold kfree. rewrite kpage_accepted by done.
  destruct s as [lk ul fl m]. simpl in *. subst lk.
  by destruct ul.
Qed.

Lemma kalloc_run s :
  k_locked s = false ->
  kalloc s =
  Ok (k_freelist s,
      if k_freelist s =? 0 then s
      else mkK false (k_use_lock s) (get32 (k_mem s) (k_freelist s)) (k_mem s)).
Proof.
  intros Hl. destruct s as [lk ul fl m]. simpl in *. subst lk. unfold kalloc.
  destruct ul; cbn; destruct (fl =? 0); done.
Qed.

Lemma kfree_spec v s l :
  kinv s l -> kpage v -> v ∉ l ->
  exists s', kfree v s = Ok (tt, s') /\ kinv s' (v :: l) /\
    k_use_lock s' = k_use_lock s /\
    (forall x, x < v \/ v + PGSIZE <= x -> k_mem s' x = k_mem s x) /\
    (forall x, v + 4 <= x < v + PGSIZE -> k_mem s' x = 1).
Proof.
  intros (Hl & Hw & Hc & Hn & Hp) Hv Hvl. rewrite kfree_run by done.
  eexists. split; [reflexivity|]. cbn.
  assert (Hset : forall x, memset (k_mem s) v 1 PGSIZE x = fill (k_mem s) v PGSIZE 1 x).
  { apply memset_spec. unfold PGSIZE. lia. }
  assert (Hout : forall x, x < v \/ v + PGSIZE <= x ->
    put32 (memset (k_mem s) v 1 PGSIZE) v (k_freelist s) x = k_mem s x).
  { intros x Hx. rewrite put32_ne by (unfold PGSIZE in *; lia). rewrite Hset. by apply fill_out. }
  split; [|split; [done|split; [done|]]].
  - split; [done|]. split; [|split; [|split; [by constructor|by constructor]]].
    + apply wf_put32. intros x. rewrite Hset. apply wf_fill; [done|unfold is_byte; lia].
    + split; [done|]. cbn [k_mem]. rewrite get32_put32_eq.
      * apply (chain_ext (k_mem s)); [|done]. intros p x Hpl Hx. apply Hout.
        rewrite Forall_forall in Hp. pose proof (Hp p Hpl).
        destruct (kpage_disjoint p v); [done|done|intros ->; done|lia|lia].
      * destruct l as [|q l]; simpl in Hc; [rewrite Hc; done|].
        destruct Hc as [-> _]. inversion Hp as [|? ? Hq]; subst.
        pose proof (kpage_pos q Hq). unfold is_u32. unfold KERNBASE in *. lia.
  - intros x Hx. rewrite put32_ne by lia. rewrite Hset. apply fill_in. lia.
Qed.

Lemma kalloc_spec s l :
  kinv s l ->
  match l with
  | [] => kalloc s = Ok (0, s)
  | p :: l' => exists s', kalloc s = Ok (p, s') /\ kinv s' l' /\
      k_use_lock s' = k_use_lock s /\ k_mem s' = k_mem s
  end.
Proof.
  intros (Hl & Hw & Hc & Hn & Hp). rewrite kalloc_run by done.
  destruct l as [|p l]; simpl in Hc.
  - by rewrite Hc.
  - destruct Hc as [-> Hc]. inversion Hp as [|? ? Hpp Hpl]; subst.
    inversion Hn as [|? ? Hnp Hnl]; subst.
    pose proof (kpage_pos p Hpp). unfold KERNBASE in *.
    rewrite (proj2 (Z.eqb_neq p 0)) by lia.
    eexists. split; [reflexivity|]. split; [|by split].
    unfold kinv. by split_and!.
Qed.

Lemma count_free_chain m l r n fuel :
  Forall kpage l -> chain m r l -> (length l <= fuel)%nat ->
  count_free fuel m r n = Ok (n + Z.of_nat (length l)).
Proof.
  revert r n fuel. induction l as [|p l IH]; intros r n fuel Hp Hc Hf; simpl in *.
  - subst r. destruct fuel; simpl; f_equal; lia.
  - destruct Hc as [-> Hc]. inversion Hp as [|? ? Hpp Hpl]; subst.
    pose proof (kpage_pos p Hpp). destruct fuel as [|fuel]; [lia|]. simpl.
    rewrite (proj2 (Z.eqb_neq p 0)) by (unfold KERNBASE in *; lia).
    rewrite IH by (done || lia). f_equal. lia.
Qed.

Lemma freemem_run fuel type s l :
  kinv s l -> (length l <= fuel)%nat ->
  freemem fuel type s =
  Ok (if type =? F_PAGES then Z.of_nat (length l)
      else if type =? F_BYTES then s32 (PGSIZE * Z.of_nat (length l)) else -1, s).
Proof.
  intros (Hl & Hw & Hc & Hn & Hp) Hf. unfold freemem, mbind, mget, mret. cbn.
  destruct s as [lk ul fl m]. cbn in *. subst lk.
  destruct ul; cbn; rewrite (count_free_chain m l) by done; done.
Qed.

(** There are fewer pages than [PHYSTOP / PGSIZE]. *)
Lemma kpages_bound l :
  NoDup l -> Forall kpage l -> Z.of_nat (length l) * PGSIZE <= PHYSTOP.
Proof.
  intros Hn Hp.
  set (f := fun p => (p - KERNBASE) / PGSIZE).
  assert (Hinj : NoDup (f <$> l)).
  { apply NoDup_fmap_2_strong; [|done]. intros p q Hpl Hql.
    rewrite Forall_forall in Hp. pose proof (Hp p Hpl) as (E1 & _). pose proof (Hp q Hql) as (E2 & _).
    unfold f, PGSIZE, KERNBASE in *. zlia. }
  assert (Hsub : f <$> l ⊆ seqZ 0 (PHYSTOP / PGSIZE)).
  { intros y Hy. apply list_elem_of_fmap in Hy as (p & -> & Hpl).
    rewrite Forall_forall in Hp. pose proof (Hp p Hpl) as Hpp.
    pose proof (kpage_pos p Hpp). destruct Hpp as (E1 & E2 & E3).
    apply elem_of_seqZ. unfold f, PGSIZE, KERNBASE, PHYSTOP in *. zlia. }
  pose proof (submseteq_length _ _ (NoDup_submseteq _ _ Hinj Hsub)) as Hle.
  rewrite length_fmap, length_seqZ in Hle. change (PHYSTOP / PGSIZE) with 57344 in Hle.
  unfold PGSIZE, PHYSTOP. lia.
Qed.

Lemma elem_of_pages_from n p acc q :
  q ∈ pages_from n p acc <->
  q ∈ acc \/ (exists i, 0 <= i < Z.of_nat n /\ q = p + i * PGSIZE).
Proof.
  revert p acc. induction n as [|n IH]; intros p acc; simpl.
  - split; [by left|]. intros [H|(i & Hi & _)]; [done|lia].
  - rewrite IH, elem_of_cons. split.
    + intros [[->|H]|(i & Hi & ->)]; [|by left|].
      * right. exists 0. lia.
      * right. exists (i + 1). lia.
    + intros [H|(i & Hi & ->)]; [by left; right|].
      destruct (Z.eq_dec i 0) as [->|Hne]; [left; left; lia|].
      right. exists (i - 1). lia.
Qed.

Lemma freerange_loop_spec n p vend s l :
  kinv s l -> p mod PGSIZE = 0 -> kend <= p -> vend <= KERNBASE + PHYSTOP ->
  Z.of_nat n * PGSIZE <= vend - p < (Z.of_nat n + 1) * PGSIZE ->
  (forall q, q ∈ l -> q < p \/ vend <= q) ->
  exists s', freerange_loop n p vend s = Ok (tt, s') /\ kinv s' (pages_from n p l) /\
    k_use_lock s' = k_use_lock s.
Proof.
  revert p s l. induction n as [|n IH]; intros p s l Hi Ha Hp Hv Hn Hl; simpl.
  - zcase; [unfold PGSIZE in *; lia|]. exists s. by split_and!.
  - zcase; [|unfold PGSIZE in *; lia].
    destruct (kfree_spec p s l) as (s1 & H1 & Hi1 & Hu & _).
    + done.
    + unfold kpage, PGSIZE in *. lia.
    + intros Hpl. apply Hl in Hpl. unfold PGSIZE in *. lia.
    + rewrite (mbind_ok _ _ _ _ _ H1).
      destruct (IH (p + PGSIZE) s1 (p :: l)) as (s2 & H2 & Hi2 & Hu2);
        [done|unfold PGSIZE in *; zlia|unfold PGSIZE in *; lia|done|unfold PGSIZE in *; lia| |].
      * intros q Hq. apply elem_of_cons in Hq as [->|Hq]; [unfold PGSIZE; lia|].
        apply Hl in Hq. unfold PGSIZE. lia.
      * exists s2. split_and!; [done|done|congruence].
Qed.

Lemma freerange_spec vstart vend s l :
  kinv s l -> kend <= vstart -> vend <= KERNBASE + PHYSTOP ->
  PGROUNDUP vstart <= vend -> vstart <= vend ->
  (forall q, q ∈ l -> q < vstart \/ vend <= q) ->
  exists s' l', freerange vstart vend s = Ok (tt, s') /\ kinv s' l' /\
    k_use_lock s' = k_use_lock s /\
    forall q, q ∈ l' <-> q ∈ l \/ (q mod PGSIZE = 0 /\ vstart <= q /\ q + PGSIZE <= vend).
Proof.
  intros Hi Hs Hv Hle Hle' Hl. unfold freerange. set (p := PGROUNDUP vstart) in *.
  assert (Hp : p mod PGSIZE = 0 /\ vstart <= p < vstart + PGSIZE).
  { unfold p. rewrite pgroundup_eq; unfold KERNLINK, KERNBASE, EXTMEM, PHYSTOP, PGSIZE in *; zlia. }
  set (n := Z.to_nat ((vend - p) / PGSIZE)).
  assert (Hn : Z.of_nat n * PGSIZE <= vend - p < (Z.of_nat n + 1) * PGSIZE).
  { unfold n, PGSIZE in *. zlia. }
  destruct (freerange_loop_spec n p vend s l) as (s' & H & Hi' & Hu); try done; try lia.
  { intros q Hq. apply Hl in Hq. lia. }
  exists s', (pages_from n p l). split_and!; try done.
  intros q. rewrite elem_of_pages_from. split; (intros [Hq|Hq]; [by left|right]).
  - destruct Hq as (i & Hin & ->). unfold PGSIZE in *. zlia.
  - exists ((q - p) / PGSIZE). unfold PGSIZE in *. zlia.
Qed.

Lemma count_free_cycle fuel m r n : r <> 0 -> get32 m r = r -> count_free fuel m r n = NoFuel.
Proof.
  intros Hr Hc. revert n. induction fuel as [|f IH]; intros n; simpl;
    rewrite (proj2 (Z.eqb_neq r 0) Hr); [done|]. by rewrite Hc.
Qed.

Lemma kinv_init ul m : wf_mem m -> kinv (mkK false ul 0 m) [].
Proof. intros Hw. unfold kinv. split_and!; try done; constructor. Qed.

Lemma kpageb_spec p : kpageb p = true -> kpage p.
Proof. unfold kpageb, kpage. intros H. zbool. done. Qed.

Lemma run_ops_spec ops s l rs l' :
  kinv s l -> abs_ops ops l = Some (rs, l') ->
  exists s', run_ops ops s = Ok (rs, s') /\ kinv s' l'.
Proof.
  revert s l rs. induction ops as [|[|p] ops IH]; intros s l rs Hi Ha; cbn [run_ops abs_ops] in *.
  - injection Ha as <- <-. by exists s.
  - destruct (abs_ops ops (tail l)) as [[rs1 l1]|] eqn:E; [|done]. injection Ha as <- <-.
    assert (Hk : exists s1, kalloc s = Ok (default 0 (head l), s1) /\ kinv s1 (tail l)).
    { pose proof (kalloc_spec s l Hi) as Hk. destruct l as [|q l]; [by exists s|].
      destruct Hk as (s1 & H1 & Hi1 & _). by exists s1. }
    destruct Hk as (s1 & H1 & Hi1). destruct (IH s1 (tail l) rs1 Hi1 E) as (s2 & H2 & Hi2).
    exists s2. by rewrite (mbind_ok _ _ _ _ _ H1), (mbind_ok _ _ _ _ _ H2).
  - destruct (kpageb p && bool_decide (p ∉ l)) eqn:E; [|done]. zbool.
    destruct (kfree_spec p s l) as (s1 & H1 & Hi1 & _);
      [done|by apply kpageb_spec|by eapply bool_decide_eq_true_1|].
    destruct (IH s1 (p :: l) rs Hi1 Ha) as (s2 & H2 & Hi2).
    exists s2. by rewrite (mbind_ok _ _ _ _ _ H1).
Qed.

End Kalloc.

(** ** The allocator implements the interface *)

#[export] Instance kalloc_allocator (kend : Z)
    (Hend : KERNLINK < kend <= KERNBASE + 4 * 1024 * 1024) : PageAllocator kstate.
Proof.
  refine {|
    pa_page := kpage kend;
    pa_kalloc := kalloc;
    pa_kfree := kfree kend;
    pa_mem := k_mem;
    pa_setmem := set_mem;
    pa_inv := kinv kend
  |}.
  - intros p Hp. pose proof (kpage_pos kend Hend p Hp). unfold kpage in Hp. lia.
  - intros s l (_ & Hw & _ & Hn & Hp). done.
  - done.
  - done.
  - intros m s l. by apply kinv_set_mem.
  - intros s Hi. exists s. by rewrite (kalloc_spec kend Hend s [] Hi).
  - intros s p l Hi. destruct (kalloc_spec kend Hend s (p :: l) Hi) as (s' & H & Hi' & _ & Hm).
    eauto.
  - intros s l p Hi Hp Hpl. destruct (kfree_spec kend Hend p s l) as (s' & H & Hi' & _ & Hm & _); eauto.
Defined.

(** ** Properties *)

(** C31: any sequence of [kalloc] and [kfree] calls that frees only pages it may
    free returns exactly what the same calls return on a plain stack of free
    pages, and leaves the allocator in order: no page is handed out twice, and
    [kalloc] fails only when no page is free. *)
Theorem kalloc_kfree_refine kend ops s l rs l' :
  KERNLINK < kend <= KERNBASE + 4 * 1024 * 1024 ->
  kinv kend s l -> abs_ops kend ops l = Some (rs, l') ->
  exists s', run_ops kend ops s = Ok (rs, s') /\ kinv kend s' l'.
Proof. intros Hend. by apply run_ops_spec. Qed.

Lemma kalloc_kfree_refine_witness :
  let s0 := mkK false true 0 (fun _ => 0) in
  exists s', run_ops 0x80200000 [KFree 0x80300000; KFree 0x80301000; KAlloc; KAlloc; KAlloc] s0
             = Ok ([0x80301000; 0x80300000; 0], s') /\ kinv 0x80200000 s' [].
Proof.
  intros s0. apply (kalloc_kfree_refine 0x80200000 _ s0 []).
  - unfold KERNLINK, KERNBASE, EXTMEM. lia.
  - apply kinv_init, wf_zero.
  - reflexivity.
Defined.

(** Booting ([kinit1] over the 4MB the boot page table maps, [kinit2] over
    the rest) puts every page between the end of the kernel image and
    [PHYSTOP] on the free list, each exactly once, and turns locking on. *)
Theorem kinit_frees_all kend s :
  KERNLINK < kend <= KERNBASE + 4 * 1024 * 1024 ->
  k_freelist s = 0 -> wf_mem (k_mem s) ->
  exists s1 s2 l,
    kinit1 kend kend (P2V (4 * 1024 * 1024)) s = Ok (tt, s1) /\
    kinit2 kend (P2V (4 * 1024 * 1024)) (P2V PHYSTOP) s1 = Ok (tt, s2) /\
    kinv kend s2 l /\ k_use_lock s2 = true /\ forall q, q ∈ l <-> kpage kend q.
Proof.
  intros Hend Hf Hw.
  change (P2V (4 * 1024 * 1024)) with 0x80400000. change (P2V PHYSTOP) with 0x8E000000.
  assert (Hi0 : kinv kend (set_use_lock false (set_locked false s)) []).
  { destruct s. simpl in *. subst. by apply kinv_init. }
  destruct (freerange_spec kend Hend kend 0x80400000 _ [] Hi0) as (s1 & l1 & H1 & Hi1 & Hu1 & Hm1);
    try (unfold KERNLINK, KERNBASE, EXTMEM, PHYSTOP in *; lia).
  { rewrite pgroundup_eq; unfold KERNLINK, KERNBASE, EXTMEM in *; zlia. }
  { intros q Hq. by apply not_elem_of_nil in Hq. }
  destruct (freerange_spec kend Hend 0x80400000 0x8E000000 s1 l1 Hi1) as (s2 & l2 & H2 & Hi2 & _ & Hm2);
    try (unfold KERNLINK, KERNBASE, EXTMEM, PHYSTOP in *; lia).
  { by vm_compute. }
  { intros q Hq. apply Hm1 in Hq as [Hq|Hq]; [by apply not_elem_of_nil in Hq|].
    unfold PGSIZE in *. lia. }
  exists s1, (set_use_lock true s2), l2. split_and!.
  - exact H1.
  - unfold kinit2. by rewrite (mbind_ok _ _ _ _ _ H2).
  - destruct Hi2 as (A & B & C & D & E). unfold kinv. by split_and!.
  - done.
  - intros q. rewrite Hm2, Hm1. unfold kpage, KERNBASE, PHYSTOP, KERNLINK, EXTMEM in *.
    split.
    + intros [[Hq|Hq]|Hq]; [by apply not_elem_of_nil in Hq|unfold PGSIZE in *; lia|lia].
    + intros (Ha & Hb & Hc). unfold PGSIZE in *.
      destruct (Z.lt_ge_cases q 0x80400000); [left; right|right]; zlia.
Qed.

Lemma kinit_frees_all_witness :
  let s := mkK false false 0 (fun _ => 0) in
  exists s1 s2 l,
    kinit1 0x80200000 0x80200000 (P2V (4 * 1024 * 1024)) s = Ok (tt, s1) /\
    kinit2 0x80200000 (P2V (4 * 1024 * 1024)) (P2V PHYSTOP) s1 = Ok (tt, s2) /\
    kinv 0x80200000 s2 l /\ k_use_lock s2 = true /\ forall q, q ∈ l <-> kpage 0x80200000 q.
Proof.
  apply (kinit_frees_all 0x80200000 (mkK false false 0 (fun _ => 0))).
  - unfold KERNLINK, KERNBASE, EXTMEM. lia.
  - reflexivity.
  - apply wf_zero.
Defined.

(** C36: [freemem] terminates within [PHYSTOP / PGSIZE] iterations, returns the
    exact number of free pages (or of free bytes, which fits an [int]), -1
    for any other request, and changes nothing. *)
Theorem freemem_exact kend s l type :
  KERNLINK < kend <= KERNBASE + 4 * 1024 * 1024 -> kinv kend s l ->
  freemem (Z.to_nat (PHYSTOP / PGSIZE)) type s =
  Ok (if type =? F_PAGES then Z.of_nat (length l)
      else if type =? F_BYTES then PGSIZE * Z.of_nat (length l) else -1, s).
Proof.
  intros Hend Hi.
  pose proof Hi as (_ & _ & _ & Hn & Hp).
  pose proof (kpages_bound kend Hend l Hn Hp) as Hb.
  rewrite (freemem_run kend Hend _ type s l Hi).
  - rewrite (s32_small (PGSIZE * _)); [done|]. unfold PGSIZE, PHYSTOP in *. lia.
  - change (PHYSTOP / PGSIZE) with 57344. unfold PGSIZE, PHYSTOP in *. lia.
Qed.

Lemma freemem_exact_witness :
  let s := mkK false true 0x80300000 (fun _ => 0) in
  freemem (Z.to_nat (PHYSTOP / PGSIZE)) F_BYTES s = Ok (4096, s).
Proof.
  intros s. apply (freemem_exact 0x80200000 s [0x80300000] F_BYTES).
  - unfold KERNLINK, KERNBASE, EXTMEM. lia.
  - unfold kinv. split_and!; [done|apply wf_zero|done|apply NoDup_singleton|].
    constructor; [|constructor]. unfold kpage. split_and!; by vm_compute.
Defined.

(** [kfree] does not notice a page that is freed twice; afterwards the free
    list is a cycle and [freemem] never returns, whatever the bound. *)
Theorem double_kfree_cycle kend s l v fuel type :
  KERNLINK < kend <= KERNBASE + 4 * 1024 * 1024 ->
  kinv kend s l -> kpage kend v ->
  exists s', (kfree kend v ;;! kfree kend v) s = Ok (tt, s') /\ freemem fuel type s' = NoFuel.
Proof.
  intros Hend (Hl & Hw & _) Hv. pose proof (kpage_pos kend Hend v Hv).
  unfold KERNBASE in *. eexists. split.
  - rewrite (mbind_ok _ _ _ _ _ (kfree_run kend Hend v s Hv Hl)).
    by apply (kfree_run kend Hend).
  - unfold freemem, mbind, mget, mret. cbn [k_use_lock k_locked k_freelist k_mem].
    destruct (k_use_lock s); cbn;
      rewrite count_free_cycle; try done; try lia;
      apply get32_put32_eq; unfold is_u32; lia.
Qed.

Lemma double_kfree_cycle_witness :
  let s := mkK false true 0 (fun _ => 0) in
  exists s', (kfree 0x80200000 0x80300000 ;;! kfree 0x80200000 0x80300000) s = Ok (tt, s') /\
             freemem 1000 F_PAGES s' = NoFuel.
Proof.
  intros s. apply (double_kfree_cycle 0x80200000 s []).
  - unfold KERNLINK, KERNBASE, EXTMEM. lia.
  - apply kinv_init, wf_zero.
  - unfold kpage. split_and!; by vm_compute.
Defined.
