(* ===== verification/Vm.v ===== *)
(** * Page tables, [vm.c]

    The routines of [src/xv6/vm.c] over any page allocator ([PageAllocator],
    Kalloc.v).  Page directories and page tables live in the allocator's
    memory, as in the kernel; the abstract view of an address space is the
    entry [pte_at m pgdir va] the hardware would use for [va]. *)

From Stdlib Require Import ZArith Lia String.
From stdpp Require Import base numbers list sets.
From S2P Require Import Prelude Bytes Params Kalloc.

Local Open Scope Z_scope.
Local Open Scope kernel_scope.

Section Vm.
Context {St : Type} {PA : PageAllocator St}.

(** Accesses through kernel pointers. *)
Definition rd (a : Z) : M St Z := mget (fun s => get32 (pa_mem s) a).
Definition wr (a v : Z) : M St unit :=
  mset (fun s => pa_setmem (put32 (pa_mem s) a v) s).
Definition kmemset (a c n : Z) : M St unit :=
  mset (fun s => pa_setmem (memset (pa_mem s) a c n) s).
Definition kmemmove (d a n : Z) : M St unit :=
  mset (fun s => pa_setmem (memmove (pa_mem s) d a n) s).

(** [e & PTE_P] *)
Definition present (e : Z) : bool := negb (Z.land e PTE_P =? 0).

(** Address of the PTE of [va], 0 when there is none. *)
Definition walkpgdir (pgdir va : Z) (alloc : bool) : M St Z :=
  let pde := pgdir + 4 * PDX va in
  let! e := rd pde in
  if present e then mret (P2V (PTE_ADDR e) + 4 * PTX va)
  else if negb alloc then mret 0
  else
    let! pgtab := pa_kalloc in
    if pgtab =? 0 then mret 0
    else
      kmemset pgtab 0 PGSIZE ;;!
      wr pde (Z.lor (Z.lor (Z.lor (V2P pgtab) PTE_P) PTE_W) PTE_U) ;;!
      mret (pgtab + 4 * PTX va).

(** The loop of [mappages]; [n] is the number of pages after this one. *)
Fixpoint mappages_loop (n : nat) (pgdir a last pa perm : Z) : M St Z :=
  let! pte := walkpgdir pgdir a true in
  if pte =? 0 then mret (-1)
  else
    let! e := rd pte in
    if present e then mpanic "remap"
    else
      wr pte (Z.lor (Z.lor pa perm) PTE_P) ;;!
      if a =? last then mret 0
      else match n with
           | O => mnofuel
           | S n' => mappages_loop n' pgdir (u32 (a + PGSIZE)) last (u32 (pa + PGSIZE)) perm
           end.

Definition mappages (pgdir va size pa perm : Z) : M St Z :=
  let a := PGROUNDDOWN va in
  let last := PGROUNDDOWN (u32 (va + size - 1)) in
  mappages_loop (Z.to_nat (u32 (last - a) / PGSIZE)) pgdir a last pa perm.

(** [fuel] bounds the pages below [oldsz]. *)
Fixpoint deallocuvm_loop (fuel : nat) (pgdir a oldsz : Z) : M St unit :=
  if a <? oldsz then
    match fuel with
    | O => mnofuel
    | S f =>
        let! pte := walkpgdir pgdir a false in
        if pte =? 0 then
          deallocuvm_loop f pgdir (u32 (u32 (PGADDR (PDX a + 1) 0 0 - PGSIZE) + PGSIZE)) oldsz
        else
          let! e := rd pte in
          if present e then
            let pa := PTE_ADDR e in
            if pa =? 0 then mpanic "kfree"
            else
              pa_kfree (P2V pa) ;;!
              wr pte 0 ;;!
              deallocuvm_loop f pgdir (u32 (a + PGSIZE)) oldsz
          else deallocuvm_loop f pgdir (u32 (a + PGSIZE)) oldsz
    end
  else mret tt.

Definition deallocuvm (pgdir oldsz newsz : Z) : M St Z :=
  if newsz >=? oldsz then mret oldsz
  else
    deallocuvm_loop (Z.to_nat (oldsz / PGSIZE + 1)) pgdir (PGROUNDUP newsz) oldsz ;;!
    mret newsz.

Fixpoint allocuvm_loop (fuel : nat) (pgdir a oldsz newsz : Z) : M St Z :=
  if a <? newsz then
    match fuel with
    | O => mnofuel
    | S f =>
        let! mem := pa_kalloc in
        if mem =? 0 then
          (* cprintf("allocuvm out of memory\n") *)
          deallocuvm pgdir newsz oldsz ;;! mret 0
        else
          kmemset mem 0 PGSIZE ;;!
          let! r := mappages pgdir a PGSIZE (V2P mem) (Z.lor PTE_W PTE_U) in
          if r <? 0 then
            (* cprintf("allocuvm out of memory (2)\n") *)
            deallocuvm pgdir newsz oldsz ;;! pa_kfree mem ;;! mret 0
          else allocuvm_loop f pgdir (u32 (a + PGSIZE)) oldsz newsz
    end
  else mret newsz.

Definition allocuvm (pgdir oldsz newsz : Z) : M St Z :=
  if newsz >=? KERNBASE then mret 0
  else if newsz <? oldsz then mret oldsz
  else allocuvm_loop (Z.to_nat (newsz / PGSIZE + 1)) pgdir (PGROUNDUP oldsz) oldsz newsz.

(** The loop of [freevm] over the directory. *)
Definition free_tables (pgdir : Z) : M St unit :=
  for_ (Z.to_nat NPDENTRIES) 0 (fun i =>
    let! e := rd (pgdir + 4 * i) in mwhen (present e) (pa_kfree (P2V (PTE_ADDR e)))).

Definition freevm (pgdir : Z) : M St unit :=
  if pgdir =? 0 then mpanic "freevm: no pgdir"
  else
    deallocuvm pgdir KERNBASE 0 ;;!
    free_tables pgdir ;;!
    pa_kfree pgdir.

(** One entry of the table [kmap]. *)
Record kmap_entry := mkKmap { virt : Z; phys_start : Z; phys_end : Z; kperm : Z }.

(** [data]: start of the kernel's writable data, set by the linker. *)
Definition kmap (data : Z) : list kmap_entry :=
  [ mkKmap KERNBASE 0 EXTMEM PTE_W;
    mkKmap KERNLINK (V2P KERNLINK) (V2P data) 0;
    mkKmap data (V2P data) PHYSTOP PTE_W;
    mkKmap DEVSPACE DEVSPACE 0 PTE_W ].

Fixpoint setupkvm_loop (pgdir : Z) (ks : list kmap_entry) : M St Z :=
  match ks with
  | [] => mret pgdir
  | k :: ks' =>
      let! r := mappages pgdir (virt k) (u32 (phys_end k - phys_start k)) (phys_start k) (kperm k) in
      if r <? 0 then freevm pgdir ;;! mret 0 else setupkvm_loop pgdir ks'
  end.

Definition setupkvm (data : Z) : M St Z :=
  let! pgdir := pa_kalloc in
  if pgdir =? 0 then mret 0
  else
    kmemset pgdir 0 PGSIZE ;;!
    if P2V PHYSTOP >? DEVSPACE then mpanic "PHYSTOP too high"
    else setupkvm_loop pgdir (kmap data).

(** The bytes of [initcode] are given as a list. *)
Definition inituvm (pgdir : Z) (init : list Z) : M St unit :=
  if Z.of_nat (length init) >=? PGSIZE then mpanic "inituvm: more than a page"
  else
    let! mem := pa_kalloc in
    kmemset mem 0 PGSIZE ;;!
    let! _ := mappages pgdir 0 PGSIZE (V2P mem) (Z.lor PTE_W PTE_U) in
    mset (fun s => pa_setmem (store (pa_mem s) mem init) s).

(** [loaduvm] reads the segment through [readi ip dst off n] (fs.c), which acts on a
    larger state; [up] runs the routines of this file there. *)
Fixpoint loaduvm_loop {S} (up : forall A, M St A -> M S A) (readi : Z -> Z -> Z -> M S Z) (fuel : nat)
    (pgdir addr offset sz i : Z) : M S Z :=
  if i <? sz then
    match fuel with
    | O => mnofuel
    | Datatypes.S f =>
        let! pte := up _ (walkpgdir pgdir (u32 (addr + i)) false) in
        if pte =? 0 then mpanic "loaduvm: address should exist"
        else
          let! e := up _ (rd pte) in
          let pa := PTE_ADDR e in
          let n := if sz - i <? PGSIZE then sz - i else PGSIZE in
          let! r := readi (P2V pa) (u32 (offset + i)) n in
          if negb (r =? n) then mret (-1)
          else loaduvm_loop up readi f pgdir addr offset sz (u32 (i + PGSIZE))
    end
  else mret 0.

Definition loaduvm {S} (up : forall A, M St A -> M S A) (readi : Z -> Z -> Z -> M S Z)
    (pgdir addr offset sz : Z) : M S Z :=
  if negb (addr mod PGSIZE =? 0) then mpanic "loaduvm: addr must be page aligned"
  else loaduvm_loop up readi (Z.to_nat (sz / PGSIZE + 1)) pgdir addr offset sz 0.

Definition clearpteu (pgdir uva : Z) : M St unit :=
  let! pte := walkpgdir pgdir uva false in
  if pte =? 0 then mpanic "clearpteu"
  else let! e := rd pte in wr pte (Z.land e (u32 (Z.lnot PTE_U))).

(** The loop of [copyuvm]: [true] when it ran to the end, [false] for [goto bad]. *)
Fixpoint copyuvm_loop (fuel : nat) (pgdir d i sz : Z) : M St bool :=
  if i <? sz then
    match fuel with
    | O => mnofuel
    | S f =>
        let! pte := walkpgdir pgdir i false in
        if pte =? 0 then copyuvm_loop f pgdir d (u32 (i + PGSIZE)) sz
        else
          let! e := rd pte in
          if negb (present e) then copyuvm_loop f pgdir d (u32 (i + PGSIZE)) sz
          else
            let pa := PTE_ADDR e in
            let flags := PTE_FLAGS e in
            let! mem := pa_kalloc in
            if mem =? 0 then mret false
            else
              kmemmove mem (P2V pa) PGSIZE ;;!
              let! r := mappages d i PGSIZE (V2P mem) flags in
              if r <? 0 then pa_kfree mem ;;! mret false
              else copyuvm_loop f pgdir d (u32 (i + PGSIZE)) sz
    end
  else mret true.

Definition copyuvm (data pgdir sz : Z) : M St Z :=
  let! d := setupkvm data in
  if d =? 0 then mret 0
  else
    let! ok := copyuvm_loop (Z.to_nat (sz / PGSIZE + 1)) pgdir d 0 sz in
    if ok then mret d else freevm d ;;! mret 0.

(** [*pte] is read without a test: with no page table there it is a null
    pointer access. *)
Definition uva2ka (pgdir uva : Z) : M St Z :=
  let! pte := walkpgdir pgdir uva false in
  if pte =? 0 then mundef
  else
    let! e := rd pte in
    if negb (present e) then mret 0
    else if Z.land e PTE_U =? 0 then mret 0
    else mret (P2V (PTE_ADDR e)).

(** [copyout] with the bytes to copy as a list. *)
Fixpoint copyout_loop (fuel : nat) (pgdir va : Z) (buf : list Z) : M St Z :=
  match buf with
  | [] => mret 0
  | _ :: _ =>
      match fuel with
      | O => mnofuel
      | S f =>
          let va0 := PGROUNDDOWN va in
          let! pa0 := uva2ka pgdir va0 in
          if pa0 =? 0 then mret (-1)
          else
            let n := Z.min (PGSIZE - (va - va0)) (Z.of_nat (length buf)) in
            mset (fun s => pa_setmem
              (store (pa_mem s) (pa0 + (va - va0)) (take (Z.to_nat n) buf)) s) ;;!
            copyout_loop f pgdir (u32 (va0 + PGSIZE)) (drop (Z.to_nat n) buf)
      end
  end.

Definition copyout (pgdir va : Z) (buf : list Z) : M St Z :=
  copyout_loop (length buf) pgdir va buf.

(** ** The abstract view *)

Definition pde_at (m : mem) (pgdir va : Z) : Z := get32 m (pgdir + 4 * PDX va).

Definition pte_slot (m : mem) (pgdir va : Z) : Z :=
  if present (pde_at m pgdir va) then P2V (PTE_ADDR (pde_at m pgdir va)) + 4 * PTX va else 0.

(** The entry for [va]; 0 (not present) when there is no page table. *)
Definition pte_at (m : mem) (pgdir va : Z) : Z :=
  if present (pde_at m pgdir va) then get32 m (pte_slot m pgdir va) else 0.

(** The page table that entry [i] of the directory points to. *)
Definition tab (m : mem) (pgdir i : Z) : Z := P2V (PTE_ADDR (get32 m (pgdir + 4 * i))).
Definition has_tab (m : mem) (pgdir i : Z) : Prop :=
  0 <= i < 1024 /\ present (get32 m (pgdir + 4 * i)) = true.

(** [q] is the directory or one of its page tables. *)
Definition pt_page (m : mem) (pgdir q : Z) : Prop :=
  q = pgdir \/ exists i, has_tab m pgdir i /\ q = tab m pgdir i.

(** The directory and its tables are distinct pages, none of them free. *)
Definition pt_ok (m : mem) (pgdir : Z) (l : list Z) : Prop :=
  pa_page pgdir /\ (pgdir ∉ l) /\
  (forall i, has_tab m pgdir i ->
     pa_page (tab m pgdir i) /\ (tab m pgdir i ∉ l) /\ tab m pgdir i <> pgdir) /\
  (forall i j, has_tab m pgdir i -> has_tab m pgdir j ->
     tab m pgdir i = tab m pgdir j -> i = j).

Definition on_page (q x : Z) : Prop := q <= x < q + PGSIZE.

(** A page-aligned address. *)
Definition page_va (va : Z) : Prop := is_u32 va /\ va mod PGSIZE = 0.


(** The entry [mappages] writes. *)
Definition mkpte (pa perm : Z) : Z := Z.lor (Z.lor pa perm) PTE_P.

(** What page-table updates do to memory and to the free list: they write the
    directory and its tables only, and take new tables from the free list. *)
Definition pt_step (m m' : mem) (pgdir : Z) (l l' : list Z) : Prop :=
  pt_ok m' pgdir l' /\ l' `suffix_of` l /\
  (forall q, pt_page m pgdir q -> pt_page m' pgdir q) /\
  (forall q, pt_page m' pgdir q <-> pt_page m pgdir q \/ (q ∈ l /\ q ∉ l')) /\
  (forall x, (forall q, pt_page m' pgdir q -> ~ on_page q x) -> m' x = m x).

(** Page tables stay where they are, and only entries in [P] get one. *)
Definition tabs_step (m m' : mem) (pgdir : Z) (P : Z -> Prop) : Prop :=
  (forall i, has_tab m pgdir i -> has_tab m' pgdir i /\ tab m' pgdir i = tab m pgdir i) /\
  (forall i, has_tab m' pgdir i -> has_tab m pgdir i \/ P i).

(** Page-aligned user addresses, and the kernel address of the page one maps to. *)
Definition user_va (va : Z) : Prop := page_va va /\ va < KERNBASE.
Definition frame (m : mem) (pgdir va : Z) : Z := P2V (PTE_ADDR (pte_at m pgdir va)).

(** An address space: a page table whose user pages are pages of their own,
    distinct from each other, from the tables and from the free pages. *)
Definition as_ok (m : mem) (pgdir : Z) (l : list Z) : Prop :=
  pt_ok m pgdir l /\
  (forall va, user_va va -> present (pte_at m pgdir va) = true ->
     pa_page (frame m pgdir va) /\ (frame m pgdir va ∉ l) /\
     ~ pt_page m pgdir (frame m pgdir va)) /\
  (forall va va', user_va va -> user_va va' ->
     present (pte_at m pgdir va) = true -> present (pte_at m pgdir va') = true ->
     frame m pgdir va = frame m pgdir va' -> va = va').

(** ** Lemmas on entries *)

Lemma present_odd e : present e = Z.odd e.
Proof.
  unfold present, PTE_P. change 1 with (Z.ones 1). rewrite Z.land_ones by lia.
  change (2 ^ 1) with 2. rewrite Zmod_odd. by destruct (Z.odd e).
Qed.

Lemma present_add a f : a mod 4096 = 0 -> present (a + f) = Z.odd f.
Proof.
  intros H. rewrite present_odd, Z.odd_add. replace (Z.odd a) with false; [by destruct (Z.odd f)|].
  symmetry. rewrite (Z.div_mod a 4096), H by lia.
  rewrite Z.add_0_r, Z.odd_mul. done.
Qed.

Lemma lor_small_range a b k : 0 <= k -> 0 <= a < 2 ^ k -> 0 <= b < 2 ^ k -> 0 <= Z.lor a b < 2 ^ k.
Proof.
  intros Hk Ha Hb. assert (0 <= Z.lor a b) by (apply Z.lor_nonneg; lia). split; [done|].
  destruct (Z.eq_dec (Z.lor a b) 0) as [->|Hne]; [apply Z.pow_pos_nonneg; lia|].
  apply Z.log2_lt_pow2; [lia|]. rewrite Z.log2_lor by lia.
  destruct (Z.eq_dec k 0) as [->|]; [exfalso; apply Hne; replace a with 0 by lia; replace b with 0 by lia; done|].
  apply Z.max_lub_lt.
  - destruct (Z.eq_dec a 0) as [->|]; [simpl; lia|]. apply Z.log2_lt_pow2; lia.
  - destruct (Z.eq_dec b 0) as [->|]; [simpl; lia|]. apply Z.log2_lt_pow2; lia.
Qed.

Lemma mkpte_eq pa perm :
  pa mod 4096 = 0 -> 0 <= perm < 4096 ->
  mkpte pa perm = pa + Z.lor perm 1 /\ 0 <= Z.lor perm 1 < 4096.
Proof.
  intros Ha Hp. assert (H : 0 <= Z.lor perm 1 < 4096) by (apply (lor_small_range perm 1 12); lia).
  split; [|done]. unfold mkpte, PTE_P. rewrite <- Z.lor_assoc.
  apply (lor_aligned pa (Z.lor perm 1) 12); [lia|exact Ha|exact H].
Qed.

Lemma mkpte_props pa perm :
  is_u32 pa -> pa mod 4096 = 0 -> 0 <= perm < 4096 ->
  is_u32 (mkpte pa perm) /\ present (mkpte pa perm) = true /\
  PTE_ADDR (mkpte pa perm) = pa /\ PTE_FLAGS (mkpte pa perm) = Z.lor perm 1.
Proof.
  intros Hu Ha Hp. destruct (mkpte_eq pa perm Ha Hp) as [-> Hr].
  assert (Hu' : is_u32 (pa + Z.lor perm 1)) by (unfold is_u32 in *; zlia).
  split_and!; [done| | |].
  - rewrite present_add by done. rewrite <- Z.bit0_odd, Z.lor_spec. by rewrite orb_true_r.
  - rewrite pte_addr_eq by done. zlia.
  - rewrite pte_flags_eq. zlia.
Qed.

Lemma p2v_v2p p : KERNBASE < p -> p + PGSIZE <= KERNBASE + PHYSTOP ->
  V2P p = p - KERNBASE /\ P2V (p - KERNBASE) = p.
Proof.
  intros H1 H2. unfold V2P, P2V. rewrite !u32_small; [split; lia|..];
    unfold is_u32, KERNBASE, PHYSTOP, PGSIZE in *; lia.
Qed.

Lemma page_facts p : pa_page p ->
  p mod 4096 = 0 /\ KERNBASE < p /\ p + 4096 <= KERNBASE + PHYSTOP /\ is_u32 p /\
  V2P p = p - KERNBASE /\ P2V (V2P p) = p /\ is_u32 (V2P p) /\ V2P p mod 4096 = 0.
Proof.
  intros Hp. apply pa_page_range in Hp as (Ha & Hb & Hc).
  destruct (p2v_v2p p Hb Hc) as [E1 E2]. rewrite E1, E2.
  unfold PGSIZE, is_u32, KERNBASE, PHYSTOP in *. split_and!; try lia; zlia.
Qed.

(** The directory entry [walkpgdir] creates for the new table [t]. *)
Lemma new_pde t : pa_page t ->
  let e := Z.lor (Z.lor (Z.lor (V2P t) PTE_P) PTE_W) PTE_U in
  is_u32 e /\ present e = true /\ P2V (PTE_ADDR e) = t.
Proof.
  intros Hp e. destruct (page_facts t Hp) as (H1 & H2 & H3 & H4 & H5 & H6 & H7 & H8).
  assert (E : e = V2P t + 7).
  { unfold e. rewrite <- !Z.lor_assoc. change (Z.lor PTE_P (Z.lor PTE_W PTE_U)) with 7.
    apply (lor_aligned _ 7 12); [lia|exact H8|lia]. }
  assert (is_u32 e) by (rewrite E; unfold is_u32, KERNBASE, PHYSTOP in *; lia).
  split_and!; [done| |].
  - by rewrite E, present_add.
  - rewrite pte_addr_eq, E by done.
    by replace (V2P t + 7 - (V2P t + 7) mod 4096) with (V2P t) by zlia.
Qed.

Lemma page_disjoint p q x : pa_page p -> pa_page q -> p <> q -> on_page p x -> ~ on_page q x.
Proof.
  intros Hp Hq Hne. apply pa_page_range in Hp as (Ha & _). apply pa_page_range in Hq as (Hb & _).
  unfold on_page, PGSIZE in *. zlia.
Qed.

Lemma memset_get32_in m a n b :
  0 <= n -> a <= b -> b + 4 <= a + n -> get32 (memset m a 0 n) b = 0.
Proof. intros Hn H1 H2. rewrite memset_spec by done. change (u8 0) with 0. by apply get32_fill_zero. Qed.

Lemma memset_out m a c n x : 0 <= n -> x < a \/ a + n <= x -> memset m a c n x = m x.
Proof. intros Hn H. rewrite memset_spec by done. by apply fill_out. Qed.

Lemma wf_memset m a c n : 0 <= n -> wf_mem m -> wf_mem (memset m a c n).
Proof. intros Hn Hw x. rewrite memset_spec by done. apply wf_fill; [done|apply is_byte_u8]. Qed.

Lemma pte_at_absent m pgdir va : present (pde_at m pgdir va) = false -> pte_at m pgdir va = 0.
Proof. intros H. unfold pte_at. by rewrite H. Qed.

Lemma pte_at_slot m pgdir va :
  present (pde_at m pgdir va) = true -> pte_at m pgdir va = get32 m (pte_slot m pgdir va).
Proof. intros H. unfold pte_at. by rewrite H. Qed.

Lemma pte_slot_tab m pgdir va :
  present (pde_at m pgdir va) = true ->
  has_tab m pgdir (PDX va) /\ pte_slot m pgdir va = tab m pgdir (PDX va) + 4 * PTX va.
Proof.
  intros H. split; [split; [apply pdx_range|exact H]|]. unfold pte_slot. by rewrite H.
Qed.

Lemma tab_ext m m' pgdir i :
  0 <= i < 1024 -> (forall x, on_page pgdir x -> m' x = m x) ->
  get32 m' (pgdir + 4 * i) = get32 m (pgdir + 4 * i).
Proof.
  intros Hi H. apply get32_ext. intros x Hx. apply H. unfold on_page, PGSIZE. lia.
Qed.

(** Memory changes outside a page table do not change what it maps. *)
Lemma pt_ext m m' pgdir :
  (forall q x, pt_page m pgdir q -> on_page q x -> m' x = m x) ->
  (forall i, has_tab m' pgdir i <-> has_tab m pgdir i) /\
  (forall i, has_tab m pgdir i -> tab m' pgdir i = tab m pgdir i) /\
  (forall q, pt_page m' pgdir q <-> pt_page m pgdir q) /\
  (forall va, pte_at m' pgdir va = pte_at m pgdir va).
Proof.
  intros He.
  assert (Hd : forall i, 0 <= i < 1024 -> get32 m' (pgdir + 4 * i) = get32 m (pgdir + 4 * i)).
  { intros i Hi. apply tab_ext; [done|]. intros x. apply He. by left. }
  assert (H1 : forall i, has_tab m' pgdir i <-> has_tab m pgdir i).
  { intros i. unfold has_tab. split; intros [Hi Hp]; (split; [done|]); by rewrite Hd in * by done. }
  assert (H2 : forall i, has_tab m pgdir i -> tab m' pgdir i = tab m pgdir i).
  { intros i [Hi _]. unfold tab. by rewrite Hd. }
  split_and!; [done|done| |].
  - intros q. unfold pt_page. split; (intros [?|(i & Hi & ->)]; [by left|right; exists i]).
    + apply H1 in Hi. by rewrite H2.
    + rewrite H2 by done. by rewrite H1.
  - intros va. assert (Hpde : pde_at m' pgdir va = pde_at m pgdir va).
    { apply Hd, pdx_range. }
    unfold pte_at, pte_slot. rewrite Hpde. destruct (present (pde_at m pgdir va)) eqn:E; [|done].
    apply get32_ext. intros x Hx. destruct (pte_slot_tab m pgdir va E) as [Ht Hs].
    apply (He (tab m pgdir (PDX va))); [right; eauto|].
    pose proof (ptx_range va). unfold on_page, PGSIZE. unfold tab, pde_at in *. lia.
Qed.

Lemma pt_ok_ext m m' pgdir l :
  (forall q x, pt_page m pgdir q -> on_page q x -> m' x = m x) -> pt_ok m pgdir l -> pt_ok m' pgdir l.
Proof.
  intros He (Ha & Hb & Hc & Hd). destruct (pt_ext m m' pgdir He) as (E1 & E2 & _ & _).
  split_and!; [done|done| |].
  - intros i Hi. apply E1 in Hi. rewrite E2 by done. by apply Hc.
  - intros i j Hi Hj. apply E1 in Hi, Hj. rewrite !E2 by done. by apply Hd.
Qed.

Lemma pt_page_ok m pgdir l q : pt_ok m pgdir l -> pt_page m pgdir q -> pa_page q /\ q ∉ l.
Proof.
  intros (Ha & Hb & Hc & _) [->|(i & Hi & ->)]; [done|]. destruct (Hc i Hi) as (? & ? & ?). done.
Qed.


(** ** Adding a page table *)

Section NewTable.
Set Default Proof Using "All".
Context (m : mem) (pgdir i p : Z) (l : list Z).
Hypothesis Hok : pt_ok m pgdir (p :: l).
Hypothesis Hi : 0 <= i < 1024.
Hypothesis Habs : present (get32 m (pgdir + 4 * i)) = false.
Hypothesis Hp : pa_page p.
Hypothesis Hnd : NoDup (p :: l).

Let e := Z.lor (Z.lor (Z.lor (V2P p) PTE_P) PTE_W) PTE_U.
Let m' := put32 (memset m p 0 PGSIZE) (pgdir + 4 * i) e.

Lemma new_entry : is_u32 e /\ present e = true /\ P2V (PTE_ADDR e) = p.
Proof. exact (new_pde p Hp). Qed.

Lemma new_table_out x : ~ on_page p x -> ~ (pgdir + 4 * i <= x < pgdir + 4 * i + 4) -> m' x = m x.
Proof.
  intros H1 H2. unfold m'. rewrite put32_ne by lia. apply memset_out; unfold on_page, PGSIZE in *; lia.
Qed.

Lemma new_table_dir j :
  0 <= j < 1024 ->
  get32 m' (pgdir + 4 * j) = if j =? i then e else get32 m (pgdir + 4 * j).
Proof.
  intros Hj. destruct new_entry as (He & _ & _). zcase.
  - subst j. by apply get32_put32_eq.
  - apply get32_ext. intros x Hx. apply new_table_out; [|lia].
    destruct Hok as (Hpg & Hpl & _). apply (page_disjoint pgdir p x); [done|done| |].
    + intros ->. apply Hpl. by left.
    + unfold on_page, PGSIZE. lia.
Qed.

Lemma new_table_has j : has_tab m' pgdir j <-> j = i \/ has_tab m pgdir j.
Proof.
  unfold has_tab. destruct new_entry as (_ & He & _). split.
  - intros [Hj H]. rewrite new_table_dir in H by done. destruct (Z.eqb_spec j i); [by left|by right].
  - intros [->|[Hj H]]; (split; [done|]); rewrite new_table_dir by done.
    + by rewrite Z.eqb_refl.
    + by destruct (j =? i).
Qed.

Lemma new_table_tab j :
  0 <= j < 1024 -> tab m' pgdir j = if j =? i then p else tab m pgdir j.
Proof.
  intros Hj. unfold tab. rewrite new_table_dir by done. destruct new_entry as (_ & _ & He).
  by destruct (j =? i).
Qed.

Lemma new_table_pte va : pte_at m' pgdir va = pte_at m pgdir va.
Proof.
  pose proof (pdx_range va) as Hd. pose proof (ptx_range va) as Ht.
  destruct Hok as (Hpg & Hpl & Htab & _).
  assert (Hne : p <> pgdir) by (intros ->; apply Hpl; by left).
  unfold pte_at, pte_slot, pde_at. rewrite new_table_dir by done.
  destruct (Z.eqb_spec (PDX va) i) as [E|E].
  - rewrite E, Habs. destruct new_entry as (_ & -> & ->).
    apply pa_page_range in Hp as Hr. apply pa_page_range in Hpg as Hr2.
    unfold m'. rewrite get32_put32_ne.
    + apply memset_get32_in; unfold PGSIZE; lia.
    + unfold PGSIZE in *. zlia.
  - destruct (present (get32 m (pgdir + 4 * PDX va))) eqn:Ep; [|done].
    destruct (Htab (PDX va)) as (T1 & T2 & T3); [done|].
    apply get32_ext. intros x Hx.
    assert (Hox : on_page (tab m pgdir (PDX va)) x) by (unfold on_page, tab, PGSIZE; lia).
    apply new_table_out.
    + apply (page_disjoint _ _ _ T1 Hp); [|done]. intros Heq. apply T2. rewrite Heq. by left.
    + assert (~ on_page pgdir x) by (by apply (page_disjoint _ _ _ T1 Hpg)).
      unfold on_page, PGSIZE in *. lia.
Qed.

Lemma new_table_page q : pt_page m' pgdir q <-> q = p \/ pt_page m pgdir q.
Proof.
  unfold pt_page. split.
  - intros [->|(j & Hj & ->)]; [by right; left|]. pose proof (proj1 Hj) as Hr.
    rewrite new_table_tab by done. destruct (Z.eqb_spec j i); [by left|]. right. right.
    exists j. split; [|done]. apply new_table_has in Hj as [->|Hj]; done.
  - intros [->|[->|(j & Hj & ->)]].
    + right. exists i. split; [apply new_table_has; by left|]. by rewrite new_table_tab, Z.eqb_refl.
    + by left.
    + right. exists j. split; [apply new_table_has; by right|].
      rewrite new_table_tab by apply Hj. destruct (Z.eqb_spec j i); [|done]. subst j.
      destruct Hj as [_ Hj]. congruence.
Qed.

Lemma new_table_step : pt_step m m' pgdir (p :: l) l.
Proof.
  destruct Hok as (Hpg & Hpl & Htab & Hinj). inversion Hnd as [|? ? Hnp Hnl]; subst.
  split_and!.
  - split_and!.
    + done.
    + intros H. apply Hpl. by right.
    + intros j Hj. rewrite new_table_tab by apply Hj. destruct (Z.eqb_spec j i) as [->|Hne].
      * split_and!; [done|done|]. intros ->. apply Hpl. by left.
      * apply new_table_has in Hj as [?|Hj]; [done|]. destruct (Htab j Hj) as (T1 & T2 & T3).
        split_and!; [done| |done]. intros H. apply T2. by right.
    + intros j k Hj Hk. rewrite !new_table_tab by (apply Hj || apply Hk).
      apply new_table_has in Hj, Hk.
      destruct (Z.eqb_spec j i) as [->|Hji], (Z.eqb_spec k i) as [->|Hki]; [done|..];
        destruct Hj as [?|Hj], Hk as [?|Hk]; try done.
      * intros E. destruct (Htab k Hk) as (_ & T2 & _). exfalso. apply T2. rewrite <- E. by left.
      * intros E. destruct (Htab k Hk) as (_ & T2 & _). exfalso. apply T2. rewrite <- E. by left.
      * intros E. destruct (Htab j Hj) as (_ & T2 & _). exfalso. apply T2. rewrite E. by left.
      * intros E. destruct (Htab j Hj) as (_ & T2 & _). exfalso. apply T2. rewrite E. by left.
      * by apply Hinj.
  - by exists [p].
  - intros q Hq. apply new_table_page. by right.
  - intros q. rewrite new_table_page. split.
    + intros [->|Hq]; [right; split; [by left|done]|by left].
    + intros [Hq|[[->|Hq]%elem_of_cons Hn]]; [by right|by left|done].
  - intros x Hx. apply new_table_out.
    + apply Hx, new_table_page. by left.
    + assert (Hnx : ~ on_page pgdir x) by (apply Hx; by left). unfold on_page, PGSIZE in Hnx. lia.
Qed.
End NewTable.

(** ** [walkpgdir] *)

Lemma walk_present s pgdir va alloc :
  present (pde_at (pa_mem s) pgdir va) = true ->
  walkpgdir pgdir va alloc s = Ok (pte_slot (pa_mem s) pgdir va, s).
Proof.
  intros H. unfold walkpgdir, rd, mbind, mget. cbn [obind].
  unfold pte_slot, pde_at in *. by rewrite H.
Qed.

Lemma walk_absent s pgdir va :
  present (pde_at (pa_mem s) pgdir va) = false -> walkpgdir pgdir va false s = Ok (0, s).
Proof.
  intros H. unfold walkpgdir, rd, mbind, mget. cbn [obind]. unfold pde_at in H. by rewrite H.
Qed.


Lemma pt_step_refl m pgdir l : pt_ok m pgdir l -> pt_step m m pgdir l l.
Proof.
  intros H. split_and!; [done|done|done| |done].
  intros q. split; [by left|]. by intros [?|[? []]].
Qed.

Lemma pt_step_trans m1 m2 m3 pgdir l1 l2 l3 :
  pt_step m1 m2 pgdir l1 l2 -> pt_step m2 m3 pgdir l2 l3 -> pt_step m1 m3 pgdir l1 l3.
Proof.
  intros (A1 & A2 & A3 & A4 & A5) (B1 & B2 & B3 & B4 & B5). split_and!.
  - done.
  - by transitivity l2.
  - auto.
  - intros q. rewrite B4, A4. destruct A2 as [k2 ->], B2 as [k3 ->]. rewrite !elem_of_app.
    destruct (decide (q ∈ k3)), (decide (q ∈ l3)); tauto.
  - intros x Hx. rewrite B5 by done. apply A5. intros q Hq. apply Hx. auto.
Qed.

Lemma tabs_trans m1 m2 m3 pgdir (P Q R : Z -> Prop) :
  tabs_step m1 m2 pgdir P -> tabs_step m2 m3 pgdir Q -> (forall i, P i -> R i) -> (forall i, Q i -> R i) ->
  tabs_step m1 m3 pgdir R.
Proof.
  intros [A1 A2] [B1 B2] HP HQ. split.
  - intros i [H E]%A1. destruct (B1 i H) as [H' E']. split; [done|]. congruence.
  - intros i [[?| ?]%A2|?]%B2; auto.
Qed.

Lemma tabs_refl m pgdir P : tabs_step m m pgdir P.
Proof. split; auto. Qed.

Lemma tabs_mono m m' pgdir (P Q : Z -> Prop) : (forall i, P i -> Q i) -> tabs_step m m' pgdir P -> tabs_step m m' pgdir Q.
Proof. intros HP [A B]. split; [done|]. intros i [?|?]%B; auto. Qed.

Lemma tabs_ext m m' pgdir P :
  (forall q x, pt_page m pgdir q -> on_page q x -> m' x = m x) -> tabs_step m m' pgdir P.
Proof.
  intros He. destruct (pt_ext m m' pgdir He) as (E1 & E2 & _ & _).
  split; intros i Hi; [split; [by apply E1|by apply E2]|left; by apply E1].
Qed.

Lemma no_tab m pgdir va : present (pde_at m pgdir va) = false -> ~ has_tab m pgdir (PDX va).
Proof. intros H [_ H']. unfold pde_at in H. by rewrite H in H'. Qed.

Lemma walk_alloc s pgdir va l :
  pa_inv s l -> pt_ok (pa_mem s) pgdir l ->
  exists r s' l', walkpgdir pgdir va true s = Ok (r, s') /\ pa_inv s' l' /\
    pt_step (pa_mem s) (pa_mem s') pgdir l l' /\
    (forall va', pte_at (pa_mem s') pgdir va' = pte_at (pa_mem s) pgdir va') /\
    tabs_step (pa_mem s) (pa_mem s') pgdir (fun i => r <> 0 /\ i = PDX va) /\
    ((r = 0 /\ l' = [] /\ present (pde_at (pa_mem s) pgdir va) = false) \/
     (r <> 0 /\ r = pte_slot (pa_mem s') pgdir va /\ present (pde_at (pa_mem s') pgdir va) = true)).
Proof.
  intros Hinv Hok. destruct (present (pde_at (pa_mem s) pgdir va)) eqn:E.
  - exists (pte_slot (pa_mem s) pgdir va), s, l.
    rewrite walk_present by done. split_and!; try done; [by apply pt_step_refl|apply tabs_refl|right].
    split_and!; try done. destruct (pte_slot_tab _ _ _ E) as [Ht ->].
    destruct Hok as (_ & _ & Htab & _). destruct (Htab _ Ht) as (Hp & _).
    apply pa_page_range in Hp. pose proof (ptx_range va). unfold KERNBASE in *. lia.
  - unfold walkpgdir. set (pde := pgdir + 4 * PDX va).
    assert (Hrd : rd pde s = Ok (pde_at (pa_mem s) pgdir va, s)) by done.
    rewrite (mbind_ok _ _ _ _ _ Hrd), E. cbn [negb].
    destruct l as [|p l].
    + destruct (pa_kalloc_empty s Hinv) as (s' & Hk & Hinv' & Hm).
      rewrite (mbind_ok _ _ _ _ _ Hk). exists 0, s', []. rewrite Hm. split_and!; try done.
      * by apply pt_step_refl.
      * apply tabs_refl.
      * by left.
    + destruct (pa_kalloc_cons s p l Hinv) as (s1 & Hk & Hinv1 & Hm1).
      rewrite (mbind_ok _ _ _ _ _ Hk).
      destruct (pa_inv_pages s _ Hinv) as (Hps & Hnd & Hwf).
      inversion Hps as [|? ? Hp Hpl]; subst. inversion Hnd as [|? ? Hnp Hnl]; subst.
      destruct (page_facts p Hp) as (P1 & P2 & P3 & _).
      rewrite (proj2 (Z.eqb_neq p 0)) by (unfold KERNBASE in *; lia).
      unfold kmemset, wr, mset, mbind, mret. cbn [obind].
      rewrite !pa_mem_setmem, Hm1.
      set (m' := put32 (memset (pa_mem s) p 0 PGSIZE) pde _).
      pose proof (new_table_step _ pgdir (PDX va) p l Hok (pdx_range va) E Hp Hnd) as Hst.
      pose proof (new_table_pte _ pgdir (PDX va) p l Hok (pdx_range va) E Hp Hnd) as Hpte.
      pose proof (new_table_has _ pgdir (PDX va) p l Hok (pdx_range va) E Hp Hnd) as Hhas_all.
      pose proof (new_table_tab _ pgdir (PDX va) p l Hok (pdx_range va) E Hp Hnd) as Htab_all.
      pose proof (Hhas_all (PDX va)) as Hhas.
      pose proof (new_table_tab _ pgdir (PDX va) p l Hok (pdx_range va) E Hp Hnd (PDX va) (pdx_range va)) as Htab.
      fold pde in Hst, Hpte, Hhas, Htab, Hhas_all, Htab_all. fold m' in Hst, Hpte, Hhas, Htab, Hhas_all, Htab_all.
      rewrite Z.eqb_refl in Htab. destruct Hhas as [_ Hhas]. specialize (Hhas (or_introl eq_refl)).
      exists (p + 4 * PTX va), (pa_setmem m' (pa_setmem (memset (pa_mem s) p 0 PGSIZE) s1)), l.
      rewrite pa_mem_setmem. split_and!; try done.
      * apply pa_inv_setmem.
        -- apply pa_inv_setmem; [done|apply wf_memset; [unfold PGSIZE; lia|done]|].
           intros q x Hq Hx. rewrite Hm1. apply memset_out; [unfold PGSIZE; lia|].
           rewrite Forall_forall in Hpl. specialize (Hpl q Hq). apply pa_page_range in Hpl as (Q1 & _).
           assert (q <> p) by (intros ->; done). unfold PGSIZE in *. zlia.
        -- apply wf_put32, wf_memset; [unfold PGSIZE; lia|done].
        -- intros q x Hq Hx. rewrite pa_mem_setmem. unfold m'. apply put32_ne.
           destruct Hok as (Hpg & Hpgl & _). rewrite Forall_forall in Hpl.
           assert (Hnx : ~ on_page pgdir x).
           { apply (page_disjoint q pgdir x); [by apply Hpl|done| |done].
             intros ->. apply Hpgl. by right. }
           pose proof (pdx_range va). unfold on_page, PGSIZE, pde in *. lia.
      * split; intros j Hj.
        -- split; [apply Hhas_all; by right|]. rewrite Htab_all by apply Hj. destruct (Z.eqb_spec j (PDX va)) as [->|]; [|done].
           by destruct (no_tab _ _ _ E).
        -- apply Hhas_all in Hj as [->|Hj]; [right|by left]. split; [|done].
           pose proof (ptx_range va). unfold KERNBASE in *. lia.
      * right. destruct Hhas as [_ Hpr]. split_and!.
        -- pose proof (ptx_range va). unfold KERNBASE in *. lia.
        -- unfold pte_slot, pde_at. rewrite Hpr. unfold tab in Htab. by rewrite Htab.
        -- exact Hpr.
Qed.

(** Writing one entry. *)
Lemma write_pte m pgdir va v l :
  pt_ok m pgdir l -> page_va va -> present (pde_at m pgdir va) = true -> is_u32 v ->
  let m' := put32 m (pte_slot m pgdir va) v in
  pt_step m m' pgdir l l /\ pte_at m' pgdir va = v /\
  (forall va', page_va va' -> va' <> va -> pte_at m' pgdir va' = pte_at m pgdir va') /\
  tabs_step m m' pgdir (fun _ => False).
Proof.
  intros Hok [Hva Hal] E Hv m'. pose proof Hok as (Hpg & Hpgl & Htab & Hinj).
  destruct (pte_slot_tab m pgdir va E) as [Ht Hs]. destruct (Htab _ Ht) as (T1 & T2 & T3).
  pose proof (ptx_range va) as Hx.
  set (t := tab m pgdir (PDX va)) in *.
  assert (Hout : forall x, ~ on_page t x -> m' x = m x).
  { intros x Hnx. unfold m'. apply put32_ne. unfold on_page, PGSIZE in *. lia. }
  assert (Hdir : forall j, 0 <= j < 1024 -> get32 m' (pgdir + 4 * j) = get32 m (pgdir + 4 * j)).
  { intros j Hj. apply tab_ext; [done|]. intros x Hxx. apply Hout.
    apply (page_disjoint pgdir t x); try done; congruence. }
  assert (Hh : forall j, has_tab m' pgdir j <-> has_tab m pgdir j).
  { intros j. unfold has_tab. split; intros [Hj Hp]; (split; [done|]); by rewrite Hdir in * by done. }
  assert (Htt : forall j, 0 <= j < 1024 -> tab m' pgdir j = tab m pgdir j).
  { intros j Hj. unfold tab. by rewrite Hdir. }
  assert (Hpp : forall q, pt_page m' pgdir q <-> pt_page m pgdir q).
  { intros q. unfold pt_page. split; (intros [?|(j & Hj & ->)]; [by left|right; exists j]);
      pose proof (proj1 Hj); rewrite Htt by done; split; try done; by apply Hh. }
  split_and!.
  - split_and!.
    + split_and!; [done|done| |].
      * intros j Hj. rewrite Htt by apply Hj. apply Htab. by apply Hh.
      * intros j k Hj Hk. rewrite !Htt by (apply Hj || apply Hk). apply Hinj; by apply Hh.
    + done.
    + intros q Hq. by apply Hpp.
    + intros q. rewrite Hpp. split; [by left|]. by intros [?|[? []]].
    + intros x Hxx. apply Hout, Hxx. apply Hpp. right. by exists (PDX va).
  - assert (Hpde : pde_at m' pgdir va = pde_at m pgdir va) by (apply Hdir, pdx_range).
    unfold pte_at, pte_slot. rewrite Hpde, E. unfold m', pte_slot. rewrite E. by apply get32_put32_eq.
  - intros va' [Hva' Hal'] Hne.
    assert (Hpde : pde_at m' pgdir va' = pde_at m pgdir va') by (apply Hdir, pdx_range).
    unfold pte_at, pte_slot. rewrite Hpde. destruct (present (pde_at m pgdir va')) eqn:E'; [|done].
    destruct (pte_slot_tab m pgdir va' E') as [Ht' Hs']. destruct (Htab _ Ht') as (T1' & _ & _).
    pose proof (ptx_range va') as Hx'. unfold pte_slot in Hs'. rewrite E' in Hs'. rewrite Hs'.
    apply get32_put32_ne. rewrite Hs.
    destruct (Z.eq_dec (PDX va) (PDX va')) as [Ed|Ed].
    + assert (PTX va <> PTX va') by (intros Et; apply Hne; symmetry; by apply pdx_ptx_inj).
      rewrite <- Ed. fold t. lia.
    + assert (Htne : t <> tab m pgdir (PDX va')) by (intros Et; apply Ed; by apply Hinj).
      apply pa_page_range in T1 as (A1 & _). apply pa_page_range in T1' as (A2 & _).
      unfold PGSIZE in *. zlia.
  - split; intros j Hj; [split; [by apply Hh|apply Htt, Hj]|left; by apply Hh].
Qed.


(** ** [mappages] *)

(** Page-table updates do not touch free pages. *)
Lemma pt_step_free m m' pgdir l l' q x :
  pt_step m m' pgdir l l' -> Forall pa_page l -> q ∈ l' -> on_page q x -> m' x = m x.
Proof.
  intros (Hok & [k ->] & _ & _ & Hout) Hps Hq Hx. apply Hout. intros q' Hq'.
  destruct (pt_page_ok _ _ _ _ Hok Hq') as [Hp' Hnl].
  apply (page_disjoint q q' x); [|done| |done].
  - rewrite Forall_forall in Hps. apply Hps. apply elem_of_app. by right.
  - intros ->. done.
Qed.

Lemma pa_inv_step s m' pgdir l :
  pa_inv s l -> wf_mem m' -> pt_step (pa_mem s) m' pgdir l l -> pa_inv (pa_setmem m' s) l.
Proof.
  intros Hinv Hw Hst. destruct (pa_inv_pages s l Hinv) as (Hps & _ & _).
  apply pa_inv_setmem; [done|done|]. intros q x Hq Hx. by apply (pt_step_free _ _ _ _ _ q x Hst).
Qed.

Lemma page_va_next a : page_va a -> a + PGSIZE < 2 ^ 32 -> page_va (a + PGSIZE).
Proof. unfold page_va, is_u32, PGSIZE. intros [H1 H2] H3. split; [lia|zlia]. Qed.

(** One iteration of the loop, with [k] for what follows the store. *)
Lemma map_iter s pgdir a pa perm l (k : M St Z) :
  pa_inv s l -> pt_ok (pa_mem s) pgdir l -> page_va a -> page_va pa -> 0 <= perm < 4096 ->
  present (pte_at (pa_mem s) pgdir a) = false ->
  let body :=
    let! pte := walkpgdir pgdir a true in
    if pte =? 0 then mret (-1)
    else
      let! e := rd pte in
      if present e then mpanic "remap"
      else wr pte (Z.lor (Z.lor pa perm) PTE_P) ;;! k in
  (exists s1, body s = Ok (-1, s1) /\ pa_inv s1 [] /\ pt_step (pa_mem s) (pa_mem s1) pgdir l [] /\
     (forall va, pte_at (pa_mem s1) pgdir va = pte_at (pa_mem s) pgdir va) /\
     tabs_step (pa_mem s) (pa_mem s1) pgdir (fun _ => False) /\ present (pde_at (pa_mem s1) pgdir a) = false) \/
  (exists s1 l1, body s = k s1 /\ pa_inv s1 l1 /\ pt_step (pa_mem s) (pa_mem s1) pgdir l l1 /\
     pte_at (pa_mem s1) pgdir a = mkpte pa perm /\
     (forall va, page_va va -> va <> a ->
        pte_at (pa_mem s1) pgdir va = pte_at (pa_mem s) pgdir va) /\
     tabs_step (pa_mem s) (pa_mem s1) pgdir (fun i => i = PDX a)).
Proof.
  intros Hinv Hok Ha Hpa Hperm Habs body. unfold body.
  destruct (walk_alloc s pgdir a l Hinv Hok) as (r & s1 & l1 & Hw & Hinv1 & Hst1 & Hv1 & Ht1 & Hr).
  rewrite (mbind_ok _ _ _ _ _ Hw).
  destruct Hr as [(-> & -> & Hno)|(Hr0 & -> & Hpr)]; [left|right].
  { exists s1. split_and!; try done; [by revert Ht1; apply tabs_mono; intros i [? _]|].
    destruct (present (pde_at (pa_mem s1) pgdir a)) eqn:E; [|done].
    destruct (proj2 Ht1 (PDX a)) as [H|[? _]]; [split; [apply pdx_range|done]| |done].
    by destruct (no_tab _ _ _ Hno). }
  rewrite (proj2 (Z.eqb_neq _ _) Hr0).
  assert (Hrd : rd (pte_slot (pa_mem s1) pgdir a) s1 = Ok (pte_at (pa_mem s1) pgdir a, s1)).
  { unfold rd, mget. by rewrite pte_at_slot. }
  rewrite (mbind_ok _ _ _ _ _ Hrd), Hv1, Habs.
  pose proof Hst1 as (Hok1 & _).
  destruct (mkpte_props pa perm (proj1 Hpa) (proj2 Hpa) Hperm) as (Hu & _).
  destruct (write_pte (pa_mem s1) pgdir a (mkpte pa perm) l1 Hok1 Ha Hpr Hu) as (Hst2 & Hva2 & Hoth2 & Ht2).
  destruct (pa_inv_pages s1 l1 Hinv1) as (_ & _ & Hwf1).
  set (m2 := put32 (pa_mem s1) (pte_slot (pa_mem s1) pgdir a) (mkpte pa perm)) in *.
  assert (Hinv2 : pa_inv (pa_setmem m2 s1) l1)
    by (apply (pa_inv_step _ _ pgdir); [done|unfold m2; auto with mem|done]).
  exists (pa_setmem m2 s1), l1. rewrite pa_mem_setmem. split_and!; try done.
  - by apply (pt_step_trans _ (pa_mem s1) _ _ _ l1).
  - intros va Hva Hne. by rewrite Hoth2, Hv1.
  - apply (tabs_trans _ (pa_mem s1) _ _ _ _ _ Ht1 Ht2); [by intros i [_ ?]|done].
Qed.

Lemma mappages_loop_spec n pgdir a last pa perm s l :
  pa_inv s l -> pt_ok (pa_mem s) pgdir l -> page_va a ->
  last = a + Z.of_nat n * PGSIZE -> last < 2 ^ 32 ->
  page_va pa -> pa + Z.of_nat n * PGSIZE < 2 ^ 32 -> 0 <= perm < 4096 ->
  (forall va, page_va va -> a <= va <= last -> present (pte_at (pa_mem s) pgdir va) = false) ->
  exists r s' l' b,
    mappages_loop n pgdir a last pa perm s = Ok (r, s') /\ pa_inv s' l' /\
    pt_step (pa_mem s) (pa_mem s') pgdir l l' /\ a <= b /\ b mod PGSIZE = 0 /\
    (forall va, page_va va -> a <= va < b -> pte_at (pa_mem s') pgdir va = mkpte (pa + (va - a)) perm) /\
    (forall va, page_va va -> va < a \/ b <= va ->
       pte_at (pa_mem s') pgdir va = pte_at (pa_mem s) pgdir va) /\
    tabs_step (pa_mem s) (pa_mem s') pgdir (fun i => exists va, page_va va /\ a <= va < b /\ i = PDX va) /\
    ((r = 0 /\ b = last + PGSIZE) \/
     (r = -1 /\ l' = [] /\ page_va b /\ b <= last /\ present (pde_at (pa_mem s') pgdir b) = false)).
Proof.
  revert a pa s l. induction n as [|n IH]; intros a pa s l Hinv Hok Ha Hlast Hl32 Hpa Hpa32 Hperm Habs;
    cbn [mappages_loop].
  - match goal with |- context [_ ;;! ?k] =>
      destruct (map_iter s pgdir a pa perm l k) as [(s1 & Hb & Hi1 & Hst & Hv & Ht & Hno)|(s1 & l1 & Hb & Hi1 & Hst & Hva & Hv & Ht)];
        try done; [apply Habs; [done|lia]|..] end; rewrite Hb.
    + exists (-1), s1, [], a. split_and!; try done; [apply Ha|lia|by revert Ht; apply tabs_mono|].
      right. split_and!; try done. lia.
    + rewrite (proj2 (Z.eqb_eq a last)) by lia. exists 0, s1, l1, (a + PGSIZE).
      destruct Ha as [Hau Hal]. split_and!; try done.
      * unfold PGSIZE; lia.
      * unfold PGSIZE in *. zlia.
      * intros va [_ Hval] Hr. replace va with a by (unfold PGSIZE in *; zlia).
        by rewrite Z.sub_diag, Z.add_0_r.
      * intros va Hva' Hr. apply Hv; [done|unfold PGSIZE in *; lia].
      * revert Ht. apply tabs_mono. intros i ->. exists a. split_and!; try done; unfold PGSIZE; lia.
      * left. lia.
  - match goal with |- context [_ ;;! ?k] =>
      destruct (map_iter s pgdir a pa perm l k) as [(s1 & Hb & Hi1 & Hst & Hv & Ht & Hno)|(s1 & l1 & Hb & Hi1 & Hst & Hva & Hv & Ht)];
        try done; [apply Habs; [done|unfold PGSIZE in *; lia]|..] end; rewrite Hb.
    { exists (-1), s1, [], a. split_and!; try done; [apply Ha|lia|by revert Ht; apply tabs_mono|].
      right. split_and!; try done. unfold PGSIZE in *; lia. }
    rewrite (proj2 (Z.eqb_neq a last)) by (unfold PGSIZE in *; lia).
    assert (Ha' : page_va (a + PGSIZE)) by (apply page_va_next; [done|unfold PGSIZE in *; lia]).
    assert (Hpa' : page_va (pa + PGSIZE)) by (apply page_va_next; [done|unfold PGSIZE in *; lia]).
    rewrite !u32_small by (apply Ha' || apply Hpa').
    destruct (IH (a + PGSIZE) (pa + PGSIZE) s1 l1)
      as (r & s3 & l3 & b & Hloop & Hinv3 & Hst3 & Hb' & Hbal & Hin & Hout & Ht3 & Hres);
      try done; try (unfold PGSIZE in *; lia); try apply Hst.
    + intros va Hva' Hr. rewrite Hv by (try done; unfold PGSIZE in *; lia).
      apply Habs; [done|unfold PGSIZE in *; lia].
    + exists r, s3, l3, b. split_and!; try done.
      * by apply (pt_step_trans _ (pa_mem s1) _ _ _ l1).
      * unfold PGSIZE in *. lia.
      * intros va Hva' Hr. destruct (Z.eq_dec va a) as [->|Hne].
        -- rewrite Hout by (done || (unfold PGSIZE; lia)). by rewrite Z.sub_diag, Z.add_0_r.
        -- rewrite Hin; [f_equal; lia|done|]. destruct Hva' as [_ Hva'], Ha as [_ Ha].
           unfold PGSIZE in *. zlia.
      * intros va Hva' Hr. rewrite Hout by (done || (unfold PGSIZE in *; lia)).
        apply Hv; [done|unfold PGSIZE in *; lia].
      * apply (tabs_trans _ (pa_mem s1) _ _ _ _ _ Ht Ht3).
        -- intros i ->. exists a. split_and!; try done; unfold PGSIZE in *; lia.
        -- intros i (va & ? & ? & ?). exists va. split_and!; try done; unfold PGSIZE in *; lia.
Qed.


Lemma mappages_page pgdir a pa perm s :
  page_va a -> mappages pgdir a PGSIZE pa perm s = mappages_loop 0 pgdir a a pa perm s.
Proof.
  intros [Hu Ha]. unfold mappages.
  assert (E : PGROUNDDOWN a = a) by (rewrite pgrounddown_eq by done; unfold PGSIZE in *; lia).
  assert (Hr : is_u32 (a + PGSIZE - 1)) by (unfold is_u32, PGSIZE in *; zlia).
  assert (E2 : PGROUNDDOWN (u32 (a + PGSIZE - 1)) = a).
  { rewrite u32_small by done. rewrite pgrounddown_eq by done. unfold PGSIZE in *. zlia. }
  by rewrite E, E2, Z.sub_diag.
Qed.

Lemma mappages_range pgdir a size pa perm s :
  page_va a -> size mod PGSIZE = 0 -> 0 < size -> a + size <= 2 ^ 32 ->
  mappages pgdir a size pa perm s =
  mappages_loop (Z.to_nat (size / PGSIZE - 1)) pgdir a (a + size - PGSIZE) pa perm s.
Proof.
  intros [Hu Ha] Hs H0 H32. unfold mappages.
  assert (E : PGROUNDDOWN a = a) by (rewrite pgrounddown_eq by done; unfold PGSIZE in *; lia).
  assert (Hr : is_u32 (a + size - 1)) by (unfold is_u32, PGSIZE in *; zlia).
  assert (E2 : PGROUNDDOWN (u32 (a + size - 1)) = a + size - PGSIZE).
  { rewrite u32_small by done. rewrite pgrounddown_eq by done. unfold PGSIZE in *. zlia. }
  rewrite E, E2. replace (a + size - PGSIZE - a) with (size - PGSIZE) by lia.
  rewrite u32_small by (unfold is_u32, PGSIZE in *; zlia).
  f_equal. unfold PGSIZE in *. zlia.
Qed.

(** ** Address spaces *)

Lemma mkpte_frame p perm : pa_page p -> 0 <= perm < 4096 -> P2V (PTE_ADDR (mkpte (V2P p) perm)) = p.
Proof.
  intros Hp Hr. destruct (page_facts p Hp) as (_ & _ & _ & _ & _ & H6 & H7 & H8).
  destruct (mkpte_props (V2P p) perm H7 H8 Hr) as (_ & _ & -> & _). done.
Qed.

Lemma as_ok_pt m pgdir l : as_ok m pgdir l -> pt_ok m pgdir l.
Proof. by intros [H _]. Qed.

Lemma pt_ok_sub m pgdir l l' : (forall q, q ∈ l' -> q ∈ l) -> pt_ok m pgdir l -> pt_ok m pgdir l'.
Proof.
  intros Hs (A & B & C & D). split_and!; [done|auto| |done].
  intros i Hi. destruct (C i Hi) as (? & ? & ?). split_and!; auto.
Qed.

Lemma pt_ok_tail m pgdir p l : pt_ok m pgdir (p :: l) -> pt_ok m pgdir l /\ ~ pt_page m pgdir p.
Proof.
  intros Hok. split.
  - revert Hok. apply pt_ok_sub. set_solver.
  - intros Hq. destruct (pt_page_ok _ _ _ _ Hok Hq) as [_ Hn]. set_solver.
Qed.

Lemma as_ok_sub m pgdir l l' : (forall q, q ∈ l' -> q ∈ l) -> as_ok m pgdir l -> as_ok m pgdir l'.
Proof.
  intros Hs (A & B & C). split_and!; [by apply (pt_ok_sub _ _ l)| |done].
  intros va Hu Hp. destruct (B va Hu Hp) as (? & ? & ?). split_and!; auto.
Qed.

(** Pages that the address space does not use may change. *)
Lemma as_ok_ext m m' pgdir l :
  (forall q x, pt_page m pgdir q -> on_page q x -> m' x = m x) ->
  as_ok m pgdir l -> as_ok m' pgdir l.
Proof.
  intros He (A & B & C). destruct (pt_ext m m' pgdir He) as (_ & _ & Hpp & Hv).
  split_and!; [by apply (pt_ok_ext m)| |].
  - intros va Hu. unfold frame. rewrite Hv, Hpp. by apply B.
  - intros va va' Hu Hu'. unfold frame. rewrite !Hv. by apply C.
Qed.

(** A page that was neither free nor a table does not become a table. *)
Lemma pt_step_not_table m m' pgdir l l' q :
  pt_step m m' pgdir l l' -> (q ∉ l) -> ~ pt_page m pgdir q -> (q ∉ l') /\ ~ pt_page m' pgdir q.
Proof.
  intros (_ & [k ->] & _ & Hnew & _) Hq Hn. split.
  - intros Hin. apply Hq, elem_of_app. by right.
  - intros Hin. apply Hnew in Hin as [?|[? _]]; done.
Qed.

Lemma as_ok_same m m' pgdir l l' p :
  as_ok m pgdir (p :: l) -> (p ∉ l) -> pt_step m m' pgdir l l' ->
  (forall va, page_va va -> pte_at m' pgdir va = pte_at m pgdir va) -> as_ok m' pgdir (p :: l').
Proof.
  intros (Hok & Hfr & Hinj) Hpl Hst Hall. apply pt_ok_tail in Hok as [_ Hnp].
  destruct (pt_step_not_table _ _ _ _ _ p Hst Hpl Hnp) as [Hp1 Hp2].
  pose proof Hst as ((K1 & K2 & K3 & K4) & _).
  assert (Hne : forall q, pt_page m' pgdir q -> q <> p) by (intros q Hq ->; done).
  split_and!.
  - split_and!; [done| | |done].
    + apply not_elem_of_cons. split; [|done]. apply Hne. by left.
    + intros i Hi. destruct (K3 i Hi) as (T1 & T2 & T3). split_and!; [done| |done].
      apply not_elem_of_cons. split; [|done]. apply Hne. right. by exists i.
  - intros va [Hu HK]. unfold frame. rewrite Hall by done. intros Hpr.
    destruct (Hfr va) as (F1 & F2 & F3); [done|done|]. apply not_elem_of_cons in F2 as [F2 F2'].
    destruct (pt_step_not_table _ _ _ _ _ _ Hst F2' F3) as [G1 G2].
    split_and!; [done|by apply not_elem_of_cons|done].
  - intros va va' [Hu HK] [Hu' HK']. unfold frame. rewrite !Hall by done. by apply Hinj.
Qed.

Lemma as_ok_grow m m' pgdir l l' p a perm :
  as_ok m pgdir (p :: l) -> (p ∉ l) -> pa_page p -> 0 <= perm < 4096 -> pt_step m m' pgdir l l' ->
  (forall va, page_va va -> va <> a -> pte_at m' pgdir va = pte_at m pgdir va) ->
  pte_at m' pgdir a = mkpte (V2P p) perm -> as_ok m' pgdir l'.
Proof.
  intros (Hok & Hfr & Hinj) Hpl Hp Hperm Hst Hother Hpa. apply pt_ok_tail in Hok as [_ Hnp].
  destruct (pt_step_not_table _ _ _ _ _ p Hst Hpl Hnp) as [Hp1 Hp2].
  assert (Hfa : frame m' pgdir a = p) by (unfold frame; rewrite Hpa; by apply mkpte_frame).
  assert (Hfo : forall va, user_va va -> va <> a -> present (pte_at m' pgdir va) = true ->
            frame m' pgdir va = frame m pgdir va /\ present (pte_at m pgdir va) = true).
  { intros va [Hu HK] Hne. unfold frame. by rewrite Hother. }
  split_and!; [by destruct Hst| |].
  - intros va Hu Hpr. destruct (Z.eq_dec va a) as [->|Hne]; [by rewrite Hfa|].
    destruct (Hfo va Hu Hne Hpr) as [-> Hpr0].
    destruct (Hfr va Hu Hpr0) as (F1 & F2 & F3). apply not_elem_of_cons in F2 as [_ F2].
    destruct (pt_step_not_table _ _ _ _ _ _ Hst F2 F3). done.
  - assert (Hfp : forall va, user_va va -> present (pte_at m pgdir va) = true -> frame m pgdir va <> p).
    { intros va Hu Hpr ->%symmetry. destruct (Hfr va Hu Hpr) as (_ & F2 & _). apply F2; by left. }
    intros va va' Hu Hu' Hpr Hpr' E.
    destruct (Z.eq_dec va a) as [->|Hne], (Z.eq_dec va' a) as [->|Hne']; [done|..].
    + destruct (Hfo va' Hu' Hne' Hpr') as [E' Hp']. exfalso. apply (Hfp va'); congruence.
    + destruct (Hfo va Hu Hne Hpr) as [E' Hp']. exfalso. apply (Hfp va); congruence.
    + destruct (Hfo va' Hu' Hne' Hpr') as [E1 ?], (Hfo va Hu Hne Hpr) as [E2 ?].
      apply Hinj; congruence.
Qed.

(** Mapping a page the address space does not use yet. *)
Lemma map_user_page s pgdir a p perm l :
  pa_inv s l -> as_ok (pa_mem s) pgdir (p :: l) -> pa_page p -> (p ∉ l) -> user_va a ->
  0 <= perm < 4096 -> present (pte_at (pa_mem s) pgdir a) = false ->
  exists r s' l',
    mappages pgdir a PGSIZE (V2P p) perm s = Ok (r, s') /\ pa_inv s' l' /\
    pt_step (pa_mem s) (pa_mem s') pgdir l l' /\
    (forall va, page_va va -> va <> a -> pte_at (pa_mem s') pgdir va = pte_at (pa_mem s) pgdir va) /\
    tabs_step (pa_mem s) (pa_mem s') pgdir (fun i => r = 0 /\ i = PDX a) /\
    ((r = 0 /\ as_ok (pa_mem s') pgdir l' /\ pte_at (pa_mem s') pgdir a = mkpte (V2P p) perm) \/
     (r = -1 /\ l' = [] /\ as_ok (pa_mem s') pgdir [p] /\ ~ has_tab (pa_mem s') pgdir (PDX a) /\
      pte_at (pa_mem s') pgdir a = pte_at (pa_mem s) pgdir a)).
Proof.
  intros Hinv Has Hp Hpl [Ha HaK] Hperm Habs.
  assert (Hok : pt_ok (pa_mem s) pgdir l) by (by apply as_ok_pt, pt_ok_tail in Has as [? _]).
  destruct (page_facts p Hp) as (_ & _ & _ & _ & _ & _ & H7 & H8).
  rewrite mappages_page by done. pose proof Ha as [Ha1 Ha2].
  destruct (mappages_loop_spec 0 pgdir a a (V2P p) perm s l)
    as (r & s' & l' & b & Hrun & Hinv' & Hst & Hab & Hbal & Hin & Hout & Ht & Hres);
    try done; try (unfold is_u32 in *; lia).
  { intros va Hva Hr. by replace va with a by lia. }
  assert (Hother : forall va, page_va va -> va <> a ->
            pte_at (pa_mem s') pgdir va = pte_at (pa_mem s) pgdir va).
  { intros va [Hu Hva] Hne. apply Hout; [done|].
    destruct Hres as [(_ & ->)|(_ & _ & _ & Hb & _)]; unfold PGSIZE in *; zlia. }
  assert (Ht' : tabs_step (pa_mem s) (pa_mem s') pgdir (fun i => r = 0 /\ i = PDX a)).
  { revert Ht. apply tabs_mono. intros i (va & [_ Hva] & Hr & ->). destruct Hres as [(-> & ->)|(_ & _ & _ & Hb & _)].
    - split; [done|]. f_equal. unfold PGSIZE in *. zlia.
    - lia. }
  exists r, s', l'. split_and!; try done. clear Ht Ht'. destruct Hres as [(-> & Hb)|(-> & -> & _ & Hb & Hno)].
  - left. assert (Hpa : pte_at (pa_mem s') pgdir a = mkpte (V2P p) perm).
    { rewrite Hin; [by rewrite Z.sub_diag, Z.add_0_r|done|unfold PGSIZE in *; lia]. }
    split_and!; try done. by apply (as_ok_grow (pa_mem s) _ _ l _ p a perm).
  - right. assert (Hsame : pte_at (pa_mem s') pgdir a = pte_at (pa_mem s) pgdir a).
    { apply Hout; [done|lia]. }
    assert (b = a) as -> by (unfold PGSIZE in *; zlia). apply no_tab in Hno.
    split_and!; try done. apply (as_ok_same (pa_mem s) _ _ l); try done.
    intros va Hv. destruct (Z.eq_dec va a) as [->|]; auto.
Qed.

End Vm.
