(* ===== verification/VmSpace.v ===== *)
(** * User address spaces (vm.c)

    What [deallocuvm], [allocuvm], [freevm], [setupkvm] and [copyuvm] of [Vm] do
    to an address space and to the free pages, proved against the allocator
    interface: which entries change, which pages are taken and given back, and
    that no other memory is touched. *)

From Stdlib Require Import ZArith Lia String Sorted.
From stdpp Require Import base numbers list sets gmap.
From S2P Require Import Prelude Bytes Params Kalloc Vm.

Local Open Scope Z_scope.
Local Open Scope kernel_scope.
Set Default Proof Using "All".

Section VmSpace.
Context {St : Type} {PA : PageAllocator St}.

(** What releasing the user pages of [[a, b)] does: their entries become absent,
    exactly their pages join the free list, and nothing else changes. *)
Definition uspace_drop (m m' : mem) (pgdir a b : Z) (l l' : list Z) : Prop :=
  as_ok m' pgdir l' /\
  (forall va, page_va va -> a <= va < b -> present (pte_at m' pgdir va) = false) /\
  (forall va, page_va va -> va < a \/ b <= va -> pte_at m' pgdir va = pte_at m pgdir va) /\
  (forall q, q ∈ l' <-> q ∈ l \/ exists va, page_va va /\ a <= va < b /\
     present (pte_at m pgdir va) = true /\ q = frame m pgdir va) /\
  (forall q, pt_page m' pgdir q <-> pt_page m pgdir q) /\
  (forall x, (forall q, pt_page m pgdir q -> ~ on_page q x) ->
     (forall q, q ∈ l' -> (q ∉ l) -> ~ on_page q x) -> m' x = m x).

(** What mapping fresh zeroed pages at [[a, b)] does; [l'] is the part of the
    free pages [l] that is left, the others are mapped or are new tables. *)
Definition uspace_grow (m m' : mem) (pgdir a b : Z) (l l' : list Z) : Prop :=
  as_ok m' pgdir l' /\
  (forall va, page_va va -> a <= va < b -> exists p, p ∈ l /\ pa_page p /\
     pte_at m' pgdir va = mkpte (V2P p) (Z.lor PTE_W PTE_U) /\
     forall x, on_page p x -> m' x = 0) /\
  (forall va, page_va va -> va < a \/ b <= va -> pte_at m' pgdir va = pte_at m pgdir va) /\
  (forall q, q ∈ l' -> q ∈ l) /\
  (forall q, pt_page m pgdir q -> pt_page m' pgdir q) /\
  (forall q, pt_page m' pgdir q -> pt_page m pgdir q \/ (q ∈ l /\ q ∉ l')) /\
  (forall q, q ∈ l -> q ∈ l' \/ pt_page m' pgdir q \/
     exists va, page_va va /\ a <= va < b /\ q = frame m' pgdir va) /\
  (forall x, (forall q, pt_page m pgdir q -> ~ on_page q x) ->
     (forall q, q ∈ l -> ~ on_page q x) -> m' x = m x).

(** What an [allocuvm] that fails leaves behind: nothing is mapped at [[a, b)],
    and every page it had taken is free again, except new page tables. *)
Definition uspace_restored (m m' : mem) (pgdir a b : Z) (l l' : list Z) : Prop :=
  as_ok m' pgdir l' /\
  (forall va, page_va va -> a <= va < b -> present (pte_at m' pgdir va) = false) /\
  (forall va, page_va va -> va < a \/ b <= va -> pte_at m' pgdir va = pte_at m pgdir va) /\
  (forall q, pt_page m pgdir q -> pt_page m' pgdir q) /\
  (forall q, q ∈ l' <-> q ∈ l /\ ~ pt_page m' pgdir q) /\
  (forall x, (forall q, pt_page m pgdir q -> ~ on_page q x) ->
     (forall q, q ∈ l -> ~ on_page q x) -> m' x = m x).

(** The address space [d] was built from pages of [l0]; what is left of them is
    [l], and no other memory changed. *)
Definition space_of (m0 m : mem) (d : Z) (l0 l : list Z) : Prop :=
  as_ok m d l /\
  (forall q, q ∈ l -> q ∈ l0) /\
  (forall q, pt_page m d q -> q ∈ l0) /\
  (forall va, user_va va -> present (pte_at m d va) = true -> frame m d va ∈ l0) /\
  (forall q, q ∈ l0 -> q ∈ l \/ pt_page m d q \/
     exists va, user_va va /\ present (pte_at m d va) = true /\ q = frame m d va) /\
  (forall x, (forall q, q ∈ l0 -> ~ on_page q x) -> m x = m0 x).

(** ** How many pages an operation takes *)

(** The page addresses from [a] up to [b], and the directory entries of pages. *)
Definition pages (a b : Z) : list Z := (fun i => a + i * PGSIZE) <$> seqZ 0 ((b - a + PGSIZE - 1) / PGSIZE).
Definition pdxs (vas : list Z) : gset Z := list_to_set (PDX <$> vas).

(** The directory entries that have a page table. *)
Definition tabset (m : mem) (pgdir : Z) : gset Z :=
  list_to_set (filter (fun i => present (get32 m (pgdir + 4 * i)) = true) (seqZ 0 1024)).

(** Mapping fresh pages from [a] up to [b]: the pages, and the tables that are
    not there yet. *)
Definition grow_cost (m : mem) (pgdir a b : Z) : nat :=
  length (pages a b) + size (pdxs (pages a b) ∖ tabset m pgdir).

(** A copy of the pages below [sz]: a directory, the tables of the kernel's part
    and of the pages that are mapped, and these pages. *)
Definition ktab (k : kmap_entry) : gset Z :=
  list_to_set (seqZ (PDX (virt k)) (PDX (virt k + u32 (phys_end k - phys_start k) - 1) - PDX (virt k) + 1)).
Definition ktables (ks : list kmap_entry) : gset Z := ⋃ (ktab <$> ks).
Definition mapped (m : mem) (pgdir sz : Z) : list Z :=
  filter (fun va => present (pte_at m pgdir va) = true) (pages 0 sz).
Definition copy_cost (data : Z) (m : mem) (pgdir sz : Z) : nat :=
  1 + size (ktables (kmap data) ∪ pdxs (mapped m pgdir sz)) + length (mapped m pgdir sz).

Definition in_kmap (k : kmap_entry) (va : Z) : Prop :=
  virt k <= va < virt k + u32 (phys_end k - phys_start k).

(** The whole of [kmap] entry [k] is mapped, and only for the kernel. *)
Definition kmapped (m : mem) (d : Z) (k : kmap_entry) : Prop :=
  forall va, page_va va -> in_kmap k va ->
  pte_at m d va = mkpte (phys_start k + (va - virt k)) (kperm k).

Definition kmap_ok (k : kmap_entry) : Prop :=
  let size := u32 (phys_end k - phys_start k) in
  page_va (virt k) /\ page_va (phys_start k) /\ size mod PGSIZE = 0 /\ 0 < size /\
  KERNBASE <= virt k /\ virt k + size <= 2 ^ 32 /\ phys_start k + size <= 2 ^ 32 /\
  0 <= kperm k < 4096.

Definition kmap_before (k k' : kmap_entry) : Prop :=
  virt k + u32 (phys_end k - phys_start k) <= virt k'.

(** [va] is mapped in [d] as it is in [pgdir]: same flags, same contents, in a
    page of its own. *)
Definition copied (m0 m : mem) (pgdir d va : Z) : Prop :=
  present (pte_at m d va) = true /\ PTE_FLAGS (pte_at m d va) = PTE_FLAGS (pte_at m0 pgdir va) /\
  forall o, 0 <= o < PGSIZE -> m (frame m d va + o) = m0 (frame m0 pgdir va + o).

(** The pages of [pgdir] below [i] are copied to [d], holes are kept as holes. *)
Definition uspace_copied (m0 m : mem) (pgdir d i : Z) : Prop :=
  forall va, user_va va ->
  if present (pte_at m0 pgdir va) && (va <? i) then copied m0 m pgdir d va
  else present (pte_at m d va) = false.

(** ** Releasing pages *)

Lemma drop_skip m m' pgdir a c b l l' :
  a <= c -> (forall va, page_va va -> a <= va < c -> va < b -> present (pte_at m pgdir va) = false) ->
  uspace_drop m m' pgdir c b l l' -> uspace_drop m m' pgdir a b l l'.
Proof.
  intros Hac Hab (D1 & D2 & D3 & D4 & D5 & D6). split_and!; try done.
  - intros va Hv Hr. destruct (Z_lt_ge_dec va c).
    + rewrite D3 by (try done; lia). apply Hab; [done|lia|lia].
    + apply D2; [done|lia].
  - intros va Hv Hr. apply D3; [done|lia].
  - intros q. rewrite D4. split; (intros [|(va & Hv & Hr & Hp & ->)]; [by left|right]).
    + exists va. split_and!; try done; lia.
    + exists va. split_and!; try done; [|lia]. destruct (Z_lt_ge_dec va c); [|lia].
      rewrite Hab in Hp by (try done; lia). done.
Qed.

Lemma drop_refl m pgdir a b l : as_ok m pgdir l -> b <= a -> uspace_drop m m pgdir a b l l.
Proof.
  intros Has Hba. split_and!; try done; [intros; lia|].
  intros q. split; [by left|]. intros [|(va & _ & ? & _)]; [done|lia].
Qed.

Lemma pt_ok_cons m pgdir f l : pt_ok m pgdir l -> ~ pt_page m pgdir f -> pt_ok m pgdir (f :: l).
Proof.
  intros (O1 & O2 & O3 & O4) F. split_and!; [done| | |done].
  - apply not_elem_of_cons. split; [|done]. intros E. apply F. by left.
  - intros i Hi. destruct (O3 i Hi) as (T1 & T2 & T3). split_and!; [done| |done].
    apply not_elem_of_cons. split; [|done]. intros E. apply F. right. by exists i.
Qed.

Lemma pte_present_pde m pgdir va :
  present (pte_at m pgdir va) = true -> present (pde_at m pgdir va) = true.
Proof.
  intros Hpr. destruct (present (pde_at m pgdir va)) eqn:E; [done|].
  by rewrite (pte_at_absent m pgdir va E) in Hpr.
Qed.

Lemma page_va_same a va : page_va a -> page_va va -> a <= va < a + PGSIZE -> va = a.
Proof. unfold page_va, PGSIZE. intros [_ ?] [_ ?] ?. zlia. Qed.

Lemma drop_one m m' pgdir a l :
  as_ok m pgdir l -> user_va a -> present (pte_at m pgdir a) = true ->
  let f := frame m pgdir a in
  pt_ok m' pgdir (f :: l) -> pte_at m' pgdir a = 0 ->
  (forall va, page_va va -> va <> a -> pte_at m' pgdir va = pte_at m pgdir va) ->
  (forall q, pt_page m' pgdir q <-> pt_page m pgdir q) ->
  (forall x, (forall q, pt_page m pgdir q -> ~ on_page q x) -> ~ on_page f x -> m' x = m x) ->
  uspace_drop m m' pgdir a (a + PGSIZE) l (f :: l).
Proof.
  intros (Hok & Hfr & Hinj) Hu Hpr f Hok' H0 Hoth Hpp Hmem.
  destruct (Hfr a Hu Hpr) as (F1 & F2 & F3). pose proof Hu as [Hpa HK].
  assert (Hpo : forall va, user_va va -> present (pte_at m' pgdir va) = true ->
    va <> a /\ present (pte_at m pgdir va) = true /\ frame m' pgdir va = frame m pgdir va).
  { intros va [Hv1 Hv2] Hp. destruct (Z.eq_dec va a) as [->|Hne]; [by rewrite H0 in Hp|].
    unfold frame. by rewrite <- (Hoth va). }
  split_and!.
  - split_and!; [done| |].
    + intros va Hva Hp. destruct (Hpo va Hva Hp) as (Hne & Hp0 & ->).
      destruct (Hfr va Hva Hp0) as (G1 & G2 & G3). split_and!; [done| |by rewrite Hpp].
      apply not_elem_of_cons. split; [|done]. intros E. by apply Hne, Hinj.
    + intros va va' Hva Hva' Hp Hp'. destruct (Hpo va Hva Hp) as (_ & ? & ->).
      destruct (Hpo va' Hva' Hp') as (_ & ? & ->). by apply Hinj.
  - intros va Hv Hr. by rewrite (page_va_same a va), H0.
  - intros va Hv Hr. apply Hoth; [done|]. unfold PGSIZE in Hr. lia.
  - intros q. rewrite elem_of_cons. split.
    + intros [->|]; [right|by left]. exists a. split_and!; try done; unfold PGSIZE; lia.
    + intros [?|(va & Hv & Hr & _ & ->)]; [by right|left]. by rewrite (page_va_same a va).
  - done.
  - intros x Hx Hx'. apply Hmem; [done|]. apply Hx'; [by left|done].
Qed.

(** Releasing one page of the address space. *)
Lemma unmap_page s pgdir a l (k : M St unit) :
  pa_inv s l -> as_ok (pa_mem s) pgdir l -> user_va a ->
  present (pte_at (pa_mem s) pgdir a) = true ->
  let f := frame (pa_mem s) pgdir a in
  exists s', (pa_kfree f ;;! wr (pte_slot (pa_mem s) pgdir a) 0 ;;! k) s = k s' /\
    pa_inv s' (f :: l) /\ uspace_drop (pa_mem s) (pa_mem s') pgdir a (a + PGSIZE) l (f :: l).
Proof.
  intros Hinv Has Hu Hpr f. pose proof Has as (Hok & Hfr & _).
  destruct (Hfr a Hu Hpr) as (F1 & F2 & F3). fold f in F1, F2, F3.
  destruct (pa_kfree_ok s l f Hinv F1 F2) as (s1 & Hk & Hinv1 & Hm1).
  assert (He : forall q x, pt_page (pa_mem s) pgdir q -> on_page q x -> pa_mem s1 x = pa_mem s x).
  { intros q x Hq Hx. apply Hm1. destruct (pt_page_ok _ _ _ _ Hok Hq) as [Hqp _].
    assert (Hne : q <> f) by (by intros ->).
    pose proof (page_disjoint q f x Hqp F1 Hne Hx). unfold on_page in *. lia. }
  destruct (pt_ext _ _ pgdir He) as (Hh & Ht & Hpp & Hv).
  assert (Hpde : pde_at (pa_mem s1) pgdir a = pde_at (pa_mem s) pgdir a).
  { apply tab_ext; [apply pdx_range|]. intros x Hx. apply (He pgdir); [by left|done]. }
  assert (Hok1 : pt_ok (pa_mem s1) pgdir (f :: l)) by (apply (pt_ok_ext (pa_mem s)), pt_ok_cons; done).
  destruct (write_pte (pa_mem s1) pgdir a 0 (f :: l)) as (W1 & W2 & W3 & _); try done.
  { apply Hu. }
  { rewrite Hpde. by apply pte_present_pde. }
  assert (Hslot : pte_slot (pa_mem s1) pgdir a = pte_slot (pa_mem s) pgdir a).
  { unfold pte_slot. by rewrite Hpde. }
  rewrite Hslot in *. set (m2 := put32 _ _ 0) in *.
  exists (pa_setmem m2 s1). rewrite pa_mem_setmem. split_and!.
  - rewrite (mbind_ok _ _ _ _ _ Hk). done.
  - apply (pa_inv_step _ _ pgdir); [done| |done].
    apply wf_put32. by destruct (pa_inv_pages _ _ Hinv1) as (_ & _ & ?).
  - pose proof W1 as (W4 & _ & W5 & W6 & W7). apply drop_one; try done.
    + intros va Hva Hne. by rewrite W3, Hv.
    + intros q. rewrite <- Hpp. split; [|apply W5]. by intros [?|[? []]]%W6.
    + intros x Hx Hnf. rewrite W7; [apply Hm1; unfold on_page in Hnf; lia|].
      intros q [Hq'|[? []]]%W6; [|done]. by apply Hx, Hpp.
Qed.

(** Taking user access from a page: the page stays where it is. *)
Lemma clearpteu_spec s pgdir a l :
  pa_inv s l -> as_ok (pa_mem s) pgdir l -> user_va a -> present (pte_at (pa_mem s) pgdir a) = true ->
  exists s', clearpteu pgdir a s = Ok (tt, s') /\ pa_inv s' l /\ as_ok (pa_mem s') pgdir l /\
    pte_at (pa_mem s') pgdir a = Z.land (pte_at (pa_mem s) pgdir a) (u32 (Z.lnot PTE_U)) /\
    (forall va, page_va va -> va <> a -> pte_at (pa_mem s') pgdir va = pte_at (pa_mem s) pgdir va) /\
    (forall q, pt_page (pa_mem s') pgdir q <-> pt_page (pa_mem s) pgdir q) /\
    forall va, user_va va -> present (pte_at (pa_mem s') pgdir va) = present (pte_at (pa_mem s) pgdir va) /\
      frame (pa_mem s') pgdir va = frame (pa_mem s) pgdir va.
Proof.
  intros Hinv Has Hu Hpr. pose proof Has as (Hok & Hfr & Hinj). pose proof (pte_present_pde _ _ _ Hpr) as Hpde.
  destruct (pa_inv_pages _ _ Hinv) as (_ & _ & Hwf).
  set (e := Z.land (pte_at (pa_mem s) pgdir a) (u32 (Z.lnot PTE_U))).
  assert (He : is_u32 e).
  { assert (E : e = e mod 2 ^ 32) by (unfold e; rewrite <- Z.land_ones, <- Z.land_assoc by lia; reflexivity).
    rewrite E. apply u32_range. }
  destruct (write_pte (pa_mem s) pgdir a e l Hok (proj1 Hu) Hpde He) as (W1 & W2 & W3 & _).
  set (m2 := put32 _ _ e) in *. pose proof W1 as (W4 & _ & W5 & W6 & W7).
  assert (Hpp : forall q, pt_page m2 pgdir q <-> pt_page (pa_mem s) pgdir q).
  { intros q. split; [|apply W5]. by intros [?|[? []]]%W6. }
  assert (Hpf : forall va, user_va va -> present (pte_at m2 pgdir va) = present (pte_at (pa_mem s) pgdir va) /\
      frame m2 pgdir va = frame (pa_mem s) pgdir va).
  { intros va Hva. unfold frame. destruct (Z.eq_dec va a) as [->|Hne]; [|by rewrite W3 by (done || apply Hva)].
    rewrite W2. unfold present, PTE_ADDR, e. by rewrite <- !Z.land_assoc. }
  exists (pa_setmem m2 s). rewrite pa_mem_setmem. split_and!; try done.
  - unfold clearpteu. rewrite (mbind_ok _ _ _ _ _ (walk_present _ _ _ _ Hpde)).
    rewrite (proj2 (Z.eqb_neq _ _)); [unfold rd, wr, mbind, mget, mset; cbn [obind]; by rewrite <- pte_at_slot|].
    destruct (pte_slot_tab _ _ _ Hpde) as [Ht ->]. destruct Hok as (_ & _ & Htab & _). destruct (Htab _ Ht) as (Hp & _).
    pose proof (pa_page_range _ Hp) as (_ & ? & _). pose proof (ptx_range a). unfold KERNBASE in *. lia.
  - apply (pa_inv_step _ _ pgdir); [done|by apply wf_put32|done].
  - split_and!; [done| |].
    + intros va Hva Hp. destruct (Hpf va Hva) as [E ->]. rewrite E in Hp. rewrite Hpp. by apply Hfr.
    + intros va va' Hva Hva' Hp Hp'. destruct (Hpf va Hva) as [E ->], (Hpf va' Hva') as [E' ->].
      rewrite E in Hp. rewrite E' in Hp'. by apply Hinj.
Qed.

Lemma drop_trans m1 m2 m3 pgdir a c b l1 l2 l3 :
  a <= c <= b -> uspace_drop m1 m2 pgdir a c l1 l2 -> uspace_drop m2 m3 pgdir c b l2 l3 ->
  uspace_drop m1 m3 pgdir a b l1 l3.
Proof.
  intros Hc (A1 & A2 & A3 & A4 & A5 & A6) (B1 & B2 & B3 & B4 & B5 & B6). split_and!; try done.
  - intros va Hv Hr. destruct (Z_lt_ge_dec va c).
    + rewrite B3 by (try done; lia). apply A2; [done|lia].
    + apply B2; [done|lia].
  - intros va Hv Hr. rewrite B3, A3 by (try done; lia). done.
  - intros q. rewrite B4, A4. split.
    + intros [[?|(va & Hv & Hr & Hp)]|(va & Hv & Hr & Hp & ->)]; [by left| |]; right; exists va.
      * split_and!; try done; try lia; by destruct Hp.
      * unfold frame. rewrite A3 in Hp |- * by (try done; lia). split_and!; try done; lia.
    + intros [?|(va & Hv & Hr & Hp & ->)]; [by left; left|].
      destruct (Z_lt_ge_dec va c); [left; right|right]; exists va.
      * split_and!; try done; lia.
      * unfold frame. rewrite A3 by (try done; lia). split_and!; try done; lia.
  - intros q. by rewrite B5, A5.
  - intros x Hx Hx'. rewrite B6, A6; [done|done| | |].
    + intros q Hq Hn. apply Hx'; [|done]. apply B4. by left.
    + intros q Hq. apply Hx. by apply A5.
    + intros q Hq Hn. apply Hx'; [done|]. intros H. apply Hn, A4. by left.
Qed.

Lemma drop_round m m' pgdir a b b' l l' :
  (forall va, page_va va -> a <= va -> (va < b <-> va < b')) ->
  uspace_drop m m' pgdir a b l l' -> uspace_drop m m' pgdir a b' l l'.
Proof.
  intros Hb (A1 & A2 & A3 & A4 & A5 & A6). split_and!; try done.
  - intros va Hv Hr. apply A2; [done|]. rewrite Hb; [lia|done|lia].
  - intros va Hv Hr. apply A3; [done|]. destruct (Z_lt_ge_dec va a); [by left|right].
    apply Z.nlt_ge. rewrite Hb; [lia|done|lia].
  - intros q. rewrite A4. split; (intros [?|(va & Hv & Hr & Hp)]; [by left|right]);
      exists va; (split_and!; [done|lia| |apply Hp|apply Hp]); apply Hb; first [done|lia].
Qed.

Lemma drop_trans_page m1 m2 m3 pgdir a b l1 l2 l3 :
  uspace_drop m1 m2 pgdir a (a + PGSIZE) l1 l2 -> page_va a -> a < b ->
  uspace_drop m2 m3 pgdir (a + PGSIZE) b l2 l3 -> uspace_drop m1 m3 pgdir a b l1 l3.
Proof.
  intros H1 Ha Hab H2.
  destruct (Z_le_gt_dec (a + PGSIZE) b) as [Hle|Hgt].
  { apply (drop_trans m1 m2 m3 pgdir a (a + PGSIZE) b l1 l2 l3); [unfold PGSIZE in *; lia|done|done]. }
  apply (drop_round _ _ _ _ (a + PGSIZE)).
  { intros va Hv Hr. destruct (Z_lt_ge_dec va (a + PGSIZE)); [|lia].
    rewrite (page_va_same a va) by done. lia. }
  apply (drop_trans m1 m2 m3 pgdir a (a + PGSIZE) (a + PGSIZE) l1 l2 l3); [unfold PGSIZE; lia|done|].
  revert H2. apply drop_round. lia.
Qed.

(** The next directory entry starts past every page of this one. *)
Lemma next_table a : user_va a ->
  let a' := u32 (u32 (PGADDR (PDX a + 1) 0 0 - PGSIZE) + PGSIZE) in
  page_va a' /\ a + PGSIZE <= a' /\ (forall va, is_u32 va -> a <= va < a' -> PDX va = PDX a).
Proof.
  intros [[Hu Ha] HK] a'.
  assert (Hr : 0 <= PDX a < 512).
  { rewrite pdx_eq by done. unfold is_u32, KERNBASE in *. zlia. }
  assert (E : a' = (PDX a + 1) * 2 ^ 22).
  { unfold a'. rewrite u32_add_u32, pgaddr_next by (try done; lia).
    rewrite u32_small; unfold is_u32, PGSIZE; lia. }
  rewrite E. rewrite pdx_eq in * by done. unfold page_va, is_u32, PGSIZE in *. split_and!; try zlia.
  intros va Hva Hin. rewrite pdx_eq by done. zlia.
Qed.

Lemma pte_slot_nonzero m pgdir va l :
  pt_ok m pgdir l -> present (pde_at m pgdir va) = true -> (pte_slot m pgdir va =? 0) = false.
Proof.
  intros (_ & _ & Htab & _) E. destruct (pte_slot_tab _ _ _ E) as [Ht Hs].
  destruct (Htab _ Ht) as (Hp & _). pose proof (pa_page_range _ Hp). pose proof (ptx_range va).
  apply Z.eqb_neq. unfold KERNBASE in *. lia.
Qed.

Lemma deallocuvm_loop_spec fuel pgdir a oldsz s l :
  pa_inv s l -> as_ok (pa_mem s) pgdir l -> page_va a -> oldsz <= KERNBASE ->
  oldsz <= a + Z.of_nat fuel * PGSIZE ->
  exists s' l', deallocuvm_loop fuel pgdir a oldsz s = Ok (tt, s') /\ pa_inv s' l' /\
    uspace_drop (pa_mem s) (pa_mem s') pgdir a oldsz l l'.
Proof.
  revert a s l. induction fuel as [|f IH]; intros a s l Hinv Has Ha HK Hf; cbn [deallocuvm_loop];
    (destruct (Z.ltb_spec a oldsz); [|exists s, l; split_and!; [done|done|by apply drop_refl]]); [lia|].
  assert (Hu : user_va a) by (split; [done|lia]).
  assert (Hnext : page_va (u32 (a + PGSIZE)) /\ u32 (a + PGSIZE) = a + PGSIZE).
  { destruct Ha as [Ha1 Ha2]. unfold page_va, is_u32, KERNBASE, PGSIZE in *.
    rewrite u32_small by (unfold is_u32; lia). split_and!; zlia. }
  destruct Hnext as [Hnva Hneq].
  destruct (present (pde_at (pa_mem s) pgdir a)) eqn:Epde.
  - rewrite (mbind_ok _ _ _ _ _ (walk_present s pgdir a false Epde)).
    rewrite (pte_slot_nonzero _ _ _ l (as_ok_pt _ _ _ Has) Epde). unfold rd, mget. mstep. rewrite <- (pte_at_slot _ _ _ Epde).
    destruct (present (pte_at (pa_mem s) pgdir a)) eqn:Epte.
    + rewrite (proj2 (Z.eqb_neq _ _)).
      2:{ destruct Has as (_ & Hfr & _). destruct (Hfr a Hu Epte) as (Hp & _).
          apply page_facts in Hp. unfold frame in Hp. intros E. rewrite E in Hp.
          destruct Hp as (_ & Hp & _). change (P2V 0) with KERNBASE in Hp. lia. }
      fold (frame (pa_mem s) pgdir a).
      destruct (unmap_page s pgdir a l (deallocuvm_loop f pgdir (u32 (a + PGSIZE)) oldsz))
        as (s1 & -> & Hinv1 & Hd1); try done.
      destruct (IH (u32 (a + PGSIZE)) s1 _ Hinv1) as (s' & l' & -> & Hinv' & Hd); try done.
      { apply Hd1. }
      { rewrite Hneq. unfold PGSIZE in *. lia. }
      exists s', l'. split_and!; [done|done|]. rewrite Hneq in Hd.
      by apply (drop_trans_page _ (pa_mem s1) _ _ _ _ _ _ _ Hd1).
    + destruct (IH (u32 (a + PGSIZE)) s l Hinv Has Hnva HK) as (s' & l' & -> & Hinv' & Hd).
      { rewrite Hneq. unfold PGSIZE in *. lia. }
      exists s', l'. split_and!; [done|done|]. revert Hd. rewrite Hneq.
      apply drop_skip; [unfold PGSIZE; lia|]. intros va Hv Hr _. by rewrite (page_va_same a va).
  - rewrite (mbind_ok _ _ _ _ _ (walk_absent s pgdir a Epde)). cbn [Z.eqb].
    destruct (next_table a Hu) as (N1 & N2 & N3).
    destruct (IH _ s l Hinv Has N1 HK) as (s' & l' & Hrun & Hinv' & Hd).
    { unfold PGSIZE in *. lia. }
    exists s', l'. split_and!; [done|done|]. revert Hd. apply drop_skip; [unfold PGSIZE in *; lia|].
    intros va [Hva _] Hr _. rewrite pte_at_absent; [done|].
    unfold pde_at in *. by rewrite N3.
Qed.

Lemma deallocuvm_spec pgdir oldsz newsz s l :
  pa_inv s l -> as_ok (pa_mem s) pgdir l -> 0 <= newsz < oldsz -> oldsz <= KERNBASE ->
  exists s' l', deallocuvm pgdir oldsz newsz s = Ok (newsz, s') /\ pa_inv s' l' /\
    uspace_drop (pa_mem s) (pa_mem s') pgdir (PGROUNDUP newsz) oldsz l l'.
Proof.
  intros Hinv Has Hn HK. unfold deallocuvm.
  replace (newsz >=? oldsz) with false by (symmetry; rewrite Z.geb_leb; apply Z.leb_gt; lia).
  assert (E : PGROUNDUP newsz = newsz + 4095 - (newsz + 4095) mod 4096).
  { apply pgroundup_eq; unfold is_u32, KERNBASE in *; lia. }
  destruct (deallocuvm_loop_spec (Z.to_nat (oldsz / PGSIZE + 1)) pgdir (PGROUNDUP newsz) oldsz s l)
    as (s' & l' & Hrun & Hinv' & Hd); try done.
  { rewrite E. unfold page_va, is_u32, PGSIZE, KERNBASE in *. split; zlia. }
  { rewrite E. unfold PGSIZE, KERNBASE in *. rewrite Z2Nat.id by zlia. zlia. }
  exists s', l'. rewrite (mbind_ok _ _ _ _ _ Hrun). done.
Qed.

(** ** Fresh pages *)

Section Fresh.
Variables (m m2 m' : mem) (pgdir a p : Z) (l l' : list Z).
Hypothesis (Has : as_ok m pgdir (p :: l)) (Hp : pa_page p) (Hpl : p ∉ l).
Hypothesis (Hm2 : forall x, ~ on_page p x -> m2 x = m x) (Hz : forall x, on_page p x -> m2 x = 0).
Hypothesis (Hst : pt_step m2 m' pgdir l l').

Lemma fresh_ext q x : pt_page m pgdir q -> on_page q x -> m2 x = m x.
Proof using Has Hp Hm2.
  intros Hq Hx. apply Hm2. destruct (pt_page_ok _ _ _ _ (as_ok_pt _ _ _ Has) Hq) as [Hqp Hn].
  apply (page_disjoint q p x); try done. intros ->. apply Hn. by left.
Qed.

Lemma fresh_pt_page q : pt_page m' pgdir q <-> pt_page m pgdir q \/ (q ∈ l /\ q ∉ l').
Proof using Has Hp Hpl Hm2 Hst.
  destruct Hst as (_ & _ & _ & S4 & _). destruct (pt_ext m m2 pgdir fresh_ext) as (_ & _ & Hpp & _).
  by rewrite S4, Hpp.
Qed.

Lemma fresh_tables q : pt_page m pgdir q -> pt_page m' pgdir q.
Proof using Has Hp Hpl Hm2 Hst. rewrite fresh_pt_page. by left. Qed.

Lemma fresh_not_table : ~ pt_page m' pgdir p /\ (p ∉ l').
Proof using Has Hp Hpl Hm2 Hst.
  assert (Hnp : ~ pt_page m pgdir p).
  { intros Hq. destruct (pt_page_ok _ _ _ _ (as_ok_pt _ _ _ Has) Hq) as [_ Hn]. apply Hn. by left. }
  split; [intros [?|[? _]]%fresh_pt_page; done|].
  destruct Hst as (_ & [k ->] & _). intros Hin. apply Hpl, elem_of_app. by right.
Qed.

Lemma fresh_same x : on_page p x -> m' x = m2 x.
Proof using Has Hp Hpl Hm2 Hst.
  intros Hx. destruct Hst as (S1 & _ & _ & _ & S5). apply S5.
  intros q Hq. destruct (pt_page_ok _ _ _ _ S1 Hq) as [Hqp _].
  apply (page_disjoint p q x); try done. intros <-. by apply fresh_not_table in Hq.
Qed.

Lemma fresh_frame x :
  (forall q, pt_page m pgdir q -> ~ on_page q x) -> (forall q, q ∈ p :: l -> ~ on_page q x) -> m' x = m x.
Proof using Has Hp Hpl Hm2 Hst.
  intros Hx Hx'. destruct Hst as (_ & _ & _ & _ & S5). rewrite S5; [apply Hm2, Hx'; by left|].
  intros q [Hq|[Hq _]]%fresh_pt_page; [by apply Hx|apply Hx'; by right].
Qed.

Lemma fresh_left q : q ∈ l' -> q ∈ p :: l.
Proof using Has Hp Hpl Hm2 Hst. destruct Hst as (_ & [k ->] & _). intros Hin. right. apply elem_of_app. by right. Qed.

Lemma grow_one :
  page_va a -> as_ok m' pgdir l' -> pte_at m' pgdir a = mkpte (V2P p) (Z.lor PTE_W PTE_U) ->
  (forall va, page_va va -> va <> a -> pte_at m' pgdir va = pte_at m2 pgdir va) ->
  uspace_grow m m' pgdir a (a + PGSIZE) (p :: l) l'.
Proof.
  intros Ha Has' Hpa Hoth. destruct (pt_ext m m2 pgdir fresh_ext) as (_ & _ & Hpp & Hv).
  split_and!; [done| | |apply fresh_left|apply fresh_tables| | |apply fresh_frame].
  - intros va Hva Hr. rewrite (page_va_same a va) by done. exists p.
    split_and!; [by left|done|done|]. intros x Hx. by rewrite fresh_same, Hz.
  - intros va Hva Hr. rewrite Hoth, Hv; [done|done|unfold PGSIZE in *; lia].
  - intros q [Hq|[Hq Hn]]%fresh_pt_page; [by left|right; split; [by right|done]].
  - intros q [->|Hq]%elem_of_cons.
    + right. right. exists a. split_and!; [done|unfold PGSIZE; lia|unfold PGSIZE; lia|].
      unfold frame. by rewrite Hpa, mkpte_frame.
    + destruct (decide (q ∈ l')); [by left|]. right. left. apply fresh_pt_page. by right.
Qed.

Lemma grow_none :
  as_ok m' pgdir [p] -> l' = [] ->
  (forall va, page_va va -> pte_at m' pgdir va = pte_at m2 pgdir va) ->
  uspace_grow m m' pgdir a a (p :: l) [p].
Proof.
  intros Has' El Hall. destruct (pt_ext m m2 pgdir fresh_ext) as (_ & _ & Hpp & Hv).
  split_and!; [done|intros; lia| | |apply fresh_tables| | |apply fresh_frame].
  - intros va Hva Hr. by rewrite Hall, Hv.
  - intros q ->%list_elem_of_singleton. by left.
  - intros q Hq. destruct (decide (q = p)) as [->|Hne]; [by apply fresh_not_table in Hq|].
    apply fresh_pt_page in Hq as [Hq|[Hq _]]; [by left|right]. split; [by right|].
    by rewrite list_elem_of_singleton.
  - intros q [->|Hq]%elem_of_cons; [left; by apply list_elem_of_singleton|].
    right. left. apply fresh_pt_page. right. split; [done|]. rewrite El. apply not_elem_of_nil.
Qed.
End Fresh.

(** Taking the first free page, which the caller may then fill. *)
Lemma take_page s p l :
  pa_inv s (p :: l) ->
  exists s1, pa_kalloc s = Ok (p, s1) /\ pa_mem s1 = pa_mem s /\ pa_page p /\ (p ∉ l) /\
    (p =? 0) = false /\ wf_mem (pa_mem s) /\
    forall m2, wf_mem m2 -> (forall x, ~ on_page p x -> m2 x = pa_mem s x) -> pa_inv (pa_setmem m2 s1) l.
Proof.
  intros Hinv. destruct (pa_kalloc_cons s p l Hinv) as (s1 & Hk & Hinv1 & Hm1).
  destruct (pa_inv_pages _ _ Hinv) as (Hps & Hnd & Hwf).
  apply Forall_cons in Hps as [Hp Hps]. apply NoDup_cons in Hnd as [Hpl Hnd].
  exists s1. split_and!; try done.
  - apply Z.eqb_neq. apply pa_page_range in Hp. unfold KERNBASE in Hp. lia.
  - intros m2 Hw Hm2. apply pa_inv_setmem; [done|done|].
    intros q x Hq Hx. rewrite Hm1. apply Hm2. apply (page_disjoint q p x); try done.
    + rewrite Forall_forall in Hps. by apply Hps.
    + by intros ->.
Qed.

Lemma clear_page m p :
  let m2 := memset m p 0 PGSIZE in
  (forall x, ~ on_page p x -> m2 x = m x) /\ (forall x, on_page p x -> m2 x = 0) /\
  (wf_mem m -> wf_mem m2).
Proof.
  split_and!.
  - intros x Hx. apply memset_out; [unfold PGSIZE; lia|unfold on_page in Hx; lia].
  - intros x Hx. rewrite memset_spec by (unfold PGSIZE; lia). by apply fill_in.
  - apply wf_memset. unfold PGSIZE. lia.
Qed.

(** Taking a free page, clearing it and mapping it: the sequence that [allocuvm]
    and the page-fault handler share, with [k0] and [k] for what follows. *)
Lemma fresh_page {B} s pgdir a p l (k0 : M St B) (k : Z -> Z -> M St B) :
  pa_inv s (p :: l) -> as_ok (pa_mem s) pgdir (p :: l) -> user_va a ->
  present (pte_at (pa_mem s) pgdir a) = false ->
  exists r s' l',
    (let! mem := pa_kalloc in
     if mem =? 0 then k0
     else kmemset mem 0 PGSIZE ;;!
          let! r := mappages pgdir a PGSIZE (V2P mem) (Z.lor PTE_W PTE_U) in k mem r) s = k p r s' /\
    pa_inv s' l' /\ pa_page p /\ (p ∉ l') /\
    tabs_step (pa_mem s) (pa_mem s') pgdir (fun i => r = 0 /\ i = PDX a) /\
    ((r = 0 /\ uspace_grow (pa_mem s) (pa_mem s') pgdir a (a + PGSIZE) (p :: l) l') \/
     (r = -1 /\ l' = [] /\ ~ has_tab (pa_mem s') pgdir (PDX a) /\
      uspace_grow (pa_mem s) (pa_mem s') pgdir a a (p :: l) [p])).
Proof.
  intros Hinv Has Hu Habs.
  destruct (take_page s p l Hinv) as (s1 & Hk & Hm1 & Hp & Hpl & Hp0 & Hwf & Hset).
  rewrite (mbind_ok _ _ _ _ _ Hk), Hp0. unfold kmemset, mset. mstep. rewrite Hm1.
  destruct (clear_page (pa_mem s) p) as (Hm2 & H0 & Hwf2).
  set (m2 := memset (pa_mem s) p 0 PGSIZE) in *.
  set (s2 := pa_setmem m2 s1). assert (Es2 : pa_mem s2 = m2) by apply pa_mem_setmem.
  assert (Hinv2 : pa_inv s2 l) by (apply Hset; auto).
  assert (He : forall q x, pt_page (pa_mem s) pgdir q -> on_page q x -> m2 x = pa_mem s x).
  { intros q x. by apply (fresh_ext _ _ _ _ _ Has). }
  destruct (map_user_page s2 pgdir a p (Z.lor PTE_W PTE_U) l)
    as (r & s' & l' & Hrun & Hinv' & Hst & Hoth & Ht & Hres); try done.
  { rewrite Es2. by apply (as_ok_ext (pa_mem s)). }
  { rewrite Es2. destruct (pt_ext _ _ pgdir He) as (_ & _ & _ & ->). done. }
  rewrite Es2 in *. exists r, s', l'.
  assert (Hn : p ∉ l') by (by apply (fresh_not_table (pa_mem s) m2 (pa_mem s') pgdir p l l')).
  split_and!; try done.
  - fold s2. by rewrite (mbind_ok _ _ _ _ _ Hrun).
  - apply (tabs_trans _ m2 _ _ (fun _ => False) _ _ (tabs_ext _ _ _ _ He) Ht); [done|auto].
  - destruct Hres as [(-> & Has' & Hpa)|(-> & -> & Has' & Hno & Hpa)]; [left|right].
    + split; [done|]. apply (grow_one _ m2); try done. apply Hu.
    + split_and!; try done. apply (grow_none _ m2 _ _ _ _ _ []); try done.
      intros va Hva. destruct (Z.eq_dec va a) as [->|]; auto.
Qed.

Lemma mkpte_present p perm : pa_page p -> 0 <= perm < 4096 -> present (mkpte (V2P p) perm) = true.
Proof.
  intros Hp Hr. destruct (page_facts p Hp) as (_ & _ & _ & _ & _ & _ & H7 & H8).
  by destruct (mkpte_props (V2P p) perm H7 H8 Hr) as (_ & ? & _).
Qed.

Lemma grow_refl m pgdir a l : as_ok m pgdir l -> uspace_grow m m pgdir a a l l.
Proof. intros Has. split_and!; try done; try (intros; lia); by left. Qed.

Lemma grow_mapped m m' pgdir a b l l' va :
  uspace_grow m m' pgdir a b l l' -> page_va va -> a <= va < b ->
  present (pte_at m' pgdir va) = true /\ frame m' pgdir va ∈ l.
Proof.
  intros (_ & G2 & _) Hva Hr. destruct (G2 va Hva Hr) as (p & Hpl & Hp & Hpte & _).
  unfold frame. rewrite Hpte, mkpte_frame, mkpte_present by done. done.
Qed.

(** ** Counting pages *)

Lemma elem_of_pages a b va :
  page_va a -> b <= 2 ^ 32 -> va ∈ pages a b <-> page_va va /\ a <= va < b.
Proof.
  intros [Ha1 Ha2] Hb. unfold pages. rewrite list_elem_of_fmap. unfold page_va, is_u32, PGSIZE in *. split.
  - intros (i & -> & Hi%elem_of_seqZ). zlia.
  - intros [[_ H2] H3]. exists ((va - a) / 4096). rewrite elem_of_seqZ. zlia.
Qed.

Lemma NoDup_pages a b : NoDup (pages a b).
Proof. unfold pages. apply NoDup_fmap_2, NoDup_seqZ. intros i j. unfold PGSIZE. lia. Qed.

Lemma pages_next a i : page_va a -> page_va i -> a <= i -> pages a (i + PGSIZE) = pages a i ++ [i].
Proof.
  intros [_ Ha] [_ Hi] Hai. unfold pages. set (n := (i - a) / PGSIZE).
  assert (E : i - a = n * PGSIZE) by (unfold n, PGSIZE in *; zlia).
  replace ((i + PGSIZE - a + PGSIZE - 1) / PGSIZE) with (n + 1) by (unfold PGSIZE in *; zlia).
  replace ((i - a + PGSIZE - 1) / PGSIZE) with n by (unfold PGSIZE in *; zlia).
  assert (0 <= n) by (unfold n, PGSIZE; zlia).
  rewrite seqZ_app, fmap_app by lia. f_equal. change (seqZ (0 + n) 1) with [n]. cbn [fmap list_fmap]. f_equal. lia.
Qed.

Lemma pages_more a i b : page_va a -> page_va i -> a <= i < b -> pages a i ++ [i] `prefix_of` pages a b.
Proof.
  intros Ha Hi H. rewrite <- pages_next by (done || lia). destruct Ha as [_ Ha], Hi as [_ Hi]. unfold pages.
  set (n := (i + PGSIZE - a + PGSIZE - 1) / PGSIZE). set (k := (b - a + PGSIZE - 1) / PGSIZE).
  assert (0 <= n <= k) by (unfold n, k, PGSIZE in *; zlia). replace k with (n + (k - n)) by lia.
  rewrite seqZ_app, fmap_app by lia. by eexists.
Qed.

Lemma pages_round a i b :
  page_va a -> page_va i -> a <= i -> b <= i -> i = a \/ i < b + PGSIZE -> pages a i = pages a b.
Proof.
  intros [_ Ha] [_ Hi] H1 H2 H3. unfold pages. f_equal. destruct (Z_lt_ge_dec a b) as [Hab|Hab].
  - f_equal. unfold PGSIZE in *. zlia.
  - assert (i = a) as -> by (unfold PGSIZE in *; zlia).
    replace ((a - a + PGSIZE - 1) / PGSIZE) with 0 by (unfold PGSIZE; zlia). symmetry. apply seqZ_nil. unfold PGSIZE. zlia.
Qed.

Lemma elem_of_tabset m pgdir i : i ∈ tabset m pgdir <-> has_tab m pgdir i.
Proof. unfold tabset, has_tab. rewrite elem_of_list_to_set, list_elem_of_filter, elem_of_seqZ. split; intros []; split; (done || lia). Qed.

Lemma elem_of_pdxs vas i : i ∈ pdxs vas <-> exists va, va ∈ vas /\ i = PDX va.
Proof. unfold pdxs. rewrite elem_of_list_to_set, list_elem_of_fmap. naive_solver. Qed.

Lemma pdxs_app v w : pdxs (v ++ w) = pdxs v ∪ pdxs w.
Proof. unfold pdxs. by rewrite fmap_app, list_to_set_app_L. Qed.

Lemma NoDup_same_length {A} (l k : list A) : NoDup l -> NoDup k -> (forall x, x ∈ l <-> x ∈ k) -> length l = length k.
Proof. intros H1 H2 H. by apply Permutation_length, NoDup_Permutation. Qed.

(** The free pages, tables and frames of an address space do not overlap. *)
Lemma space_parts m pgdir l (T : gset Z) (V : list Z) :
  as_ok m pgdir l -> NoDup l -> NoDup V -> (forall i, i ∈ T -> has_tab m pgdir i) ->
  (forall va, va ∈ V -> user_va va /\ present (pte_at m pgdir va) = true) ->
  NoDup (l ++ (tab m pgdir <$> elements T) ++ (frame m pgdir <$> V)).
Proof.
  intros ((O1 & O2 & O3 & O4) & F & Finj) Hl HV HT Hm.
  assert (Hf : NoDup (frame m pgdir <$> V)).
  { apply NoDup_fmap_2_strong; [|done]. intros va va' [? ?]%Hm [? ?]%Hm. by apply Finj. }
  assert (Ht : NoDup (tab m pgdir <$> elements T)).
  { apply NoDup_fmap_2_strong; [|apply NoDup_elements]. intros i j Hi%elem_of_elements%HT Hj%elem_of_elements%HT. by apply O4. }
  apply NoDup_app. split_and!; [done| |apply NoDup_app; split_and!; [done| |done]].
  - intros q Hq [(i & -> & Hi%elem_of_elements%HT)%list_elem_of_fmap|(va & -> & [H1 H2]%Hm)%list_elem_of_fmap]%elem_of_app.
    + by destruct (O3 i Hi) as (_ & ? & _).
    + by destruct (F va H1 H2) as (_ & ? & _).
  - intros q (i & -> & Hi%elem_of_elements%HT)%list_elem_of_fmap (va & E & [H1 H2]%Hm)%list_elem_of_fmap.
    destruct (F va H1 H2) as (_ & _ & H3). apply H3. rewrite <- E. right. by exists i.
Qed.

(** The pages a growth has taken. *)
Lemma grow_used m m' pgdir a b l l' P :
  as_ok m pgdir l -> NoDup l -> NoDup l' -> page_va a -> b <= KERNBASE ->
  uspace_grow m m' pgdir a b l l' -> tabs_step m m' pgdir P ->
  (length l = length l' + size (tabset m' pgdir ∖ tabset m pgdir) + length (pages a b))%nat.
Proof.
  intros Has Hl Hl' Ha HK G [T1 T2]. set (T := tabset m' pgdir ∖ tabset m pgdir).
  assert (Hp : forall va, va ∈ pages a b <-> page_va va /\ a <= va < b) by (intros va; apply elem_of_pages; [done|unfold KERNBASE in *; lia]).
  assert (HT : forall i, i ∈ T <-> has_tab m' pgdir i /\ ~ has_tab m pgdir i).
  { intros i. unfold T. by rewrite elem_of_difference, !elem_of_tabset. }
  pose proof G as (G1 & G2 & _ & G4 & _ & G6 & G7 & _). pose proof Has as ((O1 & O2 & O3 & _) & _).
  transitivity (length (l' ++ (tab m' pgdir <$> elements T) ++ (frame m' pgdir <$> pages a b))).
  2:{ rewrite !length_app, !length_fmap. change (length (elements T)) with (size T). lia. }
  apply NoDup_same_length; [done|apply space_parts; try done|].
  - apply NoDup_pages.
  - intros i Hi. by apply HT.
  - intros va [H1 H2]%Hp. split; [split; [done|lia]|]. by apply (grow_mapped _ _ _ _ _ _ _ va G).
  - intros q. rewrite !elem_of_app, !list_elem_of_fmap. setoid_rewrite elem_of_elements. setoid_rewrite HT. setoid_rewrite Hp. split.
    + intros Hq. destruct (G7 q Hq) as [?|[[->|(i & Hi & ->)]|(va & H1 & H2 & ->)]]; [by left|done| |by right; right; eauto].
      right; left. exists i. split_and!; try done. intros Hi'. destruct (T1 i Hi') as [_ E]. rewrite E in Hq.
      by destruct (O3 i Hi') as (_ & ? & _).
    + intros [?|[(i & -> & Hi & Hn)|(va & -> & H1 & H2)]]; [auto| |by apply (grow_mapped _ _ _ _ _ _ _ va G)].
      destruct (G6 (tab m' pgdir i)) as [[E|(j & Hj & E)]|[? _]]; [right; by exists i| | |done].
      * destruct G1 as ((_ & _ & K3 & _) & _). by destruct (K3 i Hi) as (_ & _ & ?).
      * destruct (T1 j Hj) as [Hj' E']. rewrite <- E' in E. destruct G1 as ((_ & _ & _ & K4) & _).
        apply K4 in E; [by subst|done|done].
Qed.

(** The pages a new address space is made of. *)
Lemma space_used m0 m d l0 l V :
  space_of m0 m d l0 l -> NoDup l0 -> NoDup l -> NoDup V ->
  (forall va, va ∈ V <-> user_va va /\ present (pte_at m d va) = true) ->
  (length l0 = length l + 1 + size (tabset m d) + length V)%nat.
Proof.
  intros (A1 & A2 & A3 & A4 & A5 & _) Hl0 Hl HV Hm.
  assert (Hd : NoDup (d :: l ++ (tab m d <$> elements (tabset m d)) ++ (frame m d <$> V))).
  { apply NoDup_cons. split; [|apply space_parts; try done; [by intros i ?%elem_of_tabset|by intros va ?%Hm]].
    destruct A1 as ((_ & O2 & O3 & _) & F & _). rewrite !elem_of_app, !list_elem_of_fmap.
    intros [?|[(i & E & Hi%elem_of_elements%elem_of_tabset)|(va & E & [H1 H2]%Hm)]]; [done| |].
    - by destruct (O3 i Hi) as (_ & _ & ?).
    - destruct (F va H1 H2) as (_ & _ & H3). apply H3. by left. }
  transitivity (length (d :: l ++ (tab m d <$> elements (tabset m d)) ++ (frame m d <$> V))).
  2:{ cbn [length]. rewrite !length_app, !length_fmap. change (length (elements ?T)) with (size T). lia. }
  apply NoDup_same_length; [done|done|]. intros q. rewrite elem_of_cons, !elem_of_app, !list_elem_of_fmap. split.
  - intros [?|[[?|(i & Hi & ->)]|(va & H1 & H2 & ->)]]%A5; [by right; left|by left|right; right; left|right; right; right].
    + exists i. by rewrite elem_of_elements, elem_of_tabset.
    + exists va. by rewrite Hm.
  - intros [->|[?|[(i & -> & Hi%elem_of_elements%elem_of_tabset)|(va & -> & [? ?]%Hm)]]]; auto.
    + apply A3. by left.
    + apply A3. right. by exists i.
Qed.

Lemma grow_trans m1 m2 m3 pgdir a c b l1 l2 l3 :
  a <= c <= b -> b <= KERNBASE -> Forall pa_page l1 ->
  uspace_grow m1 m2 pgdir a c l1 l2 -> uspace_grow m2 m3 pgdir c b l2 l3 ->
  uspace_grow m1 m3 pgdir a b l1 l3.
Proof.
  intros Hc HK Hps G G'. pose proof G as (A1 & A2 & A3 & A4 & A5 & A6 & A7 & A8).
  pose proof G' as (B1 & B2 & B3 & B4 & B5 & B6 & B7 & B8).
  assert (Hf : forall va, page_va va -> a <= va < c -> pte_at m3 pgdir va = pte_at m2 pgdir va).
  { intros va Hv Hr. apply B3; [done|lia]. }
  split_and!; [done| | |auto|auto| | |].
  - intros va Hv Hr. destruct (Z_lt_ge_dec va c).
    + destruct (A2 va Hv) as (p & P1 & P2 & P3 & P4); [lia|].
      destruct (grow_mapped _ _ _ _ _ _ _ va G Hv) as [Hpr _]; [lia|].
      destruct A1 as (O1 & O2 & _). destruct (O2 va) as (F1 & F2 & F3); [split; [done|lia]|done|].
      unfold frame in F1, F2, F3. rewrite P3, mkpte_frame in F1, F2, F3 by done.
      exists p. rewrite Hf by (try done; lia). split_and!; try done.
      intros x Hx. rewrite B8; [by apply P4| |].
      * intros q Hq. destruct (pt_page_ok _ _ _ _ O1 Hq). apply (page_disjoint p q x); try done.
        by intros ->.
      * intros q Hq. apply (page_disjoint p q x); try done; [|by intros ->].
        rewrite Forall_forall in Hps. apply Hps. auto.
    + destruct (B2 va Hv) as (p & P1 & P2 & P3 & P4); [lia|]. exists p. auto.
  - intros va Hv Hr. rewrite B3, A3 by (try done; lia). done.
  - intros q [Hq|[Hq Hn]]%B6; [|right; auto].
    apply A6 in Hq as [Hq|[Hq Hn]]; [by left|right; auto].
  - intros q [Hq|[Hq|(va & Hv & Hr & ->)]]%A7; [|auto|].
    + apply B7 in Hq as [Hq|[Hq|(va & Hv & Hr & ->)]]; [by left|by right; left|].
      right; right. exists va. split_and!; try done; lia.
    + right; right. exists va. unfold frame. rewrite Hf by done. split_and!; try done; lia.
  - intros x Hx Hx'. rewrite B8, A8; [done|done|done| |auto].
    intros q [Hq|[Hq _]]%A6; auto.
Qed.

(** Undoing a partial growth: [lf] are the free pages at that point, which
    [m2] may have overwritten. *)
Section Undo.
Variables (m0 m m1 m2 : mem) (pgdir R a b : Z) (l0 lf l1 : list Z).
Hypothesis (G : uspace_grow m0 m pgdir R a l0 lf) (D : uspace_drop m m1 pgdir R b [] l1).
Hypothesis (Hab : a <= b) (HbK : b <= KERNBASE) (Hps : Forall pa_page lf).
Hypothesis (Habs : forall va, page_va va -> R <= va < b -> present (pte_at m0 pgdir va) = false).
Hypothesis (Hm2 : forall x, (forall q, q ∈ lf -> ~ on_page q x) -> m2 x = m1 x).

Lemma undo_ext q x : pt_page m1 pgdir q -> on_page q x -> m2 x = m1 x.
Proof.
  intros Hq Hx. apply Hm2. intros q' Hq'. destruct D as (_ & _ & _ & _ & D5 & _).
  apply D5 in Hq. destruct G as ((O & _) & _).
  destruct (pt_page_ok _ _ _ _ O Hq) as [Hqp Hn]. apply (page_disjoint q q' x); try done.
  - rewrite Forall_forall in Hps. auto.
  - by intros ->.
Qed.

Lemma undo_pt q : pt_page m2 pgdir q <-> pt_page m pgdir q.
Proof.
  destruct (pt_ext m1 m2 pgdir undo_ext) as (_ & _ & -> & _).
  by destruct D as (_ & _ & _ & _ & -> & _).
Qed.

Lemma undo_pte va : pte_at m2 pgdir va = pte_at m1 pgdir va.
Proof. by destruct (pt_ext m1 m2 pgdir undo_ext) as (_ & _ & _ & ->). Qed.

Lemma undo_free q : q ∈ l1 -> q ∈ l0.
Proof.
  destruct D as (_ & _ & _ & D4 & _). destruct G as (_ & _ & G3 & _).
  intros [?%elem_of_nil|(va & Hv & Hr & Hp & ->)]%D4; [done|].
  destruct (Z_lt_ge_dec va a); [apply (grow_mapped _ _ _ _ _ _ _ va G); [done|lia]|].
  rewrite G3 in Hp by (try done; lia). by rewrite Habs in Hp.
Qed.

Lemma undo_as_ok : as_ok m2 pgdir (lf ++ l1).
Proof.
  assert (Hp : forall q, pt_page m1 pgdir q -> q ∉ lf).
  { destruct D as (_ & _ & _ & _ & D5 & _), G as ((O & _) & _). intros q Hq.
    by destruct (pt_page_ok _ _ _ _ O (proj1 (D5 q) Hq)) as [_ ?]. }
  apply (as_ok_ext m1); [apply undo_ext|].
  destruct D as ((D1 & D1' & D1'') & D2 & D3 & _ & D5 & _), G as ((O & O' & _) & _).
  split_and!; [| |done].
  - pose proof D1 as (K1 & K2 & K3 & K4). split_and!; [done| | |done].
    + apply not_elem_of_app. split; [|done]. apply Hp. by left.
    + intros i Hi. destruct (K3 i Hi) as (T1 & T2 & T3). split_and!; [done| |done].
      apply not_elem_of_app. split; [|done]. apply Hp. right. by exists i.
  - intros va Hu Hpr. destruct (D1' va Hu Hpr) as (F1 & F2 & F3). split_and!; [done| |done].
    apply not_elem_of_app. split; [|done]. destruct Hu as [Hv HK].
    assert (Hr : va < R \/ b <= va).
    { destruct (decide (R <= va < b)); [|lia]. by rewrite D2 in Hpr. }
    unfold frame. rewrite D3 in Hpr |- * by done. by apply O'.
Qed.

Lemma undo_restored : uspace_restored m0 m2 pgdir R b l0 (lf ++ l1).
Proof.
  pose proof undo_as_ok as Has. pose proof G as (G1 & G2 & G3 & G4 & G5 & G6 & G7 & G8).
  pose proof D as (D1 & D2 & D3 & D4 & D5 & D6). split_and!; [done| | | | |].
  - intros va Hv Hr. rewrite undo_pte. by apply D2.
  - intros va Hv Hr. rewrite undo_pte, D3, G3; [done|done|lia|done|done].
  - intros q Hq. apply undo_pt. auto.
  - intros q. split.
    + intros Hq. split; [apply elem_of_app in Hq as [?|?]; auto using undo_free|].
      intros Hn. destruct (pt_page_ok _ _ _ _ (as_ok_pt _ _ _ Has) Hn). done.
    + intros [Hq Hn]. rewrite undo_pt in Hn. rewrite elem_of_app, D4.
      apply G7 in Hq as [?|[?|(va & Hv & Hr & ->)]]; [by left|done|].
      right; right. exists va. split_and!; try done; try lia.
      by apply (grow_mapped _ _ _ _ _ _ _ va G).
  - intros x Hx Hx'. rewrite Hm2 by auto. rewrite D6; [by apply G8| |].
    + intros q [Hq|[Hq _]]%G6; auto.
    + intros q Hq _. by apply Hx', undo_free.
Qed.
End Undo.

Lemma kfree_last s p l :
  pa_inv s l -> pa_page p -> (p ∉ l) ->
  exists s', pa_kfree p s = Ok (tt, s') /\ pa_inv s' (p :: l) /\
    forall x, ~ on_page p x -> pa_mem s' x = pa_mem s x.
Proof.
  intros Hinv Hp Hn. destruct (pa_kfree_ok s l p Hinv Hp Hn) as (s' & ? & ? & Hm).
  exists s'. split_and!; [done|done|]. intros x Hx. apply Hm. unfold on_page in Hx. lia.
Qed.

(** The pages [deallocuvm] gives back are not those that were free. *)
Lemma drop_not_free m m' pgdir a b l1 p :
  as_ok m pgdir [p] -> b <= KERNBASE -> uspace_drop m m' pgdir a b [] l1 -> p ∉ l1.
Proof.
  intros (_ & Hfr & _) HK (_ & _ & _ & D4 & _) [?%elem_of_nil|(va & Hv & Hr & Hp & E)]%D4; [done|].
  destruct (Hfr va) as (_ & F & _); [split; [done|lia]|done|]. apply F. rewrite E. by left.
Qed.

Lemma grow_round m m' pgdir a b b' l l' :
  (forall va, page_va va -> a <= va -> (va < b <-> va < b')) ->
  uspace_grow m m' pgdir a b l l' -> uspace_grow m m' pgdir a b' l l'.
Proof.
  intros Hb (A1 & A2 & A3 & A4 & A5 & A6 & A7 & A8). split_and!; try done.
  - intros va Hv Hr. apply A2; [done|]. rewrite Hb; [lia|done|lia].
  - intros va Hv Hr. apply A3; [done|]. destruct (Z_lt_ge_dec va a); [by left|right].
    apply Z.nlt_ge. rewrite Hb; [lia|done|lia].
  - intros q [?|[?|(va & Hv & Hr & Hp)]]%A7; [by left|by right; left|right; right].
    exists va. split_and!; [done|lia|apply Hb; [done|lia|lia]|done].
Qed.

(** Writing to the pages that are left free. *)
Lemma grow_touch m m1 m2 pgdir a l lf :
  uspace_grow m m1 pgdir a a l lf -> Forall pa_page lf ->
  (forall x, (forall q, q ∈ lf -> ~ on_page q x) -> m2 x = m1 x) -> uspace_grow m m2 pgdir a a l lf.
Proof.
  intros (A1 & A2 & A3 & A4 & A5 & A6 & A7 & A8) Hps Hm.
  assert (He : forall q x, pt_page m1 pgdir q -> on_page q x -> m2 x = m1 x).
  { intros q x Hq Hx. apply Hm. intros q' Hq'. destruct (pt_page_ok _ _ _ _ (as_ok_pt _ _ _ A1) Hq).
    apply (page_disjoint q q' x); try done; [|by intros ->]. rewrite Forall_forall in Hps. auto. }
  destruct (pt_ext m1 m2 pgdir He) as (_ & _ & Hpp & Hv).
  split_and!; [by apply (as_ok_ext m1)|intros; lia| |done| | | |].
  - intros va Hva Hr. rewrite Hv. by apply A3.
  - intros q Hq. by apply Hpp, A5.
  - intros q Hq. by apply A6, Hpp.
  - intros q [?|[?|(va & _ & ? & _)]]%A7; [by left|right; left; by apply Hpp|lia].
  - intros x Hx Hx'. rewrite Hm; auto.
Qed.

Lemma alloc_fail s p m0 l0 pgdir R a newsz oldsz :
  PGROUNDUP oldsz = R -> 0 <= oldsz < newsz -> a <= newsz -> newsz <= KERNBASE ->
  (forall va, page_va va -> R <= va < newsz -> present (pte_at m0 pgdir va) = false) ->
  pa_inv s [] -> pa_page p -> uspace_grow m0 (pa_mem s) pgdir R a l0 [p] ->
  exists s' l', (deallocuvm pgdir newsz oldsz ;;! pa_kfree p ;;! mret 0) s = Ok (0, s') /\
    pa_inv s' l' /\ uspace_restored m0 (pa_mem s') pgdir R newsz l0 l'.
Proof.
  intros ER Ho Han HK Habs Hinv Hp G. pose proof G as (G1 & _).
  assert (G1' : as_ok (pa_mem s) pgdir []).
  { revert G1. apply as_ok_sub. by intros q ?%elem_of_nil. }
  destruct (deallocuvm_spec pgdir newsz oldsz s [] Hinv G1') as (s2 & l2 & Hd & Hinv2 & D); [lia|lia|].
  rewrite ER in D. pose proof (drop_not_free _ _ _ _ _ _ _ G1 HK D) as Hn.
  destruct (kfree_last s2 p l2 Hinv2 Hp Hn) as (s3 & Hk & Hinv3 & Hm3).
  exists s3, (p :: l2). rewrite (mbind_ok _ _ _ _ _ Hd), (mbind_ok _ _ _ _ _ Hk). split_and!; try done.
  apply (undo_restored m0 (pa_mem s) (pa_mem s2) _ pgdir R a newsz l0 [p] l2); try done.
  - by apply Forall_singleton.
  - intros x Hx. apply Hm3, Hx. by left.
Qed.

(** The tables a growth has added. *)
Lemma grow_tables m m' pgdir a b l l' :
  page_va a -> b <= KERNBASE -> uspace_grow m m' pgdir a b l l' ->
  tabs_step m m' pgdir (fun i => i ∈ pdxs (pages a b)) ->
  (forall i, i ∈ pdxs (pages a b) -> has_tab m' pgdir i) /\
  tabset m' pgdir ∖ tabset m pgdir = pdxs (pages a b) ∖ tabset m pgdir.
Proof.
  intros Ha HK G [T1 T2].
  assert (Hi : forall i, i ∈ pdxs (pages a b) -> has_tab m' pgdir i).
  { intros i (va & [H1 H2]%elem_of_pages & ->)%elem_of_pdxs; [|done|unfold KERNBASE in *; lia]. split; [apply pdx_range|].
    apply pte_present_pde. by apply (grow_mapped _ _ _ _ _ _ _ va G). }
  split; [done|]. apply set_eq. intros i. rewrite !elem_of_difference, !elem_of_tabset.
  split; intros [H1 H2]; (split; [|done]); [|by apply Hi]. by destruct (T2 i H1).
Qed.

(** The loop of [allocuvm] has reached its end. *)
Lemma grow_finished m m' pgdir R a b l l' :
  as_ok m pgdir l -> NoDup l -> NoDup l' -> page_va R -> page_va a -> b <= KERNBASE -> R <= a -> b <= a ->
  a = R \/ a < b + PGSIZE -> uspace_grow m m' pgdir R a l l' ->
  tabs_step m m' pgdir (fun i => i ∈ pdxs (pages R a)) ->
  (length l = length l' + grow_cost m pgdir R b)%nat /\ uspace_grow m m' pgdir R b l l'.
Proof.
  intros Has Hl Hl' HR Ha HK H1 H2 H3 G Ht. rewrite (pages_round R a b) in Ht by done.
  assert (G' : uspace_grow m m' pgdir R b l l').
  { revert G. apply grow_round. intros va [_ Hv] Hr. destruct Ha. unfold PGSIZE in *. zlia. }
  split; [|done]. rewrite (grow_used m m' pgdir R b l l' _ Has Hl Hl' HR HK G' Ht). unfold grow_cost.
  destruct (grow_tables m m' pgdir R b l l' HR HK G' Ht) as [_ ->]. lia.
Qed.

Lemma size_more (A C B : gset Z) x : A ⊆ C -> x ∈ C -> x ∉ A -> x ∉ B -> (S (size (A ∖ B)) <= size (C ∖ B))%nat.
Proof.
  intros HA Hx Hn HB. transitivity (size (({[x]} : gset Z) ∪ (A ∖ B))); [|apply subseteq_size; set_solver].
  assert (Hd : ({[x]} : gset Z) ## A ∖ B) by set_solver. by rewrite (size_union _ _ Hd), size_singleton.
Qed.

(** It has run out of pages before its end, for a page or for its table. *)
Lemma grow_short m m' pgdir R a b l l' :
  as_ok m pgdir l -> NoDup l -> NoDup l' -> page_va R -> page_va a -> R <= a < b -> b <= KERNBASE ->
  uspace_grow m m' pgdir R a l l' -> tabs_step m m' pgdir (fun i => i ∈ pdxs (pages R a)) ->
  l' = [] \/ length l' = 1%nat /\ ~ has_tab m' pgdir (PDX a) -> (length l < grow_cost m pgdir R b)%nat.
Proof.
  intros Has Hl Hl' HR Ha H HK G Ht Hx. rewrite (grow_used m m' pgdir R a l l' _ Has Hl Hl' HR ltac:(lia) G Ht).
  destruct (grow_tables m m' pgdir R a l l' HR ltac:(lia) G Ht) as [Hin ->].
  destruct (pages_more R a b HR Ha H) as [k E]. unfold grow_cost. rewrite E, !pdxs_app, !length_app. cbn [length].
  set (A := pdxs (pages R a)) in *. set (C := A ∪ pdxs [a] ∪ pdxs k).
  assert (HC : A ⊆ C) by (unfold C; clear; set_solver).
  destruct Hx as [->|[-> Hno]].
  - pose proof (subseteq_size _ _ (difference_mono_r _ _ (tabset m pgdir) HC)). cbn [length]. lia.
  - enough (S (size (A ∖ tabset m pgdir)) <= size (C ∖ tabset m pgdir))%nat by lia.
    apply (size_more _ _ _ (PDX a) HC).
    + apply elem_of_union_l, elem_of_union_r, elem_of_pdxs. exists a. by rewrite list_elem_of_singleton.
    + by intros Hi%Hin.
    + intros Hi%elem_of_tabset. apply Hno. by apply Ht.
Qed.

(** The pages needed to map the page at [a]: one, and one for the page table when
    there is none. *)
Definition page_cost (m : mem) (pgdir a : Z) : nat :=
  if present (get32 m (pgdir + 4 * PDX a)) then 1 else 2.

Lemma page_next a : user_va a -> page_va (a + PGSIZE) /\ a + PGSIZE <= KERNBASE.
Proof. intros [[H1 H2] H3]. unfold page_va, is_u32, KERNBASE, PGSIZE in *. split_and!; zlia. Qed.

Lemma page_grow_cost m pgdir a : user_va a -> grow_cost m pgdir a (a + PGSIZE) = page_cost m pgdir a.
Proof.
  intros [Ha HK]. unfold grow_cost, page_cost. rewrite (pages_next a a) by (done || lia).
  assert (E : pages a a = []) by (unfold pages; rewrite Z.sub_diag; reflexivity). rewrite E. cbn [app length].
  assert (E' : pdxs [a] = {[PDX a]}) by (unfold pdxs; cbn; set_solver). rewrite E'.
  pose proof (elem_of_tabset m pgdir (PDX a)) as Ht. unfold has_tab in Ht. pose proof (pdx_range a).
  destruct (present _).
  - replace ({[PDX a]} ∖ tabset m pgdir) with (∅ : gset Z) by set_solver. by rewrite size_empty.
  - replace ({[PDX a]} ∖ tabset m pgdir) with ({[PDX a]} : gset Z) by set_solver. by rewrite size_singleton.
Qed.

Lemma allocuvm_loop_spec fuel m0 l0 pgdir a R oldsz newsz s l :
  PGROUNDUP oldsz = R -> 0 <= oldsz <= R -> newsz < KERNBASE -> Forall pa_page l0 -> NoDup l0 -> as_ok m0 pgdir l0 ->
  (forall va, page_va va -> R <= va < newsz -> present (pte_at m0 pgdir va) = false) -> page_va R ->
  pa_inv s l -> uspace_grow m0 (pa_mem s) pgdir R a l0 l ->
  tabs_step m0 (pa_mem s) pgdir (fun i => i ∈ pdxs (pages R a)) ->
  page_va a -> R <= a -> a = R \/ a < newsz + PGSIZE -> newsz <= a + Z.of_nat fuel * PGSIZE ->
  exists r s' l', allocuvm_loop fuel pgdir a oldsz newsz s = Ok (r, s') /\ pa_inv s' l' /\
    ((r = newsz /\ (length l0 = length l' + grow_cost m0 pgdir R newsz)%nat /\
      uspace_grow m0 (pa_mem s') pgdir R newsz l0 l') \/
     (r = 0 /\ (length l0 < grow_cost m0 pgdir R newsz)%nat /\
      uspace_restored m0 (pa_mem s') pgdir R newsz l0 l')).
Proof.
  intros ER Hold HK Hps0 Hnd0 Has0 Habs HR. revert a s l.
  induction fuel as [|f IH]; intros a s l Hinv G Ht Ha Hra Hnear Hf; cbn [allocuvm_loop];
    (destruct (Z.ltb_spec a newsz); [|exists newsz, s, l; split_and!; [done|done|left]; split; [done|];
       apply (grow_finished _ _ _ _ a); try done; [by destruct (pa_inv_pages _ _ Hinv) as (_ & ? & _)|lia]]); [lia|].
  assert (Hu : user_va a) by (split; [done|lia]).
  pose proof G as (G1 & _ & G3 & _).
  destruct l as [|p l].
  - destruct (pa_kalloc_empty s Hinv) as (s1 & Hk & Hinv1 & Hm1). rewrite (mbind_ok _ _ _ _ _ Hk).
    cbn [Z.eqb]. rewrite <- Hm1 in *.
    destruct (deallocuvm_spec pgdir newsz oldsz s1 [] Hinv1 G1) as (s2 & l2 & Hd & Hinv2 & D); [lia|lia|].
    rewrite (mbind_ok _ _ _ _ _ Hd). exists 0, s2, l2. split_and!; [done|done|right]. split; [done|].
    split; [apply (grow_short _ (pa_mem s1) _ R a newsz l0 []); try done; try lia; [apply NoDup_nil_2|by left]|].
    rewrite ER in D.
    apply (undo_restored m0 (pa_mem s1) (pa_mem s2) (pa_mem s2) pgdir _ a newsz l0 [] l2); try done; lia.
  - assert (Habs' : present (pte_at (pa_mem s) pgdir a) = false).
    { rewrite G3 by (try done; lia). apply Habs; [done|lia]. }
    destruct (fresh_page s pgdir a p l (deallocuvm pgdir newsz oldsz ;;! mret 0) (fun mem r =>
        if r <? 0 then deallocuvm pgdir newsz oldsz ;;! pa_kfree mem ;;! mret 0
        else allocuvm_loop f pgdir (u32 (a + PGSIZE)) oldsz newsz) Hinv G1 Hu Habs')
      as (r & s1 & l1 & -> & Hinv1 & Hpg & Hpn & Ht1 & Hres).
    assert (HaK : a + PGSIZE <= KERNBASE).
    { destruct Ha as [_ Ha]. unfold KERNBASE, PGSIZE in *. zlia. }
    destruct Hres as [(-> & G')|(-> & -> & Hno & G')]; cbn [Z.ltb Z.compare].
    + rewrite u32_small by (destruct Ha; unfold is_u32, KERNBASE, PGSIZE in *; lia).
      apply (IH (a + PGSIZE) s1 l1); try done.
      * apply (grow_trans m0 (pa_mem s) _ pgdir _ a _ l0 (p :: l)); try done. unfold PGSIZE; lia.
      * rewrite pages_next by done. apply (tabs_trans _ (pa_mem s) _ _ _ _ _ Ht Ht1); rewrite pdxs_app.
        -- intros i. apply elem_of_union_l.
        -- intros i [_ ->]. apply elem_of_union_r, elem_of_pdxs. exists a. by rewrite list_elem_of_singleton.
      * apply page_va_next; [done|]. unfold KERNBASE, PGSIZE in *. lia.
      * unfold PGSIZE. lia.
      * right. lia.
      * unfold PGSIZE in *. lia.
    + assert (G2 : uspace_grow m0 (pa_mem s1) pgdir R a l0 [p])
        by (apply (grow_trans m0 (pa_mem s) _ pgdir _ a _ l0 (p :: l)); try done; lia).
      destruct (alloc_fail s1 p m0 l0 pgdir R a newsz oldsz)
        as (s2 & l2 & -> & Hinv2 & Hrest); try done; try lia.
      exists 0, s2, l2. split_and!; [done|done|right]. split_and!; [done| |done].
      apply (grow_short _ (pa_mem s1) _ R a newsz l0 [p]); try done; try lia; [apply NoDup_singleton| |by right].
      apply (tabs_trans _ (pa_mem s) _ _ _ _ _ Ht Ht1); [done|]. by intros i [? _].
Qed.

(** ** [freevm] *)

Lemma free_tables_spec s pgdir l :
  pa_inv s l -> pt_ok (pa_mem s) pgdir l ->
  exists s' l', free_tables pgdir s = Ok (tt, s') /\ pa_inv s' l' /\
    (forall q, q ∈ l' <-> q ∈ l \/ exists i, has_tab (pa_mem s) pgdir i /\ q = tab (pa_mem s) pgdir i) /\
    (forall x, (forall q, pt_page (pa_mem s) pgdir q -> ~ on_page q x) -> pa_mem s' x = pa_mem s x).
Proof.
  intros Hinv Hok. pose proof Hok as (Hpg & Hpgl & Htab & Hinj). set (m := pa_mem s) in *.
  pose (I := fun (i : Z) (t : St) => exists li, pa_inv t li /\
    (forall q, q ∈ li <-> q ∈ l \/ exists j, j < i /\ has_tab m pgdir j /\ q = tab m pgdir j) /\
    (forall x, (forall j, j < i -> has_tab m pgdir j -> ~ on_page (tab m pgdir j) x) -> pa_mem t x = m x)).
  destruct (for_inv I (fun i => let! e := rd (pgdir + 4 * i) in
    mwhen (present e) (pa_kfree (P2V (PTE_ADDR e)))) (Z.to_nat NPDENTRIES) 0 s) as (s' & Hrun & li & Hi & Hq & Hx).
  { exists l. split_and!; [done| |done].
    intros q. split; [by left|]. intros [?|(j & Hj & [? _] & _)]; [done|lia]. }
  { intros j t Hj (li & Hi & Hq & Hx). change (Z.of_nat (Z.to_nat NPDENTRIES)) with 1024 in Hj.
    assert (Hd : get32 (pa_mem t) (pgdir + 4 * j) = get32 m (pgdir + 4 * j)).
    { apply tab_ext; [lia|]. intros x Hxd. apply Hx. intros k _ Hk.
      destruct (Htab k Hk) as (T1 & _ & T3). apply (page_disjoint pgdir _ x); try done. }
    unfold rd, mget. mstep. rewrite Hd. unfold mwhen. fold (tab m pgdir j).
    destruct (present (get32 m (pgdir + 4 * j))) eqn:E.
    - assert (Hh : has_tab m pgdir j) by (split; [lia|done]).
      destruct (Htab j Hh) as (T1 & T2 & _).
      destruct (kfree_last t (tab m pgdir j) li Hi T1) as (t' & Hk & Hi' & Hm).
      { rewrite Hq. intros [?|(k & Hkj & Hhk & E')]; [done|]. apply Hinj in E'; try done; lia. }
      exists t'. split; [done|]. exists (tab m pgdir j :: li). split_and!; [done| |].
      + intros q. rewrite elem_of_cons, Hq. split.
        * intros [->|[?|(k & ? & ? & ->)]]; [right; exists j|by left|right; exists k]; split_and!; try done; lia.
        * intros [?|(k & Hk' & Hhk & ->)]; [by right; left|].
          destruct (Z.eq_dec k j) as [->|]; [by left|right; right]. exists k. split_and!; try done; lia.
      + intros x Hnx. rewrite Hm by (apply Hnx; [lia|done]). apply Hx. intros k Hk'. apply Hnx. lia.
    - exists t. split; [done|]. exists li. split_and!; [done| |].
      + intros q. rewrite Hq. apply or_iff_compat_l. apply exist_proper. intros k.
        split; intros (? & [? Hp] & ?); (split_and!; [|done|done]); [lia|].
        destruct (Z.eq_dec k j) as [->|]; [by rewrite E in Hp|lia].
      + intros x Hnx. apply Hx. intros k Hk. apply Hnx. lia. }
  exists s', li. split_and!; [done|done| |].
  - intros q. rewrite Hq. apply or_iff_compat_l. apply exist_proper. intros k.
    split; [by intros (_ & ? & ?)|]. intros [Hh ?]. split_and!; [|done|done]. apply Hh.
  - intros x Hnx. apply Hx. intros j _ Hj. apply Hnx. right. by exists j.
Qed.

Lemma freevm_spec s pgdir l :
  pa_inv s l -> as_ok (pa_mem s) pgdir l ->
  exists s' l', freevm pgdir s = Ok (tt, s') /\ pa_inv s' l' /\
    (forall q, q ∈ l' <-> q ∈ l \/ pt_page (pa_mem s) pgdir q \/
       exists va, user_va va /\ present (pte_at (pa_mem s) pgdir va) = true /\ q = frame (pa_mem s) pgdir va) /\
    (forall x, (forall q, q ∈ l' -> ~ on_page q x) -> pa_mem s' x = pa_mem s x).
Proof.
  intros Hinv Has. pose proof Has as ((Hpg & _) & _). unfold freevm.
  rewrite (proj2 (Z.eqb_neq pgdir 0)) by (apply pa_page_range in Hpg; unfold KERNBASE in Hpg; lia).
  destruct (deallocuvm_spec pgdir KERNBASE 0 s l Hinv Has) as (s1 & l1 & Hd & Hinv1 & D);
    [unfold KERNBASE; lia|lia|].
  change (PGROUNDUP 0) with 0 in D. pose proof D as ((Hok1 & _) & _ & _ & D4 & D5 & D6).
  destruct (free_tables_spec s1 pgdir l1 Hinv1 Hok1) as (s2 & l2 & Ht & Hinv2 & Hq2 & Hx2).
  assert (Hn : pgdir ∉ l2).
  { rewrite Hq2. pose proof Hok1 as (_ & Hn & Htab & _). intros [?|(i & Hi & E)]; [done|].
    destruct (Htab i Hi) as (_ & _ & T). congruence. }
  destruct (kfree_last s2 pgdir l2 Hinv2 Hpg Hn) as (s3 & Hk & Hinv3 & Hx3).
  rewrite (mbind_ok _ _ _ _ _ Hd). rewrite (mbind_ok _ _ _ _ _ Ht).
  assert (Hq : forall q, q ∈ pgdir :: l2 <-> q ∈ l1 \/ pt_page (pa_mem s) pgdir q).
  { intros q. rewrite elem_of_cons, Hq2, <- D5. unfold pt_page. tauto. }
  exists s3, (pgdir :: l2). split_and!; [done|done| |].
  - intros q. rewrite Hq, D4. assert (Hva : forall va, (page_va va /\ 0 <= va < KERNBASE) <-> user_va va).
    { intros va. unfold user_va, page_va, is_u32. lia. }
    split.
    + intros [[?|(va & ? & ? & ? & ?)]|?]; [by left| |by right; left].
      right; right. exists va. split_and!; [by apply Hva|done|done].
    + intros [?|[?|(va & ? & ? & ?)]]; [by left; left|by right|].
      left; right. exists va. apply Hva in H as [? ?]. split_and!; try done; lia.
  - intros x Hx. rewrite Hx3 by (apply Hx; by left). rewrite Hx2.
    + apply D6; [|intros q Hql _; apply Hx, Hq; by left]. intros q Hqt. apply Hx, Hq. by right.
    + intros q Hqt%D5. apply Hx, Hq. by right.
Qed.

(** ** Building an address space *)

(** [freevm] of a space gives back exactly the pages it was built from. *)
Lemma space_free m0 s d l0 l :
  pa_inv s l -> space_of m0 (pa_mem s) d l0 l ->
  exists s' l', freevm d s = Ok (tt, s') /\ pa_inv s' l' /\ (forall q, q ∈ l' <-> q ∈ l0) /\
    (forall x, (forall q, q ∈ l0 -> ~ on_page q x) -> pa_mem s' x = m0 x).
Proof.
  intros Hinv (A1 & A2 & A3 & A4 & A5 & A6).
  destruct (freevm_spec s d l Hinv A1) as (s' & l' & Hrun & Hinv' & Hq & Hx).
  assert (Hq' : forall q, q ∈ l' <-> q ∈ l0).
  { intros q. rewrite Hq. split; [|apply A5].
    intros [?|[?|(va & ? & ? & ->)]]; auto. }
  exists s', l'. split_and!; try done.
  intros x Hnx. rewrite Hx; [by apply A6|]. intros q Hql. by apply Hnx, Hq'.
Qed.

Lemma space_step_kernel m0 m m' d l0 l l' :
  space_of m0 m d l0 l -> pt_step m m' d l l' ->
  (forall va, user_va va -> pte_at m' d va = pte_at m d va) -> space_of m0 m' d l0 l'.
Proof.
  intros (A1 & A2 & A3 & A4 & A5 & A6) Hst Hu. pose proof Hst as (S1 & [k ->] & S3 & S4 & S5).
  assert (Hl : forall q, q ∈ l' -> q ∈ l0) by (intros q Hq; apply A2, elem_of_app; by right).
  assert (Hp : forall q, pt_page m' d q -> q ∈ l0) by (intros q [?|[? _]]%S4; auto).
  split_and!; [|done|done| | |].
  - destruct A1 as (O1 & O2 & O3). split_and!; [done| |].
    + intros va Hva. unfold frame. rewrite Hu by done. intros Hpr.
      destruct (O2 va Hva Hpr) as (F1 & F2 & F3).
      destruct (pt_step_not_table _ _ _ _ _ _ Hst F2 F3). done.
    + intros va va' Hva Hva'. unfold frame. rewrite !Hu by done. by apply O3.
  - intros va Hva. unfold frame. rewrite Hu by done. by apply A4.
  - intros q [[Hq|Hq]%elem_of_app|[Hq|(va & Hva & Hpr & ->)]]%A5.
    + destruct (decide (q ∈ l')); [by left|right; left]. apply S4. right. split; [|done].
      apply elem_of_app. by left.
    + by left.
    + right; left. auto.
    + right; right. exists va. unfold frame. by rewrite Hu.
  - intros x Hx. rewrite S5; [by apply A6|]. auto.
Qed.

Lemma mkpte_odd pa perm : present (mkpte pa perm) = true.
Proof. unfold mkpte, PTE_P. rewrite present_odd, <- Z.bit0_odd, Z.lor_spec. apply orb_true_r. Qed.

(** The page tables an entry of [kmap] needs. *)
Lemma elem_of_ktab k i :
  kmap_ok k -> i ∈ ktab k <-> exists va, page_va va /\ in_kmap k va /\ i = PDX va.
Proof.
  intros ([K1 K1'] & _ & K3 & K4 & _ & K6 & _ & _). unfold ktab, in_kmap. set (size := u32 (phys_end k - phys_start k)) in *.
  rewrite elem_of_list_to_set, elem_of_seqZ, !pdx_eq by (unfold is_u32 in *; lia). split.
  - intros Hi. exists (Z.max (virt k) (i * 2 ^ 22)).
    assert (Hu : is_u32 (Z.max (virt k) (i * 2 ^ 22))) by (unfold is_u32 in *; zlia).
    rewrite pdx_eq by done. split_and!; [split; [done|unfold PGSIZE in *; zlia]|zlia|zlia|zlia].
  - intros (va & [Hu _] & Hr & ->). rewrite pdx_eq by done. zlia.
Qed.

(** Mapping one entry of [kmap]. *)
Lemma map_kernel s d k l :
  pa_inv s l -> pt_ok (pa_mem s) d l -> kmap_ok k ->
  (forall va, page_va va -> virt k <= va < virt k + u32 (phys_end k - phys_start k) ->
     present (pte_at (pa_mem s) d va) = false) ->
  exists r s' l',
    mappages d (virt k) (u32 (phys_end k - phys_start k)) (phys_start k) (kperm k) s = Ok (r, s') /\
    pa_inv s' l' /\ pt_step (pa_mem s) (pa_mem s') d l l' /\
    (forall va, page_va va -> va < virt k \/ virt k + u32 (phys_end k - phys_start k) <= va ->
       pte_at (pa_mem s') d va = pte_at (pa_mem s) d va) /\
    ((r = 0 /\ kmapped (pa_mem s') d k /\ tabset (pa_mem s') d = tabset (pa_mem s) d ∪ ktab k) \/
     (r = -1 /\ l' = [] /\ tabset (pa_mem s') d ⊂ tabset (pa_mem s) d ∪ ktab k)).
Proof.
  intros Hinv Hok Hk Habs. pose proof (fun i => elem_of_ktab k i Hk) as Hkt. destruct Hk as (K1 & K2 & K3 & K4 & K5 & K6 & K7 & K8).
  set (size := u32 (phys_end k - phys_start k)) in *.
  rewrite mappages_range by (try done; lia).
  assert (En : Z.of_nat (Z.to_nat (size / PGSIZE - 1)) * PGSIZE = size - PGSIZE)
    by (unfold PGSIZE in *; rewrite Z2Nat.id; zlia).
  destruct (mappages_loop_spec (Z.to_nat (size / PGSIZE - 1)) d (virt k) (virt k + size - PGSIZE)
    (phys_start k) (kperm k) s l) as (r & s' & l' & b & Hrun & Hinv' & Hst & Hab & Hb & Hin & Hout & [Ht1 Ht2] & Hres);
    try done; try (rewrite En); try (unfold PGSIZE in *; lia).
  { intros va Hva Hr. apply Habs; [done|]. unfold PGSIZE in *. lia. }
  exists r, s', l'. split_and!; try done.
  - intros va Hva Hr. apply Hout; [done|]. destruct Hres as [(_ & ->)|(_ & _ & _ & Hb' & _)]; unfold PGSIZE in *; lia.
  - assert (Hkb : forall va, in_kmap k va <-> virt k <= va < virt k + size) by done.
    assert (Hsub : b <= virt k + size -> tabset (pa_mem s') d ⊆ tabset (pa_mem s) d ∪ ktab k).
    { intros Hbs i. rewrite elem_of_union, !elem_of_tabset, Hkt. intros [?|(va & ? & ? & ?)]%Ht2; [by left|right].
      exists va. rewrite Hkb. split_and!; try done; lia. }
    destruct Hres as [(-> & ->)|(-> & -> & Hvb & Hb' & Hno)]; [left|right].
    + assert (Hkm : kmapped (pa_mem s') d k) by (intros va Hva Hr; apply Hin; [done|pose proof (proj1 (Hkb va) Hr); lia]).
      split_and!; [done|done|]. apply set_eq_subseteq. split; [apply Hsub; lia|].
      intros i [Hi%elem_of_tabset|(va & Hva & Hr & ->)%Hkt]%elem_of_union; apply elem_of_tabset; [by apply Ht1|].
      split; [apply pdx_range|]. apply pte_present_pde. rewrite (Hkm va Hva Hr). apply mkpte_odd.
    + split_and!; [done|done|]. apply strict_spec_alt. split; [apply Hsub; unfold PGSIZE in *; lia|]. intros E.
      apply (no_tab _ _ _ Hno), elem_of_tabset. rewrite E. apply elem_of_union_r, Hkt.
      exists b. rewrite Hkb. split_and!; try done; unfold PGSIZE in *; lia.
Qed.

Lemma setupkvm_loop_spec ks m0 l0 d s l :
  pa_inv s l -> space_of m0 (pa_mem s) d l0 l -> Forall kmap_ok ks -> StronglySorted kmap_before ks ->
  (forall k va, k ∈ ks -> page_va va -> in_kmap k va -> present (pte_at (pa_mem s) d va) = false) ->
  NoDup l0 -> (forall va, user_va va -> present (pte_at (pa_mem s) d va) = false) ->
  exists r s' l', setupkvm_loop d ks s = Ok (r, s') /\ pa_inv s' l' /\
    ((r = d /\ tabset (pa_mem s') d = tabset (pa_mem s) d ∪ ktables ks /\
      space_of m0 (pa_mem s') d l0 l' /\ Forall (kmapped (pa_mem s') d) ks /\
      (forall va, page_va va -> (forall k, k ∈ ks -> ~ in_kmap k va) ->
         pte_at (pa_mem s') d va = pte_at (pa_mem s) d va)) \/
     (r = 0 /\ (length l0 < 1 + size (tabset (pa_mem s) d ∪ ktables ks))%nat /\ (forall q, q ∈ l' <-> q ∈ l0) /\
      (forall x, (forall q, q ∈ l0 -> ~ on_page q x) -> pa_mem s' x = m0 x))).
Proof.
  revert s l. induction ks as [|k ks IH]; intros s l Hinv Hsp Hks Hsort Habs Hnd Huser; cbn [setupkvm_loop].
  { exists d, s, l. split_and!; [done|done|left]. split_and!; try done. unfold ktables. cbn. by rewrite union_empty_r_L. }
  apply Forall_cons in Hks as [Hk Hks]. apply StronglySorted_inv in Hsort as [Hsort Hbef].
  destruct (map_kernel s d k l Hinv) as (r & s1 & l1 & Hrun & Hinv1 & Hst & Hout & Hres);
    [apply Hsp|done|intros va Hva; apply Habs; [by left|done]|].
  rewrite (mbind_ok _ _ _ _ _ Hrun).
  assert (Hus : forall va, user_va va -> pte_at (pa_mem s1) d va = pte_at (pa_mem s) d va).
  { intros va [Hva HK]. apply Hout; [done|]. destruct Hk as (_ & _ & _ & _ & ? & _). lia. }
  assert (Hsp1 : space_of m0 (pa_mem s1) d l0 l1) by (by apply (space_step_kernel _ (pa_mem s) _ _ _ l)).
  assert (Ekt : ktables (k :: ks) = ktab k ∪ ktables ks) by done. rewrite Ekt, union_assoc_L.
  destruct Hres as [(-> & Hkm & Htb)|(-> & -> & Htb)]; cbn [Z.ltb Z.compare].
  - assert (Hdis : forall k' va, k' ∈ ks -> in_kmap k' va -> ~ in_kmap k va).
    { intros k' va Hk' Hin. rewrite Forall_forall in Hbef. specialize (Hbef k' Hk').
      unfold kmap_before, in_kmap in *. lia. }
    destruct (IH s1 l1) as (r & s2 & l2 & -> & Hinv2 & Hres); try done.
    { intros k' va Hk' Hva Hin. rewrite Hout; [apply (Habs k'); [by right|done|done]|done|].
      pose proof (Hdis k' va Hk' Hin). unfold in_kmap in *. lia. }
    { intros va Hva. rewrite Hus by done. by apply Huser. }
    exists r, s2, l2. rewrite Htb in Hres. split_and!; [done|done|].
    destruct Hres as [(-> & Htb2 & Hsp2 & Hkm2 & Hout2)|?]; [left|by right]. split_and!; try done.
    + apply Forall_cons. split; [|done]. intros va Hva Hin. rewrite Hout2; [by apply Hkm|done|].
      intros k' Hk' Hin'. by apply (Hdis k' va).
    + intros va Hva Hn. rewrite Hout2, Hout; [done|done| |done|].
      * assert (Hnk : ~ in_kmap k va) by (apply Hn; by left). unfold in_kmap in Hnk. lia.
      * intros k' Hk'. apply Hn. by right.
  - destruct (space_free m0 s1 d l0 [] Hinv1 Hsp1) as (s2 & l2 & Hf & Hinv2 & ? & ?).
    rewrite (mbind_ok _ _ _ _ _ Hf). exists 0, s2, l2. split_and!; [done|done|right]. split_and!; try done.
    rewrite (space_used m0 (pa_mem s1) d l0 [] [] Hsp1 Hnd); [|apply NoDup_nil_2|apply NoDup_nil_2|].
    + cbn [length]. pose proof (subset_size _ _ Htb). enough (size (tabset (pa_mem s) d ∪ ktab k) <= size (tabset (pa_mem s) d ∪ ktab k ∪ ktables ks))%nat by lia.
      apply subseteq_size, union_subseteq_l.
    + intros va. split; [by intros ?%elem_of_nil|]. intros [Hva Hp]. rewrite Hus, Huser in Hp by done. done.
Qed.

(** A cleared page is an empty directory. *)
Lemma space_empty m0 m d l :
  pa_page d -> (d ∉ l) -> (forall x, on_page d x -> m x = 0) ->
  (forall x, (forall q, q ∈ d :: l -> ~ on_page q x) -> m x = m0 x) ->
  space_of m0 m d (d :: l) l /\ (forall va, pte_at m d va = 0) /\ tabset m d = ∅.
Proof.
  intros Hd Hdl Hz Hm.
  assert (Hno : forall i, ~ has_tab m d i).
  { intros i [Hi Hp]. assert (E : get32 m (d + 4 * i) = 0).
    { unfold get32. rewrite !Hz by (unfold on_page, PGSIZE; lia). done. }
    by rewrite E in Hp. }
  assert (Hpte : forall va, pte_at m d va = 0).
  { intros va. apply pte_at_absent. destruct (present (pde_at m d va)) eqn:E; [|done].
    destruct (Hno (PDX va)). split; [apply pdx_range|done]. }
  split; [|split; [done|]]; [|apply set_eq; intros i; rewrite elem_of_tabset; set_solver]. split_and!.
  - split_and!; [split_and!; [done|done| |]| |].
    + intros i Hi. by destruct (Hno i).
    + intros i j Hi. by destruct (Hno i).
    + intros va _. by rewrite Hpte.
    + intros va va' _ _. by rewrite Hpte.
  - intros q Hq. by right.
  - intros q [->|(i & Hi & _)]; [by left|by destruct (Hno i)].
  - intros va _. by rewrite Hpte.
  - intros q [->|Hq]%elem_of_cons; [right; left; by left|by left].
  - done.
Qed.

Lemma kmap_all_ok data :
  data mod PGSIZE = 0 -> KERNLINK < data < KERNBASE + PHYSTOP ->
  Forall kmap_ok (kmap data) /\ StronglySorted kmap_before (kmap data).
Proof.
  intros Hal Hr.
  assert (Hv : V2P data = data - KERNBASE).
  { unfold V2P. apply u32_small. unfold is_u32, KERNLINK, KERNBASE, PHYSTOP, EXTMEM in *. lia. }
  assert (Hs1 : u32 (data - KERNBASE - V2P KERNLINK) = data - KERNLINK).
  { change (V2P KERNLINK) with EXTMEM. rewrite u32_small; unfold is_u32, KERNLINK, KERNBASE, PHYSTOP, EXTMEM in *; lia. }
  assert (Hs2 : u32 (PHYSTOP - (data - KERNBASE)) = PHYSTOP + KERNBASE - data).
  { rewrite u32_small; unfold is_u32, KERNLINK, KERNBASE, PHYSTOP, EXTMEM in *; lia. }
  assert (Hs0 : u32 (EXTMEM - 0) = EXTMEM) by done.
  assert (Hs3 : u32 (0 - DEVSPACE) = 2 ^ 32 - DEVSPACE) by done.
  change (V2P KERNLINK) with EXTMEM in Hs1.
  unfold kmap. rewrite Hv. change (V2P KERNLINK) with EXTMEM. split.
  - repeat (apply Forall_cons; split); [..|done]; unfold kmap_ok; cbn [virt phys_start phys_end kperm].
    + rewrite Hs0. split_and!; try done; unfold KERNBASE, EXTMEM, PTE_W in *; lia.
    + rewrite Hs1. unfold page_va, is_u32, KERNLINK, KERNBASE, EXTMEM, PGSIZE, PHYSTOP in *.
      split_and!; try done; try lia. zlia.
    + rewrite Hs2. unfold page_va, is_u32, KERNLINK, KERNBASE, EXTMEM, PGSIZE, PHYSTOP, PTE_W in *.
      split_and!; try done; try lia; zlia.
    + rewrite Hs3. split_and!; try done; unfold KERNBASE, DEVSPACE, PTE_W in *; lia.
  - repeat constructor; unfold kmap_before; cbn [virt phys_start phys_end];
      rewrite ?Hs0, ?Hs1, ?Hs2, ?Hs3; unfold KERNLINK, KERNBASE, EXTMEM, PHYSTOP, DEVSPACE in *; lia.
Qed.

(** The entry a page of a [kmap] range gets. *)
Lemma kmap_entry_props k va :
  kmap_ok k -> page_va va -> in_kmap k va -> kperm k = 0 \/ kperm k = PTE_W ->
  let e := mkpte (phys_start k + (va - virt k)) (kperm k) in
  present e = true /\ Z.testbit e 2 = false /\ PTE_ADDR e = phys_start k + (va - virt k).
Proof.
  intros (K1 & [K2 K2'] & K3 & K4 & K5 & K6 & K7 & K8) [Hu Ha] Hin Hperm e. unfold in_kmap in Hin.
  destruct K1 as [_ K1].
  assert (Hpa : is_u32 (phys_start k + (va - virt k)) /\ (phys_start k + (va - virt k)) mod 4096 = 0).
  { unfold is_u32, PGSIZE in *. split; [lia|zlia]. }
  destruct Hpa as [P1 P2]. destruct (mkpte_props _ _ P1 P2 K8) as (_ & H2 & H3 & _). split_and!; try done.
  unfold e. destruct (mkpte_eq _ _ P2 K8) as [-> _].
  clear -P2 Hperm. revert P2. generalize (phys_start k + (va - virt k)) as pa. intros pa P2.
  replace pa with (pa / 4096 * 512 * 2 ^ 3) by zlia.
  rewrite <- (Z.mod_pow2_bits_low _ 3) by lia. rewrite Z.add_comm, Z_mod_plus_full.
  by destruct Hperm as [-> | ->].
Qed.

Lemma setupkvm_spec data s l :
  data mod PGSIZE = 0 -> KERNLINK < data < KERNBASE + PHYSTOP -> pa_inv s l ->
  exists r s' l', setupkvm data s = Ok (r, s') /\ pa_inv s' l' /\
    ((r <> 0 /\ tabset (pa_mem s') r = ktables (kmap data) /\
      space_of (pa_mem s) (pa_mem s') r l l' /\ Forall (kmapped (pa_mem s') r) (kmap data) /\
      (forall va, user_va va -> present (pte_at (pa_mem s') r va) = false)) \/
     (r = 0 /\ (length l < 1 + size (ktables (kmap data)))%nat /\ (forall q, q ∈ l' <-> q ∈ l) /\
      (forall x, (forall q, q ∈ l -> ~ on_page q x) -> pa_mem s' x = pa_mem s x))).
Proof.
  intros Hal Hr Hinv. destruct (kmap_all_ok data Hal Hr) as [Hks Hsort]. unfold setupkvm.
  destruct l as [|p l].
  { destruct (pa_kalloc_empty s Hinv) as (s1 & Hk & Hinv1 & Hm1). rewrite (mbind_ok _ _ _ _ _ Hk).
    exists 0, s1, []. rewrite Hm1. split_and!; [done|done|right]. split_and!; try done. cbn. lia. }
  destruct (take_page s p l Hinv) as (s1 & Hk & Hm1 & Hp & Hpl & Hp0 & Hwf & Hset).
  rewrite (mbind_ok _ _ _ _ _ Hk), Hp0. unfold kmemset, mset. mstep.
  change (P2V PHYSTOP >? DEVSPACE) with false. cbn match.
  destruct (clear_page (pa_mem s) p) as (Hm2 & H0 & Hwf2). rewrite Hm1.
  set (m2 := memset (pa_mem s) p 0 PGSIZE) in *.
  destruct (space_empty (pa_mem s) m2 p l Hp Hpl) as (Hsp & Hpte & Htb); [done|intros x Hx; apply Hm2, Hx; by left|].
  destruct (setupkvm_loop_spec (kmap data) (pa_mem s) (p :: l) p (pa_setmem m2 s1) l)
    as (r & s2 & l2 & Hrun & Hinv2 & Hres); try done; [apply Hset; auto|by rewrite pa_mem_setmem|..].
  { intros k va _ _ _. by rewrite pa_mem_setmem, Hpte. }
  { by destruct (pa_inv_pages _ _ Hinv) as (_ & ? & _). }
  { intros va _. by rewrite pa_mem_setmem, Hpte. }
  exists r, s2, l2. rewrite pa_mem_setmem, Htb, union_empty_l_L in Hres. split_and!; [done|done|].
  destruct Hres as [(-> & Htb2 & Hsp2 & Hkm & Hsame)|?]; [left|by right]. apply Z.eqb_neq in Hp0. split_and!; try done.
  intros va [Hva HK]. rewrite Hsame, Hpte; [done|done|].
  intros k Hin Hk2. rewrite Forall_forall in Hks. destruct (Hks k Hin) as (_ & _ & _ & _ & ? & _).
  unfold in_kmap in Hk2. lia.
Qed.

(** ** [copyuvm] *)

Lemma lor_odd f : Z.odd f = true -> Z.lor f 1 = f.
Proof.
  intros Ho. apply Z.bits_inj'. intros n Hn. rewrite Z.lor_spec.
  destruct (Z.eq_dec n 0) as [->|]; [by rewrite Z.bit0_odd, Ho|].
  rewrite (Z.bits_above_log2 1 n) by (simpl; lia). by rewrite orb_false_r.
Qed.

Lemma mkpte_flags p e :
  pa_page p -> present e = true ->
  0 <= PTE_FLAGS e < 4096 /\ PTE_FLAGS (mkpte (V2P p) (PTE_FLAGS e)) = PTE_FLAGS e.
Proof.
  intros Hp Hpr. destruct (page_facts p Hp) as (_ & _ & _ & _ & _ & _ & H7 & H8).
  assert (Hr : 0 <= PTE_FLAGS e < 4096) by (rewrite pte_flags_eq; apply Z.mod_pos_bound; lia).
  split; [done|]. destruct (mkpte_props (V2P p) (PTE_FLAGS e) H7 H8 Hr) as (_ & _ & _ & ->).
  apply lor_odd. rewrite present_odd in Hpr. rewrite pte_flags_eq, <- Hpr.
  rewrite (Z.div_mod e 4096) at 2 by lia. rewrite Z.odd_add, Z.odd_mul. by destruct (Z.odd (e mod 4096)).
Qed.

Section CopyStep.
Variables (m0 m m2 m' : mem) (pgdir d i p : Z) (l0 l l' : list Z).
Hypothesis (Hsp : space_of m0 m d l0 (p :: l)) (Hp : pa_page p) (Hpl : p ∉ l) (Hi : user_va i).
Hypothesis (Hm2 : forall x, ~ on_page p x -> m2 x = m x).
Hypothesis (Hst : pt_step m2 m' d l l').
Hypothesis (Habs : present (pte_at m d i) = false).

Lemma copy_pte va : pte_at m2 d va = pte_at m d va.
Proof using Hsp Hp Hm2.
  destruct (pt_ext m m2 d (fresh_ext _ _ _ _ _ (proj1 Hsp) Hp Hm2)) as (_ & _ & _ & ->). done.
Qed.

Lemma copy_fail :
  l' = [] -> as_ok m' d [p] -> (forall va, page_va va -> pte_at m' d va = pte_at m2 d va) ->
  space_of m0 m' d l0 [p].
Proof using Hsp Hp Hpl Hm2 Hst.
  intros El Has Hall. pose proof Hsp as (A1 & A2 & A3 & A4 & A5 & A6).
  assert (Hv : forall va, user_va va -> pte_at m' d va = pte_at m d va).
  { intros va [Hva _]. by rewrite Hall, copy_pte. }
  pose proof (fun q => fresh_pt_page m m2 m' d p l l' A1 Hp Hpl Hm2 Hst q) as Hpt.
  split_and!; [done| | | | |].
  - intros q ->%list_elem_of_singleton. apply A2. by left.
  - intros q [?|[? _]]%Hpt; [auto|apply A2; by right].
  - intros va Hva. unfold frame. rewrite Hv by done. by apply A4.
  - intros q [[->|Hq]%elem_of_cons|[Hq|(va & Hva & Hpr & ->)]]%A5.
    + left. by apply list_elem_of_singleton.
    + right; left. apply Hpt. right. split; [done|]. rewrite El. apply not_elem_of_nil.
    + right; left. apply Hpt. by left.
    + right; right. exists va. unfold frame. by rewrite Hv.
  - intros x Hx. rewrite (fresh_frame m m2 m' d p l l') by (try done; auto). by apply A6.
Qed.

Variable flags : Z.
Hypothesis (Hf : 0 <= flags < 4096) (Has' : as_ok m' d l').
Hypothesis (Hpi : pte_at m' d i = mkpte (V2P p) flags).
Hypothesis (Hoth : forall va, page_va va -> va <> i -> pte_at m' d va = pte_at m2 d va).

Lemma copy_others va : page_va va -> va <> i -> pte_at m' d va = pte_at m d va.
Proof. intros Hva Hne. by rewrite Hoth, copy_pte. Qed.

Lemma copy_frame : frame m' d i = p.
Proof. unfold frame. by rewrite Hpi, mkpte_frame. Qed.

Lemma copy_space : space_of m0 m' d l0 l'.
Proof.
  pose proof Hsp as (A1 & A2 & A3 & A4 & A5 & A6).
  pose proof (fun q => fresh_pt_page m m2 m' d p l l' A1 Hp Hpl Hm2 Hst q) as Hpt.
  pose proof (fun q => fresh_left m m2 m' d p l l' A1 Hp Hpl Hm2 Hst q) as Hleft.
  split_and!; [done| | | | |].
  - auto.
  - intros q [?|[? _]]%Hpt; [auto|apply A2; by right].
  - intros va [Hva HK] Hpr. destruct (Z.eq_dec va i) as [->|Hne]; [rewrite copy_frame; apply A2; by left|].
    unfold frame. rewrite copy_others in * by done. by apply A4.
  - intros q [[->|Hq]%elem_of_cons|[Hq|(va & [Hva HK] & Hpr & ->)]]%A5.
    + right; right. exists i. rewrite copy_frame, Hpi, mkpte_present by done. done.
    + destruct (decide (q ∈ l')); [by left|right; left]. apply Hpt. by right.
    + right; left. apply Hpt. by left.
    + right; right. exists va. unfold frame. rewrite copy_others; [done|done|].
      intros ->. by rewrite Habs in Hpr.
  - intros x Hx. rewrite (fresh_frame m m2 m' d p l l') by (try done; auto). by apply A6.
Qed.

Hypothesis (Hps : Forall pa_page l0).
Hypothesis (Hsrc : present (pte_at m0 pgdir i) = true) (Hflags : PTE_FLAGS (mkpte (V2P p) flags) = PTE_FLAGS (pte_at m0 pgdir i)).
Hypothesis (Hdat : forall o, 0 <= o < PGSIZE -> m2 (p + o) = m0 (frame m0 pgdir i + o)).

Lemma copy_advance : uspace_copied m0 m pgdir d i -> uspace_copied m0 m' pgdir d (i + PGSIZE).
Proof.
  intros Hc va Hva. pose proof Hva as [Hva' HK]. pose proof Hsp as ((O1 & O2 & O3) & A2 & _).
  destruct (Z.eq_dec va i) as [->|Hne].
  - rewrite Hsrc. replace (i <? i + PGSIZE) with true by (symmetry; apply Z.ltb_lt; unfold PGSIZE; lia).
    cbn [andb]. unfold copied. rewrite copy_frame, Hpi, mkpte_present by done. split_and!; try done.
    intros o Ho. rewrite (fresh_same m m2 m' d p l l') by first [done|apply Hsp|unfold on_page; lia].
    by apply Hdat.
  - specialize (Hc va Hva). replace (va <? i + PGSIZE) with (va <? i).
    2:{ destruct Hi as [[_ ?] _], Hva' as [_ ?]. apply eq_true_iff_eq. rewrite !Z.ltb_lt.
        unfold PGSIZE in *. zlia. }
    assert (Efr : frame m' d va = frame m d va) by (unfold frame; by rewrite copy_others).
    unfold copied. rewrite Efr, copy_others by done.
    destruct (present (pte_at m0 pgdir va) && (va <? i)); [|done].
    destruct Hc as (C1 & C2 & C3). split_and!; try done. intros o Ho.
    rewrite <- (C3 o Ho). destruct (O2 va Hva C1) as (F1 & F2 & F3).
    apply (fresh_frame m m2 m' d p l l'); [apply Hsp|done|done|done|done|..].
    + intros q Hq Hon. destruct (pt_page_ok _ _ _ _ O1 Hq) as [Hqp _].
      apply (page_disjoint (frame m d va) q (frame m d va + o)); try done; [by intros E; rewrite E in F3|].
      unfold on_page. lia.
    + intros q Hq. apply (page_disjoint (frame m d va) q); try done; [|by intros E; rewrite E in F2|].
      * rewrite Forall_forall in Hps. auto.
      * unfold on_page. lia.
Qed.
End CopyStep.

Lemma copied_round m0 m pgdir d i j :
  (forall va, user_va va -> present (pte_at m0 pgdir va) = true -> (va < i <-> va < j)) ->
  uspace_copied m0 m pgdir d i -> uspace_copied m0 m pgdir d j.
Proof.
  intros Hij Hc va Hva. specialize (Hc va Hva).
  destruct (present (pte_at m0 pgdir va)) eqn:E; [|done]. cbn [andb] in *.
  replace (va <? j) with (va <? i); [done|]. apply eq_true_iff_eq. rewrite !Z.ltb_lt. by apply Hij.
Qed.

(** The parent's tables and pages are not among the pages the copy is built from. *)
Lemma copy_source m0 m pgdir d l0 l :
  as_ok m0 pgdir l0 -> space_of m0 m d l0 l -> Forall pa_page l0 ->
  (forall va, pde_at m pgdir va = pde_at m0 pgdir va) /\
  (forall va, pte_at m pgdir va = pte_at m0 pgdir va) /\
  (forall va o, user_va va -> present (pte_at m0 pgdir va) = true -> 0 <= o < PGSIZE ->
     m (frame m0 pgdir va + o) = m0 (frame m0 pgdir va + o)).
Proof.
  intros (O1 & O2 & O3) (_ & _ & _ & _ & _ & A6) Hps.
  assert (Hq : forall q x, pa_page q -> (q ∉ l0) -> on_page q x -> m x = m0 x).
  { intros q x Hq Hn Hx. apply A6. intros q' Hq'. apply (page_disjoint q q' x); try done.
    - rewrite Forall_forall in Hps. auto.
    - by intros ->. }
  assert (He : forall q x, pt_page m0 pgdir q -> on_page q x -> m x = m0 x).
  { intros q x Hp. destruct (pt_page_ok _ _ _ _ O1 Hp). by apply Hq. }
  destruct (pt_ext m0 m pgdir He) as (_ & _ & _ & Hv). split_and!; [|done|].
  - intros va. apply tab_ext; [apply pdx_range|]. intros x. apply He. by left.
  - intros va o Hu Hp Ho. destruct (O2 va Hu Hp) as (F1 & F2 & _).
    apply (Hq (frame m0 pgdir va)); try done. unfold on_page. lia.
Qed.

(** Writing to free pages. *)
Lemma space_touch m0 m m' d l0 l :
  space_of m0 m d l0 l -> Forall pa_page l ->
  (forall x, (forall q, q ∈ l -> ~ on_page q x) -> m' x = m x) -> space_of m0 m' d l0 l.
Proof.
  intros (A1 & A2 & A3 & A4 & A5 & A6) Hps Hm.
  assert (He : forall q x, pt_page m d q -> on_page q x -> m' x = m x).
  { intros q x Hq Hx. apply Hm. intros q' Hq'. destruct (pt_page_ok _ _ _ _ (as_ok_pt _ _ _ A1) Hq).
    apply (page_disjoint q q' x); try done; [|by intros ->]. rewrite Forall_forall in Hps. auto. }
  destruct (pt_ext m m' d He) as (_ & _ & Hpp & Hv).
  split_and!; [by apply (as_ok_ext m)|done| | | |].
  - intros q. rewrite Hpp. apply A3.
  - intros va. unfold frame. rewrite Hv. apply A4.
  - intros q Hq. rewrite Hpp. apply A5 in Hq as [?|[?|(va & ?)]]; [by left|by right; left|].
    right; right. exists va. unfold frame. by rewrite Hv.
  - intros x Hx. rewrite Hm; auto.
Qed.

Lemma tabset_keep m m' d (P : Z -> Prop) : tabs_step m m' d P -> (forall i, ~ P i) -> tabset m' d = tabset m d.
Proof.
  intros [T1 T2] HP. apply set_eq. intros i. rewrite !elem_of_tabset. split; [|apply T1]. intros [?|?%HP]%T2; done.
Qed.

Lemma tabset_add m m' d (P : Z -> Prop) j :
  tabs_step m m' d P -> (forall i, P i -> i = j) -> has_tab m' d j -> tabset m' d = tabset m d ∪ {[j]}.
Proof.
  intros [T1 T2] HP Hj. apply set_eq. intros i. rewrite elem_of_union, !elem_of_tabset, elem_of_singleton.
  split; [intros [?|?%HP]%T2; auto|]. intros [Hi| ->]; [by apply T1|done].
Qed.

Lemma elem_of_mapped m pgdir b va :
  b <= KERNBASE -> va ∈ mapped m pgdir b <-> user_va va /\ va < b /\ present (pte_at m pgdir va) = true.
Proof.
  intros HK. unfold mapped. rewrite list_elem_of_filter, elem_of_pages by (done || (unfold KERNBASE in *; lia)).
  unfold user_va, page_va, is_u32. split; [intros (? & [? ?] & ?)|intros ([[? ?] ?] & ? & ?)]; split_and!; (done || lia).
Qed.

Lemma mapped_next m pgdir i :
  page_va i -> mapped m pgdir (i + PGSIZE) = mapped m pgdir i ++ (if present (pte_at m pgdir i) then [i] else []).
Proof.
  intros Hi. unfold mapped. rewrite pages_next by (done || (unfold page_va, is_u32 in Hi; lia)). rewrite filter_app. f_equal.
  destruct (present (pte_at m pgdir i)) eqn:E; [by rewrite filter_cons_True|by rewrite filter_cons_False by congruence].
Qed.

Lemma mapped_copied m0 m pgdir d i va :
  i <= KERNBASE -> uspace_copied m0 m pgdir d i ->
  va ∈ mapped m0 pgdir i <-> user_va va /\ present (pte_at m d va) = true.
Proof.
  intros HK Hc. rewrite elem_of_mapped by done. split.
  - intros (Hu & Hlt & Hp). split; [done|]. specialize (Hc va Hu). rewrite Hp, (proj2 (Z.ltb_lt _ _) Hlt) in Hc. apply Hc.
  - intros [Hu Hp]. split; [done|]. specialize (Hc va Hu). destruct (present (pte_at m0 pgdir va)); [|by rewrite Hp in Hc].
    destruct (Z.ltb_spec va i); [done|]. by rewrite Hp in Hc.
Qed.

(** The copy has run out of pages at page [i], for the page or for its table. *)
Lemma copy_short m0 m pgdir d l0 l i sz (K : gset Z) :
  space_of m0 m d l0 l -> NoDup l0 -> NoDup l -> page_va i -> 0 <= i < sz -> sz <= KERNBASE ->
  present (pte_at m0 pgdir i) = true -> (forall va, va ∈ mapped m0 pgdir i <-> user_va va /\ present (pte_at m d va) = true) ->
  tabset m d = K ∪ pdxs (mapped m0 pgdir i) -> l = [] \/ length l = 1%nat /\ PDX i ∉ tabset m d ->
  (length l0 < 1 + size (K ∪ pdxs (mapped m0 pgdir sz)) + length (mapped m0 pgdir sz))%nat.
Proof.
  intros Hsp Hnd Hndl Hi H HK Hpr HV HT Hx.
  rewrite (space_used m0 m d l0 l (mapped m0 pgdir i) Hsp Hnd Hndl (NoDup_filter _ _ (NoDup_pages _ _)) HV), HT.
  destruct (pages_more 0 i sz) as [k E]; [done|done|done|].
  assert (E' : exists v, mapped m0 pgdir sz = mapped m0 pgdir i ++ [i] ++ v).
  { unfold mapped. rewrite E, !filter_app, filter_cons_True by done. rewrite <- app_assoc. by eexists. }
  destruct E' as [v ->]. rewrite !pdxs_app, !length_app. cbn [length].
  set (A := K ∪ pdxs (mapped m0 pgdir i)). set (C := K ∪ (pdxs (mapped m0 pgdir i) ∪ (pdxs [i] ∪ pdxs v))).
  assert (HC : A ⊆ C) by (unfold A, C; clear; set_solver).
  destruct Hx as [->|[-> Hno]].
  - pose proof (subseteq_size _ _ HC). cbn [length]. lia.
  - enough (size A < size C)%nat by lia. apply subset_size, strict_spec_alt. split; [done|]. intros Eq.
    apply Hno. rewrite HT. fold A. rewrite Eq. apply elem_of_union_r, elem_of_union_r, elem_of_union_l, elem_of_pdxs.
    exists i. by rewrite list_elem_of_singleton.
Qed.

(** One page: allocate, copy, map; [k] is the rest of the loop. *)
Lemma copy_page m0 l0 pgdir d i s l (k : M St bool) :
  pa_inv s l -> space_of m0 (pa_mem s) d l0 l -> as_ok m0 pgdir l0 -> Forall pa_page l0 ->
  user_va i -> present (pte_at m0 pgdir i) = true -> uspace_copied m0 (pa_mem s) pgdir d i ->
  let e := pte_at m0 pgdir i in
  let run := (let! mem := pa_kalloc in
              if mem =? 0 then mret false
              else kmemmove mem (P2V (PTE_ADDR e)) PGSIZE ;;!
                   let! r := mappages d i PGSIZE (V2P mem) (PTE_FLAGS e) in
                   if r <? 0 then pa_kfree mem ;;! mret false else k) s in
  exists s' l', pa_inv s' l' /\ space_of m0 (pa_mem s') d l0 l' /\
    ((run = Ok (false, s') /\ tabset (pa_mem s') d = tabset (pa_mem s) d /\
      (forall va, user_va va -> pte_at (pa_mem s') d va = pte_at (pa_mem s) d va) /\
      (l' = [] \/ length l' = 1%nat /\ PDX i ∉ tabset (pa_mem s') d)) \/
     (run = k s' /\ tabset (pa_mem s') d = tabset (pa_mem s) d ∪ {[PDX i]} /\ uspace_copied m0 (pa_mem s') pgdir d (i + PGSIZE) /\
      forall va, page_va va -> va <> i -> pte_at (pa_mem s') d va = pte_at (pa_mem s) d va)).
Proof.
  intros Hinv Hsp Hsrc Hps Hi Hpr Hcop e run. unfold run. clear run. destruct l as [|p l].
  { destruct (pa_kalloc_empty s Hinv) as (s1 & Hk & Hinv1 & Hm1). exists s1, [].
    rewrite (mbind_ok _ _ _ _ _ Hk), Hm1. split_and!; try done. left. split_and!; try done. by left. }
  destruct (take_page s p l Hinv) as (s1 & Hk & Hm1 & Hp & Hpl & Hp0 & Hwf & Hset).
  rewrite (mbind_ok _ _ _ _ _ Hk), Hp0. unfold kmemmove, mset. mstep.
  change (P2V (PTE_ADDR e)) with (frame m0 pgdir i).
  set (m2 := memmove (pa_mem s1) p (frame m0 pgdir i) PGSIZE). set (s2 := pa_setmem m2 s1).
  assert (E2 : m2 ≡ₘ copy (pa_mem s) p (frame m0 pgdir i) PGSIZE).
  { unfold m2. rewrite Hm1. apply memmove_spec; [done|]. unfold PGSIZE. lia. }
  assert (Hm2 : forall x, ~ on_page p x -> m2 x = pa_mem s x).
  { intros x Hx. rewrite E2. apply copy_out. unfold on_page in Hx. lia. }
  assert (Hs2 : pa_mem s2 = m2) by apply pa_mem_setmem.
  assert (Hinv2 : pa_inv s2 l).
  { apply Hset; [|done]. intros x. rewrite E2. by apply wf_copy. }
  destruct (mkpte_flags p e Hp Hpr) as [Hfr Hfl].
  assert (Habs : present (pte_at (pa_mem s) d i) = false).
  { specialize (Hcop i Hi). by rewrite Z.ltb_irrefl, andb_false_r in Hcop. }
  pose proof (copy_pte m0 (pa_mem s) m2 d p l0 l Hsp Hp Hm2) as Hpte.
  destruct (map_user_page s2 d i p (PTE_FLAGS e) l) as (r & s3 & l3 & Hrun & Hinv3 & Hst & Hoth & Ht & Hres); try done.
  { rewrite Hs2. apply (as_ok_ext (pa_mem s)); [|apply Hsp].
    intros q x. by apply (fresh_ext _ _ _ _ _ (proj1 Hsp)). }
  { by rewrite Hs2, Hpte. }
  rewrite Hs2 in *. rewrite (mbind_ok _ _ _ _ _ Hrun).
  assert (Ht3 : tabs_step (pa_mem s) (pa_mem s3) d (fun j => r = 0 /\ j = PDX i)).
  { apply (tabs_trans _ m2 _ _ (fun _ => False) _ _ (tabs_ext _ _ _ _ (fresh_ext _ _ _ _ _ (proj1 Hsp) Hp Hm2)) Ht); [done|auto]. }
  destruct Hres as [(-> & Has' & Hpi)|(-> & -> & Has' & Hno & Hsame)]; cbn [Z.ltb Z.compare].
  - exists s3, l3. split_and!; [done| |right; split_and!; [done| | |]].
    + by apply (copy_space m0 (pa_mem s) m2 (pa_mem s3) pgdir d i p l0 l l3 Hsp Hp Hpl Hi Hm2 Hst Habs (PTE_FLAGS e)).
    + apply (tabset_add _ _ _ _ _ Ht3); [by intros j [_ ?]|]. split; [apply pdx_range|].
      apply pte_present_pde. rewrite Hpi. apply mkpte_odd.
    + apply (copy_advance m0 (pa_mem s) m2 (pa_mem s3) pgdir d i p l0 l l3) with (flags := PTE_FLAGS e); try done.
      intros o Ho. rewrite E2, copy_in by lia. replace (p + o - p) with o by lia.
      by apply (copy_source m0 (pa_mem s) pgdir d l0 (p :: l)).
    + intros va Hva Hne. by rewrite Hoth, Hpte.
  - assert (Hsp3 : space_of m0 (pa_mem s3) d l0 [p]).
    { apply (copy_fail m0 (pa_mem s) m2 (pa_mem s3) d p l0 l []); try done.
      intros va Hva. destruct (Z.eq_dec va i) as [->|]; auto. }
    destruct (kfree_last s3 p [] Hinv3 Hp) as (s4 & Hk4 & Hinv4 & Hm4); [apply not_elem_of_nil|].
    exists s4, [p]. rewrite (mbind_ok _ _ _ _ _ Hk4).
    assert (He : forall q x, pt_page (pa_mem s3) d q -> on_page q x -> pa_mem s4 x = pa_mem s3 x).
    { apply (fresh_ext _ _ _ _ [] Has' Hp Hm4). }
    assert (Et : tabset (pa_mem s4) d = tabset (pa_mem s) d).
    { rewrite (tabset_keep _ _ _ (fun _ => False) (tabs_ext _ _ _ _ He)) by auto.
      apply (tabset_keep _ _ _ _ Ht3). by intros j [? _]. }
    destruct (pt_ext _ _ d He) as (Eh & _ & _ & Ev).
    split_and!; [done| |left; split_and!; [done|done| |right; split; [done|]]].
    + apply (space_touch m0 (pa_mem s3)); [done|by apply Forall_singleton|].
      intros x Hx. apply Hm4, Hx. by left.
    + intros va [Hva _]. rewrite Ev. destruct (Z.eq_dec va i) as [->|]; [by rewrite Hsame|by rewrite Hoth].
    + rewrite elem_of_tabset, Eh. done.
Qed.

Lemma copyuvm_loop_spec fuel m0 l0 mk (K : gset Z) pgdir d i sz s l :
  as_ok m0 pgdir l0 -> Forall pa_page l0 -> NoDup l0 -> 0 <= sz <= KERNBASE ->
  pa_inv s l -> space_of m0 (pa_mem s) d l0 l -> page_va i -> i < sz + PGSIZE ->
  sz <= i + Z.of_nat fuel * PGSIZE -> uspace_copied m0 (pa_mem s) pgdir d i ->
  (forall va, page_va va -> KERNBASE <= va -> pte_at (pa_mem s) d va = pte_at mk d va) ->
  tabset (pa_mem s) d = K ∪ pdxs (mapped m0 pgdir i) ->
  exists r s' l', copyuvm_loop fuel pgdir d i sz s = Ok (r, s') /\ pa_inv s' l' /\
    space_of m0 (pa_mem s') d l0 l' /\
    if (r : bool) then uspace_copied m0 (pa_mem s') pgdir d sz /\
       (forall va, page_va va -> KERNBASE <= va -> pte_at (pa_mem s') d va = pte_at mk d va) /\
       tabset (pa_mem s') d = K ∪ pdxs (mapped m0 pgdir sz)
    else (length l0 < 1 + size (K ∪ pdxs (mapped m0 pgdir sz)) + length (mapped m0 pgdir sz))%nat.
Proof.
  intros Hsrc Hps Hnd Hsz. revert i s l.
  induction fuel as [|f IH]; intros i s l Hinv Hsp Hi Hnear Hfu Hcop Hker Htb; cbn [copyuvm_loop];
    (destruct (Z.ltb_spec i sz); [|exists true, s, l; split_and!; [done|done|done| |done|];
       [revert Hcop; apply copied_round; intros va [[_ Hv] _] _; destruct Hi; unfold PGSIZE in *; zlia
       |by unfold mapped in *; rewrite <- (pages_round 0 i sz) by (done || (destruct Hi; unfold is_u32 in *; lia))]]); [lia|].
  assert (Hu : user_va i) by (split; [done|lia]).
  destruct (copy_source m0 (pa_mem s) pgdir d l0 l Hsrc Hsp Hps) as (Spde & Spte & _).
  assert (HiK : i + PGSIZE <= KERNBASE).
  { destruct Hi as [_ Hi]. unfold KERNBASE, PGSIZE in *. zlia. }
  assert (Hnx : u32 (i + PGSIZE) = i + PGSIZE /\ page_va (i + PGSIZE)).
  { split; [apply u32_small; destruct Hi; unfold is_u32, KERNBASE, PGSIZE in *; lia|].
    apply page_va_next; [done|]. unfold KERNBASE, PGSIZE in *. lia. }
  destruct Hnx as [-> Hnx].
  assert (Hskip : present (pte_at m0 pgdir i) = false -> exists r s' l',
    copyuvm_loop f pgdir d (i + PGSIZE) sz s = Ok (r, s') /\ pa_inv s' l' /\
    space_of m0 (pa_mem s') d l0 l' /\
    if (r : bool) then uspace_copied m0 (pa_mem s') pgdir d sz /\
       (forall va, page_va va -> KERNBASE <= va -> pte_at (pa_mem s') d va = pte_at mk d va) /\
       tabset (pa_mem s') d = K ∪ pdxs (mapped m0 pgdir sz)
    else (length l0 < 1 + size (K ∪ pdxs (mapped m0 pgdir sz)) + length (mapped m0 pgdir sz))%nat).
  { intros Hno. apply (IH _ s l); try done; [lia|unfold PGSIZE in *; lia| |by rewrite mapped_next, Hno, app_nil_r].
    revert Hcop. apply copied_round. intros va [Hva _] Hp.
    destruct (Z.eq_dec va i) as [->|]; [by rewrite Hno in Hp|].
    destruct Hva as [_ ?], Hi as [_ ?]. unfold PGSIZE in *. zlia. }
  destruct (present (pde_at (pa_mem s) pgdir i)) eqn:Epde.
  2:{ rewrite (mbind_ok _ _ _ _ _ (walk_absent s pgdir i Epde)). cbn [Z.eqb]. apply Hskip.
      rewrite Spde in Epde. by rewrite pte_at_absent. }
  rewrite (mbind_ok _ _ _ _ _ (walk_present s pgdir i false Epde)).
  rewrite Spde in Epde. assert (Es : pte_slot (pa_mem s) pgdir i = pte_slot m0 pgdir i).
  { unfold pte_slot. by rewrite Spde. }
  rewrite Es, (pte_slot_nonzero _ _ _ l0 (as_ok_pt _ _ _ Hsrc) Epde). unfold rd, mget. mstep.
  rewrite <- Es, <- pte_at_slot, Spte by (by rewrite Spde).
  destruct (present (pte_at m0 pgdir i)) eqn:Epte; cbn [negb]; [|by apply Hskip].
  destruct (copy_page m0 l0 pgdir d i s l (copyuvm_loop f pgdir d (i + PGSIZE) sz))
    as (s1 & l1 & Hinv1 & Hsp1 & [(Hrun & Htb1 & Hsame & Hx)|(Hrun & Htb1 & Hcop1 & Hoth)]); try done; rewrite Hrun.
  - exists false, s1, l1. split_and!; try done. destruct (pa_inv_pages _ _ Hinv1) as (_ & Hnd1 & _).
    apply (copy_short m0 (pa_mem s1) pgdir d l0 l1 i sz K); try done; [unfold page_va, is_u32 in Hi; lia|lia| |congruence].
    intros va. rewrite (mapped_copied m0 (pa_mem s) pgdir d i) by (done || lia).
    split; intros [Hva Hp]; (split; [done|]); by rewrite ?Hsame in * by done.
  - apply (IH _ s1 l1); try done; [lia|unfold PGSIZE in *; lia| |].
    + intros va Hva HK. rewrite Hoth; [by apply Hker|done|]. destruct Hu. lia.
    + rewrite mapped_next, Epte, pdxs_app, Htb1, Htb by done. rewrite union_assoc_L. f_equal.
      unfold pdxs. cbn. by rewrite union_empty_r_L.
Qed.

Lemma copyuvm_spec data pgdir sz s l :
  data mod PGSIZE = 0 -> KERNLINK < data < KERNBASE + PHYSTOP ->
  pa_inv s l -> as_ok (pa_mem s) pgdir l -> 0 <= sz <= KERNBASE ->
  exists r s' l', copyuvm data pgdir sz s = Ok (r, s') /\ pa_inv s' l' /\
    ((r <> 0 /\ (length l = length l' + copy_cost data (pa_mem s) pgdir sz)%nat /\
      space_of (pa_mem s) (pa_mem s') r l l' /\ Forall (kmapped (pa_mem s') r) (kmap data) /\
      uspace_copied (pa_mem s) (pa_mem s') pgdir r sz) \/
     (r = 0 /\ (length l < copy_cost data (pa_mem s) pgdir sz)%nat /\ (forall q, q ∈ l' <-> q ∈ l) /\
      (forall x, (forall q, q ∈ l -> ~ on_page q x) -> pa_mem s' x = pa_mem s x))).
Proof.
  intros Hal Hr Hinv Has Hsz. unfold copyuvm. destruct (pa_inv_pages _ _ Hinv) as (Hps & Hnd & _).
  destruct (setupkvm_spec data s l Hal Hr Hinv) as (d & s1 & l1 & Hset & Hinv1 & Hres).
  rewrite (mbind_ok _ _ _ _ _ Hset). destruct Hres as [(Hd & Htb & Hsp & Hkm & Huser)|(-> & Hlt & ? & ?)].
  2:{ exists 0, s1, l1. split_and!; [done|done|right]. split_and!; try done. unfold copy_cost.
      pose proof (subseteq_size _ _ (union_subseteq_l (ktables (kmap data)) (pdxs (mapped (pa_mem s) pgdir sz)))). lia. }
  rewrite (proj2 (Z.eqb_neq d 0)) by done.
  destruct (copyuvm_loop_spec (Z.to_nat (sz / PGSIZE + 1)) (pa_mem s) l (pa_mem s1) (ktables (kmap data)) pgdir d 0 sz s1 l1)
    as (ok & s2 & l2 & Hrun & Hinv2 & Hsp2 & Hok); try done.
  { unfold PGSIZE. lia. }
  { unfold PGSIZE. rewrite Z2Nat.id by zlia. zlia. }
  { intros va Hva. replace (va <? 0) with false; [rewrite andb_false_r; auto|].
    destruct Hva as [[Hva _] _]. unfold is_u32 in Hva. symmetry. apply Z.ltb_ge. lia. }
  { rewrite Htb. change (pdxs (mapped (pa_mem s) pgdir 0)) with (∅ : gset Z). by rewrite union_empty_r_L. }
  rewrite (mbind_ok _ _ _ _ _ Hrun). destruct ok.
  - destruct Hok as (Hcop & Hker & Htb2). exists d, s2, l2. split_and!; [done|done|left]. split_and!; try done.
    { destruct (pa_inv_pages _ _ Hinv2) as (_ & Hnd2 & _).
      rewrite (space_used _ _ d l l2 (mapped (pa_mem s) pgdir sz) Hsp2), Htb2; try done; [unfold copy_cost; lia| |].
      - apply NoDup_filter, NoDup_pages.
      - intros va. apply mapped_copied; [lia|done]. }
    rewrite Forall_forall in Hkm |- *. intros k Hk va Hva Hin. rewrite Hker; [by apply Hkm|done|].
    destruct (kmap_all_ok data Hal Hr) as [Hks _]. rewrite Forall_forall in Hks.
    destruct (Hks k Hk) as (_ & _ & _ & _ & ? & _). unfold in_kmap in Hin. lia.
  - destruct (space_free (pa_mem s) s2 d l l2 Hinv2 Hsp2) as (s3 & l3 & Hf & Hinv3 & ? & ?).
    rewrite (mbind_ok _ _ _ _ _ Hf). exists 0, s3, l3. split_and!; [done|done|by right].
Qed.

(** Mapping over a page that is present. *)
Lemma remap_panics {B} s pgdir a p l (k0 : M St B) (k : Z -> Z -> M St B) :
  pa_inv s (p :: l) -> as_ok (pa_mem s) pgdir (p :: l) -> page_va a ->
  present (pte_at (pa_mem s) pgdir a) = true ->
  (let! mem := pa_kalloc in
   if mem =? 0 then k0
   else kmemset mem 0 PGSIZE ;;!
        let! r := mappages pgdir a PGSIZE (V2P mem) (Z.lor PTE_W PTE_U) in k mem r) s = Panic "remap".
Proof.
  intros Hinv Has Ha Hpr.
  destruct (take_page s p l Hinv) as (s1 & Hk & Hm1 & Hp & Hpl & Hp0 & Hwf & Hset).
  rewrite (mbind_ok _ _ _ _ _ Hk), Hp0. unfold kmemset, mset. mstep. rewrite Hm1.
  destruct (clear_page (pa_mem s) p) as (Hm2 & _ & _).
  set (m2 := memset (pa_mem s) p 0 PGSIZE) in *. set (s2 := pa_setmem m2 s1).
  assert (Es2 : pa_mem s2 = m2) by apply pa_mem_setmem.
  assert (He : forall q x, pt_page (pa_mem s) pgdir q -> on_page q x -> m2 x = pa_mem s x).
  { intros q x. by apply (fresh_ext _ _ _ _ _ Has). }
  destruct (pt_ext _ _ pgdir He) as (_ & _ & _ & Hv).
  assert (Hpr2 : present (pte_at (pa_mem s2) pgdir a) = true) by (by rewrite Es2, Hv).
  assert (Hok2 : pt_ok (pa_mem s2) pgdir (p :: l)).
  { rewrite Es2. apply (pt_ok_ext (pa_mem s)); [done|apply Has]. }
  pose proof (pte_present_pde _ _ _ Hpr2) as Hpde.
  unfold mbind at 1. rewrite mappages_page by done. cbn [mappages_loop].
  rewrite (mbind_ok _ _ _ _ _ (walk_present s2 pgdir a true Hpde)).
  rewrite (pte_slot_nonzero _ _ _ _ Hok2 Hpde). unfold rd, mget. mstep.
  by rewrite <- (pte_at_slot _ _ _ Hpde), Hpr2.
Qed.

(** ** Properties *)

(** C11: [copyuvm], what [fork] does to memory.  A copy takes [copy_cost] pages:
    a directory, the page tables of the kernel's part and of the mapped pages of
    the parent, and one page for each of these.  With that many free pages it
    builds, out of exactly as many of them, a new address space in which every
    page of the parent below [sz] that is mapped has the same flags and contents
    in a page of its own, every page the parent has not touched yet (the holes
    of lazy allocation) is a hole, and the kernel part is that of [setupkvm].
    With fewer it returns 0 and every page it took is free again.  Either way
    memory outside the pages that were free, so the parent's, is unchanged. *)
Theorem copyuvm_lazy data pgdir sz s l :
  data mod PGSIZE = 0 -> KERNLINK < data < KERNBASE + PHYSTOP ->
  pa_inv s l -> as_ok (pa_mem s) pgdir l -> 0 <= sz <= KERNBASE ->
  let cost := copy_cost data (pa_mem s) pgdir sz in
  exists r s' l', copyuvm data pgdir sz s = Ok (r, s') /\ pa_inv s' l' /\
    (forall x, (forall q, q ∈ l -> ~ on_page q x) -> pa_mem s' x = pa_mem s x) /\
    if (cost <=? length l)%nat
    then r <> 0 /\ length l = (length l' + cost)%nat /\ space_of (pa_mem s) (pa_mem s') r l l' /\
      Forall (kmapped (pa_mem s') r) (kmap data) /\ uspace_copied (pa_mem s) (pa_mem s') pgdir r sz
    else r = 0 /\ forall q, q ∈ l' <-> q ∈ l.
Proof.
  intros Hal Hr Hinv Has Hsz cost.
  destruct (copyuvm_spec data pgdir sz s l Hal Hr Hinv Has Hsz)
    as (r & s' & l' & Hrun & Hinv' & [(Hd & Hlen & Hsp & Hkm & Hc)|(-> & Hlen & Hq & Hx)]); exists r, s', l' || exists 0, s', l'.
  - split_and!; [done|done|apply Hsp|]. by rewrite (proj2 (Nat.leb_le _ _)) by (fold cost in Hlen; lia).
  - split_and!; [done|done|done|]. by rewrite (proj2 (Nat.leb_gt _ _)).
Qed.

Lemma allocuvm_spec pgdir oldsz newsz s l :
  pa_inv s l -> as_ok (pa_mem s) pgdir l -> 0 <= oldsz <= newsz -> newsz < KERNBASE ->
  (forall va, page_va va -> oldsz <= va < newsz -> present (pte_at (pa_mem s) pgdir va) = false) ->
  let cost := grow_cost (pa_mem s) pgdir (PGROUNDUP oldsz) newsz in
  exists r s' l', allocuvm pgdir oldsz newsz s = Ok (r, s') /\ pa_inv s' l' /\
    ((r = newsz /\ length l = (length l' + cost)%nat /\
      uspace_grow (pa_mem s) (pa_mem s') pgdir (PGROUNDUP oldsz) newsz l l') \/
     (r = 0 /\ (length l < cost)%nat /\
      uspace_restored (pa_mem s) (pa_mem s') pgdir (PGROUNDUP oldsz) newsz l l')).
Proof.
  intros Hinv Has Hn HK Habs. unfold allocuvm.
  rewrite Z.geb_leb, (proj2 (Z.leb_gt _ _)), (proj2 (Z.ltb_ge _ _)) by lia.
  assert (E : PGROUNDUP oldsz = oldsz + 4095 - (oldsz + 4095) mod 4096).
  { apply pgroundup_eq; unfold is_u32, KERNBASE in *; lia. }
  assert (Hpv : page_va (PGROUNDUP oldsz)).
  { rewrite E. unfold page_va, is_u32, KERNBASE, PGSIZE in *. split; zlia. }
  destruct (pa_inv_pages _ _ Hinv) as (Hps & Hnd & _).
  apply (allocuvm_loop_spec _ _ _ _ _ _ _ _ _ l); try done; try lia.
  - rewrite E. zlia.
  - intros va Hva Hr. apply Habs; [done|]. rewrite E in Hr. zlia.
  - by apply grow_refl.
  - apply tabs_refl.
  - rewrite E. unfold PGSIZE in *. rewrite Z2Nat.id by zlia. zlia.
Qed.

(** C32: [allocuvm] grows an address space from [oldsz] to [newsz] exactly.  It
    needs [grow_cost] pages: those of the range and the page tables that are not
    there yet.  With that many free pages each new page is mapped writable for
    the user to a zeroed page that was free, and exactly as many are taken; with
    fewer, after any number of pages, it returns 0, nothing is mapped in the
    range and every page it took is free again except page tables.  No other
    entry changes. *)
Theorem allocuvm_exact pgdir oldsz newsz s l :
  pa_inv s l -> as_ok (pa_mem s) pgdir l -> 0 <= oldsz <= newsz -> newsz < KERNBASE ->
  (forall va, page_va va -> oldsz <= va < newsz -> present (pte_at (pa_mem s) pgdir va) = false) ->
  let cost := grow_cost (pa_mem s) pgdir (PGROUNDUP oldsz) newsz in
  exists r s' l', allocuvm pgdir oldsz newsz s = Ok (r, s') /\ pa_inv s' l' /\
    if (cost <=? length l)%nat
    then r = newsz /\ length l = (length l' + cost)%nat /\
      uspace_grow (pa_mem s) (pa_mem s') pgdir (PGROUNDUP oldsz) newsz l l'
    else r = 0 /\ uspace_restored (pa_mem s) (pa_mem s') pgdir (PGROUNDUP oldsz) newsz l l'.
Proof.
  intros Hinv Has Hn HK Habs cost.
  destruct (allocuvm_spec pgdir oldsz newsz s l Hinv Has Hn HK Habs)
    as (r & s' & l' & Hrun & Hinv' & [(-> & Hlen & G)|(-> & Hlen & G)]); eexists _, s', l'; (split_and!; [exact Hrun|exact Hinv'|]).
  - by rewrite (proj2 (Nat.leb_le _ _)) by (fold cost in Hlen; lia).
  - by rewrite (proj2 (Nat.leb_gt _ _)).
Qed.

(** [deallocuvm] releases exactly the mapped pages from [newsz] up to
    [oldsz], each once, although it steps over whole missing page tables;
    holes are no error, and all other entries, tables and memory are kept. *)
Theorem deallocuvm_exact pgdir oldsz newsz s l :
  pa_inv s l -> as_ok (pa_mem s) pgdir l -> 0 <= newsz -> 0 <= oldsz <= KERNBASE ->
  if newsz <? oldsz then
    exists s' l', deallocuvm pgdir oldsz newsz s = Ok (newsz, s') /\ pa_inv s' l' /\
      uspace_drop (pa_mem s) (pa_mem s') pgdir (PGROUNDUP newsz) oldsz l l'
  else deallocuvm pgdir oldsz newsz s = Ok (oldsz, s).
Proof.
  intros Hinv Has Hn Ho. destruct (Z.ltb_spec newsz oldsz).
  - apply deallocuvm_spec; try done; lia.
  - unfold deallocuvm. rewrite Z.geb_leb, (proj2 (Z.leb_le _ _)) by lia. done.
Qed.

(** The pages of an address space: its directory, its page tables, its user pages. *)
Definition space_page (m : mem) (pgdir q : Z) : Prop :=
  pt_page m pgdir q \/ exists va, user_va va /\ present (pte_at m pgdir va) = true /\ q = frame m pgdir va.

(** [freevm] puts exactly the pages of the address space (user pages, page
    tables and directory) on the free list, each once, and writes nothing else. *)
Theorem freevm_frees_all pgdir s l :
  pa_inv s l -> as_ok (pa_mem s) pgdir l ->
  exists s' l', freevm pgdir s = Ok (tt, s') /\ pa_inv s' l' /\ NoDup l' /\
    (forall q, q ∈ l' <-> q ∈ l \/ space_page (pa_mem s) pgdir q) /\
    (forall x, (forall q, q ∈ l' -> ~ on_page q x) -> pa_mem s' x = pa_mem s x).
Proof.
  intros Hinv Has. destruct (freevm_spec s pgdir l Hinv Has) as (s' & l' & Hrun & Hinv' & Hq & Hx).
  exists s', l'. split_and!; try done. by destruct (pa_inv_pages _ _ Hinv') as (_ & ? & _).
Qed.

(** [setupkvm] maps each range of [kmap] to its physical range with the
    entry's permission, none of it accessible to the user, and no user page;
    with too little memory it returns 0 and leaves the same free pages. *)
Theorem setupkvm_kernel_only data s l :
  data mod PGSIZE = 0 -> KERNLINK < data < KERNBASE + PHYSTOP -> pa_inv s l ->
  exists r s' l', setupkvm data s = Ok (r, s') /\ pa_inv s' l' /\
    ((r <> 0 /\ space_of (pa_mem s) (pa_mem s') r l l' /\
      (forall k va, k ∈ kmap data -> page_va va -> in_kmap k va ->
         present (pte_at (pa_mem s') r va) = true /\ Z.testbit (pte_at (pa_mem s') r va) 2 = false /\
         PTE_ADDR (pte_at (pa_mem s') r va) = phys_start k + (va - virt k)) /\
      (forall va, user_va va -> present (pte_at (pa_mem s') r va) = false)) \/
     (r = 0 /\ forall q, q ∈ l' <-> q ∈ l)).
Proof.
  intros Hal Hr Hinv.
  destruct (setupkvm_spec data s l Hal Hr Hinv) as (r & s' & l' & Hrun & Hinv' & Hres).
  exists r, s', l'. split_and!; [done|done|].
  destruct Hres as [(Hd & _ & Hsp & Hkm & Hu)|(-> & _ & Hq & _)]; [left|by right]. split_and!; try done.
  intros k va Hk Hva Hin. rewrite Forall_forall in Hkm. rewrite (Hkm k Hk va Hva Hin).
  destruct (kmap_all_ok data Hal Hr) as [Hks _]. rewrite Forall_forall in Hks.
  apply kmap_entry_props; [by apply Hks|done|done|].
  repeat (apply elem_of_cons in Hk as [->|Hk]; [cbn [kperm]; auto|]). by apply elem_of_nil in Hk.
Qed.

End VmSpace.

(** ** Witnesses

    One free page at 0x80300000 and an empty directory at 0x80400000, in zeroed
    memory, under the allocator of kalloc.c. *)

Lemma witness_end : KERNLINK < 0x80200000 <= KERNBASE + 4 * 1024 * 1024.
Proof. unfold KERNLINK, KERNBASE, EXTMEM. lia. Qed.

Definition witness_pa : PageAllocator kstate := kalloc_allocator 0x80200000 witness_end.
Definition witness_state : kstate := mkK false true 0x80300000 (fun _ => 0).

Lemma witness_inv : pa_inv (PageAllocator := witness_pa) witness_state [0x80300000].
Proof.
  change (kinv 0x80200000 witness_state [0x80300000]).
  unfold kinv. split_and!; [done|apply wf_zero|done|apply NoDup_singleton|].
  constructor; [|constructor]. unfold kpage. split_and!; by vm_compute.
Qed.

Lemma witness_space : as_ok (PA := witness_pa) (fun _ => 0) 0x80400000 [0x80300000].
Proof.
  apply (space_empty (PA := witness_pa) (fun _ => 0));
    [|by intros ?%list_elem_of_singleton|done|done].
  change (kpage 0x80200000 0x80400000). unfold kpage. split_and!; by vm_compute.
Qed.

Lemma witness_no_table q : q <> 0x80400000 -> ~ pt_page (fun _ => 0) 0x80400000 q.
Proof. by intros Hq [?|(i & [_ Hp] & _)]. Qed.

(** Many free pages, linked in memory that is zero elsewhere. *)
Definition pool (n : nat) : list Z := (fun i => 0x80800000 + PGSIZE * Z.of_nat i) <$> seq 0 n.
Fixpoint linked (l : list Z) : mem :=
  match l with
  | p :: ((q :: _) as l') => put32 (linked l') p q
  | _ => fun _ => 0
  end.
Definition pool_state (n : nat) : kstate := mkK false true (hd 0 (pool n)) (linked (pool n)).

Lemma linked_out l x : (forall p, p ∈ l -> ~ on_page p x) -> linked l x = 0.
Proof.
  induction l as [|p [|q l] IH]; intros Hx; [done|done|]. cbn [linked]. rewrite put32_ne.
  - apply IH. intros p' Hp'. apply Hx. by right.
  - assert (Hp : ~ on_page p x) by (apply Hx; by left). unfold on_page, PGSIZE in Hp. lia.
Qed.

Lemma linked_chain l : Forall (kpage 0x80200000) l -> NoDup l -> chain (linked l) (hd 0 l) l /\ wf_mem (linked l).
Proof.
  induction l as [|p [|q l] IH]; intros Hp Hn.
  - split; [done|apply wf_zero].
  - split; [by split|apply wf_zero].
  - apply Forall_cons in Hp as [Hp Hps]. apply NoDup_cons in Hn as [Hn Hnd]. destruct (IH Hps Hnd) as [IH1 IH2].
    change (linked (p :: q :: l)) with (put32 (linked (q :: l)) p q). split; [|by apply wf_put32].
    split; [done|]. rewrite get32_put32_eq.
    2:{ apply Forall_cons in Hps as [(_ & H1 & H2) _]. unfold is_u32, PGSIZE, KERNBASE, PHYSTOP in *. lia. }
    apply (chain_ext (linked (q :: l))); [|exact IH1]. intros p' x Hp' Hx. apply put32_ne.
    assert (p' <> p) by (by intros ->). rewrite Forall_forall in Hps. destruct (Hps p' Hp') as [H1 _], Hp as [H2 _].
    unfold PGSIZE in *. zlia.
Qed.

Lemma pool_inv n : (n <= 1024)%nat -> pa_inv (PageAllocator := witness_pa) (pool_state n) (pool n).
Proof.
  intros Hn. change (kinv 0x80200000 (pool_state n) (pool n)).
  assert (Hp : Forall (kpage 0x80200000) (pool n)).
  { apply Forall_fmap, Forall_forall. intros i Hi%elem_of_seq. unfold kpage, PGSIZE, KERNBASE, PHYSTOP. cbn. split_and!; [zlia|lia|lia]. }
  assert (Hd : NoDup (pool n)).
  { apply NoDup_fmap_2, NoDup_seq. intros i j. unfold PGSIZE. lia. }
  destruct (linked_chain (pool n) Hp Hd). unfold kinv. by split_and!.
Qed.

Lemma pool_range n q : q ∈ pool n -> 0x80800000 <= q.
Proof. intros (i & -> & _)%list_elem_of_fmap. unfold PGSIZE. lia. Qed.

Lemma pool_space n :
  let m := linked (pool n) in
  as_ok (PA := witness_pa) m 0x80400000 (pool n) /\ (forall va, pte_at m 0x80400000 va = 0) /\ tabset m 0x80400000 = ∅.
Proof.
  intros m. destruct (space_empty (PA := witness_pa) m m 0x80400000 (pool n)) as ((H1 & _) & H2 & H3); [..|done].
  - change (kpage 0x80200000 0x80400000). unfold kpage. split_and!; by vm_compute.
  - intros H%pool_range. lia.
  - intros x Hx. apply linked_out. intros p Hp%pool_range Hpx. unfold on_page, PGSIZE in *. lia.
  - done.
Qed.

Lemma pool_dir n q : pt_page (linked (pool n)) 0x80400000 q -> q = 0x80400000.
Proof.
  intros [?|(i & Hi & _)]; [done|]. apply (elem_of_tabset (PA := witness_pa)) in Hi.
  destruct (pool_space n) as (_ & _ & Ht). rewrite Ht in Hi. by apply elem_of_empty in Hi.
Qed.

(** A process of two pages of which the second is mapped. *)
Definition half_state : kstate :=
  match allocuvm (PA := witness_pa) 0x80400000 4096 8192 (pool_state 80) with Ok (_, k) => k | _ => pool_state 80 end.

Lemma page_va_0 : page_va 0.
Proof. by split. Qed.
Lemma page_va_4096 : page_va 4096.
Proof. by split. Qed.

Lemma half_cost : grow_cost (linked (pool 80)) 0x80400000 4096 8192 = 2%nat.
Proof. unfold grow_cost. destruct (pool_space 80) as (_ & _ & ->). by vm_compute. Qed.

Lemma half_space : exists l, pa_inv (PageAllocator := witness_pa) half_state l /\ length l = 78%nat /\ (forall q, q ∈ l -> q ∈ pool 80) /\
  as_ok (PA := witness_pa) (pa_mem (PageAllocator := witness_pa) half_state) 0x80400000 l /\
  mapped (pa_mem (PageAllocator := witness_pa) half_state) 0x80400000 8192 = [4096] /\
  forall q, pt_page (pa_mem (PageAllocator := witness_pa) half_state) 0x80400000 q -> q = 0x80400000 \/ q ∈ pool 80.
Proof.
  destruct (pool_space 80) as (Hs & Hp & _).
  destruct (allocuvm_spec (PA := witness_pa) 0x80400000 4096 8192 (pool_state 80) (pool 80))
    as (r & s' & l' & Hrun & Hinv & Hres); [apply pool_inv; lia|exact Hs|lia|by vm_compute|by intros va _ _; change (pa_mem _) with (linked (pool 80)); rewrite Hp|].
  change (PGROUNDUP 4096) with 4096 in Hres. change (pa_mem (pool_state 80)) with (linked (pool 80)) in Hres. rewrite half_cost in Hres.
  assert (E : half_state = s') by (unfold half_state; by rewrite Hrun). rewrite E. clear Hrun E.
  destruct Hres as [(_ & Hl & G)|(_ & Hl & _)]; [|by vm_compute in Hl; lia].
  exists l'. split; [exact Hinv|]. split; [change (length (pool 80)) with 80%nat in Hl; lia|]. split; [apply G|]. split; [apply G|].
  split.
  2:{ intros q Hq. destruct G as (_ & _ & _ & _ & _ & G6 & _). apply G6 in Hq as [Hq|[Hq _]]; [left|right; exact Hq].
      exact (pool_dir 80 q Hq). }
  unfold mapped. change (pages 0 8192) with [0; 4096]. pose proof G as (_ & _ & G3 & _).
  destruct (grow_mapped _ _ _ _ _ _ _ 4096 G page_va_4096) as [Hm _]; [lia|].
  rewrite filter_cons_False, filter_cons_True; [done|exact Hm|]. rewrite (G3 0 page_va_0) by lia.
  by rewrite Hp.
Qed.

Lemma data_ok : 0x80110000 mod PGSIZE = 0 /\ KERNLINK < 0x80110000 < KERNBASE + PHYSTOP /\ 0 <= 8192 <= KERNBASE.
Proof. split_and!; by vm_compute. Qed.

Lemma copy_cost_one m d : mapped m d 8192 = [4096] -> copy_cost 0x80110000 m d 8192 = 67%nat.
Proof. intros Hm. unfold copy_cost. rewrite Hm. vm_compute. reflexivity. Qed.

Lemma copyuvm_lazy_witness :
  exists r s', copyuvm (PA := witness_pa) 0x80110000 0x80400000 8192 half_state = Ok (r, s') /\ r <> 0 /\
    present (pte_at (k_mem s') r 0) = false /\ present (pte_at (k_mem s') r 4096) = true.
Proof.
  destruct data_ok as (D1 & D2 & D3). destruct half_space as (l & Hinv & Hl & _ & Has & Hm & _).
  destruct (copyuvm_lazy (PA := witness_pa) 0x80110000 0x80400000 8192 half_state l D1 D2 Hinv Has D3)
    as (r & s' & l' & H & _ & _ & Hres).
  revert H Hres Hm. generalize half_state as k.
  intros k H Hres Hm. rewrite (copy_cost_one _ _ Hm), Hl in Hres. destruct Hres as (Hr & _ & _ & _ & Hcop).
  exists r, s'. split; [exact H|]. split; [exact Hr|].
  assert (Hv : forall va, va = 4096 <-> user_va va /\ present (pte_at (k_mem s') r va) = true).
  { intros va. rewrite <- (mapped_copied (PA := witness_pa) _ _ _ _ _ _ (proj2 D3) Hcop), Hm. symmetry. apply list_elem_of_singleton. }
  split; [|apply Hv; reflexivity]. destruct (present (pte_at (k_mem s') r 0)) eqn:E; [|reflexivity].
  assert (0 = 4096) by (apply Hv; split; [split; [apply page_va_0|reflexivity]|exact E]). lia.
Defined.

Lemma allocuvm_exact_witness :
  exists s', allocuvm (PA := witness_pa) 0x80400000 4096 8192 (pool_state 80) = Ok (8192, s').
Proof.
  destruct (pool_space 80) as (Hs & Hp & _).
  destruct (allocuvm_exact (PA := witness_pa) 0x80400000 4096 8192 (pool_state 80) (pool 80))
    as (r & s' & l' & H & _ & Hres);
    [apply pool_inv; lia|exact Hs|lia|by vm_compute|by intros va _ _; change (pa_mem _) with (linked (pool 80)); rewrite Hp|].
  change (PGROUNDUP 4096) with 4096 in Hres. change (pa_mem (pool_state 80)) with (linked (pool 80)) in Hres.
  rewrite half_cost in Hres. destruct Hres as [-> _]. exists s'. exact H.
Defined.

Lemma deallocuvm_exact_witness :
  exists s', deallocuvm (PA := witness_pa) 0x80400000 8192 100 witness_state = Ok (100, s').
Proof.
  destruct (deallocuvm_exact (PA := witness_pa) 0x80400000 8192 100 witness_state [0x80300000])
    as (s' & l' & H & _); [apply witness_inv|apply witness_space|by vm_compute|by vm_compute|].
  exists s'. exact H.
Defined.

Lemma freevm_frees_all_witness :
  exists s', freevm (PA := witness_pa) 0x80400000 witness_state = Ok (tt, s').
Proof.
  destruct (freevm_frees_all (PA := witness_pa) 0x80400000 witness_state [0x80300000])
    as (s' & l' & H & _); [apply witness_inv|apply witness_space|].
  exists s'. exact H.
Defined.

Lemma setupkvm_kernel_only_witness :
  exists r s', setupkvm (PA := witness_pa) 0x80110000 witness_state = Ok (r, s').
Proof.
  destruct (setupkvm_kernel_only (PA := witness_pa) 0x80110000 witness_state [0x80300000])
    as (r & s' & l' & H & _); [by vm_compute|by vm_compute|apply witness_inv|].
  exists r, s'. exact H.
Defined.
