(* ===== verification/Proc.v ===== *)
(** * Processes, [proc.c]

    The process table with its state machine, and [fork], [exit], [wait],
    [kill], [sleep]/[wakeup], [growproc] and the scheduler.  Memory is that of a
    page allocator ([PageAllocator]) through the routines of [Vm]; the file
    layer ([filedup], [fileclose], [idup], [iput]) is an interface,
    [FileLayer].  Trap frames and contexts live in the kernel-stack pages, at
    the offsets of [struct trapframe] and [struct context].

    One CPU: a kernel path runs until it gives the CPU up in [sched]. *)

From Stdlib Require Import ZArith Lia String.
From stdpp Require Import base numbers list sets.
From S2P Require Import Prelude Bytes Params Kalloc Vm VmSpace.

Local Open Scope Z_scope.
Local Open Scope kernel_scope.

(** What [proc.c] uses of [file.c], [fs.c] and [log.c]; files and inodes are
    named by their addresses, 0 is the null pointer.  Closing the last end of a
    pipe frees its page, so [fl_fileclose] acts on the allocator too; its result
    are the addresses [pipeclose] calls [wakeup] on. *)
Class FileLayer (St F : Type) := {
  fl_filedup : Z -> M F Z;
  fl_fileclose : Z -> M (St * F) (list Z);
  fl_idup : Z -> M F Z;
  fl_iput : Z -> M F unit;
  fl_begin_op : M F unit;
  fl_end_op : M F unit;
  fl_namei : list Z -> M F Z;
  fl_file : F -> Z -> Prop;
  fl_inode : F -> Z -> Prop;
  fl_filedup_ok s f : fl_file s f ->
    exists s', fl_filedup f s = Ok (f, s') /\
      (forall g, fl_file s g -> fl_file s' g) /\ (forall i, fl_inode s i -> fl_inode s' i);
  fl_idup_ok s i : fl_inode s i ->
    exists s', fl_idup i s = Ok (i, s') /\
      (forall g, fl_file s g -> fl_file s' g) /\ (forall j, fl_inode s j -> fl_inode s' j)
}.

(** ** State *)

Inductive procstate := UNUSED | EMBRYO | SLEEPING | RUNNABLE | RUNNING | ZOMBIE.

#[export] Instance procstate_eq_dec : EqDecision procstate.
Proof. solve_decision. Defined.

(** Sleep channels: the null pointer, a process, [&ticks], any other address. *)
Inductive chan := CNull | CProc (i : nat) | CTicks | CAddr (a : Z).

#[export] Instance chan_eq_dec : EqDecision chan.
Proof. solve_decision. Defined.

Record proc := mkProc {
  p_sz : Z;
  p_pgdir : Z;
  p_kstack : Z;
  p_state : procstate;
  p_pid : Z;
  p_parent : option nat;
  p_tf : Z;
  p_context : Z;
  p_chan : chan;
  p_killed : bool;
  p_ofile : list Z;
  p_cwd : Z;
  p_name : list Z;
  p_status : Z;
  p_guard : Z
}.

Definition set_p_sz (v : Z) (s : proc) : proc :=
  mkProc v (p_pgdir s) (p_kstack s) (p_state s) (p_pid s) (p_parent s) (p_tf s) (p_context s)
    (p_chan s) (p_killed s) (p_ofile s) (p_cwd s) (p_name s) (p_status s) (p_guard s).
Definition set_p_pgdir (v : Z) (s : proc) : proc :=
  mkProc (p_sz s) v (p_kstack s) (p_state s) (p_pid s) (p_parent s) (p_tf s) (p_context s)
    (p_chan s) (p_killed s) (p_ofile s) (p_cwd s) (p_name s) (p_status s) (p_guard s).
Definition set_p_kstack (v : Z) (s : proc) : proc :=
  mkProc (p_sz s) (p_pgdir s) v (p_state s) (p_pid s) (p_parent s) (p_tf s) (p_context s)
    (p_chan s) (p_killed s) (p_ofile s) (p_cwd s) (p_name s) (p_status s) (p_guard s).
Definition set_p_state (v : procstate) (s : proc) : proc :=
  mkProc (p_sz s) (p_pgdir s) (p_kstack s) v (p_pid s) (p_parent s) (p_tf s) (p_context s)
    (p_chan s) (p_killed s) (p_ofile s) (p_cwd s) (p_name s) (p_status s) (p_guard s).
Definition set_p_pid (v : Z) (s : proc) : proc :=
  mkProc (p_sz s) (p_pgdir s) (p_kstack s) (p_state s) v (p_parent s) (p_tf s) (p_context s)
    (p_chan s) (p_killed s) (p_ofile s) (p_cwd s) (p_name s) (p_status s) (p_guard s).
Definition set_p_parent (v : option nat) (s : proc) : proc :=
  mkProc (p_sz s) (p_pgdir s) (p_kstack s) (p_state s) (p_pid s) v (p_tf s) (p_context s)
    (p_chan s) (p_killed s) (p_ofile s) (p_cwd s) (p_name s) (p_status s) (p_guard s).
Definition set_p_tf (v : Z) (s : proc) : proc :=
  mkProc (p_sz s) (p_pgdir s) (p_kstack s) (p_state s) (p_pid s) (p_parent s) v (p_context s)
    (p_chan s) (p_killed s) (p_ofile s) (p_cwd s) (p_name s) (p_status s) (p_guard s).
Definition set_p_context (v : Z) (s : proc) : proc :=
  mkProc (p_sz s) (p_pgdir s) (p_kstack s) (p_state s) (p_pid s) (p_parent s) (p_tf s) v (p_chan s)
    (p_killed s) (p_ofile s) (p_cwd s) (p_name s) (p_status s) (p_guard s).
Definition set_p_chan (v : chan) (s : proc) : proc :=
  mkProc (p_sz s) (p_pgdir s) (p_kstack s) (p_state s) (p_pid s) (p_parent s) (p_tf s)
    (p_context s) v (p_killed s) (p_ofile s) (p_cwd s) (p_name s) (p_status s) (p_guard s).
Definition set_p_killed (v : bool) (s : proc) : proc :=
  mkProc (p_sz s) (p_pgdir s) (p_kstack s) (p_state s) (p_pid s) (p_parent s) (p_tf s)
    (p_context s) (p_chan s) v (p_ofile s) (p_cwd s) (p_name s) (p_status s) (p_guard s).
Definition set_p_ofile (v : list Z) (s : proc) : proc :=
  mkProc (p_sz s) (p_pgdir s) (p_kstack s) (p_state s) (p_pid s) (p_parent s) (p_tf s)
    (p_context s) (p_chan s) (p_killed s) v (p_cwd s) (p_name s) (p_status s) (p_guard s).
Definition set_p_cwd (v : Z) (s : proc) : proc :=
  mkProc (p_sz s) (p_pgdir s) (p_kstack s) (p_state s) (p_pid s) (p_parent s) (p_tf s)
    (p_context s) (p_chan s) (p_killed s) (p_ofile s) v (p_name s) (p_status s) (p_guard s).
Definition set_p_name (v : list Z) (s : proc) : proc :=
  mkProc (p_sz s) (p_pgdir s) (p_kstack s) (p_state s) (p_pid s) (p_parent s) (p_tf s)
    (p_context s) (p_chan s) (p_killed s) (p_ofile s) (p_cwd s) v (p_status s) (p_guard s).
Definition set_p_status (v : Z) (s : proc) : proc :=
  mkProc (p_sz s) (p_pgdir s) (p_kstack s) (p_state s) (p_pid s) (p_parent s) (p_tf s)
    (p_context s) (p_chan s) (p_killed s) (p_ofile s) (p_cwd s) (p_name s) v (p_guard s).
Definition set_p_guard (v : Z) (s : proc) : proc :=
  mkProc (p_sz s) (p_pgdir s) (p_kstack s) (p_state s) (p_pid s) (p_parent s) (p_tf s)
    (p_context s) (p_chan s) (p_killed s) (p_ofile s) (p_cwd s) (p_name s) (p_status s) v.

(** [ptable], [nextpid], [initproc], the process on the CPU, the position of the
    scheduler's scan, and the states of the page allocator and the file layer. *)
Record pst (St F : Type) := mkP {
  t_locked : bool;
  t_procs : list proc;
  t_nextpid : Z;
  t_init : option nat;
  t_cur : option nat;
  t_scan : nat;
  t_kern : St;
  t_fs : F
}.
Arguments mkP {St F} _ _ _ _ _ _ _ _.
Arguments t_locked {St F} _.
Arguments t_procs {St F} _.
Arguments t_nextpid {St F} _.
Arguments t_init {St F} _.
Arguments t_cur {St F} _.
Arguments t_scan {St F} _.
Arguments t_kern {St F} _.
Arguments t_fs {St F} _.

Definition set_t_locked {St F : Type} (v : bool) (s : pst St F) : pst St F :=
  mkP v (t_procs s) (t_nextpid s) (t_init s) (t_cur s) (t_scan s) (t_kern s) (t_fs s).
Definition set_t_procs {St F : Type} (v : list proc) (s : pst St F) : pst St F :=
  mkP (t_locked s) v (t_nextpid s) (t_init s) (t_cur s) (t_scan s) (t_kern s) (t_fs s).
Definition set_t_nextpid {St F : Type} (v : Z) (s : pst St F) : pst St F :=
  mkP (t_locked s) (t_procs s) v (t_init s) (t_cur s) (t_scan s) (t_kern s) (t_fs s).
Definition set_t_init {St F : Type} (v : option nat) (s : pst St F) : pst St F :=
  mkP (t_locked s) (t_procs s) (t_nextpid s) v (t_cur s) (t_scan s) (t_kern s) (t_fs s).
Definition set_t_cur {St F : Type} (v : option nat) (s : pst St F) : pst St F :=
  mkP (t_locked s) (t_procs s) (t_nextpid s) (t_init s) v (t_scan s) (t_kern s) (t_fs s).
Definition set_t_scan {St F : Type} (v : nat) (s : pst St F) : pst St F :=
  mkP (t_locked s) (t_procs s) (t_nextpid s) (t_init s) (t_cur s) v (t_kern s) (t_fs s).
Definition set_t_kern {St F : Type} (v : St) (s : pst St F) : pst St F :=
  mkP (t_locked s) (t_procs s) (t_nextpid s) (t_init s) (t_cur s) (t_scan s) v (t_fs s).
Definition set_t_fs {St F : Type} (v : F) (s : pst St F) : pst St F :=
  mkP (t_locked s) (t_procs s) (t_nextpid s) (t_init s) (t_cur s) (t_scan s) (t_kern s) v.

(** Offsets in [struct trapframe] and [struct context], and their sizes. *)
Definition TF_EAX : Z := 28.
Definition TF_ES : Z := 40.
Definition TF_DS : Z := 44.
Definition TF_TRAPNO : Z := 48.
Definition TF_EIP : Z := 56.
Definition TF_CS : Z := 60.
Definition TF_EFLAGS : Z := 64.
Definition TF_ESP : Z := 68.
Definition TF_SS : Z := 72.
Definition TF_SIZE : Z := 76.
Definition CTX_EIP : Z := 16.
Definition CTX_SIZE : Z := 20.

(** [safestrcpy(dst, src, 16)] between the name fields of two processes. *)
Definition name_copy (dst src : list Z) : list Z :=
  load (safestrcpy (store (store (fun _ => 0) 0 dst) 16 src) 0 16 16) 0 16.

Section Proc.
Context {St F : Type} {PA : PageAllocator St} {FL : FileLayer St F}.

(** Addresses the linker gives: start of the kernel's data, [trapret], [forkret]. *)
Variables (data trapret forkret : Z).

Abbreviation PM := (M (pst St F)).

(** Running a routine of the memory or of the file layer. *)
Definition kern {A} (c : M St A) : PM A :=
  fun s => obind (c (t_kern s)) (fun '(a, k) => Ok (a, set_t_kern k s)).
Definition fsop {A} (c : M F A) : PM A :=
  fun s => obind (c (t_fs s)) (fun '(a, f) => Ok (a, set_t_fs f s)).
Definition bothop {A} (c : M (St * F) A) : PM A :=
  fun s => obind (c (t_kern s, t_fs s)) (fun '(a, (k, f)) => Ok (a, set_t_fs f (set_t_kern k s))).

Definition plock : PM unit := acquire t_locked set_t_locked.
Definition punlock : PM unit := release t_locked set_t_locked.

(** [ptable.proc[i]], read and updated. *)
Definition getp (i : nat) : PM proc :=
  fun s => match t_procs s !! i with Some p => Ok (p, s) | None => Undef end.
Definition setp (i : nat) (f : proc -> proc) : PM unit :=
  mset (fun s => set_t_procs (alter f i (t_procs s)) s).

(** [myproc()]; every use here dereferences it. *)
Definition myproc : PM nat :=
  fun s => match t_cur s with Some i => Ok (i, s) | None => Undef end.

(** The first index from [i] on whose process satisfies [P]. *)
Fixpoint find_proc (P : proc -> bool) (i : nat) (ps : list proc) : option nat :=
  match ps with
  | [] => None
  | p :: ps' => if P p then Some i else find_proc P (Datatypes.S i) ps'
  end.

Definition is_state (st : procstate) (p : proc) : bool := bool_decide (p_state p = st).

(** The index of the new process, [None] for the null pointer. *)
Definition allocproc : PM (option nat) :=
  plock ;;!
  let! ps := mget t_procs in
  match find_proc (is_state UNUSED) 0 ps with
  | None => punlock ;;! mret None
  | Some i =>
      setp i (set_p_state EMBRYO) ;;!
      let! pid := mget t_nextpid in
      setp i (set_p_pid pid) ;;!
      mset (fun s => set_t_nextpid (s32 (pid + 1)) s) ;;!
      punlock ;;!
      let! ks := kern pa_kalloc in
      setp i (set_p_kstack ks) ;;!
      if ks =? 0 then setp i (set_p_state UNUSED) ;;! mret None
      else
        let sp := ks + KSTACKSIZE - TF_SIZE in
        setp i (set_p_tf sp) ;;!
        let sp := sp - 4 in
        kern (wr sp trapret) ;;!
        let sp := sp - CTX_SIZE in
        setp i (set_p_context sp) ;;!
        kern (kmemset sp 0 CTX_SIZE) ;;!
        kern (wr (sp + CTX_EIP) forkret) ;;!
        mret (Some i)
  end.

(** Writing a 16-bit field. *)
Definition wr16 (a v : Z) : M St unit :=
  mset (fun s => pa_setmem (put16 (pa_mem s) a v) s).

(** [initcode]: the bytes of the program linked into the kernel. *)
Definition userinit (initcode : list Z) : PM unit :=
  let! np := allocproc in
  mset (fun s => set_t_init np s) ;;!
  match np with
  | None => mundef
  | Some i =>
      let! pgdir := kern (setupkvm data) in
      setp i (set_p_pgdir pgdir) ;;!
      if pgdir =? 0 then mpanic "userinit: out of memory?"
      else
        kern (inituvm pgdir initcode) ;;!
        setp i (set_p_sz PGSIZE) ;;!
        let! p := getp i in
        let tf := p_tf p in
        let ds := Z.lor (Z.shiftl SEG_UDATA 3) DPL_USER in
        kern (kmemset tf 0 TF_SIZE) ;;!
        kern (wr16 (tf + TF_CS) (Z.lor (Z.shiftl SEG_UCODE 3) DPL_USER)) ;;!
        kern (wr16 (tf + TF_DS) ds) ;;!
        kern (wr16 (tf + TF_ES) ds) ;;!
        kern (wr16 (tf + TF_SS) ds) ;;!
        kern (wr (tf + TF_EFLAGS) FL_IF) ;;!
        kern (wr (tf + TF_ESP) PGSIZE) ;;!
        kern (wr (tf + TF_EIP) 0) ;;!
        setp i (fun p => set_p_name (name_copy (p_name p) [105; 110; 105; 116; 99; 111; 100; 101; 0]) p) ;;!
        let! cwd := fsop (fl_namei [47; 0]) in
        setp i (set_p_cwd cwd) ;;!
        plock ;;!
        setp i (set_p_state RUNNABLE) ;;!
        punlock
  end.

(** [growproc(n)], [n] an [int]; [lcr3] only reloads the page table. *)
Definition growproc (n : Z) : PM Z :=
  let! cur := myproc in
  let! p := getp cur in
  let sz := p_sz p in
  if n >? 0 then
    let! sz' := kern (allocuvm (p_pgdir p) sz (u32 (sz + n))) in
    if sz' =? 0 then mret (-1) else setp cur (set_p_sz sz') ;;! mret 0
  else if n <? 0 then
    let! sz' := kern (deallocuvm (p_pgdir p) sz (u32 (sz + n))) in
    if sz' =? 0 then mret (-1) else setp cur (set_p_sz sz') ;;! mret 0
  else mret 0.

(** [for (i = 0; i < NOFILE; i++) if (curproc->ofile[i]) np->ofile[i] = filedup(...)]. *)
Definition fork_files (cur np : nat) : PM unit :=
  for_ (Z.to_nat NOFILE) 0 (fun i =>
    let! p := getp cur in
    match p_ofile p !! Z.to_nat i with
    | None => mundef
    | Some f =>
        mwhen (negb (f =? 0))
          (let! g := fsop (fl_filedup f) in
           setp np (fun q => set_p_ofile (<[Z.to_nat i := g]> (p_ofile q)) q))
    end).

Definition fork : PM Z :=
  let! cur := myproc in
  let! np := allocproc in
  match np with
  | None => mret (-1)
  | Some i =>
      let! p := getp cur in
      let! pgdir := kern (copyuvm data (p_pgdir p) (p_sz p)) in
      setp i (set_p_pgdir pgdir) ;;!
      let! q := getp i in
      if pgdir =? 0 then
        kern (pa_kfree (p_kstack q)) ;;!
        setp i (set_p_kstack 0) ;;!
        setp i (set_p_state UNUSED) ;;!
        mret (-1)
      else
        setp i (set_p_sz (p_sz p)) ;;!
        setp i (set_p_parent (Some cur)) ;;!
        kern (kmemmove (p_tf q) (p_tf p) TF_SIZE) ;;!
        kern (wr (p_tf q + TF_EAX) 0) ;;!
        fork_files cur i ;;!
        let! cwd := fsop (fl_idup (p_cwd p)) in
        setp i (set_p_cwd cwd) ;;!
        setp i (fun r => set_p_name (name_copy (p_name r) (p_name p)) r) ;;!
        let pid := p_pid q in
        plock ;;!
        setp i (set_p_state RUNNABLE) ;;!
        punlock ;;!
        mret pid
  end.

(** [wakeup1]; the caller holds the lock. *)
Definition wake (c : chan) (p : proc) : proc :=
  if is_state SLEEPING p && bool_decide (p_chan p = c) then set_p_state RUNNABLE p else p.
Definition wakeup1 (c : chan) : PM unit :=
  mset (fun s => set_t_procs (wake c <$> t_procs s) s).
Definition wakeup (c : chan) : PM unit := plock ;;! wakeup1 c ;;! punlock.
Definition wakeups (cs : list Z) : PM unit := foldr (fun c k => wakeup (CAddr c) ;;! k) (mret tt) cs.

(** [sched]: the CPU goes to the scheduler, which releases the lock.  [ncli] and
    the interrupt flag are those of [Spinlock]. *)
Definition sched : PM unit :=
  let! cur := myproc in
  let! held := mget t_locked in
  if negb held then mpanic "sched ptable.lock"
  else
    let! p := getp cur in
    if is_state RUNNING p then mpanic "sched running"
    else mset (fun s => set_t_cur None (set_t_locked false s)).

Definition yield : PM unit :=
  plock ;;!
  let! cur := myproc in
  setp cur (set_p_state RUNNABLE) ;;!
  sched.

(** [sleep(chan, lk)] up to the switch, with the process table locked; for a
    lock [lk] other than [ptable.lock] the caller has exchanged the two. *)
Definition sleep (c : chan) : PM unit :=
  let! cur := myproc in
  setp cur (set_p_chan c) ;;!
  setp cur (set_p_state SLEEPING) ;;!
  sched.

Definition fileclose_all (cur : nat) : PM unit :=
  for_ (Z.to_nat NOFILE) 0 (fun fd =>
    let! p := getp cur in
    match p_ofile p !! Z.to_nat fd with
    | None => mundef
    | Some f =>
        mwhen (negb (f =? 0))
          (let! ws := bothop (fl_fileclose f) in
           wakeups ws ;;!
           setp cur (fun q => set_p_ofile (<[Z.to_nat fd := 0]> (p_ofile q)) q))
    end).

(** Pass abandoned children to init. *)
Definition reparent (cur : nat) : PM unit :=
  for_ (Z.to_nat NPROC) 0 (fun i =>
    let! p := getp (Z.to_nat i) in
    mwhen (bool_decide (p_parent p = Some cur))
      (let! init := mget t_init in
       setp (Z.to_nat i) (set_p_parent init) ;;!
       mwhen (is_state ZOMBIE p)
         (match init with Some j => wakeup1 (CProc j) | None => wakeup1 CNull end))).

Definition exit (status : Z) : PM unit :=
  let! cur := myproc in
  setp cur (set_p_status status) ;;!
  let! init := mget t_init in
  if bool_decide (init = Some cur) then mpanic "init exiting"
  else
    fileclose_all cur ;;!
    fsop fl_begin_op ;;!
    let! p := getp cur in
    fsop (fl_iput (p_cwd p)) ;;!
    fsop fl_end_op ;;!
    setp cur (set_p_cwd 0) ;;!
    plock ;;!
    let! p := getp cur in
    wakeup1 (match p_parent p with Some j => CProc j | None => CNull end) ;;!
    reparent cur ;;!
    setp cur (set_p_state ZOMBIE) ;;!
    sched.

(** What one pass of the loop of [wait] comes to: a child was collected, there
    is nothing to wait for, or the process went to sleep and will run the pass
    again. *)
Inductive wait_res := WFound (pid status : Z) | WNone | WSleep.

Definition wait_pass : PM wait_res :=
  let! cur := myproc in
  let! ps := mget t_procs in
  let child p := bool_decide (p_parent p = Some cur) in
  match find_proc (fun p => child p && is_state ZOMBIE p) 0 ps with
  | Some i =>
      let! p := getp i in
      let pid := p_pid p in
      kern (pa_kfree (p_kstack p)) ;;!
      setp i (set_p_kstack 0) ;;!
      kern (freevm (p_pgdir p)) ;;!
      setp i (set_p_pid 0) ;;!
      setp i (set_p_parent None) ;;!
      setp i (fun q => set_p_name (<[0%nat := 0]> (p_name q)) q) ;;!
      setp i (set_p_killed false) ;;!
      setp i (set_p_state UNUSED) ;;!
      punlock ;;!
      let! p := getp i in
      mret (WFound pid (p_status p))
  | None =>
      let! p := getp cur in
      if negb (existsb child ps) || p_killed p then punlock ;;! mret WNone
      else sleep (CProc cur) ;;! mret WSleep
  end.

(** [wait]: takes the lock and runs the first pass. *)
Definition wait : PM wait_res := plock ;;! wait_pass.

Definition kill (pid : Z) : PM Z :=
  plock ;;!
  let! ps := mget t_procs in
  match find_proc (fun p => p_pid p =? pid) 0 ps with
  | Some i =>
      setp i (set_p_killed true) ;;!
      let! p := getp i in
      mwhen (is_state SLEEPING p) (setp i (set_p_state RUNNABLE)) ;;!
      punlock ;;!
      mret 0
  | None => punlock ;;! mret (-1)
  end.

(** The next process the scheduler's scan comes to, from its current position
    and, if it reaches the end of the table, from the start. *)
Definition pick (scan : nat) (ps : list proc) : option nat :=
  match find_proc (is_state RUNNABLE) scan (drop scan ps) with
  | Some i => Some i
  | None => find_proc (is_state RUNNABLE) 0 ps
  end.

(** One round of [scheduler]: switch to the chosen process, which clears its
    channel if it was asleep and releases the lock ([forkret], [yield], the
    tail of [sleep]).  [false]: no process is runnable, the scan starts over. *)
Definition scheduler : PM bool :=
  plock ;;!
  let! scan := mget t_scan in
  let! ps := mget t_procs in
  match pick scan ps with
  | Some i =>
      setp i (set_p_state RUNNING) ;;!
      mset (fun s => set_t_cur (Some i) (set_t_scan (Datatypes.S i) s)) ;;!
      setp i (set_p_chan CNull) ;;!
      punlock ;;!
      mret true
  | None => mset (set_t_scan 0) ;;! punlock ;;! mret false
  end.

End Proc.
