(* ===== verification/ProcInv.v ===== *)
(** * Invariants of the process table

    The process table as a state machine: [pstep] runs one operation of
    [Proc] to the point where it returns or gives the CPU up, and [tinv] is
    what every reachable table satisfies; among other things no [wait] sleeps
    while one of its children is a zombie (no lost wakeup) and no process is
    left without a living parent.  Also the round-robin scheduler's fairness. *)

From Stdlib Require Import ZArith Lia String.
From stdpp Require Import base numbers list sets.
From S2P Require Import Prelude Bytes Params Kalloc Vm VmSpace Proc.

Local Open Scope Z_scope.
Local Open Scope kernel_scope.

Definition alive (p : proc) : Prop := p_state p <> UNUSED /\ p_state p <> ZOMBIE.

(** Between operations: the table, the running process, init, the next pid. *)
Record tinv (ps : list proc) (cur init : option nat) (next : Z) : Prop := {
  ti_len : length ps = Z.to_nat NPROC;
  ti_cur i : cur = Some i -> is_Some (ps !! i);
  ti_run i p : ps !! i = Some p -> p_state p = RUNNING <-> cur = Some i;
  ti_embryo i p : ps !! i = Some p -> p_state p <> EMBRYO;
  ti_next : 0 < next;
  ti_pid i p : ps !! i = Some p -> p_state p <> UNUSED -> 0 < p_pid p < next;
  ti_uniq i j p q : ps !! i = Some p -> ps !! j = Some q ->
    p_state p <> UNUSED -> p_state q <> UNUSED -> p_pid p = p_pid q -> i = j;
  ti_unused i p : ps !! i = Some p -> p_state p = UNUSED -> p_parent p = None;
  ti_init : exists k p, init = Some k /\ ps !! k = Some p /\ alive p;
  ti_orphan i p : ps !! i = Some p -> p_state p <> UNUSED -> init <> Some i -> is_Some (p_parent p);
  ti_parent i j p : ps !! i = Some p -> p_parent p = Some j ->
    exists q, ps !! j = Some q /\ alive q;
  ti_self i p : ps !! i = Some p -> p_parent p <> Some i;
  ti_iparent i p : ps !! i = Some p -> init = Some i -> p_parent p = None;
  ti_chan i k p : ps !! i = Some p -> p_state p = SLEEPING -> p_chan p = CProc k -> k = i;
  ti_wait i j p c : ps !! j = Some p -> p_state p = SLEEPING -> p_chan p = CProc j ->
    ps !! i = Some c -> p_parent c = Some j -> p_state c <> ZOMBIE
}.

(** Channels other than those of [wait]. *)
Definition not_wait_chan (c : chan) : Prop := match c with CProc _ => False | _ => True end.

Section Steps.
Context {St F : Type} {PA : PageAllocator St} {FL : FileLayer St F}.
Variables (data trapret forkret : Z).

(** One operation of the kernel on processes, until it returns or switches;
    [fork] as long as [nextpid] has not reached the largest [int]. *)
Inductive pstep : pst St F -> pst St F -> Prop :=
| st_fork r s s' : t_nextpid s < 2 ^ 31 - 1 -> fork data trapret forkret s = Ok (r, s') -> pstep s s'
| st_exit n s s' : exit n s = Ok (tt, s') -> pstep s s'
| st_wait r s s' : wait s = Ok (r, s') -> pstep s s'
| st_kill pid r s s' : kill pid s = Ok (r, s') -> pstep s s'
| st_yield s s' : yield s = Ok (tt, s') -> pstep s s'
| st_sleep c s s' : not_wait_chan c -> (plock ;;! sleep c) s = Ok (tt, s') -> pstep s s'
| st_wakeup c s s' : wakeup c s = Ok (tt, s') -> pstep s s'
| st_grow n r s s' : growproc n s = Ok (r, s') -> pstep s s'
| st_scheduler r s s' : t_cur s = None -> scheduler s = Ok (r, s') -> pstep s s'.

Inductive reachable : pst St F -> pst St F -> Prop :=
| reach_refl s : reachable s s
| reach_step s1 s2 s3 : reachable s1 s2 -> pstep s2 s3 -> reachable s1 s3.

Definition sinv (s : pst St F) : Prop :=
  t_locked s = false /\ tinv (t_procs s) (t_cur s) (t_init s) (t_nextpid s).

(** ** Rules for the primitives *)

Lemma post_kern {A} (c : M St A) (s : pst St F) (Q : A -> pst St F -> Prop) :
  (forall a k, Q a (set_t_kern k s)) -> post (kern c) s Q.
Proof.
  intros H a s' E. unfold kern in E. destruct (c (t_kern s)) as [[b k]| | | |]; try done.
  injection E as <- <-. apply H.
Qed.

Lemma post_fsop {A} (c : M F A) (s : pst St F) (Q : A -> pst St F -> Prop) :
  (forall a k, Q a (set_t_fs k s)) -> post (fsop c) s Q.
Proof.
  intros H a s' E. unfold fsop in E. destruct (c (t_fs s)) as [[b k]| | | |]; try done.
  injection E as <- <-. apply H.
Qed.

Lemma post_bothop {A} (c : M (St * F) A) (s : pst St F) (Q : A -> pst St F -> Prop) :
  (forall a k f, Q a (set_t_fs f (set_t_kern k s))) -> post (bothop c) s Q.
Proof.
  intros H a s' E. unfold bothop in E. destruct (c (t_kern s, t_fs s)) as [[b [k f]]| | | |]; try done.
  injection E as <- <-. apply H.
Qed.

Lemma post_getp i (s : pst St F) (Q : proc -> pst St F -> Prop) :
  (forall p, t_procs s !! i = Some p -> Q p s) -> post (getp i) s Q.
Proof. intros H a s' E. unfold getp in E. destruct (t_procs s !! i); [|done]. injection E as <- <-. auto. Qed.

Lemma post_myproc (s : pst St F) (Q : nat -> pst St F -> Prop) :
  (forall i, t_cur s = Some i -> Q i s) -> post myproc s Q.
Proof. intros H a s' E. unfold myproc in E. destruct (t_cur s); [|done]. injection E as <- <-. auto. Qed.

End Steps.

(** Reduces projections of updated states. *)
Ltac pcbn :=
  cbn [t_locked t_procs t_nextpid t_init t_cur t_scan t_kern t_fs set_t_locked set_t_procs
    set_t_nextpid set_t_init set_t_cur set_t_scan set_t_kern set_t_fs obind mbind mret mget mset].

Lemma pst_eq {St F} (s1 s2 : pst St F) :
  t_locked s1 = t_locked s2 -> t_procs s1 = t_procs s2 -> t_nextpid s1 = t_nextpid s2 ->
  t_init s1 = t_init s2 -> t_cur s1 = t_cur s2 -> t_scan s1 = t_scan s2 -> t_kern s1 = t_kern s2 ->
  t_fs s1 = t_fs s2 -> s1 = s2.
Proof. destruct s1, s2; cbn; intros; subst; done. Qed.

(** Runs the next primitive of the program in the goal. *)
Ltac prun :=
  repeat first
    [ apply post_bind
    | apply post_get | apply post_set | apply post_ret | apply post_panic | apply post_undef
    | apply post_acquire; intros ? | apply post_release; intros ?
    | apply post_kern; intros ? ? | apply post_fsop; intros ? ? | apply post_bothop; intros ? ? ?
    | (let i := fresh "me" in let H := fresh "Hme" in apply post_myproc; intros i H)
    | (let p := fresh "gp" in let H := fresh "Hgp" in apply post_getp; intros p H)
    | progress unfold setp, plock, punlock
    | progress cbn [t_locked t_procs t_nextpid t_init t_cur t_scan t_kern t_fs set_t_locked set_t_procs
        set_t_nextpid set_t_init set_t_cur set_t_scan set_t_kern set_t_fs] in * ].

(** ** Updates of the table *)

Lemma alter_Some {A} (f : A -> A) i (l : list A) j x y :
  l !! i = Some x -> alter f i l !! j = Some y -> (j = i /\ y = f x) \/ (j <> i /\ l !! j = Some y).
Proof.
  intros Hi. destruct (decide (i = j)) as [<-|Hne].
  - rewrite list_lookup_alter_eq, Hi. intros [= <-]. by left.
  - rewrite list_lookup_alter_ne by done. intros H. right. by split.
Qed.

Lemma alter_lookup_eq {A} (f : A -> A) i (l : list A) x :
  l !! i = Some x -> alter f i l !! i = Some (f x).
Proof. intros H. by rewrite list_lookup_alter_eq, H. Qed.

Section Table.
Variables (ps : list proc) (cur init : option nat) (next : Z) (i : nat) (p : proc) (f : proc -> proc).
Hypothesis (Hinv : tinv ps cur init next) (Hi : ps !! i = Some p).

(** Cases on which slot of [alter f i ps] a hypothesis looks up. *)
Ltac acase :=
  repeat match goal with
  | H : alter _ _ _ !! _ = Some _ |- _ =>
      apply (alter_Some _ _ _ _ p _ Hi) in H as [[-> ->]|[? H]]
  end.

Lemma alter_other j q : ps !! j = Some q -> j <> i -> alter f i ps !! j = Some q.
Proof. intros Hj Hne. by rewrite list_lookup_alter_ne. Qed.

(** A change of fields the invariant does not look at. *)
Lemma tinv_same :
  p_state (f p) = p_state p -> p_pid (f p) = p_pid p -> p_parent (f p) = p_parent p ->
  p_chan (f p) = p_chan p -> tinv (alter f i ps) cur init next.
Proof.
  intros Es Ei Ep Ec.
  assert (Hq : forall j q, ps !! j = Some q -> exists q', alter f i ps !! j = Some q' /\ p_state q' = p_state q).
  { intros j q Hj. destruct (decide (j = i)) as [->|Hne].
    - exists (f p). rewrite (alter_lookup_eq f i ps p Hi). split; [done|]. congruence.
    - exists q. split; [|done]. by apply alter_other. }
  destruct Hinv. constructor; intros; acase; rewrite ?Es, ?Ei, ?Ep, ?Ec in *; eauto.
  - by rewrite length_alter.
  - apply lookup_lt_is_Some. rewrite length_alter. apply lookup_lt_is_Some. eauto.
  - destruct ti_init0 as (k & q & ? & ? & Hal). destruct (Hq k q) as (q' & ? & E); [done|].
    exists k, q'. unfold alive. by rewrite E.
  - destruct (ti_parent0 i j p) as (q & ? & Hal); [done|done|]. destruct (Hq j q) as (q' & ? & E); [done|].
    exists q'. unfold alive. by rewrite E.
  - destruct (ti_parent0 i0 j p0) as (q & ? & Hal); [done|done|]. destruct (Hq j q) as (q' & ? & E); [done|].
    exists q'. unfold alive. by rewrite E.
Qed.

(** A living process changes state and stays alive; [cur'] is then running. *)
Lemma tinv_live cur' :
  alive p -> alive (f p) -> p_state (f p) <> EMBRYO -> p_pid (f p) = p_pid p -> p_parent (f p) = p_parent p ->
  (p_state (f p) = RUNNING <-> cur' = Some i) -> (forall j, j <> i -> cur = Some j <-> cur' = Some j) ->
  (forall k, p_state (f p) = SLEEPING -> p_chan (f p) = CProc k ->
     k = i /\ forall j c, ps !! j = Some c -> p_parent c = Some i -> p_state c <> ZOMBIE) ->
  tinv (alter f i ps) cur' init next.
Proof.
  intros Hal [Ha1 Ha2] He Ei Ep Hrun Hcur Hsl.
  assert (Hq : forall j q, ps !! j = Some q -> alive q -> exists q', alter f i ps !! j = Some q' /\ alive q').
  { intros j q Hj Hq. destruct (decide (j = i)) as [->|Hne].
    - exists (f p). by rewrite (alter_lookup_eq f i ps p Hi).
    - exists q. split; [|done]. by apply alter_other. }
  destruct Hal as [Hb1 Hb2]. destruct Hinv.
  constructor; intros; acase; rewrite ?Ei, ?Ep in *; eauto; try done.
  - by rewrite length_alter.
  - apply lookup_lt_is_Some. rewrite length_alter. apply lookup_lt_is_Some.
    destruct (decide (i0 = i)) as [->|]; [eauto|]. apply ti_cur0. by apply Hcur.
  - rewrite ti_run0 by done. by apply Hcur.
  - destruct ti_init0 as (k & q & ? & ? & Hal). destruct (Hq k q) as (q' & ? & E); [done|done|].
    by exists k, q'.
  - destruct (ti_parent0 i j p) as (q & ? & Hal); [done|done|]. by apply (Hq j q).
  - destruct (ti_parent0 i0 j p0) as (q & ? & Hal); [done|done|]. by apply (Hq j q).
  - by apply Hsl.
  - destruct (Hsl i) as [_ Hz]; [done|done|]. by apply (Hz i0 c).
Qed.

(** An unused slot that stays unused. *)
Lemma tinv_unused next' :
  next <= next' -> p_state p = UNUSED -> p_state (f p) = UNUSED -> p_parent (f p) = p_parent p ->
  tinv (alter f i ps) cur init next'.
Proof.
  intros Hn Eu Eu' Ep.
  assert (Hq : forall j q, ps !! j = Some q -> alive q -> alter f i ps !! j = Some q).
  { intros j q Hj [Hq _]. apply alter_other; [done|]. intros ->. congruence. }
  destruct Hinv. constructor; intros; acase; rewrite ?Ep in *; eauto; try congruence.
  - by rewrite length_alter.
  - apply lookup_lt_is_Some. rewrite length_alter. apply lookup_lt_is_Some. eauto.
  - split; [congruence|]. intros E. apply (ti_run0 i p Hi) in E. congruence.
  - lia.
  - destruct (ti_pid0 i0 p0); [done|done|]. lia.
  - destruct ti_init0 as (k & q & ? & ? & Hal). exists k, q. auto.
  - destruct (ti_parent0 i j p) as (q & ? & Hal); [done|done|]. eauto.
  - destruct (ti_parent0 i0 j p0) as (q & ? & Hal); [done|done|]. eauto.
Qed.

(** [fork]: an unused slot becomes a runnable child of the running process. *)
Lemma tinv_new c :
  cur = Some c -> p_state p = UNUSED -> p_state (f p) = RUNNABLE -> p_parent (f p) = Some c ->
  p_pid (f p) = next -> tinv (alter f i ps) cur init (next + 1).
Proof.
  intros Ec Eu Eu' Ep Ei. pose proof (ti_unused _ _ _ _ Hinv i p Hi Eu) as Hnop.
  assert (Hq : forall j q, ps !! j = Some q -> alive q -> alter f i ps !! j = Some q).
  { intros j q Hj [Hq _]. apply alter_other; [done|]. intros ->. congruence. }
  assert (Hc : exists q, ps !! c = Some q /\ p_state q = RUNNING).
  { destruct (ti_cur _ _ _ _ Hinv c Ec) as [q Hq']. exists q. split; [done|]. by apply (ti_run _ _ _ _ Hinv c q). }
  destruct Hc as (qc & Hqc & Hrc).
  destruct Hinv. constructor; intros; acase; rewrite ?Ep, ?Ei in *; eauto; try congruence.
  - by rewrite length_alter.
  - apply lookup_lt_is_Some. rewrite length_alter. apply lookup_lt_is_Some. eauto.
  - split; [congruence|]. intros E. rewrite E in Ec. injection Ec as ->. congruence.
  - lia.
  - lia.
  - destruct (ti_pid0 i0 p0); [done|done|]. lia.
  - destruct (ti_pid0 i0 p0); [done|done|]. lia.
  - destruct (ti_pid0 j q); [done|done|]. lia.
  - destruct ti_init0 as (k & q & ? & ? & Hal). exists k, q. auto.
  - exists qc. injection H0 as <-. split; [|split; congruence]. apply alter_other; [done|]. intros ->. congruence.
  - destruct (ti_parent0 i0 j p0) as (q & ? & Hal); [done|done|]. eauto.
  - destruct ti_init0 as (k & q & Ek & Hk & [Hal _]). rewrite Ek in H0. injection H0 as ->. congruence.
Qed.

(** [wait]: a zombie's slot becomes unused. *)
Lemma tinv_collect :
  p_state p = ZOMBIE -> p_state (f p) = UNUSED -> p_parent (f p) = None -> tinv (alter f i ps) cur init next.
Proof.
  intros Eu Eu' Ep.
  assert (Hq : forall j q, ps !! j = Some q -> alive q -> alter f i ps !! j = Some q).
  { intros j q Hj [_ Hq]. apply alter_other; [done|]. intros ->. congruence. }
  destruct Hinv. constructor; intros; acase; rewrite ?Ep in *; eauto; try congruence.
  - by rewrite length_alter.
  - apply lookup_lt_is_Some. rewrite length_alter. apply lookup_lt_is_Some. eauto.
  - split; [congruence|]. intros E. apply (ti_run0 i p Hi) in E. congruence.
  - destruct ti_init0 as (k & q & ? & ? & Hal). exists k, q. auto.
  - destruct (ti_parent0 i0 j p0) as (q & ? & Hal); [done|done|]. eauto.
Qed.

(** An abandoned child passes to init. *)
Lemma tinv_adopt c k :
  p_parent p = Some c -> init = Some k ->
  (p_state p = ZOMBIE -> forall q, ps !! k = Some q -> p_state q = SLEEPING -> p_chan q <> CProc k) ->
  f = set_p_parent init -> tinv (alter f i ps) cur init next.
Proof.
  intros Hc Hk Hz ->.
  assert (Hq : forall j q, ps !! j = Some q -> exists q', alter (set_p_parent init) i ps !! j = Some q' /\ p_state q' = p_state q).
  { intros j q Hj. destruct (decide (j = i)) as [->|Hne].
    - exists (set_p_parent init p). rewrite (alter_lookup_eq _ i ps p Hi). split; [done|]. cbn. congruence.
    - exists q. split; [|done]. by rewrite list_lookup_alter_ne. }
  assert (Hki : k <> i).
  { intros ->. by rewrite (ti_iparent _ _ _ _ Hinv i p Hi Hk) in Hc. }
  destruct Hinv. constructor; intros; acase; cbn in *; eauto; try congruence.
  - by rewrite length_alter.
  - apply lookup_lt_is_Some. rewrite length_alter. apply lookup_lt_is_Some. eauto.
  - by rewrite (ti_unused0 i p Hi) in Hc.
  - destruct ti_init0 as (k' & q & ? & ? & Hal). destruct (Hq k' q) as (q' & ? & E); [done|].
    exists k', q'. unfold alive. by rewrite E.
  - destruct ti_init0 as (k' & q & ? & ? & Hal). destruct (Hq k' q) as (q' & ? & E); [done|].
    replace j with k' by congruence. exists q'. unfold alive. by rewrite E.
  - destruct (ti_parent0 i0 j p0) as (q & ? & Hal); [done|done|]. destruct (Hq j q) as (q' & ? & E); [done|].
    exists q'. unfold alive. by rewrite E.
  - intros E. apply (Hz E p0); [congruence|done|congruence].
Qed.

(** [exit]: the running process becomes a zombie. *)
Lemma tinv_exit :
  cur = Some i -> init <> Some i -> p_state (f p) = ZOMBIE -> p_pid (f p) = p_pid p ->
  p_parent (f p) = p_parent p -> (forall j q, ps !! j = Some q -> p_parent q <> Some i) ->
  (forall j q, p_parent p = Some j -> ps !! j = Some q -> p_state q = SLEEPING -> p_chan q <> CProc j) ->
  tinv (alter f i ps) None init next.
Proof.
  intros Hc Hni Ez Ei Ep Hch Hpar.
  assert (Hr : p_state p = RUNNING) by (by apply (ti_run _ _ _ _ Hinv i p)).
  assert (Hq : forall j q, ps !! j = Some q -> j <> i -> alter f i ps !! j = Some q) by (intros; by apply alter_other).
  destruct Hinv. constructor; intros; acase; rewrite ?Ei, ?Ep in *; eauto; try congruence.
  - by rewrite length_alter.
  - split; congruence.
  - split; [|done]. intros E. apply (ti_run0 i0 p0) in E; [|done]. congruence.
  - apply (ti_pid0 i p); congruence.
  - apply (ti_uniq0 i0 i p0 p); try done; congruence.
  - apply (ti_uniq0 i j p q); try done; congruence.
  - destruct ti_init0 as (k & q & ? & ? & Hal). exists k, q. split_and!; try done. apply Hq; congruence.
  - apply (ti_orphan0 i p); try done; congruence.
  - destruct (ti_parent0 i j p) as (q & ? & Hal); [done|done|]. exists q. split; [|done]. apply Hq; [done|].
    intros ->. by apply (ti_self0 i p).
  - destruct (ti_parent0 i0 j p0) as (q & ? & Hal); [done|done|]. exists q. split; [|done]. apply Hq; [done|].
    intros ->. by apply (Hch i0 p0).
  - intros _. by apply (Hpar j p0).
Qed.

End Table.

Lemma fmap_Some_lookup {A} (g : A -> A) (l : list A) j y :
  (g <$> l) !! j = Some y -> exists x, l !! j = Some x /\ y = g x.
Proof. rewrite list_lookup_fmap. destruct (l !! j) as [x|]; [|done]. intros [= <-]. eauto. Qed.

(** What [wakeup1] does to a process. *)
Lemma wake_props c p :
  p_pid (wake c p) = p_pid p /\ p_parent (wake c p) = p_parent p /\ p_chan (wake c p) = p_chan p /\
  (p_state (wake c p) = p_state p \/
   (p_state p = SLEEPING /\ p_chan p = c /\ p_state (wake c p) = RUNNABLE)) /\
  (p_state (wake c p) = SLEEPING -> p_chan p <> c).
Proof.
  unfold wake, is_state. destruct (bool_decide_reflect (p_state p = SLEEPING)) as [E|E];
    destruct (bool_decide_reflect (p_chan p = c)) as [E'|E']; cbn; split_and!; auto; congruence.
Qed.

Lemma wake_alive c p : alive (wake c p) <-> alive p.
Proof.
  destruct (wake_props c p) as (_ & _ & _ & [E|(E1 & _ & E2)] & _); unfold alive.
  - by rewrite E.
  - rewrite E1, E2. split; intros _; by split.
Qed.

Lemma tinv_wake ps cur init next c : tinv ps cur init next -> tinv (wake c <$> ps) cur init next.
Proof.
  intros [].
  assert (Hst : forall q st, st <> SLEEPING -> st <> RUNNABLE -> p_state (wake c q) = st <-> p_state q = st).
  { intros q st H1 H2. destruct (wake_props c q) as (_ & _ & _ & [E|(E1 & _ & E2)] & _); [by rewrite E|].
    rewrite E1, E2. split; congruence. }
  assert (Hsl : forall q, p_state (wake c q) = SLEEPING -> p_state q = SLEEPING).
  { intros q. destruct (wake_props c q) as (_ & _ & _ & [E|(E1 & _ & E2)] & _); [by rewrite E|congruence]. }
  assert (Hal : forall j q, ps !! j = Some q -> alive q -> (wake c <$> ps) !! j = Some (wake c q) /\ alive (wake c q)).
  { intros j q Hj Hq. rewrite list_lookup_fmap, Hj. split; [done|]. by apply wake_alive. }
  assert (Hpid : forall q, p_pid (wake c q) = p_pid q) by apply wake_props.
  assert (Hpar : forall q, p_parent (wake c q) = p_parent q) by apply wake_props.
  assert (Hch : forall q, p_chan (wake c q) = p_chan q) by apply wake_props.
  constructor; intros;
    repeat match goal with H : (wake c <$> ps) !! _ = Some _ |- _ => apply fmap_Some_lookup in H as (? & ? & ->) end;
    rewrite ?Hpid, ?Hpar, ?Hch in *; rewrite ?Hst in * by done; eauto.
  - by rewrite length_fmap.
  - rewrite list_lookup_fmap. by apply fmap_is_Some, ti_cur0.
  - destruct ti_init0 as (k & q & ? & Hk & Ha). destruct (Hal k q Hk Ha). eauto.
  - destruct (ti_parent0 i j x) as (q & Hj & Ha); [done|done|]. destruct (Hal j q Hj Ha). eauto.
Qed.

Lemma find_proc_Some P k ps i :
  find_proc P k ps = Some i ->
  exists p, (k <= i)%nat /\ ps !! (i - k)%nat = Some p /\ P p = true /\
    forall j q, (j < i - k)%nat -> ps !! j = Some q -> P q = false.
Proof.
  revert k. induction ps as [|p ps IH]; intros k; simpl; [done|]. destruct (P p) eqn:E.
  - intros [= <-]. exists p. rewrite Nat.sub_diag. split_and!; [lia|done|done|lia].
  - intros (q & Hk & Hq & HP & Hmin)%IH. exists q. replace (i - k)%nat with (Datatypes.S (i - Datatypes.S k)) by lia.
    split_and!; [lia|done|done|]. intros [|j] r Hj; simpl; [by intros [= <-]|]. apply Hmin. lia.
Qed.

Lemma find_proc_None P k ps : find_proc P k ps = None -> forall j q, ps !! j = Some q -> P q = false.
Proof.
  revert k. induction ps as [|p ps IH]; intros k; simpl; [done|]. destruct (P p) eqn:E; [done|].
  intros Hf [|j] q; simpl; [by intros [= <-]|]. by apply (IH (Datatypes.S k)).
Qed.

Lemma find_proc_0 P ps i : find_proc P 0 ps = Some i -> exists p, ps !! i = Some p /\ P p = true.
Proof. intros (p & _ & Hp & HP & _)%find_proc_Some. rewrite Nat.sub_0_r in Hp. eauto. Qed.

Lemma is_state_true st p : is_state st p = true <-> p_state p = st.
Proof. unfold is_state. by rewrite bool_decide_eq_true. Qed.

Lemma is_state_false st p : is_state st p = false <-> p_state p <> st.
Proof. unfold is_state. by rewrite bool_decide_eq_false. Qed.

Section Preserve.
Context {St F : Type} {PA : PageAllocator St} {FL : FileLayer St F}.
Variables (data trapret forkret : Z).
Abbreviation keeps m := (forall s : pst St F, sinv s -> post m s (fun _ s' => sinv s')).

Lemma cur_running (s : pst St F) i p :
  sinv s -> t_cur s = Some i -> t_procs s !! i = Some p -> p_state p = RUNNING.
Proof. intros [_ Hi] Hc Hp. by apply (ti_run _ _ _ _ Hi i p). Qed.

(** Closes the side conditions of [tinv_live] and its siblings that compute. *)
Ltac fields := unfold alive; cbn; try done; try congruence; try (split; congruence).

Lemma kill_keeps pid : keeps (kill pid).
Proof.
  intros s [Hl Hi]. unfold kill. prun. destruct (find_proc _ _ _) as [i|] eqn:Ef; prun; [|done].
  apply find_proc_0 in Ef as (p & Hp & _).
  apply post_when; intros Es; prun; (split; [done|]); prun.
  - rewrite list_alter_alter_eq. rewrite (alter_lookup_eq _ _ _ p) in Hgp by done. injection Hgp as <-.
    rewrite is_state_true in Es. cbn in Es.
    eapply tinv_live; [exact Hi|exact Hp|rewrite ?Es; fields..].
    rewrite <- (ti_run _ _ _ _ Hi i p Hp). split; cbn; congruence.
  - eapply tinv_same; [exact Hi|exact Hp|done..].
Qed.

Lemma yield_keeps : keeps yield.
Proof.
  intros s Hs. pose proof Hs as [Hl Hi]. unfold yield, sched. prun. destruct (is_state _ _); prun.
  split; [done|]. prun. destruct (ti_cur _ _ _ _ Hi me) as [p Hp]; [done|].
  pose proof (cur_running s me p Hs Hme Hp) as Hr.
  eapply tinv_live; [exact Hi|exact Hp|rewrite ?Hr; fields..].
Qed.

(** [sleep] on [c]; on the channel of [wait], no child may be a zombie. *)
Lemma sleep_tinv (s : pst St F) c me :
  t_locked s = true -> tinv (t_procs s) (t_cur s) (t_init s) (t_nextpid s) -> t_cur s = Some me ->
  (c = CProc me /\ (forall j q, t_procs s !! j = Some q -> p_parent q = Some me -> p_state q <> ZOMBIE))
    \/ not_wait_chan c ->
  post (sleep c) s (fun _ s' => sinv s').
Proof.
  intros Hl Hi Hc Hch. unfold sleep, sched. prun. rewrite Hc in Hme. injection Hme as <-.
  rewrite Hl. cbn [negb]. prun.
  destruct (ti_cur _ _ _ _ Hi me) as [p Hp]; [done|].
  assert (Hr : p_state p = RUNNING) by (by apply (ti_run _ _ _ _ Hi me p)).
  destruct (is_state _ _); prun. split; [done|]. prun. rewrite list_alter_alter_eq.
  eapply tinv_live; [exact Hi|exact Hp|rewrite ?Hr; fields..].
  intros k _ E. cbn in E. destruct Hch as [[-> Hz]|Hn]; [|by rewrite E in Hn].
  injection E as ->. split; [done|]. eauto.
Qed.

Lemma post_no_cur (s : pst St F) c Q : t_cur s = None -> post (sleep c) s Q.
Proof. intros H a s' E. unfold sleep, mbind, myproc in E. by rewrite H in E. Qed.

#[local] Opaque sleep.

Lemma sleep_keeps c : not_wait_chan c -> keeps (plock ;;! sleep c).
Proof.
  intros Hc s [Hl Hi]. prun. destruct (t_cur s) as [me|] eqn:Eme; [|by apply post_no_cur].
  apply (sleep_tinv _ c me); cbn; [done|by rewrite Eme|done|by right].
Qed.

Lemma wakeup_keeps c : keeps (wakeup c).
Proof. intros s [Hl Hi]. unfold wakeup, wakeup1. prun. split; [done|]. prun. by apply tinv_wake. Qed.

Lemma growproc_keeps n : keeps (growproc n).
Proof.
  intros s [Hl Hi]. unfold growproc. prun. destruct (n >? 0); [|destruct (n <? 0)]; prun.
  3: done.
  all: destruct (_ =? 0); prun; [by split|]; split; [done|]; prun; eapply tinv_same; [exact Hi|exact Hgp|done..].
Qed.

Lemma pick_Some scan ps i : pick scan ps = Some i -> exists p, ps !! i = Some p /\ p_state p = RUNNABLE.
Proof.
  unfold pick. destruct (find_proc _ scan _) as [j|] eqn:E.
  - intros [= <-]. apply find_proc_Some in E as (p & Hle & Hp & Hst & _). exists p.
    rewrite lookup_drop in Hp. replace (scan + (j - scan))%nat with j in Hp by lia.
    by rewrite is_state_true in Hst.
  - intros (p & Hp & Hst)%find_proc_0. exists p. by rewrite is_state_true in Hst.
Qed.

Lemma scheduler_keeps : forall s : pst St F, t_cur s = None -> sinv s -> post scheduler s (fun _ s' => sinv s').
Proof.
  intros s Hc [Hl Hi]. unfold scheduler. prun. destruct (pick _ _) as [i|] eqn:Ep; prun; [|done].
  apply pick_Some in Ep as (p & Hp & Hr). split; [done|]. prun. rewrite list_alter_alter_eq.
  eapply tinv_live; [exact Hi|exact Hp|rewrite ?Hr; fields..].
Qed.

Lemma wait_keeps : keeps wait.
Proof.
  intros s [Hl Hi]. unfold wait, wait_pass. prun. destruct (find_proc _ _ _) as [i|] eqn:Ef; prun.
  - apply find_proc_0 in Ef as (p & Hp & [_ Hz]%andb_true_iff). rewrite is_state_true in Hz.
    split; [done|]. prun. rewrite !list_alter_alter_eq. eapply tinv_collect; [exact Hi|exact Hp|done..].
  - destruct (negb _ || p_killed gp); prun; [done|].
    eapply post_conseq; [apply (sleep_tinv _ _ me); cbn; try done|intros; by apply post_ret].
    left. split; [done|]. intros j q Hq Hpar Hz. pose proof (find_proc_None _ _ _ Ef j q Hq) as Hf.
    cbn in Hf. rewrite bool_decide_true in Hf by done. by rewrite (proj2 (is_state_true _ _)) in Hf.
Qed.

(** Only slot [i] (and memory and files) changed, by [f]. *)
Definition slot_only (s0 : pst St F) (i : nat) (f : proc -> proc) (s : pst St F) : Prop :=
  t_procs s = alter f i (t_procs s0) /\ t_cur s = t_cur s0 /\ t_init s = t_init s0 /\
  t_locked s = t_locked s0 /\ t_nextpid s = t_nextpid s0.

Lemma fork_files_keeps cur np (s : pst St F) :
  post (fork_files cur np) s (fun _ s' =>
    exists g, slot_only s np (fun q => set_p_ofile (g (p_ofile q)) q) s').
Proof.
  unfold fork_files.
  eapply post_conseq; [apply (post_for (fun _ t => exists g, slot_only s np (fun q => set_p_ofile (g (p_ofile q)) q) t))|by cbn].
  - exists id. split_and!; try done. symmetry. apply list_alter_id. by intros [].
  - intros j t _ (g & T1 & T2 & T3 & T4 & T5). prun. destruct (p_ofile gp !! _) as [f|]; prun.
    apply post_when; intros Ef; prun; [|exists g; by split_and!].
    exists (fun l => <[Z.to_nat j := a]> (g l)). split_and!; cbn; try done.
    by rewrite T1, list_alter_alter_eq.
Qed.

#[local] Opaque fork_files.

Lemma fork_keeps : forall s : pst St F, t_nextpid s < 2 ^ 31 - 1 -> sinv s ->
  post (fork data trapret forkret) s (fun _ s' => sinv s').
Proof.
  intros s Hn Hs. pose proof Hs as [Hl Hi]. pose proof (ti_next _ _ _ _ Hi).
  assert (En : s32 (t_nextpid s + 1) = t_nextpid s + 1) by (apply s32_small; lia).
  unfold fork, allocproc. prun. destruct (find_proc _ _ _) as [i|] eqn:Ef; prun; [|by destruct s].
  apply find_proc_0 in Ef as (p & Hp & Hu). rewrite is_state_true in Hu.
  rewrite En. destruct (a =? 0); prun.
  { split; [done|]. prun. rewrite !list_alter_alter_eq. eapply tinv_unused; [exact Hi|exact Hp|lia|done..]. }
  destruct (_ =? 0); prun.
  { split; [done|]. prun. rewrite !list_alter_alter_eq. eapply tinv_unused; [exact Hi|exact Hp|lia|done..]. }
  eapply post_conseq; [apply fork_files_keeps|]. intros u t (g & T1 & T2 & T3 & T4 & T5). prun.
  split; [done|]. prun. rewrite T1, T2, T3, T5. prun. rewrite !list_alter_alter_eq.
  eapply tinv_new; [exact Hi|exact Hp|exact Hme|done..].
Qed.

(** Nothing but the process table changes, and the table keeps [P]. *)
Definition table_only (P : list proc -> Prop) (s0 s : pst St F) : Prop :=
  P (t_procs s) /\ t_cur s = t_cur s0 /\ t_init s = t_init s0 /\ t_locked s = t_locked s0 /\
  t_nextpid s = t_nextpid s0.

Lemma wakeups_keep (P : list proc -> Prop) cs (s0 s : pst St F) :
  (forall c ps, P ps -> P (wake c <$> ps)) -> table_only P s0 s ->
  post (wakeups cs) s (fun _ s' => table_only P s0 s').
Proof.
  intros HP. revert s. induction cs as [|c cs IH]; intros s Hs; cbn; prun; [done|].
  unfold wakeup, wakeup1. prun. apply IH. destruct Hs as (H1 & H2 & H3 & H4 & H5).
  split_and!; cbn; try done; [auto|congruence].
Qed.

(** [fileclose_all] keeps what the open files of [cur] and wake-ups do not change. *)
Lemma fileclose_all_keeps (P : list proc -> Prop) cur (s : pst St F) :
  (forall c ps, P ps -> P (wake c <$> ps)) ->
  (forall g ps, P ps -> P (alter (fun q => set_p_ofile (g (p_ofile q)) q) cur ps)) ->
  P (t_procs s) -> post (fileclose_all cur) s (fun _ s' => table_only P s s').
Proof.
  intros Hwake Hfile Hs. unfold fileclose_all.
  eapply post_conseq; [apply (post_for (fun _ t => table_only P s t))|by cbn].
  - by split_and!.
  - intros j t _ Ht. prun. destruct (p_ofile gp !! _) as [f|]; prun.
    apply post_when; intros Ef; prun; [|done].
    eapply post_conseq; [apply (wakeups_keep P _ s); [done|by destruct Ht as (?&?&?&?&?); split_and!]|].
    intros [] t' (T1 & T2 & T3 & T4 & T5). prun. split_and!; cbn; try done.
    by apply (Hfile (fun l => <[Z.to_nat j := 0]> l)).
Qed.

#[local] Opaque fileclose_all.

Lemma wake_set_parent c v (i : nat) (ps : list proc) :
  wake c <$> alter (set_p_parent v) i ps = alter (set_p_parent v) i (wake c <$> ps).
Proof.
  apply list_eq. intros j. rewrite list_lookup_fmap, !list_lookup_alter, !list_lookup_fmap.
  destruct (decide (i = j)) as [<-|]; [|done]. destruct (ps !! i) as [p|]; [|done]. cbn.
  f_equal. unfold wake, is_state. cbn. by destruct (_ && _).
Qed.

(** While [exit] hands its children to init: the exiting process [me] keeps its
    parent [par], whose [wait] has been woken; slots before [j] are done. *)
Definition exiting (me : nat) (par : option nat) (j : Z) (s : pst St F) : Prop :=
  t_locked s = true /\ tinv (t_procs s) (t_cur s) (t_init s) (t_nextpid s) /\ t_cur s = Some me /\
  t_init s <> Some me /\ (exists p, t_procs s !! me = Some p /\ p_parent p = par) /\
  (forall k q, par = Some k -> t_procs s !! k = Some q -> p_state q = SLEEPING -> p_chan q <> CProc k) /\
  (forall i q, (i < Z.to_nat j)%nat -> t_procs s !! i = Some q -> p_parent q <> Some me).

Lemma exiting_wake me par j s c :
  exiting me par j s -> exiting me par j (set_t_procs (wake c <$> t_procs s) s).
Proof.
  intros (Hl & Hi & Hc & Hn & (p & Hp & Hpar) & Hw & Hd). split_and!; cbn; try done.
  - by apply tinv_wake.
  - exists (wake c p). rewrite list_lookup_fmap, Hp. split; [done|]. by destruct (wake_props c p) as (_ & -> & _).
  - intros k q Hk (q0 & Hq & ->)%fmap_Some_lookup Hs. destruct (wake_props c q0) as (_ & _ & -> & Hst & _).
    apply (Hw k); try done. destruct Hst as [<-|(_ & _ & E)]; [done|congruence].
  - intros i q Hij (q0 & Hq & ->)%fmap_Some_lookup. destruct (wake_props c q0) as (_ & -> & _). eauto.
Qed.

(** One slot of the loop: adoption, and the wake-up of init for a zombie. *)
Lemma exiting_adopt me par j s k p :
  exiting me par j s -> 0 <= j -> t_init s = Some k -> t_procs s !! Z.to_nat j = Some p ->
  p_parent p = Some me ->
  (p_state p = ZOMBIE -> forall q, t_procs s !! k = Some q -> p_state q = SLEEPING -> p_chan q <> CProc k) ->
  exiting me par (j + 1) (set_t_procs (alter (set_p_parent (Some k)) (Z.to_nat j) (t_procs s)) s).
Proof.
  intros (Hl & Hi & Hc & Hn & (pm & Hpm & Hpar) & Hw & Hd) Hj Hk Hp Hch Hz.
  assert (Hjm : Z.to_nat j <> me).
  { intros E. rewrite E in Hp. by apply (ti_self _ _ _ _ Hi me p). }
  split_and!; cbn; try done.
  - eapply tinv_adopt; [exact Hi|exact Hp|exact Hch|exact Hk|done|by rewrite Hk].
  - exists pm. by rewrite list_lookup_alter_ne.
  - intros k' q Hk' Hq Hs. apply (alter_Some _ _ _ _ _ _ Hp) in Hq as [[-> ->]|[_ Hq]]; [|by apply (Hw k' q)].
    cbn in *. by apply (Hw (Z.to_nat j) p).
  - intros i q Hij Hq. apply (alter_Some _ _ _ _ _ _ Hp) in Hq as [[-> ->]|[Hne Hq]]; cbn; [congruence|].
    apply (Hd i); [lia|done].
Qed.

Lemma reparent_keeps me par (s : pst St F) :
  exiting me par 0 s -> post (reparent me) s (fun _ s' => exiting me par NPROC s').
Proof.
  intros He. unfold reparent. eapply post_conseq; [apply (post_for (exiting me par) _ (Z.to_nat NPROC) 0 s He)|by cbn].
  intros j t Hj Ht. prun.
  assert (Hskip : p_parent gp <> Some me -> exiting me par (j + 1) t).
  { destruct Ht as (? & ? & ? & ? & ? & ? & Hd). intros Hne. split_and!; try done.
    intros i q Hi Hq. destruct (decide (i = Z.to_nat j)) as [->|]; [congruence|]. apply (Hd i); [lia|done]. }
  apply post_when; intros Hc; [rewrite bool_decide_eq_true in Hc|rewrite bool_decide_eq_false in Hc; by apply Hskip].
  pose proof Ht as (_ & Hi & _). destruct (ti_init _ _ _ _ Hi) as (k & qk & Hk & Hqk & _). prun. rewrite Hk.
  apply post_when; intros Hz; [rewrite is_state_true in Hz|rewrite is_state_false in Hz].
  - unfold wakeup1. prun. rewrite wake_set_parent.
    pose proof (exiting_adopt me par j (set_t_procs (wake (CProc k) <$> t_procs t) t) k (wake (CProc k) gp)) as Ha.
    apply Ha; cbn; try done; [by apply exiting_wake|lia|by rewrite list_lookup_fmap, Hgp| |].
    + by destruct (wake_props (CProc k) gp) as (_ & -> & _).
    + intros _ q (q0 & Hq & ->)%fmap_Some_lookup Hs. destruct (wake_props (CProc k) q0) as (_ & _ & -> & _ & Hn). auto.
  - apply (exiting_adopt me par j t k gp); try done; lia.
Qed.

#[local] Opaque reparent.

(** The wake-up of the parent, before the children are passed on. *)
Lemma exiting_start me p (s : pst St F) :
  t_locked s = true -> tinv (t_procs s) (t_cur s) (t_init s) (t_nextpid s) -> t_cur s = Some me ->
  t_init s <> Some me -> t_procs s !! me = Some p ->
  let c := match p_parent p with Some j => CProc j | None => CNull end in
  exiting me (p_parent p) 0 (set_t_procs (wake c <$> t_procs s) s).
Proof.
  intros Hl Hi Hc Hn Hp c. split_and!; cbn; try done.
  - by apply tinv_wake.
  - exists (wake c p). rewrite list_lookup_fmap, Hp. split; [done|]. by destruct (wake_props c p) as (_ & -> & _).
  - intros k q Hk (q0 & Hq & ->)%fmap_Some_lookup Hs.
    destruct (wake_props c q0) as (_ & _ & -> & _ & Hw). apply Hw in Hs. unfold c in Hs. by rewrite Hk in Hs.
  - intros i q Hij. lia.
Qed.

Lemma exiting_end me par (s : pst St F) :
  exiting me par NPROC s ->
  sinv (set_t_cur None (set_t_locked false (set_t_procs (alter (set_p_state ZOMBIE) me (t_procs s)) s))).
Proof.
  intros (Hl & Hi & Hc & Hn & (p & Hp & Hpar) & Hw & Hd). split; cbn; [done|].
  eapply tinv_exit; [exact Hi|exact Hp|try done..].
  - intros j q Hq. apply (Hd j); [|done]. apply lookup_lt_Some in Hq. by rewrite (ti_len _ _ _ _ Hi) in Hq.
  - intros j q Hj. apply Hw. congruence.
Qed.

Lemma exit_keeps n : keeps (exit n).
Proof.
  intros s [Hl Hi]. unfold exit. prun. destruct (bool_decide_reflect (t_init s = Some me)) as [|Hne]; prun.
  eapply post_conseq; [apply (fileclose_all_keeps (fun ps => tinv ps (Some me) (t_init s) (t_nextpid s)))|].
  { intros c ps. apply tinv_wake. }
  { intros g ps Hps. destruct (ti_cur _ _ _ _ Hps me) as [q Hq]; [done|]. eapply tinv_same; [exact Hps|exact Hq|done..]. }
  { cbn. destruct (ti_cur _ _ _ _ Hi me) as [q Hq]; [done|]. rewrite Hme in Hi. eapply tinv_same; [exact Hi|exact Hq|done..]. }
  intros u t (T1 & T2 & T3 & T4 & T5). prun.
  unfold wakeup1. prun. eapply post_conseq; [apply (reparent_keeps me (p_parent gp0))|].
  - match goal with |- exiting _ _ _ (set_t_procs _ ?X) => apply (exiting_start me gp0 X) end;
      cbn; try congruence.
    rewrite T2, T3, T5, Hme. destruct (ti_cur _ _ _ _ T1 me) as [q Hq]; [done|].
    eapply tinv_same; [exact T1|exact Hq|done..].
  - intros u' t' He. unfold sched. prun. destruct (negb _); prun. destruct (is_state _ _); prun.
    by apply exiting_end in He.
Qed.

Lemma pstep_sinv (s s' : pst St F) : pstep data trapret forkret s s' -> sinv s -> sinv s'.
Proof.
  destruct 1 as [r s s' ? E|n s s' E|r s s' E|pid r s s' E|s s' E|c s s' ? E|c s s' E|n r s s' E|r s s' ? E];
    intros Hs; revert E.
  - by apply fork_keeps.
  - by apply exit_keeps.
  - by apply wait_keeps.
  - by apply kill_keeps.
  - by apply yield_keeps.
  - by apply sleep_keeps.
  - by apply wakeup_keeps.
  - by apply growproc_keeps.
  - by apply scheduler_keeps.
Qed.

(** ** The scheduler's scan *)

(** How far the scan has to go to reach [i]. *)
Definition scan_dist (i scan : nat) : nat :=
  if (scan <=? i)%nat then i - scan else i + Z.to_nat NPROC - scan.

Lemma pick_progress scan ps i p :
  length ps = Z.to_nat NPROC -> (scan <= Z.to_nat NPROC)%nat -> ps !! i = Some p -> p_state p = RUNNABLE ->
  exists j, pick scan ps = Some j /\ (Datatypes.S j <= Z.to_nat NPROC)%nat /\
    (j = i \/ (scan_dist i (Datatypes.S j) < scan_dist i scan)%nat).
Proof.
  intros Hlen Hscan Hp Hr. apply is_state_true in Hr. pose proof (lookup_lt_Some _ _ _ Hp) as Hlt.
  unfold pick. destruct (find_proc _ scan _) as [j|] eqn:Ef.
  - exists j. apply find_proc_Some in Ef as (q & Hle & Hq & Hst & Hmin). rewrite lookup_drop in Hq.
    apply lookup_lt_Some in Hq. split_and!; [done|lia|]. destruct (decide (j = i)) as [->|Hne]; [by left|right].
    unfold scan_dist. destruct (Nat.leb_spec scan i) as [Hs|Hs].
    + assert (j < i)%nat.
      { destruct (decide (i < j)%nat) as [Hij|]; [|lia]. specialize (Hmin (i - scan)%nat p).
        rewrite lookup_drop in Hmin. replace (scan + (i - scan))%nat with i in Hmin by lia.
        rewrite Hmin in Hr; [done|lia|done]. }
      destruct (Nat.leb_spec (Datatypes.S j) i); lia.
    + destruct (Nat.leb_spec (Datatypes.S j) i); lia.
  - assert (Hs : (i < scan)%nat).
    { destruct (decide (i < scan)%nat) as [|Hge]; [done|].
      rewrite (find_proc_None _ _ _ Ef (i - scan)%nat p) in Hr; [done|].
      rewrite lookup_drop. by replace (scan + (i - scan))%nat with i by lia. }
    destruct (find_proc _ 0 ps) as [j|] eqn:E0.
    2:{ by rewrite (find_proc_None _ _ _ E0 i p Hp) in Hr. }
    exists j. apply find_proc_Some in E0 as (q & _ & Hq & Hst & Hmin). rewrite Nat.sub_0_r in *.
    pose proof (lookup_lt_Some _ _ _ Hq). split_and!; [done|lia|].
    destruct (decide (j = i)) as [->|Hne]; [by left|right]. unfold scan_dist.
    assert (j < i)%nat.
    { destruct (decide (i < j)%nat) as [Hij|]; [|lia]. by rewrite (Hmin i p Hij Hp) in Hr. }
    destruct (Nat.leb_spec (Datatypes.S j) i), (Nat.leb_spec scan i); lia.
Qed.

Lemma scheduler_picks (s : pst St F) j :
  t_locked s = false -> pick (t_scan s) (t_procs s) = Some j ->
  exists s', scheduler s = Ok (true, s') /\ t_cur s' = Some j /\ t_scan s' = Datatypes.S j.
Proof.
  intros Hl Hp. unfold scheduler, plock, punlock, acquire, release, mbind, mget, mset, setp, mret.
  rewrite Hl. cbn. rewrite Hp. cbn. eexists. split_and!; [done|done|done].
Qed.

(** C6: in every state reachable by [fork], [exit], [wait], [kill], [yield],
    [sleep], [wakeup], [growproc] and scheduling, in any order, the process
    table is consistent ([tinv]): exactly the process on the CPU is RUNNING,
    live pids are positive and distinct, every process but init has a parent
    and that parent is alive, and no process sleeps in [wait] while it has a
    zombie child (no exit is missed). *)
Theorem process_table_invariant (s s' : pst St F) :
  sinv s -> reachable data trapret forkret s s' -> sinv s'.
Proof.
  intros Hs Hr. induction Hr as [s|s1 s2 s3 _ IH Hstep]; [done|]. apply (pstep_sinv s2); auto.
Qed.

(** A round of the scheduler can begin, and the process in slot [i] can be chosen. *)
Definition round_ready (i : nat) (s : pst St F) : Prop :=
  t_locked s = false /\ length (t_procs s) = Z.to_nat NPROC /\ (t_scan s <= Z.to_nat NPROC)%nat /\
  exists p, t_procs s !! i = Some p /\ p_state p = RUNNABLE.

(** C35: the scheduler is fair: over [NPROC] consecutive rounds, with anything
    happening to the table in between, a process that is RUNNABLE at every round
    is chosen. *)
Theorem scheduler_fair i (ss : list (pst St F)) :
  (forall s, s ∈ ss -> round_ready i s) ->
  (forall k s t, ss !! k = Some s -> ss !! Datatypes.S k = Some t ->
     exists r s', scheduler s = Ok (r, s') /\ t_scan t = t_scan s') ->
  (Z.to_nat NPROC <= length ss)%nat ->
  exists s s', s ∈ ss /\ scheduler s = Ok (true, s') /\ t_cur s' = Some i.
Proof.
  intros Hall Hchain Hlen.
  assert (Hgo : forall d s ss', s :: ss' `suffix_of` ss -> (scan_dist i (t_scan s) <= d)%nat ->
            (d < length (s :: ss'))%nat -> exists s s', s ∈ ss /\ scheduler s = Ok (true, s') /\ t_cur s' = Some i).
  { intros d. induction d as [d IH] using lt_wf_ind. intros s ss' [pre Hsuf] Hd Hlen'.
    assert (Hin : s ∈ ss) by (rewrite Hsuf; apply elem_of_app; right; by left).
    destruct (Hall s Hin) as (Hl & Hn & Hsc & p & Hp & Hr).
    destruct (pick_progress (t_scan s) (t_procs s) i p Hn Hsc Hp Hr) as (j & Hj & _ & Hprog).
    destruct (scheduler_picks s j Hl Hj) as (s' & Hs' & Hc & Hscan).
    destruct Hprog as [->|Hlt]; [by exists s, s'|].
    destruct ss' as [|t ss']; [simpl in Hlen'; lia|].
    destruct (Hchain (length pre) s t) as (r & s'' & E & Et).
    { rewrite Hsuf, lookup_app_r, Nat.sub_diag by lia. done. }
    { rewrite Hsuf, lookup_app_r by lia. by replace (Datatypes.S (length pre) - length pre)%nat with 1%nat by lia. }
    rewrite Hs' in E. injection E as _ <-. rewrite Hscan in Et.
    apply (IH (scan_dist i (t_scan t)) ltac:(rewrite Et; lia) t ss'); [|done|].
    - exists (pre ++ [s]). by rewrite Hsuf, <- app_assoc.
    - rewrite Et. simpl in Hlen' |- *. lia. }
  destruct ss as [|s ss]; [by change (64 <= 0)%nat in Hlen; lia|]. apply (Hgo (scan_dist i (t_scan s)) s ss); [done|lia|].
  destruct (Hall s) as (_ & Hn & Hsc & p & Hp & _); [by left|]. apply lookup_lt_Some in Hp.
  unfold scan_dist. destruct (Nat.leb_spec (t_scan s) i); lia.
Qed.

End Preserve.
