(* ===== verification/ProcFork.v ===== *)
(** * [fork] and [wait]: what they do to memory

    [fork] and the collecting pass of [wait], from the process table down to
    page tables and kernel stacks, against the allocator and file interfaces. *)

From Stdlib Require Import ZArith Lia String.
From stdpp Require Import base numbers list sets.
From S2P Require Import Prelude Bytes Params Kalloc Vm VmSpace Proc ProcInv.

Local Open Scope Z_scope.
Local Open Scope kernel_scope.
Set Default Proof Using "All".

Section Fork.
Context {St F : Type} {PA : PageAllocator St} {FL : FileLayer St F}.
Variables (data trapret forkret : Z).
Hypothesis (Htr : is_u32 trapret) (Hfr : is_u32 forkret).
Hypothesis (Hdata : data mod PGSIZE = 0) (Hdata' : KERNLINK < data < KERNBASE + PHYSTOP).

(** The trap frame at [tf], byte by byte. *)
Definition trapframe (m : mem) (tf : Z) : list Z := load m tf (Z.to_nat TF_SIZE).

(** The child of [p] in slot [c] after a [fork] from memory [m] to [m'], with
    the pages [l] free before and [l'] after. *)
Definition forked (m m' : mem) (l l' : list Z) (me : nat) (p c : proc) : Prop :=
  p_state c = RUNNABLE /\ p_parent c = Some me /\ p_sz c = p_sz p /\
  p_cwd c = p_cwd p /\ p_ofile c = p_ofile p /\ p_pgdir c <> 0 /\
  p_kstack c ∈ l /\ (p_kstack c ∉ l') /\ ~ pt_page m' (p_pgdir c) (p_kstack c) /\
  as_ok m' (p_pgdir c) l' /\
  (forall q, pt_page m' (p_pgdir c) q -> q ∈ l) /\
  uspace_copied m m' (p_pgdir p) (p_pgdir c) (p_sz p) /\
  Forall (kmapped m' (p_pgdir c)) (kmap data) /\
  get32 m' (p_tf c + TF_EAX) = 0 /\
  (forall o, 0 <= o < TF_SIZE -> ~ (TF_EAX <= o < TF_EAX + 4) -> m' (p_tf c + o) = m (p_tf p + o)) /\
  get32 m' (p_tf c - 4) = trapret /\ get32 m' (p_context c + CTX_EIP) = forkret /\
  p_context c + CTX_SIZE = p_tf c - 4 /\ p_tf c = p_kstack c + KSTACKSIZE - TF_SIZE.

(** ** Writing to one page *)

Definition page_write (m m' : mem) (ks : Z) : Prop := forall x, ~ on_page ks x -> m' x = m x.

Lemma page_write_space m m' D l ks :
  as_ok m D l -> pa_page ks -> ~ pt_page m D ks -> page_write m m' ks ->
  as_ok m' D l /\ (forall q, pt_page m' D q <-> pt_page m D q) /\ (forall va, pte_at m' D va = pte_at m D va).
Proof.
  intros Has Hks Hn Hw.
  assert (He : forall q x, pt_page m D q -> on_page q x -> m' x = m x).
  { intros q x Hq Hx. apply Hw. destruct (pt_page_ok _ _ _ _ (as_ok_pt _ _ _ Has) Hq).
    apply (page_disjoint q ks x); try done. by intros ->. }
  destruct (pt_ext m m' D He) as (_ & _ & Hpp & Hv). split_and!; [by apply (as_ok_ext m)|done|done].
Qed.

Lemma page_write_frame m m' ks q o :
  page_write m m' ks -> pa_page ks -> pa_page q -> q <> ks -> 0 <= o < PGSIZE -> m' (q + o) = m (q + o).
Proof.
  intros Hw Hks Hq Hne Ho. apply Hw. apply (page_disjoint q ks); try done. unfold on_page. lia.
Qed.

Lemma page_write_trans m1 m2 m3 ks : page_write m1 m2 ks -> page_write m2 m3 ks -> page_write m1 m3 ks.
Proof. intros H1 H2 x Hx. by rewrite H2, H1. Qed.

(** A copy stays a copy when a page of neither space is written. *)
Lemma copied_ext m0 m0' m m' pgdir d sz :
  (forall va, pte_at m0' pgdir va = pte_at m0 pgdir va) -> (forall va, pte_at m' d va = pte_at m d va) ->
  (forall va o, user_va va -> present (pte_at m0 pgdir va) = true -> 0 <= o < PGSIZE ->
     m0' (frame m0 pgdir va + o) = m0 (frame m0 pgdir va + o)) ->
  (forall va o, user_va va -> present (pte_at m d va) = true -> 0 <= o < PGSIZE ->
     m' (frame m d va + o) = m (frame m d va + o)) ->
  uspace_copied m0' m pgdir d sz -> uspace_copied m0 m' pgdir d sz.
Proof.
  intros H1 H2 H3 H4 Hc va Hva. specialize (Hc va Hva). rewrite H1 in Hc. rewrite H2.
  destruct (present (pte_at m0 pgdir va) && (va <? sz)) eqn:E; [|done].
  apply andb_true_iff in E as [E _]. destruct Hc as (C1 & C2 & C3).
  assert (E0 : frame m0' pgdir va = frame m0 pgdir va) by (unfold frame; by rewrite H1).
  assert (E1 : frame m' d va = frame m d va) by (unfold frame; by rewrite H2).
  rewrite H1 in C2. split_and!; [by rewrite H2|by rewrite H2|]. intros o Ho. rewrite E1, H4, C3, E0, H3; done.
Qed.

(** ** [allocproc] *)

(** The slot [allocproc] prepares, on the kernel stack [ks]. *)
Definition embryo (pid ks : Z) (c : proc) : proc :=
  set_p_context (ks + KSTACKSIZE - TF_SIZE - 4 - CTX_SIZE)
    (set_p_tf (ks + KSTACKSIZE - TF_SIZE) (set_p_kstack ks (set_p_pid pid (set_p_state EMBRYO c)))).

(** What it writes to the stack page. *)
Definition stack_init (m : mem) (ks : Z) : mem :=
  let sp := ks + KSTACKSIZE - TF_SIZE - 4 in
  put32 (memset (put32 m sp trapret) (sp - CTX_SIZE) 0 CTX_SIZE) (sp - CTX_SIZE + CTX_EIP) forkret.

Lemma stack_init_spec m ks :
  let sp := ks + KSTACKSIZE - TF_SIZE - 4 in
  page_write m (stack_init m ks) ks /\ (wf_mem m -> wf_mem (stack_init m ks)) /\
  get32 (stack_init m ks) sp = trapret /\
  get32 (stack_init m ks) (sp - CTX_SIZE + CTX_EIP) = forkret.
Proof.
  cbv zeta. unfold stack_init. set (sp := ks + KSTACKSIZE - TF_SIZE - 4).
  assert (Hsp : sp = ks + 4016) by (unfold sp, KSTACKSIZE, TF_SIZE; lia).
  split_and!.
  - intros x Hx. unfold on_page, PGSIZE in Hx. rewrite put32_ne by (unfold CTX_SIZE, CTX_EIP; lia).
    rewrite memset_out by (unfold CTX_SIZE; lia). apply put32_ne. lia.
  - intros Hw. apply wf_put32, wf_memset; [unfold CTX_SIZE; lia|]. by apply wf_put32.
  - rewrite get32_put32_ne by (unfold CTX_SIZE, CTX_EIP; lia).
    rewrite (get32_ext (put32 m sp trapret)); [by apply get32_put32_eq|].
    intros x Hx. apply memset_out; unfold CTX_SIZE in *; lia.
  - by apply get32_put32_eq.
Qed.

Lemma allocproc_ok (s : pst St F) i ks l1 :
  t_locked s = false -> find_proc (is_state UNUSED) 0 (t_procs s) = Some i -> pa_inv (t_kern s) (ks :: l1) ->
  exists k', allocproc trapret forkret s =
      Ok (Some i, mkP false (alter (embryo (t_nextpid s) ks) i (t_procs s)) (s32 (t_nextpid s + 1))
                    (t_init s) (t_cur s) (t_scan s) k' (t_fs s)) /\
    pa_inv k' l1 /\ pa_mem k' = stack_init (pa_mem (t_kern s)) ks.
Proof.
  intros Hl Hf Hinv. destruct (take_page (t_kern s) ks l1 Hinv) as (k1 & Hk & Hm1 & Hp & Hpl & Hp0 & Hwf & Hset).
  destruct (stack_init_spec (pa_mem (t_kern s)) ks) as (S1 & S2 & _).
  exists (pa_setmem (stack_init (pa_mem (t_kern s)) ks) k1). split_and!; [|by auto|apply pa_mem_setmem].
  unfold allocproc, plock, punlock, acquire, release, setp, kern, kmemset, wr, mbind, mget, mset, mret.
  rewrite Hl. cbn. rewrite Hf. cbn. rewrite Hk. cbn. rewrite Hp0. cbn. rewrite !pa_mem_setmem, !pa_setmem_setmem.
  by rewrite !list_alter_alter_eq, Hm1.
Qed.

Lemma allocproc_none (s : pst St F) i :
  t_locked s = false -> find_proc (is_state UNUSED) 0 (t_procs s) = Some i -> pa_inv (t_kern s) [] ->
  exists k', allocproc trapret forkret s =
      Ok (None, mkP false (alter (fun c => set_p_state UNUSED (set_p_kstack 0 (set_p_pid (t_nextpid s) (set_p_state EMBRYO c)))) i (t_procs s)) (s32 (t_nextpid s + 1))
                    (t_init s) (t_cur s) (t_scan s) k' (t_fs s)) /\
    pa_inv k' [] /\ pa_mem k' = pa_mem (t_kern s).
Proof.
  intros Hl Hf Hinv. destruct (pa_kalloc_empty _ Hinv) as (k' & Hk & Hinv' & Hm).
  exists k'. split_and!; [|done|done].
  unfold allocproc, plock, punlock, acquire, release, setp, kern, kmemset, wr, mbind, mget, mset, mret.
  rewrite Hl. cbn. rewrite Hf. cbn. rewrite Hk. cbn. by rewrite !list_alter_alter_eq.
Qed.

(** ** The child's memory *)

Section ChildMemory.
Variables (m : mem) (pgdir sz ks kp : Z) (l1 : list Z).
Hypothesis (Has : as_ok m pgdir (ks :: l1)) (Hks : pa_page ks) (Hksl : ks ∉ l1).
Hypothesis (Hkp : pa_page kp) (Hkpl : kp ∉ ks :: l1).
Variables (m3 : mem) (d : Z) (l3 : list Z).
Hypothesis (Hl1 : Forall pa_page l1).
Hypothesis (Hsp : space_of (stack_init m ks) m3 d l1 l3).
Hypothesis (Hcop : uspace_copied (stack_init m ks) m3 pgdir d sz).
Hypothesis (Hkm : Forall (kmapped m3 d) (kmap data)) (Hwf3 : wf_mem m3).

(** The trap frame of the child is copied from the parent's, with %eax cleared. *)
Let tfc := ks + KSTACKSIZE - TF_SIZE.
Let tfp := kp + KSTACKSIZE - TF_SIZE.
Let m5 := put32 (memmove m3 tfc tfp TF_SIZE) (tfc + TF_EAX) 0.

Lemma child_outside q x : pa_page q -> (q ∉ l1) -> on_page q x -> m3 x = stack_init m ks x.
Proof.
  intros Hq Hn Hx. destruct Hsp as (_ & _ & _ & _ & _ & A6). apply A6. intros q' Hq'.
  apply (page_disjoint q q' x); try done; [|by intros ->]. rewrite Forall_forall in Hl1. auto.
Qed.

Lemma tf_move x : memmove m3 tfc tfp TF_SIZE x = copy m3 tfc tfp TF_SIZE x.
Proof. apply memmove_spec; [done|]. unfold TF_SIZE. lia. Qed.

Lemma child_write : page_write m3 m5 ks.
Proof.
  intros x Hx. unfold m5, on_page, PGSIZE in *.
  rewrite put32_ne by (unfold tfc, KSTACKSIZE, TF_SIZE, TF_EAX; lia).
  rewrite tf_move. apply copy_out. unfold tfc, KSTACKSIZE, TF_SIZE. lia.
Qed.

Lemma child_wf : wf_mem m5.
Proof. apply wf_put32. intros x. rewrite tf_move. by apply wf_copy. Qed.

Lemma child_tf o : 0 <= o < TF_SIZE -> ~ (TF_EAX <= o < TF_EAX + 4) -> m5 (tfc + o) = m (tfp + o).
Proof.
  intros Ho Hn. unfold m5. rewrite put32_ne by lia. rewrite tf_move, copy_in by lia.
  replace (tfc + o - tfc) with o by lia.
  rewrite (child_outside kp); [|done|by intros Hin; apply Hkpl; right|unfold on_page, tfp, KSTACKSIZE, TF_SIZE, PGSIZE in *; lia].
  apply stack_init_spec, (page_disjoint kp ks); try done; [by intros ->; apply Hkpl; left|].
  unfold on_page, tfp, KSTACKSIZE, TF_SIZE, PGSIZE in *; lia.
Qed.

(** The words [allocproc] left below the trap frame. *)
Lemma child_stack a : ks <= a -> a + 4 <= tfc -> get32 m5 a = get32 (stack_init m ks) a.
Proof.
  intros H1 H2. apply get32_ext. intros x Hx. unfold m5. rewrite put32_ne by (unfold TF_EAX; lia).
  rewrite tf_move, copy_out by lia. apply (child_outside ks); try done.
  unfold on_page, tfc, KSTACKSIZE, TF_SIZE, PGSIZE in *; lia.
Qed.

Lemma child_not_stack q : q ∈ l1 -> q <> ks.
Proof. by intros Hq ->. Qed.

Lemma child_space :
  as_ok m5 d l3 /\ (forall q, pt_page m5 d q -> q ∈ l1) /\ Forall (kmapped m5 d) (kmap data) /\
  uspace_copied m m5 pgdir d sz.
Proof.
  pose proof Hsp as (A1 & A2 & A3 & A4 & A5 & A6). pose proof child_write as Hw.
  destruct (page_write_space m3 m5 d l3 ks A1 Hks) as (B1 & B2 & B3); [by intros Hq%A3|done|].
  destruct (stack_init_spec m ks) as (Hst & _).
  assert (Hnp : ~ pt_page m pgdir ks).
  { intros Hq. destruct (pt_page_ok _ _ _ _ (as_ok_pt _ _ _ Has) Hq) as [_ Hn]. apply Hn. by left. }
  destruct (page_write_space m (stack_init m ks) pgdir (ks :: l1) ks Has Hks Hnp Hst) as (_ & _ & C3).
  split_and!; [done| | |].
  - intros q Hq. by apply A3, B2.
  - rewrite Forall_forall in Hkm |- *. intros k Hk va Hva Hin. rewrite B3. by apply Hkm.
  - apply (copied_ext m (stack_init m ks) m3 m5 pgdir d sz); try done.
    + intros va o Hva Hpr Ho. destruct Has as (_ & O2 & _). destruct (O2 va Hva Hpr) as (F1 & F2 & _).
      apply (page_write_frame m _ ks); try done. intros E. apply F2. rewrite E. by left.
    + intros va o Hva Hpr Ho. destruct A1 as (_ & O2 & _). destruct (O2 va Hva Hpr) as (F1 & F2 & _).
      apply (page_write_frame m3 _ ks); try done. apply child_not_stack. by apply A4.
Qed.

End ChildMemory.

(** ** Open files *)

Definition files_ok (f : F) (p : proc) : Prop :=
  length (p_ofile p) = Z.to_nat NOFILE /\ (forall g, g ∈ p_ofile p -> g <> 0 -> fl_file f g) /\
  fl_inode f (p_cwd p).

Lemma alter_id_at {A} (f : A -> A) i (l : list A) x : l !! i = Some x -> f x = x -> alter f i l = l.
Proof using.
  intros Hx Hf. transitivity (alter id i l); [|by apply list_alter_id].
  apply list_alter_ext; [|done]. intros y Hy. rewrite Hx in Hy. by injection Hy as <-.
Qed.

Lemma prefix_insert (l : list Z) n j g :
  l !! j = Some g -> (length l <= n)%nat ->
  <[j := g]> (take j l ++ replicate (n - j) 0) = take (Datatypes.S j) l ++ replicate (n - Datatypes.S j) 0.
Proof using.
  intros Hj Hn. pose proof (lookup_lt_Some _ _ _ Hj) as Hlt.
  rewrite (take_S_r _ _ _ Hj), insert_app_r_alt by (rewrite length_take; lia).
  rewrite length_take, Nat.min_l, Nat.sub_diag by lia. replace (n - j)%nat with (Datatypes.S (n - Datatypes.S j)) by lia.
  cbn. by rewrite <- app_assoc.
Qed.

Lemma fork_files_ok (s : pst St F) me np p c :
  t_procs s !! me = Some p -> t_procs s !! np = Some c -> me <> np -> files_ok (t_fs s) p ->
  p_ofile c = replicate (Z.to_nat NOFILE) 0 ->
  exists f, fork_files me np s =
      Ok (tt, set_t_fs f (set_t_procs (alter (set_p_ofile (p_ofile p)) np (t_procs s)) s)) /\
    fl_inode f (p_cwd p).
Proof.
  intros Hp Hc Hne (Hlen & Hfiles & Hcwd) Hz. unfold fork_files.
  pose (I := fun (j : Z) (t : pst St F) => exists f,
    t = set_t_fs f (set_t_procs (alter (set_p_ofile (take (Z.to_nat j) (p_ofile p) ++
          replicate (Z.to_nat NOFILE - Z.to_nat j) 0)) np (t_procs s)) s) /\
    (forall g, fl_file (t_fs s) g -> fl_file f g) /\ fl_inode f (p_cwd p)).
  match goal with |- context [for_ ?n ?i ?b] => destruct (for_inv I b n i s) as (s' & Hrun & f & -> & _ & Hi) end.
  - exists (t_fs s). split_and!; [|done|done]. rewrite (alter_id_at _ _ _ c); [by destruct s|done|].
    change (Z.to_nat 0) with 0%nat. rewrite Nat.sub_0_r, take_0, app_nil_l, <- Hz. by destruct c.
  - intros j t Hj (f & -> & Hf & Hi). change (0 + Z.of_nat (Z.to_nat NOFILE)) with 16 in Hj.
    unfold getp, mbind. cbn. rewrite list_lookup_alter_ne, Hp by done. cbn.
    destruct (lookup_lt_is_Some_2 (p_ofile p) (Z.to_nat j)) as [g Hg]; [rewrite Hlen; change (Z.to_nat NOFILE) with 16%nat; lia|].
    assert (Ej : Z.to_nat (j + 1) = Datatypes.S (Z.to_nat j)) by lia.
    assert (Hpre : g = 0 -> <[Z.to_nat j := 0]> (take (Z.to_nat j) (p_ofile p) ++ replicate (Z.to_nat NOFILE - Z.to_nat j) 0)
                   = take (Z.to_nat j) (p_ofile p) ++ replicate (Z.to_nat NOFILE - Z.to_nat j) 0).
    { intros _. apply list_insert_id. pose proof (lookup_lt_Some _ _ _ Hg).
      rewrite lookup_app_r, length_take, Nat.min_l by (rewrite ?length_take; lia). rewrite Nat.sub_diag.
      apply lookup_replicate. split; [done|]. rewrite Hlen in *. lia. }
    rewrite Hg. unfold mwhen. destruct (Z.eqb_spec g 0) as [->|Hg0]; cbn [negb].
    + eexists. split; [done|]. exists f. split_and!; [|done|done]. do 2 f_equal. apply list_alter_ext; [|done].
      intros x _. rewrite Ej, <- (prefix_insert _ _ _ 0) by (try done; by rewrite Hlen).
      by rewrite Hpre.
    + destruct (fl_filedup_ok f g) as (f' & Hd & Hf' & Hi'); [by apply Hf, Hfiles; [eapply list_elem_of_lookup_2|]|].
      unfold fsop. cbn. rewrite Hd. cbn. eexists. split; [done|]. exists f'. split_and!; [|by auto|by auto].
      unfold set_t_fs, set_t_procs. cbn. f_equal. rewrite list_alter_alter_eq. apply list_alter_ext; [|done].
      intros x _. cbn. by rewrite Ej, <- (prefix_insert _ _ _ g) by (try done; by rewrite Hlen).
  - exists f. split; [|done]. rewrite Hrun. change (Z.to_nat (0 + Z.of_nat (Z.to_nat NOFILE))) with 16%nat.
    change (Z.to_nat NOFILE) with 16%nat. rewrite take_ge by (rewrite Hlen; done). cbn [replicate Nat.sub].
    by rewrite app_nil_r.
Qed.

(** ** [fork] *)

Lemma kern_ok {A} (c : M St A) (s : pst St F) a k : c (t_kern s) = Ok (a, k) -> kern c s = Ok (a, set_t_kern k s).
Proof using. intros E. unfold kern. by rewrite E. Qed.

Lemma fsop_ok {A} (c : M F A) (s : pst St F) a f : c (t_fs s) = Ok (a, f) -> fsop c s = Ok (a, set_t_fs f s).
Proof using. intros E. unfold fsop. by rewrite E. Qed.

Lemma getp_ok i p (s : pst St F) : t_procs s !! i = Some p -> getp i s = Ok (p, s).
Proof using. intros E. unfold getp. by rewrite E. Qed.

(** What [fork] needs of the caller [p] in slot [me]: free pages [l], an address
    space and a kernel stack of its own, good files, and a child slot whose
    files are closed. *)
Definition fork_pre (s : pst St F) (me : nat) (p : proc) (l : list Z) : Prop :=
  sinv s /\ t_cur s = Some me /\ t_procs s !! me = Some p /\ pa_inv (t_kern s) l /\
  as_ok (pa_mem (t_kern s)) (p_pgdir p) l /\ 0 <= p_sz p <= KERNBASE /\
  pa_page (p_kstack p) /\ (p_kstack p ∉ l) /\ p_tf p = p_kstack p + KSTACKSIZE - TF_SIZE /\
  files_ok (t_fs s) p /\
  (forall i c, t_procs s !! i = Some c -> p_state c = UNUSED -> p_ofile c = replicate (Z.to_nat NOFILE) 0).

(** The pages [fork] needs: a kernel stack, and a copy of the address space. *)
Definition fork_cost (m : mem) (p : proc) : nat := 1 + copy_cost data m (p_pgdir p) (p_sz p).

(** What a [fork] that fails leaves of the table: it is the same, but that the slot
    [i] it may have prepared has got a pid and is free again. *)
Definition fork_failed (s s' : pst St F) (i : option nat) : Prop :=
  t_locked s' = false /\ t_init s' = t_init s /\ t_cur s' = t_cur s /\ t_fs s' = t_fs s /\
  match i with
  | None => t_procs s' = t_procs s
  | Some i => exists c c', t_procs s !! i = Some c /\ t_procs s' = <[i := c']> (t_procs s) /\
      p_state c' = UNUSED /\ p_kstack c' = 0 /\ p_parent c' = p_parent c /\ p_ofile c' = p_ofile c
  end.

(** The slot of the child when [fork] is done. *)
Definition child_slot (me : nat) (pid ks d : Z) (p c : proc) : proc :=
  set_p_state RUNNABLE
    (set_p_name (name_copy (p_name c) (p_name p))
      (set_p_cwd (p_cwd p) (set_p_ofile (p_ofile p)
        (set_p_parent (Some me) (set_p_sz (p_sz p) (set_p_pgdir d (embryo pid ks c))))))).

#[local] Opaque name_copy.

Lemma fork_tail (s : pst St F) me i p c ks d k3 l3 :
  t_locked s = false -> t_cur s = Some me -> t_procs s !! me = Some p -> t_procs s !! i = Some c ->
  me <> i -> d <> 0 -> files_ok (t_fs s) p -> p_ofile c = replicate (Z.to_nat NOFILE) 0 ->
  find_proc (is_state UNUSED) 0 (t_procs s) = Some i ->
  forall k', allocproc trapret forkret s =
      Ok (Some i, mkP false (alter (embryo (t_nextpid s) ks) i (t_procs s)) (s32 (t_nextpid s + 1))
                    (t_init s) (t_cur s) (t_scan s) k' (t_fs s)) ->
  copyuvm data (p_pgdir p) (p_sz p) k' = Ok (d, k3) -> pa_inv k3 l3 ->
  let tfc := ks + KSTACKSIZE - TF_SIZE in
  let m5 := put32 (memmove (pa_mem k3) tfc (p_tf p) TF_SIZE) (tfc + TF_EAX) 0 in
  exists f, fork data trapret forkret s =
    Ok (t_nextpid s, mkP false (alter (child_slot me (t_nextpid s) ks d p) i (t_procs s)) (s32 (t_nextpid s + 1))
          (t_init s) (t_cur s) (t_scan s) (pa_setmem m5 k3) f).
Proof.
  intros Hl Hcur Hp Hc Hne Hd Hfiles Hz Hf k' Halloc Hcopy Hinv3 tfc m5.
  assert (Hmy : myproc s = Ok (me, s)) by (unfold myproc; by rewrite Hcur).
  unfold fork. rewrite (mbind_ok _ _ _ _ _ Hmy), (mbind_ok _ _ _ _ _ Halloc). cbn match.
  match goal with |- context [mbind (getp me) _ ?t] => set (s1 := t) end.
  rewrite (mbind_ok _ _ s1 p s1) by (apply getp_ok; cbn; by rewrite list_lookup_alter_ne).
  rewrite (mbind_ok _ _ s1 d (set_t_kern k3 s1)) by (by apply kern_ok).
  unfold setp. mstep.
  erewrite mbind_ok by (apply getp_ok; cbn; by rewrite list_alter_alter_eq, list_lookup_alter_eq, Hc).
  rewrite (proj2 (Z.eqb_neq d 0)) by done. mstep.
  erewrite mbind_ok by (by apply kern_ok). erewrite mbind_ok by (by apply kern_ok).
  set (s2 := set_t_kern _ (set_t_kern _ _)).
  destruct (fork_files_ok s2 me i p (set_p_parent (Some me) (set_p_sz (p_sz p) (set_p_pgdir d (embryo (t_nextpid s) ks c)))))
    as (f & Hff & Hcwd); try done.
  { cbn. by rewrite !list_lookup_alter_ne. }
  { cbn. rewrite !list_alter_alter_eq, list_lookup_alter_eq, Hc. done. }
  rewrite (mbind_ok _ _ _ _ _ Hff). destruct (fl_idup_ok f (p_cwd p) Hcwd) as (f' & Hdup & _).
  erewrite mbind_ok by (apply fsop_ok; cbn; exact Hdup). mstep.
  exists f'. unfold plock, punlock, acquire, release, mbind, mset, mret. pcbn.
  change (t_locked s2) with false. pcbn. apply f_equal, f_equal2; [reflexivity|].
  apply pst_eq; unfold s2, s1; pcbn; [reflexivity| |reflexivity..| |reflexivity].
  - rewrite !list_alter_alter_eq. apply list_alter_ext; [|done]. intros x _. unfold child_slot. cbn [compose].
    reflexivity.
  - rewrite pa_mem_setmem, pa_setmem_setmem. reflexivity.
Qed.

(** [copyuvm] fails: the kernel stack goes back and the slot is free again. *)
Lemma fork_undo (s : pst St F) me i p c ks k3 l3 k4 :
  t_locked s = false -> t_cur s = Some me -> t_procs s !! me = Some p -> t_procs s !! i = Some c -> me <> i ->
  forall k', allocproc trapret forkret s =
      Ok (Some i, mkP false (alter (embryo (t_nextpid s) ks) i (t_procs s)) (s32 (t_nextpid s + 1))
                    (t_init s) (t_cur s) (t_scan s) k' (t_fs s)) ->
  copyuvm data (p_pgdir p) (p_sz p) k' = Ok (0, k3) -> pa_inv k3 l3 -> pa_kfree ks k3 = Ok (tt, k4) ->
  exists s', fork data trapret forkret s = Ok (-1, s') /\ t_kern s' = k4 /\ fork_failed s s' (Some i).
Proof.
  intros Hl Hcur Hp Hc Hne k' Halloc Hcopy Hinv3 Hk4.
  assert (Hmy : myproc s = Ok (me, s)) by (unfold myproc; by rewrite Hcur).
  unfold fork. rewrite (mbind_ok _ _ _ _ _ Hmy), (mbind_ok _ _ _ _ _ Halloc). cbn match.
  match goal with |- context [mbind (getp me) _ ?t] => set (s1 := t) end.
  rewrite (mbind_ok _ _ s1 p s1) by (apply getp_ok; cbn; by rewrite list_lookup_alter_ne).
  rewrite (mbind_ok _ _ s1 0 (set_t_kern k3 s1)) by (by apply kern_ok).
  unfold setp. mstep.
  erewrite mbind_ok by (apply getp_ok; cbn; by rewrite list_alter_alter_eq, list_lookup_alter_eq, Hc).
  cbn [Z.eqb]. erewrite mbind_ok by (apply kern_ok; exact Hk4). mstep.
  eexists. split_and!; [reflexivity|reflexivity|]. unfold s1, fork_failed. pcbn. split_and!; [reflexivity..|].
  eexists c, _. split; [done|]. rewrite !list_alter_alter_eq. split; [by apply alter_insert|]. by split_and!.
Qed.

Lemma find_unused_ne (s : pst St F) me i : sinv s -> t_cur s = Some me ->
  find_proc (is_state UNUSED) 0 (t_procs s) = Some i -> me <> i.
Proof.
  intros [_ Hi] Hc (c & Hc' & Hu)%find_proc_0 ->. rewrite is_state_true in Hu.
  apply (ti_run _ _ _ _ Hi i c Hc') in Hc. congruence.
Qed.

Lemma fork_no_slot (s : pst St F) me :
  t_locked s = false -> t_cur s = Some me -> find_proc (is_state UNUSED) 0 (t_procs s) = None ->
  exists s', fork data trapret forkret s = Ok (-1, s') /\ t_kern s' = t_kern s /\ fork_failed s s' None.
Proof.
  intros Hl Hcur Hf. unfold fork, allocproc, myproc, plock, punlock, acquire, release, mbind, mget, mret.
  rewrite Hcur. pcbn. rewrite Hl. pcbn. rewrite Hf. pcbn. eexists.
  split; [reflexivity|]. split; [reflexivity|]. by split_and!.
Qed.

Lemma fork_no_memory (s : pst St F) me i :
  t_locked s = false -> t_cur s = Some me -> find_proc (is_state UNUSED) 0 (t_procs s) = Some i ->
  pa_inv (t_kern s) [] ->
  exists s', fork data trapret forkret s = Ok (-1, s') /\ pa_inv (t_kern s') [] /\
    pa_mem (t_kern s') = pa_mem (t_kern s) /\ fork_failed s s' (Some i).
Proof.
  intros Hl Hcur Hf Hinv. pose proof (find_proc_0 _ _ _ Hf) as (c & Hc & _). destruct (allocproc_none s i Hl Hf Hinv) as (k' & Ha & Hinv' & Hm).
  assert (Hmy : myproc s = Ok (me, s)) by (unfold myproc; by rewrite Hcur).
  unfold fork. rewrite (mbind_ok _ _ _ _ _ Hmy), (mbind_ok _ _ _ _ _ Ha).
  eexists. split_and!; [reflexivity|done|done|]. split_and!; [reflexivity..|].
  eexists c, _. split; [done|]. split; [by apply alter_insert|]. by split_and!.
Qed.

Lemma mapped_ext m m' d sz : (forall va, pte_at m' d va = pte_at m d va) -> mapped m' d sz = mapped m d sz.
Proof. intros H. unfold mapped. apply list_filter_iff. intros va. by rewrite H. Qed.

(** The memory facts of [ChildMemory] put together. *)
Lemma fork_child (m m3 : mem) pgdir ks l1 d l3 me pid p c :
  as_ok m pgdir (ks :: l1) -> pa_page ks -> (ks ∉ l1) -> pa_page (p_kstack p) -> (p_kstack p ∉ ks :: l1) ->
  p_tf p = p_kstack p + KSTACKSIZE - TF_SIZE -> p_pgdir p = pgdir -> Forall pa_page l1 -> d <> 0 ->
  space_of (stack_init m ks) m3 d l1 l3 -> uspace_copied (stack_init m ks) m3 pgdir d (p_sz p) ->
  Forall (kmapped m3 d) (kmap data) -> wf_mem m3 ->
  let tfc := ks + KSTACKSIZE - TF_SIZE in
  let m5 := put32 (memmove m3 tfc (p_tf p) TF_SIZE) (tfc + TF_EAX) 0 in
  forked m m5 (ks :: l1) l3 me p (child_slot me pid ks d p c) /\ page_write m3 m5 ks /\ wf_mem m5.
Proof.
  intros Has Hks Hksl Hkp Hkpl Htf Epg Hl1 Hd Hsp Hcop Hkm Hwf tfc m5. unfold m5. clear m5. rewrite Htf.
  destruct (child_space m pgdir (p_sz p) ks (p_kstack p) l1 Has Hks Hksl Hkp Hkpl m3 d l3 Hl1 Hsp Hcop Hkm Hwf)
    as (C1 & C2 & C3 & C4).
  pose proof (child_stack m pgdir (p_sz p) ks (p_kstack p) l1 Has Hks Hksl Hkp Hkpl m3 d l3 Hl1 Hsp Hcop Hkm Hwf) as C5.
  pose proof (child_tf m pgdir (p_sz p) ks (p_kstack p) l1 Has Hks Hksl Hkp Hkpl m3 d l3 Hl1 Hsp Hcop Hkm Hwf) as C6.
  pose proof (child_write m pgdir (p_sz p) ks (p_kstack p) l1 Has Hks Hksl Hkp Hkpl m3 d l3 Hl1 Hsp Hcop Hkm Hwf) as C7.
  pose proof (child_wf m pgdir (p_sz p) ks (p_kstack p) l1 Has Hks Hksl Hkp Hkpl m3 d l3 Hl1 Hsp Hcop Hkm Hwf) as C8.
  fold tfc in C1, C2, C3, C4, C5, C6, C7, C8. split; [|done].
  destruct (stack_init_spec m ks) as (_ & _ & W1 & W2). pose proof Hsp as (_ & A2 & _).
  unfold forked, child_slot, embryo. cbn [p_state p_parent p_sz p_cwd p_ofile p_pgdir p_kstack p_tf p_context set_p_state
    set_p_name set_p_cwd set_p_ofile set_p_parent set_p_sz set_p_pgdir set_p_context set_p_tf set_p_kstack set_p_pid].
  fold tfc. split_and!; try done.
  - by left.
  - intros Hin. by apply Hksl, A2.
  - by intros Hq%C2.
  - intros q Hq. right. by apply C2.
  - by rewrite Epg.
  - by apply get32_put32_eq.
  - rewrite Htf. apply C6.
  - rewrite C5; [exact W1| |]; unfold tfc, KSTACKSIZE, TF_SIZE; lia.
  - rewrite C5; [exact W2| |]; unfold tfc, KSTACKSIZE, TF_SIZE, CTX_SIZE, CTX_EIP; lia.
  - unfold CTX_SIZE. lia.
Qed.

Lemma fork_spec (s : pst St F) me p l :
  fork_pre s me p l ->
  exists r s' l', fork data trapret forkret s = Ok (r, s') /\ pa_inv (t_kern s') l' /\
    (forall x, (forall q, q ∈ l -> ~ on_page q x) -> pa_mem (t_kern s') x = pa_mem (t_kern s) x) /\
    ((r = -1 /\ (forall q, q ∈ l' <-> q ∈ l) /\
      (find_proc (is_state UNUSED) 0 (t_procs s) = None \/ (length l < fork_cost (pa_mem (t_kern s)) p)%nat) /\
      fork_failed s s' (find_proc (is_state UNUSED) 0 (t_procs s))) \/
     (r = t_nextpid s /\ length l = (length l' + fork_cost (pa_mem (t_kern s)) p)%nat /\ exists i c0 c, t_procs s !! i = Some c0 /\ p_state c0 = UNUSED /\
        t_procs s' = <[i := c]> (t_procs s) /\ p_pid c = r /\ p_killed c = p_killed c0 /\ p_guard c = p_guard c0 /\
        find_proc (is_state UNUSED) 0 (t_procs s) = Some i /\
        forked (pa_mem (t_kern s)) (pa_mem (t_kern s')) l l' me p c)).
Proof.
  intros (Hs & Hcur & Hp & Hinv & Has & Hsz & Hkp & Hkpl & Htf & Hfiles & Hclosed).
  pose proof Hs as [Hl _].
  destruct (find_proc (is_state UNUSED) 0 (t_procs s)) as [i|] eqn:Hf.
  2:{ destruct (fork_no_slot s me Hl Hcur Hf) as (s' & Hrun & Hk & Hff). exists (-1), s', l. rewrite Hk.
      split_and!; [done|done|done|left]. split_and!; try done. by left. }
  pose proof (find_unused_ne s me i Hs Hcur Hf) as Hne.
  pose proof (find_proc_0 _ _ _ Hf) as (c & Hc & Hu). rewrite is_state_true in Hu.
  destruct l as [|ks l1].
  { destruct (fork_no_memory s me i Hl Hcur Hf Hinv) as (s' & Hrun & Hinv' & Hm & Hff). exists (-1), s', [].
    rewrite Hm. split_and!; [done|done|done|left]. split_and!; try done. right. unfold fork_cost. cbn. lia. }
  destruct (allocproc_ok s i ks l1 Hl Hf Hinv) as (k2 & Halloc & Hinv2 & Hm2).
  destruct (take_page _ _ _ Hinv) as (_ & _ & _ & Hks & Hksl & _).
  destruct (stack_init_spec (pa_mem (t_kern s)) ks) as (Hst & _ & W1 & W2).
  destruct (pa_inv_pages _ _ Hinv) as (Hps & _ & _). apply Forall_cons in Hps as [_ Hps].
  destruct (page_write_space (pa_mem (t_kern s)) (pa_mem k2) (p_pgdir p) (ks :: l1) ks) as (Has2 & _ & Hpte2); try done.
  { intros Hq. destruct (pt_page_ok _ _ _ _ (as_ok_pt _ _ _ Has) Hq) as [_ Hn]. apply Hn. by left. }
  { by rewrite Hm2. }
  apply (as_ok_sub _ _ _ l1) in Has2; [|by right].
  assert (Hcost : copy_cost data (pa_mem k2) (p_pgdir p) (p_sz p) = copy_cost data (pa_mem (t_kern s)) (p_pgdir p) (p_sz p)).
  { unfold copy_cost. by rewrite (mapped_ext _ _ _ _ Hpte2). }
  destruct (copyuvm_spec data (p_pgdir p) (p_sz p) k2 l1) as (d & k3 & l3 & Hcopy & Hinv3 & Hres); try done.
  assert (Hm3 : forall x, (forall q, q ∈ ks :: l1 -> ~ on_page q x) ->
    (forall x, (forall q, q ∈ l1 -> ~ on_page q x) -> pa_mem k3 x = pa_mem k2 x) -> pa_mem k3 x = pa_mem (t_kern s) x).
  { intros x Hx H3. rewrite H3, Hm2 by (intros q Hq; apply Hx; by right). apply Hst, Hx. by left. }
  rewrite Hcost in Hres. destruct Hres as [(Hd & Hlen & Hsp & Hkm & Hcop)|(-> & Hlen & Hq3 & Hx3)].
  - destruct (fork_tail s me i p c ks d k3 l3 Hl Hcur Hp Hc Hne Hd Hfiles (Hclosed i c Hc Hu) Hf k2 Halloc Hcopy Hinv3)
      as (f & Hrun).
    rewrite Hm2 in Hsp, Hcop. pose proof Hsp as (_ & A2 & _ & _ & _ & A6).
    destruct (fork_child (pa_mem (t_kern s)) (pa_mem k3) (p_pgdir p) ks l1 d l3 me (t_nextpid s) p c)
      as (Hfk & Hw & Hwf); try done.
    { by destruct (pa_inv_pages _ _ Hinv3) as (_ & _ & ?). }
    eexists _, _, l3. split_and!; [exact Hrun| | |].
    + cbn. apply pa_inv_setmem; [done|done|]. intros q x Hq Hx. apply Hw.
      apply (page_disjoint q ks x); try done; [|by intros ->; apply Hksl, A2].
      rewrite Forall_forall in Hps. auto.
    + cbn. rewrite pa_mem_setmem. intros x Hx. rewrite Hw by (apply Hx; by left). apply Hm3; [done|].
      by rewrite Hm2.
    + right. split; [done|]. split; [unfold fork_cost; cbn [length]; lia|]. exists i, c, (child_slot me (t_nextpid s) ks d p c). cbn. rewrite pa_mem_setmem.
      split_and!; try done. by apply alter_insert.
  - destruct (kfree_last k3 ks l3 Hinv3 Hks) as (k4 & Hk4 & Hinv4 & Hm4); [by rewrite Hq3|].
    destruct (fork_undo s me i p c ks k3 l3 k4 Hl Hcur Hp Hc Hne k2 Halloc Hcopy Hinv3 Hk4) as (s' & Hrun & Ek & Hff).
    exists (-1), s', (ks :: l3). rewrite Ek. split_and!; [done|done| |left; split_and!; [done| | |done]].
    + intros x Hx. rewrite Hm4 by (apply Hx; by left). by apply Hm3.
    + intros q. rewrite !elem_of_cons, Hq3. done.
    + right. unfold fork_cost. cbn [length]. lia.
Qed.

(** C2: [fork].  When there is a free slot and [fork_cost] pages are free (a kernel
    stack, and what [copyuvm] needs for the pages the parent has touched) it
    creates a child in the first free slot, with a new pid, the parent's size,
    open files and directory, a copy of the parent's address space in which
    untouched pages stay untouched, a kernel stack of its own and the parent's
    trap frame with %eax cleared (so that [fork] returns 0 in the child), out of
    exactly as many pages.  Otherwise it returns -1 with exactly the same free
    pages and the same table, in which the slot it had taken is free again.
    Memory that was not free, the parent's above all, is unchanged. *)
Theorem fork_correct (s : pst St F) me p l :
  fork_pre s me p l ->
  let slot := find_proc (is_state UNUSED) 0 (t_procs s) in
  let cost := fork_cost (pa_mem (t_kern s)) p in
  exists r s' l', fork data trapret forkret s = Ok (r, s') /\ pa_inv (t_kern s') l' /\
    (forall x, (forall q, q ∈ l -> ~ on_page q x) -> pa_mem (t_kern s') x = pa_mem (t_kern s) x) /\
    match slot, (cost <=? length l)%nat with
    | Some i, true =>
        r = t_nextpid s /\ length l = (length l' + cost)%nat /\ exists c, t_procs s' = <[i := c]> (t_procs s) /\
          p_pid c = r /\ forked (pa_mem (t_kern s)) (pa_mem (t_kern s')) l l' me p c
    | _, _ => r = -1 /\ (forall q, q ∈ l' <-> q ∈ l) /\ fork_failed s s' slot
    end.
Proof.
  intros Hpre slot cost. destruct (fork_spec s me p l Hpre) as (r & s' & l' & Hrun & Hinv & Hm & Hres).
  exists r, s', l'. split_and!; try done. fold slot cost in Hres.
  destruct Hres as [(-> & Hq & Hno & Hff)|(-> & Hlen & i & c0 & c & _ & _ & Hs' & Hpid & _ & _ & Hf & Hfk)].
  - destruct slot as [i|]; [|done]. destruct Hno as [?|Hno]; [done|]. by rewrite (proj2 (Nat.leb_gt _ _)).
  - rewrite Hf, (proj2 (Nat.leb_le _ _)) by lia. split_and!; try done. by exists c.
Qed.

(** ** [wait] *)

Lemma as_ok_cons m D l q :
  as_ok m D l -> ~ pt_page m D q ->
  (forall va, user_va va -> present (pte_at m D va) = true -> frame m D va <> q) -> as_ok m D (q :: l).
Proof.
  intros (O1 & O2 & O3) Hn Hf. split_and!; [by apply pt_ok_cons| |done].
  intros va Hu Hp. destruct (O2 va Hu Hp) as (F1 & F2 & F3). split_and!; [done| |done].
  apply not_elem_of_cons. split; [by apply Hf|done].
Qed.

(** The pages of a process: its kernel stack and its address space. *)
Definition proc_page (m : mem) (c : proc) (q : Z) : Prop := q = p_kstack c \/ space_page m (p_pgdir c) q.

(** C30: [wait] with a dead child.  It returns the pid and the exit status of the
    first zombie child in the table, frees that slot, and gives back exactly the
    child's pages: its kernel stack, its page tables and its user pages. *)
Theorem wait_collects (s : pst St F) me i c l :
  t_locked s = false -> t_cur s = Some me ->
  find_proc (fun p => bool_decide (p_parent p = Some me) && is_state ZOMBIE p) 0 (t_procs s) = Some i ->
  t_procs s !! i = Some c -> pa_inv (t_kern s) l -> as_ok (pa_mem (t_kern s)) (p_pgdir c) l ->
  pa_page (p_kstack c) -> (p_kstack c ∉ l) -> ~ pt_page (pa_mem (t_kern s)) (p_pgdir c) (p_kstack c) ->
  (forall va, user_va va -> present (pte_at (pa_mem (t_kern s)) (p_pgdir c) va) = true ->
     frame (pa_mem (t_kern s)) (p_pgdir c) va <> p_kstack c) ->
  exists s' c' l', wait s = Ok (WFound (p_pid c) (p_status c), s') /\ pa_inv (t_kern s') l' /\
    t_procs s' = <[i := c']> (t_procs s) /\ p_state c' = UNUSED /\ p_pid c' = 0 /\ p_parent c' = None /\
    (forall q, q ∈ l' <-> q ∈ l \/ proc_page (pa_mem (t_kern s)) c q).
Proof.
  intros Hl Hcur Hf Hc Hinv Has Hks Hksl Hnp Hnf. set (m := pa_mem (t_kern s)) in *.
  destruct (kfree_last (t_kern s) (p_kstack c) l Hinv Hks Hksl) as (k1 & Hk1 & Hinv1 & Hm1).
  destruct (page_write_space m (pa_mem k1) (p_pgdir c) l (p_kstack c) Has Hks Hnp Hm1) as (B1 & B2 & B3).
  assert (Hfra : forall va, frame (pa_mem k1) (p_pgdir c) va = frame m (p_pgdir c) va) by (intros; unfold frame; by rewrite B3).
  destruct (freevm_spec k1 (p_pgdir c) (p_kstack c :: l) Hinv1) as (k2 & l2 & Hk2 & Hinv2 & Hq2 & _).
  { apply as_ok_cons; [done|by rewrite B2|]. intros va Hva. rewrite B3, Hfra. auto. }
  set (s1 := set_t_locked true s).
  assert (Hlock : plock s = Ok (tt, s1)) by (unfold plock, acquire; by rewrite Hl).
  assert (Hmy : myproc s1 = Ok (me, s1)) by (unfold myproc; cbn; by rewrite Hcur).
  unfold wait. rewrite (mbind_ok _ _ _ _ _ Hlock). unfold wait_pass. rewrite (mbind_ok _ _ _ _ _ Hmy). mstep.
  change (t_procs s1) with (t_procs s). rewrite Hf.
  rewrite (mbind_ok _ _ s1 c s1) by (by apply getp_ok).
  rewrite (mbind_ok _ _ s1 tt (set_t_kern k1 s1)) by (by apply kern_ok). unfold setp. mstep.
  erewrite mbind_ok by (apply kern_ok; exact Hk2). mstep.
  erewrite mbind_ok by reflexivity.
  erewrite mbind_ok by (apply getp_ok; pcbn; change (t_procs s1) with (t_procs s); rewrite !list_alter_alter_eq, list_lookup_alter_eq, Hc; reflexivity).
  eexists _, _, l2. split_and!; [reflexivity|exact Hinv2| | | | |].
  - pcbn. unfold s1. pcbn. rewrite !list_alter_alter_eq. by apply alter_insert.
  - done.
  - done.
  - done.
  - intros q. rewrite Hq2, elem_of_cons. unfold proc_page, space_page, frame. setoid_rewrite B2. setoid_rewrite B3. tauto.
Qed.

(** [kill(0)].  The pid of a slot that is not in use is 0, and [kill] does not
    look at the state of the slot it finds: [kill(0)] succeeds and marks the
    first such slot as killed.  [allocproc] does not clear the mark, so the next
    process created there is already killed when it starts. *)
Theorem kill_zero_poisons (s : pst St F) i c0 :
  t_locked s = false -> find_proc (fun p => p_pid p =? 0) 0 (t_procs s) = Some i ->
  t_procs s !! i = Some c0 -> p_state c0 = UNUSED ->
  exists s1, kill 0 s = Ok (0, s1) /\ t_procs s1 = <[i := set_p_killed true c0]> (t_procs s) /\
    forall me p l, fork_pre s1 me p l -> find_proc (is_state UNUSED) 0 (t_procs s1) = Some i ->
      exists r s2, fork data trapret forkret s1 = Ok (r, s2) /\
        (r = -1 /\ (length l < fork_cost (pa_mem (t_kern s1)) p)%nat \/ exists c, t_procs s2 !! i = Some c /\ p_state c = RUNNABLE /\ p_killed c = true).
Proof.
  intros Hl Hf Hc Hu.
  set (s1 := set_t_locked false (set_t_procs (<[i := set_p_killed true c0]> (t_procs s)) (set_t_locked true s))).
  pose proof (lookup_lt_Some _ _ _ Hc) as Hlt.
  exists s1. split_and!; [|done|].
  - unfold kill, plock, punlock, acquire, release, setp, mbind, mget, mset, mret. rewrite Hl. pcbn. rewrite Hf. pcbn.
    unfold getp. pcbn. rewrite (alter_insert _ _ _ c0 Hc), list_lookup_insert_eq by done. pcbn.
    unfold mwhen, is_state. cbn [p_state set_p_killed]. rewrite Hu. cbn [bool_decide]. reflexivity.
  - intros me p l Hpre Hfu. destruct (fork_spec s1 me p l Hpre) as (r & s2 & l' & Hrun & _ & _ & Hres).
    exists r, s2. split; [done|]. destruct Hres as [(-> & _ & [Hno|Hfew] & _)|(_ & _ & j & d0 & c & Hj & _ & Hs2 & _ & Hk & _ & Hfj & Hfk)]; [congruence|by left|right].
    rewrite Hfu in Hfj. injection Hfj as <-. cbn in Hj. rewrite list_lookup_insert_eq in Hj by done.
    injection Hj as <-. exists c. rewrite Hs2. cbn. rewrite list_lookup_insert_eq by (by rewrite length_insert).
    destruct Hfk as (Hst & _). done.
Qed.

End Fork.

(** ** Witnesses

    A file layer that accepts everything, and the table right after boot: init
    runs in slot 0 and the other slots have never been used.  Memory is the one
    of the witnesses of [VmSpace]. *)

Definition witness_files : FileLayer kstate unit.
Proof.
  refine {| fl_filedup := fun f => mret f; fl_fileclose := fun _ => mret []; fl_idup := fun i => mret i;
            fl_iput := fun _ => mret tt; fl_begin_op := mret tt; fl_end_op := mret tt; fl_namei := fun _ => mret 1;
            fl_file := fun _ _ => True; fl_inode := fun _ _ => True |};
    intros s f _; exists s; by split_and!.
Defined.

Definition unused_slot : proc := mkProc 0 0 0 UNUSED 0 None 0 0 CNull false (replicate 16 0) 0 [] 0 0.
Definition init_slot : proc :=
  mkProc 0 0x80400000 0x80500000 RUNNING 1 None (0x80500000 + KSTACKSIZE - TF_SIZE) 0 CNull false
    (replicate 16 0) 1 [] 0 0.
Definition boot_table : list proc := init_slot :: replicate 63 unused_slot.
Definition boot_state : pst kstate unit := mkP false boot_table 2 (Some 0%nat) (Some 0%nat) 0 witness_state tt.

Lemma boot_lookup i p : boot_table !! i = Some p -> (i = 0%nat /\ p = init_slot) \/ (i <> 0%nat /\ p = unused_slot).
Proof.
  destruct i as [|i]; [intros [= <-]; by left|]. intros [-> _]%lookup_replicate. by right.
Qed.

Lemma boot_sinv : sinv boot_state.
Proof.
  split; [done|]. cbn [t_procs t_cur t_init t_nextpid boot_state].
  constructor; intros;
    repeat match goal with H : boot_table !! _ = Some _ |- _ => apply boot_lookup in H as [[-> ->]|[? ->]] end;
    try done; try congruence.
  - injection H as <-. by eexists.
  - split; [done|]. intros [= <-]. done.
  - by exists 0%nat, init_slot.
Qed.

(** Init, with the guard page [g] and memory for two pages, on the memory [k]. *)
Definition forking_slot (g : Z) : proc := set_p_guard g (set_p_sz 8192 init_slot).
Definition forking_state (g : Z) (k : kstate) : pst kstate unit :=
  mkP false (forking_slot g :: replicate 63 unused_slot) 2 (Some 0%nat) (Some 0%nat) 0 k tt.

Lemma forking_lookup g i p : t_procs (forking_state g witness_state) !! i = Some p ->
  (i = 0%nat /\ p = forking_slot g) \/ (i <> 0%nat /\ p = unused_slot).
Proof.
  destruct i as [|i]; [intros [= <-]; by left|]. intros [-> _]%lookup_replicate. by right.
Qed.

Lemma forking_sinv g k : sinv (forking_state g k).
Proof.
  split; [done|]. cbn [t_procs t_cur t_init t_nextpid forking_state].
  constructor; intros;
    repeat match goal with H : (forking_slot g :: _) !! _ = Some _ |- _ => apply forking_lookup in H as [[-> ->]|[? ->]] end;
    try done; try congruence.
  - injection H as <-. by eexists.
  - split; [done|]. intros [= <-]. done.
  - by exists 0%nat, (forking_slot g).
Qed.

Lemma forking_pre g k l :
  pa_inv (PageAllocator := witness_pa) k l ->
  as_ok (PA := witness_pa) (pa_mem (PageAllocator := witness_pa) k) 0x80400000 l -> (forall q, q ∈ l -> q ∈ pool 80) ->
  fork_pre (PA := witness_pa) (FL := witness_files) (forking_state g k) 0 (forking_slot g) l.
Proof.
  intros Hinv Has Hl. unfold fork_pre.
  split; [apply forking_sinv|]. split; [reflexivity|]. split; [reflexivity|]. split; [exact Hinv|]. split; [exact Has|].
  split; [exact (proj2 (proj2 data_ok))|]. split.
  { change (kpage 0x80200000 0x80500000). unfold kpage. split_and!; by vm_compute. }
  split; [intros H%Hl%pool_range; change (p_kstack (forking_slot g)) with 0x80500000 in H; lia|].
  split; [reflexivity|]. split; [by split_and!|].
  intros i c [[_ ->]|[_ ->]]%(forking_lookup g); [intros H; discriminate H|reflexivity].
Qed.

Lemma forking_cost g m : mapped m 0x80400000 8192 = [4096] -> fork_cost 0x80110000 m (forking_slot g) = 68%nat.
Proof. intros Hm. unfold fork_cost. cbn [p_pgdir p_sz forking_slot set_p_guard set_p_sz init_slot]. by rewrite (copy_cost_one _ _ Hm). Qed.

Lemma code_ok : is_u32 0x80105000 /\ is_u32 0x80103000 /\ 0x80110000 mod PGSIZE = 0 /\ KERNLINK < 0x80110000 < KERNBASE + PHYSTOP.
Proof. split_and!; by vm_compute. Qed.

(** Init has two pages of which the second is mapped, and 78 pages are free: the
    child gets pid 2 in slot 1 and has one page mapped, too. *)
Lemma fork_correct_witness :
  exists s' c, fork (PA := witness_pa) (FL := witness_files) 0x80110000 0x80105000 0x80103000 (forking_state 0 half_state) = Ok (2, s') /\
    t_procs s' = forking_slot 0 :: c :: replicate 62 unused_slot /\ p_pid c = 2 /\ p_state c = RUNNABLE /\
    forall va, va = 4096 <-> user_va va /\ present (pte_at (k_mem (t_kern s')) (p_pgdir c) va) = true.
Proof.
  destruct code_ok as (C1 & C2 & C3 & C4). destruct half_space as (l & Hinv & Hlen & Hl & Has & Hm & _).
  destruct (fork_correct (PA := witness_pa) (FL := witness_files) 0x80110000 0x80105000 0x80103000 C1 C2 C3 C4
    (forking_state 0 half_state) 0 (forking_slot 0) l (forking_pre 0 half_state l Hinv Has Hl)) as (r & s' & l' & Hrun & _ & _ & Hres).
  revert Hrun Hres Hm. generalize half_state as k. intros k Hrun Hres Hm. cbn zeta in Hres.
  assert (E : find_proc (is_state UNUSED) 0 (t_procs (forking_state 0 k)) = Some 1%nat) by reflexivity.
  change (t_kern (forking_state 0 k)) with k in Hres. rewrite E, (forking_cost 0 _ Hm), Hlen in Hres. clear E.
  destruct Hres as (-> & _ & c & Hs' & Hpid & Hst & _ & _ & _ & _ & _ & _ & _ & _ & _ & _ & Hcop & _).
  exists s', c. split; [exact Hrun|]. split; [exact Hs'|]. split; [exact Hpid|]. split; [exact Hst|].
  intros va. rewrite <- (mapped_copied (PA := witness_pa) _ _ _ _ _ _ (proj2 (proj2 (proj2 data_ok))) Hcop).
  symmetry. cbn [p_pgdir p_sz forking_slot set_p_guard set_p_sz init_slot]. rewrite Hm. apply list_elem_of_singleton.
Defined.

(** The boot table with a dead child of init in slot 1. *)
Definition dead_slot : proc :=
  mkProc 0 0x80400000 0x80500000 ZOMBIE 7 (Some 0%nat) 0 0 CNull false (replicate 16 0) 0 [] 768 0.
Definition dead_state : pst kstate unit :=
  mkP false [init_slot; dead_slot] 8 (Some 0%nat) (Some 0%nat) 0 witness_state tt.

Lemma wait_collects_witness :
  exists s', wait (PA := witness_pa) dead_state = Ok (WFound 7 768, s').
Proof.
  destruct (wait_collects (PA := witness_pa) (FL := witness_files) 0x80110000 0x80105000 0x80103000
    ltac:(by vm_compute) ltac:(by vm_compute) ltac:(by vm_compute) ltac:(by vm_compute)
    dead_state 0 1 dead_slot [0x80300000]) as (s' & c' & l' & Hrun & _).
  - reflexivity.
  - reflexivity.
  - reflexivity.
  - reflexivity.
  - apply witness_inv.
  - apply witness_space.
  - change (kpage 0x80200000 0x80500000). unfold kpage. split_and!; by vm_compute.
  - by intros ?%list_elem_of_singleton.
  - apply witness_no_table. done.
  - intros va _ Hp. discriminate Hp.
  - exists s'. exact Hrun.
Defined.

Lemma kill_zero_poisons_witness :
  exists s1, kill (St := kstate) (F := unit) 0 boot_state = Ok (0, s1).
Proof.
  destruct (kill_zero_poisons (PA := witness_pa) (FL := witness_files) 0x80110000 0x80105000 0x80103000
    ltac:(by vm_compute) ltac:(by vm_compute) ltac:(by vm_compute) ltac:(by vm_compute)
    boot_state 1 unused_slot) as (s1 & Hrun & _); [reflexivity..|].
  exists s1. exact Hrun.
Defined.

Lemma process_table_invariant_witness :
  exists s', kill (St := kstate) (F := unit) 1 boot_state = Ok (0, s') /\ sinv s'.
Proof.
  eexists. split; [reflexivity|].
  apply (process_table_invariant (PA := witness_pa) (FL := witness_files) 0x80110000 0x80105000 0x80103000 boot_state).
  - apply boot_sinv.
  - eapply reach_step; [apply reach_refl|]. apply (st_kill _ _ _ 1 0). reflexivity.
Defined.

(** Init is runnable; the scan stands at slot [scan]. *)
Definition idle_state (scan : nat) : pst kstate unit :=
  mkP false (alter (set_p_state RUNNABLE) 0%nat boot_table) 2 (Some 0%nat) None scan witness_state tt.

Lemma scheduler_fair_witness :
  exists t t', (t ∈ idle_state 0 :: replicate 63 (idle_state 1)) /\
    scheduler t = Ok (true, t') /\ t_cur t' = Some 0%nat.
Proof.
  apply (scheduler_fair 0 (idle_state 0 :: replicate 63 (idle_state 1))).
  - intros s [->|[-> _]%elem_of_replicate]%elem_of_cons;
      (split_and!; [done|done|by vm_compute; lia|]); by eexists.
  - intros [|k] s t Hs Ht.
    + injection Hs as <-. apply lookup_replicate in Ht as [-> _]. by eexists _, _.
    + apply lookup_replicate in Hs as [-> _]. apply lookup_replicate in Ht as [-> _]. by eexists _, _.
  - done.
Defined.
