(* ===== verification/Trap.v ===== *)
(** * Traps and system-call arguments: trap.c, syscall.c, sysproc.c, user.h

    The page-fault handler with lazy allocation ([reservarPagina]), the
    dispatch of [trap], the kernel's access to user memory, [fetchint],
    [fetchstr], [argint], [argptr], [argstr], the system calls of sysproc.c and
    the exit-status macros of user.h.  The state adds [ticks] and its lock to
    that of [Proc]. *)

From Stdlib Require Import ZArith Lia String.
From stdpp Require Import base numbers list sets.
From S2P Require Import Prelude Bytes Params Kalloc Vm VmSpace Proc ProcInv ProcFork.

Local Open Scope Z_scope.
Local Open Scope kernel_scope.

(** ** user.h *)

Definition WIFEXITED (status : Z) : bool := Z.land status 0x7f =? 0.
Definition WEXITSTATUS (status : Z) : Z := Z.shiftr (Z.land status 0xff00) 8.
Definition WIFSIGNALED (status : Z) : bool := negb (Z.land status 0x7f =? 0).
Definition WEXITTRAP (status : Z) : Z := Z.land status 0x7f - 1.

(** ** State *)

Record kst (St F : Type) := mkKst {
  ks_p : pst St F;
  ks_ticks : Z;        (* ticks *)
  ks_tlock : bool      (* tickslock *)
}.
Arguments mkKst {St F} _ _ _.
Arguments ks_p {St F} _.
Arguments ks_ticks {St F} _.
Arguments ks_tlock {St F} _.

Definition set_ks_p {St F} (p : pst St F) (s : kst St F) : kst St F := mkKst p (ks_ticks s) (ks_tlock s).
Definition set_ks_ticks {St F} (t : Z) (s : kst St F) : kst St F := mkKst (ks_p s) t (ks_tlock s).
Definition set_ks_tlock {St F} (b : bool) (s : kst St F) : kst St F := mkKst (ks_p s) (ks_ticks s) b.

Section Trap.
Context {St F : Type} {PA : PageAllocator St} {FL : FileLayer St F}.
Variables (data trapret forkret : Z).

Abbreviation PM := (M (pst St F)).
Abbreviation KM := (M (kst St F)).

Definition pm {A} (c : PM A) : KM A :=
  fun s => obind (c (ks_p s)) (fun '(a, p) => Ok (a, set_ks_p p s)).

(** ** trap.c *)

Definition reservarPagina (i : nat) (va : Z) : PM Z :=
  let! p := getp i in
  kern (
    let a := PGROUNDDOWN va in
    let! mem := pa_kalloc in
    if mem =? 0 then mret (-1)
    else
      kmemset mem 0 PGSIZE ;;!
      let! r := mappages (p_pgdir p) a PGSIZE (V2P mem) (Z.lor PTE_W PTE_U) in
      if r <? 0 then pa_kfree mem ;;! mret (-1) else mret 0).

(** [case T_PGFLT] of [trap]; [cr2] is the faulting address. *)
Definition page_fault (cr2 : Z) : PM unit :=
  let dirErr := PGROUNDDOWN cr2 in
  let! me := myproc in
  let! p := getp me in
  if dirErr >=? p_sz p then setp me (set_p_killed true)
  else if dirErr >=? KERNBASE then setp me (set_p_killed true)
  else if dirErr =? p_guard p then setp me (set_p_killed true)
  else
    let! r := reservarPagina me cr2 in
    mwhen (r <? 0) (setp me (set_p_killed true)).

(** How [trap] ends: it returns to the interrupted code, the process exits, or
    it gives the CPU up in [yield] and runs [trap_resume] when it is back. *)
Inductive trap_res := TReturn | TExit | TYield.

(** The last test of [trap], after [yield]. *)
Definition trap_resume (trapno cs : Z) : PM trap_res :=
  let! cur := mget t_cur in
  match cur with
  | None => mret TReturn
  | Some me =>
      let! p := getp me in
      if p_killed p && (Z.land cs 3 =? DPL_USER) then exit (s32 (trapno + 1)) ;;! mret TExit
      else mret TReturn
  end.

(** From [Force process exit] to the end. *)
Definition trap_tail (trapno cs : Z) : PM trap_res :=
  let! cur := mget t_cur in
  match cur with
  | None => mret TReturn
  | Some me =>
      let! p := getp me in
      if p_killed p && (Z.land cs 3 =? DPL_USER) then exit (s32 (trapno + 1)) ;;! mret TExit
      else if is_state RUNNING p && (trapno =? T_IRQ0 + IRQ_TIMER) then yield ;;! mret TYield
      else trap_resume trapno cs
  end.

(** The devices' interrupt handlers and [syscall]. *)
Variables (ideintr kbdintr uartintr : KM unit) (syscall : KM unit).

Definition tick : KM unit :=
  acquire ks_tlock set_ks_tlock ;;!
  mset (fun s => set_ks_ticks (u32 (ks_ticks s + 1)) s) ;;!
  pm (wakeup CTicks) ;;!
  release ks_tlock set_ks_tlock.

(** The [switch]; [lapiceoi] acknowledges the interrupt and [cprintf] prints. *)
Definition trap_switch (trapno cs cr2 : Z) : KM unit :=
  if trapno =? T_IRQ0 + IRQ_TIMER then tick
  else if trapno =? T_IRQ0 + IRQ_IDE then ideintr
  else if trapno =? T_IRQ0 + IRQ_IDE + 1 then mret tt
  else if trapno =? T_IRQ0 + IRQ_KBD then kbdintr
  else if trapno =? T_IRQ0 + IRQ_COM1 then uartintr
  else if (trapno =? T_IRQ0 + 7) || (trapno =? T_IRQ0 + IRQ_SPURIOUS) then mret tt
  else if trapno =? T_PGFLT then pm (page_fault cr2)
  else
    let! cur := mget (fun s => t_cur (ks_p s)) in
    match cur with
    | None => mpanic "trap"
    | Some me =>
        if Z.land cs 3 =? 0 then mpanic "trap" else pm (setp me (set_p_killed true))
    end.

(** [tf] is the address of the trap frame the CPU and alltraps built. *)
Definition trap (tf trapno cs cr2 : Z) : KM trap_res :=
  if trapno =? T_SYSCALL then
    let! me := pm myproc in
    let! p := pm (getp me) in
    if p_killed p then pm (exit 0) ;;! mret TExit
    else
      pm (setp me (set_p_tf tf)) ;;!
      syscall ;;!
      let! cur := mget (fun s => t_cur (ks_p s)) in
      match cur with
      | None => mret TYield
      | Some me =>
          let! p := pm (getp me) in
          if p_killed p then pm (exit 0) ;;! mret TExit else mret TReturn
      end
  else trap_switch trapno cs cr2 ;;! pm (trap_tail trapno cs).

(** ** The kernel's accesses to user memory

    Kernel code reads user addresses through the current page table.  An
    address that is not mapped faults; the handler maps it or marks the process
    killed, and the access is tried again, for ever in the second case. *)

(** The kernel address behind [va], if it is mapped. *)
Definition translate (m : mem) (pgdir va : Z) : option Z :=
  let e := pte_at m pgdir (PGROUNDDOWN va) in
  if present e then Some (P2V (PTE_ADDR e) + va mod PGSIZE) else None.

Definition uaddr (va : Z) : PM Z :=
  let! me := myproc in
  let! p := getp me in
  let! k := mget t_kern in
  match translate (pa_mem k) (p_pgdir p) va with
  | Some a => mret a
  | None =>
      page_fault va ;;!
      let! k := mget t_kern in
      match translate (pa_mem k) (p_pgdir p) va with
      | Some a => mret a
      | None => mnofuel
      end
  end.

Definition uload (va : Z) : PM Z :=
  let! a := uaddr va in mget (fun s => pa_mem (t_kern s) a).
Definition ustore (va v : Z) : PM unit :=
  let! a := uaddr va in kern (mset (fun k => pa_setmem (put8 (pa_mem k) a v) k)).

(** A little-endian word, byte by byte. *)
Definition uload32 (va : Z) : PM Z :=
  let! b0 := uload va in
  let! b1 := uload (u32 (va + 1)) in
  let! b2 := uload (u32 (va + 2)) in
  let! b3 := uload (u32 (va + 3)) in
  mret (b0 + 2 ^ 8 * b1 + 2 ^ 16 * b2 + 2 ^ 24 * b3).
Definition ustore32 (va v : Z) : PM unit :=
  ustore va (u8 v) ;;!
  ustore (u32 (va + 1)) (u8 (Z.shiftr v 8)) ;;!
  ustore (u32 (va + 2)) (u8 (Z.shiftr v 16)) ;;!
  ustore (u32 (va + 3)) (u8 (Z.shiftr v 24)).

(** ** syscall.c

    [None] is the result -1; otherwise the value stored through the pointer. *)

Definition fetchint (addr : Z) : PM (option Z) :=
  let! me := myproc in
  let! p := getp me in
  if (addr >=? p_sz p) || (u32 (addr + 4) >? p_sz p) then mret None
  else let! v := uload32 addr in mret (Some (s32 v)).

Fixpoint fetchstr_loop (fuel : nat) (s0 s ep : Z) : PM (option Z) :=
  if s <? ep then
    match fuel with
    | O => mnofuel
    | Datatypes.S f =>
        let! c := uload s in
        if c =? 0 then mret (Some (s - s0)) else fetchstr_loop f s0 (s + 1) ep
    end
  else mret None.

(** The length of the string at [addr]; [*pp] is [addr]. *)
Definition fetchstr (addr : Z) : PM (option Z) :=
  let! me := myproc in
  let! p := getp me in
  if addr >=? p_sz p then mret None
  else fetchstr_loop (Z.to_nat (p_sz p - addr)) addr addr (p_sz p).

Definition argint (n : Z) : PM (option Z) :=
  let! me := myproc in
  let! p := getp me in
  let! esp := kern (rd (p_tf p + TF_ESP)) in
  fetchint (u32 (esp + 4 + 4 * n)).

Definition argptr (n size : Z) : PM (option Z) :=
  let! me := myproc in
  let! r := argint n in
  let! p := getp me in
  match r with
  | None => mret None
  | Some i =>
      if (size <? 0) || (u32 i >=? p_sz p) || (u32 (u32 i + size) >? p_sz p) then mret None
      else mret (Some (u32 i))
  end.

Definition argstr (n : Z) : PM (option (Z * Z)) :=
  let! r := argint n in
  match r with
  | None => mret None
  | Some addr =>
      let! l := fetchstr (u32 addr) in
      mret (match l with Some len => Some (u32 addr, len) | None => None end)
  end.

(** [syscalls[num]()]: [table] is the array (1 to 24), each entry returning the
    value for %eax, or nothing when the process gave the CPU up inside. *)
Definition syscall_ (table : Z -> option (KM (option Z))) : KM unit :=
  let! me := pm myproc in
  let! p := pm (getp me) in
  let! eax := pm (kern (rd (p_tf p + TF_EAX))) in
  let num := s32 eax in
  match (if (num >? 0) && (num <? 25) then table num else None) with
  | Some f =>
      let! r := f in
      match r with
      | Some v => pm (kern (wr (p_tf p + TF_EAX) (u32 v)))
      | None => mret tt
      end
  | None => pm (kern (wr (p_tf p + TF_EAX) (u32 (-1))))
  end.

(** ** sysproc.c *)

Definition sys_fork : PM Z := fork data trapret forkret.

(** Does not return unless the argument cannot be read. *)
Definition sys_exit : PM (option Z) :=
  let! r := argint 0 in
  match r with
  | None => mret (Some (-1))
  | Some status => exit (s32 (Z.shiftl status 8)) ;;! mret None
  end.

(** The return value, with the store through the user pointer; nothing when the
    process went to sleep in [wait] and will run [wait_pass] again. *)
Definition sys_wait : PM (option Z) :=
  let! r := argptr 0 4 in
  match r with
  | None => mret (Some (-1))
  | Some status =>
      let! w := wait in
      match w with
      | WFound pid st => ustore32 status st ;;! mret (Some pid)
      | WNone => mret (Some (-1))
      | WSleep => mret None
      end
  end.

Definition sys_kill : PM Z :=
  let! r := argint 0 in
  match r with None => mret (-1) | Some pid => kill pid end.

Definition sys_getpid : PM Z :=
  let! me := myproc in
  let! p := getp me in
  mret (p_pid p).

Definition sys_sbrk : PM Z :=
  let! r := argint 0 in
  match r with
  | None => mret (-1)
  | Some n =>
      let! me := myproc in
      let! p := getp me in
      let addr := s32 (p_sz p) in
      if n <? 0 then
        let! g := growproc n in
        if g <? 0 then mret (-1) else mret addr
      else
        setp me (fun q => set_p_sz (u32 (p_sz q + n)) q) ;;!
        mret addr
  end.

(** One pass of the loop of [sys_sleep], with [tickslock] held: the result of the
    system call, or nothing when the process sleeps on [&ticks]. *)
Definition sleep_pass (n ticks0 : Z) : KM (option Z) :=
  let! t := mget ks_ticks in
  if u32 (t - ticks0) <? u32 n then
    let! me := pm myproc in
    let! p := pm (getp me) in
    if p_killed p then release ks_tlock set_ks_tlock ;;! mret (Some (-1))
    else
      (* sleep(&ticks, &tickslock) *)
      pm plock ;;!
      release ks_tlock set_ks_tlock ;;!
      pm (sleep CTicks) ;;!
      mret None
  else release ks_tlock set_ks_tlock ;;! mret (Some 0).

Definition sys_sleep : KM (option Z) :=
  let! r := pm (argint 0) in
  match r with
  | None => mret (Some (-1))
  | Some n =>
      acquire ks_tlock set_ks_tlock ;;!
      let! ticks0 := mget ks_ticks in
      sleep_pass n ticks0
  end.

Definition sys_uptime : KM Z :=
  acquire ks_tlock set_ks_tlock ;;!
  let! xticks := mget ks_ticks in
  release ks_tlock set_ks_tlock ;;!
  mret (s32 xticks).

(** ** Facts *)

(** The handler on a fault in a page that may be mapped: the first free page, if
    any, is cleared and mapped there. *)
Lemma reservarPagina_spec (s : pst St F) me p va l :
  t_procs s !! me = Some p -> pa_inv (t_kern s) l -> as_ok (pa_mem (t_kern s)) (p_pgdir p) l ->
  is_u32 va -> PGROUNDDOWN va < KERNBASE ->
  present (pte_at (pa_mem (t_kern s)) (p_pgdir p) (PGROUNDDOWN va)) = false ->
  let a := PGROUNDDOWN va in
  let cost := page_cost (pa_mem (t_kern s)) (p_pgdir p) a in
  exists r k' l', reservarPagina me va s = Ok (r, set_t_kern k' s) /\ pa_inv k' l' /\
    ((r = 0 /\ length l = (length l' + cost)%nat /\ uspace_grow (pa_mem (t_kern s)) (pa_mem k') (p_pgdir p) a (a + PGSIZE) l l') \/
     (r = -1 /\ (length l < cost)%nat /\ uspace_grow (pa_mem (t_kern s)) (pa_mem k') (p_pgdir p) a a l l')).
Proof.
  intros Hp Hinv Has Hva HK Habs a. fold a in HK, Habs.
  assert (Hu : user_va a).
  { split; [|done]. unfold a. rewrite pgrounddown_eq by done. unfold page_va, is_u32, PGSIZE in *. split; zlia. }
  pose proof (page_grow_cost (pa_mem (t_kern s)) (p_pgdir p) a Hu) as <-.
  pose proof (page_next a Hu) as [Hnx HKn]. destruct (pa_inv_pages _ _ Hinv) as (_ & Hnd & _).
  unfold reservarPagina. rewrite (mbind_ok _ _ _ _ _ (getp_ok _ _ _ Hp)). unfold kern. fold a.
  destruct l as [|q l].
  - destruct (pa_kalloc_empty _ Hinv) as (k1 & Hk & Hinv1 & Hm1). rewrite (mbind_ok _ _ _ _ _ Hk).
    exists (-1), k1, []. split_and!; [done|done|right]. rewrite Hm1. split_and!; [done| |by apply grow_refl].
    apply (grow_short _ (pa_mem (t_kern s)) _ a a _ [] []); try done; [apply Hu|apply Hu|unfold PGSIZE; lia|by apply grow_refl|apply tabs_refl|by left].
  - destruct (fresh_page (t_kern s) (p_pgdir p) a q l (mret (-1))
      (fun mem r => if r <? 0 then pa_kfree mem ;;! mret (-1) else mret 0) Hinv Has Hu Habs)
      as (r & k1 & l1 & -> & Hinv1 & Hq & Hql & Ht & Hres).
    destruct (pa_inv_pages _ _ Hinv1) as (_ & Hnd1 & _).
    destruct Hres as [(-> & G)|(-> & -> & Hno & G)]; cbn [Z.ltb Z.compare].
    + exists 0, k1, l1. split_and!; [done|done|left]. split; [done|].
      apply (grow_finished _ _ _ _ (a + PGSIZE)); try done; [apply Hu|unfold PGSIZE; lia|right; unfold PGSIZE; lia|].
      revert Ht. apply tabs_mono. intros i [_ ->]. apply elem_of_pdxs. exists a. split; [|done].
      apply elem_of_pages; [apply Hu|unfold KERNBASE in *; lia|]. split; [apply Hu|unfold PGSIZE; lia].
    + destruct (kfree_last k1 q [] Hinv1 Hq Hql) as (k2 & Hk2 & Hinv2 & Hm2).
      rewrite (mbind_ok _ _ _ _ _ Hk2). exists (-1), k2, [q]. split_and!; [done|done|right]. split; [done|]. split.
      * apply (grow_short _ (pa_mem k1) _ a a _ _ [q]); try done; [apply NoDup_singleton|apply Hu|apply Hu|unfold PGSIZE; lia| |by right].
        revert Ht. apply tabs_mono. by intros i [? _].
      * apply (grow_touch _ (pa_mem k1)); [done|by apply Forall_singleton|].
        intros x Hx. apply Hm2, Hx. by left.
Qed.

(** Addresses the page-fault handler refuses. *)
Definition fault_refused (p : proc) (va : Z) : bool :=
  (PGROUNDDOWN va >=? p_sz p) || (PGROUNDDOWN va >=? KERNBASE) || (PGROUNDDOWN va =? p_guard p).

Lemma page_fault_refused (s : pst St F) me p va :
  t_cur s = Some me -> t_procs s !! me = Some p -> fault_refused p va = true ->
  page_fault va s = Ok (tt, set_t_procs (alter (set_p_killed true) me (t_procs s)) s).
Proof.
  intros Hcur Hp Hr. unfold page_fault, myproc, mbind. rewrite Hcur. pcbn. rewrite (getp_ok _ _ _ Hp). pcbn.
  unfold fault_refused in Hr. destruct (_ >=? p_sz p); [done|]. destruct (_ >=? KERNBASE); [done|].
  cbn in Hr. by rewrite Hr.
Qed.

Lemma page_fault_allowed (s : pst St F) me p va :
  t_cur s = Some me -> t_procs s !! me = Some p -> fault_refused p va = false ->
  page_fault va s = (let! r := reservarPagina me va in mwhen (r <? 0) (setp me (set_p_killed true))) s.
Proof.
  intros Hcur Hp Hr. unfold page_fault, myproc, mbind. rewrite Hcur. pcbn. rewrite (getp_ok _ _ _ Hp). pcbn.
  unfold fault_refused in Hr. apply orb_false_iff in Hr as [Hr H3]. apply orb_false_iff in Hr as [H1 H2].
  by rewrite H1, H2, H3.
Qed.

Lemma land_7f z : Z.land z 0x7f = z mod 128.
Proof. change 0x7f with (Z.ones 7). by rewrite Z.land_ones. Qed.

Lemma status_exited n : let e := s32 (Z.shiftl n 8) in
  WIFEXITED e = true /\ WIFSIGNALED e = false /\ WEXITSTATUS e = n mod 256.
Proof.
  cbv zeta. unfold WIFEXITED, WIFSIGNALED, WEXITSTATUS. rewrite land_7f, Z.shiftr_land.
  change (Z.shiftr 0xff00 8) with (Z.ones 8). rewrite Z.land_ones, Z.shiftr_div_pow2, Z.shiftl_mul_pow2 by lia.
  assert (E : s32 (n * 2 ^ 8) mod 128 = 0) by (unfold s32; zlia).
  rewrite E. split_and!; [done|done|]. unfold s32. zlia.
Qed.

Lemma status_trapped t : 0 <= t < 127 -> let k := s32 (t + 1) in
  WIFEXITED k = false /\ WIFSIGNALED k = true /\ WEXITTRAP k = t.
Proof.
  intros Ht. cbv zeta. rewrite s32_small by lia. unfold WIFEXITED, WIFSIGNALED, WEXITTRAP. rewrite land_7f.
  rewrite Z.mod_small by lia. rewrite (proj2 (Z.eqb_neq _ _)) by lia. split_and!; [done|done|lia].
Qed.

(** The process in slot [me] has status [st]; kept by what does not set it. *)
Definition has_status (me : nat) (st : Z) (ps : list proc) : Prop :=
  exists p, ps !! me = Some p /\ p_status p = st.

Lemma has_status_alter me st f i ps :
  (forall p, p_status (f p) = p_status p) -> has_status me st ps -> has_status me st (alter f i ps).
Proof.
  intros Hf (p & Hp & Hst). unfold has_status. rewrite list_lookup_alter. destruct (decide (i = me)) as [->|].
  - rewrite Hp. exists (f p). split; [done|]. by rewrite Hf.
  - by exists p.
Qed.

Lemma has_status_wake me st c ps : has_status me st ps -> has_status me st (wake c <$> ps).
Proof.
  intros (p & Hp & Hst). exists (wake c p). rewrite list_lookup_fmap, Hp. split; [done|].
  unfold wake. by destruct (_ && _).
Qed.

Lemma reparent_status me st (s : pst St F) :
  has_status me st (t_procs s) -> post (reparent me) s (fun _ s' => has_status me st (t_procs s')).
Proof.
  intros Hs. unfold reparent.
  eapply post_conseq; [apply (post_for (fun _ t => has_status me st (t_procs t)) _ _ _ _ Hs)|by cbn].
  intros j t _ Ht. prun. apply post_when; intros _; prun; [|done].
  assert (Ha : has_status me st (alter (set_p_parent (t_init t)) (Z.to_nat j) (t_procs t))) by (by apply has_status_alter).
  apply post_when; intros _; [|done]. destruct (t_init t); unfold wakeup1; prun; by apply has_status_wake.
Qed.

Lemma fileclose_all_status me st (s : pst St F) :
  has_status me st (t_procs s) -> post (fileclose_all me) s (fun _ s' => has_status me st (t_procs s')).
Proof.
  intros Hs. eapply post_conseq; [apply (fileclose_all_keeps (has_status me st))|by intros u t [? _]]; [| |done].
  - intros c ps. apply has_status_wake.
  - intros g ps. by apply has_status_alter.
Qed.

#[local] Opaque reparent fileclose_all.

(** [exit] leaves the status in the zombie's slot. *)
Lemma exit_status st (s : pst St F) me :
  t_cur s = Some me -> is_Some (t_procs s !! me) ->
  post (exit st) s (fun _ s' => exists p, t_procs s' !! me = Some p /\ p_state p = ZOMBIE /\ p_status p = st).
Proof.
  intros Hcur [p Hp]. unfold exit. prun. rewrite Hcur in Hme. injection Hme as <-. destruct (bool_decide _); prun.
  eapply post_conseq; [apply (fileclose_all_status me st)|].
  { pcbn. exists (set_p_status st p). by rewrite list_lookup_alter_eq, Hp. }
  intros u t Ht. prun. unfold wakeup1. prun. eapply post_conseq; [apply (reparent_status me st)|].
  { pcbn. apply has_status_wake. by apply has_status_alter. }
  intros u0 t' (q & Hq & Hst). unfold sched. prun. destruct (negb _); prun. destruct (is_state _ _); prun.
  exists (set_p_state ZOMBIE q). by rewrite list_lookup_alter_eq, Hq.
Qed.

(** ** Properties *)

(** C16: the page-fault handler implements lazy allocation.  A fault at an address
    past the size, in the kernel's part or in the guard page marks the process
    killed and touches nothing else.  Any other fault on a page that is not
    mapped maps a zeroed page there, changing no other entry and nobody's memory,
    exactly when there is enough memory: a free page, and another one when the
    page table is missing, and it takes just those.  With less memory it marks the
    process killed and maps nothing. *)
Theorem page_fault_lazy (s : pst St F) me p va l :
  t_cur s = Some me -> t_procs s !! me = Some p -> pa_inv (t_kern s) l ->
  as_ok (pa_mem (t_kern s)) (p_pgdir p) l -> is_u32 va ->
  present (pte_at (pa_mem (t_kern s)) (p_pgdir p) (PGROUNDDOWN va)) = false ->
  let a := PGROUNDDOWN va in
  let killed := alter (set_p_killed true) me (t_procs s) in
  let cost := page_cost (pa_mem (t_kern s)) (p_pgdir p) a in
  if fault_refused p va then page_fault va s = Ok (tt, set_t_procs killed s)
  else exists k' l', pa_inv k' l' /\
    if (cost <=? length l)%nat then
      page_fault va s = Ok (tt, set_t_kern k' s) /\ length l = (length l' + cost)%nat /\
      uspace_grow (pa_mem (t_kern s)) (pa_mem k') (p_pgdir p) a (a + PGSIZE) l l'
    else
      page_fault va s = Ok (tt, set_t_procs killed (set_t_kern k' s)) /\
      uspace_grow (pa_mem (t_kern s)) (pa_mem k') (p_pgdir p) a a l l'.
Proof.
  intros Hcur Hp Hinv Has Hva Habs a killed cost. destruct (fault_refused p va) eqn:Hr.
  - by apply (page_fault_refused s me p).
  - assert (HK : PGROUNDDOWN va < KERNBASE).
    { unfold fault_refused in Hr. zbool. lia. }
    destruct (reservarPagina_spec s me p va l Hp Hinv Has Hva HK Habs) as (r & k' & l' & Hrun & Hinv' & Hres).
    fold a cost in Hres. exists k', l'. split; [done|]. rewrite (page_fault_allowed s me p va Hcur Hp Hr), (mbind_ok _ _ _ _ _ Hrun).
    destruct Hres as [(-> & Hl & G)|(-> & Hl & G)].
    + by rewrite (proj2 (Nat.leb_le _ _)) by lia.
    + by rewrite (proj2 (Nat.leb_gt _ _)).
Qed.

(** Exit statuses, from [exit] to the macros a parent applies to what [wait]
    stores.  After [exit(n)] ([sys_exit] passes [n << 8]) the zombie's status is
    read as exited with status [n] modulo 256; a process that [trap] ends for trap
    [t] (passing [t + 1]) is read as signaled with trap [t]. *)
Theorem exit_status_roundtrip (s s' : pst St F) me n t :
  t_cur s = Some me -> is_Some (t_procs s !! me) -> 0 <= t < 127 ->
  (exit (s32 (Z.shiftl n 8)) s = Ok (tt, s') ->
     exists p, t_procs s' !! me = Some p /\ p_state p = ZOMBIE /\ WIFEXITED (p_status p) = true /\
       WIFSIGNALED (p_status p) = false /\ WEXITSTATUS (p_status p) = n mod 256) /\
  (exit (s32 (t + 1)) s = Ok (tt, s') ->
     exists p, t_procs s' !! me = Some p /\ p_state p = ZOMBIE /\ WIFEXITED (p_status p) = false /\
       WIFSIGNALED (p_status p) = true /\ WEXITTRAP (p_status p) = t).
Proof.
  intros Hcur Hme Ht. split; intros Hrun; destruct (exit_status _ s me Hcur Hme _ _ Hrun) as (p & Hp & Hz & Hst); exists p;
    (split; [done|]); (split; [done|]); rewrite Hst.
  - apply status_exited.
  - by apply status_trapped.
Qed.

(** A fault on a page that is present makes the handler panic, when a page is
    free, unless it refuses the address. *)
Lemma page_fault_present (s : pst St F) me p va q l :
  t_cur s = Some me -> t_procs s !! me = Some p -> pa_inv (t_kern s) (q :: l) ->
  as_ok (pa_mem (t_kern s)) (p_pgdir p) (q :: l) -> is_u32 va -> fault_refused p va = false ->
  present (pte_at (pa_mem (t_kern s)) (p_pgdir p) (PGROUNDDOWN va)) = true ->
  page_fault va s = Panic "remap".
Proof.
  intros Hcur Hp Hinv Has Hva Hr Hpr.
  rewrite (page_fault_allowed s me p va Hcur Hp Hr). unfold mbind, reservarPagina.
  unfold mbind at 1. rewrite (getp_ok _ _ _ Hp). cbn [obind]. unfold kern.
  rewrite (remap_panics _ _ _ q l); try done. rewrite pgrounddown_eq by done.
  unfold page_va, is_u32, PGSIZE in *. split; zlia.
Qed.

(** C39: [fork] does not copy [inicio_pagina_guarda].  The parent has a guard page,
    present without user access as [exec] leaves it.  [fork] finds a slot that
    does not happen to hold the same value from an earlier process, and memory
    enough for the child and one more page.  In the child the guard page is
    present without user access, too, so touching it faults; whenever the child
    runs with the slot and the memory [fork] gave it, the page-fault handler then
    does not see a guard page, tries to map a page that is present, and the
    kernel panics. *)
Theorem forked_guard_panics (s : pst St F) me p l i c0 va :
  is_u32 trapret -> is_u32 forkret -> data mod PGSIZE = 0 -> KERNLINK < data < KERNBASE + PHYSTOP ->
  fork_pre s me p l -> find_proc (is_state UNUSED) 0 (t_procs s) = Some i -> t_procs s !! i = Some c0 ->
  (fork_cost data (pa_mem (t_kern s)) p < length l)%nat ->
  is_u32 va -> PGROUNDDOWN va = p_guard p -> p_guard p < p_sz p -> p_guard c0 <> p_guard p ->
  let pte := pte_at (pa_mem (t_kern s)) (p_pgdir p) (p_guard p) in
  present pte = true -> Z.land (PTE_FLAGS pte) PTE_U = 0 ->
  exists s' c, fork data trapret forkret s = Ok (t_nextpid s, s') /\ t_procs s' !! i = Some c /\ p_state c = RUNNABLE /\
    (let pte' := pte_at (pa_mem (t_kern s')) (p_pgdir c) (p_guard p) in
     present pte' = true /\ Z.land (PTE_FLAGS pte') PTE_U = 0) /\
    forall t c', t_cur t = Some i -> t_kern t = t_kern s' -> t_procs t !! i = Some c' ->
      p_pgdir c' = p_pgdir c -> p_sz c' = p_sz c -> p_guard c' = p_guard c ->
      page_fault va t = Panic "remap".
Proof.
  intros Htr Hfr Hd Hd' Hpre Hf Hc0 Hlen Hva Hg Hsz Hne pte Hpr Hnu. pose proof Hpre as (_ & _ & _ & _ & _ & HK & _).
  destruct (fork_spec data trapret forkret Htr Hfr Hd Hd' s me p l Hpre) as (r & s' & l' & Hrun & Hinv & _ & Hres).
  destruct Hres as [(_ & _ & [?|?] & _)|(-> & Hl & j & d0 & c & Hj & _ & Hs' & _ & _ & Hgc & Hf' & Hfk)]; [congruence|lia|].
  assert (j = i) as -> by congruence. assert (d0 = c0) as -> by congruence.
  destruct Hfk as (Hst & _ & Hszc & _ & _ & _ & _ & _ & _ & Has & _ & Hcop & _).
  assert (Hu : user_va (p_guard p)).
  { rewrite <- Hg. split; [|lia]. rewrite pgrounddown_eq by done. unfold page_va, is_u32, PGSIZE in *. split; zlia. }
  specialize (Hcop _ Hu). fold pte in Hcop. rewrite Hpr, (proj2 (Z.ltb_lt _ _) Hsz) in Hcop. destruct Hcop as (Hp' & Hfl & _).
  exists s', c. cbv zeta. split_and!; [done|rewrite Hs'; apply list_lookup_insert_eq; by eapply lookup_lt_Some|done|done|by fold pte in Hfl; rewrite Hfl|].
  intros t c' Hcur Hk Hc' E1 E2 E3. destruct l' as [|q l']; [cbn [length] in Hl; lia|].
  apply (page_fault_present t i c' va q l'); rewrite ?Hk, ?E1, ?Hg; try done.
  unfold fault_refused. rewrite !orb_false_iff, !Z.geb_leb, !Z.leb_gt, Z.eqb_neq, Hg, E2, E3, Hszc, Hgc. destruct Hu. by split_and!.
Qed.

(** C40: [sbrk] with a positive argument only adds it to the size, without any
    limit.  Once the size passes KERNBASE the tests of [fetchint] (and of
    [argptr]) let kernel addresses through, and the kernel reads its own memory
    on behalf of the process. *)
Theorem sbrk_exposes_kernel (s s1 : pst St F) me p n :
  argint 0 s = Ok (Some n, s1) -> t_cur s1 = Some me -> t_procs s1 !! me = Some p ->
  0 <= n -> KERNBASE + 4 <= p_sz p + n < 2 ^ 32 ->
  pte_at (pa_mem (t_kern s1)) (p_pgdir p) KERNBASE = mkpte 0 PTE_W ->
  exists s2, (sys_sbrk ;;! fetchint KERNBASE) s = Ok (Some (s32 (get32 (pa_mem (t_kern s1)) KERNBASE)), s2).
Proof.
  intros Harg Hcur Hp Hn Hsz Hpte.
  set (s2 := set_t_procs (alter (fun q => set_p_sz (u32 (p_sz q + n)) q) me (t_procs s1)) s1).
  assert (Hsb : sys_sbrk s = Ok (s32 (p_sz p), s2)).
  { unfold sys_sbrk. rewrite (mbind_ok _ _ _ _ _ Harg). unfold myproc, mbind, mret, setp, mset. rewrite Hcur. pcbn.
    rewrite (getp_ok _ _ _ Hp). pcbn. rewrite (proj2 (Z.ltb_ge n 0)) by lia. done. }
  rewrite (mbind_ok _ _ _ _ _ Hsb). exists s2.
  assert (Hp2 : t_procs s2 !! me = Some (set_p_sz (p_sz p + n) p)).
  { cbn. rewrite list_lookup_alter_eq, Hp. cbn. rewrite u32_small; [done|]. unfold is_u32, KERNBASE in *. lia. }
  assert (Hload : forall o, 0 <= o < 4 -> uload (KERNBASE + o) s2 = Ok (pa_mem (t_kern s1) (KERNBASE + o), s2)).
  { intros o Ho. unfold uload, uaddr, myproc, mbind. cbn. rewrite Hcur. cbn. rewrite (getp_ok _ _ _ Hp2). cbn.
    assert (E : PGROUNDDOWN (KERNBASE + o) = KERNBASE).
    { rewrite pgrounddown_eq by (unfold is_u32, KERNBASE; lia). unfold KERNBASE. zlia. }
    unfold translate. rewrite E, Hpte. change (present (mkpte 0 PTE_W)) with true. cbn match. cbn.
    change (P2V (PTE_ADDR (mkpte 0 PTE_W))) with KERNBASE.
    replace ((KERNBASE + o) mod PGSIZE) with o by (unfold KERNBASE, PGSIZE; zlia). done. }
  assert (Hl : forall o, 0 <= o < 4 -> uload (u32 (KERNBASE + o)) s2 = Ok (pa_mem (t_kern s1) (KERNBASE + o), s2)).
  { intros o Ho. rewrite u32_small by (unfold is_u32, KERNBASE; lia). auto. }
  pose proof (Hload 0 ltac:(lia)) as H0. rewrite Z.add_0_r in H0.
  unfold fetchint, myproc, mbind. cbn. rewrite Hcur. cbn. rewrite (getp_ok _ _ _ Hp2). cbn [obind p_sz set_p_sz].
  rewrite !Z.geb_leb, (proj2 (Z.leb_gt _ _)) by lia. change (u32 (KERNBASE + 4)) with (KERNBASE + 4).
  rewrite Z.gtb_ltb, (proj2 (Z.ltb_ge _ _)) by lia. cbn [orb]. unfold uload32.
  rewrite (mbind_ok _ _ _ _ _ H0), (mbind_ok _ _ _ _ _ (Hl 1 ltac:(lia))), (mbind_ok _ _ _ _ _ (Hl 2 ltac:(lia))),
    (mbind_ok _ _ _ _ _ (Hl 3 ltac:(lia))). done.
Qed.

(** A pointer that [argptr] accepts lies, with its [size] bytes, inside the
    process, and below the kernel, as long as the size of the process has not
    passed KERNBASE. *)
Theorem argptr_inside (s s' : pst St F) n size me p a :
  argptr n size s = Ok (Some a, s') -> t_cur s = Some me -> t_cur s' = Some me -> t_procs s' !! me = Some p ->
  0 <= p_sz p <= KERNBASE -> size < 2 ^ 31 ->
  0 <= a /\ 0 <= size /\ a < p_sz p /\ a + size <= p_sz p.
Proof.
  unfold argptr. intros (i & s0 & Hmy & H)%mbind_inv Hcur Hcur' Hp Hsz Hsize.
  unfold myproc in Hmy. rewrite Hcur in Hmy. injection Hmy as <- <-.
  apply mbind_inv in H as (r & s1 & _ & H). apply mbind_inv in H as (q & s2 & Hq & H).
  unfold getp in Hq. destruct (t_procs s1 !! me) as [q'|] eqn:E; [|done]. injection Hq as -> ->.
  destruct r as [i|]; [|done]. destruct (_ || _) eqn:Eg; [done|]. injection H as <- <-.
  rewrite E in Hp. injection Hp as ->. zbool. pose proof (u32_range i) as Hr.
  rewrite (u32_small (u32 i + size)) in H0 by (unfold is_u32, KERNBASE in *; lia). unfold is_u32 in Hr. lia.
Qed.

End Trap.

(** ** Witnesses *)

Lemma half_present m d va : mapped m d 8192 = [4096] -> user_va va -> va < 8192 -> present (pte_at m d va) = bool_decide (va = 4096).
Proof.
  intros Hm Hu Hlt. pose proof (elem_of_mapped (PA := witness_pa) m d 8192 va (proj2 (proj2 (proj2 data_ok)))) as H. rewrite Hm, list_elem_of_singleton in H.
  case_bool_decide; [by apply H|]. apply not_true_is_false. naive_solver.
Qed.

Lemma user_va_0 : user_va 0.
Proof. by split; [apply page_va_0|]. Qed.
Lemma user_va_4096 : user_va 4096.
Proof. by split; [apply page_va_4096|]. Qed.

Lemma page_cost_few m d a : (page_cost m d a <=? 78)%nat = true.
Proof. unfold page_cost. by destruct (present _). Qed.

(** Init has two pages of which the second is mapped; it touches the first one. *)
Lemma page_fault_lazy_witness :
  fault_refused (forking_slot 8192) 100 = false /\
  exists k', page_fault (PA := witness_pa) 100 (forking_state 8192 half_state) = Ok (tt, set_t_kern k' (forking_state 8192 half_state)) /\
    present (pte_at (k_mem k') 0x80400000 0) = true.
Proof.
  split; [reflexivity|]. assert (Hva : is_u32 100) by (unfold is_u32; lia).
  destruct half_space as (l & Hinv & Hlen & _ & Has & Hm & _).
  pose proof (half_present _ _ _ Hm user_va_0 eq_refl) as H0.
  destruct (page_fault_lazy (PA := witness_pa) (forking_state 8192 half_state) 0 (forking_slot 8192) 100 l
    eq_refl eq_refl Hinv Has Hva H0) as (k' & l' & _ & H).
  rewrite Hlen, page_cost_few in H. destruct H as (H & _ & G). exists k'. split; [exact H|].
  refine (proj1 (grow_mapped (PA := witness_pa) _ _ _ _ _ _ _ 0 G page_va_0 _)). split; [apply Z.le_refl|reflexivity].
Defined.

(** A child of init runs in slot 1. *)
Definition child_running : proc :=
  mkProc 0 0x80400000 0x80500000 RUNNING 7 (Some 0%nat) 0 0 CNull false (replicate 16 0) 0 [] 0 0.
Definition child_state : pst kstate unit :=
  mkP false (<[1%nat := child_running]> boot_table) 8 (Some 0%nat) (Some 1%nat) 0 witness_state tt.

Lemma exit_status_roundtrip_witness :
  exists s' p, exit (FL := witness_files) (s32 (Z.shiftl 3 8)) child_state = Ok (tt, s') /\
    t_procs s' !! 1%nat = Some p /\ WIFEXITED (p_status p) = true /\ WEXITSTATUS (p_status p) = 3.
Proof.
  assert (Hrun : exists s', exit (FL := witness_files) (s32 (Z.shiftl 3 8)) child_state = Ok (tt, s'))
    by (eexists; vm_compute; reflexivity).
  destruct Hrun as [s' Hrun].
  destruct (exit_status_roundtrip (FL := witness_files) child_state s' 1 3 14) as [He _];
    [reflexivity|by eexists|lia|].
  destruct (He Hrun) as (p & Hp & _ & Hw & _ & Hs). exists s', p. split_and!; [exact Hrun|exact Hp|exact Hw|exact Hs].
Defined.

(** Page 0 of the process is at 0x80402000, with the stack pointer 0 and the
    argument [arg] at address 4; the first page of the kernel is mapped. *)
Definition arg_mem (arg : Z) : mem :=
  put32 (put32 (put32 (put32 (put32 (put32 (fun _ => 0)
    0x80400000 0x401007) 0x80401000 0x402007) 0x80402004 arg)
    0x80400800 0x403003) 0x80403000 0x3) 0x80000000 0x12345678.
Definition arg_state (sz arg : Z) : pst kstate unit :=
  mkP false (alter (set_p_sz sz) 0%nat boot_table) 2 (Some 0%nat) (Some 0%nat) 0
    (mkK false true 0 (arg_mem arg)) tt.

Lemma sbrk_exposes_kernel_witness :
  exists s2, (sys_sbrk (PA := witness_pa) ;;! fetchint (PA := witness_pa) KERNBASE)
    (arg_state 0x7fff0000 0x20000) = Ok (Some 0x12345678, s2).
Proof.
  apply (sbrk_exposes_kernel (PA := witness_pa) (arg_state 0x7fff0000 0x20000)
    (arg_state 0x7fff0000 0x20000) 0 (set_p_sz 0x7fff0000 init_slot) 0x20000).
  - vm_compute. reflexivity.
  - reflexivity.
  - reflexivity.
  - lia.
  - by vm_compute.
  - vm_compute. reflexivity.
Defined.

Lemma argptr_inside_witness :
  exists s', argptr (PA := witness_pa) 0 4 (arg_state 8192 100) = Ok (Some 100, s') /\ 100 + 4 <= 8192.
Proof.
  assert (Hrun : argptr (PA := witness_pa) 0 4 (arg_state 8192 100) = Ok (Some 100, arg_state 8192 100))
    by (vm_compute; reflexivity).
  exists (arg_state 8192 100). split; [exact Hrun|].
  destruct (argptr_inside (PA := witness_pa) (arg_state 8192 100) (arg_state 8192 100) 0 4 0
    (set_p_sz 8192 init_slot) 100) as (_ & _ & _ & H);
    [exact Hrun|reflexivity|reflexivity|reflexivity|cbn; unfold KERNBASE; lia|lia|exact H].
Defined.

(** The second page of init is its guard page, without user access. *)
Definition guard_kernel : kstate :=
  match clearpteu (PA := witness_pa) 0x80400000 4096 half_state with Ok (_, k) => k | _ => half_state end.

Lemma guard_facts : exists l, pa_inv (PageAllocator := witness_pa) guard_kernel l /\ length l = 78%nat /\ (forall q, q ∈ l -> q ∈ pool 80) /\
  as_ok (PA := witness_pa) (pa_mem (PageAllocator := witness_pa) guard_kernel) 0x80400000 l /\
  mapped (pa_mem (PageAllocator := witness_pa) guard_kernel) 0x80400000 8192 = [4096] /\
  let pte := pte_at (pa_mem (PageAllocator := witness_pa) guard_kernel) 0x80400000 4096 in
  present pte = true /\ Z.land (PTE_FLAGS pte) PTE_U = 0.
Proof.
  destruct half_space as (l & Hinv & Hlen & Hl & Has & Hm & _). exists l. unfold guard_kernel.
  revert Hinv Has Hm. generalize half_state as k. intros k Hinv Has Hm.
  pose proof (half_present _ _ _ Hm user_va_0 eq_refl) as H0. pose proof (half_present _ _ _ Hm user_va_4096 eq_refl) as H1.
  destruct (clearpteu_spec (PA := witness_pa) k 0x80400000 4096 l Hinv Has user_va_4096 H1)
    as (k' & -> & Hinv' & Has' & Hpte & _ & _ & Hpf).
  destruct (Hpf 0 user_va_0) as [E0 _], (Hpf 4096 user_va_4096) as [E1 _].
  cbv zeta. split_and!; [done|done|done|done| |by rewrite E1|].
  - unfold mapped. change (pages 0 8192) with [0; 4096]. rewrite filter_cons_False, filter_cons_True; [done|by rewrite E1|by rewrite E0, H0].
  - rewrite Hpte. unfold PTE_FLAGS. rewrite <- !Z.land_assoc. apply Z.land_0_r.
Qed.

Lemma forked_guard_panics_witness :
  exists s', fork (PA := witness_pa) (FL := witness_files) 0x80110000 0x80105000 0x80103000 (forking_state 4096 guard_kernel) = Ok (2, s') /\
    page_fault (PA := witness_pa) 4100 (set_t_cur (Some 1%nat) s') = Panic "remap".
Proof.
  destruct code_ok as (C1 & C2 & C3 & C4). assert (Hva : is_u32 4100) by (unfold is_u32; lia).
  destruct guard_facts as (l & Hinv & Hlen & Hl & Has & Hm & Hp & Hu).
  assert (Hcost : (fork_cost 0x80110000 (pa_mem (PageAllocator := witness_pa) guard_kernel) (forking_slot 4096) < length l)%nat)
    by (rewrite (forking_cost 4096 _ Hm), Hlen; clear; lia).
  destruct (forked_guard_panics (PA := witness_pa) (FL := witness_files) 0x80110000 0x80105000 0x80103000
    (forking_state 4096 guard_kernel) 0 (forking_slot 4096) l 1 unused_slot 4100 C1 C2 C3 C4
    (forking_pre 4096 guard_kernel l Hinv Has Hl) eq_refl eq_refl Hcost Hva eq_refl eq_refl ltac:(discriminate) Hp Hu)
    as (s' & c & Hrun & Hc & _ & _ & H).
  exists s'. split; [exact Hrun|]. exact (H (set_t_cur (Some 1%nat) s') c eq_refl eq_refl Hc eq_refl eq_refl eq_refl).
Defined.
