(* ===== verification/Clock.v ===== *)
(** * The real-time clock: [cmostime] of lapic.c, [sys_date] of sysproc.c

    The clock chip is hardware: [rtc t reg] is what the [t]-th access to its ports
    reads from register [reg].  [cmostime] reads the date until two readings agree
    with no update under way and converts it from BCD. *)

From Stdlib Require Import ZArith Lia String.
From stdpp Require Import base numbers list.
From S2P Require Import Prelude Bytes Params Kalloc Proc ProcInv Trap.

Local Open Scope Z_scope.
Local Open Scope kernel_scope.

Record rtcdate := mkdate { second : Z; minute : Z; hour : Z; day : Z; month : Z; year : Z }.

#[export] Instance rtcdate_eq_dec : EqDecision rtcdate.
Proof. solve_decision. Defined.

Definition CMOS_STATA : Z := 0x0a.
Definition CMOS_STATB : Z := 0x0b.
Definition CMOS_UIP : Z := Z.shiftl 1 7.
Definition SECS : Z := 0x00.
Definition MINS : Z := 0x02.
Definition HOURS : Z := 0x04.
Definition DAY : Z := 0x07.
Definition MONTH : Z := 0x08.
Definition YEAR : Z := 0x09.

Section Clock.
Variable rtc : nat -> Z -> Z.

Definition cmos_read (reg : Z) : M nat Z := fun t => Ok (rtc t reg, S t).

Definition fill_rtcdate : M nat rtcdate :=
  let! s := cmos_read SECS in
  let! mi := cmos_read MINS in
  let! h := cmos_read HOURS in
  let! d := cmos_read DAY in
  let! mo := cmos_read MONTH in
  let! y := cmos_read YEAR in
  mret (mkdate s mi h d mo y).

(** The loop: two equal readings. *)
Fixpoint cmos_stable (fuel : nat) : M nat rtcdate :=
  match fuel with
  | O => mnofuel
  | S f =>
      let! t1 := fill_rtcdate in
      let! a := cmos_read CMOS_STATA in
      if negb (Z.land a CMOS_UIP =? 0) then cmos_stable f else
      let! t2 := fill_rtcdate in
      if bool_decide (t1 = t2) then mret t1 else cmos_stable f
  end.

Definition CONV (x : Z) : Z := u32 (Z.shiftr x 4 * 10 + Z.land x 0xf).
Definition conv_date (t : rtcdate) : rtcdate :=
  mkdate (CONV (second t)) (CONV (minute t)) (CONV (hour t)) (CONV (day t)) (CONV (month t)) (CONV (year t)).

Definition cmostime (fuel : nat) : M nat rtcdate :=
  let! sb := cmos_read CMOS_STATB in
  let bcd := Z.land sb (Z.shiftl 1 2) =? 0 in
  let! t1 := cmos_stable fuel in
  let t := if bcd then conv_date t1 else t1 in
  mret (mkdate (second t) (minute t) (hour t) (day t) (month t) (u32 (year t + 2000))).

(** The call made at access [t0] of the chip. *)
Definition sys_date {St F : Type} {PA : PageAllocator St} (fuel t0 : nat) : M (pst St F) Z :=
  let! r := argptr 0 24 in
  match r with
  | None => mret (-1)
  | Some va =>
      match cmostime fuel t0 with
      | Ok (d, _) =>
          ustore32 va (second d) ;;!
          ustore32 (u32 (va + 4)) (minute d) ;;!
          ustore32 (u32 (va + 8)) (hour d) ;;!
          ustore32 (u32 (va + 12)) (day d) ;;!
          ustore32 (u32 (va + 16)) (month d) ;;!
          ustore32 (u32 (va + 20)) (year d) ;;!
          mret 0
      | _ => mnofuel
      end
  end.

End Clock.

(** ** Facts *)

(** The registers while the chip shows the date [t] in BCD and is not updating. *)
Definition bcd (x : Z) : Z := 16 * (x / 10) + x mod 10.
Definition shows (t : rtcdate) (regs : Z -> Z) : Prop :=
  regs SECS = bcd (second t) /\ regs MINS = bcd (minute t) /\ regs HOURS = bcd (hour t) /\
  regs DAY = bcd (day t) /\ regs MONTH = bcd (month t) /\ regs YEAR = bcd (year t - 2000) /\
  Z.land (regs CMOS_STATA) CMOS_UIP = 0 /\ Z.land (regs CMOS_STATB) (Z.shiftl 1 2) = 0.

Definition valid_date (t : rtcdate) : Prop :=
  0 <= second t < 100 /\ 0 <= minute t < 100 /\ 0 <= hour t < 100 /\ 0 <= day t < 100 /\
  0 <= month t < 100 /\ 2000 <= year t < 2100.

Lemma CONV_bcd x : 0 <= x < 100 -> CONV (bcd x) = x.
Proof.
  intros H. unfold CONV, bcd. change 0xf with (Z.ones 4). rewrite Z.land_ones, Z.shiftr_div_pow2 by lia.
  change (2 ^ 4) with 16.
  assert (E : (16 * (x / 10) + x mod 10) / 16 * 10 + (16 * (x / 10) + x mod 10) mod 16 = x) by zlia.
  rewrite E. apply u32_small. unfold is_u32. lia.
Qed.

(** One reading, and a whole call, while the chip shows one date. *)
Lemma fill_shows rtc t d :
  (forall i, shows d (rtc i)) ->
  fill_rtcdate rtc t = Ok (mkdate (bcd (second d)) (bcd (minute d)) (bcd (hour d)) (bcd (day d))
    (bcd (month d)) (bcd (year d - 2000)), (6 + t)%nat).
Proof.
  intros H. unfold fill_rtcdate, cmos_read, mbind. cbn.
  destruct (H t) as (-> & _), (H (S t)) as (_ & -> & _), (H (2 + t)%nat) as (_ & _ & E & _),
    (H (3 + t)%nat) as (_ & _ & _ & E3 & _), (H (4 + t)%nat) as (_ & _ & _ & _ & E4 & _),
    (H (5 + t)%nat) as (_ & _ & _ & _ & _ & E5 & _).
  cbn in *. by rewrite E, E3, E4, E5.
Qed.

Lemma cmostime_shows rtc t d fuel :
  (forall i, shows d (rtc i)) -> valid_date d -> (0 < fuel)%nat ->
  exists t', cmostime rtc fuel t = Ok (d, t').
Proof.
  intros H Hv Hf. destruct fuel as [|fuel]; [lia|]. eexists.
  unfold cmostime. rewrite (mbind_ok _ _ _ _ _ (eq_refl : cmos_read rtc CMOS_STATB t = Ok (rtc t CMOS_STATB, S t))).
  destruct (H t) as (_ & _ & _ & _ & _ & _ & _ & ->). cbn [Z.eqb].
  cbn [cmos_stable]. rewrite mbind_assoc, (mbind_ok _ _ _ _ _ (fill_shows rtc (S t) d H)), mbind_assoc.
  rewrite (mbind_ok _ _ _ _ _ (eq_refl : cmos_read rtc CMOS_STATA (6 + S t)%nat = Ok (rtc (6 + S t)%nat CMOS_STATA, (7 + S t)%nat))).
  destruct (H (6 + S t)%nat) as (_ & _ & _ & _ & _ & _ & -> & _). cbn [Z.eqb negb].
  rewrite mbind_assoc, (mbind_ok _ _ _ _ _ (fill_shows rtc _ d H)). rewrite bool_decide_true by done.
  unfold mret, mbind. cbn. destruct Hv as (?&?&?&?&?&?), d as [s mi h dd mo y]. cbn in *.
  rewrite !CONV_bcd by lia. rewrite u32_small by (unfold is_u32; lia). do 4 f_equal. lia.
Qed.
