(* ===== verification/Locks.v ===== *)
(** * Locks: [sleeplock.c]

    Sleep locks, as the path of one process sees them: a lock found taken makes
    the process sleep until its holder releases it, the outcome [Block]. *)

From Stdlib Require Import ZArith Lia String.
From stdpp Require Import base numbers list.
From S2P Require Import Prelude.

Local Open Scope Z_scope.
Local Open Scope kernel_scope.

(** ** Sleep locks *)

(** [struct sleeplock]: the spin lock inside, [locked] and the holder. *)
Record sleeplock := mksl {
  sl_lk : bool;
  sl_locked : Z;
  sl_pid : Z
}.

Definition set_sl_lk (v : bool) (l : sleeplock) : sleeplock := mksl v (sl_locked l) (sl_pid l).
Definition set_sl_locked (v : Z) (l : sleeplock) : sleeplock := mksl (sl_lk l) v (sl_pid l).
Definition set_sl_pid (v : Z) (l : sleeplock) : sleeplock := mksl (sl_lk l) (sl_locked l) v.

Definition initsleeplock : M sleeplock unit :=
  mset (set_sl_lk false) ;;! mset (set_sl_locked 0) ;;! mset (set_sl_pid 0).

(** [pid] is [myproc()->pid]. *)
Definition acquiresleep (pid : Z) : M sleeplock unit :=
  acquire sl_lk set_sl_lk ;;!
  let! locked := mget sl_locked in
  if negb (locked =? 0) then mblock else
  mset (set_sl_locked 1) ;;!
  mset (set_sl_pid pid) ;;!
  release sl_lk set_sl_lk.

(** The [wakeup] of the processes waiting for the lock acts on the process
    table only ([Proc.wakeup]). *)
Definition releasesleep : M sleeplock unit :=
  acquire sl_lk set_sl_lk ;;!
  mset (set_sl_locked 0) ;;!
  mset (set_sl_pid 0) ;;!
  release sl_lk set_sl_lk.

Definition holdingsleep (pid : Z) : M sleeplock bool :=
  acquire sl_lk set_sl_lk ;;!
  let! l := mget (fun l => l) in
  let r := negb (sl_locked l =? 0) && (sl_pid l =? pid) in
  release sl_lk set_sl_lk ;;!
  mret r.

Definition sl_free : sleeplock := mksl false 0 0.
Definition sl_held (pid : Z) : sleeplock := mksl false 1 pid.

Lemma acquiresleep_free pid : acquiresleep pid sl_free = Ok (tt, sl_held pid).
Proof. reflexivity. Qed.

Lemma acquiresleep_held pid pid' : acquiresleep pid (sl_held pid') = Block.
Proof. reflexivity. Qed.

Lemma releasesleep_held pid : releasesleep (sl_held pid) = Ok (tt, sl_free).
Proof. reflexivity. Qed.

Lemma holdingsleep_held pid : holdingsleep pid (sl_held pid) = Ok (true, sl_held pid).
Proof. unfold holdingsleep. cbn. by rewrite Z.eqb_refl. Qed.

Lemma holdingsleep_free pid : holdingsleep pid sl_free = Ok (false, sl_free).
Proof. reflexivity. Qed.
