(* ===== verification/Pipe.v ===== *)
(** * Pipes: pipe.c

    A pipe is a ring of 512 bytes with two counters that wrap around at 2^32.
    [pipewrite] and [piperead] give the CPU up in the middle, so each is modelled
    as the code between two sleeps: it ends with a result or asleep on a channel,
    with the index it had reached, and is resumed there.  The calls of [wakeup] are
    recorded in the pipe; [pstep] runs any number of readers and writers, woken by
    them, in any order. *)

From Stdlib Require Import ZArith Lia String.
From stdpp Require Import base numbers gmap functions list.
From S2P Require Import Prelude Bytes Params.

Local Open Scope Z_scope.
Local Open Scope kernel_scope.

Definition PIPESIZE : Z := 512.

(** The channels [&p->nread] and [&p->nwrite]. *)
Inductive pchan := NRead | NWrite.

#[export] Instance pchan_eq_dec : EqDecision pchan.
Proof. solve_decision. Defined.

Record pipe := mkpipe {
  pi_lock : bool;
  pi_data : mem;
  pi_nread : Z;
  pi_nwrite : Z;
  pi_readopen : Z;
  pi_writeopen : Z;
  pi_wakes : list pchan    (* the calls of wakeup so far *)
}.

Definition set_pi_lock (v : bool) (s : pipe) : pipe :=
  mkpipe v (pi_data s) (pi_nread s) (pi_nwrite s) (pi_readopen s) (pi_writeopen s) (pi_wakes s).
Definition set_pi_data (v : mem) (s : pipe) : pipe :=
  mkpipe (pi_lock s) v (pi_nread s) (pi_nwrite s) (pi_readopen s) (pi_writeopen s) (pi_wakes s).
Definition set_pi_nread (v : Z) (s : pipe) : pipe :=
  mkpipe (pi_lock s) (pi_data s) v (pi_nwrite s) (pi_readopen s) (pi_writeopen s) (pi_wakes s).
Definition set_pi_nwrite (v : Z) (s : pipe) : pipe :=
  mkpipe (pi_lock s) (pi_data s) (pi_nread s) v (pi_readopen s) (pi_writeopen s) (pi_wakes s).
Definition set_pi_readopen (v : Z) (s : pipe) : pipe :=
  mkpipe (pi_lock s) (pi_data s) (pi_nread s) (pi_nwrite s) v (pi_writeopen s) (pi_wakes s).
Definition set_pi_writeopen (v : Z) (s : pipe) : pipe :=
  mkpipe (pi_lock s) (pi_data s) (pi_nread s) (pi_nwrite s) (pi_readopen s) v (pi_wakes s).
Definition set_pi_wakes (v : list pchan) (s : pipe) : pipe :=
  mkpipe (pi_lock s) (pi_data s) (pi_nread s) (pi_nwrite s) (pi_readopen s) (pi_writeopen s) v.

(** The fields [pipealloc] sets; [data] is what was in the page. *)
Definition new_pipe (data : mem) : pipe := mkpipe false data 0 0 1 1 [].

(** A call that has returned, or sleeps at index [i]. *)
Inductive io_res := Done (r : Z) | Asleep (c : pchan) (i : Z).

Definition plock : M pipe unit := acquire pi_lock set_pi_lock.
Definition punlock : M pipe unit := release pi_lock set_pi_lock.
Definition pwakeup (c : pchan) : M pipe unit := mset (fun p => set_pi_wakes (pi_wakes p ++ [c]) p).

(** ** Writing *)

(** The loop from index [i], with [k] bytes left to write. *)
Fixpoint pipewrite_loop (killed : bool) (addr : mem) (n i : Z) (k : nat) : M pipe io_res :=
  match k with
  | O => pwakeup NRead ;;! punlock ;;! mret (Done n)
  | S k' =>
      let! p := mget (fun p => p) in
      if pi_nwrite p =? u32 (pi_nread p + PIPESIZE) then
        (if (pi_readopen p =? 0) || killed then punlock ;;! mret (Done (-1))
         else pwakeup NRead ;;! punlock ;;! mret (Asleep NWrite i))
      else
        mset (set_pi_data (<[pi_nwrite p mod PIPESIZE := addr i]> (pi_data p))) ;;!
        mset (set_pi_nwrite (u32 (pi_nwrite p + 1))) ;;!
        pipewrite_loop killed addr n (i + 1) k'
  end.

(** The call, and what follows when [sleep] returns. *)
Definition pipewrite_from (killed : bool) (addr : mem) (n i : Z) : M pipe io_res :=
  plock ;;! pipewrite_loop killed addr n i (Z.to_nat (n - i)).
Definition pipewrite (killed : bool) (addr : mem) (n : Z) : M pipe io_res := pipewrite_from killed addr n 0.

(** ** Reading *)

Fixpoint piperead_loop (i : Z) (k : nat) (dst : list Z) : M pipe (io_res * list Z) :=
  match k with
  | O => pwakeup NWrite ;;! punlock ;;! mret (Done i, dst)
  | S k' =>
      let! p := mget (fun p => p) in
      if pi_nread p =? pi_nwrite p then pwakeup NWrite ;;! punlock ;;! mret (Done i, dst)
      else
        mset (set_pi_nread (u32 (pi_nread p + 1))) ;;!
        piperead_loop (i + 1) k' (dst ++ [pi_data p (pi_nread p mod PIPESIZE)])
  end.

(** The bytes are those stored at [addr]. *)
Definition piperead (killed : bool) (n : Z) : M pipe (io_res * list Z) :=
  plock ;;!
  let! p := mget (fun p => p) in
  if (pi_nread p =? pi_nwrite p) && negb (pi_writeopen p =? 0) then
    (if killed then punlock ;;! mret (Done (-1), [])
     else punlock ;;! mret (Asleep NRead 0, []))
  else piperead_loop 0 (Z.to_nat n) [].

(** ** Closing; the result says whether the page is freed. *)
Definition pipeclose (writable : bool) : M pipe bool :=
  plock ;;!
  (if writable then mset (set_pi_writeopen 0) ;;! pwakeup NRead
   else mset (set_pi_readopen 0) ;;! pwakeup NWrite) ;;!
  let! p := mget (fun p => p) in
  if (pi_readopen p =? 0) && (pi_writeopen p =? 0) then punlock ;;! mret true
  else punlock ;;! mret false.

(** ** Readers and writers of one pipe *)

(** A call in progress: what is left to do when it runs. *)
Inductive job := Writing (addr : mem) (n i : Z) | Reading (n : Z) | Closing (writable : bool).

(** The pipe, the calls in progress, those asleep and on which channel, the bytes
    put into the pipe and taken out of it so far. *)
Record psys := mksys {
  sy_pipe : pipe;
  sy_jobs : gmap nat job;
  sy_asleep : gmap nat pchan;
  sy_sent : list Z;
  sy_got : list Z
}.

(** The sleepers that remain after the wakeups in [ws]. *)
Definition woken (ws : list pchan) (a : gmap nat pchan) : gmap nat pchan :=
  filter (fun '(_, c) => c ∉ ws) a.

Definition finish (j : nat) (jb : job) (r : io_res) (p : pipe) (sent got : list Z) (s : psys) : psys :=
  let a := woken (pi_wakes p) (sy_asleep s) in
  let p' := set_pi_wakes [] p in
  match r with
  | Done _ => mksys p' (delete j (sy_jobs s)) a (sy_sent s ++ sent) (sy_got s ++ got)
  | Asleep c i =>
      let jb' := match jb with Writing addr n _ => Writing addr n i | _ => jb end in
      mksys p' (<[j := jb']> (sy_jobs s)) (<[j := c]> a) (sy_sent s ++ sent) (sy_got s ++ got)
  end.

(** The bytes a writer has put in, from the index it started at. *)
Definition bytes_written (jb : job) (p p' : pipe) : list Z :=
  match jb with
  | Writing addr n i => load addr i (Z.to_nat (u32 (pi_nwrite p' - pi_nwrite p)))
  | _ => []
  end.

(** The end of the pipe a call uses; it is closed by its last user, so no call
    uses it then, and no call begins on an end that is closed. *)
Definition uses (jb : job) (p : pipe) : bool :=
  match jb with
  | Writing _ _ _ => negb (pi_writeopen p =? 0)
  | Reading _ => negb (pi_readopen p =? 0)
  | Closing w => if w then negb (pi_writeopen p =? 0) else negb (pi_readopen p =? 0)
  end.
Definition on_end (w : bool) (jb : job) : bool :=
  match jb with
  | Writing _ _ _ => w
  | Reading _ => negb w
  | Closing w' => eqb w w'
  end.

(** A step of one process; [kill] says whether processes can be killed. *)
Inductive pstep (kill : bool) : psys -> psys -> Prop :=
| ps_call s j jb :
    sy_jobs s !! j = None -> sy_asleep s !! j = None -> uses jb (sy_pipe s) = true ->
    pstep kill s (mksys (sy_pipe s) (<[j := jb]> (sy_jobs s)) (sy_asleep s) (sy_sent s) (sy_got s))
| ps_write s j addr n i killed r p' :
    sy_jobs s !! j = Some (Writing addr n i) -> sy_asleep s !! j = None -> (killed = true -> kill = true) ->
    pipewrite_from killed addr n i (sy_pipe s) = Ok (r, p') ->
    pstep kill s (finish j (Writing addr n i) r p' (bytes_written (Writing addr n i) (sy_pipe s) p') [] s)
| ps_read s j n killed r l p' :
    sy_jobs s !! j = Some (Reading n) -> sy_asleep s !! j = None -> (killed = true -> kill = true) ->
    piperead killed n (sy_pipe s) = Ok ((r, l), p') ->
    pstep kill s (finish j (Reading n) r p' [] l s)
| ps_close s j w b p' :
    sy_jobs s !! j = Some (Closing w) -> sy_asleep s !! j = None ->
    (forall k jb, sy_jobs s !! k = Some jb -> on_end w jb = true -> k = j) ->
    pipeclose w (sy_pipe s) = Ok (b, p') ->
    pstep kill s (finish j (Closing w) (Done 0) p' [] [] s).

(** A pipe that has just been made, with no call in progress. *)
Definition fresh_sys (data : mem) : psys := mksys (new_pipe data) ∅ ∅ [] [].

(** ** The queue *)

(** Arithmetic of the counters. *)
Ltac ring_lia :=
  unfold is_u32, u32, PIPESIZE in *; change (2 ^ 32) with 4294967296 in *; zlia.

Definition count (p : pipe) : Z := u32 (pi_nwrite p - pi_nread p).
Definition queue (p : pipe) : list Z :=
  load (fun k => pi_data p ((pi_nread p + k) mod PIPESIZE)) 0 (Z.to_nat (count p)).

Record pipe_ok (p : pipe) : Prop := {
  po_nread : is_u32 (pi_nread p);
  po_nwrite : is_u32 (pi_nwrite p);
  po_count : count p <= PIPESIZE
}.

Lemma count_pos p : 0 <= count p.
Proof. unfold count. ring_lia. Qed.

Lemma length_queue p : Z.of_nat (length (queue p)) = count p.
Proof. unfold queue. rewrite length_load, Z2Nat.id; [done|]. apply count_pos. Qed.

(** The test for a full pipe, and the one for an empty pipe, survive the wrap-around. *)
Lemma full_test p : pipe_ok p -> (pi_nwrite p =? u32 (pi_nread p + PIPESIZE)) = (count p =? PIPESIZE).
Proof.
  intros [Hr Hw Hc]. unfold count in *.
  destruct (Z.eqb_spec (pi_nwrite p) (u32 (pi_nread p + PIPESIZE))), (Z.eqb_spec (u32 (pi_nwrite p - pi_nread p)) PIPESIZE);
    done || (exfalso; ring_lia).
Qed.

Lemma empty_test p : pipe_ok p -> (pi_nread p =? pi_nwrite p) = (count p =? 0).
Proof.
  intros [Hr Hw Hc]. unfold count in *.
  destruct (Z.eqb_spec (pi_nread p) (pi_nwrite p)), (Z.eqb_spec (u32 (pi_nwrite p - pi_nread p)) 0);
    done || (exfalso; ring_lia).
Qed.

(** One byte in. *)
Definition put (b : Z) (p : pipe) : pipe :=
  set_pi_nwrite (u32 (pi_nwrite p + 1)) (set_pi_data (<[pi_nwrite p mod PIPESIZE := b]> (pi_data p)) p).
(** One byte out. *)
Definition get (p : pipe) : pipe := set_pi_nread (u32 (pi_nread p + 1)) p.

Lemma put_ok p b : pipe_ok p -> count p < PIPESIZE -> pipe_ok (put b p) /\ queue (put b p) = queue p ++ [b].
Proof.
  intros [Hr Hw Hc] Hlt.
  assert (Ec : count (put b p) = count p + 1) by (unfold count in *; cbn; ring_lia).
  split; [split; [done|apply u32_range|lia]|].
  pose proof (count_pos p) as H0. unfold queue. rewrite Ec.
  replace (Z.to_nat (count p + 1)) with (Z.to_nat (count p) + 1)%nat by lia. rewrite load_app. f_equal.
  - apply load_ext. intros k Hk. cbn [pi_data pi_nread put set_pi_nwrite set_pi_data]. unfold mem in *. rewrite fn_lookup_insert_ne; [done|]. unfold count in *. ring_lia.
  - cbn [load pi_data pi_nread put set_pi_nwrite set_pi_data]. f_equal. rewrite Z2Nat.id, Z.add_0_l by done.
    replace ((pi_nread p + count p) mod PIPESIZE) with (pi_nwrite p mod PIPESIZE)
      by (unfold count in *; ring_lia). unfold mem. by rewrite fn_lookup_insert.
Qed.

Lemma get_ok p : pipe_ok p -> 0 < count p -> pipe_ok (get p) /\ queue p = pi_data p (pi_nread p mod PIPESIZE) :: queue (get p).
Proof.
  intros [Hr Hw Hc] Hlt.
  assert (Ec : count (get p) = count p - 1) by (unfold count in *; cbn; ring_lia).
  split; [split; [apply u32_range|done|lia]|]. unfold queue. rewrite Ec.
  replace (Z.to_nat (count p)) with (S (Z.to_nat (count p - 1))) by lia. cbn [load]. rewrite Z.add_0_r. f_equal.
  apply load_copy. intros k Hk. cbn. f_equal. ring_lia.
Qed.

(** ** What the calls do *)

(** The end of a call: the lock is released after the wakeups [ws]. *)
Definition done_with (ws : list pchan) (p : pipe) : pipe := set_pi_lock false (set_pi_wakes (pi_wakes p ++ ws) p).

Lemma unlock_wake {A} c (a : A) p : pi_lock p = true -> (pwakeup c ;;! punlock ;;! mret a) p = Ok (a, done_with [c] p).
Proof. intros Hl. unfold pwakeup, punlock, release, done_with, mbind, mset, mret. cbn. by rewrite Hl. Qed.

Lemma unlock_plain {A} (a : A) p : pi_lock p = true -> (punlock ;;! mret a) p = Ok (a, done_with [] p).
Proof.
  intros Hl. unfold punlock, release, done_with, mbind, mret. rewrite Hl. cbn. rewrite app_nil_r. by destruct p.
Qed.

Lemma plock_ok p : pi_lock p = false -> plock p = Ok (tt, set_pi_lock true p).
Proof. intros Hl. unfold plock, acquire. by rewrite Hl. Qed.

Lemma mget_ok {A} (f : pipe -> A) p : mget f p = Ok (f p, p).
Proof. done. Qed.

(** [p'] is [p] with the bytes [l] put in. *)
Definition filled (p p' : pipe) (l : list Z) : Prop :=
  pipe_ok p' /\ queue p' = queue p ++ l /\ pi_nwrite p' = u32 (pi_nwrite p + Z.of_nat (length l)) /\
  pi_nread p' = pi_nread p /\ pi_readopen p' = pi_readopen p /\ pi_writeopen p' = pi_writeopen p.

Lemma filled_nil p : pipe_ok p -> filled p p [].
Proof.
  intros Hp. split_and!; try done; [by rewrite app_nil_r|]. cbn. rewrite Z.add_0_r, u32_small; [done|apply Hp].
Qed.

Lemma filled_put p b p' l : pipe_ok p -> count p < PIPESIZE -> filled (put b p) p' l -> filled p p' (b :: l).
Proof.
  intros Hp Hc (Hok & Hq & Hw & Hr & Ho & Hwo). destruct (put_ok p b Hp Hc) as (_ & Hqb).
  split_and!; try done; [by rewrite Hq, Hqb, <- app_assoc|]. rewrite Hw. cbn [pi_nwrite put set_pi_nwrite length].
  rewrite u32_add_u32. f_equal. lia.
Qed.

(** How a writer stops: all bytes in, or the pipe full with its readers gone (or the
    process killed), or asleep on a full pipe. *)
Lemma pipewrite_loop_ok killed addr n k : forall i p,
  pipe_ok p -> pi_lock p = true -> exists m q, (m <= k)%nat /\ filled p q (load addr i m) /\ pi_lock q = true /\ pi_wakes q = pi_wakes p /\
    ((m = k /\ pipewrite_loop killed addr n i k p = Ok (Done n, done_with [NRead] q)) \/
     (count q = PIPESIZE /\ (pi_readopen q = 0 \/ killed = true) /\ pipewrite_loop killed addr n i k p = Ok (Done (-1), done_with [] q)) \/
     (count q = PIPESIZE /\ pi_readopen q <> 0 /\ killed = false /\
      pipewrite_loop killed addr n i k p = Ok (Asleep NWrite (i + Z.of_nat m), done_with [NRead] q))).
Proof.
  induction k as [|k IH]; intros i p Hp Hl.
  - exists O, p. split_and!; try done; [by apply filled_nil|]. left. split; [done|]. by apply unlock_wake.
  - cbn [pipewrite_loop]. mgo. rewrite full_test by done. destruct (Z.eqb_spec (count p) PIPESIZE) as [Hf|Hf].
    + exists O, p. split_and!; try done; [lia|by apply filled_nil|]. right.
      destruct (Z.eqb_spec (pi_readopen p) 0) as [Hr|Hr]; cbn [orb];
        [left; split_and!; [done|by left|]; by apply unlock_plain|].
      destruct killed; [left; split_and!; [done|by right|]; by apply unlock_plain|].
      right. split_and!; [done..|]. rewrite Z.add_0_r. by apply unlock_wake.
    + destruct (put_ok p (addr i) Hp) as (Hp' & _); [destruct Hp; lia|].
      destruct (IH (i + 1) (put (addr i) p) Hp' Hl) as (m & q & Hm & Hfill & Hlq & Hwq & Hend).
      exists (S m), q. split_and!; [lia| |done|done|].
      * cbn [load]. apply filled_put; [done|destruct Hp; lia|done].
      * change (set_pi_nwrite _ _) with (put (addr i) p). replace (i + Z.of_nat (S m)) with (i + 1 + Z.of_nat m) by lia.
        destruct Hend as [(-> & H)|H]; [left; by split|right; exact H].
Qed.

(** [p'] is [p] with the bytes [l] taken out. *)
Definition drained (p p' : pipe) (l : list Z) : Prop :=
  pipe_ok p' /\ queue p = l ++ queue p' /\ pi_readopen p' = pi_readopen p /\ pi_writeopen p' = pi_writeopen p.

(** A reader takes what is there, up to the bytes it asked for. *)
Lemma piperead_loop_ok k : forall i p dst,
  pipe_ok p -> pi_lock p = true -> exists l q, (length l <= k)%nat /\ drained p q l /\ pi_lock q = true /\ pi_wakes q = pi_wakes p /\
    (length l = k \/ count q = 0) /\
    piperead_loop i k dst p = Ok ((Done (i + Z.of_nat (length l)), dst ++ l), done_with [NWrite] q).
Proof.
  induction k as [|k IH]; intros i p dst Hp Hl.
  - exists [], p. split_and!; try done; [by left|]. cbn [piperead_loop]. mgo.
    cbn [length]. rewrite app_nil_r, Z.add_0_r. by apply unlock_wake.
  - cbn [piperead_loop]. mgo. rewrite empty_test by done. destruct (Z.eqb_spec (count p) 0) as [He|He].
    + exists [], p. split_and!; try done; [cbn; lia|by right|]. cbn [length].
      rewrite app_nil_r, Z.add_0_r. by apply unlock_wake.
    + destruct (get_ok p Hp) as (Hp' & Hq); [pose proof (count_pos p); lia|].
      set (b := pi_data p (pi_nread p mod PIPESIZE)) in *.
      destruct (IH (i + 1) (get p) (dst ++ [b]) Hp' Hl) as (l & q & Hm & (Hok & Hdr & Ho & Hw) & Hlq & Hwq & Hend & R).
      exists (b :: l), q. split_and!; try done; [cbn; lia|split_and!; [done|by rewrite Hq, Hdr|done|done]|cbn; destruct Hend; [left; lia|by right]|].
      mgo. change (set_pi_nread _ _) with (get p). rewrite R. cbn [length]. rewrite <- app_assoc.
      by replace (i + Z.of_nat (S (length l))) with (i + 1 + Z.of_nat (length l)) by lia.
Qed.

(** ** All interleavings *)

(** What holds between two steps: the bytes sent are those got followed by those in
    the pipe. *)
Record sys_fifo (s : psys) : Prop := {
  so_pipe : pipe_ok (sy_pipe s);
  so_lock : pi_lock (sy_pipe s) = false;
  so_wakes : pi_wakes (sy_pipe s) = [];
  so_fifo : sy_sent s = sy_got s ++ queue (sy_pipe s)
}.

(** The calls asleep on a channel have a reason: a reader has nothing to read and a
    writer no room, and the other end is open.  Ends in use are open. *)
Record sys_awake (s : psys) : Prop := {
  sw_reader : forall j, sy_asleep s !! j = Some NRead -> count (sy_pipe s) = 0 /\ pi_writeopen (sy_pipe s) <> 0;
  sw_writer : forall j, sy_asleep s !! j = Some NWrite -> count (sy_pipe s) = PIPESIZE /\ pi_readopen (sy_pipe s) <> 0;
  sw_uses : forall j jb, sy_jobs s !! j = Some jb -> uses jb (sy_pipe s) = true;
  sw_jobs : forall j c, sy_asleep s !! j = Some c -> exists jb, sy_jobs s !! j = Some jb /\
    match c with NRead => exists n, jb = Reading n | NWrite => exists addr n i, jb = Writing addr n i end
}.

Lemma woken_lookup ws a j c : woken ws a !! j = Some c -> a !! j = Some c /\ c ∉ ws.
Proof. unfold woken. rewrite map_lookup_filter_Some. done. Qed.

(** The pipe between two calls, from the pipe inside a call. *)
Lemma locked_ok p : pipe_ok p -> pipe_ok (set_pi_lock true p).
Proof. intros [? ? ?]. by split. Qed.

Lemma finish_fifo j jb r ws q sent got s :
  sys_fifo s -> pipe_ok q -> pi_wakes q = [] -> queue (sy_pipe s) ++ sent = got ++ queue q ->
  sys_fifo (finish j jb r (done_with ws q) sent got s).
Proof.
  intros [Hp Hl Hw Hf] Hq Hwq E. assert (Hq' : pipe_ok (set_pi_wakes [] (done_with ws q))) by (destruct Hq; by split).
  assert (Ef : sy_sent s ++ sent = (sy_got s ++ got) ++ queue q) by (by rewrite Hf, <- !app_assoc, E).
  destruct r; by split.
Qed.

(** A writer's turn. *)
Lemma write_turn s addr n i killed r p' :
  sys_fifo s -> pipewrite_from killed addr n i (sy_pipe s) = Ok (r, p') ->
  exists m q ws, p' = done_with ws q /\ pipe_ok q /\ pi_wakes q = [] /\ queue q = queue (sy_pipe s) ++ load addr i m /\
    bytes_written (Writing addr n i) (sy_pipe s) p' = load addr i m /\ count q = count (sy_pipe s) + Z.of_nat m /\
    pi_readopen q = pi_readopen (sy_pipe s) /\ pi_writeopen q = pi_writeopen (sy_pipe s) /\
    ((r = Done n /\ ws = [NRead] /\ m = Z.to_nat (n - i)) \/
     (r = Done (-1) /\ ws = [] /\ count q = PIPESIZE /\ (pi_readopen q = 0 \/ killed = true)) \/
     (exists k, r = Asleep NWrite k /\ ws = [NRead] /\ count q = PIPESIZE /\ pi_readopen q <> 0 /\ killed = false /\ k = i + Z.of_nat m)).
Proof.
  intros [Hp Hl Hw Hf] R. unfold pipewrite_from, plock, acquire, mbind in R. rewrite Hl in R. cbn [obind] in R.
  destruct (pipewrite_loop_ok killed addr n (Z.to_nat (n - i)) i (set_pi_lock true (sy_pipe s)) (locked_ok _ Hp) eq_refl)
    as (m & q & Hm & (Hok & Hq & Hnw & Hnr & Hro & Hwo) & Hlq & Hwq & Hend). rewrite length_load in Hnw.
  cbn [pi_nwrite pi_nread pi_readopen pi_writeopen pi_wakes set_pi_lock] in *. rewrite Hw in Hwq.
  change (queue (set_pi_lock true (sy_pipe s))) with (queue (sy_pipe s)) in Hq.
  assert (Hcnt : count q = count (sy_pipe s) + Z.of_nat m).
  { rewrite <- !length_queue, Hq, length_app, length_load. lia. }
  assert (Hm' : Z.to_nat (u32 (pi_nwrite q - pi_nwrite (sy_pipe s))) = m).
  { rewrite Hnw. pose proof (count_pos (sy_pipe s)). destruct Hok as [_ _ Hc]. rewrite Hcnt in Hc.
    rewrite u32_sub_u32, Z.add_simpl_l, u32_small; [lia|]. unfold is_u32, PIPESIZE in *. lia. }
  assert (Hbytes : forall ws, bytes_written (Writing addr n i) (sy_pipe s) (done_with ws q) = load addr i m)
    by (intros ws; cbn; by rewrite Hm').
  destruct Hend as [(Em & R')|[(Hfull & Hwhy & R')|(Hfull & Hro' & Hkf & R')]]; rewrite R' in R; injection R as <- <-;
    eexists m, q, _; split_and!; try done; eauto 12.
Qed.

(** A reader's turn. *)
Lemma read_turn s n killed r l p' :
  sys_fifo s -> piperead killed n (sy_pipe s) = Ok ((r, l), p') ->
  exists q ws, p' = done_with ws q /\ pipe_ok q /\ pi_wakes q = [] /\ queue (sy_pipe s) = l ++ queue q /\
    pi_readopen q = pi_readopen (sy_pipe s) /\ pi_writeopen q = pi_writeopen (sy_pipe s) /\
    ((exists k, r = Done k /\ ws = [NWrite]) \/ (r = Done (-1) /\ killed = true /\ ws = [] /\ l = []) \/
     (exists k, r = Asleep NRead k /\ ws = [] /\ l = [] /\ count q = 0 /\ pi_writeopen q <> 0)).
Proof.
  intros [Hp Hl Hw Hf] R. unfold piperead in R. rewrite (mbind_ok _ _ _ _ _ (plock_ok _ Hl)) in R.
  rewrite (mbind_ok _ _ _ _ _ (mget_ok (fun p => p) _)) in R.
  change (pi_nread (set_pi_lock true (sy_pipe s))) with (pi_nread (sy_pipe s)) in R.
  change (pi_nwrite (set_pi_lock true (sy_pipe s))) with (pi_nwrite (sy_pipe s)) in R.
  change (pi_writeopen (set_pi_lock true (sy_pipe s))) with (pi_writeopen (sy_pipe s)) in R. rewrite empty_test in R by done.
  set (p1 := set_pi_lock true (sy_pipe s)) in *. assert (Hp1 : pipe_ok p1) by (by apply locked_ok).
  destruct ((count (sy_pipe s) =? 0) && negb (pi_writeopen (sy_pipe s) =? 0)) eqn:He.
  - apply andb_true_iff in He as (He%Z.eqb_eq & Hwo%negb_true_iff%Z.eqb_neq).
    exists p1, []. destruct killed.
    + pose proof (unlock_plain (Done (-1), @nil Z) p1 eq_refl) as R'. rewrite R' in R. injection R as <- <- <-.
      split_and!; try done. right. by left.
    + pose proof (unlock_plain (Asleep NRead 0, @nil Z) p1 eq_refl) as R'. rewrite R' in R. injection R as <- <- <-.
      split_and!; try done. right. right. by exists 0.
  - destruct (piperead_loop_ok (Z.to_nat n) 0 p1 [] Hp1 eq_refl) as (l' & q & _ & (Hok & Hq & Ho & Hwo) & Hlq & Hwq & _ & R').
    rewrite R' in R. injection R as <- <- <-. exists q, [NWrite]. split_and!; try done; [by rewrite Hwq|]. left. eauto.
Qed.

(** A close. *)
Lemma close_turn s w b p' :
  sys_fifo s -> pipeclose w (sy_pipe s) = Ok (b, p') ->
  exists q, p' = done_with [if w then NRead else NWrite] q /\ pipe_ok q /\ pi_wakes q = [] /\ queue q = queue (sy_pipe s) /\
    count q = count (sy_pipe s) /\
    pi_readopen q = (if w then pi_readopen (sy_pipe s) else 0) /\ pi_writeopen q = (if w then 0 else pi_writeopen (sy_pipe s)).
Proof.
  intros [Hp Hl Hw Hf] R. exists ((if w then set_pi_writeopen 0 else set_pi_readopen 0) (set_pi_lock true (sy_pipe s))).
  unfold pipeclose, plock, punlock, acquire, release, pwakeup, done_with, mbind, mget, mset, mret in *. rewrite Hl in R. cbn [obind] in R.
  destruct w; cbn [obind pi_readopen pi_writeopen pi_lock set_pi_wakes set_pi_writeopen set_pi_readopen set_pi_lock] in R;
    destruct (_ && _) in R; cbn in R; injection R as <- <-; (split_and!; [by destruct (sy_pipe s)|destruct Hp; by split|done..]).
Qed.

Lemma pstep_fifo kill s s' : sys_fifo s -> pstep kill s s' -> sys_fifo s'.
Proof.
  intros Hs Hst. destruct Hst as [s j jb|s j addr n i killed r p' Hj Ha Hk R|s j n killed r l p' Hj Ha Hk R|s j w b p' Hj Ha Hu R].
  - by destruct Hs; split.
  - destruct (write_turn s addr n i killed r p' Hs R) as (m & q & ws & -> & Hok & Hwq & Hq & -> & _). by apply finish_fifo.
  - destruct (read_turn s n killed r l p' Hs R) as (q & ws & -> & Hok & Hwq & Hq & _). apply finish_fifo; try done. by rewrite app_nil_r.
  - destruct (close_turn s w b p' Hs R) as (q & -> & Hok & Hwq & Hq & _). apply finish_fifo; try done. by rewrite app_nil_r, Hq.
Qed.

(** Sleepers after a turn of [j]. *)
Lemma sleepers j jb r ws q sent got s k c :
  pi_wakes q = [] -> sy_asleep s !! j = None ->
  sy_asleep (finish j jb r (done_with ws q) sent got s) !! k = Some c ->
  (k = j /\ exists i, r = Asleep c i) \/ (k <> j /\ sy_asleep s !! k = Some c /\ c ∉ ws).
Proof.
  intros Hw Hj. unfold finish. cbn [pi_wakes done_with set_pi_lock set_pi_wakes]. rewrite Hw. cbn [app].
  destruct r as [v|c' i]; cbn [sy_asleep].
  - intros (Hk & Hc)%woken_lookup. right. split_and!; try done. congruence.
  - destruct (decide (k = j)) as [->|Hne].
    + rewrite lookup_insert_eq. intros [= ->]. left. eauto.
    + rewrite lookup_insert_ne by done. intros (Hk & Hc)%woken_lookup. right. by split_and!.
Qed.

(** Calls in progress after a turn of [j]. *)
Lemma jobs_left j jb r p sent got s k jb' :
  sy_jobs (finish j jb r p sent got s) !! k = Some jb' ->
  (k <> j /\ sy_jobs s !! k = Some jb') \/
  (k = j /\ exists c i, r = Asleep c i /\ jb' = match jb with Writing addr n _ => Writing addr n i | _ => jb end).
Proof.
  unfold finish. destruct r as [v|c i]; cbn [sy_jobs].
  - intros (Hne & Hk)%lookup_delete_Some. by left.
  - intros [(<- & <-)|(Hne & Hk)]%lookup_insert_Some; [right; split; [done|]; eauto|by left].
Qed.

Lemma jobs_kept j jb r p sent got s k jb' :
  k <> j -> sy_jobs s !! k = Some jb' -> sy_jobs (finish j jb r p sent got s) !! k = Some jb'.
Proof.
  intros Hne Hk. unfold finish. destruct r; cbn [sy_jobs]; [by rewrite lookup_delete_ne|by rewrite lookup_insert_ne].
Qed.

(** A turn leaves every sleeper with its reason. *)
Lemma finish_awake j jb r ws q sent got s :
  sys_awake s -> pi_wakes q = [] -> sy_asleep s !! j = None -> sy_jobs s !! j = Some jb ->
  (forall k, sy_asleep s !! k = Some NRead -> NRead ∉ ws -> count q = 0 /\ pi_writeopen q <> 0) ->
  (forall k, sy_asleep s !! k = Some NWrite -> NWrite ∉ ws -> count q = PIPESIZE /\ pi_readopen q <> 0) ->
  (forall c i, r = Asleep c i -> match c with
     | NRead => (exists n, jb = Reading n) /\ count q = 0 /\ pi_writeopen q <> 0
     | NWrite => (exists addr n i, jb = Writing addr n i) /\ count q = PIPESIZE /\ pi_readopen q <> 0 end) ->
  (forall k jb', k <> j \/ (exists c i, r = Asleep c i) -> sy_jobs s !! k = Some jb' -> uses jb' q = true) ->
  sys_awake (finish j jb r (done_with ws q) sent got s).
Proof.
  intros Hs Hwq Hj Hjb HR HW Hr Hu.
  assert (Ep : sy_pipe (finish j jb r (done_with ws q) sent got s) = set_pi_wakes [] (done_with ws q)) by (by destruct r).
  split; rewrite ?Ep.
  - intros k [(-> & i & E)|(Hne & Hk & Hc)]%sleepers; [destruct (Hr _ _ E) as (_ & ?)|by apply (HR k)|done|done]; done.
  - intros k [(-> & i & E)|(Hne & Hk & Hc)]%sleepers; [destruct (Hr _ _ E) as (_ & ?)|by apply (HW k)|done|done]; done.
  - intros k jb' [(Hne & Hk)|(-> & c & i & E & ->)]%jobs_left; [apply (Hu k); [by left|done]|].
    assert (Hj' : uses jb q = true) by (apply (Hu j); [right; eauto|done]). by destruct jb.
  - intros k c [(-> & i & E)|(Hne & Hk & Hc)]%sleepers; [| |done|done].
    + rewrite E. cbn [finish sy_jobs]. rewrite lookup_insert_eq. eexists. split; [done|].
      destruct c; [destruct (Hr _ _ E) as ((n & ->) & _); eauto|destruct (Hr _ _ E) as ((a & n & i0 & ->) & _); eauto].
    + destruct (sw_jobs _ Hs k c Hk) as (jb' & Hkj & Hc'). exists jb'. split; [|done]. by apply jobs_kept.
Qed.

Lemma pstep_awake s s' : sys_fifo s -> sys_awake s -> pstep false s s' -> sys_awake s'.
Proof.
  intros Hf Hs Hst. pose proof Hs as [HR HW HU HJ].
  destruct Hst as [s j jb Hj Ha Hu|s j addr n i killed r p' Hj Ha Hk R|s j n killed r l p' Hj Ha Hk R|s j w b p' Hj Ha Hend R].
  - split; [done|done| |].
    + intros k jb'. cbn [sy_jobs sy_pipe]. intros [(<- & <-)|(Hne & Hk)]%lookup_insert_Some; [done|by apply (HU k)].
    + intros k c Hk. cbn [sy_asleep sy_jobs] in *. destruct (HJ k c Hk) as (jb' & Hkj & Hc). exists jb'. split; [|done].
      rewrite lookup_insert_ne; [done|]. congruence.
  - destruct killed; [by specialize (Hk eq_refl)|].
    destruct (write_turn s addr n i false r p' Hf R) as (m & q & ws & -> & Hok & Hwq & Hq & _ & Hcnt & Hro & Hwo & Hend).
    pose proof (po_count _ Hok) as Hmax.
    apply finish_awake; try done.
    + intros k Hka Hws. destruct Hend as [(-> & -> & _)|[(-> & -> & Hfull & [Hz|?])|(v & -> & -> & _)]]; try done; [by destruct Hws; left| |by destruct Hws; left].
      destruct (HJ k _ Hka) as (jb & Hkj & nr & ->). specialize (HU _ _ Hkj). cbn in HU. rewrite <- Hro, Hz in HU. done.
    + intros k Hka _. destruct (HW k Hka) as (Hc & Ho). rewrite Hro. split; [lia|done].
    + intros c v ->. destruct Hend as [(? & _)|[(? & _)|(v' & [= -> <-] & _ & Hfull & Ho & _)]]; try done. split; [eauto|done].
    + intros k jb' _ Hkj. specialize (HU k _ Hkj). unfold uses in *. by rewrite Hro, Hwo.
  - destruct killed; [by specialize (Hk eq_refl)|].
    destruct (read_turn s n false r l p' Hf R) as (q & ws & -> & Hok & Hwq & Hq & Hro & Hwo & Hend).
    assert (Hlen : count (sy_pipe s) = Z.of_nat (length l) + count q) by (rewrite <- !length_queue, Hq, length_app; lia).
    pose proof (count_pos q) as Hpos.
    apply finish_awake; try done.
    + intros k Hka _. destruct (HR k Hka) as (Hc & Ho). rewrite Hwo. split; [lia|done].
    + intros k Hka Hws. destruct Hend as [(v & -> & ->)|[(? & ? & _)|(v & -> & -> & -> & Hz & _)]]; try done; [by destruct Hws; left|].
      destruct (HW k Hka) as (Hc & _). cbn in Hlen. unfold PIPESIZE in Hc. lia.
    + intros c v ->. destruct Hend as [(? & ? & _)|[(? & _)|(v' & [= -> <-] & _ & _ & Hz & Ho)]]; try done. split; [eauto|done].
    + intros k jb' _ Hkj. specialize (HU k _ Hkj). unfold uses in *. by rewrite Hro, Hwo.
  - destruct (close_turn s w b p' Hf R) as (q & -> & Hok & Hwq & Hq & Hcnt & Hro & Hwo).
    assert (Hoff : forall k jb, sy_jobs s !! k = Some jb -> k <> j -> on_end w jb = false).
    { intros k jb Hk Hne. destruct (on_end w jb) eqn:E; [|done]. by destruct Hne; eapply Hend. }
    apply finish_awake; try done.
    + intros k Hka Hws. destruct w; [by destruct Hws; left|]. destruct (HJ k _ Hka) as (jb & Hkj & nr & ->).
      specialize (Hoff k _ Hkj ltac:(congruence)). done.
    + intros k Hka Hws. destruct w; [|by destruct Hws; left]. destruct (HJ k _ Hka) as (jb & Hkj & a & nr & i & ->).
      specialize (Hoff k _ Hkj ltac:(congruence)). done.
    + intros k jb' [Hne|(? & ? & ?)] Hkj; [|done]. specialize (Hoff k _ Hkj Hne). specialize (HU k _ Hkj).
      unfold uses, on_end in *. destruct jb', w; try done; rewrite ?Hro, ?Hwo; try done; by destruct writable.
Qed.

Lemma fresh_fifo data : sys_fifo (fresh_sys data).
Proof. by split. Qed.

Lemma fresh_awake data : sys_awake (fresh_sys data).
Proof. split; intros; cbn [sy_asleep sy_jobs fresh_sys] in *; simplify_map_eq. Qed.

Lemma rtc_fifo kill data s : rtc (pstep kill) (fresh_sys data) s -> sys_fifo s.
Proof.
  intros Hr. apply (rtc_ind_r sys_fifo (fresh_sys data)) in Hr; [done|apply fresh_fifo|].
  intros x y _ Hxy Hx. by eapply pstep_fifo.
Qed.

(** The call of [pipewrite] and [piperead] always comes to an end or to sleep. *)
Lemma pipewrite_runs s killed addr n i : sys_fifo s -> exists r p', pipewrite_from killed addr n i (sy_pipe s) = Ok (r, p').
Proof.
  intros [Hp Hl _ _]. unfold pipewrite_from. rewrite (mbind_ok _ _ _ _ _ (plock_ok _ Hl)).
  destruct (pipewrite_loop_ok killed addr n (Z.to_nat (n - i)) i _ (locked_ok _ Hp) eq_refl)
    as (m & q & _ & _ & _ & _ & [(_ & ->)|[(_ & _ & ->)|(_ & _ & _ & ->)]]); eauto.
Qed.

Lemma piperead_runs s killed n : sys_fifo s -> exists r l p', piperead killed n (sy_pipe s) = Ok ((r, l), p').
Proof.
  intros [Hp Hl _ _]. unfold piperead. rewrite (mbind_ok _ _ _ _ _ (plock_ok _ Hl)), (mbind_ok _ _ _ _ _ (mget_ok (fun p => p) _)).
  destruct (_ && _); [destruct killed; rewrite unlock_plain by done; eauto|].
  destruct (piperead_loop_ok (Z.to_nat n) 0 _ [] (locked_ok _ Hp) eq_refl) as (l & q & _ & _ & _ & _ & _ & ->). eauto.
Qed.

(** What the bytes put in have to do with the result: a call that returns [n] has put
    in all of its bytes, one that goes to sleep those before the index at which it
    will go on. *)
Lemma pipewrite_result s killed addr n i :
  sys_fifo s -> exists r p', pipewrite_from killed addr n i (sy_pipe s) = Ok (r, p') /\
    let sent := bytes_written (Writing addr n i) (sy_pipe s) p' in
    queue p' = queue (sy_pipe s) ++ sent /\
    match r with
    | Done v => v = -1 \/ v = n /\ sent = load addr i (Z.to_nat (n - i))
    | Asleep _ k => sent = load addr i (Z.to_nat (k - i))
    end.
Proof.
  intros Hs. destruct (pipewrite_runs s killed addr n i Hs) as (r & p' & R). exists r, p'. split; [done|].
  destruct (write_turn s addr n i killed r p' Hs R) as (m & q & ws & -> & _ & _ & Hq & -> & _ & _ & _ & Hend).
  split; [exact Hq|]. destruct Hend as [(-> & _ & ->)|[(-> & _)|(k & -> & _ & _ & _ & _ & ->)]]; [by right|by left|].
  by rewrite Z.add_simpl_l, Nat2Z.id.
Qed.

(** C19: A pipe is a first-in first-out queue of at most 512 bytes, for any number of
    readers and writers in any interleaving, also when the counters wrap around: the
    bytes written so far are the bytes read so far followed by those in the pipe,
    and every call that can run returns or goes to sleep.  A write that returns its
    count has put in all of its bytes; one that goes to sleep has put in those
    before the index it goes on from. *)
Theorem pipe_fifo kill data s :
  rtc (pstep kill) (fresh_sys data) s ->
  sy_sent s = sy_got s ++ queue (sy_pipe s) /\ Z.of_nat (length (queue (sy_pipe s))) <= PIPESIZE /\
  (forall killed addr n i, exists r p', pipewrite_from killed addr n i (sy_pipe s) = Ok (r, p') /\
     let sent := bytes_written (Writing addr n i) (sy_pipe s) p' in
     queue p' = queue (sy_pipe s) ++ sent /\
     match r with
     | Done v => v = -1 \/ v = n /\ sent = load addr i (Z.to_nat (n - i))
     | Asleep _ k => sent = load addr i (Z.to_nat (k - i))
     end) /\
  (forall killed n, exists r l p', piperead killed n (sy_pipe s) = Ok ((r, l), p')).
Proof.
  intros Hr%rtc_fifo. split_and!; [apply Hr|rewrite length_queue; apply Hr| |].
  - intros. by apply pipewrite_result.
  - intros. by apply piperead_runs.
Qed.

(** C34: No wakeup is lost while no process is killed: a reader asleep has an empty
    pipe with its write end open, a writer asleep has a full pipe with its read end
    open, so readers and writers are never asleep at the same time. *)
Theorem pipe_no_lost_wakeup data s :
  rtc (pstep false) (fresh_sys data) s ->
  (forall j, sy_asleep s !! j = Some NRead -> queue (sy_pipe s) = [] /\ pi_writeopen (sy_pipe s) <> 0) /\
  (forall j, sy_asleep s !! j = Some NWrite -> Z.of_nat (length (queue (sy_pipe s))) = PIPESIZE /\ pi_readopen (sy_pipe s) <> 0) /\
  (forall j k, sy_asleep s !! j = Some NRead -> sy_asleep s !! k = Some NWrite -> False).
Proof.
  intros Hr. assert (Hs : sys_fifo s /\ sys_awake s).
  { apply (rtc_ind_r (fun x => sys_fifo x /\ sys_awake x) (fresh_sys data)) in Hr; [done|split; [apply fresh_fifo|apply fresh_awake]|].
    intros x y _ Hxy (Hx & Ha). split; [by eapply pstep_fifo|by eapply pstep_awake]. }
  destruct Hs as (Hf & [HR HW _ _]). split_and!.
  - intros j Hj. destruct (HR j Hj) as (Hc & Ho). split; [|done]. apply nil_length_inv. pose proof (length_queue (sy_pipe s)). lia.
  - intros j Hj. rewrite length_queue. by apply (HW j).
  - intros j k Hj Hk. destruct (HR j Hj) as (Hc & _), (HW k Hk) as (Hc' & _). rewrite Hc in Hc'. done.
Qed.

(** A wakeup is lost when a writer is killed: [pipewrite] that has filled the
    pipe and finds its process killed returns without waking the readers.  A reader
    that went to sleep before stays asleep although 512 bytes are there for it, the
    write end is open and no call is left that could wake it. *)
Theorem pipe_lost_wakeup data addr :
  exists s, rtc (pstep true) (fresh_sys data) s /\ sy_asleep s !! 1%nat = Some NRead /\
    queue (sy_pipe s) = load addr 0 512 /\ pi_writeopen (sy_pipe s) <> 0 /\
    sy_jobs s = {[1%nat := Reading 10]}.
Proof.
  set (s0 := fresh_sys data).
  set (s1 := mksys (new_pipe data) {[1%nat := Reading 10]} ∅ [] []).
  set (s2 := mksys (new_pipe data) {[1%nat := Reading 10]} {[1%nat := NRead]} [] []).
  set (s3 := mksys (new_pipe data) (<[2%nat := Writing addr 513 0]> {[1%nat := Reading 10]}) {[1%nat := NRead]} [] []).
  assert (H1 : pstep true s0 s1) by (by apply (ps_call true s0 1 (Reading 10))).
  assert (H2 : pstep true s1 s2).
  { pose proof (ps_read true s1 1 10 false (Asleep NRead 0) [] (new_pipe data) ltac:(by simplify_map_eq) ltac:(done) ltac:(done) ltac:(done)) as H.
    unfold finish in H. cbn [sy_jobs s1 sy_asleep sy_sent sy_got app pi_wakes new_pipe] in H.
    rewrite insert_singleton in H. exact H. }
  assert (H3 : pstep true s2 s3).
  { apply (ps_call true s2 2 (Writing addr 513 0)); [by simplify_map_eq|by simplify_map_eq|done]. }
  assert (Hf : sys_fifo s3).
  { apply (pstep_fifo true s2); [|done]. apply (pstep_fifo true s1); [|done]. apply (pstep_fifo true s0); [apply fresh_fifo|done]. }
  assert (Hj : sy_jobs s3 !! 2%nat = Some (Writing addr 513 0)) by (by simplify_map_eq).
  assert (Ha : sy_asleep s3 !! 2%nat = None) by (by simplify_map_eq).
  assert (Hd : delete 2%nat (sy_jobs s3) = {[1%nat := Reading 10]}) by (apply delete_insert_id; by simplify_map_eq).
  assert (Hw : woken [] (sy_asleep s3) !! 1%nat = Some NRead).
  { unfold woken. apply map_lookup_filter_Some. split; [by simplify_map_eq|]. apply not_elem_of_nil. }
  assert (Hc3 : count (sy_pipe s3) = 0) by done. assert (Hq3 : queue (sy_pipe s3) = []) by done.
  assert (Ho3 : pi_writeopen (sy_pipe s3) <> 0) by done.
  clearbody s0 s1 s2 s3. destruct (pipewrite_runs s3 true addr 513 0 Hf) as (r & p' & R).
  pose proof (ps_write true s3 2 addr 513 0 true r p' Hj Ha (fun E => E) R) as H4.
  destruct (write_turn s3 addr 513 0 true r p' Hf R) as (m & q & ws & -> & Hok & Hwq & Hq & Hb & Hcnt & Hro & Hwo & Hend). clear R.
  rewrite Hq3 in Hq. cbn [app] in Hq. pose proof (po_count _ Hok) as Hmax.
  destruct Hend as [(-> & -> & Em)|[(-> & -> & Hfull & _)|(k & _ & _ & _ & _ & ? & _)]]; [unfold PIPESIZE in *; lia| |done].
  assert (Em : m = 512%nat) by (unfold PIPESIZE in *; lia). rewrite Em in Hq.
  eexists. split; [eapply rtc_l; [exact H1|]; eapply rtc_l; [exact H2|]; eapply rtc_l; [exact H3|]; eapply rtc_l; [exact H4|]; apply rtc_refl|].
  unfold finish. cbn [sy_asleep sy_pipe sy_jobs pi_wakes done_with set_pi_lock set_pi_wakes pi_writeopen]. rewrite Hwq.
  split_and!; [exact Hw|exact Hq| |exact Hd]. by rewrite Hwo.
Qed.

(** Two bytes through a pipe. *)
Lemma pipe_fifo_witness :
  exists s, rtc (pstep false) (fresh_sys (fun _ => 0)) s /\ sy_sent s = [7; 8] /\ sy_got s = [] /\
    sy_sent s = sy_got s ++ queue (sy_pipe s).
Proof.
  set (s0 := fresh_sys (fun _ => 0)). set (a := fun i => i + 7).
  assert (H1 : pstep false s0 (mksys (sy_pipe s0) {[1%nat := Writing a 2 0]} ∅ [] [])) by (by apply (ps_call false s0 1 (Writing a 2 0))).
  pose proof (ps_write false (mksys (sy_pipe s0) {[1%nat := Writing a 2 0]} ∅ [] []) 1 a 2 0 false (Done 2) _ eq_refl eq_refl (fun E => E) eq_refl) as H2.
  assert (Hr := rtc_l _ _ _ _ H1 (rtc_once _ _ H2)). eexists. split; [exact Hr|]. split; [reflexivity|]. split; [reflexivity|].
  apply (proj1 (pipe_fifo false _ _ Hr)).
Defined.

(** A reader asleep on an empty pipe. *)
Lemma pipe_no_lost_wakeup_witness :
  exists s, rtc (pstep false) (fresh_sys (fun _ => 0)) s /\ sy_asleep s !! 1%nat = Some NRead /\ queue (sy_pipe s) = [].
Proof.
  set (s0 := fresh_sys (fun _ => 0)).
  assert (H1 : pstep false s0 (mksys (sy_pipe s0) {[1%nat := Reading 10]} ∅ [] [])) by (by apply (ps_call false s0 1 (Reading 10))).
  pose proof (ps_read false (mksys (sy_pipe s0) {[1%nat := Reading 10]} ∅ [] []) 1 10 false (Asleep NRead 0) [] _ eq_refl eq_refl (fun E => E) eq_refl) as H2.
  assert (Hr := rtc_l _ _ _ _ H1 (rtc_once _ _ H2)). eexists. split; [exact Hr|]. split; [reflexivity|].
  apply (proj1 (pipe_no_lost_wakeup _ _ Hr) 1%nat). reflexivity.
Defined.
