(* ===== verification/Bio.v ===== *)
(** * The buffer cache: [bio.c], [buf.h] and the disk driver [memide.c]

    Buffers live in an array and are linked in a ring by recency of use.  The
    first part translates the code, links included.  The second part relates a
    cache state to what its clients see, a contents for every block, a set of
    dirty blocks and the buffers in use ([cached]), and shows what each operation
    does to that view. *)

From Stdlib Require Import ZArith Lia String.
From stdpp Require Import base numbers gmap fin_maps sets functions list.
From S2P Require Import Prelude Bytes Params Locks.

Local Open Scope Z_scope.
Local Open Scope kernel_scope.

(** ** Data *)

Definition B_VALID : Z := 0x2.
Definition B_DIRTY : Z := 0x4.

(** [struct buf]; its links are kept apart in the cache state. *)
Record buf := mkbuf {
  b_flags : Z;
  b_dev : Z;
  b_blockno : Z;
  b_lock : sleeplock;
  b_refcnt : Z;
  b_data : mem
}.

Definition set_b_flags (v : Z) (s : buf) : buf :=
  mkbuf v (b_dev s) (b_blockno s) (b_lock s) (b_refcnt s) (b_data s).
Definition set_b_dev (v : Z) (s : buf) : buf :=
  mkbuf (b_flags s) v (b_blockno s) (b_lock s) (b_refcnt s) (b_data s).
Definition set_b_blockno (v : Z) (s : buf) : buf :=
  mkbuf (b_flags s) (b_dev s) v (b_lock s) (b_refcnt s) (b_data s).
Definition set_b_lock (v : sleeplock) (s : buf) : buf :=
  mkbuf (b_flags s) (b_dev s) (b_blockno s) v (b_refcnt s) (b_data s).
Definition set_b_refcnt (v : Z) (s : buf) : buf :=
  mkbuf (b_flags s) (b_dev s) (b_blockno s) (b_lock s) v (b_data s).
Definition set_b_data (v : mem) (s : buf) : buf :=
  mkbuf (b_flags s) (b_dev s) (b_blockno s) (b_lock s) (b_refcnt s) v.

(** The cache and the disk below it.  [bprev] and [bnext] are the links of the
    buffers, indexed like [bufs]; index [HEAD] is [bcache.head].  [written] is
    the history of the blocks written to the disk, [curpid] the process running. *)
Record bst := mkbst {
  bc_lock : bool;
  bufs : list buf;
  bprev : nat -> nat;
  bnext : nat -> nat;
  disk : Z -> mem;
  disksize : Z;
  written : list (Z * mem);
  curpid : Z
}.

Definition set_bc_lock (v : bool) (s : bst) : bst :=
  mkbst v (bufs s) (bprev s) (bnext s) (disk s) (disksize s) (written s) (curpid s).
Definition set_bufs (v : list buf) (s : bst) : bst :=
  mkbst (bc_lock s) v (bprev s) (bnext s) (disk s) (disksize s) (written s) (curpid s).
Definition set_bprev (v : nat -> nat) (s : bst) : bst :=
  mkbst (bc_lock s) (bufs s) v (bnext s) (disk s) (disksize s) (written s) (curpid s).
Definition set_bnext (v : nat -> nat) (s : bst) : bst :=
  mkbst (bc_lock s) (bufs s) (bprev s) v (disk s) (disksize s) (written s) (curpid s).
Definition set_disk (v : Z -> mem) (s : bst) : bst :=
  mkbst (bc_lock s) (bufs s) (bprev s) (bnext s) v (disksize s) (written s) (curpid s).
Definition set_disksize (v : Z) (s : bst) : bst :=
  mkbst (bc_lock s) (bufs s) (bprev s) (bnext s) (disk s) v (written s) (curpid s).
Definition set_written (v : list (Z * mem)) (s : bst) : bst :=
  mkbst (bc_lock s) (bufs s) (bprev s) (bnext s) (disk s) (disksize s) v (curpid s).
Definition set_curpid (v : Z) (s : bst) : bst :=
  mkbst (bc_lock s) (bufs s) (bprev s) (bnext s) (disk s) (disksize s) (written s) v.

(** [&bcache.head]. *)
Definition HEAD : nat := Z.to_nat NBUF.

(** ** Operations *)

Definition getb (i : nat) : M bst buf :=
  fun s => match bufs s !! i with Some b => Ok (b, s) | None => Undef end.

Definition setb (i : nat) (f : buf -> buf) : M bst unit :=
  mset (fun s => set_bufs (alter f i (bufs s)) s).

Definition setprev (i v : nat) : M bst unit := mset (fun s => set_bprev (<[i:=v]> (bprev s)) s).
Definition setnext (i v : nat) : M bst unit := mset (fun s => set_bnext (<[i:=v]> (bnext s)) s).

(** An operation on the sleep lock of buffer [i]. *)
Definition onlock {A} (i : nat) (m : M sleeplock A) : M bst A :=
  let! b := getb i in
  fun s => obind (m (b_lock b))
             (fun '(a, l) => Ok (a, set_bufs (alter (set_b_lock l) i (bufs s)) s)).

(** Puts buffer [b] after the head of the ring. *)
Definition link_first (b : nat) : M bst unit :=
  let! n := mget (fun s => bnext s HEAD) in
  setnext b n ;;!
  setprev b HEAD ;;!
  let! n := mget (fun s => bnext s HEAD) in
  setprev n b ;;!
  setnext HEAD b.

Definition binit : M bst unit :=
  mset (set_bc_lock false) ;;!
  setprev HEAD HEAD ;;!
  setnext HEAD HEAD ;;!
  for_ HEAD 0 (fun i => onlock (Z.to_nat i) initsleeplock ;;! link_first (Z.to_nat i)).

(** [iderw] of memide.c. *)
Definition iderw (i : nat) : M bst unit :=
  let! pid := mget curpid in
  let! h := onlock i (holdingsleep pid) in
  if negb h then mpanic "iderw: buf not locked" else
  let! b := getb i in
  if Z.land (b_flags b) (Z.lor B_VALID B_DIRTY) =? B_VALID then mpanic "iderw: nothing to do" else
  if negb (b_dev b =? 1) then mpanic "iderw: request not for disk 1" else
  let! sz := mget disksize in
  if b_blockno b >=? u32 sz then mpanic "iderw: block out of range" else
  (if negb (Z.land (b_flags b) B_DIRTY =? 0)
   then
     setb i (fun b => set_b_flags (Z.land (b_flags b) (Z.lnot B_DIRTY)) b) ;;!
     mset (fun s => set_disk (<[b_blockno b := b_data b]> (disk s)) s) ;;!
     mset (fun s => set_written (written s ++ [(b_blockno b, b_data b)]) s)
   else
     let! d := mget disk in setb i (set_b_data (d (b_blockno b)))) ;;!
  setb i (fun b => set_b_flags (Z.lor (b_flags b) B_VALID) b).

(** A scan of the ring along [link], from [b] until the head or a buffer that
    passes the test. *)
Fixpoint scan (fuel : nat) (link : nat -> nat) (bs : list buf) (test : buf -> bool) (b : nat) :
    outcome (option nat) :=
  if decide (b = HEAD) then Ok None else
  match fuel with
  | O => NoFuel
  | S n =>
      match bs !! b with
      | None => Undef
      | Some bf => if test bf then Ok (Some b) else scan n link bs test (link b)
      end
  end.

Definition scan_next (test : buf -> bool) : M bst (option nat) :=
  fun s => obind (scan HEAD (bnext s) (bufs s) test (bnext s HEAD)) (fun r => Ok (r, s)).
Definition scan_prev (test : buf -> bool) : M bst (option nat) :=
  fun s => obind (scan HEAD (bprev s) (bufs s) test (bprev s HEAD)) (fun r => Ok (r, s)).

(** [b->dev == dev && b->blockno == blockno], and the test for a buffer to recycle. *)
Definition same_block (dev blockno : Z) (b : buf) : bool :=
  (b_dev b =? dev) && (b_blockno b =? blockno).
Definition unused (b : buf) : bool := (b_refcnt b =? 0) && (Z.land (b_flags b) B_DIRTY =? 0).

Definition bget (dev blockno : Z) : M bst nat :=
  let! pid := mget curpid in
  acquire bc_lock set_bc_lock ;;!
  let! r := scan_next (same_block dev blockno) in
  match r with
  | Some i =>
      setb i (fun b => set_b_refcnt (u32 (b_refcnt b + 1)) b) ;;!
      release bc_lock set_bc_lock ;;!
      onlock i (acquiresleep pid) ;;!
      mret i
  | None =>
      let! r := scan_prev unused in
      match r with
      | Some i =>
          setb i (set_b_dev dev) ;;!
          setb i (set_b_blockno blockno) ;;!
          setb i (set_b_flags 0) ;;!
          setb i (set_b_refcnt 1) ;;!
          release bc_lock set_bc_lock ;;!
          onlock i (acquiresleep pid) ;;!
          mret i
      | None => mpanic "bget: no buffers"
      end
  end.

Definition bread (dev blockno : Z) : M bst nat :=
  let! i := bget dev blockno in
  let! b := getb i in
  mwhen (Z.land (b_flags b) B_VALID =? 0) (iderw i) ;;!
  mret i.

Definition bwrite (i : nat) : M bst unit :=
  let! pid := mget curpid in
  let! h := onlock i (holdingsleep pid) in
  if negb h then mpanic "bwrite" else
  setb i (fun b => set_b_flags (Z.lor (b_flags b) B_DIRTY) b) ;;!
  iderw i.

Definition brelse (i : nat) : M bst unit :=
  let! pid := mget curpid in
  let! h := onlock i (holdingsleep pid) in
  if negb h then mpanic "brelse" else
  onlock i releasesleep ;;!
  acquire bc_lock set_bc_lock ;;!
  setb i (fun b => set_b_refcnt (u32 (b_refcnt b - 1)) b) ;;!
  let! b := getb i in
  mwhen (b_refcnt b =? 0)
    (let! n := mget (fun s => bnext s i) in
     let! p := mget (fun s => bprev s i) in
     setprev n p ;;!
     let! n := mget (fun s => bnext s i) in
     let! p := mget (fun s => bprev s i) in
     setnext p n ;;!
     link_first i) ;;!
  release bc_lock set_bc_lock.

(** The data of buffer [i], and a client's change of it in place. *)
Definition bdata (i : nat) : M bst mem := let! b := getb i in mret (b_data b).
Definition bput (i : nat) (f : mem -> mem) : M bst unit := setb i (fun b => set_b_data (f (b_data b)) b).

(** ** What clients see *)

(** [xs] are consecutive buffers: each one's [next] is the one after it, whose
    [prev] leads back. *)
Fixpoint chain (nx pv : nat -> nat) (xs : list nat) : Prop :=
  match xs with
  | x :: t =>
      match t with
      | y :: _ => nx x = y /\ pv y = x /\ chain nx pv t
      | [] => True
      end
  | [] => True
  end.

(** The ring holds every buffer once; [l] lists them from the most recently used. *)
Definition ring (s : bst) (l : list nat) : Prop :=
  l ≡ₚ seq 0 HEAD /\ chain (bnext s) (bprev s) (HEAD :: l ++ [HEAD]).

(** What the flags, the lock and the data of buffer [i] say, for the contents
    [v], the dirty blocks [D] and the buffers in use [H]. *)
Record buf_ok (s : bst) (v : Z -> mem) (D : gset Z) (H : list (nat * Z)) (i : nat) (b : buf) :
    Prop := {
  bo_lock : b_lock b = if decide (i ∈ H.*1) then sl_held (curpid s) else sl_free;
  bo_ref : b_refcnt b = if decide (i ∈ H.*1) then 1 else 0;
  bo_use : i ∈ H.*1 -> b_dev b = 1 /\ b_flags b <> 0;
  bo_dirty : b_flags b = 6 <-> b_dev b = 1 /\ b_blockno b ∈ D;
  bo_flags : b_flags b = 0 \/ b_flags b = 2 \/ b_flags b = 6;
  bo_data : b_flags b <> 0 -> b_dev b = 1 /\ b_data b = v (b_blockno b)
}.

(** [cached s v D H]: the cache and the disk of [s] together hold the contents
    [v]; the blocks of [D] are in dirty buffers, every other block is on the
    disk; [H] are the buffers in use, with the blocks they hold. *)
Record cached (s : bst) (v : Z -> mem) (D : gset Z) (H : list (nat * Z)) : Prop := {
  ca_lock : bc_lock s = false;
  ca_len : length (bufs s) = HEAD;
  ca_ring : exists l, ring s l;
  ca_buf : forall i b, bufs s !! i = Some b -> buf_ok s v D H i b;
  ca_uniq : forall i j b c, bufs s !! i = Some b -> bufs s !! j = Some c ->
    b_dev b = 1 -> b_dev c = 1 -> b_blockno b = b_blockno c -> i = j;
  ca_dirty : forall x, x ∈ D -> exists i b, bufs s !! i = Some b /\ b_dev b = 1 /\ b_blockno b = x;
  ca_held : forall i x, (i, x) ∈ H -> exists b, bufs s !! i = Some b /\ b_blockno b = x;
  ca_nodup : NoDup H.*1;
  ca_disk : forall x, x ∉ D -> disk s x = v x
}.

(** Blocks that pin a buffer. *)
Definition pins (D : gset Z) (H : list (nat * Z)) : gset Z := D ∪ list_to_set H.*2.

(** ** The ring *)

Lemma chain_app nx pv l x r :
  chain nx pv (l ++ x :: r) <-> chain nx pv (l ++ [x]) /\ chain nx pv (x :: r).
Proof.
  induction l as [|a l IH]; [simpl; tauto|].
  destruct l as [|b l]; [simpl; destruct r; simpl; tauto|].
  cbn in IH |- *. tauto.
Qed.

Lemma chain_frame nx pv nx' pv' l y :
  chain nx pv (l ++ [y]) ->
  (forall a, a ∈ l -> nx' a = nx a) ->
  (forall a, a ∈ tail (l ++ [y]) -> pv' a = pv a) ->
  chain nx' pv' (l ++ [y]).
Proof.
  induction l as [|a l IH]; intros Hc Hn Hp; [done|].
  assert (Hn' : nx' a = nx a) by (apply Hn; left).
  assert (IH' : chain nx pv (l ++ [y]) -> (forall a, a ∈ tail (l ++ [y]) -> pv' a = pv a) ->
    chain nx' pv' (l ++ [y])) by (intros; apply IH; [done|intros; apply Hn; by right|done]).
  destruct l as [|b l]; simpl in *.
  - rewrite Hn', (Hp y) by left. done.
  - rewrite Hn', (Hp b) by left. destruct Hc as (H1 & H2 & H3). split_and!; [done..|].
    apply IH'; [done|]. intros c Hc. apply Hp. by right.
Qed.

Lemma chain_rev nx pv l : chain nx pv l -> chain pv nx (reverse l).
Proof.
  induction l as [|a l IH]; [done|]. rewrite reverse_cons. destruct l as [|b l]; [done|].
  intros (H1 & H2 & H3). specialize (IH H3). rewrite reverse_cons in *.
  rewrite <- app_assoc. apply chain_app. split; [done|]. simpl. done.
Qed.

(** Taking a buffer out of the ring. *)
Lemma chain_unlink nx pv h l1 b l2 :
  NoDup (h :: l1 ++ b :: l2) ->
  chain nx pv (h :: l1 ++ b :: l2 ++ [h]) ->
  chain (<[pv b := nx b]> nx) (<[nx b := pv b]> pv) (h :: l1 ++ l2 ++ [h]).
Proof.
  intros Hnd Hc.
  destruct (exists_last (l := h :: l1)) as (l1' & p & E1); [done|].
  assert (exists n l2', l2 ++ [h] = n :: l2') as (n & l2' & E2) by (destruct l2; simpl; eauto).
  assert (Hall : h :: l1 ++ b :: l2 ++ [h] = l1' ++ p :: b :: n :: l2').
  { rewrite <- E2. change (h :: l1 ++ ?r) with ((h :: l1) ++ r). by rewrite E1, <- app_assoc. }
  rewrite Hall in Hc. apply chain_app in Hc as (Hc1 & Hnp & Hpb & Hnb & Hpn & Hc2).
  rewrite Hnb, Hpb. change (h :: l1 ++ ?r) with ((h :: l1) ++ r). rewrite E1, E2, <- app_assoc.
  assert (Hnd1 : NoDup (l1' ++ [p])) by (rewrite <- E1; apply (NoDup_app (h :: l1) (b :: l2)); done).
  apply NoDup_app in Hnd1 as (_ & Hp & _).
  apply chain_app. split; [|simpl; rewrite !fn_lookup_insert; split_and!; [done..|]].
  - eapply chain_frame; [exact Hc1| |].
    + intros a Ha. apply fn_lookup_insert_ne. intros <-. apply (Hp p Ha). left.
    + intros a Ha. apply fn_lookup_insert_ne. intros <-.
      rewrite <- E1 in Ha. simpl in Ha.
      apply NoDup_cons in Hnd as (Hh & Hnd). apply NoDup_app in Hnd as (_ & Hd & _).
      destruct l2 as [|c l2]; injection E2 as <- _.
      * apply Hh, elem_of_app. by left.
      * apply (Hd c Ha). right. left.
  - assert (exists m, n :: l2' = m ++ [h] /\ (p ∉ m) /\ n ∉ tail (m ++ [h])) as (m & Em & Hpm & Hnm).
    { exists l2. split; [done|].
      change (h :: l1 ++ ?r) with ((h :: l1) ++ r) in Hnd. rewrite E1 in Hnd.
      apply NoDup_app in Hnd as (_ & Hd & Hnd2). split.
      - intros Hin. apply (Hd p); [apply elem_of_app; right; left|right; done].
      - destruct l2 as [|c l2]; [simpl; apply not_elem_of_nil|]. injection E2 as <- _. simpl.
        rewrite elem_of_app, list_elem_of_singleton. intros [Hin| ->].
        + apply NoDup_cons in Hnd2 as (_ & Hnd2). apply NoDup_cons in Hnd2 as (Hc & _). done.
        + apply (Hd h); [rewrite <- E1; left|right; left]. }
    change (chain (<[p:=n]> nx) (<[n:=p]> pv) (n :: l2')). rewrite Em in *.
    eapply chain_frame; [exact Hc2| |].
    + intros a Ha. apply fn_lookup_insert_ne. by intros <-.
    + intros a Ha. apply fn_lookup_insert_ne. by intros <-.
Qed.

(** Putting a buffer at the front. *)
Lemma chain_link nx pv h b l :
  NoDup (h :: l) -> b ∉ h :: l ->
  chain nx pv (h :: l ++ [h]) ->
  chain (<[h := b]> (<[b := nx h]> nx)) (<[nx h := b]> (<[b := h]> pv)) (h :: b :: l ++ [h]).
Proof.
  intros Hnd Hb Hc. apply not_elem_of_cons in Hb as (Hbh & Hbl).
  assert (Hh : h ∉ l) by (by apply NoDup_cons in Hnd as (? & _)).
  assert (exists n l', l ++ [h] = n :: l') as (n & l' & E) by (destruct l; simpl; eauto).
  rewrite E in *. destruct Hc as (Hn & Hp & Hc). rewrite Hn.
  assert (Hnb : n <> b) by (intros ->; destruct l; injection E; intros; subst; [done|];
    apply Hbl; left).
  simpl. rewrite fn_lookup_insert, fn_lookup_insert_ne by done. rewrite fn_lookup_insert.
  rewrite fn_lookup_insert_ne, fn_lookup_insert by done. rewrite fn_lookup_insert.
  split_and!; [done..|]. change (chain (<[h:=b]> (<[b:=n]> nx)) (<[n:=b]> (<[b:=h]> pv)) (n :: l')).
  rewrite <- E in *. eapply chain_frame; [exact Hc| |].
  - intros a Ha. rewrite !fn_lookup_insert_ne; [done| |]; by intros <-.
  - intros a Ha. assert (Hin : a ∈ l \/ a = h).
    { rewrite <- (list_elem_of_singleton a h), <- elem_of_app, E. rewrite E in Ha. by right. }
    rewrite !fn_lookup_insert_ne; [done| |].
    + intros <-. destruct Hin as [?| ->]; done.
    + intros <-. destruct l as [|c l]; simplify_list_eq; simpl in Ha.
      * by apply elem_of_nil in Ha.
      * apply NoDup_cons in Hnd as (_ & Hnd). apply NoDup_cons in Hnd as (Hc' & _).
        rewrite elem_of_app, list_elem_of_singleton in Ha. destruct Ha as [?|Ha]; [done|].
        apply Hh. rewrite <- Ha. left.
Qed.

(** ** Scans *)

(** The buffers a test selects. *)
Definition sel (bs : list buf) (test : buf -> bool) (i : nat) : bool :=
  match bs !! i with Some b => test b | None => false end.

Lemma scan_chain link back bs test l fuel x :
  chain link back (x :: l ++ [HEAD]) ->
  (forall i, i ∈ l -> i < HEAD)%nat -> length bs = HEAD -> (length l <= fuel)%nat ->
  scan fuel link bs test (link x) = Ok (find (sel bs test) l).
Proof.
  revert fuel x. induction l as [|a l IH]; intros fuel x Hc Hin Hlen Hf.
  - destruct Hc as (-> & _). by destruct fuel.
  - destruct Hc as (-> & _ & Hc). destruct fuel as [|fuel]; [simpl in Hf; lia|].
    assert (Ha : (a < HEAD)%nat) by (apply Hin; left).
    destruct (lookup_lt_is_Some_2 bs a) as (b & Hb); [by rewrite Hlen|].
    simpl. rewrite decide_False by lia. unfold sel at 1. rewrite Hb. destruct (test b) eqn:Ht; [done|].
    apply IH; [done|intros; apply Hin; by right|done|simpl in Hf; lia].
Qed.

Lemma ring_lt s l i : ring s l -> i ∈ l <-> (i < HEAD)%nat.
Proof. intros (Hp & _). rewrite Hp, elem_of_seq. lia. Qed.

Lemma ring_length s l : ring s l -> length l = HEAD.
Proof. intros (Hp & _). by rewrite Hp, length_seq. Qed.

Lemma scan_next_eq s l test :
  ring s l -> length (bufs s) = HEAD -> scan_next test s = Ok (find (sel (bufs s) test) l, s).
Proof.
  intros Hr Hlen. unfold scan_next. rewrite (scan_chain _ (bprev s) _ _ l); [done|apply Hr|..].
  - intros i. by rewrite (ring_lt s l).
  - done.
  - by rewrite (ring_length s l).
Qed.

Lemma scan_prev_eq s l test :
  ring s l -> length (bufs s) = HEAD ->
  scan_prev test s = Ok (find (sel (bufs s) test) (reverse l), s).
Proof.
  intros Hr Hlen. unfold scan_prev.
  rewrite (scan_chain _ (bnext s) _ _ (reverse l)); [done|..].
  - destruct Hr as (_ & Hc). apply chain_rev in Hc. by rewrite reverse_cons, reverse_app in Hc.
  - intros i. rewrite elem_of_reverse. by rewrite (ring_lt s l).
  - done.
  - by rewrite length_reverse, (ring_length s l).
Qed.

Lemma find_sel bs test l i :
  find (sel bs test) l = Some i -> exists b, bs !! i = Some b /\ test b = true.
Proof.
  intros (_ & H)%find_some. unfold sel in H. destruct (bs !! i) as [b|] eqn:E; [eauto|done].
Qed.

Lemma find_sel_none bs test l i b :
  find (sel bs test) l = None -> i ∈ l -> bs !! i = Some b -> test b = false.
Proof.
  intros H Hi Hb. pose proof (find_none _ _ H i) as Hn. rewrite <- list_elem_of_In in Hn.
  specialize (Hn Hi). unfold sel in Hn. by rewrite Hb in Hn.
Qed.

(** From the end, the last one is found. *)
Lemma find_last {A} (f : A -> bool) l1 i l2 :
  f i = true -> (forall j, j ∈ l2 -> f j = false) -> find f (reverse (l1 ++ i :: l2)) = Some i.
Proof.
  intros Hi Hl2. rewrite reverse_app, reverse_cons, <- app_assoc.
  assert (Hr : forall j, j ∈ reverse l2 -> f j = false) by (intros j Hj; apply Hl2; by rewrite elem_of_reverse in Hj).
  induction (reverse l2) as [|j r IH]; cbn; [by rewrite Hi|]. rewrite Hr by left. apply IH. intros k Hk. apply Hr. by right.
Qed.

(** ** The view after a change of one buffer *)

Lemma buf_ok_other s v D H s' v' D' H' i b :
  buf_ok s v D H i b -> curpid s' = curpid s ->
  (i ∈ H'.*1 <-> i ∈ H.*1) ->
  (b_dev b = 1 -> v' (b_blockno b) = v (b_blockno b)) ->
  (b_dev b = 1 -> b_blockno b ∈ D' <-> b_blockno b ∈ D) ->
  buf_ok s' v' D' H' i b.
Proof.
  intros [Hl Hr Hu Hd Hf Hv] Hp HH Hv' HD'. split.
  - rewrite Hl, Hp. by apply decide_ext.
  - rewrite Hr. by apply decide_ext.
  - rewrite HH. exact Hu.
  - rewrite Hd. split; intros (? & ?); split; try done; by apply HD'.
  - done.
  - intros Hnz. destruct (Hv Hnz) as (? & ?). split; [done|]. by rewrite Hv'.
Qed.

Lemma cached_upd s v D H s' v' D' H' i x b0 b' :
  cached s v D H -> bufs s !! i = Some b0 -> bufs s' = <[i:=b']> (bufs s) ->
  bc_lock s' = false -> curpid s' = curpid s -> (exists l, ring s' l) ->
  b_dev b' = 1 -> b_blockno b' = x ->
  (forall j b, j <> i -> bufs s !! j = Some b -> b_dev b = 1 -> b_blockno b <> x) ->
  (b_dev b0 = 1 -> b_blockno b0 = x \/ b_blockno b0 ∉ D) ->
  buf_ok s' v' D' H' i b' ->
  (forall y, y <> x -> v' y = v y) -> (forall y, y <> x -> y ∈ D' <-> y ∈ D) ->
  (forall j, j <> i -> j ∈ H'.*1 <-> j ∈ H.*1) ->
  (forall j y, (j, y) ∈ H' -> (j <> i /\ (j, y) ∈ H) \/ (j = i /\ y = x)) ->
  NoDup H'.*1 -> (forall y, y ∉ D' -> disk s' y = v' y) ->
  cached s' v' D' H'.
Proof.
  intros Hc Hi Hbs Hlk Hpid Hring Hdev Hblk Hother Hold Hok Hv HD HH HHs Hnd Hdisk.
  assert (Hlen := lookup_lt_Some _ _ _ Hi).
  split; try done.
  - rewrite Hbs, length_insert. apply Hc.
  - intros j b. rewrite Hbs. intros [(<- & -> & _)|(Hne & Hb)]%list_lookup_insert_Some; [done|].
    eapply buf_ok_other; [by apply (ca_buf _ _ _ _ Hc)|done|..].
    + apply HH. done.
    + intros Hd. apply Hv. by eapply Hother.
    + intros Hd. apply HD. by eapply Hother.
  - intros j k b c. rewrite Hbs.
    intros [(<- & -> & _)|(Hj & Hb)]%list_lookup_insert_Some
           [(<- & -> & _)|(Hk & Hcc)]%list_lookup_insert_Some Hdb Hdc Heq.
    + done.
    + exfalso. apply (Hother k c); congruence.
    + exfalso. apply (Hother j b); congruence.
    + by apply (ca_uniq _ _ _ _ Hc j k b c).
  - intros y Hy. destruct (decide (y = x)) as [->|Hyx].
    + exists i, b'. rewrite Hbs, list_lookup_insert_eq by done. done.
    + apply HD in Hy; [|done]. destruct (ca_dirty _ _ _ _ Hc y Hy) as (j & b & Hb & Hd & Hbl).
      exists j, b. split; [|done]. rewrite Hbs, list_lookup_insert_ne; [done|].
      intros <-. rewrite Hi in Hb. injection Hb as ->. destruct (Hold Hd); congruence.
  - intros j y [(Hne & Hin)|(-> & ->)]%HHs.
    + destruct (ca_held _ _ _ _ Hc j y Hin) as (b & Hb & ?). exists b.
      rewrite Hbs, list_lookup_insert_ne; done.
    + exists b'. rewrite Hbs, list_lookup_insert_eq by done. done.
Qed.

Lemma held_lookup s v D H i x :
  cached s v D H -> (i, x) ∈ H ->
  exists b, bufs s !! i = Some b /\ buf_ok s v D H i b /\ b_dev b = 1 /\ b_blockno b = x /\
    b_lock b = sl_held (curpid s) /\ b_refcnt b = 1 /\ b_data b = v x /\
    b_flags b = if decide (x ∈ D) then 6 else 2.
Proof.
  intros Hc Hin. destruct (ca_held _ _ _ _ Hc i x Hin) as (b & Hb & Hx).
  pose proof (ca_buf _ _ _ _ Hc i b Hb) as Hok. exists b.
  assert (Hi : i ∈ H.*1) by (apply list_elem_of_fmap; exists (i, x); done).
  pose proof Hok as [Hl Hr Hu Hd Hf Hv].
  destruct (Hu Hi) as (Hdev & Hnz). destruct (Hv Hnz) as (_ & Hdata).
  rewrite decide_True in Hl by done. rewrite decide_True in Hr by done. split_and!; try done; [congruence|].
  destruct (decide (x ∈ D)); [apply Hd; subst; done|].
  destruct Hf as [?|[?|H6]]; [done|done|]. apply Hd in H6 as (_ & ?). by subst.
Qed.

(** A block is in at most one buffer. *)
Lemma other_block s v D H i b x :
  cached s v D H -> bufs s !! i = Some b -> b_dev b = 1 -> b_blockno b = x ->
  forall j c, j <> i -> bufs s !! j = Some c -> b_dev c = 1 -> b_blockno c <> x.
Proof.
  intros Hc Hi Hd Hx j c Hne Hj Hdc E. apply Hne. by apply (ca_uniq _ _ _ _ Hc j i c b); congruence.
Qed.

(** ** Effects of the primitive steps *)

Definition upd (i : nat) (b : buf) (s : bst) : bst := set_bufs (<[i:=b]> (bufs s)) s.

Definition on_disk (s : bst) (x : Z) : Prop := 0 <= x < u32 (disksize s).

Lemma bst_eq (s s' : bst) :
  bc_lock s = bc_lock s' -> bufs s = bufs s' -> bprev s = bprev s' -> bnext s = bnext s' ->
  disk s = disk s' -> disksize s = disksize s' -> written s = written s' -> curpid s = curpid s' ->
  s = s'.
Proof. destruct s, s'. cbn. by intros -> -> -> -> -> -> -> ->. Qed.

Lemma upd_lookup s i b b0 : bufs s !! i = Some b0 -> bufs (upd i b s) !! i = Some b.
Proof. intros H. apply list_lookup_insert_eq. by eapply lookup_lt_Some. Qed.

Lemma upd_upd s i b b' : upd i b' (upd i b s) = upd i b' s.
Proof. unfold upd, set_bufs. cbn. by rewrite list_insert_insert_eq. Qed.

Lemma upd_id s i b : bufs s !! i = Some b -> upd i b s = s.
Proof. intros H. unfold upd. rewrite list_insert_id by done. by destruct s. Qed.

Lemma getb_eq s i b : bufs s !! i = Some b -> getb i s = Ok (b, s).
Proof. intros H. unfold getb. by rewrite H. Qed.

Lemma setb_eq s i f b : bufs s !! i = Some b -> setb i f s = Ok (tt, upd i (f b) s).
Proof. intros H. unfold setb, mset. by rewrite (alter_insert _ _ _ b). Qed.

Lemma onlock_eq {A} s i (m : M sleeplock A) b a l :
  bufs s !! i = Some b -> m (b_lock b) = Ok (a, l) ->
  onlock i m s = Ok (a, upd i (set_b_lock l b) s).
Proof.
  intros H Hm. unfold onlock. rewrite (mbind_ok _ _ _ _ _ (getb_eq _ _ _ H)), Hm. cbn.
  by rewrite (alter_insert _ _ _ b).
Qed.

Lemma holding_eq s i b :
  bufs s !! i = Some b -> b_lock b = sl_held (curpid s) ->
  onlock i (holdingsleep (curpid s)) s = Ok (true, s).
Proof.
  intros H Hl. rewrite (onlock_eq _ _ _ b true (sl_held (curpid s))); [|done|].
  - do 2 f_equal. rewrite <- Hl. rewrite upd_id; [done|]. rewrite H. by destruct b.
  - rewrite Hl. apply holdingsleep_held.
Qed.

Lemma iderw_write s i b :
  bufs s !! i = Some b -> b_lock b = sl_held (curpid s) -> b_flags b = 6 \/ b_flags b = 4 ->
  b_dev b = 1 -> on_disk s (b_blockno b) ->
  iderw i s = Ok (tt, set_written (written s ++ [(b_blockno b, b_data b)])
                     (set_disk (<[b_blockno b := b_data b]> (disk s)) (upd i (set_b_flags 2 b) s))).
Proof.
  intros H Hl Hf Hd Hx. unfold iderw. mgo.
  assert (E1 : (b_blockno b >=? u32 (disksize s)) = false) by (unfold on_disk in Hx; lia).
  mby (holding_eq s i b H Hl). cbn [negb].
  mby (getb_eq s i b H). rewrite Hd.
  assert (E2 : (Z.land (b_flags b) (Z.lor B_VALID B_DIRTY) =? B_VALID) = false)
    by (destruct Hf as [-> | ->]; reflexivity).
  assert (E3 : (Z.land (b_flags b) B_DIRTY =? 0) = false) by (destruct Hf as [-> | ->]; reflexivity).
  rewrite E2. cbn [negb Z.eqb Pos.eqb]. mgo. rewrite E1, E3. cbn [negb].
  mgo. mby (setb_eq s i (fun b => set_b_flags (Z.land (b_flags b) (Z.lnot B_DIRTY)) b) b H).
  set (s1 := set_written _ _).
  rewrite (setb_eq s1 i _ _ (upd_lookup s i _ b H)). do 2 f_equal. unfold s1, upd. cbn.
  rewrite list_insert_insert_eq. by destruct Hf as [-> | ->].
Qed.

Lemma iderw_read s i b :
  bufs s !! i = Some b -> b_lock b = sl_held (curpid s) -> b_flags b = 0 ->
  b_dev b = 1 -> on_disk s (b_blockno b) ->
  iderw i s = Ok (tt, upd i (set_b_flags 2 (set_b_data (disk s (b_blockno b)) b)) s).
Proof.
  intros H Hl Hf Hd Hx. unfold iderw. mgo.
  assert (E1 : (b_blockno b >=? u32 (disksize s)) = false) by (unfold on_disk in Hx; lia).
  mby (holding_eq s i b H Hl). cbn [negb].
  mby (getb_eq s i b H). rewrite Hd, Hf.
  change (Z.land 0 (Z.lor B_VALID B_DIRTY) =? B_VALID) with false. change (Z.land 0 B_DIRTY =? 0) with true.
  cbn [negb Z.eqb Pos.eqb]. mgo.
  rewrite E1. mgo. mby (setb_eq s i (set_b_data (disk s (b_blockno b))) b H).
  rewrite (setb_eq _ i _ _ (upd_lookup s i _ b H)), upd_upd. cbn. by rewrite Hf.
Qed.

(** ** [bread] *)

(** Buffers in use or dirty hold different blocks, so a cache that pins fewer
    blocks than it has buffers has one to recycle. *)
Lemma recyclable s v D H :
  cached s v D H -> (size (pins D H) < HEAD)%nat ->
  exists i b, bufs s !! i = Some b /\ unused b = true.
Proof.
  intros Hc Hsz. destruct (decide (Exists (fun b => unused b = true) (bufs s))) as [Hex|Hno].
  - apply Exists_exists in Hex as (b & Hin & Hb). apply list_elem_of_lookup in Hin as (i & Hi). eauto.
  - exfalso. rewrite <- Forall_Exists_neg, Forall_lookup in Hno.
    assert (Hp : forall i b, bufs s !! i = Some b -> b_dev b = 1 /\ b_blockno b ∈ pins D H).
    { intros i b Hb. specialize (Hno i b Hb). unfold unused in Hno. pose proof (ca_buf _ _ _ _ Hc i b Hb) as Hok.
      unfold pins. rewrite elem_of_union, elem_of_list_to_set.
      destruct (decide (i ∈ H.*1)) as [Hi|Hi].
      - destruct (bo_use _ _ _ _ _ _ Hok Hi) as (Hd & _). split; [done|]. right.
        apply list_elem_of_fmap in Hi as ((i' & x) & -> & Hin).
        destruct (ca_held _ _ _ _ Hc _ _ Hin) as (b' & Hb' & <-). simpl in Hb. rewrite Hb in Hb'.
        injection Hb' as <-. apply list_elem_of_fmap. by exists (i', b_blockno b).
      - pose proof (bo_ref _ _ _ _ _ _ Hok) as Hr. rewrite decide_False in Hr by done.
        rewrite Hr in Hno. destruct (bo_flags _ _ _ _ _ _ Hok) as [Hf|[Hf|Hf]]; [by rewrite Hf in Hno..|].
        apply (bo_dirty _ _ _ _ _ _ Hok) in Hf as (? & ?). auto. }
    assert (Hnd : NoDup (b_blockno <$> bufs s)).
    { apply NoDup_alt. intros i j x. rewrite !list_lookup_fmap.
      intros (b & Hb & ->)%fmap_Some (c & Hcc & Hx)%fmap_Some.
      apply (ca_uniq _ _ _ _ Hc i j b c); try done; [by eapply Hp|by eapply Hp]. }
    assert (Hsub : list_to_set (b_blockno <$> bufs s) ⊆ pins D H).
    { intros x Hx. apply elem_of_list_to_set, list_elem_of_fmap in Hx as (b & -> & Hin).
      apply list_elem_of_lookup in Hin as (i & Hi). by apply (Hp i b). }
    apply subseteq_size in Hsub. rewrite size_list_to_set, length_fmap, (ca_len _ _ _ _ Hc) in Hsub by done.
    lia.
Qed.

Lemma release_eq s i b :
  bc_lock s = false -> release bc_lock set_bc_lock (upd i b (set_bc_lock true s)) = Ok (tt, upd i b s).
Proof. intros Hlk. unfold release. cbn. do 2 f_equal. unfold upd. destruct s; cbn in *. by subst. Qed.

Lemma acquire_sleep_eq s i b b0 :
  bufs s !! i = Some b0 -> b_lock b = sl_free ->
  onlock i (acquiresleep (curpid s)) (upd i b s) =
  Ok (tt, upd i (set_b_lock (sl_held (curpid s)) b) s).
Proof.
  intros Hb Hl. rewrite (onlock_eq _ _ _ b tt (sl_held (curpid s))); [by rewrite upd_upd| |].
  - by eapply upd_lookup.
  - by rewrite Hl.
Qed.

Lemma bget_hit s v D H x i b :
  cached s v D H -> x ∉ H.*2 -> bufs s !! i = Some b ->
  b_dev b = 1 -> b_blockno b = x ->
  (i ∉ H.*1) /\ bget 1 x s = Ok (i, upd i (mkbuf (b_flags b) 1 x (sl_held (curpid s)) 1 (b_data b)) s).
Proof.
  intros Hc Hx Hb Hdev Hblk. destruct (ca_ring _ _ _ _ Hc) as (l & Hl).
  pose proof (ca_len _ _ _ _ Hc) as Hlen. pose proof (ca_lock _ _ _ _ Hc) as Hlk.
  assert (Hi : i ∉ H.*1).
  { intros ((i' & y) & -> & Hin)%list_elem_of_fmap. apply Hx.
    destruct (held_lookup _ _ _ _ _ _ Hc Hin) as (b' & Hb' & _ & _ & Hy & _). simpl in Hb.
    apply list_elem_of_fmap. exists (i', y). split; [simpl; congruence|done]. }
  split; [done|]. set (s1 := set_bc_lock true s).
  assert (Hacq : acquire bc_lock set_bc_lock s = Ok (tt, s1)) by (unfold acquire; by rewrite Hlk).
  unfold bget. mgo. mby Hacq. mby (scan_next_eq s1 l (same_block 1 x) Hl Hlen).
  destruct (find _ l) as [j|] eqn:Ef.
  2:{ exfalso. assert (Hil : i ∈ l).
      { apply (ring_lt s l); [done|]. rewrite <- Hlen. by eapply lookup_lt_Some. }
      pose proof (find_sel_none _ _ _ _ _ Ef Hil Hb) as Hf. unfold same_block in Hf.
      rewrite Hdev, Hblk, !Z.eqb_refl in Hf. done. }
  apply find_sel in Ef as (c & Hcc & Ht). unfold same_block in Ht. zbool.
  change (bufs s1) with (bufs s) in Hcc.
  assert (j = i) as -> by (apply (ca_uniq _ _ _ _ Hc j i c b); congruence).
  mby (setb_eq s1 i (fun b => set_b_refcnt (u32 (b_refcnt b + 1)) b) b Hb).
  mby (release_eq s i (set_b_refcnt (u32 (b_refcnt b + 1)) b) Hlk).
  pose proof (ca_buf _ _ _ _ Hc i b Hb) as Hok.
  pose proof (bo_lock _ _ _ _ _ _ Hok) as Hlock. pose proof (bo_ref _ _ _ _ _ _ Hok) as Href.
  rewrite decide_False in Hlock by done. rewrite decide_False in Href by done.
  mby (acquire_sleep_eq s i (set_b_refcnt (u32 (b_refcnt b + 1)) b) b Hb Hlock).
  unfold mret. do 3 f_equal. rewrite Href. destruct b; cbn in *. by subst.
Qed.

Lemma bget_miss s v D H x l :
  cached s v D H -> ring s l ->
  (forall j c, bufs s !! j = Some c -> ~ (b_dev c = 1 /\ b_blockno c = x)) ->
  match find (sel (bufs s) unused) (reverse l) with
  | Some i => exists b, bufs s !! i = Some b /\ (i ∉ H.*1) /\ b_flags b <> 6 /\
      bget 1 x s = Ok (i, upd i (mkbuf 0 1 x (sl_held (curpid s)) 1 (b_data b)) s)
  | None => bget 1 x s = Panic "bget: no buffers"
  end.
Proof.
  intros Hc Hl Hnone.
  pose proof (ca_len _ _ _ _ Hc) as Hlen. pose proof (ca_lock _ _ _ _ Hc) as Hlk.
  set (s1 := set_bc_lock true s).
  assert (Hacq : acquire bc_lock set_bc_lock s = Ok (tt, s1)) by (unfold acquire; by rewrite Hlk).
  unfold bget. mgo. mby Hacq. mby (scan_next_eq s1 l (same_block 1 x) Hl Hlen).
  destruct (find _ l) as [j|] eqn:Ef.
  { exfalso. apply find_sel in Ef as (c & Hcc & Ht). unfold same_block in Ht. zbool.
    by apply (Hnone j c Hcc). }
  pose proof (scan_prev_eq s1 l unused Hl Hlen) as Hscan. change (bufs s1) with (bufs s) in Hscan.
  destruct (find _ (reverse l)) as [i|] eqn:Ep; mby Hscan; [|done].
  destruct (find_sel _ _ _ _ Ep) as (b & Hb & Ht). unfold unused in Ht. zbool.
  pose proof (ca_buf _ _ _ _ Hc i b Hb) as Hok.
  assert (Hi : i ∉ H.*1).
  { intros Hin. pose proof (bo_ref _ _ _ _ _ _ Hok) as Hr. rewrite decide_True in Hr by done. lia. }
  exists b. split_and!; [done|done| |].
  { intros E. rewrite E in *. done. }
  pose proof (bo_lock _ _ _ _ _ _ Hok) as Hlock. rewrite decide_False in Hlock by done.
  mby (setb_eq s1 i (set_b_dev 1) b Hb).
  do 3 (match goal with |- context [mbind (setb i ?f) _ (upd i ?b1 s1)] =>
     mby (setb_eq _ i f _ (upd_lookup s1 i b1 b Hb)) end; rewrite upd_upd).
  match goal with |- context [upd i ?b1 s1] => mby (release_eq s i b1 Hlk);
    mby (acquire_sleep_eq s i b1 b Hb Hlock) end.
  unfold mret. by destruct b.
Qed.

(** [s'] differs from [s] in the cache only. *)
Definition same_disk (s s' : bst) : Prop :=
  disk s' = disk s /\ written s' = written s /\ disksize s' = disksize s /\ curpid s' = curpid s.

Lemma same_disk_trans a b c : same_disk a b -> same_disk b c -> same_disk a c.
Proof.
  intros (A1 & A2 & A3 & A4) (B1 & B2 & B3 & B4).
  split_and!; (etransitivity; [eassumption|eassumption]).
Qed.

Lemma ring_upd s i b l : ring (upd i b s) l <-> ring s l.
Proof. done. Qed.

(** The view after the buffer [i] of a block that was not in use is locked. *)
Lemma cached_take s v D H i x b0 :
  cached s v D H -> x ∉ H.*2 -> i ∉ H.*1 -> bufs s !! i = Some b0 ->
  (b_dev b0 = 1 /\ b_blockno b0 = x) \/
  (b_flags b0 <> 6 /\ forall j c, bufs s !! j = Some c -> ~ (b_dev c = 1 /\ b_blockno c = x)) ->
  cached (upd i (mkbuf (if decide (x ∈ D) then 6 else 2) 1 x (sl_held (curpid s)) 1 (v x)) s)
         v D ((i, x) :: H).
Proof.
  intros Hc Hx Hi Hb Hor. pose proof (ca_buf _ _ _ _ Hc i b0 Hb) as Hok.
  eapply (cached_upd s v D H _ _ _ _ i x b0); try done.
  - apply Hc.
  - apply Hc.
  - intros j c Hne Hj Hd E. destruct Hor as [(Hd0 & Hb0)|(_ & Hno)].
    + apply Hne. apply (ca_uniq _ _ _ _ Hc j i c b0); congruence.
    + by apply (Hno j c Hj).
  - intros Hd0. destruct Hor as [(_ & ?)|(Hf & _)]; [by left|right].
    intros HD. apply Hf, (bo_dirty _ _ _ _ _ _ Hok). done.
  - split; cbn.
    + by rewrite decide_True by left.
    + by rewrite decide_True by left.
    + intros _. split; [done|]. by destruct (decide _).
    + destruct (decide (x ∈ D)); split; try done. by intros (_ & ?).
    + destruct (decide _); auto.
    + done.
  - intros j Hj. simpl. rewrite list.elem_of_cons. split; [|by right]. by intros [->|?].
  - intros j y [[= -> ->]|Hin]%list.elem_of_cons; [by right|]. left. split; [|done].
    intros ->. apply Hi, list_elem_of_fmap. by exists (i, y).
  - simpl. apply NoDup_cons. split; [done|]. apply Hc.
  - apply Hc.
Qed.

Lemma bread_fill s v D H x i b0 d :
  cached s v D H -> on_disk s x -> bufs s !! i = Some b0 -> x ∉ D ->
  bget 1 x s = Ok (i, upd i (mkbuf 0 1 x (sl_held (curpid s)) 1 d) s) ->
  bread 1 x s = Ok (i, upd i (mkbuf 2 1 x (sl_held (curpid s)) 1 (v x)) s).
Proof.
  intros Hc Hon Hb HD Hg. unfold bread. mby Hg.
  pose proof (upd_lookup s i (mkbuf 0 1 x (sl_held (curpid s)) 1 d) b0 Hb) as Hb1.
  mby (getb_eq _ i _ Hb1). cbn [mwhen b_flags].
  mby (iderw_read _ i _ Hb1 eq_refl eq_refl eq_refl Hon).
  rewrite upd_upd. unfold mret, set_b_flags, set_b_data. cbn. by rewrite (ca_disk _ _ _ _ Hc).
Qed.

(** A block that is cached is not read again. *)
Lemma bread_hit s v D H x i b :
  cached s v D H -> x ∉ H.*2 -> on_disk s x -> bufs s !! i = Some b -> b_dev b = 1 -> b_blockno b = x ->
  exists s', bread 1 x s = Ok (i, s') /\ (i ∉ H.*1) /\ cached s' v D ((i, x) :: H) /\ same_disk s s' /\
    forall l, ring s l -> ring s' l.
Proof.
  intros Hc Hx Hon Hb Hd Hblk. destruct (bget_hit _ _ _ _ _ _ _ Hc Hx Hb Hd Hblk) as (Hi & Hg).
  pose proof (cached_take _ _ _ _ i x b Hc Hx Hi Hb (or_introl (conj Hd Hblk))) as Htake.
  eexists _. split; [|split; [done|split; [exact Htake|done]]].
  pose proof (ca_buf _ _ _ _ Hc i b Hb) as Hok.
  destruct (decide (b_flags b = 0)) as [Hz|Hnz].
  - assert (HD : x ∉ D).
    { intros HD. assert (H6 : b_flags b = 6) by (apply (bo_dirty _ _ _ _ _ _ Hok); subst; done). lia. }
    rewrite decide_False by done. eapply bread_fill; [done..|]. rewrite Hg, Hz. done.
  - destruct (bo_data _ _ _ _ _ _ Hok Hnz) as (_ & Hdata). rewrite Hblk in Hdata.
    assert (Hf : b_flags b = if decide (x ∈ D) then 6 else 2).
    { destruct (decide (x ∈ D)); [apply (bo_dirty _ _ _ _ _ _ Hok); subst; done|].
      destruct (bo_flags _ _ _ _ _ _ Hok) as [?|[?|H6]]; [done|done|].
      apply (bo_dirty _ _ _ _ _ _ Hok) in H6 as (_ & ?). by subst. }
    unfold bread. mby Hg.
    mby (getb_eq _ i _ (upd_lookup s i (mkbuf (b_flags b) 1 x (sl_held (curpid s)) 1 (b_data b)) b Hb)).
    cbn [b_flags]. rewrite Hf, Hdata. by destruct (decide (x ∈ D)).
Qed.

(** A block that is not replaces the least recently used buffer that can be recycled. *)
Lemma bread_miss s v D H x l :
  cached s v D H -> ring s l -> x ∉ H.*2 -> on_disk s x ->
  (forall j c, bufs s !! j = Some c -> ~ (b_dev c = 1 /\ b_blockno c = x)) ->
  match find (sel (bufs s) unused) (reverse l) with
  | Some i => exists s', bread 1 x s = Ok (i, s') /\ (i ∉ H.*1) /\ cached s' v D ((i, x) :: H) /\ same_disk s s' /\ ring s' l
  | None => bread 1 x s = Panic "bget: no buffers"
  end.
Proof.
  intros Hc Hl Hx Hon Hno.
  assert (HD : x ∉ D) by (intros (i & b & Hb & ?)%(ca_dirty _ _ _ _ Hc); by apply (Hno i b)).
  pose proof (bget_miss s v D H x l Hc Hl Hno) as Hg. destruct (find _ _) as [i|]; [|unfold bread, mbind; by rewrite Hg].
  destruct Hg as (b & Hb & Hi & Hf & Hg).
  pose proof (cached_take _ _ _ _ i x b Hc Hx Hi Hb (or_intror (conj Hf Hno))) as Htake.
  rewrite decide_False in Htake by done.
  eexists. split; [by eapply bread_fill|]. split; [done|]. split; [exact Htake|done].
Qed.

Lemma victim_found s v D H l :
  cached s v D H -> ring s l -> (size (pins D H) < HEAD)%nat -> exists i, find (sel (bufs s) unused) (reverse l) = Some i.
Proof.
  intros Hc Hl Hroom. destruct (find _ _) as [i|] eqn:Ep; [by exists i|]. exfalso.
  destruct (recyclable _ _ _ _ Hc Hroom) as (i & b & Hb & Ht).
  rewrite (find_sel_none _ _ _ i b Ep) in Ht; [done| |done].
  apply elem_of_reverse, (ring_lt s l); [done|]. rewrite <- (ca_len _ _ _ _ Hc). by eapply lookup_lt_Some.
Qed.

Lemma bread_spec s v D H x :
  cached s v D H -> x ∉ H.*2 -> on_disk s x -> (size (pins D H) < HEAD)%nat \/ x ∈ D ->
  exists i s', bread 1 x s = Ok (i, s') /\ (i ∉ H.*1) /\ cached s' v D ((i, x) :: H) /\ same_disk s s'.
Proof.
  intros Hc Hx Hon Hroom.
  destruct (decide (Exists (fun b => b_dev b = 1 /\ b_blockno b = x) (bufs s))) as [Hex|Hno].
  - apply Exists_exists in Hex as (b & (i & Hb)%list_elem_of_lookup & Hd & Hblk).
    exists i. destruct (bread_hit s v D H x i b) as (s' & ? & ? & ? & ? & _); try done. by exists s'.
  - rewrite <- Forall_Exists_neg, Forall_lookup in Hno. destruct (ca_ring _ _ _ _ Hc) as (l & Hl).
    assert (Hroom' : (size (pins D H) < HEAD)%nat).
    { destruct Hroom as [?|HD]; [done|]. exfalso.
      destruct (ca_dirty _ _ _ _ Hc x HD) as (i & b & Hb & Hd). by apply (Hno i b). }
    pose proof (bread_miss s v D H x l Hc Hl Hx Hon Hno) as Hr. destruct (victim_found _ _ _ _ _ Hc Hl Hroom') as [i Ei].
    rewrite Ei in Hr. destruct Hr as (s' & ? & ? & ? & ? & _).
    by exists i, s'.
Qed.

(** ** Using, writing and releasing a buffer *)

Lemma held_in s v D H i x : cached s v D ((i, x) :: H) -> (i ∉ H.*1) /\ x ∉ H.*2.
Proof.
  intros Hc. pose proof (ca_nodup _ _ _ _ Hc) as Hnd. simpl in Hnd. apply NoDup_cons in Hnd as (Hi & Hnd).
  split; [done|]. intros ((j & y) & -> & Hin)%list_elem_of_fmap.
  destruct (held_lookup _ _ _ _ i y Hc) as (b & Hb & _ & Hd & Hblk & _); [left|].
  destruct (held_lookup _ _ _ _ j y Hc) as (c & Hcc & _ & Hdc & Hblkc & _); [by right|].
  assert (i = j) as -> by (apply (ca_uniq _ _ _ _ Hc i j b c); congruence).
  apply Hi, list_elem_of_fmap. by exists (j, y).
Qed.

Lemma cached_perm s v D H H' : H ≡ₚ H' -> cached s v D H -> cached s v D H'.
Proof.
  intros Hp Hc. assert (Hp1 : H.*1 ≡ₚ H'.*1) by (by rewrite Hp).
  destruct Hc as [Hlk Hlen Hring Hbuf Huniq Hdirty Hheld Hnd Hdisk]. split; try done.
  - intros i b Hb. eapply buf_ok_other; [by apply Hbuf|done| |done|done]. by rewrite Hp1.
  - intros i x. rewrite <- Hp. apply Hheld.
  - by rewrite <- Hp1.
Qed.

(** Only the contents matter. *)
Lemma cached_ext s v v' D H : (forall x, v x = v' x) -> cached s v D H -> cached s v' D H.
Proof.
  intros Hv Hc. destruct Hc as [Hlk Hlen Hring Hbuf Huniq Hdirty Hheld Hnd Hdisk]. split; try done.
  - intros i b Hb. eapply buf_ok_other; [by apply Hbuf|done|done| |done]. intros _. by rewrite Hv.
  - intros x Hx. rewrite <- Hv. auto.
Qed.

Lemma bdata_eq s v D H i x : cached s v D H -> (i, x) ∈ H -> bdata i s = Ok (v x, s).
Proof.
  intros Hc Hin. destruct (held_lookup _ _ _ _ _ _ Hc Hin) as (b & Hb & _ & _ & _ & _ & _ & <- & _).
  unfold bdata. by mby (getb_eq s i b Hb).
Qed.

(** A buffer in use takes the contents [d], with the flags [f]: the block is
    dirty, or its new contents are on the disk as well. *)
Lemma cached_put s v D H i x b d dirty s' :
  cached s v D H -> (i, x) ∈ H -> bufs s !! i = Some b ->
  bufs s' = <[i := set_b_flags (if dirty : bool then 6 else 2) (set_b_data d b)]> (bufs s) ->
  bc_lock s' = false -> curpid s' = curpid s -> bnext s' = bnext s -> bprev s' = bprev s ->
  (forall y, y <> x -> disk s' y = disk s y) -> (dirty = false -> disk s' x = d) ->
  cached s' (<[x:=d]> v) (if dirty then {[x]} ∪ D else D ∖ {[x]}) H.
Proof.
  intros Hc Hin Hb Hbs Hlk Hpid Hnx Hpv Hdisk Hx.
  destruct (held_lookup _ _ _ _ _ _ Hc Hin) as (b' & Hb' & Hok & Hd & Hblk & Hl & Hr & _).
  rewrite Hb in Hb'. injection Hb' as <-.
  assert (Hi : i ∈ H.*1) by (apply list_elem_of_fmap; by exists (i, x)).
  assert (HD : forall y, y <> x -> y ∈ (if dirty then {[x]} ∪ D else D ∖ {[x]}) <-> y ∈ D).
  { intros y Hy. destruct dirty; rewrite ?elem_of_union, ?elem_of_difference, elem_of_singleton; tauto. }
  eapply (cached_upd s v D H _ _ _ _ i x b); try done.
  - destruct (ca_ring _ _ _ _ Hc) as (l & Hl' & Hch). exists l. split; [done|]. by rewrite Hnx, Hpv.
  - intros j c Hne Hj Hdc E. apply Hne. apply (ca_uniq _ _ _ _ Hc j i c b); congruence.
  - intros _. by left.
  - split; cbn.
    + rewrite decide_True by done. congruence.
    + by rewrite decide_True.
    + intros _. split; [done|]. by destruct dirty.
    + rewrite Hd, Hblk. destruct dirty.
      * rewrite elem_of_union, elem_of_singleton. tauto.
      * rewrite elem_of_difference, elem_of_singleton. split; [done|tauto].
    + destruct dirty; auto.
    + intros _. by rewrite Hblk, fn_lookup_insert.
  - intros y Hy. by rewrite fn_lookup_insert_ne by done.
  - intros j y Hj. destruct (decide (j = i)) as [->|]; [right|by left]. split; [done|].
    destruct (held_lookup _ _ _ _ _ _ Hc Hj) as (c & Hcc & _ & _ & Hy & _). congruence.
  - apply Hc.
  - intros y Hy. destruct (decide (y = x)) as [->|Hyx].
    + rewrite fn_lookup_insert. apply Hx. destruct dirty; [|done]. exfalso. apply Hy. apply elem_of_union_l, elem_of_singleton. done.
    + rewrite fn_lookup_insert_ne by done. rewrite Hdisk by done. apply (ca_disk _ _ _ _ Hc). by rewrite <- HD.
Qed.

Lemma bwrite_spec s v D H i x f :
  cached s v D H -> (i, x) ∈ H -> on_disk s x ->
  exists s1 s2, bput i f s = Ok (tt, s1) /\ bwrite i s1 = Ok (tt, s2) /\
    cached s2 (<[x := f (v x)]> v) (D ∖ {[x]}) H /\
    disk s2 = <[x := f (v x)]> (disk s) /\ written s2 = written s ++ [(x, f (v x))] /\
    disksize s2 = disksize s /\ curpid s2 = curpid s.
Proof.
  intros Hc Hin Hon.
  destruct (held_lookup _ _ _ _ _ _ Hc Hin) as (b & Hb & Hok & Hd & Hblk & Hl & Hr & Hv & Hf).
  eexists _, _. split; [apply (setb_eq s i _ b Hb)|].
  set (b1 := set_b_data (f (b_data b)) b).
  set (b2 := set_b_flags (Z.lor (b_flags b1) B_DIRTY) b1).
  pose proof (upd_lookup s i b1 b Hb) as Hb1.
  split.
  { unfold bwrite. mgo. mby (holding_eq _ i b1 Hb1 Hl). cbn [negb].
    mby (setb_eq _ i (fun b => set_b_flags (Z.lor (b_flags b) B_DIRTY) b) b1 Hb1). fold b2. rewrite upd_upd.
    apply (iderw_write _ i b2 (upd_lookup s i b2 b Hb)); [done| |done|].
    - left. unfold b2, b1. cbn. rewrite Hf. by destruct (decide _).
    - cbn. by rewrite Hblk. }
  cbn. rewrite Hblk, Hv. split_and!; try done.
  apply (cached_put s v D H i x b (f (v x)) false _ Hc Hin Hb); try done.
  - cbn. rewrite list_insert_insert_eq. unfold b2, b1, set_b_flags, set_b_data. cbn. by rewrite ?Hv.
  - apply Hc.
  - intros y Hy. cbn. by rewrite fn_lookup_insert_ne by done.
  - intros _. cbn. by rewrite fn_lookup_insert.
Qed.

Lemma releasing_eq s i b :
  bufs s !! i = Some b -> b_lock b = sl_held (curpid s) ->
  onlock i releasesleep s = Ok (tt, upd i (set_b_lock sl_free b) s).
Proof. intros Hb Hl. apply onlock_eq; [done|]. rewrite Hl. apply releasesleep_held. Qed.

(** The ring with buffer [i] moved to the front. *)
Lemma ring_front s i l :
  ring s l -> (i < HEAD)%nat ->
  let p := bprev s i in let n := bnext s i in
  let pv := <[n := p]> (bprev s) in let nx := <[p := n]> (bnext s) in
  (<[n := p]> (bprev s) i = p) /\ bnext s i = n /\
  exists l1 l2, l = l1 ++ i :: l2 /\
    chain (<[HEAD := i]> (<[i := nx HEAD]> nx)) (<[nx HEAD := i]> (<[i := HEAD]> pv))
      (HEAD :: i :: (l1 ++ l2) ++ [HEAD]).
Proof.
  intros Hr Hi. pose proof Hr as (Hp & Hch).
  assert (Hnd : NoDup (HEAD :: l)).
  { apply NoDup_cons. split; [intros H; apply (ring_lt s l) in H; [lia|done]|]. rewrite Hp. apply NoDup_seq. }
  assert (Hil : i ∈ l) by (by apply (ring_lt s l)).
  apply list_elem_of_split in Hil as (l1 & l2 & ->). rewrite <- app_assoc in Hch. cbn zeta.
  assert (Hne : bnext s i <> i).
  { change (HEAD :: l1 ++ ?r) with ((HEAD :: l1) ++ r) in Hch. apply chain_app in Hch as (_ & Hch).
    apply NoDup_cons in Hnd as (Hh & Hnd). apply NoDup_app in Hnd as (_ & _ & Hnd). apply NoDup_cons in Hnd as (Hi2 & _).
    destruct l2 as [|c l2]; simpl in Hch; destruct Hch as (-> & _).
    - intros E. apply Hh. rewrite E. apply elem_of_app. right. left.
    - intros ->. apply Hi2. left. }
  split; [by rewrite fn_lookup_insert_ne|]. split; [done|]. exists l1, l2. split; [done|].
  pose proof (chain_unlink _ _ _ _ _ _ Hnd Hch) as Hu. rewrite app_assoc in Hu.
  pose proof Hnd as Hnd'. rewrite <- Permutation_middle in Hnd'.
  apply chain_link; [| |done].
  - apply NoDup_cons in Hnd' as (Hh & Hnd'). apply NoDup_cons in Hnd' as (_ & Hnd').
    apply NoDup_cons. split; [|done]. intros H. apply Hh. by right.
  - apply NoDup_cons in Hnd' as (Hh & Hnd'). apply NoDup_cons in Hnd' as (Hi2 & _).
    apply not_elem_of_cons. split; [lia|done].
Qed.

(** Releasing the last use of a buffer makes it the most recently used. *)
Lemma brelse_spec s v D H i x :
  cached s v D ((i, x) :: H) ->
  exists s', brelse i s = Ok (tt, s') /\ cached s' v D H /\ same_disk s s' /\
    forall l, ring s l -> exists l1 l2, l = l1 ++ i :: l2 /\ ring s' (i :: l1 ++ l2).
Proof.
  intros Hc. destruct (held_in _ _ _ _ _ _ Hc) as (Hi & Hx).
  destruct (held_lookup _ _ _ _ i x Hc) as (b & Hb & Hok & Hd & Hblk & Hl & Hr & Hv & Hf); [left|].
  assert (Hlt : (i < HEAD)%nat) by (rewrite <- (ca_len _ _ _ _ Hc); by eapply lookup_lt_Some).
  pose proof (ca_lock _ _ _ _ Hc) as Hlk. destruct (ca_ring _ _ _ _ Hc) as (l0 & Hl0).
  destruct (ring_front s i l0 Hl0 Hlt) as (Hpi & _).
  set (b2 := set_b_refcnt (u32 (b_refcnt (set_b_lock sl_free b) - 1)) (set_b_lock sl_free b)).
  set (nx := <[bprev s i := bnext s i]> (bnext s)). set (pv := <[bnext s i := bprev s i]> (bprev s)).
  set (s' := set_bnext (<[HEAD := i]> (<[i := nx HEAD]> nx))
               (set_bprev (<[nx HEAD := i]> (<[i := HEAD]> pv)) (upd i b2 s))).
  assert (Hrun : brelse i s = Ok (tt, s')).
  { unfold brelse. mgo. mby (holding_eq s i b Hb Hl). cbn [negb]. mby (releasing_eq s i b Hb Hl).
    set (s1 := set_bc_lock true (upd i (set_b_lock sl_free b) s)).
    assert (Hacq : acquire bc_lock set_bc_lock (upd i (set_b_lock sl_free b) s) = Ok (tt, s1))
      by (unfold acquire; cbn; by rewrite Hlk).
    mby Hacq. pose proof (upd_lookup s i (set_b_lock sl_free b) b Hb) as Hb1.
    mby (setb_eq s1 i (fun b => set_b_refcnt (u32 (b_refcnt b - 1)) b) (set_b_lock sl_free b) Hb1). fold b2.
    mby (getb_eq (upd i b2 s1) i b2 (upd_lookup s1 i b2 _ Hb1)).
    assert (Hz : (b_refcnt b2 =? 0) = true) by (unfold b2; cbn; by rewrite Hr). rewrite Hz. unfold mwhen, setprev, setnext, link_first. mgo.
    unfold release. cbn. rewrite Hpi. fold nx. rewrite (fn_lookup_insert_ne nx i HEAD) by lia.
    do 2 f_equal. apply bst_eq; cbn; try reflexivity; [by rewrite Hlk|apply list_insert_insert_eq]. }
  assert (Hring : forall l, ring s l -> exists l1 l2, l = l1 ++ i :: l2 /\ ring s' (i :: l1 ++ l2)).
  { intros l Hl1. destruct (ring_front s i l Hl1 Hlt) as (_ & _ & l1 & l2 & -> & Hch).
    exists l1, l2. split; [done|]. split; [|exact Hch]. destruct Hl1 as (<- & _). by rewrite Permutation_middle. }
  exists s'. split; [done|]. split; [|split; [done|exact Hring]].
  eapply (cached_upd s v D ((i, x) :: H) s' v D H i x b); try done.
  - destruct Hring with l0 as (l1 & l2 & _ & ?); [done|]. eauto.
  - intros j c Hne Hj Hdc E. apply Hne. apply (ca_uniq _ _ _ _ Hc j i c b); congruence.
  - intros _. by left.
  - destruct Hok as [_ _ _ Hdi Hfl Hda]. split; cbn; try done.
    + by rewrite decide_False.
    + rewrite decide_False by done. by rewrite Hr.
  - intros j Hj. simpl. rewrite list.elem_of_cons. split; [by right|]. by intros [->|?].
  - intros j y Hin. left. split; [|by right]. intros ->. apply Hi, list_elem_of_fmap. by exists (i, y).
  - pose proof (ca_nodup _ _ _ _ Hc) as Hnd. by apply NoDup_cons in Hnd as (_ & ?).
  - apply Hc.
Qed.

(** ** Start-up *)

(** The statically allocated cache over a disk of [n] blocks. *)
Definition zero_buf : buf := mkbuf 0 0 0 sl_free 0 (fun _ => 0).
Definition cold (d : Z -> mem) (n pid : Z) : bst :=
  mkbst false (replicate HEAD zero_buf) (fun _ => O) (fun _ => O) d n [] pid.

Lemma link_first_chain s b l :
  NoDup (HEAD :: l) -> b ∉ HEAD :: l -> chain (bnext s) (bprev s) (HEAD :: l ++ [HEAD]) ->
  exists s', link_first b s = Ok (tt, s') /\ chain (bnext s') (bprev s') (HEAD :: (b :: l) ++ [HEAD]) /\
    bufs s' = bufs s /\ bc_lock s' = bc_lock s /\ same_disk s s'.
Proof.
  intros Hnd Hb Hch. eexists. split; [reflexivity|]. cbn [bufs bc_lock].
  pose proof Hb as (Hne & _)%not_elem_of_cons. split; [|done].
  cbn. rewrite (fn_lookup_insert_ne _ b HEAD) by done. by apply chain_link.
Qed.

Lemma binit_spec d n pid :
  exists s, binit (cold d n pid) = Ok (tt, s) /\ cached s d ∅ [] /\ same_disk (cold d n pid) s /\
    bufs s = replicate HEAD zero_buf.
Proof.
  unfold binit, setprev, setnext. mgo.
  set (s0 := set_bnext _ _).
  destruct (for_inv (fun j s => chain (bnext s) (bprev s) (HEAD :: reverse (seq 0 (Z.to_nat j)) ++ [HEAD]) /\
      bufs s = replicate HEAD zero_buf /\ bc_lock s = false /\ same_disk (cold d n pid) s)
    (fun i => onlock (Z.to_nat i) initsleeplock ;;! link_first (Z.to_nat i)) HEAD 0 s0) as (s & Hs & Hch & Hbs & Hlk & Hsame).
  - split_and!; done.
  - intros j t Hj (Hch & Hbs & Hlk & Hsame).
    assert (Hlook : bufs t !! Z.to_nat j = Some zero_buf)
      by (rewrite Hbs, lookup_replicate; split; [done|lia]).
    rewrite (mbind_ok _ _ _ _ _ (onlock_eq t _ initsleeplock zero_buf tt sl_free Hlook eq_refl)).
    rewrite upd_id by done.
    destruct (link_first_chain t (Z.to_nat j) (reverse (seq 0 (Z.to_nat j)))) as (t' & -> & Hch' & Hbs' & Hlk' & Hsame').
    + rewrite reverse_Permutation. apply NoDup_cons. rewrite elem_of_seq. split; [lia|apply NoDup_seq].
    + apply not_elem_of_cons. rewrite elem_of_reverse, elem_of_seq. lia.
    + done.
    + exists t'. split; [done|]. replace (Z.to_nat (j + 1)) with (S (Z.to_nat j)) by lia.
      rewrite seq_S, reverse_snoc. split_and!; [done|by rewrite Hbs'|by rewrite Hlk'|].
      by apply (same_disk_trans _ t).
  - exists s. split; [done|]. split; [|split; [exact Hsame|exact Hbs]]. clear Hs. rewrite Z.add_0_l, Nat2Z.id in Hch.
    assert (Hb : forall i b, bufs s !! i = Some b -> b = zero_buf)
      by (intros i b; rewrite Hbs; by intros (-> & _)%lookup_replicate).
    split.
    + exact Hlk.
    + by rewrite Hbs, length_replicate.
    + exists (reverse (seq 0 HEAD)). split; [by rewrite reverse_Permutation|exact Hch].
    + intros i b ->%Hb. split; cbn.
      * rewrite decide_False; [reflexivity|]. apply not_elem_of_nil.
      * rewrite decide_False; [reflexivity|]. apply not_elem_of_nil.
      * by intros ?%elem_of_nil.
      * split; [discriminate|]. by intros (? & _).
      * auto.
      * by intros ?.
    + intros i j b c ->%Hb _ E. discriminate E.
    + intros x Hx. by apply not_elem_of_empty in Hx.
    + intros i x Hin. by apply elem_of_nil in Hin.
    + apply NoDup_nil_2.
    + intros x _. by destruct Hsame as (-> & _).
Qed.

(** ** The least recently used buffer is recycled *)

(** [bread] of block [x] returns buffer [i] of the ring [l] with the block's
    contents, and releasing that buffer makes it the most recently used one. *)
Definition served (s : bst) v D H x l i : Prop :=
  exists l1 l2 s' s'', l = l1 ++ i :: l2 /\
    bread 1 x s = Ok (i, s') /\ cached s' v D ((i, x) :: H) /\ bdata i s' = Ok (v x, s') /\
    brelse i s' = Ok (tt, s'') /\ cached s'' v D H /\ ring s'' (i :: l1 ++ l2) /\ same_disk s s''.

Lemma bread_served s v D H x l i s' :
  ring s' l -> bread 1 x s = Ok (i, s') -> cached s' v D ((i, x) :: H) -> same_disk s s' -> served s v D H x l i.
Proof.
  intros Hl' Hrun Hc' Hsame. destruct (brelse_spec _ _ _ _ _ _ Hc') as (s'' & Hrel & Hc'' & Hsame' & Hring).
  destruct (Hring l Hl') as (l1 & l2 & -> & Hl''). exists l1, l2, s', s''. split_and!; try done.
  - eapply bdata_eq; [done|left].
  - by apply (same_disk_trans _ s').
Qed.

(** C29: [bread] of a block of the disk that the process does not hold, for any
    state of the buffer cache.  If the block is in the cache, its buffer is
    returned.  If not, it is read into the least recently used buffer that is
    neither in use nor dirty (every buffer used less recently is); when there is
    none, and only then, [bread] panics.  The buffer has the block's contents and becomes
    the most recently used one when it is released; no other block's contents
    change, and nothing is written to the disk. *)
Theorem bcache_lru s v D H x l :
  cached s v D H -> ring s l -> x ∉ H.*2 -> on_disk s x ->
  let hit i := sel (bufs s) (same_block 1 x) i = true in
  let free i := sel (bufs s) unused i = true in
  (forall i, hit i -> served s v D H x l i) /\
  ((forall i, ~ hit i) ->
     (forall l1 i l2, l = l1 ++ i :: l2 -> free i -> (forall j, j ∈ l2 -> ~ free j) -> served s v D H x l i) /\
     ((forall i, ~ free i) -> bread 1 x s = Panic "bget: no buffers")).
Proof.
  intros Hc Hl Hx Hon hit free. split; [|intros Hnone].
  - intros i Hi. unfold hit, sel in Hi. destruct (bufs s !! i) as [b|] eqn:Hb; [|done]. unfold same_block in Hi. zbool.
    destruct (bread_hit s v D H x i b) as (s' & Hrun & _ & Hc' & Hsame & Hring); try done. by apply (bread_served _ _ _ _ _ _ _ s'); [apply Hring|..].
  - assert (Hno : forall j c, bufs s !! j = Some c -> ~ (b_dev c = 1 /\ b_blockno c = x)).
    { intros j c Hj [E1 E2]. apply (Hnone j). unfold hit, sel, same_block. by rewrite Hj, E1, E2, !Z.eqb_refl. }
    pose proof (bread_miss s v D H x l Hc Hl Hx Hon Hno) as Hr. split.
    + intros l1 i l2 -> Hi Hl2. rewrite find_last in Hr; [|done|intros j Hj; by apply not_true_is_false, Hl2].
      destruct Hr as (s' & Hrun & _ & Hc' & Hsame & Hl'). by apply (bread_served _ _ _ _ _ _ _ s').
    + intros Hfull. destruct (find _ _) as [i|] eqn:E; [|done]. apply find_some in E as [_ E]. by destruct (Hfull i).
Qed.

(** Block 2 read after start-up, when no buffer is in use. *)
Lemma bcache_lru_witness :
  exists s l i, cached s (fun _ _ => 7) ∅ [] /\ ring s (l ++ [i]) /\
    exists s' s'', bread 1 2 s = Ok (i, s') /\ bdata i s' = Ok (fun _ => 7, s') /\ brelse i s' = Ok (tt, s'') /\ ring s'' (i :: l).
Proof.
  destruct (binit_spec (fun _ _ => 7) 100 1) as (s & _ & Hc & Hsame & Hbs).
  destruct (ca_ring _ _ _ _ Hc) as (l0 & Hl). pose proof Hl as (Hp & _).
  destruct l0 as [|i l _] using rev_ind; [apply Permutation_length in Hp; discriminate Hp|].
  exists s, l, i. split; [exact Hc|]. split; [exact Hl|].
  assert (Hi : bufs s !! i = Some zero_buf).
  { rewrite Hbs. apply lookup_replicate_2. assert (Hin : i ∈ l ++ [i]) by (apply elem_of_app; right; left).
    rewrite Hp in Hin. apply elem_of_seq in Hin. lia. }
  destruct (bcache_lru s (fun _ _ => 7) ∅ [] 2 (l ++ [i]) Hc Hl) as (_ & Hmiss).
  - apply not_elem_of_nil.
  - destruct Hsame as (_ & _ & Hsz & _). unfold on_disk. rewrite Hsz. split; reflexivity || discriminate.
  - destruct Hmiss as [Hm _].
    { intros j. unfold sel. destruct (bufs s !! j) as [c|] eqn:Hj; [|discriminate].
      rewrite Hbs in Hj. apply lookup_replicate in Hj as (-> & _). discriminate. }
    destruct (Hm l i [] eq_refl) as (l1 & l2 & s' & s'' & Hs & H1 & _ & H2 & H3 & _ & H4 & _).
    + unfold sel. rewrite Hi. reflexivity.
    + intros j Hj. by apply elem_of_nil in Hj.
    + exists s', s''. split; [exact H1|]. split; [exact H2|]. split; [exact H3|].
      destruct l2 as [|k l2 _] using rev_ind.
      * rewrite app_nil_r in H4. apply app_inj_tail in Hs as [-> _]. exact H4.
      * exfalso. rewrite app_comm_cons, app_assoc in Hs. apply app_inj_tail in Hs as [Hs <-].
        assert (Hnd : NoDup (l ++ [i])) by (rewrite Hp; apply NoDup_seq). rewrite Hs in Hnd.
        apply NoDup_app in Hnd as (_ & Hd & _). apply (Hd i); [apply elem_of_app; right; left|left].
Defined.
