(* ===== verification/Log.v ===== *)
(** * The log: [log.c]

    The transaction log over the buffer cache, and recovery.  The disk records
    the history of its block writes, so that the states a crash can leave are the
    prefixes of that history; a block write is atomic (one 512-byte sector).
    The theorems show that a commit is atomic across crashes, also across crashes
    during recovery. *)

From Stdlib Require Import ZArith Lia String.
From stdpp Require Import base numbers gmap fin_maps sets functions list.
From S2P Require Import Prelude Bytes Params Locks Bio.

Local Open Scope Z_scope.
Local Open Scope kernel_scope.

(** ** Data *)

(** [struct superblock] of fs.h, and its layout in block 1. *)
Record superblock := mksb {
  sb_size : Z;
  sb_nblocks : Z;
  sb_ninodes : Z;
  sb_nlog : Z;
  sb_logstart : Z;
  sb_inodestart : Z;
  sb_bmapstart : Z
}.

Definition sb_of (m : mem) : superblock :=
  mksb (get32 m 0) (get32 m 4) (get32 m 8) (get32 m 12) (get32 m 16) (get32 m 20) (get32 m 24).

(** [struct log], with the in-memory header [lh]. *)
Record log := mklog {
  lg_lock : bool;
  lg_start : Z;
  lg_size : Z;
  lg_outstanding : Z;
  lg_committing : Z;
  lg_dev : Z;
  lh_n : Z;
  lh_block : list Z
}.

Definition set_lg_lock (v : bool) (s : log) : log :=
  mklog v (lg_start s) (lg_size s) (lg_outstanding s) (lg_committing s) (lg_dev s) (lh_n s)
    (lh_block s).
Definition set_lg_start (v : Z) (s : log) : log :=
  mklog (lg_lock s) v (lg_size s) (lg_outstanding s) (lg_committing s) (lg_dev s) (lh_n s)
    (lh_block s).
Definition set_lg_size (v : Z) (s : log) : log :=
  mklog (lg_lock s) (lg_start s) v (lg_outstanding s) (lg_committing s) (lg_dev s) (lh_n s)
    (lh_block s).
Definition set_lg_outstanding (v : Z) (s : log) : log :=
  mklog (lg_lock s) (lg_start s) (lg_size s) v (lg_committing s) (lg_dev s) (lh_n s) (lh_block s).
Definition set_lg_committing (v : Z) (s : log) : log :=
  mklog (lg_lock s) (lg_start s) (lg_size s) (lg_outstanding s) v (lg_dev s) (lh_n s) (lh_block s).
Definition set_lg_dev (v : Z) (s : log) : log :=
  mklog (lg_lock s) (lg_start s) (lg_size s) (lg_outstanding s) (lg_committing s) v (lh_n s)
    (lh_block s).
Definition set_lh_n (v : Z) (s : log) : log :=
  mklog (lg_lock s) (lg_start s) (lg_size s) (lg_outstanding s) (lg_committing s) (lg_dev s) v
    (lh_block s).
Definition set_lh_block (v : list Z) (s : log) : log :=
  mklog (lg_lock s) (lg_start s) (lg_size s) (lg_outstanding s) (lg_committing s) (lg_dev s)
    (lh_n s) v.

(** The log and the buffer cache below it. *)
Record lst := mklst {
  lg : log;
  lbio : bst
}.

Definition set_lg (v : log) (s : lst) : lst :=
  mklst v (lbio s).
Definition set_lbio (v : bst) (s : lst) : lst :=
  mklst (lg s) v.

(** ** Operations *)

(** An operation of the buffer cache. *)
Definition bop {A} (m : M bst A) : M lst A :=
  fun s => obind (m (lbio s)) (fun '(a, b) => Ok (a, set_lbio b s)).

Definition onlg (f : log -> log) : M lst unit := mset (fun s => set_lg (f (lg s)) s).

(** [log.lh.block[i]]. *)
Definition lh_at (i : Z) : M lst Z :=
  fun s => match lh_block (lg s) !! Z.to_nat i with
           | Some x => if 0 <=? i then Ok (x, s) else Undef
           | None => Undef
           end.

(** [readsb] of fs.c. *)
Definition readsb (dev : Z) : M bst superblock :=
  let! bp := bread dev 1 in
  let! d := bdata bp in
  brelse bp ;;!
  mret (sb_of d).

Definition install_body (g : log) (tail : Z) : M lst unit :=
  let! lbuf := bop (bread (u32 (lg_dev g)) (u32 (lg_start g + tail + 1))) in
  let! x := lh_at tail in
  let! dbuf := bop (bread (u32 (lg_dev g)) (u32 x)) in
  let! d := bop (bdata lbuf) in
  bop (bput dbuf (fun _ => d)) ;;!
  bop (bwrite dbuf) ;;!
  bop (brelse lbuf) ;;!
  bop (brelse dbuf).

Definition install_trans : M lst unit :=
  let! g := mget lg in
  for_ (Z.to_nat (lh_n g)) 0 (install_body g).

(** The block numbers of a header block, and the loop that stores them. *)
Fixpoint head_blocks (m : mem) (i : Z) (n : nat) : list Z :=
  match n with
  | O => []
  | S n' => s32 (get32 m (4 + 4 * i)) :: head_blocks m (i + 1) n'
  end.
Fixpoint fill_blocks (m : mem) (i : Z) (bl : list Z) : mem :=
  match bl with
  | [] => m
  | x :: t => fill_blocks (put32 m (4 + 4 * i) x) (i + 1) t
  end.

Definition read_head : M lst unit :=
  let! g := mget lg in
  let! buf := bop (bread (u32 (lg_dev g)) (u32 (lg_start g))) in
  let! d := bop (bdata buf) in
  let n := s32 (get32 d 0) in
  onlg (set_lh_n n) ;;!
  if n >? LOGSIZE then mundef else
  onlg (fun g => set_lh_block (head_blocks d 0 (Z.to_nat n) ++ drop (Z.to_nat n) (lh_block g)) g) ;;!
  bop (brelse buf).

Definition write_head : M lst unit :=
  let! g := mget lg in
  let! buf := bop (bread (u32 (lg_dev g)) (u32 (lg_start g))) in
  if lh_n g >? LOGSIZE then mundef else
  bop (bput buf (fun m => fill_blocks (put32 m 0 (lh_n g)) 0 (take (Z.to_nat (lh_n g)) (lh_block g)))) ;;!
  bop (bwrite buf) ;;!
  bop (brelse buf).

Definition recover_from_log : M lst unit :=
  read_head ;;!
  install_trans ;;!
  onlg (set_lh_n 0) ;;!
  write_head.

Definition initlog (dev : Z) : M lst unit :=
  if 4 + 4 * LOGSIZE >=? BSIZE then mpanic "initlog: too big logheader" else
  onlg (set_lg_lock false) ;;!
  let! sb := bop (readsb (u32 dev)) in
  onlg (set_lg_start (s32 (sb_logstart sb))) ;;!
  onlg (set_lg_size (s32 (sb_nlog sb))) ;;!
  onlg (set_lg_dev dev) ;;!
  recover_from_log.

Definition lacquire : M lst unit :=
  acquire (fun s => lg_lock (lg s)) (fun v s => set_lg (set_lg_lock v (lg s)) s).
Definition lrelease : M lst unit :=
  release (fun s => lg_lock (lg s)) (fun v s => set_lg (set_lg_lock v (lg s)) s).

(** [sleep] waits for another process's [end_op]. *)
Definition begin_op : M lst unit :=
  lacquire ;;!
  let! g := mget lg in
  if negb (lg_committing g =? 0) then mblock else
  if lh_n g + (lg_outstanding g + 1) * MAXOPBLOCKS >? LOGSIZE then mblock else
  onlg (fun g => set_lg_outstanding (lg_outstanding g + 1) g) ;;!
  lrelease.

Definition write_log_body (g : log) (tail : Z) : M lst unit :=
  let! to := bop (bread (u32 (lg_dev g)) (u32 (lg_start g + tail + 1))) in
  let! x := lh_at tail in
  let! from := bop (bread (u32 (lg_dev g)) (u32 x)) in
  let! d := bop (bdata from) in
  bop (bput to (fun _ => d)) ;;!
  bop (bwrite to) ;;!
  bop (brelse from) ;;!
  bop (brelse to).

Definition write_log : M lst unit :=
  let! g := mget lg in
  for_ (Z.to_nat (lh_n g)) 0 (write_log_body g).

Definition commit : M lst unit :=
  let! g := mget lg in
  mwhen (lh_n g >? 0)
    (write_log ;;!
     write_head ;;!
     install_trans ;;!
     onlg (set_lh_n 0) ;;!
     write_head).

(** [wakeup] acts on the process table only. *)
Definition end_op : M lst unit :=
  lacquire ;;!
  onlg (fun g => set_lg_outstanding (lg_outstanding g - 1) g) ;;!
  let! g := mget lg in
  if negb (lg_committing g =? 0) then mpanic "log.committing" else
  let do_commit := lg_outstanding g =? 0 in
  mwhen do_commit (onlg (set_lg_committing 1)) ;;!
  lrelease ;;!
  mwhen do_commit
    (commit ;;!
     lacquire ;;!
     onlg (set_lg_committing 0) ;;!
     lrelease).

(** The index at which the search of [log_write] stops. *)
Fixpoint log_find (x : Z) (bl : list Z) : nat :=
  match bl with
  | [] => O
  | y :: t => if u32 y =? x then O else S (log_find x t)
  end.

Definition log_write (b : nat) : M lst unit :=
  let! g := mget lg in
  if (lh_n g >=? LOGSIZE) || (lh_n g >=? lg_size g - 1) then mpanic "too big a transaction" else
  if lg_outstanding g <? 1 then mpanic "log_write outside of trans" else
  lacquire ;;!
  let! bf := bop (getb b) in
  let i := log_find (b_blockno bf) (take (Z.to_nat (lh_n g)) (lh_block g)) in
  onlg (fun g => set_lh_block (<[i := s32 (b_blockno bf)]> (lh_block g)) g) ;;!
  mwhen (Z.of_nat i =? lh_n g) (onlg (fun g => set_lh_n (lh_n g + 1) g)) ;;!
  bop (setb b (fun bf => set_b_flags (Z.lor (b_flags bf) B_DIRTY) bf)) ;;!
  lrelease.

(** ** The recovered disk *)

(** Block writes, in order. *)
Definition apply_writes (ws : list (Z * mem)) (d : Z -> mem) : Z -> mem :=
  foldl (fun d '(x, m) => <[x := m]> d) d ws.

(** The loop of [install_trans]: block [x] of the [i]-th header entry takes the
    contents of log block [a + i]. *)
Fixpoint install (d : Z -> mem) (a : Z) (bl : list Z) : Z -> mem :=
  match bl with
  | [] => d
  | x :: t => install (<[x := d a]> d) (a + 1) t
  end.

Fixpoint install_writes (d : Z -> mem) (a : Z) (bl : list Z) : list (Z * mem) :=
  match bl with
  | [] => []
  | x :: t => (x, d a) :: install_writes (<[x := d a]> d) (a + 1) t
  end.

(** The loop of [write_log]. *)
Fixpoint logged (d : Z -> mem) (a : Z) (bl : list Z) : Z -> mem :=
  match bl with
  | [] => d
  | x :: t => logged (<[a := d x]> d) (a + 1) t
  end.
Fixpoint log_writes (d : Z -> mem) (a : Z) (bl : list Z) : list (Z * mem) :=
  match bl with
  | [] => []
  | x :: t => (a, d x) :: log_writes (<[a := d x]> d) (a + 1) t
  end.

(** The header entries on the disk. *)
Definition head_of (d : Z -> mem) (start : Z) : list Z :=
  head_blocks (d start) 0 (Z.to_nat (s32 (get32 (d start) 0))).

(** What recovery makes of a disk. *)
Definition recovered (start : Z) (d : Z -> mem) : Z -> mem := install d (start + 1) (head_of d start).

(** Blocks outside the log. *)
Definition home (start size x : Z) : Prop := x < start \/ start + size <= x.

(** Block numbers a header can hold. *)
Definition good_blocks (start size dsz : Z) (bl : list Z) : Prop :=
  NoDup bl /\ Z.of_nat (length bl) < size /\ Z.of_nat (length bl) <= LOGSIZE /\
  Forall (fun x => home start size x /\ x <> 1 /\ 0 <= x < dsz) bl.

(** A disk with a log at [start]. *)
Record log_disk (start size dsz : Z) (d : Z -> mem) : Prop := {
  ld_geom : 1 < start /\ 0 < size <= LOGSIZE /\ start + size <= dsz /\ dsz < 2 ^ 31;
  ld_sb : sb_logstart (sb_of (d 1)) = start /\ sb_nlog (sb_of (d 1)) = size;
  ld_head : 0 <= s32 (get32 (d start) 0);
  ld_good : good_blocks start size dsz (head_of d start)
}.

(** The blocks of [ws] are written, in order. *)
Definition bio_writes (b b' : bst) (ws : list (Z * mem)) : Prop :=
  disk b' = apply_writes ws (disk b) /\ written b' = written b ++ ws /\
  disksize b' = disksize b /\ curpid b' = curpid b.

(** The block [x] of [b] is written with [m]. *)
Definition bio_wrote (b b' : bst) (x : Z) (m : mem) : Prop :=
  disk b' = <[x := m]> (disk b) /\ written b' = written b ++ [(x, m)] /\
  disksize b' = disksize b /\ curpid b' = curpid b.

(** ** Steps of the loops *)

Lemma bop_ok {A} (m : M bst A) g b a b' :
  m b = Ok (a, b') -> bop m (mklst g b) = Ok (a, mklst g b').
Proof. intros H. unfold bop. cbn. by rewrite H. Qed.

Lemma bio_wrote_frame b b1 b2 b3 x m :
  same_disk b b1 -> bio_wrote b1 b2 x m -> same_disk b2 b3 -> bio_wrote b b3 x m.
Proof.
  intros (A1 & A2 & A3 & A4) (B1 & B2 & B3 & B4) (C1 & C2 & C3 & C4).
  unfold bio_wrote. rewrite C1, C2, C3, C4, B1, B2, B3, B4, A1, A2, A3, A4. done.
Qed.

Lemma size_union_le (X Y : gset Z) : (size (X ∪ Y) <= size X + size Y)%nat.
Proof. rewrite size_union_alt. apply Nat.add_le_mono_l, subseteq_size. intros x (? & _)%elem_of_difference. done. Qed.

Lemma size_pins D H : (size (pins D H) <= size D + length H)%nat.
Proof.
  unfold pins. etransitivity; [apply size_union_le|]. apply Nat.add_le_mono_l.
  induction H as [|[i x] H IH]; [reflexivity|]. rewrite fmap_cons, list_to_set_cons. cbn [length snd].
  etransitivity; [apply size_union_le|]. rewrite size_singleton. lia.
Qed.

(** Two blocks are taken, one of them is written, and both are released. *)
Lemma two_blocks g b v D a x (m : mem) :
  cached b v D [] -> a <> x -> on_disk b a -> on_disk b x ->
  (size D < HEAD)%nat -> (size D + 1 < HEAD)%nat \/ x ∈ D ->
  exists i j b1 b2,
    bop (bread 1 a) (mklst g b) = Ok (i, mklst g b1) /\
    bop (bread 1 x) (mklst g b1) = Ok (j, mklst g b2) /\
    bop (bdata i) (mklst g b2) = Ok (v a, mklst g b2) /\
    bop (bdata j) (mklst g b2) = Ok (v x, mklst g b2) /\
    (exists b3 b4 b5 b6,
      bop (bput j (fun _ => m)) (mklst g b2) = Ok (tt, mklst g b3) /\
      bop (bwrite j) (mklst g b3) = Ok (tt, mklst g b4) /\
      bop (brelse i) (mklst g b4) = Ok (tt, mklst g b5) /\
      bop (brelse j) (mklst g b5) = Ok (tt, mklst g b6) /\
      cached b6 (<[x := m]> v) (D ∖ {[x]}) [] /\ bio_wrote b b6 x m) /\
    (exists b3 b4 b5 b6,
      bop (bput i (fun _ => m)) (mklst g b2) = Ok (tt, mklst g b3) /\
      bop (bwrite i) (mklst g b3) = Ok (tt, mklst g b4) /\
      bop (brelse j) (mklst g b4) = Ok (tt, mklst g b5) /\
      bop (brelse i) (mklst g b5) = Ok (tt, mklst g b6) /\
      cached b6 (<[a := m]> v) (D ∖ {[a]}) [] /\ bio_wrote b b6 a m).
Proof.
  intros Hc Hax Hona Honx Hsz Hx.
  destruct (bread_spec b v D [] a Hc) as (i & b1 & Hr1 & Hi & Hc1 & Hs1); [apply not_elem_of_nil|done| |].
  { left. pose proof (size_pins D []). simpl in *. lia. }
  destruct (bread_spec b1 v D [(i, a)] x Hc1) as (j & b2 & Hr2 & Hj & Hc2 & Hs2).
  - simpl. intros [->|?%elem_of_nil]%list.elem_of_cons; done.
  - destruct Hs1 as (_ & _ & E & _). unfold on_disk. by rewrite E.
  - destruct Hx as [Hx|Hx]; [left|by right]. pose proof (size_pins D [(i, a)]). simpl in *. lia.
  - pose proof (same_disk_trans _ _ _ Hs1 Hs2) as Hs.
    assert (Hdz : disksize b2 = disksize b) by apply Hs.
    exists i, j, b1, b2. split_and!; try (by apply bop_ok).
    + apply bop_ok, (bdata_eq _ _ _ _ _ _ Hc2). right. left.
    + apply bop_ok, (bdata_eq _ _ _ _ _ _ Hc2). left.
    + destruct (bwrite_spec b2 v D _ j x (fun _ => m) Hc2) as (b3 & b4 & Hp & Hw & Hc4 & Hd4 & Hwr4 & Hz4 & Hp4);
        [left|unfold on_disk; by rewrite Hdz|].
      apply (cached_perm _ _ _ _ [(i, a); (j, x)]) in Hc4; [|by apply Permutation_swap].
      destruct (brelse_spec _ _ _ _ _ _ Hc4) as (b5 & Hr5 & Hc5 & Hs5 & _).
      destruct (brelse_spec _ _ _ _ _ _ Hc5) as (b6 & Hr6 & Hc6 & Hs6 & _).
      exists b3, b4, b5, b6. split_and!; try (by apply bop_ok); try done.
      apply (bio_wrote_frame b b2 b4); [done|done|by apply (same_disk_trans _ b5)].
    + destruct (bwrite_spec b2 v D _ i a (fun _ => m) Hc2) as (b3 & b4 & Hp & Hw & Hc4 & Hd4 & Hwr4 & Hz4 & Hp4);
        [right; left|unfold on_disk; by rewrite Hdz|].
      destruct (brelse_spec _ _ _ _ _ _ Hc4) as (b5 & Hr5 & Hc5 & Hs5 & _).
      destruct (brelse_spec _ _ _ _ _ _ Hc5) as (b6 & Hr6 & Hc6 & Hs6 & _).
      exists b3, b4, b5, b6. split_and!; try (by apply bop_ok); try done.
      apply (bio_wrote_frame b b2 b4); [done|done|by apply (same_disk_trans _ b5)].
Qed.

Lemma bio_writes_cons b b1 b2 x m ws :
  bio_wrote b b1 x m -> bio_writes b1 b2 ws -> bio_writes b b2 ((x, m) :: ws).
Proof.
  intros (A1 & A2 & A3 & A4) (B1 & B2 & B3 & B4). unfold bio_writes.
  rewrite B1, B2, B3, B4, A1, A2, A3, A4. split_and!; try done. by rewrite <- app_assoc.
Qed.

Lemma bio_writes_app b b1 b2 ws1 ws2 :
  bio_writes b b1 ws1 -> bio_writes b1 b2 ws2 -> bio_writes b b2 (ws1 ++ ws2).
Proof.
  intros (A1 & A2 & A3 & A4) (B1 & B2 & B3 & B4). unfold bio_writes, apply_writes.
  rewrite B1, B2, B3, B4, A1, A2, A3, A4, foldl_app. split_and!; try done. by rewrite <- app_assoc.
Qed.

Lemma lh_at_eq g b i x :
  lh_block g !! Z.to_nat i = Some x -> 0 <= i -> lh_at i (mklst g b) = Ok (x, mklst g b).
Proof. intros H Hi. unfold lh_at. cbn. rewrite H. by rewrite (proj2 (Z.leb_le 0 i)). Qed.

(** The entries of the in-memory header from [i] on. *)
Definition entries (g : log) (i : Z) (bl : list Z) : Prop :=
  forall k x, bl !! k = Some x -> lh_block g !! (Z.to_nat i + k)%nat = Some x.

Lemma entries_cons g i x bl :
  0 <= i -> entries g i (x :: bl) -> lh_block g !! Z.to_nat i = Some x /\ entries g (i + 1) bl.
Proof.
  intros Hi He. split; [rewrite <- (He 0%nat x eq_refl); f_equal; lia|].
  intros k y Hy. rewrite <- (He (S k) y Hy). f_equal. lia.
Qed.

Section Loops.
Variables (g : log) (start lsz dsz : Z).
Hypothesis Hdev : lg_dev g = 1.
Hypothesis Hstart : lg_start g = start.
Hypothesis Hgeom : 1 < start /\ 0 < lsz <= LOGSIZE /\ start + lsz <= dsz /\ dsz < 2 ^ 31.

Set Default Proof Using "All".

(** A log block and a home block, as the loops take them. *)
Lemma slot_and_home b i x :
  0 <= i -> i + 1 < lsz -> home start lsz x -> 0 <= x < dsz -> u32 (disksize b) = dsz ->
  start + i + 1 <> x /\ u32 (start + i + 1) = start + i + 1 /\ u32 x = x /\
  on_disk b (start + i + 1) /\ on_disk b x /\ u32 (lg_dev g) = 1.
Proof.
  intros Hi Hlen Hx Hxd Hdz. unfold home, on_disk in *. rewrite Hdz, Hdev.
  rewrite !u32_small by (unfold is_u32; lia). split_and!; lia || done.
Qed.

Lemma install_loop bl : forall b v D i,
  0 <= i -> i + Z.of_nat (length bl) < lsz -> entries g i bl -> NoDup bl ->
  Forall (fun x => home start lsz x /\ x <> 1 /\ 0 <= x < dsz) bl ->
  u32 (disksize b) = dsz -> cached b v D [] -> (size D < HEAD)%nat ->
  (size D + 1 < HEAD)%nat \/ (forall x, x ∈ bl -> x ∈ D) ->
  exists b', for_ (length bl) i (install_body g) (mklst g b) = Ok (tt, mklst g b') /\
    cached b' (install v (start + i + 1) bl) (D ∖ list_to_set bl) [] /\
    bio_writes b b' (install_writes v (start + i + 1) bl).
Proof.
  induction bl as [|x bl IH]; intros b v D i Hi Hlen He Hnd Hall Hdz Hc Hsz Hx.
  - exists b. split; [done|]. split; [|unfold bio_writes; by rewrite app_nil_r].
    cbn [install list_to_set]. by rewrite (difference_empty_L D).
  - apply entries_cons in He as (Hx0 & He); [|done]. cbn [length] in Hlen.
    apply NoDup_cons in Hnd as (Hxbl & Hnd). apply Forall_cons in Hall as ((Hhome & _ & Hxd) & Hall).
    destruct (slot_and_home b i x) as (Hne & Eu1 & Eu2 & Hon1 & Hon2 & Edev); try done; [lia|].
    destruct (two_blocks g b v D (start + i + 1) x (v (start + i + 1)) Hc Hne Hon1 Hon2 Hsz)
      as (bi & bj & b1 & b2 & R1 & R2 & R3 & _ & (b3 & b4 & b5 & b6 & R4 & R5 & R6 & R7 & Hc6 & Hw6) & _).
    { destruct Hx as [Hx|Hx]; [by left|right]. apply Hx. left. }
    destruct (IH b6 (<[x := v (start + i + 1)]> v) (D ∖ {[x]}) (i + 1)) as (b' & Hrun & Hc' & Hw'); try done; [lia|lia| | | |].
    + destruct Hw6 as (_ & _ & -> & _). done.
    + eapply Nat.le_lt_trans; [|exact Hsz]. apply subseteq_size, subseteq_difference_l. done.
    + destruct Hx as [Hx|Hx]; [left|right].
      * eapply Nat.le_lt_trans; [|exact Hx]. apply Nat.add_le_mono_r, subseteq_size, subseteq_difference_l. done.
      * intros y Hy. apply elem_of_difference. rewrite elem_of_singleton. split; [apply Hx; by right|]. by intros ->.
    + exists b'. split; [|split].
      * cbn [for_ length]. unfold install_body at 1. rewrite mbind_assoc, Edev, Hstart, Eu1.
        mby R1. mby (lh_at_eq g b1 i x Hx0 Hi). rewrite Eu2. mby R2. mby R3. mby R4. mby R5. mby R6. mby R7.
        exact Hrun.
      * cbn [install list_to_set]. replace (start + i + 1 + 1) with (start + (i + 1) + 1) by lia.
        by rewrite <- (difference_difference_l_L D {[x]} (list_to_set bl)).
      * cbn [install_writes]. replace (start + i + 1 + 1) with (start + (i + 1) + 1) by lia.
        by eapply bio_writes_cons.
Qed.

Lemma write_log_loop bl : forall b v D i,
  0 <= i -> i + Z.of_nat (length bl) < lsz -> entries g i bl ->
  Forall (fun x => home start lsz x /\ x <> 1 /\ 0 <= x < dsz) bl ->
  u32 (disksize b) = dsz -> cached b v D [] -> (size D < HEAD)%nat ->
  (forall x, x ∈ bl -> x ∈ D) -> (forall x, x ∈ D -> home start lsz x) ->
  exists b', for_ (length bl) i (write_log_body g) (mklst g b) = Ok (tt, mklst g b') /\
    cached b' (logged v (start + i + 1) bl) D [] /\
    bio_writes b b' (log_writes v (start + i + 1) bl).
Proof.
  induction bl as [|x bl IH]; intros b v D i Hi Hlen He Hall Hdz Hc Hsz Hx HD.
  - exists b. split; [done|]. split; [done|unfold bio_writes; by rewrite app_nil_r].
  - apply entries_cons in He as (Hx0 & He); [|done]. cbn [length] in Hlen.
    apply Forall_cons in Hall as ((Hhome & _ & Hxd) & Hall).
    destruct (slot_and_home b i x) as (Hne & Eu1 & Eu2 & Hon1 & Hon2 & Edev); try done; [lia|].
    destruct (two_blocks g b v D (start + i + 1) x (v x) Hc Hne Hon1 Hon2 Hsz)
      as (bi & bj & b1 & b2 & R1 & R2 & _ & R3 & _ & (b3 & b4 & b5 & b6 & R4 & R5 & R6 & R7 & Hc6 & Hw6)).
    { right. apply Hx. left. }
    assert (Hslot : start + i + 1 ∉ D) by (intros Hin%HD; unfold home in Hin; lia).
    rewrite (difference_disjoint_L D {[start + i + 1]}) in Hc6
      by (apply disjoint_singleton_r; done).
    destruct (IH b6 (<[start + i + 1 := v x]> v) D (i + 1)) as (b' & Hrun & Hc' & Hw'); try done; [lia|lia| | |].
    + destruct Hw6 as (_ & _ & -> & _). done.
    + intros y Hy. apply Hx. by right.
    + exists b'. split; [|split].
      * cbn [for_ length]. unfold write_log_body at 1. rewrite mbind_assoc, Edev, Hstart, Eu1.
        mby R1. mby (lh_at_eq g b1 i x Hx0 Hi). rewrite Eu2. mby R2. mby R3. mby R4. mby R5. mby R6. mby R7.
        exact Hrun.
      * cbn [logged]. by replace (start + i + 1 + 1) with (start + (i + 1) + 1) by lia.
      * cbn [log_writes]. replace (start + i + 1 + 1) with (start + (i + 1) + 1) by lia.
        by eapply bio_writes_cons.
Qed.

End Loops.

(** ** Headers *)

Lemma fill_blocks_get m i bl a :
  0 <= i -> a + 4 <= 4 + 4 * i -> get32 (fill_blocks m i bl) a = get32 m a.
Proof.
  revert m i. induction bl as [|x bl IH]; intros m i Hi Ha; [done|]. cbn.
  rewrite IH by lia. apply get32_put32_ne. lia.
Qed.

Lemma head_blocks_fill m i bl :
  0 <= i -> Forall (fun x => 0 <= x < 2 ^ 31) bl ->
  head_blocks (fill_blocks m i bl) i (length bl) = bl.
Proof.
  revert m i. induction bl as [|x bl IH]; intros m i Hi Hall; [done|].
  apply Forall_cons in Hall as (Hx & Hall). cbn. rewrite IH by (done || lia). f_equal.
  rewrite fill_blocks_get, get32_put32_eq, s32_small by (unfold is_u32; lia). done.
Qed.

Lemma head_blocks_length m i n : length (head_blocks m i n) = n.
Proof. revert i. induction n as [|n IH]; intros i; [done|]. cbn. by rewrite IH. Qed.

(** The header block [write_head] makes of the block [m]. *)
Definition header (m : mem) (bl : list Z) : mem := fill_blocks (put32 m 0 (Z.of_nat (length bl))) 0 bl.

Lemma header_n m bl : Z.of_nat (length bl) <= LOGSIZE -> get32 (header m bl) 0 = Z.of_nat (length bl).
Proof.
  intros Hl. unfold header. rewrite fill_blocks_get by lia. apply get32_put32_eq.
  unfold is_u32, LOGSIZE, MAXOPBLOCKS in *. lia.
Qed.

Lemma head_of_header d start m bl :
  Z.of_nat (length bl) <= LOGSIZE -> Forall (fun x => 0 <= x < 2 ^ 31) bl ->
  head_of (<[start := header m bl]> d) start = bl /\
  0 <= s32 (get32 (<[start := header m bl]> d start) 0).
Proof.
  intros Hl Hall. unfold head_of. rewrite fn_lookup_insert, header_n by done.
  rewrite s32_small by (unfold LOGSIZE, MAXOPBLOCKS in *; lia). rewrite Nat2Z.id.
  split; [by apply head_blocks_fill|lia].
Qed.

Lemma write_head_spec g b v D start bl :
  lg_dev g = 1 -> lg_start g = start -> lh_n g = Z.of_nat (length bl) -> Z.of_nat (length bl) <= LOGSIZE ->
  entries g 0 bl -> on_disk b start -> start < 2 ^ 31 -> cached b v D [] -> (size D < HEAD)%nat ->
  exists b', write_head (mklst g b) = Ok (tt, mklst g b') /\
    cached b' (<[start := header (v start) bl]> v) (D ∖ {[start]}) [] /\
    bio_wrote b b' start (header (v start) bl).
Proof.
  intros Hdev Hst Hn Hl He Hon Hs Hc Hsz.
  destruct (bread_spec b v D [] start Hc) as (i & b1 & R1 & Hi & Hc1 & S1); [apply not_elem_of_nil|done| |].
  { left. pose proof (size_pins D []). simpl in *. lia. }
  assert (Htake : take (length bl) (lh_block g) = bl).
  { apply list_eq. intros k. destruct (bl !! k) as [x|] eqn:Ek.
    - rewrite lookup_take_lt by (by eapply lookup_lt_Some). by apply (He k x).
    - apply lookup_ge_None in Ek. by rewrite lookup_take_ge. }
  destruct (bwrite_spec b1 v D _ i start
    (fun m => fill_blocks (put32 m 0 (lh_n g)) 0 (take (Z.to_nat (lh_n g)) (lh_block g))) Hc1)
    as (b2 & b3 & R2 & R3 & Hc3 & D3 & W3 & Z3 & P3); [left| |].
  { destruct S1 as (_ & _ & E & _). unfold on_disk. by rewrite E. }
  rewrite Hn, Nat2Z.id, Htake in Hc3, D3, W3. fold (header (v start) bl) in Hc3, D3, W3.
  destruct (brelse_spec _ _ _ _ _ _ Hc3) as (b4 & R4 & Hc4 & S4 & _).
  exists b4. split; [|split; [done|]].
  - unfold write_head. mgo. cbn [lg]. rewrite Hdev, Hst, (u32_small start) by (unfold is_u32, on_disk in *; lia).
    change (u32 1) with 1. mby (bop_ok _ g _ _ _ R1).
    assert (En : (lh_n g >? LOGSIZE) = false) by lia. rewrite En.
    mby (bop_ok _ g _ _ _ R2). mby (bop_ok _ g _ _ _ R3). apply (bop_ok _ g _ _ _ R4).
  - apply (bio_wrote_frame b b1 b3); done.
Qed.

Lemma read_head_spec g b v D start :
  lg_dev g = 1 -> lg_start g = start -> on_disk b start -> start < 2 ^ 31 ->
  0 <= s32 (get32 (v start) 0) <= LOGSIZE -> cached b v D [] -> (size D < HEAD)%nat ->
  exists b', read_head (mklst g b) =
    Ok (tt, mklst (set_lh_block (head_of v start ++ drop (length (head_of v start)) (lh_block g))
                    (set_lh_n (Z.of_nat (length (head_of v start))) g)) b') /\
    cached b' v D [] /\ same_disk b b'.
Proof.
  intros Hdev Hst Hon Hs Hn Hc Hsz.
  destruct (bread_spec b v D [] start Hc) as (i & b1 & R1 & Hi & Hc1 & S1); [apply not_elem_of_nil|done| |].
  { left. pose proof (size_pins D []). simpl in *. lia. }
  destruct (brelse_spec _ _ _ _ _ _ Hc1) as (b2 & R2 & Hc2 & S2 & _).
  exists b2. split; [|split; [done|by apply (same_disk_trans _ b1)]].
  unfold read_head. mgo. cbn [lg]. rewrite Hdev, Hst, (u32_small start) by (unfold is_u32, on_disk in *; lia).
  change (u32 1) with 1. mby (bop_ok _ g _ _ _ R1).
  mby (bop_ok _ g _ _ _ (bdata_eq _ _ _ _ i start Hc1 ltac:(left))).
  unfold onlg. mgo. assert (En : (s32 (get32 (v start) 0) >? LOGSIZE) = false) by lia. rewrite En. mgo.
  unfold head_of. rewrite head_blocks_length, Z2Nat.id by lia.
  apply (bop_ok _ _ _ _ _ R2).
Qed.

(** ** Sequences of writes *)

Lemma apply_writes_other ws d y : y ∉ ws.*1 -> apply_writes ws d y = d y.
Proof.
  revert d. induction ws as [|[x m] ws IH]; intros d Hy; [done|].
  rewrite fmap_cons in Hy. apply not_elem_of_cons in Hy as (Hyx & Hy). cbn in *.
  change (apply_writes ws (<[x:=m]> d) y = d y). rewrite IH by done. by rewrite fn_lookup_insert_ne.
Qed.

Lemma apply_writes_val ws d v y :
  (forall x m, (x, m) ∈ ws -> m = v x) -> y ∈ ws.*1 -> apply_writes ws d y = v y.
Proof.
  revert d. induction ws as [|[x m] ws IH]; intros d Hv Hy; [by apply elem_of_nil in Hy|].
  change (apply_writes ws (<[x:=m]> d) y = v y).
  assert (Hv' : forall x m, (x, m) ∈ ws -> m = v x) by (intros; apply Hv; by right).
  destruct (decide (y ∈ ws.*1)) as [Hin|Hnin]; [by apply IH|].
  rewrite apply_writes_other by done. rewrite fmap_cons in Hy.
  apply list.elem_of_cons in Hy as [->|Hy]; [|done]. cbn. rewrite fn_lookup_insert. apply Hv. left.
Qed.

Lemma elem_of_take_in {A} k (l : list A) y : y ∈ take k l -> y ∈ l.
Proof. intros (i & Hi & _)%elem_of_take. by eapply list_elem_of_lookup_2. Qed.

Lemma elem_of_take_fst {A} k (ws : list (Z * A)) y : y ∈ (take k ws).*1 -> y ∈ ws.*1.
Proof. rewrite fmap_take. apply elem_of_take_in. Qed.

(** ** Installing *)

Lemma install_other d a bl y : y ∉ bl -> install d a bl y = d y.
Proof.
  revert d a. induction bl as [|x bl IH]; intros d a Hy; [done|].
  apply not_elem_of_cons in Hy as (Hyx & Hy). cbn. rewrite IH by done. by rewrite fn_lookup_insert_ne.
Qed.

Lemma install_at d a bl k y :
  NoDup bl -> (forall j, (j < length bl)%nat -> a + Z.of_nat j ∉ bl) ->
  bl !! k = Some y -> install d a bl y = d (a + Z.of_nat k).
Proof.
  revert d a k. induction bl as [|x bl IH]; intros d a k Hnd Ha Hk; [done|].
  apply NoDup_cons in Hnd as (Hx & Hnd). cbn. destruct k as [|k].
  - injection Hk as ->. rewrite install_other by done. rewrite fn_lookup_insert. f_equal. lia.
  - cbn in Hk. rewrite (IH _ (a + 1) k Hnd); [|intros j Hj|done].
    + rewrite fn_lookup_insert_ne; [f_equal; lia|].
      intros ->. apply (Ha (S k)); [cbn; apply lookup_lt_Some in Hk; lia|]. apply list.elem_of_cons. left. lia.
    + replace (a + 1 + Z.of_nat j) with (a + Z.of_nat (S j)) by lia. intros Hin.
      apply (Ha (S j)); [cbn; lia|]. by right.
Qed.

Lemma install_writes_in d a bl x m :
  NoDup bl -> (forall j, (j < length bl)%nat -> a + Z.of_nat j ∉ bl) ->
  (x, m) ∈ install_writes d a bl -> exists k, bl !! k = Some x /\ m = d (a + Z.of_nat k).
Proof.
  revert d a. induction bl as [|y bl IH]; intros d a Hnd Ha Hin; [by apply elem_of_nil in Hin|].
  apply NoDup_cons in Hnd as (Hx & Hnd). cbn in Hin. apply list.elem_of_cons in Hin as [[= -> ->]|Hin].
  - exists 0%nat. split; [done|]. f_equal. lia.
  - apply IH in Hin as (k & Hk & ->); [|done|].
    + exists (S k). split; [done|]. rewrite fn_lookup_insert_ne; [f_equal; lia|].
      intros ->. apply (Ha (S k)); [cbn; apply lookup_lt_Some in Hk; lia|]. apply list.elem_of_cons. left. lia.
    + intros j Hj. replace (a + 1 + Z.of_nat j) with (a + Z.of_nat (S j)) by lia. intros Hin'.
      apply (Ha (S j)); [cbn; lia|]. by right.
Qed.

Lemma install_writes_fst d a bl : (install_writes d a bl).*1 = bl.
Proof. revert d a. induction bl as [|x bl IH]; intros d a; [done|]. cbn. f_equal. apply IH. Qed.

Lemma logged_other d a bl y : y < a \/ a + Z.of_nat (length bl) <= y -> logged d a bl y = d y.
Proof.
  revert d a. induction bl as [|x bl IH]; intros d a Hy; [done|]. cbn in *.
  rewrite IH by lia. rewrite fn_lookup_insert_ne; [done|lia].
Qed.

Lemma logged_at d a bl k x :
  (forall j, (j < length bl)%nat -> a + Z.of_nat j ∉ bl) ->
  bl !! k = Some x -> logged d a bl (a + Z.of_nat k) = d x.
Proof.
  revert d a k. induction bl as [|y bl IH]; intros d a k Ha Hk; [done|]. cbn. destruct k as [|k].
  - injection Hk as ->. rewrite logged_other by lia. replace (a + Z.of_nat 0) with a by lia.
    by rewrite fn_lookup_insert.
  - cbn in Hk. replace (a + Z.of_nat (S k)) with (a + 1 + Z.of_nat k) by lia.
    rewrite IH; [|intros j Hj|done].
    + rewrite fn_lookup_insert_ne; [done|]. intros <-. apply (Ha 0%nat); [cbn; lia|].
      rewrite Z.add_0_r. right. by eapply list_elem_of_lookup_2.
    + replace (a + 1 + Z.of_nat j) with (a + Z.of_nat (S j)) by lia. intros Hin.
      apply (Ha (S j)); [cbn; lia|]. by right.
Qed.

Lemma log_writes_slots d a bl y :
  y ∈ (log_writes d a bl).*1 -> a <= y < a + Z.of_nat (length bl).
Proof.
  revert d a. induction bl as [|x bl IH]; intros d a Hy; [by apply elem_of_nil in Hy|].
  cbn in Hy. apply list.elem_of_cons in Hy as [->|Hy]; cbn [length]; [lia|]. apply IH in Hy. lia.
Qed.

(** ** Disks recovery turns into given contents *)

(** Recovery makes the contents [v] of [d], outside the log. *)
Definition ok_disk (start lsz dsz : Z) (v d : Z -> mem) : Prop :=
  log_disk start lsz dsz d /\ forall y, home start lsz y -> recovered start d y = v y.

Lemma log_disk_same start lsz dsz d d' :
  d' 1 = d 1 -> d' start = d start -> log_disk start lsz dsz d -> log_disk start lsz dsz d'.
Proof.
  intros E1 Es [H1 H2 H3 H4]. split; rewrite ?E1, ?Es; try done. unfold head_of in *. by rewrite Es.
Qed.

Lemma good_slots start lsz dsz bl :
  good_blocks start lsz dsz bl -> forall j, (j < length bl)%nat -> start + 1 + Z.of_nat j ∉ bl.
Proof.
  intros (_ & Hl & _ & Hall) j Hj Hin. rewrite Forall_forall in Hall.
  destruct (Hall _ Hin) as (Hh & _). unfold home in Hh. lia.
Qed.

Lemma recovered_at start lsz dsz d k y :
  log_disk start lsz dsz d -> head_of d start !! k = Some y ->
  recovered start d y = d (start + 1 + Z.of_nat k).
Proof.
  intros Hd Hk. destruct (ld_good _ _ _ _ Hd) as (Hnd & _).
  apply install_at; [done| |done]. by eapply good_slots, ld_good.
Qed.

Lemma recovered_other start d y : y ∉ head_of d start -> recovered start d y = d y.
Proof. apply install_other. Qed.

(** A header block that lists [bl] is written. *)
Lemma ok_header start lsz dsz v d m bl :
  log_disk start lsz dsz d -> good_blocks start lsz dsz bl ->
  (forall k y, bl !! k = Some y -> d (start + 1 + Z.of_nat k) = v y) ->
  (forall y, home start lsz y -> y ∉ bl -> d y = v y) ->
  ok_disk start lsz dsz v (<[start := header m bl]> d).
Proof.
  intros Hd Hg Hin Hout. pose proof (ld_geom _ _ _ _ Hd) as Hgeom.
  pose proof Hg as (Hnd & Hl & Hlog & Hall).
  destruct (head_of_header d start m bl Hlog) as (Hh & Hn).
  { eapply Forall_impl; [exact Hall|]. intros x (_ & _ & ?). lia. }
  assert (Hd' : log_disk start lsz dsz (<[start := header m bl]> d)).
  { split; [done| |done|by rewrite Hh]. rewrite fn_lookup_insert_ne by lia. apply Hd. }
  split; [done|]. intros y Hy. destruct (decide (y ∈ bl)) as [Hyb|Hyb].
  - apply list_elem_of_lookup in Hyb as (k & Hk).
    rewrite (recovered_at _ _ _ _ k y Hd') by (by rewrite Hh).
    rewrite fn_lookup_insert_ne by lia. by apply Hin.
  - rewrite recovered_other by (by rewrite Hh). unfold home in Hy.
    rewrite fn_lookup_insert_ne by lia. by apply Hout.
Qed.

(** Log blocks are written while the header is empty. *)
Lemma ok_slots start lsz dsz v d ws :
  log_disk start lsz dsz d -> head_of d start = [] -> (forall y, home start lsz y -> d y = v y) ->
  (forall y, y ∈ ws.*1 -> start < y < start + lsz) ->
  ok_disk start lsz dsz v (apply_writes ws d).
Proof.
  intros Hd Hh Hv Hws. pose proof (ld_geom _ _ _ _ Hd) as Hgeom.
  assert (Hs : apply_writes ws d start = d start)
    by (apply apply_writes_other; intros ?%Hws; lia).
  split.
  - apply (log_disk_same _ _ _ d); [|done|done]. apply apply_writes_other. intros ?%Hws. lia.
  - intros y Hy. unfold recovered, head_of. rewrite Hs. fold (head_of d start). rewrite Hh. cbn.
    rewrite apply_writes_other; [by apply Hv|]. intros ?%Hws. unfold home in Hy. lia.
Qed.

(** Entries of the header are installed. *)
Lemma ok_install start lsz dsz v d ws :
  ok_disk start lsz dsz v d ->
  (forall x m, (x, m) ∈ ws -> x ∈ head_of d start /\ m = v x) ->
  ok_disk start lsz dsz v (apply_writes ws d).
Proof.
  intros (Hd & Hv) Hws. pose proof (ld_geom _ _ _ _ Hd) as Hgeom.
  destruct (ld_good _ _ _ _ Hd) as (Hnd & Hl & Hlog & Hall). rewrite Forall_forall in Hall.
  assert (Hin : forall y, y ∈ ws.*1 -> y ∈ head_of d start).
  { intros y ((x & m) & -> & Hxm)%list_elem_of_fmap. by destruct (Hws _ _ Hxm). }
  assert (Hs : apply_writes ws d start = d start).
  { apply apply_writes_other. intros Hs%Hin. destruct (Hall _ Hs) as (Hh & _). unfold home in Hh. lia. }
  assert (Hhead : head_of (apply_writes ws d) start = head_of d start) by (unfold head_of; by rewrite Hs).
  assert (Hd' : log_disk start lsz dsz (apply_writes ws d)).
  { apply (log_disk_same _ _ _ d); [|done|done]. apply apply_writes_other.
    intros H1%Hin. by destruct (Hall _ H1) as (_ & ? & _). }
  split; [done|]. intros y Hy. destruct (decide (y ∈ head_of d start)) as [Hyb|Hyb].
  - pose proof Hyb as Hyb'. apply list_elem_of_lookup in Hyb' as (k & Hk).
    rewrite (recovered_at _ _ _ _ k y Hd') by (by rewrite Hhead).
    rewrite apply_writes_other, <- (recovered_at _ _ _ _ k y Hd Hk); [by apply Hv|].
    intros Hin'%Hin. destruct (Hall _ Hin') as (Hh & _). apply lookup_lt_Some in Hk. unfold home in Hh. lia.
  - rewrite recovered_other, apply_writes_other by (rewrite ?Hhead; auto).
    rewrite <- (Hv y Hy). by rewrite recovered_other.
Qed.

(** ** Recovery *)

(** The log between transactions and inside one: [bl] are the blocks logged so
    far, [v] the contents the file system sees, [H] the buffers in use; the disk
    holds the committed contents, and an empty header. *)
Record log_ok (start lsz dsz : Z) (s : lst) (bl : list Z) (v : Z -> mem) (H : list (nat * Z)) :
    Prop := {
  lo_dev : lg_dev (lg s) = 1;
  lo_start : lg_start (lg s) = start;
  lo_size : lg_size (lg s) = lsz;
  lo_n : lh_n (lg s) = Z.of_nat (length bl);
  lo_len : length (lh_block (lg s)) = Z.to_nat LOGSIZE;
  lo_entries : entries (lg s) 0 bl;
  lo_good : good_blocks start lsz dsz bl;
  lo_dsz : u32 (disksize (lbio s)) = dsz;
  lo_cached : cached (lbio s) v (list_to_set bl) H;
  lo_disk : log_disk start lsz dsz (disk (lbio s));
  lo_head : head_of (disk (lbio s)) start = []
}.

Definition zero_log : log := mklog false 0 0 0 0 0 0 (replicate (Z.to_nat LOGSIZE) 0).

(** The machine starts over on the disk [d] of [n] blocks: [binit], then
    [initlog]. *)
Definition reboot (d : Z -> mem) (n pid : Z) : outcome (unit * lst) :=
  obind (binit (cold d n pid)) (fun '(_, b) => initlog ROOTDEV (mklst zero_log b)).

Lemma good_nil start lsz dsz : 0 < lsz -> good_blocks start lsz dsz [].
Proof. intros H. split_and!; [apply NoDup_nil_2|done|done|by apply Forall_nil]. Qed.

Lemma readsb_spec b v D :
  cached b v D [] -> on_disk b 1 -> (size D < HEAD)%nat ->
  exists b', readsb 1 b = Ok (sb_of (v 1), b') /\ cached b' v D [] /\ same_disk b b'.
Proof.
  intros Hc Hon Hsz.
  destruct (bread_spec b v D [] 1 Hc) as (i & b1 & R1 & Hi & Hc1 & S1); [apply not_elem_of_nil|done| |].
  { left. pose proof (size_pins D []). simpl in *. lia. }
  destruct (brelse_spec _ _ _ _ _ _ Hc1) as (b2 & R2 & Hc2 & S2 & _).
  exists b2. split; [|split; [done|by apply (same_disk_trans _ b1)]].
  unfold readsb. mby R1. mby (bdata_eq _ _ _ _ i 1 Hc1 ltac:(left)). by mby R2.
Qed.

Lemma entries_app g bl l : lh_block g = bl ++ l -> entries g 0 bl.
Proof. intros E k x Hx. rewrite E. change (Z.to_nat 0 + k)%nat with k. by apply lookup_app_l_Some. Qed.

Lemma entries_nil g i : entries g i [].
Proof. intros k x H. done. Qed.

Lemma install_trans_spec g b v D start lsz dsz bl :
  lg_dev g = 1 -> lg_start g = start -> 1 < start /\ 0 < lsz <= LOGSIZE /\ start + lsz <= dsz /\ dsz < 2 ^ 31 ->
  lh_n g = Z.of_nat (length bl) -> entries g 0 bl -> good_blocks start lsz dsz bl ->
  u32 (disksize b) = dsz -> cached b v D [] -> (size D < HEAD)%nat ->
  D = ∅ \/ D = list_to_set bl ->
  exists b', install_trans (mklst g b) = Ok (tt, mklst g b') /\
    cached b' (install v (start + 1) bl) ∅ [] /\
    bio_writes b b' (install_writes v (start + 1) bl).
Proof.
  intros Hdev Hst Hgeom Hn He (Hnd & Hl & _ & Hall) Hdz Hc Hsz HD.
  destruct (install_loop g start lsz dsz Hdev Hst Hgeom bl b v D 0) as (b' & Hrun & Hc' & Hw'); try done; try lia.
  - destruct HD as [->| ->]; [left|right].
    + rewrite size_empty. apply Nat.ltb_lt. reflexivity.
    + intros x Hx. by apply elem_of_list_to_set.
  - exists b'. rewrite Z.add_0_r in Hc', Hw'. split; [|split; [|done]].
    + unfold install_trans. mgo. cbn [lg]. by rewrite Hn, Nat2Z.id.
    + destruct HD as [->| ->].
      * by rewrite empty_difference_L in Hc'.
      * by rewrite difference_diag_L in Hc'.
Qed.

Lemma write_log_spec g b v start lsz dsz bl :
  lg_dev g = 1 -> lg_start g = start -> 1 < start /\ 0 < lsz <= LOGSIZE /\ start + lsz <= dsz /\ dsz < 2 ^ 31 ->
  lh_n g = Z.of_nat (length bl) -> entries g 0 bl -> good_blocks start lsz dsz bl ->
  u32 (disksize b) = dsz -> cached b v (list_to_set bl) [] -> (size (list_to_set bl : gset Z) < HEAD)%nat ->
  exists b', write_log (mklst g b) = Ok (tt, mklst g b') /\
    cached b' (logged v (start + 1) bl) (list_to_set bl) [] /\
    bio_writes b b' (log_writes v (start + 1) bl).
Proof.
  intros Hdev Hst Hgeom Hn He (Hnd & Hl & _ & Hall) Hdz Hc Hsz.
  destruct (write_log_loop g start lsz dsz Hdev Hst Hgeom bl b v (list_to_set bl) 0)
    as (b' & Hrun & Hc' & Hw'); [lia|lia|done|done|done|done|done| | |].
  - intros x Hx. by apply elem_of_list_to_set.
  - intros x Hx%elem_of_list_to_set. rewrite Forall_forall in Hall. by apply Hall.
  - exists b'. rewrite Z.add_0_r in Hc', Hw'. split; [|done].
    unfold write_log. mgo. cbn [lg]. by rewrite Hn, Nat2Z.id.
Qed.

Lemma apply_writes_app ws1 ws2 d : apply_writes (ws1 ++ ws2) d = apply_writes ws2 (apply_writes ws1 d).
Proof. apply foldl_app. Qed.

Lemma apply_writes_cons x m ws d : apply_writes ((x, m) :: ws) d = apply_writes ws (<[x := m]> d).
Proof. done. Qed.

(** The writes of an installation that runs to its end, and of the header that
    is cleared after it: every prefix leaves a disk that recovers to [v], and
    all of them leave [v] itself. *)
Lemma ok_install_clear start lsz dsz v d ws m :
  ok_disk start lsz dsz v d ->
  ws.*1 = head_of d start -> (forall x m, (x, m) ∈ ws -> m = v x) ->
  (forall k, ok_disk start lsz dsz v (apply_writes (take k (ws ++ [(start, header m [])])) d)) /\
  (forall y, home start lsz y -> apply_writes ws d y = v y).
Proof.
  intros Hok Hfst Hval.
  assert (Hdone : forall y, home start lsz y -> apply_writes ws d y = v y).
  { intros y Hy. destruct (decide (y ∈ ws.*1)) as [Hin|Hin]; [by apply apply_writes_val|].
    rewrite apply_writes_other by done. destruct Hok as (_ & Hv). rewrite <- (Hv y Hy).
    rewrite recovered_other; [done|]. by rewrite <- Hfst. }
  split; [|done]. intros k. destruct (decide (k <= length ws)%nat) as [Hk|Hk].
  - rewrite take_app_le by done. apply ok_install; [done|]. intros x m' Hin%elem_of_take_in.
    split; [|by apply Hval]. rewrite <- Hfst. apply list_elem_of_fmap. by exists (x, m').
  - rewrite take_ge by (rewrite length_app; cbn; lia). rewrite apply_writes_app.
    change (ok_disk start lsz dsz v (<[start := header m []]> (apply_writes ws d))).
    destruct (ok_install start lsz dsz v d ws Hok) as (Hld & _).
    { intros x m' Hin. split; [|by apply Hval]. rewrite <- Hfst. apply list_elem_of_fmap. by exists (x, m'). }
    apply ok_header; [done| |done|by intros y Hy _; apply Hdone].
    apply good_nil. pose proof (ld_geom _ _ _ _ Hld). lia.
Qed.

(** Installing the header entries of [d], or of a view that agrees with it. *)
Lemma install_entries start lsz dsz v u bl :
  good_blocks start lsz dsz bl ->
  (forall k y, bl !! k = Some y -> u (start + 1 + Z.of_nat k) = v y) ->
  forall x m, (x, m) ∈ install_writes u (start + 1) bl -> m = v x.
Proof.
  intros Hg Hu x m Hin. apply install_writes_in in Hin as (k & Hk & ->); [by apply Hu| |].
  - apply Hg.
  - by eapply good_slots.
Qed.

#[local] Opaque binit readsb read_head install_trans write_head write_log.

(** Recovery of a disk that holds [v]: it returns, leaves [v] on the disk and an
    empty log, and may be interrupted after any of its writes. *)
Lemma recovery start lsz dsz v d n pid :
  ok_disk start lsz dsz v d -> u32 n = dsz ->
  exists r v', reboot d n pid = Ok (tt, r) /\ log_ok start lsz dsz r [] v' [] /\
    (forall y, home start lsz y -> v' y = v y /\ disk (lbio r) y = v y) /\
    lg_lock (lg r) = false /\ lg_committing (lg r) = 0 /\ lg_outstanding (lg r) = 0 /\
    forall k, ok_disk start lsz dsz v (apply_writes (take k (written (lbio r))) d).
Proof.
  intros (Hd & Hv) Hn. pose proof (ld_geom _ _ _ _ Hd) as Hgeom. pose proof (ld_good _ _ _ _ Hd) as Hgood.
  set (bl := head_of d start) in *.
  destruct (binit_spec d n pid) as (b0 & R0 & Hc0 & (D0 & W0 & Z0 & _) & _). cbn in D0, W0, Z0.
  assert (Hzero : (size (∅ : gset Z) < HEAD)%nat) by (apply Nat.ltb_lt; reflexivity).
  assert (Hon : forall x, 0 <= x < dsz -> forall b, disksize b = disksize b0 -> on_disk b x).
  { intros x Hx b E. unfold on_disk. by rewrite E, Z0, Hn. }
  destruct (readsb_spec b0 d ∅ Hc0) as (b1 & R1 & Hc1 & (D1 & W1 & Z1 & _)); [apply Hon; [lia|done]|done|].
  destruct (ld_sb _ _ _ _ Hd) as (Hsb1 & Hsb2).
  set (g1 := set_lg_dev 1 (set_lg_size lsz (set_lg_start start zero_log))).
  destruct (read_head_spec g1 b1 d ∅ start) as (b2 & R2 & Hc2 & (D2 & W2 & Z2 & _));
    [done|done|apply Hon; [lia|done]|lia| |done|done|].
  { split; [apply (ld_head _ _ _ _ Hd)|]. destruct Hgood as (_ & _ & Hl & _). unfold bl, head_of in Hl.
    rewrite head_blocks_length in Hl. lia. }
  fold bl in R2. set (g2 := set_lh_block _ _) in R2.
  destruct (install_trans_spec g2 b2 d ∅ start lsz dsz bl) as (b3 & R3 & Hc3 & (D3 & W3 & Z3 & _));
    [reflexivity|reflexivity|exact Hgeom|reflexivity| |exact Hgood| |exact Hc2|exact Hzero|left; reflexivity|].
  { apply (entries_app g2 bl (drop (length bl) (lh_block g1))). reflexivity. }
  { rewrite Z2, Z1, Z0. exact Hn. }
  destruct (write_head_spec (set_lh_n 0 g2) b3 (install d (start + 1) bl) ∅ start [])
    as (b4 & R4 & Hc4 & (D4 & W4 & Z4 & _));
    [reflexivity|reflexivity|reflexivity|discriminate|apply entries_nil| |lia|exact Hc3|exact Hzero|].
  { apply Hon; [lia|]. rewrite Z3, Z2, Z1. reflexivity. }
  set (m4 := install d (start + 1) bl start) in *.
  set (ws := install_writes d (start + 1) bl) in *.
  assert (Eus : forall x, 0 <= x < 2 ^ 31 -> s32 x = x) by (intros; apply s32_small; lia).
  exists (mklst (set_lh_n 0 g2) b4), (<[start := header m4 []]> (install d (start + 1) bl)).
  assert (Hws : written b4 = ws ++ [(start, header m4 [])]).
  { rewrite W4, W3, W2, W1, W0. done. }
  assert (Hd4 : disk b4 = <[start := header m4 []]> (apply_writes ws d)).
  { by rewrite D4, D3, D2, D1, D0. }
  destruct (ok_install_clear start lsz dsz v d ws m4) as (Hpre & Hdone); [exact (conj Hd Hv)| | |].
  { apply install_writes_fst. }
  { apply (install_entries start lsz dsz v d bl Hgood). intros k y Hk.
    rewrite <- (recovered_at start lsz dsz d k y Hd Hk). apply Hv.
    destruct Hgood as (_ & _ & _ & Hall). rewrite Forall_forall in Hall. apply Hall. by eapply list_elem_of_lookup_2. }
  assert (Hld4 : log_disk start lsz dsz (disk b4)).
  { rewrite Hd4. destruct (Hpre (S (length ws))) as (H4 & _). rewrite take_ge in H4 by (rewrite length_app; cbn; lia).
    rewrite apply_writes_app in H4. exact H4. }
  split_and!.
  - unfold reboot. rewrite R0. cbn [obind]. unfold initlog. change (4 + 4 * LOGSIZE >=? BSIZE) with false.
    unfold onlg. mgo. cbn [set_lg lg]. change (u32 ROOTDEV) with 1.
    mby (bop_ok _ (set_lg_lock false zero_log) _ _ _ R1).
    rewrite Hsb1, Hsb2, (Eus start), (Eus lsz) by lia.
    unfold recover_from_log. mby R2. mby R3. exact R4.
  - clear R0 R1 R2 R3 R4. split; [reflexivity..| |apply entries_nil|apply good_nil; lia| | |exact Hld4|].
    + cbn. rewrite length_app, length_drop, length_replicate.
      destruct Hgood as (_ & _ & Hl & _). unfold LOGSIZE, MAXOPBLOCKS in *. lia.
    + cbn. rewrite Z4, Z3, Z2, Z1, Z0. exact Hn.
    + cbn [lbio list_to_set]. by rewrite empty_difference_L in Hc4.
    + cbn [lbio]. rewrite Hd4. apply head_of_header; [discriminate|by apply Forall_nil].
  - clear R0 R1 R2 R3 R4. intros y Hy. cbn [lbio]. rewrite Hd4.
    assert (Hne : start <> y) by (unfold home in Hy; lia). rewrite !fn_lookup_insert_ne by done.
    split; [apply (Hv y Hy)|apply (Hdone y Hy)].
  - reflexivity.
  - reflexivity.
  - reflexivity.
  - intros k. cbn [lbio]. rewrite Hws. apply Hpre.
Qed.

(** ** Commit *)

Lemma length_log_writes d a bl : length (log_writes d a bl) = length bl.
Proof. revert d a. induction bl as [|x bl IH]; intros d a; [done|]. cbn. by rewrite IH. Qed.

Lemma log_size start lsz dsz bl :
  good_blocks start lsz dsz bl -> lsz <= LOGSIZE -> (size (list_to_set bl : gset Z) < HEAD)%nat.
Proof.
  intros (Hnd & Hl & _ & _) Hs. rewrite size_list_to_set by done.
  unfold HEAD, NBUF, LOGSIZE, MAXOPBLOCKS in *. lia.
Qed.

(** A commit that is not empty, with its writes: the log blocks, the header, the
    home blocks and the empty header. *)
Lemma commit_runs start lsz dsz s bl v :
  log_ok start lsz dsz s bl v [] -> bl <> [] ->
  exists s' v' u w1 h1 w2 h2,
    commit s = Ok (tt, s') /\ log_ok start lsz dsz s' [] v' [] /\
    written (lbio s') = written (lbio s) ++ w1 ++ (start, header h1 bl) :: w2 ++ [(start, header h2 [])] /\
    disk (lbio s') = apply_writes (w1 ++ (start, header h1 bl) :: w2 ++ [(start, header h2 [])]) (disk (lbio s)) /\
    length w1 = length bl /\ (forall y, y ∈ w1.*1 -> start < y < start + lsz) /\
    (forall k y, bl !! k = Some y -> apply_writes w1 (disk (lbio s)) (start + 1 + Z.of_nat k) = v y) /\
    w2 = install_writes u (start + 1) bl /\ (forall k y, bl !! k = Some y -> u (start + 1 + Z.of_nat k) = v y) /\
    (forall y, home start lsz y -> v' y = v y) /\ lg s' = set_lh_n 0 (lg s).
Proof.
  intros Hok Hne. destruct s as [g b]. destruct Hok as [Hdev Hst Hsz Hn Hlen He Hgood Hdz Hc Hld Hh]; cbn in *.
  pose proof (ld_geom _ _ _ _ Hld) as Hgeom. pose proof Hgood as (Hnd & Hl & Hlog & Hall).
  pose proof (log_size _ _ _ _ Hgood ltac:(lia)) as Hsize.
  pose proof (good_slots _ _ _ _ Hgood) as Hslots.
  assert (HD : forall x, x ∈ (list_to_set bl : gset Z) -> home start lsz x).
  { intros x Hx%elem_of_list_to_set. rewrite Forall_forall in Hall. by apply Hall. }
  assert (Hstart : start ∉ (list_to_set bl : gset Z)) by (intros Hx%HD; unfold home in Hx; lia).
  destruct (write_log_spec g b v start lsz dsz bl) as (b1 & R1 & Hc1 & (D1 & W1 & Z1 & _)); try done.
  set (v1 := logged v (start + 1) bl) in *.
  destruct (write_head_spec g b1 v1 (list_to_set bl) start bl) as (b2 & R2 & Hc2 & (D2 & W2 & Z2 & _)); try done.
  { unfold on_disk. rewrite Z1, Hdz. lia. }
  { lia. }
  rewrite (difference_disjoint_L (list_to_set bl) {[start]}) in Hc2 by (apply disjoint_singleton_r; done).
  set (v2 := <[start := header (v1 start) bl]> v1) in *.
  destruct (install_trans_spec g b2 v2 (list_to_set bl) start lsz dsz bl)
    as (b3 & R3 & Hc3 & (D3 & W3 & Z3 & _)); [done|done|done|done|done|done| |done|done|by right|].
  { by rewrite Z2, Z1. }
  set (v3 := install v2 (start + 1) bl) in *.
  destruct (write_head_spec (set_lh_n 0 g) b3 v3 ∅ start []) as (b4 & R4 & Hc4 & (D4 & W4 & Z4 & _)); try done.
  { unfold on_disk. rewrite Z3, Z2, Z1, Hdz. lia. }
  { lia. }
  { rewrite size_empty. apply Nat.ltb_lt. reflexivity. }
  assert (Hu : forall k y, bl !! k = Some y -> v2 (start + 1 + Z.of_nat k) = v y).
  { intros k y Hk. unfold v2. rewrite fn_lookup_insert_ne by lia. by apply logged_at. }
  assert (Hslot1 : forall k y, bl !! k = Some y -> apply_writes (log_writes v (start + 1) bl) (disk b) (start + 1 + Z.of_nat k) = v y).
  { intros k y Hk. rewrite <- D1, (ca_disk _ _ _ _ Hc1); [by apply logged_at|].
    intros Hx%HD. apply lookup_lt_Some in Hk. unfold home in Hx. lia. }
  assert (Hok2 : ok_disk start lsz dsz v (<[start := header (v1 start) bl]> (apply_writes (log_writes v (start + 1) bl) (disk b)))).
  { apply ok_header; [|done|done|].
    - apply (log_disk_same _ _ _ (disk b)); [| |done]; apply apply_writes_other; intros ?%log_writes_slots; lia.
    - intros y Hy Hyb. rewrite <- D1, (ca_disk _ _ _ _ Hc1) by (by rewrite elem_of_list_to_set).
      apply logged_other. unfold home in Hy. lia. }
  destruct (ok_install_clear start lsz dsz v _ (install_writes v2 (start + 1) bl) (v3 start) Hok2) as (Hpre & _).
  { rewrite install_writes_fst. symmetry. apply head_of_header; [done|].
    eapply Forall_impl; [exact Hall|]. intros x (_ & _ & ?). lia. }
  { by eapply install_entries. }
  exists (mklst (set_lh_n 0 g) b4), (<[start := header (v3 start) []]> v3), v2,
    (log_writes v (start + 1) bl), (v1 start), (install_writes v2 (start + 1) bl), (v3 start).
  split_and!; try done.
  - unfold commit. mgo. cbn [lg]. assert (En : (lh_n g >? 0) = true) by (destruct bl; [done|]; cbn in Hn; lia).
    rewrite En. unfold mwhen, onlg.
    mby R1. mby R2. mby R3. exact R4.
  - clear R1 R2 R3 R4. split; cbn [lg lbio]; try done.
    + apply good_nil. lia.
    + by rewrite Z4, Z3, Z2, Z1.
    + rewrite empty_difference_L in Hc4. exact Hc4.
    + rewrite D4, D3, D2, D1. destruct (Hpre (S (length (install_writes v2 (start + 1) bl)))) as (H4 & _).
      rewrite take_ge in H4 by (rewrite length_app; cbn; lia). rewrite apply_writes_app in H4. exact H4.
    + rewrite D4. apply head_of_header; [done|by apply Forall_nil].
  - cbn [lbio]. rewrite W4, W3, W2, W1. by rewrite <- !app_assoc.
  - cbn [lbio]. rewrite D4, D3, D2, D1. by rewrite apply_writes_app, apply_writes_cons, apply_writes_app.
  - apply length_log_writes.
  - intros y Hy%log_writes_slots. lia.
  - intros y Hy. assert (start <> y) by (unfold home in Hy; lia). rewrite fn_lookup_insert_ne by done.
    unfold v3. destruct (decide (y ∈ bl)) as [Hyb|Hyb].
    + apply list_elem_of_lookup in Hyb as (k & Hk). rewrite (install_at v2 _ _ k) by done. by apply Hu.
    + rewrite install_other by done. unfold v2. rewrite fn_lookup_insert_ne by done.
      apply logged_other. unfold home in Hy. lia.
Qed.

(** ** Transactions *)

(** The blocks logged once [x] is logged as well. *)
Definition absorb (x : Z) (bl : list Z) : list Z := if decide (x ∈ bl) then bl else bl ++ [x].

Lemma log_find_in x bl :
  Forall (fun y => 0 <= y < 2 ^ 31) bl -> x ∈ bl -> bl !! log_find x bl = Some x.
Proof.
  induction bl as [|y bl IH]; intros Hall Hin; [by apply elem_of_nil in Hin|].
  apply Forall_cons in Hall as (Hy & Hall). cbn. rewrite u32_small by (unfold is_u32; lia).
  destruct (Z.eqb_spec y x) as [->|Hne]; [done|]. cbn. apply IH; [done|].
  apply list.elem_of_cons in Hin as [->|?]; done.
Qed.

Lemma log_find_notin x bl :
  Forall (fun y => 0 <= y < 2 ^ 31) bl -> x ∉ bl -> log_find x bl = length bl.
Proof.
  induction bl as [|y bl IH]; intros Hall Hin; [done|].
  apply Forall_cons in Hall as (Hy & Hall). apply not_elem_of_cons in Hin as (Hne & Hin).
  cbn. rewrite u32_small by (unfold is_u32; lia). rewrite (proj2 (Z.eqb_neq y x)) by done.
  f_equal. by apply IH.
Qed.

Lemma entries_take g bl : lh_n g = Z.of_nat (length bl) -> entries g 0 bl ->
  take (Z.to_nat (lh_n g)) (lh_block g) = bl.
Proof.
  intros Hn He. rewrite Hn, Nat2Z.id. apply list_eq. intros k. destruct (bl !! k) as [x|] eqn:Ek.
  - rewrite lookup_take_lt by (by eapply lookup_lt_Some). by apply (He k x).
  - apply lookup_ge_None in Ek. by rewrite lookup_take_ge.
Qed.

(** The header after [log_write] of block [x]. *)
Lemma absorb_header g bl x :
  lh_n g = Z.of_nat (length bl) -> entries g 0 bl -> length (lh_block g) = Z.to_nat LOGSIZE ->
  Z.of_nat (length bl) < LOGSIZE -> Forall (fun y => 0 <= y < 2 ^ 31) bl -> 0 <= x < 2 ^ 31 ->
  let i := log_find x bl in
  let g' := set_lh_block (<[i := s32 x]> (lh_block g)) g in
  let g'' := if Z.of_nat i =? lh_n g then set_lh_n (lh_n g' + 1) g' else g' in
  lh_n g'' = Z.of_nat (length (absorb x bl)) /\ entries g'' 0 (absorb x bl) /\
  length (lh_block g'') = Z.to_nat LOGSIZE.
Proof.
  intros Hn He Hlen Hl Hall Hx i g' g''. unfold absorb.
  assert (Hlb : lh_block g'' = <[i := x]> (lh_block g))
    by (unfold g'', g'; rewrite s32_small by lia; by destruct (Z.of_nat i =? lh_n g)).
  assert (Hlen' : length (lh_block g'') = Z.to_nat LOGSIZE) by (by rewrite Hlb, length_insert).
  destruct (decide (x ∈ bl)) as [Hin|Hin].
  - pose proof (log_find_in x bl Hall Hin) as Hi. pose proof (lookup_lt_Some _ _ _ Hi) as Hlt. fold i in Hi, Hlt.
    assert (En : (Z.of_nat i =? lh_n g) = false) by lia. split_and!; [unfold g''; by rewrite En| |done].
    intros k y Hk. rewrite Hlb. destruct (decide (i = k)) as [->|Hne].
    + rewrite Hk in Hi. injection Hi as ->. rewrite list_lookup_insert_eq; [done|]. rewrite Hlen. lia.
    + rewrite list_lookup_insert_ne by (change (Z.to_nat 0 + k)%nat with k; done). by apply He.
  - pose proof (log_find_notin x bl Hall Hin) as Hi. fold i in Hi.
    assert (En : (Z.of_nat i =? lh_n g) = true) by lia.
    split_and!; [unfold g''; rewrite En; cbn; rewrite Hn, length_app; cbn; lia| |done].
    intros k y Hk. rewrite Hlb. change (Z.to_nat 0 + k)%nat with k. rewrite Hi.
    apply lookup_app_Some in Hk as [Hk|(Hge & Hk)].
    + rewrite list_lookup_insert_ne by (apply lookup_lt_Some in Hk; lia). by apply He.
    + destruct (k - length bl)%nat as [|j] eqn:Ej; [|done]. injection Hk as <-.
      replace k with (length bl) by lia. rewrite list_lookup_insert_eq; [done|]. rewrite Hlen. lia.
Qed.

Lemma good_absorb start lsz dsz bl x :
  good_blocks start lsz dsz bl -> Z.of_nat (length bl) < lsz - 1 -> Z.of_nat (length bl) < LOGSIZE ->
  home start lsz x -> x <> 1 -> 0 <= x < dsz -> good_blocks start lsz dsz (absorb x bl).
Proof.
  intros (Hnd & Hl & Hlog & Hall) Hl1 Hl2 Hx Hx1 Hxd. unfold absorb.
  destruct (decide (x ∈ bl)) as [Hin|Hin]; [done|]. unfold good_blocks. rewrite length_app. cbn.
  split_and!; [|lia|lia|].
  - apply NoDup_app. split_and!; [done| |apply NoDup_singleton].
    intros y Hy ->%list_elem_of_singleton. done.
  - apply Forall_app. split; [done|]. by apply Forall_singleton.
Qed.

Lemma absorb_set x bl : (list_to_set (absorb x bl) : gset Z) = {[x]} ∪ list_to_set bl.
Proof.
  unfold absorb. destruct (decide (x ∈ bl)) as [Hin|Hin].
  - symmetry. apply subseteq_union_1_L. intros y ->%elem_of_singleton. by apply elem_of_list_to_set.
  - rewrite list_to_set_app_L. cbn. rewrite (union_comm_L _ (list_to_set bl)). f_equal. by rewrite (union_empty_r_L {[x]}).
Qed.

(** A client changes block [x], in its buffer [i], and logs the change. *)
Lemma log_write_spec start lsz dsz s bl v H i x f :
  log_ok start lsz dsz s bl v H -> (i, x) ∈ H -> lg_lock (lg s) = false -> 1 <= lg_outstanding (lg s) ->
  Z.of_nat (length bl) < lsz - 1 -> home start lsz x -> x <> 1 -> 0 <= x < dsz ->
  exists s1 s2, bop (bput i f) s = Ok (tt, s1) /\ log_write i s1 = Ok (tt, s2) /\
    log_ok start lsz dsz s2 (absorb x bl) (<[x := f (v x)]> v) H /\
    lg_lock (lg s2) = false /\ lg_outstanding (lg s2) = lg_outstanding (lg s) /\
    lg_committing (lg s2) = lg_committing (lg s) /\ same_disk (lbio s) (lbio s2).
Proof.
  intros Hok Hin Hlk Hout Hroom Hx Hx1 Hxd. destruct s as [g b].
  destruct Hok as [Hdev Hst Hsz Hn Hlen He Hgood Hdz Hc Hld Hh]; cbn in *.
  pose proof (ld_geom _ _ _ _ Hld) as Hgeom. pose proof Hgood as (_ & _ & _ & Hall).
  assert (Hall' : Forall (fun y => 0 <= y < 2 ^ 31) bl).
  { eapply Forall_impl; [exact Hall|]. intros y (_ & _ & ?). lia. }
  destruct (held_lookup _ _ _ _ _ _ Hc Hin) as (bf & Hb & Hbok & Hd & Hblk & _ & _ & Hv & Hf).
  destruct (absorb_header g bl x Hn He Hlen ltac:(lia) Hall' ltac:(lia)) as (Hn' & He' & Hlen').
  set (bf1 := set_b_data (f (b_data bf)) bf) in *. pose proof (upd_lookup b i bf1 bf Hb) as Hb1.
  set (bf2 := set_b_flags (Z.lor (b_flags bf1) B_DIRTY) bf1).
  set (g2 := if Z.of_nat (log_find x bl) =? lh_n g then _ else _) in *.
  exists (mklst g (upd i bf1 b)), (mklst g2 (upd i bf2 b)).
  split; [apply (bop_ok _ g _ _ _ (setb_eq b i (fun b => set_b_data (f (b_data b)) b) bf Hb))|].
  assert (Hg2 : lg_lock g2 = false /\ lg_outstanding g2 = lg_outstanding g /\
    lg_committing g2 = lg_committing g /\ lg_dev g2 = 1 /\ lg_start g2 = start /\ lg_size g2 = lsz)
    by (unfold g2; destruct (_ =? _); cbn; done).
  split; [|split; [split; cbn [lg lbio]; try tauto|cbn [lg lbio]; split_and!; tauto || done]].
  - unfold log_write. mgo. cbn [lg].
    assert (E1 : (lh_n g >=? LOGSIZE) || (lh_n g >=? lg_size g - 1) = false) by (rewrite Hn, Hsz; lia).
    assert (E2 : (lg_outstanding g <? 1) = false) by lia. rewrite E1, E2.
    assert (Ea : lacquire (mklst g (upd i bf1 b)) = Ok (tt, mklst (set_lg_lock true g) (upd i bf1 b)))
      by (unfold lacquire, acquire; cbn; by rewrite Hlk).
    mby Ea. mby (bop_ok _ (set_lg_lock true g) _ _ _ (getb_eq _ i bf1 Hb1)).
    rewrite (entries_take g bl Hn He). unfold onlg. mgo. cbn [b_blockno bf1 set_b_data]. rewrite Hblk.
    assert (Eset : forall g', bop (setb i (fun bf => set_b_flags (Z.lor (b_flags bf) B_DIRTY) bf))
      (mklst g' (upd i bf1 b)) = Ok (tt, mklst g' (upd i bf2 b))).
    { intros g'. rewrite (bop_ok _ g' _ _ _ (setb_eq _ i _ bf1 Hb1)). by rewrite upd_upd. }
    unfold g2. destruct (Z.of_nat (log_find x bl) =? lh_n g); unfold mwhen; mgo.
    all: match goal with |- mbind _ _ ?s = _ =>
        change s with (mklst (lg s) (upd i bf1 b)); mby (Eset (lg s)) end;
      unfold lrelease, release; destruct g; cbn in *; by subst.
  - by apply good_absorb; [done|lia|lia|..].
  - rewrite absorb_set. eapply (cached_put b v _ H i x bf (f (v x)) true _ Hc Hin Hb); try done.
    + cbn. unfold bf2, bf1. rewrite Hv. unfold set_b_flags, set_b_data. cbn. rewrite Hf. by destruct (decide _).
    + apply Hc.
Qed.

Lemma log_ok_ctl start lsz dsz g g' b bl v H :
  log_ok start lsz dsz (mklst g b) bl v H ->
  lg_dev g' = lg_dev g -> lg_start g' = lg_start g -> lg_size g' = lg_size g -> lh_n g' = lh_n g ->
  lh_block g' = lh_block g -> log_ok start lsz dsz (mklst g' b) bl v H.
Proof.
  intros [Hdev Hst Hsz Hn Hlen He Hgood Hdz Hc Hld Hh] E1 E2 E3 E4 E5. cbn in *.
  split; cbn; [congruence..| |done|done|done|done|done].
  intros k x Hk. rewrite E5. by apply He.
Qed.

(** [begin_op] admits the operation whenever the reservation fits. *)
Lemma begin_op_eq g b :
  lg_lock g = false -> lg_committing g = 0 ->
  lh_n g + (lg_outstanding g + 1) * MAXOPBLOCKS <= LOGSIZE ->
  begin_op (mklst g b) = Ok (tt, mklst (set_lg_outstanding (lg_outstanding g + 1) g) b).
Proof.
  intros Hlk Hco Hroom. unfold begin_op, lacquire, lrelease, acquire, release, onlg, mbind, mget, mset.
  cbn. rewrite Hlk. cbn. rewrite Hco. cbn.
  assert (E : (lh_n g + (lg_outstanding g + 1) * MAXOPBLOCKS >? LOGSIZE) = false) by lia.
  rewrite E. cbn. destruct g; cbn in *. by subst.
Qed.

Lemma commit_empty g b :
  lh_n g = Z.of_nat (@length Z []) -> commit (mklst (set_lg_committing 1 (set_lg_outstanding 0 g)) b) =
  Ok (tt, mklst (set_lg_committing 1 (set_lg_outstanding 0 g)) b).
Proof. intros Hn. unfold commit. mgo. cbn [lg lh_n set_lg_committing set_lg_outstanding]. by rewrite Hn. Qed.

#[local] Opaque commit.

(** The last [end_op] of a group commits. *)
Lemma end_op_last g b g' b' :
  lg_lock g = false -> lg_committing g = 0 -> lg_outstanding g = 1 ->
  commit (mklst (set_lg_committing 1 (set_lg_outstanding 0 g)) b) = Ok (tt, mklst g' b') ->
  lg_lock g' = false ->
  end_op (mklst g b) = Ok (tt, mklst (set_lg_committing 0 g') b').
Proof.
  intros Hlk Hco Hout Hrun Hlk'. unfold end_op, lacquire, lrelease, acquire, release, onlg, mbind, mget, mset.
  cbn. rewrite Hlk. cbn. rewrite Hout, Hco. cbn. change (1 - 1) with 0. cbn.
  unfold set_lg. cbn. set (g1 := set_lg_lock false _).
  replace g1 with (set_lg_committing 1 (set_lg_outstanding 0 g)) by (destruct g; cbn in *; by subst).
  rewrite Hrun. cbn. rewrite Hlk'. cbn. destruct g'; cbn in *. by subst.
Qed.

(** ** Crashes *)

(** The disks any number of interrupted recoveries can make of [d]: each reboot
    stops after some of its writes. *)
Inductive crashes (n pid : Z) : (Z -> mem) -> (Z -> mem) -> Prop :=
| crash_none d : crashes n pid d d
| crash_again d r k d' :
    reboot d n pid = Ok (tt, r) ->
    crashes n pid (apply_writes (take k (written (lbio r))) d) d' ->
    crashes n pid d d'.

Lemma crashes_ok start lsz dsz v n pid d d' :
  u32 n = dsz -> crashes n pid d d' -> ok_disk start lsz dsz v d -> ok_disk start lsz dsz v d'.
Proof.
  intros Hn Hcr. induction Hcr as [d|d r k d' Hr Hcr IH]; intros Hok; [done|]. apply IH.
  destruct (recovery start lsz dsz v d n pid Hok Hn) as (r' & v' & Hr' & _ & _ & _ & _ & _ & Hpre).
  rewrite Hr in Hr'. injection Hr' as <-. apply Hpre.
Qed.

(** Every prefix of a commit's writes recovers to the old contents or to the new. *)
Lemma commit_prefix start lsz dsz v d w1 h1 bl u h2 k :
  log_disk start lsz dsz d -> head_of d start = [] -> good_blocks start lsz dsz bl ->
  (forall y, home start lsz y -> y ∉ bl -> d y = v y) ->
  length w1 = length bl -> (forall y, y ∈ w1.*1 -> start < y < start + lsz) ->
  (forall j y, bl !! j = Some y -> apply_writes w1 d (start + 1 + Z.of_nat j) = v y) ->
  (forall j y, bl !! j = Some y -> u (start + 1 + Z.of_nat j) = v y) ->
  ok_disk start lsz dsz (if (k <=? length bl)%nat then d else v)
    (apply_writes (take k (w1 ++ (start, header h1 bl) ::
       install_writes u (start + 1) bl ++ [(start, header h2 [])])) d).
Proof.
  intros Hld Hh Hgood Hout Hl1 Hw1 Hslot Hu. pose proof (ld_geom _ _ _ _ Hld) as Hgeom.
  destruct (Nat.leb_spec k (length bl)) as [Hk|Hk].
  - rewrite take_app_le by lia. apply ok_slots; [done|done|done|]. intros y Hy%elem_of_take_fst. by apply Hw1.
  - rewrite take_app_ge, apply_writes_app by lia. destruct (k - length w1)%nat as [|j] eqn:Ej; [lia|]. cbn [take].
    rewrite apply_writes_cons. pose proof Hgood as (_ & _ & Hlog & Hall).
    apply ok_install_clear.
    + apply ok_header; [|done|done|].
      * apply (log_disk_same _ _ _ d); [| |done]; apply apply_writes_other; intros ?%Hw1; lia.
      * intros y Hy Hyb. rewrite apply_writes_other by (intros ?%Hw1; unfold home in Hy; lia). by apply Hout.
    + rewrite install_writes_fst. symmetry. apply head_of_header; [done|].
      eapply Forall_impl; [exact Hall|]. intros x (_ & _ & ?). lia.
    + by eapply install_entries.
Qed.

(** ** The use of the log *)

(** The typical use of [log_write], and a sequence of them. *)
Definition update (x : Z) (f : mem -> mem) : M lst unit :=
  let! b := bop (bread 1 x) in
  bop (bput b f) ;;!
  log_write b ;;!
  bop (brelse b).

Fixpoint updates (xs : list Z) (f : mem -> mem) : M lst unit :=
  match xs with
  | [] => mret tt
  | x :: t => update x f ;;! updates t f
  end.

Lemma log_ok_bread start lsz dsz g b bl v H x :
  log_ok start lsz dsz (mklst g b) bl v H -> x ∉ H.*2 -> 0 <= x < dsz ->
  Z.of_nat (length bl) + Z.of_nat (length H) < NBUF ->
  exists i b', bread 1 x b = Ok (i, b') /\ (i ∉ H.*1) /\
    log_ok start lsz dsz (mklst g b') bl v ((i, x) :: H) /\ same_disk b b'.
Proof.
  intros [Hdev Hst Hsz Hn Hlen He Hgood Hdz Hc Hld Hh] Hx Hxd Hroom. cbn in *.
  destruct (bread_spec b v (list_to_set bl) H x Hc Hx) as (i & b' & Hr & Hi & Hc' & Hs).
  - unfold on_disk. by rewrite Hdz.
  - left. pose proof (size_pins (list_to_set bl) H) as Hp.
    rewrite size_list_to_set in Hp by apply Hgood. unfold HEAD, NBUF, MAXOPBLOCKS in *. lia.
  - exists i, b'. split_and!; try done. pose proof Hs as (E1 & _ & E3 & _).
    split; cbn; rewrite ?E1, ?E3; done.
Qed.

Lemma log_ok_brelse start lsz dsz g b bl v H i x :
  log_ok start lsz dsz (mklst g b) bl v ((i, x) :: H) ->
  exists b', brelse i b = Ok (tt, b') /\ log_ok start lsz dsz (mklst g b') bl v H /\ same_disk b b'.
Proof.
  intros [Hdev Hst Hsz Hn Hlen He Hgood Hdz Hc Hld Hh]. cbn in *.
  destruct (brelse_spec _ _ _ _ _ _ Hc) as (b' & Hr & Hc' & Hs & _). exists b'. split_and!; try done.
  pose proof Hs as (E1 & _ & E3 & _). split; cbn; rewrite ?E1, ?E3; done.
Qed.

(** The state of the log's counters. *)
Definition ctl (s : lst) (out : Z) : Prop :=
  lg_lock (lg s) = false /\ lg_committing (lg s) = 0 /\ lg_outstanding (lg s) = out.

Lemma update_spec start lsz dsz s bl v x f out :
  log_ok start lsz dsz s bl v [] -> ctl s out -> 1 <= out ->
  Z.of_nat (length bl) < lsz - 1 -> home start lsz x -> x <> 1 -> 0 <= x < dsz ->
  exists s', update x f s = Ok (tt, s') /\ log_ok start lsz dsz s' (absorb x bl) (<[x := f (v x)]> v) [] /\
    ctl s' out /\ same_disk (lbio s) (lbio s').
Proof.
  intros Hok (Hlk & Hco & Hout) Hout1 Hroom Hx Hx1 Hxd. destruct s as [g b].
  pose proof (ld_geom _ _ _ _ (lo_disk _ _ _ _ _ _ _ Hok)) as Hgeom.
  destruct (log_ok_bread _ _ _ g b bl v [] x Hok) as (i & b1 & R1 & _ & Hok1 & S1);
    [apply not_elem_of_nil|done|cbn; unfold NBUF, LOGSIZE, MAXOPBLOCKS in *; lia|].
  destruct (log_write_spec _ _ _ _ _ _ _ i x f Hok1) as (s2 & [g3 b3] & R2 & R3 & Hok3 & Hlk3 & Hout3 & Hco3 & S3);
    [left|done|cbn in *; lia|done|done|done|done|].
  destruct (log_ok_brelse _ _ _ _ _ _ _ _ _ _ Hok3) as (b4 & R4 & Hok4 & S4).
  exists (mklst g3 b4). split_and!; [|done|by split_and!; cbn in *; congruence|].
  - unfold update. mby (bop_ok _ g _ _ _ R1). mby R2. mby R3. apply (bop_ok _ _ _ _ _ R4).
  - by apply (same_disk_trans _ b1), (same_disk_trans _ b3).
Qed.

Lemma update_full start lsz dsz s bl v x f out :
  log_ok start lsz dsz s bl v [] -> ctl s out -> lsz <= LOGSIZE ->
  Z.of_nat (length bl) = lsz - 1 -> 0 <= x < dsz ->
  update x f s = Panic "too big a transaction".
Proof.
  intros Hok (Hlk & Hco & Hout) Hls Hfull Hxd. destruct s as [g b].
  destruct (log_ok_bread _ _ _ g b bl v [] x Hok) as (i & b1 & R1 & _ & Hok1 & S1);
    [apply not_elem_of_nil|done|cbn; unfold NBUF, LOGSIZE, MAXOPBLOCKS in *; lia|].
  unfold update. mby (bop_ok _ g _ _ _ R1).
  destruct (lo_cached _ _ _ _ _ _ _ Hok1) as [_ _ _ _ _ _ Hheld _ _].
  destruct (Hheld i x) as (bf & Hb & _); [left|]. cbn in Hb.
  mby (bop_ok _ g _ _ _ (setb_eq b1 i (fun b => set_b_data (f (b_data b)) b) bf Hb)).
  apply mbind_panic. unfold log_write. mgo. cbn [lg].
  pose proof (lo_n _ _ _ _ _ _ _ Hok) as Hn. pose proof (lo_size _ _ _ _ _ _ _ Hok) as Hs. cbn in Hn, Hs.
  assert (E : (lh_n g >=? LOGSIZE) || (lh_n g >=? lg_size g - 1) = true) by (rewrite Hn, Hs, Hfull; lia).
  by rewrite E.
Qed.

Lemma updates_spec start lsz dsz xs f out : forall s bl v,
  log_ok start lsz dsz s bl v [] -> ctl s out -> 1 <= out ->
  NoDup (bl ++ xs) -> Z.of_nat (length (bl ++ xs)) < lsz ->
  Forall (fun x => home start lsz x /\ x <> 1 /\ 0 <= x < dsz) xs ->
  exists s' v', updates xs f s = Ok (tt, s') /\ log_ok start lsz dsz s' (bl ++ xs) v' [] /\ ctl s' out.
Proof.
  induction xs as [|x xs IH]; intros s bl v Hok Hctl Hout Hnd Hlen Hall.
  - exists s, v. by rewrite app_nil_r.
  - apply Forall_cons in Hall as ((Hx & Hx1 & Hxd) & Hall). rewrite length_app in Hlen. cbn in Hlen.
    destruct (update_spec _ _ _ _ _ _ x f out Hok Hctl Hout) as (s1 & R1 & Hok1 & Hctl1 & _); [lia|done..|].
    assert (Habs : absorb x bl = bl ++ [x]).
    { unfold absorb. rewrite decide_False; [done|]. apply NoDup_app in Hnd as (_ & Hd & _). intros Hin.
      apply (Hd x Hin). left. }
    rewrite Habs in Hok1. destruct (IH s1 (bl ++ [x]) _ Hok1 Hctl1 Hout) as (s' & v' & R & Hok' & Hctl').
    + by rewrite <- app_assoc.
    + rewrite !length_app in *. cbn in *. lia.
    + done.
    + exists s', v'. rewrite <- app_assoc in Hok'. split; [|done]. cbn. by mby R1.
Qed.

(** ** Properties *)

(** C1: the commit of the last [end_op] is atomic.  With [bl] the logged blocks
    and [v] the contents the file system sees, [end_op] returns with [v] on the
    disk; and if the machine stops after any number [k] of its block writes, then
    recovery, also after any number of recoveries that were themselves
    interrupted, finds on the disk exactly the old contents when the header was
    not yet written ([k <= length bl]), and exactly [v] when it was. *)
Theorem end_op_crash_atomic start lsz dsz s bl v pid :
  log_ok start lsz dsz s bl v [] -> ctl s 1 ->
  exists s' v' ws,
    end_op s = Ok (tt, s') /\ log_ok start lsz dsz s' [] v' [] /\ ctl s' 0 /\
    (forall y, home start lsz y -> v' y = v y /\ disk (lbio s') y = v y) /\
    written (lbio s') = written (lbio s) ++ ws /\
    forall k d', crashes (disksize (lbio s)) pid (apply_writes (take k ws) (disk (lbio s))) d' ->
      exists r v'', reboot d' (disksize (lbio s)) pid = Ok (tt, r) /\ log_ok start lsz dsz r [] v'' [] /\
        forall y, home start lsz y ->
          disk (lbio r) y = (if (k <=? length bl)%nat then disk (lbio s) else v) y.
Proof.
  intros Hok (Hlk & Hco & Hout). pose proof (lo_dsz _ _ _ _ _ _ _ Hok) as Hdz.
  assert (Hclean : forall y, y ∉ bl -> disk (lbio s) y = v y).
  { intros y Hy. apply (ca_disk _ _ _ _ (lo_cached _ _ _ _ _ _ _ Hok)). by rewrite elem_of_list_to_set. }
  assert (Hafter : forall ws k d', (forall j, ok_disk start lsz dsz (if (j <=? length bl)%nat then disk (lbio s) else v)
      (apply_writes (take j ws) (disk (lbio s)))) ->
    crashes (disksize (lbio s)) pid (apply_writes (take k ws) (disk (lbio s))) d' ->
    exists r v'', reboot d' (disksize (lbio s)) pid = Ok (tt, r) /\ log_ok start lsz dsz r [] v'' [] /\
      forall y, home start lsz y -> disk (lbio r) y = (if (k <=? length bl)%nat then disk (lbio s) else v) y).
  { intros ws k d' Hpre Hcr. eapply crashes_ok in Hcr; [|exact Hdz|exact (Hpre k)].
    destruct (recovery _ _ _ _ _ _ pid Hcr Hdz) as (r & v'' & Hr & Hok' & Hv & _). exists r, v''.
    split_and!; [done|done|]. intros y Hy. by apply Hv. }
  destruct s as [g b]. cbn [lbio lg] in *.
  assert (Hok1 : log_ok start lsz dsz (mklst (set_lg_committing 1 (set_lg_outstanding 0 g)) b) bl v [])
    by (by eapply log_ok_ctl).
  destruct (decide (bl = [])) as [->|Hne].
  - exists (mklst (set_lg_outstanding 0 g) b), v, []. split_and!.
    + rewrite (end_op_last g b _ b Hlk Hco Hout (commit_empty _ _ (lo_n _ _ _ _ _ _ _ Hok)) Hlk).
      destruct g; cbn in *; by subst.
    + by eapply log_ok_ctl.
    + done.
    + intros y Hy. split; [done|]. cbn. apply Hclean, not_elem_of_nil.
    + by rewrite app_nil_r.
    + intros k d'. apply Hafter. intros j. rewrite take_nil. cbn.
      split; [apply (lo_disk _ _ _ _ _ _ _ Hok)|]. intros y Hy.
      pose proof (lo_head _ _ _ _ _ _ _ Hok) as Hh. cbn in Hh.
      rewrite recovered_other by (rewrite Hh; apply not_elem_of_nil).
      destruct (_ <=? _)%nat; [done|]. apply Hclean, not_elem_of_nil.
  - destruct (commit_runs _ _ _ _ _ _ Hok1 Hne) as ([g' b'] & v' & u & w1 & h1 & w2 & h2 & R & Hok' & Hw & Hd & Hl1 & Hs1 & Hslot & -> & Hu & Hv' & Hg').
    cbn [lg lbio] in *. subst g'. eexists _, v', _. split_and!.
    + apply (end_op_last g b _ b' Hlk Hco Hout R). done.
    + by eapply log_ok_ctl.
    + split_and!; done.
    + intros y Hy. split; [by apply Hv'|]. cbn [lbio]. rewrite <- Hv' by done.
      apply (ca_disk _ _ _ _ (lo_cached _ _ _ _ _ _ _ Hok')). apply not_elem_of_empty.
    + exact Hw.
    + intros k d'. apply Hafter. intros j.
      apply (commit_prefix start lsz dsz v (disk b) w1 h1 bl u h2 j); try done.
      * apply (lo_disk _ _ _ _ _ _ _ Hok).
      * apply (lo_head _ _ _ _ _ _ _ Hok).
      * apply (lo_good _ _ _ _ _ _ _ Hok).
      * intros y _. apply Hclean.
Qed.

(** C38: the space [begin_op] reserves is more than the log has.  On an empty log
    of [LOGSIZE] blocks it admits three operations at once, each entitled to
    [MAXOPBLOCKS] blocks; when together they modify their thirty blocks, the last
    [log_write] panics, because one of the blocks of the log is its header. *)
Theorem reservation_overflow start dsz s v xs f :
  log_ok start LOGSIZE dsz s [] v [] -> ctl s 0 ->
  NoDup xs -> Z.of_nat (length xs) = 3 * MAXOPBLOCKS ->
  Forall (fun x => home start LOGSIZE x /\ x <> 1 /\ 0 <= x < dsz) xs ->
  exists s1 s2 s3, begin_op s = Ok (tt, s1) /\ begin_op s1 = Ok (tt, s2) /\ begin_op s2 = Ok (tt, s3) /\
    updates xs f s3 = Panic "too big a transaction".
Proof.
  intros Hok (Hlk & Hco & Hout) Hnd Hlen Hall. destruct s as [g b]. cbn [lg] in *.
  pose proof (lo_n _ _ _ _ _ _ _ Hok) as Hn. cbn in Hn.
  eexists _, _, _. split; [apply begin_op_eq; [done|done|rewrite Hn, Hout; done]|].
  split; [apply begin_op_eq; [done|done|cbn; rewrite Hn, Hout; done]|].
  split; [apply begin_op_eq; [done|done|cbn; rewrite Hn, Hout; done]|]. cbn [lg_outstanding set_lg_outstanding].
  set (s3 := mklst _ _). assert (Hok3 : log_ok start LOGSIZE dsz s3 [] v []) by (by eapply log_ok_ctl).
  assert (Hctl3 : ctl s3 3) by (unfold s3; split_and!; cbn; [done|done|by rewrite Hout]).
  destruct (exists_last (l := xs)) as (ys & x & ->); [by intros ->|].
  rewrite length_app in Hlen. cbn in Hlen. apply Forall_app in Hall as (Hall & Hx). apply Forall_singleton in Hx as (Hx & Hx1 & Hxd).
  apply NoDup_app in Hnd as (Hnd & _ & _).
  destruct (updates_spec start LOGSIZE dsz ys f 3 s3 [] v Hok3 Hctl3) as (s4 & v4 & R4 & Hok4 & Hctl4);
    [lia|done|cbn in *; unfold LOGSIZE, MAXOPBLOCKS in *; lia|done|].
  assert (Happ : forall zs t, updates (zs ++ [x]) f t = mbind (updates zs f) (fun _ => update x f ;;! mret tt) t).
  { induction zs as [|z zs IH]; intros t; [done|]. cbn. unfold mbind.
    destruct (update z f t) as [[[] t']| | | |]; cbn; [|done..]. rewrite IH. done. }
  rewrite Happ. mby R4. apply mbind_panic.
  apply (update_full _ _ _ _ _ _ x f 3 Hok4 Hctl4); [done| |done].
  unfold LOGSIZE, MAXOPBLOCKS in *. cbn in *. lia.
Qed.

(** ** Witnesses *)

(** A disk with an empty log of thirty blocks from block 2 on. *)
Definition blank_disk : Z -> mem :=
  fun x => if x =? 1 then put32 (put32 (fun _ => 0) 12 30) 16 2 else fun _ => 0.

Lemma blank_ok : ok_disk 2 30 1000 blank_disk blank_disk.
Proof.
  split; [split|].
  - unfold LOGSIZE, MAXOPBLOCKS. lia.
  - split; reflexivity.
  - discriminate.
  - apply good_nil. lia.
  - intros y _. apply recovered_other. apply not_elem_of_nil.
Qed.

(** The state in which an operation has changed block 100. *)
Lemma one_update_state :
  exists s v, log_ok 2 30 1000 s [100] v [] /\ ctl s 1 /\ v 100 = (fun _ => 7) /\ disk (lbio s) 100 = (fun _ => 0).
Proof.
  destruct (recovery 2 30 1000 blank_disk blank_disk 1000 1 blank_ok eq_refl)
    as (r & v & _ & Hok & Hv & Hlk & Hco & Hout & _).
  destruct r as [g b]. cbn [lg lbio] in *. pose proof (lo_n _ _ _ _ _ _ _ Hok) as Hn. cbn in Hn.
  set (s1 := mklst (set_lg_outstanding (lg_outstanding g + 1) g) b).
  assert (Hok1 : log_ok 2 30 1000 s1 [] v []) by (by eapply log_ok_ctl).
  assert (Hctl1 : ctl s1 1) by (split_and!; [done|done|cbn; by rewrite Hout]).
  destruct (update_spec 2 30 1000 s1 [] v 100 (fun _ _ => 7) 1 Hok1 Hctl1) as (s2 & _ & Hok2 & Hctl2 & Hs & _);
    [lia|cbn; lia|unfold home; lia|lia|lia|].
  exists s2, (<[100 := fun _ => 7]> v). split_and!; [exact Hok2|exact Hctl2|by rewrite fn_lookup_insert|].
  rewrite Hs. cbn [lbio s1]. by apply (Hv 100); unfold home; lia.
Qed.

Lemma end_op_crash_atomic_witness :
  exists s v s' ws, v 100 = (fun _ => 7) /\ disk (lbio s) 100 = (fun _ => 0) /\ end_op s = Ok (tt, s') /\
    written (lbio s') = written (lbio s) ++ ws /\
    forall k, exists r, reboot (apply_writes (take k ws) (disk (lbio s))) (disksize (lbio s)) 1 = Ok (tt, r) /\
      disk (lbio r) 100 = (if (k <=? 1)%nat then disk (lbio s) else v) 100.
Proof.
  destruct one_update_state as (s & v & Hok & Hctl & Hv & Hd).
  destruct (end_op_crash_atomic 2 30 1000 s [100] v 1 Hok Hctl) as (s' & v' & ws & R & _ & _ & _ & Hw & Hcr).
  exists s, v, s', ws. split; [exact Hv|]. split; [exact Hd|]. split; [exact R|]. split; [exact Hw|].
  intros k. destruct (Hcr k _ (crash_none _ _ _)) as (r & v'' & Hr & _ & Hy). exists r. split; [exact Hr|].
  apply Hy. unfold home. lia.
Defined.

Lemma reservation_overflow_witness :
  exists s s1 s2 s3, begin_op s = Ok (tt, s1) /\ begin_op s1 = Ok (tt, s2) /\ begin_op s2 = Ok (tt, s3) /\
    updates (Z.of_nat <$> seq 100 30) (fun _ _ => 7) s3 = Panic "too big a transaction".
Proof.
  destruct (recovery 2 30 1000 blank_disk blank_disk 1000 1 blank_ok eq_refl)
    as (r & v & _ & Hok & _ & Hlk & Hco & Hout & _).
  exists r. apply (reservation_overflow 2 1000 r v (Z.of_nat <$> seq 100 30) (fun _ _ => 7) Hok).
  - exact (conj Hlk (conj Hco Hout)).
  - apply (NoDup_fmap_2 Z.of_nat). apply NoDup_seq.
  - reflexivity.
  - apply Forall_fmap, Forall_seq. intros j Hj. unfold home, LOGSIZE, MAXOPBLOCKS. cbn. lia.
Defined.
