(* ===== verification/LogDisk.v ===== *)
(** * What the file system relies on: logged blocks

    The interface between the file system and the log.  A client sees a contents
    for every block, the blocks its transaction has logged so far and the buffers
    it is using; the laws say what reading, changing and releasing a block do to
    them.  The instance shows that [bio.c] and [log.c] keep them. *)

From Stdlib Require Import ZArith Lia String.
From stdpp Require Import base numbers gmap sets functions list.
From S2P Require Import Prelude Bytes Params Locks Bio Log.

Local Open Scope Z_scope.
Local Open Scope kernel_scope.

Class LoggedDisk (S : Type) := {
  ld_bread : Z -> Z -> M S nat;
  ld_bdata : nat -> M S mem;
  ld_bput : nat -> (mem -> mem) -> M S unit;
  ld_log_write : nat -> M S unit;
  ld_brelse : nat -> M S unit;

  (** [ld_view s v L H]: the blocks hold [v], [L] are logged, the buffers [H] are in use. *)
  ld_view : S -> (Z -> mem) -> list Z -> list (nat * Z) -> Prop;
  (** An operation has begun. *)
  ld_open : S -> Prop;
  (** The blocks there are, those that can be changed, and how many at once. *)
  ld_size : Z;
  ld_home : Z -> Prop;
  ld_cap : Z;

  ld_sizes : ld_size < 2 ^ 31 /\ 0 <= ld_cap < NBUF;
  ld_home_on : forall x, ld_home x -> 0 <= x < ld_size;
  ld_home_sb : ~ ld_home 1;
  ld_bread_ok s v L H x :
    ld_view s v L H -> x ∉ H.*2 -> 0 <= x < ld_size ->
    Z.of_nat (length L) + Z.of_nat (length H) < NBUF ->
    exists i s', ld_bread 1 x s = Ok (i, s') /\ ld_view s' v L ((i, x) :: H) /\ (ld_open s -> ld_open s');
  ld_bdata_ok s v L H i x :
    ld_view s v L H -> (i, x) ∈ H -> ld_bdata i s = Ok (v x, s);
  ld_update_ok s v L H i x f :
    ld_view s v L H -> ld_open s -> (i, x) ∈ H -> ld_home x -> Z.of_nat (length L) < ld_cap ->
    exists s1 s2, ld_bput i f s = Ok (tt, s1) /\ ld_log_write i s1 = Ok (tt, s2) /\
      ld_view s2 (<[x := f (v x)]> v) (absorb x L) H /\ ld_open s2;
  ld_brelse_ok s v L H i x :
    ld_view s v L ((i, x) :: H) ->
    exists s', ld_brelse i s = Ok (tt, s') /\ ld_view s' v L H /\ (ld_open s -> ld_open s');
  ld_perm s v L H H' : H ≡ₚ H' -> ld_view s v L H -> ld_view s v L H'
}.

(** Operations of one process at a time: between [tx_begin] and [tx_end] the disk is
    open; afterwards nothing is left in the log, and the blocks that can be changed
    and the superblock have the contents they had. *)
Class Transactions (S : Type) {LD : LoggedDisk S} := {
  tx_begin : M S unit;
  tx_end : M S unit;
  tx_idle : S -> Prop;
  tx_begin_ok s v : ld_view s v [] [] -> tx_idle s -> exists s', tx_begin s = Ok (tt, s') /\ ld_view s' v [] [] /\ ld_open s';
  tx_end_ok s v L : ld_view s v L [] -> ld_open s ->
    exists s' v', tx_end s = Ok (tt, s') /\ ld_view s' v' [] [] /\ tx_idle s' /\ forall y, ld_home y \/ y = 1 -> v' y = v y
}.

(** ** The log is a logged disk *)

(** [out] operations are under way. *)
Section Instance.
Variables (start lsz dsz out : Z).
Hypothesis Hgeom : 1 < start /\ 0 < lsz <= LOGSIZE /\ start + lsz <= dsz /\ dsz < 2 ^ 31 /\ 1 <= out.

Definition log_view (s : lst) (v : Z -> mem) (L : list Z) (H : list (nat * Z)) : Prop :=
  log_ok start lsz dsz s L v H /\ lg_lock (lg s) = false /\ lg_committing (lg s) = 0.

Definition log_open (s : lst) : Prop := lg_outstanding (lg s) = out.

Lemma log_bread_ok s v L H x :
  log_view s v L H -> x ∉ H.*2 -> 0 <= x < dsz ->
  Z.of_nat (length L) + Z.of_nat (length H) < NBUF ->
  exists i s', bop (bread 1 x) s = Ok (i, s') /\ log_view s' v L ((i, x) :: H) /\
    (log_open s -> log_open s').
Proof.
  intros (Hok & Hlk & Hco) Hx Hxd Hroom. destruct s as [g b].
  destruct (log_ok_bread _ _ _ g b L v H x Hok Hx Hxd Hroom) as (i & b' & R & _ & Hok' & _).
  exists i, (mklst g b'). split; [by apply bop_ok|]. by split_and!.
Qed.

Lemma log_bdata_ok s v L H i x : log_view s v L H -> (i, x) ∈ H -> bop (bdata i) s = Ok (v x, s).
Proof.
  intros (Hok & _) Hin. destruct s as [g b]. apply bop_ok.
  apply (bdata_eq _ _ _ _ i x (lo_cached _ _ _ _ _ _ _ Hok) Hin).
Qed.

Lemma log_update_ok s v L H i x f :
  log_view s v L H -> log_open s -> (i, x) ∈ H -> home start lsz x /\ x <> 1 /\ 0 <= x < dsz ->
  Z.of_nat (length L) < lsz - 1 ->
  exists s1 s2, bop (bput i f) s = Ok (tt, s1) /\ log_write i s1 = Ok (tt, s2) /\
    log_view s2 (<[x := f (v x)]> v) (absorb x L) H /\ log_open s2.
Proof using Hgeom.
  intros (Hok & Hlk & Hco) Hop Hin (Hx & Hx1 & Hxd) Hroom.
  destruct (log_write_spec _ _ _ _ _ _ _ i x f Hok Hin Hlk ltac:(unfold log_open in Hop; lia) Hroom Hx Hx1 Hxd)
    as (s1 & s2 & R1 & R2 & Hok2 & Hlk2 & Hout2 & Hco2 & _).
  exists s1, s2. split; [done|]. split; [done|]. split.
  - split_and!; [done|done|by rewrite Hco2].
  - unfold log_open in *. by rewrite Hout2.
Qed.

Lemma log_brelse_ok s v L H i x :
  log_view s v L ((i, x) :: H) ->
  exists s', bop (brelse i) s = Ok (tt, s') /\ log_view s' v L H /\ (log_open s -> log_open s').
Proof.
  intros (Hok & Hlk & Hco). destruct s as [g b].
  destruct (log_ok_brelse _ _ _ _ _ _ _ _ _ _ Hok) as (b' & R & Hok' & _).
  exists (mklst g b'). split; [by apply bop_ok|]. by split_and!.
Qed.

Lemma log_perm s v L H H' : H ≡ₚ H' -> log_view s v L H -> log_view s v L H'.
Proof.
  intros Hp ([? ? ? ? ? ? ? ? Hc ? ?] & Hlk & Hco). split; [|done]. split; try done.
  by apply (cached_perm _ _ _ H).
Qed.

Lemma log_sizes : dsz < 2 ^ 31 /\ 0 <= lsz - 1 < NBUF.
Proof using Hgeom. unfold LOGSIZE, NBUF, MAXOPBLOCKS in *. lia. Qed.

#[export] Instance log_disk_instance : LoggedDisk lst := {|
  ld_bread d x := bop (bread d x);
  ld_bdata i := bop (bdata i);
  ld_bput i f := bop (bput i f);
  ld_log_write := log_write;
  ld_brelse i := bop (brelse i);
  ld_view := log_view;
  ld_open := log_open;
  ld_size := dsz;
  ld_home x := home start lsz x /\ x <> 1 /\ 0 <= x < dsz;
  ld_cap := lsz - 1;
  ld_sizes := log_sizes;
  ld_home_on x := fun H => proj2 (proj2 H);
  ld_home_sb := fun H => proj1 (proj2 H) eq_refl;
  ld_bread_ok := log_bread_ok;
  ld_bdata_ok := log_bdata_ok;
  ld_update_ok := log_update_ok;
  ld_brelse_ok := log_brelse_ok;
  ld_perm := log_perm
|}.
End Instance.

(** ** One operation at a time *)

(** [end_op] of the only operation empties the log. *)
Lemma end_op_view start lsz dsz s bl v :
  log_ok start lsz dsz s bl v [] -> ctl s 1 ->
  exists s' v', end_op s = Ok (tt, s') /\ log_ok start lsz dsz s' [] v' [] /\ ctl s' 0 /\
    forall y, home start lsz y -> v' y = v y.
Proof.
  intros Hok (Hlk & Hco & Hout). destruct s as [g b].
  assert (Hok1 : log_ok start lsz dsz (mklst (set_lg_committing 1 (set_lg_outstanding 0 g)) b) bl v [])
    by (by eapply log_ok_ctl).
  destruct (decide (bl = [])) as [->|Hne].
  - exists (mklst (set_lg_outstanding 0 g) b), v. split_and!; [|by eapply log_ok_ctl|done|done].
    rewrite (end_op_last g b _ b Hlk Hco Hout (commit_empty _ _ (lo_n _ _ _ _ _ _ _ Hok)) Hlk).
    destruct g; cbn in *; by subst.
  - destruct (commit_runs _ _ _ _ _ _ Hok1 Hne) as ([g' b'] & v' & u & w1 & h1 & w2 & h2 & R & Hok' & _ & _ & _ & _ & _ & _ & _ & Hv' & Hg').
    cbn [lg lbio] in *. subst g'. eexists _, v'. split_and!; [apply (end_op_last g b _ b' Hlk Hco Hout R); done|by eapply log_ok_ctl|done|done].
Qed.

Section One.
Variables (start lsz dsz : Z).
Hypothesis Hgeom : 1 < start /\ 0 < lsz <= LOGSIZE /\ start + lsz <= dsz /\ dsz < 2 ^ 31 /\ 1 <= 1.

Definition log_idle (s : lst) : Prop := lg_outstanding (lg s) = 0.

Lemma log_begin_ok s v :
  log_view start lsz dsz s v [] [] -> log_idle s ->
  exists s', begin_op s = Ok (tt, s') /\ log_view start lsz dsz s' v [] [] /\ log_open 1 s'.
Proof using.
  intros (Hok & Hlk & Hco) Hid. destruct s as [g b]. unfold log_idle in Hid. cbn [lg] in *.
  pose proof (lo_n _ _ _ _ _ _ _ Hok) as Hn. cbn in Hn. eexists. split.
  { apply begin_op_eq; [done|done|]. unfold LOGSIZE, MAXOPBLOCKS. lia. }
  split; [split; [by eapply log_ok_ctl|done]|]. unfold log_open. cbn. lia.
Qed.

Lemma log_end_ok s v L :
  log_view start lsz dsz s v L [] -> log_open 1 s ->
  exists s' v', end_op s = Ok (tt, s') /\ log_view start lsz dsz s' v' [] [] /\ log_idle s' /\
    forall y, (home start lsz y /\ y <> 1 /\ 0 <= y < dsz) \/ y = 1 -> v' y = v y.
Proof using Hgeom.
  intros (Hok & Hlk & Hco) Ho. destruct (end_op_view _ _ _ _ _ _ Hok ltac:(by split_and!)) as (s' & v' & R & Hok' & (Hlk' & Hco' & Hout') & Hv).
  exists s', v'. split_and!; [done|by split_and!|done|]. intros y [(Hy & _)| ->]; [by apply Hv|]. apply Hv. left. lia.
Qed.

#[export] Instance log_transactions : Transactions lst (LD := log_disk_instance start lsz dsz 1 Hgeom) :=
  Build_Transactions lst (log_disk_instance start lsz dsz 1 Hgeom) begin_op end_op log_idle log_begin_ok log_end_ok.
End One.
