(* ===== verification/Fs.v ===== *)
(** * The file system: [fs.c]

    Blocks, inodes, directories and paths, over the logged disk of [LogDisk].
    This file translates the code; its properties are in [FsBlocks], [FsFile],
    [FsInode], [FsIO], [FsTrunc], [FsDir] and [FsPath].  Inode pointers are indices
    of the inode cache; a user or kernel buffer that is filled or read is a list of
    bytes or a memory starting at 0. *)

From Stdlib Require Import ZArith Lia String.
From stdpp Require Import base numbers functions list.
From S2P Require Import Prelude Bytes Params Locks Bio Log LogDisk.

Local Open Scope Z_scope.
Local Open Scope kernel_scope.

(** ** Data *)

(** [struct inode] of file.h. *)
Record inode := mkinode {
  i_dev : Z;
  i_inum : Z;
  i_ref : Z;
  i_lock : sleeplock;
  i_valid : Z;
  i_type : Z;
  i_major : Z;
  i_minor : Z;
  i_nlink : Z;
  i_size : Z;
  i_addrs : list Z
}.

Definition set_i_dev (v : Z) (s : inode) : inode :=
  mkinode v (i_inum s) (i_ref s) (i_lock s) (i_valid s) (i_type s) (i_major s) (i_minor s)
    (i_nlink s) (i_size s) (i_addrs s).
Definition set_i_inum (v : Z) (s : inode) : inode :=
  mkinode (i_dev s) v (i_ref s) (i_lock s) (i_valid s) (i_type s) (i_major s) (i_minor s)
    (i_nlink s) (i_size s) (i_addrs s).
Definition set_i_ref (v : Z) (s : inode) : inode :=
  mkinode (i_dev s) (i_inum s) v (i_lock s) (i_valid s) (i_type s) (i_major s) (i_minor s)
    (i_nlink s) (i_size s) (i_addrs s).
Definition set_i_lock (v : sleeplock) (s : inode) : inode :=
  mkinode (i_dev s) (i_inum s) (i_ref s) v (i_valid s) (i_type s) (i_major s) (i_minor s)
    (i_nlink s) (i_size s) (i_addrs s).
Definition set_i_valid (v : Z) (s : inode) : inode :=
  mkinode (i_dev s) (i_inum s) (i_ref s) (i_lock s) v (i_type s) (i_major s) (i_minor s) (i_nlink s)
    (i_size s) (i_addrs s).
Definition set_i_type (v : Z) (s : inode) : inode :=
  mkinode (i_dev s) (i_inum s) (i_ref s) (i_lock s) (i_valid s) v (i_major s) (i_minor s)
    (i_nlink s) (i_size s) (i_addrs s).
Definition set_i_major (v : Z) (s : inode) : inode :=
  mkinode (i_dev s) (i_inum s) (i_ref s) (i_lock s) (i_valid s) (i_type s) v (i_minor s) (i_nlink s)
    (i_size s) (i_addrs s).
Definition set_i_minor (v : Z) (s : inode) : inode :=
  mkinode (i_dev s) (i_inum s) (i_ref s) (i_lock s) (i_valid s) (i_type s) (i_major s) v (i_nlink s)
    (i_size s) (i_addrs s).
Definition set_i_nlink (v : Z) (s : inode) : inode :=
  mkinode (i_dev s) (i_inum s) (i_ref s) (i_lock s) (i_valid s) (i_type s) (i_major s) (i_minor s) v
    (i_size s) (i_addrs s).
Definition set_i_size (v : Z) (s : inode) : inode :=
  mkinode (i_dev s) (i_inum s) (i_ref s) (i_lock s) (i_valid s) (i_type s) (i_major s) (i_minor s)
    (i_nlink s) v (i_addrs s).
Definition set_i_addrs (v : list Z) (s : inode) : inode :=
  mkinode (i_dev s) (i_inum s) (i_ref s) (i_lock s) (i_valid s) (i_type s) (i_major s) (i_minor s)
    (i_nlink s) (i_size s) v.

(** The inode cache, the super block, the running process's pid and current
    directory, and the disk. *)
Record fsys (D : Type) := mkfsys {
  ic_lock : bool;
  icache : list inode;
  fsb : superblock;
  fpid : Z;
  fcwd : nat;
  fdisk : D
}.
Arguments mkfsys {D} _ _ _ _ _ _.
Arguments ic_lock {D} _.
Arguments icache {D} _.
Arguments fsb {D} _.
Arguments fpid {D} _.
Arguments fcwd {D} _.
Arguments fdisk {D} _.

Definition set_ic_lock {D : Type} (v : bool) (s : fsys D) : fsys D :=
  mkfsys v (icache s) (fsb s) (fpid s) (fcwd s) (fdisk s).
Definition set_icache {D : Type} (v : list inode) (s : fsys D) : fsys D :=
  mkfsys (ic_lock s) v (fsb s) (fpid s) (fcwd s) (fdisk s).
Definition set_fsb {D : Type} (v : superblock) (s : fsys D) : fsys D :=
  mkfsys (ic_lock s) (icache s) v (fpid s) (fcwd s) (fdisk s).
Definition set_fpid {D : Type} (v : Z) (s : fsys D) : fsys D :=
  mkfsys (ic_lock s) (icache s) (fsb s) v (fcwd s) (fdisk s).
Definition set_fcwd {D : Type} (v : nat) (s : fsys D) : fsys D :=
  mkfsys (ic_lock s) (icache s) (fsb s) (fpid s) v (fdisk s).
Definition set_fdisk {D : Type} (v : D) (s : fsys D) : fsys D :=
  mkfsys (ic_lock s) (icache s) (fsb s) (fpid s) (fcwd s) v.

(** [struct stat]. *)
Record stat := mkstat { st_type : Z; st_dev : Z; st_ino : Z; st_nlink : Z; st_size : Z }.

(** ** Layout *)

Definition IBLOCK (i : Z) (sb : superblock) : Z := u32 (i / IPB + sb_inodestart sb).
Definition BBLOCK (b : Z) (sb : superblock) : Z := u32 (b / BPB + sb_bmapstart sb).

(** [bp->data[bi/8] & (1 << bi%8)], and the two updates of that bit. *)
Definition bit (m : mem) (bi : Z) : Z := Z.land (m (bi / 8)) (Z.shiftl 1 (bi mod 8)).
Definition set_bit (bi : Z) (m : mem) : mem :=
  put8 m (bi / 8) (Z.lor (m (bi / 8)) (Z.shiftl 1 (bi mod 8))).
Definition clear_bit (bi : Z) (m : mem) : mem :=
  put8 m (bi / 8) (Z.land (m (bi / 8)) (Z.lnot (Z.shiftl 1 (bi mod 8)))).

(** [struct dinode], at offset [o] of its block. *)
Definition dinode_off (inum : Z) : Z := DINODE_SIZE * (inum mod IPB).

Fixpoint get_addrs (m : mem) (o : Z) (n : nat) : list Z :=
  match n with
  | O => []
  | S n' => get32 m o :: get_addrs m (o + 4) n'
  end.
Fixpoint put_addrs (m : mem) (o : Z) (l : list Z) : mem :=
  match l with
  | [] => m
  | x :: t => put_addrs (put32 m o x) (o + 4) t
  end.

Definition put_dinode (ip : inode) (o : Z) (m : mem) : mem :=
  put_addrs
    (put32 (put16 (put16 (put16 (put16 m o (i_type ip)) (o + 2) (i_major ip)) (o + 4) (i_minor ip))
              (o + 6) (i_nlink ip)) (o + 8) (i_size ip))
    (o + 12) (i_addrs ip).

Definition get_dinode (o : Z) (m : mem) (ip : inode) : inode :=
  set_i_addrs (get_addrs m (o + 12) (Z.to_nat (NDIRECT + 2)))
    (set_i_size (get32 m (o + 8))
      (set_i_nlink (s16 (get16 m (o + 6)))
        (set_i_minor (s16 (get16 m (o + 4)))
          (set_i_major (s16 (get16 m (o + 2)))
            (set_i_type (s16 (get16 m o)) ip))))).

(** [memmove(bp->data + o, src + p, n)]. *)
Definition put_bytes (m : mem) (o : Z) (src : mem) (p n : Z) : mem :=
  fun x => if (o <=? x) && (x <? o + n) then src (p + (x - o)) else m x.

(** A directory entry, as its sixteen bytes. *)
Definition de_inum (de : list Z) : Z := nth 0 de 0 + 256 * nth 1 de 0.
Definition de_name (de : list Z) : mem := fun i => nth (Z.to_nat (2 + i)) de 0.

(** [strncmp] of two arrays, and [strncpy] of [name] into an array. *)
Fixpoint ncmp (p q : mem) (i : Z) (n : nat) : Z :=
  match n with
  | O => 0
  | S n' => if negb (p i =? 0) && (p i =? q i) then ncmp p q (i + 1) n' else p i - q i
  end.
Definition namecmp (s t : mem) : Z := ncmp s t 0 (Z.to_nat DIRSIZ).

Fixpoint ncpy (t : mem) (i : Z) (n : nat) : list Z :=
  match n with
  | O => []
  | S n' => if t i =? 0 then replicate n 0 else t i :: ncpy t (i + 1) n'
  end.

Definition mk_dirent (inum : Z) (name : mem) : list Z :=
  u8 inum :: u8 (Z.shiftr inum 8) :: ncpy name 0 (Z.to_nat DIRSIZ).

(** The first loop and the second loop of [skipelem], on a path without its
    terminating zero. *)
Fixpoint skip_slashes (path : list Z) : list Z :=
  match path with
  | c :: t => if c =? 47 then skip_slashes t else path
  | [] => []
  end.
Fixpoint take_elem (path : list Z) : list Z * list Z :=
  match path with
  | c :: t => if c =? 47 then ([], path) else let '(e, r) := take_elem t in (c :: e, r)
  | [] => ([], [])
  end.

(** The buffer [name] after the copy of the element [e]. *)
Definition copy_name (e : list Z) (name : mem) : mem :=
  if Z.of_nat (length e) >=? DIRSIZ then
    fun i => if (0 <=? i) && (i <? DIRSIZ) then nth (Z.to_nat i) e 0 else name i
  else
    fun i => if (0 <=? i) && (i <? Z.of_nat (length e)) then nth (Z.to_nat i) e 0
             else if i =? Z.of_nat (length e) then 0 else name i.

Definition skipelem (path : list Z) (name : mem) : option (list Z * mem) :=
  match skip_slashes path with
  | [] => None
  | p => let '(e, r) := take_elem p in Some (skip_slashes r, copy_name e name)
  end.

Section Fs.
Context {D : Type} `{LD : LoggedDisk D}.

Abbreviation F := (M (fsys D)).

(** The device table: [devsw[major].read] and [devsw[major].write]. *)
Variable devsw_read : Z -> option (nat -> Z -> M (fsys D) (Z * list Z)).
Variable devsw_write : Z -> option (nat -> mem -> Z -> M (fsys D) Z).

(** An operation on the disk. *)
Definition dop {A} (m : M D A) : F A :=
  fun s => obind (m (fdisk s)) (fun '(a, d) => Ok (a, set_fdisk d s)).

Definition geti (ip : nat) : F inode :=
  fun s => match icache s !! ip with Some i => Ok (i, s) | None => Undef end.
Definition seti (ip : nat) (f : inode -> inode) : F unit :=
  mset (fun s => set_icache (alter f ip (icache s)) s).

Definition onilock {A} (ip : nat) (m : M sleeplock A) : F A :=
  let! i := geti ip in
  fun s => obind (m (i_lock i))
             (fun '(a, l) => Ok (a, set_icache (alter (set_i_lock l) ip (icache s)) s)).

(** [ip->addrs[k]]. *)
Definition addr (ip : nat) (k : Z) : F Z :=
  let! i := geti ip in
  match i_addrs i !! Z.to_nat k with
  | Some x => mret x
  | None => mundef
  end.
Definition set_addr (ip : nat) (k v : Z) : F unit :=
  seti ip (fun i => set_i_addrs (<[Z.to_nat k := v]> (i_addrs i)) i).

Definition fs_readsb (dev : Z) : F unit :=
  let! bp := dop (ld_bread (u32 dev) 1) in
  let! d := dop (ld_bdata bp) in
  mset (set_fsb (sb_of d)) ;;!
  dop (ld_brelse bp).

(** ** Blocks *)

Definition bzero (dev bno : Z) : F unit :=
  let! bp := dop (ld_bread (u32 dev) (u32 bno)) in
  dop (ld_bput bp (fun m => fill m 0 BSIZE 0)) ;;!
  dop (ld_log_write bp) ;;!
  dop (ld_brelse bp).

(** The inner loop of [balloc]: the first free bit from [bi] on. *)
Fixpoint free_bit (n : nat) (m : mem) (b size bi : Z) : option Z :=
  match n with
  | O => None
  | S n' =>
      if u32 (b + bi) <? size
      then if bit m bi =? 0 then Some bi else free_bit n' m b size (bi + 1)
      else None
  end.

Fixpoint balloc_from (n : nat) (dev b : Z) : F Z :=
  let! sb := mget fsb in
  if negb (b <? sb_size sb) then mpanic "balloc: out of blocks" else
  match n with
  | O => mnofuel
  | S n' =>
      let! bp := dop (ld_bread dev (BBLOCK b sb)) in
      let! d := dop (ld_bdata bp) in
      match free_bit (Z.to_nat BPB) d b (sb_size sb) 0 with
      | Some bi =>
          dop (ld_bput bp (set_bit bi)) ;;!
          dop (ld_log_write bp) ;;!
          dop (ld_brelse bp) ;;!
          bzero dev (b + bi) ;;!
          mret (u32 (b + bi))
      | None =>
          dop (ld_brelse bp) ;;!
          balloc_from n' dev (b + BPB)
      end
  end.

Definition balloc (dev : Z) : F Z :=
  let! sb := mget fsb in
  balloc_from (Z.to_nat (sb_size sb / BPB + 1)) dev 0.

Definition bfree (dev b : Z) : F unit :=
  fs_readsb dev ;;!
  let! sb := mget fsb in
  let! bp := dop (ld_bread (u32 dev) (BBLOCK b sb)) in
  let bi := b mod BPB in
  let! d := dop (ld_bdata bp) in
  if bit d bi =? 0 then mpanic "freeing free block" else
  dop (ld_bput bp (clear_bit bi)) ;;!
  dop (ld_log_write bp) ;;!
  dop (ld_brelse bp).

(** ** Inodes *)

Definition iinit (dev : Z) : F unit :=
  mset (set_ic_lock false) ;;!
  for_ (Z.to_nat NINODE) 0 (fun i => onilock (Z.to_nat i) initsleeplock) ;;!
  fs_readsb dev.

(** The scan of [iget]: the entry of the inode, or the first free entry. *)
Fixpoint iget_scan (l : list inode) (k : nat) (dev inum : Z) (empty : option nat) :
    option nat * option nat :=
  match l with
  | [] => (None, empty)
  | i :: t =>
      if (i_ref i >? 0) && (i_dev i =? dev) && (i_inum i =? inum) then (Some k, empty)
      else iget_scan t (S k) dev inum
             (match empty with None => if i_ref i =? 0 then Some k else None | Some _ => empty end)
  end.

Definition iacquire : F unit := acquire ic_lock set_ic_lock.
Definition irelease : F unit := release ic_lock set_ic_lock.

Definition iget (dev inum : Z) : F nat :=
  iacquire ;;!
  let! l := mget icache in
  match iget_scan l 0 dev inum None with
  | (Some ip, _) =>
      seti ip (fun i => set_i_ref (i_ref i + 1) i) ;;!
      irelease ;;!
      mret ip
  | (None, None) => mpanic "iget: no inodes"
  | (None, Some ip) =>
      seti ip (set_i_dev dev) ;;!
      seti ip (set_i_inum inum) ;;!
      seti ip (set_i_ref 1) ;;!
      seti ip (set_i_valid 0) ;;!
      irelease ;;!
      mret ip
  end.

(** The loop of [ialloc], from inode [inum] on. *)
Fixpoint ialloc_from (n : nat) (dev type inum : Z) : F nat :=
  let! sb := mget fsb in
  if negb (inum <? sb_ninodes sb) then mpanic "ialloc: no inodes" else
  match n with
  | O => mnofuel
  | S n' =>
      let! bp := dop (ld_bread dev (IBLOCK inum sb)) in
      let! d := dop (ld_bdata bp) in
      if s16 (get16 d (dinode_off inum)) =? 0 then
        dop (ld_bput bp (fun m => put16 (fill m (dinode_off inum) DINODE_SIZE 0) (dinode_off inum) type)) ;;!
        dop (ld_log_write bp) ;;!
        dop (ld_brelse bp) ;;!
        iget dev inum
      else
        dop (ld_brelse bp) ;;!
        ialloc_from n' dev type (inum + 1)
  end.

Definition ialloc (dev type : Z) : F nat :=
  let! sb := mget fsb in
  ialloc_from (Z.to_nat (sb_ninodes sb)) dev type 1.

Definition iupdate (ip : nat) : F unit :=
  let! i := geti ip in
  let! sb := mget fsb in
  let! bp := dop (ld_bread (i_dev i) (IBLOCK (i_inum i) sb)) in
  dop (ld_bput bp (put_dinode i (dinode_off (i_inum i)))) ;;!
  dop (ld_log_write bp) ;;!
  dop (ld_brelse bp).

Definition idup (ip : nat) : F nat :=
  iacquire ;;!
  seti ip (fun i => set_i_ref (i_ref i + 1) i) ;;!
  irelease ;;!
  mret ip.

Definition ilock (ip : nat) : F unit :=
  let! i := geti ip in
  if i_ref i <? 1 then mpanic "ilock" else
  let! pid := mget fpid in
  onilock ip (acquiresleep pid) ;;!
  let! i := geti ip in
  mwhen (i_valid i =? 0)
    (let! sb := mget fsb in
     let! bp := dop (ld_bread (i_dev i) (IBLOCK (i_inum i) sb)) in
     let! d := dop (ld_bdata bp) in
     seti ip (get_dinode (dinode_off (i_inum i)) d) ;;!
     dop (ld_brelse bp) ;;!
     seti ip (set_i_valid 1) ;;!
     let! i := geti ip in
     mwhen (i_type i =? 0) (mpanic "ilock: no type")).

Definition iunlock (ip : nat) : F unit :=
  let! pid := mget fpid in
  let! h := onilock ip (holdingsleep pid) in
  let! i := geti ip in
  if negb h || (i_ref i <? 1) then mpanic "iunlock" else
  onilock ip releasesleep.

(** ** Inode contents *)

(** [a[k]] of the block of addresses in buffer [bp], allocated when zero. *)
Definition bmap_slot (dev : Z) (bp : nat) (k : Z) : F Z :=
  let! d := dop (ld_bdata bp) in
  let x := get32 d (4 * k) in
  let! x := (if x =? 0 then
               let! x := balloc dev in
               dop (ld_bput bp (fun m => put32 m (4 * k) x)) ;;!
               dop (ld_log_write bp) ;;!
               mret x
             else mret x) in
  dop (ld_brelse bp) ;;!
  mret x.

(** [ip->addrs[k]], allocated when zero. *)
Definition bmap_addr (ip : nat) (k : Z) : F Z :=
  let! x := addr ip k in
  if x =? 0 then
    let! i := geti ip in
    let! x := balloc (i_dev i) in
    set_addr ip k x ;;!
    mret x
  else mret x.

Definition bmap (ip : nat) (bn : Z) : F Z :=
  let! i := geti ip in
  if bn <? NDIRECT then bmap_addr ip bn else
  let bn := bn - NDIRECT in
  if bn <? NINDIRECT then
    let! x := bmap_addr ip NDIRECT in
    let! bp := dop (ld_bread (i_dev i) x) in
    bmap_slot (i_dev i) bp bn
  else
  let bn := bn - NINDIRECT in
  if bn <? NBDE then
    let! x := bmap_addr ip (NDIRECT + 1) in
    let! bp := dop (ld_bread (i_dev i) x) in
    let! x := bmap_slot (i_dev i) bp (bn / NINDIRECT) in
    let! bp := dop (ld_bread (i_dev i) x) in
    bmap_slot (i_dev i) bp (bn mod NINDIRECT)
  else mpanic "bmap: out of range".

(** [if(a[j]) bfree(dev, a[j])], with [a] the data of buffer [bp]. *)
Definition free_slot (dev : Z) (bp : nat) (j : Z) : F unit :=
  let! d := dop (ld_bdata bp) in
  mwhen (negb (get32 d (4 * j) =? 0)) (bfree dev (get32 d (4 * j))).

(** The body of the loop over the blocks of a doubly-indirect block; [b] is taken
    from [bp], not from [bp_aux]. *)
Definition itrunc_double (dev : Z) (bp : nat) (j : Z) : F unit :=
  let! d := dop (ld_bdata bp) in
  mwhen (negb (get32 d (4 * j) =? 0))
    (let! bp_aux := dop (ld_bread dev (get32 d (4 * j))) in
     for_ (Z.to_nat NINDIRECT) 0 (free_slot dev bp) ;;!
     dop (ld_brelse bp_aux) ;;!
     let! d := dop (ld_bdata bp) in
     bfree dev (get32 d (4 * j)) ;;!
     dop (ld_bput bp (fun m => put32 m (4 * j) 0))).

Definition itrunc (ip : nat) : F unit :=
  let! i := geti ip in
  for_ (Z.to_nat NDIRECT) 0 (fun k =>
    let! x := addr ip k in
    mwhen (negb (x =? 0)) (bfree (i_dev i) x ;;! set_addr ip k 0)) ;;!
  let! x := addr ip NDIRECT in
  mwhen (negb (x =? 0))
    (let! bp := dop (ld_bread (i_dev i) x) in
     for_ (Z.to_nat NINDIRECT) 0 (free_slot (i_dev i) bp) ;;!
     dop (ld_brelse bp) ;;!
     bfree (i_dev i) x ;;!
     set_addr ip NDIRECT 0) ;;!
  let! x := addr ip (NDIRECT + 1) in
  mwhen (negb (x =? 0))
    (let! bp := dop (ld_bread (i_dev i) x) in
     for_ (Z.to_nat NINDIRECT) 0 (itrunc_double (i_dev i) bp) ;;!
     dop (ld_brelse bp) ;;!
     bfree (i_dev i) x ;;!
     set_addr ip (NDIRECT + 1) 0) ;;!
  seti ip (set_i_size 0) ;;!
  iupdate ip.

Definition iput (ip : nat) : F unit :=
  let! pid := mget fpid in
  onilock ip (acquiresleep pid) ;;!
  let! i := geti ip in
  mwhen (negb (i_valid i =? 0) && (i_nlink i =? 0))
    (iacquire ;;!
     let! i := geti ip in
     let r := i_ref i in
     irelease ;;!
     mwhen (r =? 1)
       (itrunc ip ;;!
        seti ip (set_i_type 0) ;;!
        iupdate ip ;;!
        seti ip (set_i_valid 0))) ;;!
  onilock ip releasesleep ;;!
  iacquire ;;!
  seti ip (fun i => set_i_ref (i_ref i - 1) i) ;;!
  irelease.

Definition iunlockput (ip : nat) : F unit :=
  iunlock ip ;;!
  iput ip.

Definition stati (ip : nat) : F stat :=
  let! i := geti ip in
  mret (mkstat (i_type i) (i_dev i) (i_inum i) (i_nlink i) (i_size i)).

(** The loop of [readi], with the bytes copied so far. *)
Fixpoint readi_loop (fuel : nat) (ip : nat) (tot off n : Z) (dst : list Z) : F (list Z) :=
  if negb (tot <? n) then mret dst else
  match fuel with
  | O => mnofuel
  | S fuel' =>
      let! i := geti ip in
      let! x := bmap ip (off / BSIZE) in
      let! bp := dop (ld_bread (i_dev i) x) in
      let m := Z.min (n - tot) (BSIZE - off mod BSIZE) in
      let! d := dop (ld_bdata bp) in
      dop (ld_brelse bp) ;;!
      readi_loop fuel' ip (tot + m) (off + m) n (dst ++ load d (off mod BSIZE) (Z.to_nat m))
  end.

(** Iterations enough for [n] bytes. *)
Definition io_fuel (n : Z) : nat := Z.to_nat (n / BSIZE + 2).

(** The result and the bytes put at [dst]. *)
Definition readi (ip : nat) (off n : Z) : F (Z * list Z) :=
  let! i := geti ip in
  if i_type i =? T_DEV then
    (if (i_major i <? 0) || (i_major i >=? NDEV) then mret (-1, []) else
     match devsw_read (i_major i) with
     | None => mret (-1, [])
     | Some read => read ip n
     end)
  else
  if (off >? i_size i) || (u32 (off + n) <? off) then mret (-1, []) else
  let n := if u32 (off + n) >? i_size i then u32 (i_size i - off) else n in
  let! dst := readi_loop (io_fuel n) ip 0 off n [] in
  mret (s32 n, dst).

Fixpoint writei_loop (fuel : nat) (ip : nat) (src : mem) (tot off n : Z) : F Z :=
  if negb (tot <? n) then mret off else
  match fuel with
  | O => mnofuel
  | S fuel' =>
      let! i := geti ip in
      let! x := bmap ip (off / BSIZE) in
      let! bp := dop (ld_bread (i_dev i) x) in
      let m := Z.min (n - tot) (BSIZE - off mod BSIZE) in
      dop (ld_bput bp (fun d => put_bytes d (off mod BSIZE) src tot m)) ;;!
      dop (ld_log_write bp) ;;!
      dop (ld_brelse bp) ;;!
      writei_loop fuel' ip src (tot + m) (off + m) n
  end.

Definition writei (ip : nat) (src : mem) (off n : Z) : F Z :=
  let! i := geti ip in
  if i_type i =? T_DEV then
    (if (i_major i <? 0) || (i_major i >=? NDEV) then mret (-1) else
     match devsw_write (i_major i) with
     | None => mret (-1)
     | Some write => write ip src n
     end)
  else
  if (off >? i_size i) || (u32 (off + n) <? off) then mret (-1) else
  if u32 (off + n) >? MAXFILE * BSIZE then mret (-1) else
  let! off := writei_loop (io_fuel n) ip src 0 off n in
  let! i := geti ip in
  mwhen ((n >? 0) && (off >? i_size i)) (seti ip (set_i_size off) ;;! iupdate ip) ;;!
  mret (s32 n).

(** ** Directories *)

(** The loop of [dirlookup]: the entry's inode and offset. *)
Fixpoint dirlookup_from (fuel : nat) (dp : nat) (name : mem) (off : Z) : F (option (nat * Z)) :=
  let! i := geti dp in
  if negb (off <? i_size i) then mret None else
  match fuel with
  | O => mnofuel
  | S fuel' =>
      let! (r, de) := readi dp off DIRENT_SIZE in
      if negb (r =? DIRENT_SIZE) then mpanic "dirlookup read" else
      if de_inum de =? 0 then dirlookup_from fuel' dp name (off + DIRENT_SIZE) else
      if namecmp name (de_name de) =? 0 then
        let! ip := iget (i_dev i) (de_inum de) in
        mret (Some (ip, off))
      else dirlookup_from fuel' dp name (off + DIRENT_SIZE)
  end.

Definition dir_fuel (size : Z) : nat := Z.to_nat (size / DIRENT_SIZE + 1).

Definition dirlookup (dp : nat) (name : mem) : F (option (nat * Z)) :=
  let! i := geti dp in
  if negb (i_type i =? T_DIR) then mpanic "dirlookup not DIR" else
  dirlookup_from (dir_fuel (i_size i)) dp name 0.

(** The loop of [dirlink] for an empty entry: its offset. *)
Fixpoint dirlink_from (fuel : nat) (dp : nat) (off : Z) : F Z :=
  let! i := geti dp in
  if negb (off <? i_size i) then mret off else
  match fuel with
  | O => mnofuel
  | S fuel' =>
      let! (r, de) := readi dp off DIRENT_SIZE in
      if negb (r =? DIRENT_SIZE) then mpanic "dirlink read" else
      if de_inum de =? 0 then mret off else dirlink_from fuel' dp (off + DIRENT_SIZE)
  end.

Definition dirlink (dp : nat) (name : mem) (inum : Z) : F Z :=
  let! r := dirlookup dp name in
  match r with
  | Some (ip, _) => iput ip ;;! mret (-1)
  | None =>
      let! i := geti dp in
      let! off := dirlink_from (dir_fuel (i_size i)) dp 0 in
      let! r := writei dp (fun k => nth (Z.to_nat k) (mk_dirent inum name) 0) off DIRENT_SIZE in
      if negb (r =? DIRENT_SIZE) then mpanic "dirlink" else mret 0
  end.

(** ** Paths *)

(** The loop of [namex]: the inode, if any, and the name buffer. *)
Fixpoint namex_loop (fuel : nat) (nameiparent : bool) (ip : nat) (path : list Z) (name : mem) :
    F (option nat * mem) :=
  match skipelem path name with
  | None =>
      if nameiparent then iput ip ;;! mret (None, name) else mret (Some ip, name)
  | Some (path, name) =>
      match fuel with
      | O => mnofuel
      | S fuel' =>
          ilock ip ;;!
          let! i := geti ip in
          if negb (i_type i =? T_DIR) then iunlockput ip ;;! mret (None, name) else
          if nameiparent && (match path with [] => true | _ => false end)
          then iunlock ip ;;! mret (Some ip, name) else
          let! next := dirlookup ip name in
          match next with
          | None => iunlockput ip ;;! mret (None, name)
          | Some (next, _) =>
              iunlockput ip ;;!
              namex_loop fuel' nameiparent next path name
          end
      end
  end.

Definition namex (path : list Z) (nameiparent : bool) (name : mem) : F (option nat * mem) :=
  let! ip := (match path with
              | c :: _ => if c =? 47 then iget ROOTDEV ROOTINO else let! cwd := mget fcwd in idup cwd
              | [] => let! cwd := mget fcwd in idup cwd
              end) in
  namex_loop (length path) nameiparent ip path name.

Definition namei (path : list Z) : F (option nat) :=
  let! (ip, _) := namex path false (fun _ => 0) in mret ip.

Definition nameiparent (path : list Z) (name : mem) : F (option nat * mem) := namex path true name.

End Fs.
