(* ===== verification/FsBlocks.v ===== *)
(** * Disk blocks: [balloc], [bfree] and [bzero] of [fs.c]

    The free map as a set of used blocks, and the allocator's operations as
    changes of that set and of the blocks' contents. *)

From Stdlib Require Import ZArith Lia String.
From stdpp Require Import base numbers functions list.
From S2P Require Import Prelude Bytes Params Locks Bio Log LogDisk Fs.

Local Open Scope Z_scope.
Local Open Scope kernel_scope.

(** The free map says that block [b] is in use. *)
Definition used (v : Z -> mem) (sb : superblock) (b : Z) : bool :=
  negb (bit (v (BBLOCK b sb)) (b mod BPB) =? 0).

(** The contents after [b] has been taken, and after it has been given back. *)
Definition taken (sb : superblock) (b : Z) (v : Z -> mem) : Z -> mem :=
  <[b := fill (v b) 0 BSIZE 0]> (<[BBLOCK b sb := set_bit (b mod BPB) (v (BBLOCK b sb))]> v).
Definition given (sb : superblock) (b : Z) (v : Z -> mem) : Z -> mem :=
  <[BBLOCK b sb := clear_bit (b mod BPB) (v (BBLOCK b sb))]> v.

(** ** Bits of a block *)

Lemma land_pow2 x k : 0 <= k -> (Z.land x (Z.shiftl 1 k) =? 0) = negb (Z.testbit x k).
Proof.
  intros Hk. rewrite Z.shiftl_1_l. destruct (Z.testbit x k) eqn:E; simpl.
  - apply Z.eqb_neq. intros H. assert (Hb : Z.testbit (Z.land x (2 ^ k)) k = true).
    { by rewrite Z.land_spec, E, Z.pow2_bits_true. }
    by rewrite H, Z.bits_0 in Hb.
  - apply Z.eqb_eq. apply Z.bits_inj'. intros n Hn. rewrite Z.land_spec, Z.bits_0.
    destruct (decide (n = k)) as [->|Hne]; [by rewrite E|].
    rewrite Z.pow2_bits_false by done. apply andb_false_r.
Qed.

Lemma testbit_u8 x k : 0 <= k < 8 -> Z.testbit (u8 x) k = Z.testbit x k.
Proof. intros Hk. unfold u8. by rewrite Z.mod_pow2_bits_low by lia. Qed.

Lemma bit_set m i j :
  0 <= i -> 0 <= j -> (bit (set_bit i m) j =? 0) = if decide (i = j) then false else (bit m j =? 0).
Proof.
  intros Hi Hj. unfold bit, set_bit. rewrite !land_pow2 by zlia.
  destruct (decide (j / 8 = i / 8)) as [Hd|Hd].
  - rewrite Hd, put8_eq, testbit_u8 by zlia. rewrite Z.shiftl_1_l, Z.lor_spec.
    destruct (decide (i = j)) as [->|Hne]; [rewrite Z.pow2_bits_true by zlia; by rewrite orb_true_r|].
    rewrite Z.pow2_bits_false by zlia. by rewrite orb_false_r.
  - rewrite put8_ne by done. destruct (decide (i = j)) as [->|Hne]; done.
Qed.

Lemma bit_clear m i j :
  0 <= i -> 0 <= j -> (bit (clear_bit i m) j =? 0) = if decide (i = j) then true else (bit m j =? 0).
Proof.
  intros Hi Hj. unfold bit, clear_bit. rewrite !land_pow2 by zlia.
  destruct (decide (j / 8 = i / 8)) as [Hd|Hd].
  - rewrite Hd, put8_eq, testbit_u8 by zlia. rewrite Z.shiftl_1_l, Z.land_spec, Z.lnot_spec by zlia.
    destruct (decide (i = j)) as [->|Hne]; [rewrite Z.pow2_bits_true by zlia; by rewrite andb_false_r|].
    rewrite Z.pow2_bits_false by zlia. by rewrite andb_true_r.
  - rewrite put8_ne by done. destruct (decide (i = j)) as [->|Hne]; done.
Qed.

(** The inner loop of [balloc] finds the first free bit. *)
Lemma free_bit_spec m b size n bi :
  0 <= b -> 0 <= bi -> b + bi + Z.of_nat n < 2 ^ 32 -> size < 2 ^ 31 ->
  match free_bit n m b size bi with
  | Some j => bi <= j < bi + Z.of_nat n /\ b + j < size /\ (bit m j =? 0) = true /\
              forall k, bi <= k < j -> (bit m k =? 0) = false
  | None => forall k, bi <= k < bi + Z.of_nat n -> b + k < size -> (bit m k =? 0) = false
  end.
Proof.
  revert bi. induction n as [|n IH]; intros bi Hb Hbi Hlim Hsz; cbn [free_bit]; [lia|].
  rewrite u32_small by (unfold is_u32; lia).
  destruct (Z.ltb_spec (b + bi) size) as [Hlt|Hge].
  - destruct (bit m bi =? 0) eqn:Eb.
    + split_and!; lia || done.
    + specialize (IH (bi + 1) Hb ltac:(lia) ltac:(lia) Hsz). destruct (free_bit n m b size (bi + 1)) as [j|].
      * destruct IH as (H1 & H2 & H3 & H4). split_and!; [lia|lia|lia|done|]. intros k Hk.
        destruct (decide (k = bi)) as [->|]; [done|]. apply H4. lia.
      * intros k Hk Hks. destruct (decide (k = bi)) as [->|]; [done|]. apply IH; lia.
  - intros k Hk Hks. lia.
Qed.

Section FsBlocks.
Context {D : Type} `{LD : LoggedDisk D}.

(** ** The layout of the disk *)

(** A block that holds file contents. *)
Definition data_block (sb : superblock) (b : Z) : Prop :=
  ld_home b /\ 0 < b < sb_size sb /\
  (forall c, 0 <= c < sb_size sb -> BBLOCK c sb <> b) /\
  (forall i, 0 <= i < sb_ninodes sb -> IBLOCK i sb <> b).

Record fs_ok (v : Z -> mem) (sb : superblock) : Prop := {
  fo_sb : sb_of (v 1) = sb;
  fo_size : 0 < sb_size sb <= ld_size;
  fo_bmap : forall b, 0 <= b < sb_size sb -> BBLOCK b sb = b / BPB + sb_bmapstart sb /\ ld_home (BBLOCK b sb);
  fo_imap : forall i, 0 <= i < sb_ninodes sb ->
    IBLOCK i sb = i / IPB + sb_inodestart sb /\ 0 < IBLOCK i sb /\ ld_home (IBLOCK i sb) /\
    forall b, 0 <= b < sb_size sb -> BBLOCK b sb <> IBLOCK i sb;
  fo_free : forall b, 0 <= b < sb_size sb -> used v sb b = false -> data_block sb b
}.

(** ** Single steps *)

Lemma dop_ok {A} (m : M D A) (s : fsys D) a d :
  m (fdisk s) = Ok (a, d) -> dop m s = Ok (a, set_fdisk d s).
Proof using. intros E. unfold dop. by rewrite E. Qed.

Lemma set_fdisk_twice (s : fsys D) d d' : set_fdisk d' (set_fdisk d s) = set_fdisk d' s.
Proof using. done. Qed.

Lemma set_fdisk_id (s : fsys D) : set_fdisk (fdisk s) s = s.
Proof using. by destruct s. Qed.

(** Reading the disk and writing one block of it, as the code of this file does:
    take the block, change it, log it, release it. *)
Definition change (dev x : Z) (f : mem -> mem) : M (fsys D) unit :=
  let! bp := dop (ld_bread dev x) in
  dop (ld_bput bp f) ;;!
  dop (ld_log_write bp) ;;!
  dop (ld_brelse bp).

Lemma length_absorb x L : (length (absorb x L) <= S (length L))%nat.
Proof using. unfold absorb. destruct (decide (x ∈ L)); [lia|]. rewrite length_app. simpl. lia. Qed.

(** A buffer taken, changed, logged and released. *)
Lemma change_ok d v L H x f :
  ld_view d v L H -> ld_open d -> x ∉ H.*2 -> ld_home x ->
  Z.of_nat (length L) < ld_cap -> Z.of_nat (length L) + Z.of_nat (length H) < NBUF ->
  exists i d1 d2 d3 d4,
    ld_bread 1 x d = Ok (i, d1) /\ ld_bdata i d1 = Ok (v x, d1) /\ ld_bput i f d1 = Ok (tt, d2) /\
    ld_log_write i d2 = Ok (tt, d3) /\ ld_brelse i d3 = Ok (tt, d4) /\
    ld_view d4 (<[x := f (v x)]> v) (absorb x L) H /\ ld_open d4.
Proof using.
  intros Hv Ho Hx Hh Hcap Hbuf.
  destruct (ld_bread_ok d v L H x Hv Hx (ld_home_on x Hh) Hbuf) as (i & d1 & R1 & Hv1 & Ho1).
  destruct (ld_update_ok d1 v L _ i x f Hv1 (Ho1 Ho) ltac:(left) Hh Hcap) as (d2 & d3 & R2 & R3 & Hv3 & Ho3).
  destruct (ld_brelse_ok _ _ _ _ _ _ Hv3) as (d4 & R4 & Hv4 & Ho4).
  exists i, d1, d2, d3, d4. split_and!; try done; [|auto].
  eapply ld_bdata_ok; [exact Hv1|left].
Qed.

(** A buffer taken, looked at and released. *)
Lemma peek_ok d v L H x :
  ld_view d v L H -> x ∉ H.*2 -> 0 <= x < ld_size ->
  Z.of_nat (length L) + Z.of_nat (length H) < NBUF ->
  exists i d1 d2, ld_bread 1 x d = Ok (i, d1) /\ ld_bdata i d1 = Ok (v x, d1) /\
    ld_brelse i d1 = Ok (tt, d2) /\ ld_view d2 v L H /\ (ld_open d -> ld_open d2).
Proof using.
  intros Hv Hx Hon Hbuf.
  destruct (ld_bread_ok d v L H x Hv Hx Hon Hbuf) as (i & d1 & R1 & Hv1 & Ho1).
  destruct (ld_brelse_ok _ _ _ _ _ _ Hv1) as (d2 & R2 & Hv2 & Ho2).
  exists i, d1, d2. split_and!; try done; [|auto]. eapply ld_bdata_ok; [exact Hv1|left].
Qed.

Lemma bzero_ok s v L H x :
  ld_view (fdisk s) v L H -> ld_open (fdisk s) -> x ∉ H.*2 -> ld_home x ->
  Z.of_nat (length L) < ld_cap -> Z.of_nat (length L) + Z.of_nat (length H) < NBUF ->
  exists d, bzero 1 x s = Ok (tt, set_fdisk d s) /\
    ld_view d (<[x := fill (v x) 0 BSIZE 0]> v) (absorb x L) H /\ ld_open d.
Proof using.
  intros Hv Ho Hx Hh Hcap Hbuf. pose proof (ld_home_on x Hh) as Hon. pose proof ld_sizes.
  destruct (change_ok (fdisk s) v L H x (fun m => fill m 0 BSIZE 0) Hv Ho Hx Hh Hcap Hbuf)
    as (i & d1 & d2 & d3 & d4 & R1 & _ & R2 & R3 & R4 & Hv4 & Ho4).
  exists d4. split; [|done]. unfold bzero. rewrite (u32_small x) by (unfold is_u32; lia). change (u32 1) with 1.
  mby (dop_ok _ s _ _ R1). mby (dop_ok _ (set_fdisk d1 s) _ _ R2). mby (dop_ok _ (set_fdisk d2 s) _ _ R3).
  apply (dop_ok _ (set_fdisk d3 s) _ _ R4).
Qed.

(** ** [balloc] and [bfree] *)

(** Nothing the caller is using is a block of the free map, or free. *)
Definition apart (v : Z -> mem) (sb : superblock) (H : list (nat * Z)) : Prop :=
  Forall (fun x => (forall b, 0 <= b < sb_size sb -> BBLOCK b sb <> x) /\
                   (0 <= x < sb_size sb -> used v sb x = true) /\ x <> 1) H.*2.

Lemma bblock_same sb b bi :
  0 <= bi < BPB -> b mod BPB = 0 -> BBLOCK (b + bi) sb = BBLOCK b sb /\ (b + bi) mod BPB = bi.
Proof using. intros Hbi Hb. unfold BBLOCK. split; [f_equal; f_equal|]; unfold BPB, BSIZE in *; zlia. Qed.

Lemma taken_run s v sb L H b bi :
  fs_ok v sb -> ld_view (fdisk s) v L H -> ld_open (fdisk s) -> apart v sb H ->
  Z.of_nat (length L) + 1 < ld_cap -> Z.of_nat (length L) + 1 + Z.of_nat (length H) < NBUF ->
  0 <= bi < BPB -> 0 <= b -> b mod BPB = 0 -> b + bi < sb_size sb -> used v sb (b + bi) = false ->
  exists i d1 d2 d3 d4 d,
    ld_bread 1 (BBLOCK b sb) (fdisk s) = Ok (i, d1) /\ ld_bdata i d1 = Ok (v (BBLOCK b sb), d1) /\
    ld_bput i (set_bit bi) d1 = Ok (tt, d2) /\ ld_log_write i d2 = Ok (tt, d3) /\
    ld_brelse i d3 = Ok (tt, d4) /\ bzero 1 (b + bi) (set_fdisk d4 s) = Ok (tt, set_fdisk d s) /\
    ld_view d (taken sb (b + bi) v) (absorb (b + bi) (absorb (BBLOCK b sb) L)) H /\ ld_open d.
Proof using.
  intros Hok Hv Ho Hap Hcap Hbuf Hbi Hb Hbm Hlt Hfree. destruct (bblock_same sb b bi Hbi Hbm) as (EB & Em).
  destruct (fo_bmap _ _ Hok b ltac:(lia)) as (_ & HhB).
  destruct (fo_free _ _ Hok (b + bi) ltac:(lia) Hfree) as (Hhb & _ & HnB & _).
  assert (Hin : forall x, x ∈ H.*2 -> BBLOCK b sb <> x /\ b + bi <> x).
  { intros x Hx. unfold apart in Hap. rewrite Forall_forall in Hap. destruct (Hap x Hx) as (H1 & H2 & _).
    split; [apply H1; lia|]. intros <-. rewrite H2 in Hfree by lia. done. }
  destruct (change_ok (fdisk s) v L H (BBLOCK b sb) (set_bit bi) Hv Ho)
    as (i & d1 & d2 & d3 & d4 & R1 & R1' & R2 & R3 & R4 & Hv4 & Ho4); [by intros (? & _)%Hin|done|lia|lia|].
  pose proof (length_absorb (BBLOCK b sb) L) as Hlen.
  destruct (bzero_ok (set_fdisk d4 s) _ _ H (b + bi) Hv4 Ho4) as (d & R5 & Hv5 & Ho5);
    [by intros (_ & ?)%Hin|done|lia|lia|].
  exists i, d1, d2, d3, d4, d. split_and!; try done.
  unfold taken. rewrite EB, Em. rewrite fn_lookup_insert_ne in Hv5; [done|]. rewrite <- EB. apply HnB. lia.
Qed.

Lemma balloc_from_spec sb n : forall s v L H b,
  fs_ok v sb -> fsb s = sb -> ld_view (fdisk s) v L H -> ld_open (fdisk s) -> apart v sb H ->
  Z.of_nat (length L) + 1 < ld_cap -> Z.of_nat (length L) + 1 + Z.of_nat (length H) < NBUF ->
  0 <= b -> b mod BPB = 0 -> sb_size sb <= b + Z.of_nat n * BPB ->
  (forall c, 0 <= c < b -> c < sb_size sb -> used v sb c = true) ->
  (exists x d, balloc_from n 1 b s = Ok (x, set_fdisk d s) /\ b <= x < sb_size sb /\
     used v sb x = false /\ (forall c, 0 <= c < x -> used v sb c = true) /\
     ld_view d (taken sb x v) (absorb x (absorb (BBLOCK x sb) L)) H /\ ld_open d) \/
  (balloc_from n 1 b s = Panic "balloc: out of blocks" /\
   forall c, 0 <= c < sb_size sb -> used v sb c = true).
Proof using.
  induction n as [|n IH]; intros s v L H b Hok Hsb Hv Ho Hap Hcap Hbuf Hb Hbm Hn Hused; cbn [balloc_from]; mgo; rewrite Hsb.
  - right. rewrite (proj2 (Z.ltb_ge b (sb_size sb))) by lia. split; [done|]. intros c Hc. apply Hused; lia.
  - destruct (Z.ltb_spec b (sb_size sb)) as [Hlt|Hge]; cbn [negb].
    2:{ right. split; [done|]. intros c Hc. apply Hused; lia. }
    pose proof (fo_size _ _ Hok) as Hsz. pose proof ld_sizes as Hls.
    pose proof (free_bit_spec (v (BBLOCK b sb)) b (sb_size sb) (Z.to_nat BPB) 0 Hb ltac:(lia)) as Hfb.
    assert (Hbit : forall k, 0 <= k < BPB -> used v sb (b + k) = negb (bit (v (BBLOCK b sb)) k =? 0)).
    { intros k Hk. destruct (bblock_same sb b k Hk Hbm) as (E1 & E2). unfold used. by rewrite E1, E2. }
    destruct (free_bit (Z.to_nat BPB) (v (BBLOCK b sb)) b (sb_size sb) 0) as [bi|] eqn:Efb.
    + destruct Hfb as (Hbi & Hlim & Hz & Hbefore); [unfold BPB, BSIZE; lia|lia|].
      rewrite Z2Nat.id in Hbi by (unfold BPB, BSIZE; lia).
      destruct (taken_run s v sb L H b bi) as (i & d1 & d2 & d3 & d4 & d & R1 & R1' & R2 & R3 & R4 & R5 & Hvd & Hod); try done.
      { rewrite Hbit by lia. by rewrite Hz. }
      left. exists (b + bi), d. destruct (bblock_same sb b bi) as (EB & _); [lia|done|]. rewrite EB. split_and!; try done; try lia.
      * mby (dop_ok _ s _ _ R1). mby (dop_ok _ (set_fdisk d1 s) _ _ R1'). rewrite Efb.
        mby (dop_ok _ (set_fdisk d1 s) _ _ R2). mby (dop_ok _ (set_fdisk d2 s) _ _ R3).
        mby (dop_ok _ (set_fdisk d3 s) _ _ R4). mby R5. unfold mret. by rewrite u32_small by (unfold is_u32; lia).
      * rewrite Hbit by lia. by rewrite Hz.
      * intros c Hc. destruct (Z.lt_ge_cases c b) as [?|?]; [apply Hused; lia|].
        replace c with (b + (c - b)) by lia. rewrite Hbit by lia. by rewrite Hbefore by lia.
    + destruct (fo_bmap _ _ Hok b ltac:(lia)) as (_ & HhB).
      destruct (peek_ok (fdisk s) v L H (BBLOCK b sb) Hv) as (i & d1 & d2 & R1 & R1' & R2 & Hv2 & Ho2);
        [|by apply ld_home_on|lia|].
      { intros Hin. unfold apart in Hap. rewrite Forall_forall in Hap. destruct (Hap _ Hin) as (H1 & _).
        by apply (H1 b ltac:(lia)). }
      mby (dop_ok _ s _ _ R1). mby (dop_ok _ (set_fdisk d1 s) _ _ R1'). rewrite Efb.
      mby (dop_ok _ (set_fdisk d1 s) _ _ R2).
      destruct (IH (set_fdisk d2 s) v L H (b + BPB)) as [(x & d & R & Hx & Hrest)|Hp]; try done; auto.
      * unfold BPB, BSIZE in *. lia.
      * unfold BPB, BSIZE in *. zlia.
      * lia.
      * intros c Hc Hcs. destruct (Z.lt_ge_cases c b) as [?|?]; [apply Hused; lia|].
        replace c with (b + (c - b)) by lia. rewrite Hbit by lia. rewrite Hfb; [done|unfold BPB, BSIZE in *; lia|lia| |lia].
        rewrite Z2Nat.id by (unfold BPB, BSIZE; lia). lia.
      * left. exists x, d. split; [done|]. split; [unfold BPB, BSIZE in *; lia|done].
Qed.

Lemma bblock_inj v sb b c :
  fs_ok v sb -> 0 <= b < sb_size sb -> 0 <= c < sb_size sb ->
  BBLOCK b sb = BBLOCK c sb -> b mod BPB = c mod BPB -> b = c.
Proof using.
  intros Hok Hb Hc. destruct (fo_bmap _ _ Hok b Hb) as (-> & _). destruct (fo_bmap _ _ Hok c Hc) as (-> & _).
  unfold BPB, BSIZE. zlia.
Qed.

Lemma bmod_pos b : 0 <= b mod BPB.
Proof using. apply Z.mod_pos_bound. done. Qed.

Lemma used_taken v sb x c :
  fs_ok v sb -> data_block sb x -> 0 <= c < sb_size sb ->
  used (taken sb x v) sb c = if decide (x = c) then true else used v sb c.
Proof using.
  intros Hok (_ & Hx & HnB & _) Hc. unfold used, taken.
  rewrite (fn_lookup_insert_ne _ x (BBLOCK c sb)) by (intros E; by apply (HnB c Hc)).
  destruct (decide (BBLOCK x sb = BBLOCK c sb)) as [E|E].
  - rewrite E, fn_lookup_insert. rewrite bit_set by apply bmod_pos.
    destruct (decide (x = c)) as [->|Hne]; [by rewrite decide_True|].
    rewrite decide_False; [done|]. intros Em. apply Hne, (bblock_inj v sb); done || lia.
  - rewrite fn_lookup_insert_ne by done. rewrite decide_False; [done|]. by intros ->.
Qed.

Lemma used_given v sb x c :
  fs_ok v sb -> 0 <= x < sb_size sb -> 0 <= c < sb_size sb ->
  used (given sb x v) sb c = if decide (x = c) then false else used v sb c.
Proof using.
  intros Hok Hx Hc. unfold used, given. destruct (decide (BBLOCK x sb = BBLOCK c sb)) as [E|E].
  - rewrite E, fn_lookup_insert. rewrite bit_clear by apply bmod_pos.
    destruct (decide (x = c)) as [->|Hne]; [by rewrite decide_True|].
    rewrite decide_False; [done|]. intros Em. apply Hne, (bblock_inj v sb); done || lia.
  - rewrite fn_lookup_insert_ne by done. rewrite decide_False; [done|]. by intros ->.
Qed.

Lemma fs_ok_taken v sb x : fs_ok v sb -> data_block sb x -> fs_ok (taken sb x v) sb.
Proof using.
  intros Hok Hd. pose proof Hd as (Hhx & Hx & _). destruct (fo_bmap _ _ Hok x ltac:(lia)) as (_ & HhB).
  assert (H1 : taken sb x v 1 = v 1).
  { unfold taken. rewrite !fn_lookup_insert_ne; [done| |]; intros E; apply ld_home_sb; congruence. }
  pose proof Hok as [? ? ? ? Hf]. split; try done; [by rewrite H1|].
  intros b Hb. rewrite used_taken by done. destruct (decide (x = b)) as [->|]; [done|]. by apply Hf.
Qed.

Lemma fs_ok_given v sb x : fs_ok v sb -> data_block sb x -> fs_ok (given sb x v) sb.
Proof using.
  intros Hok Hd. pose proof Hd as (Hhx & Hx & _). destruct (fo_bmap _ _ Hok x ltac:(lia)) as (_ & HhB).
  assert (H1 : given sb x v 1 = v 1).
  { unfold given. rewrite fn_lookup_insert_ne; [done|]. intros E. apply ld_home_sb. congruence. }
  pose proof Hok as [? ? ? ? Hf]. split; try done; [by rewrite H1|].
  intros b Hb. rewrite used_given by (done || lia). destruct (decide (x = b)) as [->|]; [done|]. by apply Hf.
Qed.

(** [balloc] takes the first free block and zeroes it, or panics when there is none. *)
Lemma balloc_spec s v sb L H :
  fs_ok v sb -> fsb s = sb -> ld_view (fdisk s) v L H -> ld_open (fdisk s) -> apart v sb H ->
  Z.of_nat (length L) + 1 < ld_cap -> Z.of_nat (length L) + 1 + Z.of_nat (length H) < NBUF ->
  (exists x d, balloc 1 s = Ok (x, set_fdisk d s) /\ data_block sb x /\
     used v sb x = false /\ (forall c, 0 <= c < x -> used v sb c = true) /\
     ld_view d (taken sb x v) (absorb x (absorb (BBLOCK x sb) L)) H /\ ld_open d /\ fs_ok (taken sb x v) sb) \/
  (balloc 1 s = Panic "balloc: out of blocks" /\ forall c, 0 <= c < sb_size sb -> used v sb c = true).
Proof using.
  intros Hok Hsb Hv Ho Hap Hcap Hbuf. unfold balloc. mgo. rewrite Hsb.
  pose proof (fo_size _ _ Hok) as Hsz. pose proof ld_sizes.
  destruct (balloc_from_spec sb (Z.to_nat (sb_size sb / BPB + 1)) s v L H 0)
    as [(x & d & R & Hx & Hfree & Hleast & Hvd & Hod)|(R & Hall)]; try done; try lia.
  - rewrite Z2Nat.id by (unfold BPB, BSIZE; zlia). unfold BPB, BSIZE. zlia.
  - left. exists x, d. pose proof (fo_free _ _ Hok x ltac:(lia) Hfree) as Hd.
    split_and!; try done. by apply fs_ok_taken.
  - by right.
Qed.

Lemma fs_readsb_ok s v sb L H :
  fs_ok v sb -> ld_view (fdisk s) v L H -> 1 ∉ H.*2 ->
  Z.of_nat (length L) + Z.of_nat (length H) < NBUF -> 1 < ld_size ->
  exists d, fs_readsb 1 s = Ok (tt, set_fdisk d (set_fsb sb s)) /\ ld_view d v L H /\
    (ld_open (fdisk s) -> ld_open d).
Proof using.
  intros Hok Hv H1 Hbuf Hon.
  destruct (peek_ok (fdisk s) v L H 1 Hv H1 ltac:(lia) Hbuf) as (i & d1 & d2 & R1 & R1' & R2 & Hv2 & Ho2).
  exists d2. split; [|done]. unfold fs_readsb. change (u32 1) with 1.
  mby (dop_ok _ s _ _ R1). mby (dop_ok _ (set_fdisk d1 s) _ _ R1'). rewrite (fo_sb _ _ Hok).
  rewrite (dop_ok (ld_brelse i) _ tt d2); [done|]. exact R2.
Qed.

(** Nothing the caller is using is a block of the free map or the superblock. *)
Definition clear (sb : superblock) (H : list (nat * Z)) : Prop :=
  Forall (fun x => (forall b, 0 <= b < sb_size sb -> BBLOCK b sb <> x) /\ x <> 1) H.*2.

Lemma apart_clear v sb H : apart v sb H -> clear sb H.
Proof using. intros Hap. eapply Forall_impl; [exact Hap|]. intros x (H1 & _ & H3). by split. Qed.

(** [bfree] gives a used block back, and panics on a free one. *)
Lemma bfree_spec s v sb L H b :
  fs_ok v sb -> fsb s = sb -> ld_view (fdisk s) v L H -> ld_open (fdisk s) -> clear sb H ->
  Z.of_nat (length L) < ld_cap -> Z.of_nat (length L) + Z.of_nat (length H) < NBUF -> 1 < ld_size ->
  0 <= b < sb_size sb ->
  if used v sb b
  then exists d, bfree 1 b s = Ok (tt, set_fdisk d s) /\
         ld_view d (given sb b v) (absorb (BBLOCK b sb) L) H /\ ld_open d
  else bfree 1 b s = Panic "freeing free block".
Proof using.
  intros Hok Hsb Hv Ho Hap Hcap Hbuf Hon Hb.
  assert (H1 : 1 ∉ H.*2).
  { intros Hin. unfold clear in Hap. rewrite Forall_forall in Hap. by destruct (Hap _ Hin) as (_ & ?). }
  destruct (fs_readsb_ok s v sb L H Hok Hv H1 Hbuf Hon) as (d0 & R0 & Hv0 & Ho0).
  assert (Es : set_fsb sb s = s) by (destruct s; cbn in *; by subst). rewrite Es in R0.
  destruct (fo_bmap _ _ Hok b Hb) as (_ & HhB).
  assert (HB : BBLOCK b sb ∉ H.*2).
  { intros Hin. unfold clear in Hap. rewrite Forall_forall in Hap. destruct (Hap _ Hin) as (Hn & _). by apply (Hn b Hb). }
  destruct (change_ok d0 v L H (BBLOCK b sb) (clear_bit (b mod BPB)) Hv0 (Ho0 Ho) HB HhB Hcap Hbuf)
    as (i & d1 & d2 & d3 & d4 & R1 & R1' & R2 & R3 & R4 & Hv4 & Ho4).
  assert (Hrun : bfree 1 b s = (if bit (v (BBLOCK b sb)) (b mod BPB) =? 0 then mpanic "freeing free block" else
      dop (ld_bput i (clear_bit (b mod BPB))) ;;! dop (ld_log_write i) ;;! dop (ld_brelse i)) (set_fdisk d1 s)).
  { unfold bfree. mby R0. change (fsb (set_fdisk d0 s)) with (fsb s). rewrite Hsb. change (u32 1) with 1.
    mby (dop_ok _ (set_fdisk d0 s) _ _ R1). by mby (dop_ok _ (set_fdisk d1 s) _ _ R1'). }
  unfold used. destruct (bit (v (BBLOCK b sb)) (b mod BPB) =? 0); cbn [negb]; [done|].
  exists d4. split; [|done]. rewrite Hrun. mby (dop_ok _ (set_fdisk d1 s) _ _ R2).
  mby (dop_ok _ (set_fdisk d2 s) _ _ R3). apply (dop_ok _ (set_fdisk d3 s) _ _ R4).
Qed.

(** ** Counting free blocks *)

Definition nfree (v : Z -> mem) (sb : superblock) : nat :=
  length (filter (fun b => used v sb b = false) (seqZ 0 (sb_size sb))).

Lemma filter_length_ext (P Q : Z -> Prop) `{!forall x, Decision (P x), !forall x, Decision (Q x)} l :
  (forall y, y ∈ l -> P y <-> Q y) -> length (filter P l) = length (filter Q l).
Proof using.
  intros Heq. induction l as [|a l IH]; [done|]. rewrite !filter_cons.
  specialize (IH ltac:(intros; apply Heq; by right)).
  destruct (decide (P a)) as [Ha|Ha].
  - rewrite decide_True by (apply Heq; [left|done]). simpl. by rewrite IH.
  - rewrite decide_False; [done|]. rewrite <- Heq by left. done.
Qed.

Lemma filter_length_remove (P Q : Z -> Prop) `{!forall x, Decision (P x), !forall x, Decision (Q x)} x l :
  NoDup l -> x ∈ l -> P x -> ~ Q x -> (forall y, y ∈ l -> y <> x -> Q y <-> P y) ->
  length (filter P l) = S (length (filter Q l)).
Proof using.
  induction l as [|a l IH]; intros Hnd Hx HP HQ Hiff; [by apply elem_of_nil in Hx|].
  apply NoDup_cons in Hnd as (Ha & Hnd). rewrite !filter_cons.
  destruct (decide (a = x)) as [->|Hne].
  - rewrite decide_True, decide_False by done. simpl. f_equal. apply filter_length_ext.
    intros y Hy. symmetry. apply Hiff; [by right|]. by intros ->.
  - apply list.elem_of_cons in Hx as [->|Hx]; [done|].
    assert (IH' : length (filter P l) = S (length (filter Q l))).
    { apply IH; try done. intros y Hy. apply Hiff. by right. }
    destruct (decide (P a)) as [HPa|HPa].
    + rewrite decide_True by (apply Hiff; [left|done|done]). simpl. by rewrite IH'.
    + rewrite decide_False by (rewrite Hiff; [done|left|done]). done.
Qed.

Lemma nfree_taken v sb x :
  fs_ok v sb -> data_block sb x -> used v sb x = false -> nfree v sb = S (nfree (taken sb x v) sb).
Proof using.
  intros Hok Hd Hfree. pose proof Hd as (_ & Hx & _). unfold nfree.
  apply (filter_length_remove _ _ x); [apply NoDup_seqZ|rewrite elem_of_seqZ; lia|done| |].
  - rewrite used_taken, decide_True by (done || lia). done.
  - intros y Hy%elem_of_seqZ Hne. rewrite used_taken, decide_False by (done || lia). done.
Qed.

Lemma nfree_ext v v' sb :
  (forall c, 0 <= c < sb_size sb -> used v' sb c = used v sb c) -> nfree v' sb = nfree v sb.
Proof using.
  intros H. apply filter_length_ext. intros y Hy%elem_of_seqZ. rewrite H by lia. done.
Qed.

(** With a free block left, [balloc] returns one. *)
Lemma balloc_ok s v sb L H :
  fs_ok v sb -> fsb s = sb -> ld_view (fdisk s) v L H -> ld_open (fdisk s) -> apart v sb H ->
  Z.of_nat (length L) + 1 < ld_cap -> Z.of_nat (length L) + 1 + Z.of_nat (length H) < NBUF ->
  (0 < nfree v sb)%nat ->
  exists x d, balloc 1 s = Ok (x, set_fdisk d s) /\ data_block sb x /\ used v sb x = false /\
     ld_view d (taken sb x v) (absorb x (absorb (BBLOCK x sb) L)) H /\ ld_open d /\ fs_ok (taken sb x v) sb.
Proof using.
  intros Hok Hsb Hv Ho Hap Hcap Hbuf Hn.
  destruct (balloc_spec s v sb L H Hok Hsb Hv Ho Hap Hcap Hbuf) as [(x & d & ? & ? & ? & ? & ? & ? & ?)|(_ & Hall)].
  - by exists x, d.
  - exfalso. assert (E : nfree v sb = 0%nat); [|lia]. unfold nfree.
    assert (Hl : forall l, (forall y, y ∈ l -> used v sb y = true) ->
      length (filter (fun b => used v sb b = false) l) = 0%nat).
    { induction l as [|a l IH]; intros Hl; [done|]. rewrite filter_cons, decide_False by (rewrite Hl; [done|left]).
      apply IH. intros y Hy. apply Hl. by right. }
    apply Hl. intros y Hy%elem_of_seqZ. apply Hall. lia.
Qed.

(** the block allocator.  On a well-formed disk [balloc] returns the first
    block that is free, marks exactly that block used and fills it with zeros, or
    panics when every block is used; it never returns a block of the super block,
    the log, the inodes or the free map.  [bfree] of that block then succeeds and
    restores the free map, and a second [bfree] of it panics. *)
Theorem block_allocator s v sb L :
  fs_ok v sb -> fsb s = sb -> ld_view (fdisk s) v L [] -> ld_open (fdisk s) ->
  Z.of_nat (length L) + 3 < ld_cap ->
  (balloc 1 s = Panic "balloc: out of blocks" /\ forall c, 0 <= c < sb_size sb -> used v sb c = true) \/
  exists x v1 d1 L1,
    balloc 1 s = Ok (x, set_fdisk d1 s) /\ ld_view d1 v1 L1 [] /\ fs_ok v1 sb /\
    data_block sb x /\ used v sb x = false /\ (forall c, 0 <= c < x -> used v sb c = true) /\
    (forall c, 0 <= c < sb_size sb -> used v1 sb c = if decide (x = c) then true else used v sb c) /\
    (forall a, 0 <= a < BSIZE -> v1 x a = 0) /\
    (forall y, y <> x -> y <> BBLOCK x sb -> v1 y = v y) /\
    exists v2 d2 L2,
      bfree 1 x (set_fdisk d1 s) = Ok (tt, set_fdisk d2 s) /\ ld_view d2 v2 L2 [] /\ fs_ok v2 sb /\
      (forall c, 0 <= c < sb_size sb -> used v2 sb c = used v sb c) /\
      bfree 1 x (set_fdisk d2 s) = Panic "freeing free block".
Proof using.
  intros Hok Hsb Hv Ho Hcap. pose proof ld_sizes as Hls.
  assert (Hap : forall v', apart v' sb []) by (intros v'; apply Forall_nil; done).
  destruct (balloc_spec s v sb L [] Hok Hsb Hv Ho (Hap v)) as [(x & d1 & R & Hd & Hfree & Hleast & Hv1 & Ho1 & Hok1)|Hp];
    [lia|cbn; lia| |by left]. right.
  pose proof Hd as (Hhx & Hx & HnB & _). pose proof (ld_home_on _ Hhx) as Honx.
  pose proof (length_absorb x (absorb (BBLOCK x sb) L)). pose proof (length_absorb (BBLOCK x sb) L).
  pose proof (bfree_spec (set_fdisk d1 s) _ sb _ [] x Hok1 Hsb Hv1 Ho1 (apart_clear _ _ _ (Hap (taken sb x v)))) as Hbf.
  rewrite used_taken, decide_True in Hbf by (done || lia).
  destruct Hbf as (d2 & R2 & Hv2 & Ho2); [lia|cbn; lia|lia|lia|].
  pose proof (fs_ok_given _ _ x Hok1 Hd) as Hok2.
  pose proof (length_absorb (BBLOCK x sb) (absorb x (absorb (BBLOCK x sb) L))).
  pose proof (bfree_spec (set_fdisk d2 s) _ sb _ [] x Hok2 Hsb Hv2 Ho2 (apart_clear _ _ _ (Hap v))) as Hbf.
  rewrite used_given, decide_True in Hbf by (done || lia).
  exists x, (taken sb x v), d1, (absorb x (absorb (BBLOCK x sb) L)). split_and!; try done.
  - intros c Hc. by apply used_taken.
  - intros a Ha. unfold taken. rewrite fn_lookup_insert. by apply fill_in.
  - intros y Hyx HyB. unfold taken. by rewrite !fn_lookup_insert_ne by congruence.
  - eexists _, d2, _. split_and!; [exact R2|exact Hv2|exact Hok2| |apply Hbf; cbn; lia].
    intros c Hc. rewrite used_given by (done || lia). rewrite used_taken by done.
    destruct (decide (x = c)) as [<-|]; done.
Qed.

End FsBlocks.

(** ** A small disk

    A hundred blocks: the log in blocks 2 to 31, sixteen inodes in blocks 32 and
    33, the free map in block 35, and the root directory, inode 1, with its entries
    [.] and [..] in block 36. *)

Definition mini_sb : superblock := mksb 100 64 16 30 2 32 35.

Definition mini_root : inode := mkinode 1 1 0 sl_free 0 T_DIR 0 0 1 32 (36 :: replicate 12 0).

Definition mini_disk : Z -> mem :=
  fun x =>
    if x =? 1 then
      put32 (put32 (put32 (put32 (put32 (put32 (put32 (fun _ => 0) 0 100) 4 64) 8 16) 12 30) 16 2) 20 32) 24 35
    else if x =? 32 then put_dinode mini_root 64 (fun _ => 0)
    else if x =? 35 then store (fun _ => 0) 0 [255; 255; 255; 255; 31]
    else if x =? 36 then store (fun _ => 0) 0 [1; 0; 46; 0; 0; 0; 0; 0; 0; 0; 0; 0; 0; 0; 0; 0; 1; 0; 46; 46]
    else fun _ => 0.

Lemma mini_geom : 1 < 2 /\ 0 < 30 <= LOGSIZE /\ 2 + 30 <= 100 /\ 100 < 2 ^ 31 /\ 1 <= 1.
Proof. unfold LOGSIZE, MAXOPBLOCKS. lia. Qed.

Definition mini_ld : LoggedDisk lst := log_disk_instance 2 30 100 1 mini_geom.
Definition mini_tx : Transactions lst (LD := mini_ld) := log_transactions 2 30 100 mini_geom.

(** Another disk with the same superblock and an empty log. *)
Definition mini_like (d : Z -> mem) : Prop := d 1 = mini_disk 1 /\ d 2 = mini_disk 2.

Lemma mini_log_ok d : mini_like d -> ok_disk 2 30 100 d d.
Proof.
  intros (H1 & H2). assert (Eh : head_of d 2 = []) by (unfold head_of; by rewrite H2).
  split; [split|].
  - split_and!; apply mini_geom.
  - rewrite H1. split; reflexivity.
  - rewrite H2. discriminate.
  - rewrite Eh. apply good_nil. lia.
  - intros y _. apply recovered_other. rewrite Eh. apply not_elem_of_nil.
Qed.

(** A fresh file system on that disk, inside an operation. *)
Lemma mini_state_on d :
  mini_like d ->
  exists (s : fsys lst) v, ld_view (LoggedDisk := mini_ld) (fdisk s) v [] [] /\
    ld_open (LoggedDisk := mini_ld) (fdisk s) /\ fsb s = mini_sb /\ icache s = replicate (Z.to_nat NINODE) (mkinode 0 0 0 sl_free 0 0 0 0 0 0 []) /\
    ic_lock s = false /\ forall y, y < 2 \/ 32 <= y -> v y = d y.
Proof.
  intros Hd. destruct (recovery 2 30 100 d d 100 1 (mini_log_ok d Hd) eq_refl)
    as (r & v & _ & Hok & Hv & Hlk & Hco & Hout & _).
  destruct r as [g b]. cbn [lg lbio] in *.
  exists (mkfsys false (replicate (Z.to_nat NINODE) (mkinode 0 0 0 sl_free 0 0 0 0 0 0 [])) mini_sb 1 0%nat
    (mklst (set_lg_outstanding (lg_outstanding g + 1) g) b)), v.
  split_and!; [|unfold ld_open; cbn; unfold log_open; cbn; lia|done|done|done|].
  - split_and!; [|done|done]. by eapply log_ok_ctl.
  - intros y Hy. apply Hv. unfold home. lia.
Qed.

(** A property of all blocks below a hundred, by evaluation. *)
Lemma all_below (P : Z -> bool) n :
  forallb (fun k => P (Z.of_nat k)) (seq 0 n) = true -> forall b, 0 <= b < Z.of_nat n -> P b = true.
Proof.
  intros H b Hb. rewrite forallb_forall in H. specialize (H (Z.to_nat b)). rewrite Z2Nat.id in H by lia.
  apply H. apply in_seq. lia.
Qed.

Lemma mini_state :
  exists (s : fsys lst) v, ld_view (LoggedDisk := mini_ld) (fdisk s) v [] [] /\
    ld_open (LoggedDisk := mini_ld) (fdisk s) /\ fsb s = mini_sb /\ icache s = replicate (Z.to_nat NINODE) (mkinode 0 0 0 sl_free 0 0 0 0 0 0 []) /\
    ic_lock s = false /\ forall y, y < 2 \/ 32 <= y -> v y = mini_disk y.
Proof. by apply mini_state_on. Qed.

Lemma mini_bblock b : 0 <= b < 100 -> BBLOCK b mini_sb = 35.
Proof. intros Hb. unfold BBLOCK. replace (b / BPB) with 0 by (unfold BPB, BSIZE; zlia). reflexivity. Qed.

Lemma mini_iblock i : 0 <= i < 16 -> IBLOCK i mini_sb = i / 8 + 32.
Proof. intros Hi. unfold IBLOCK. change IPB with 8. cbn. apply u32_small. unfold is_u32. zlia. Qed.

(** The blocks after the root directory's are for data. *)
Lemma mini_data b : 36 <= b < 100 -> data_block (LD := mini_ld) mini_sb b.
Proof.
  intros Hb. split_and!; [cbn; unfold home; lia..| |].
  - intros c Hc. cbn in Hc. rewrite mini_bblock by done. lia.
  - intros i Hi. cbn in Hi. rewrite mini_iblock by done. zlia.
Qed.

Lemma mini_fs_ok_on v :
  v 1 = mini_disk 1 -> (forall b, 0 <= b < 100 -> used v mini_sb b = false -> 36 <= b) ->
  fs_ok (LD := mini_ld) v mini_sb.
Proof.
  intros H1 Hu. split.
  - rewrite H1. reflexivity.
  - cbn. lia.
  - intros b Hb. cbn in Hb. rewrite mini_bblock by done. split; [unfold BPB, BSIZE; cbn; zlia|]. cbn. unfold home. lia.
  - intros i Hi. cbn in Hi. rewrite mini_iblock by done. split; [done|]. split; [zlia|]. split; [cbn; unfold home; zlia|].
    intros b Hb. cbn in Hb. rewrite mini_bblock by done. zlia.
  - intros b Hb Hfree. cbn in Hb. apply mini_data. specialize (Hu b Hb Hfree). lia.
Qed.

(** Which blocks a free map has in use, by evaluation. *)
Lemma mini_used v m (n : Z) :
  v 35 = m -> forallb (fun k => negb (bit m (Z.of_nat k mod BPB) =? 0) || (n <=? Z.of_nat k)) (seq 0 100) = true ->
  forall b, 0 <= b < 100 -> used v mini_sb b = false -> n <= b.
Proof.
  intros Hm Hall b Hb Hfree. unfold used in Hfree. rewrite mini_bblock, Hm in Hfree by lia.
  pose proof (all_below (fun b => negb (bit m (b mod BPB) =? 0) || (n <=? b)) 100 Hall b ltac:(lia)) as H.
  cbv beta in H. rewrite Hfree in H. cbn [orb] in H. lia.
Qed.

Lemma mini_fs_ok v :
  (forall y, y < 2 \/ 32 <= y -> v y = mini_disk y) -> fs_ok (LD := mini_ld) v mini_sb.
Proof.
  intros Hv. apply mini_fs_ok_on; [apply Hv; lia|]. eapply mini_used; [apply Hv; lia|]. by vm_compute.
Qed.

Lemma block_allocator_witness :
  exists (s : fsys lst) x d1 d2, balloc (LD := mini_ld) 1 s = Ok (x, set_fdisk d1 s) /\ 
    bfree (LD := mini_ld) 1 x (set_fdisk d1 s) = Ok (tt, set_fdisk d2 s) /\
    bfree (LD := mini_ld) 1 x (set_fdisk d2 s) = Panic "freeing free block".
Proof.
  destruct mini_state as (s & v & Hv & Ho & Hsb & _ & _ & Hvd). pose proof (mini_fs_ok v Hvd) as Hok.
  destruct (block_allocator (LD := mini_ld) s v mini_sb [] Hok Hsb Hv Ho) as [(_ & Hall)|Hx].
  - reflexivity.
  - exfalso. specialize (Hall 40). unfold used in Hall. change (BBLOCK 40 mini_sb) with 35 in Hall.
    rewrite Hvd in Hall by lia. assert (E : negb (bit (mini_disk 35) (40 mod BPB) =? 0) = false) by reflexivity.
    rewrite E in Hall. discriminate Hall. cbn. lia.
  - destruct Hx as (x & v1 & d1 & L1 & R & _ & _ & _ & _ & _ & _ & _ & _ & v2 & d2 & L2 & R2 & _ & _ & _ & R3).
    exists s, x, d1, d2. split; [exact R|]. split; [exact R2|exact R3].
Defined.
