(* ===== verification/FsFile.v ===== *)
(** * The blocks of a file: [bmap] of [fs.c]

    The blocks of a file form a tree: the addresses in the inode, the indirect
    block and the doubly-indirect block.  The first part gives the places of the
    tree and says when it is well formed; then come the effect of allocating at a
    place, and [bmap]. *)

From Stdlib Require Import ZArith Lia String.
From stdpp Require Import base numbers functions list.
From S2P Require Import Prelude Bytes Params Locks Bio Log LogDisk Fs FsBlocks.

Local Open Scope Z_scope.
Local Open Scope kernel_scope.

(** ** The tree of a file *)

(** Where a block number is kept: in the inode, in the indirect block, in the
    doubly-indirect block, or in one of the blocks that one lists. *)
Inductive place :=
| InInode (k : Z)
| InInd (k : Z)
| InDbl (j : Z)
| InLeaf (j k : Z).

#[global] Instance place_eq_dec : EqDecision place.
Proof. solve_decision. Defined.

Definition place_ok (p : place) : Prop :=
  match p with
  | InInode k => 0 <= k < NDIRECT + 2
  | InInd k => 0 <= k < NINDIRECT
  | InDbl j => 0 <= j < NINDIRECT
  | InLeaf j k => 0 <= j < NINDIRECT /\ 0 <= k < NINDIRECT
  end.

(** The block whose entry a place is, and the index of the entry. *)
Definition parent (p : place) : option (place * Z) :=
  match p with
  | InInode _ => None
  | InInd k => Some (InInode NDIRECT, k)
  | InDbl j => Some (InInode (NDIRECT + 1), j)
  | InLeaf j k => Some (InDbl j, k)
  end.

(** Entry [k] of block [x]; no block has no entries. *)
Definition entry (v : Z -> mem) (x k : Z) : Z := if x =? 0 then 0 else get32 (v x) (4 * k).

(** The block number at a place, 0 when there is none. *)
Definition ptr (v : Z -> mem) (A : list Z) (p : place) : Z :=
  match p with
  | InInode k => nth (Z.to_nat k) A 0
  | InInd k => entry v (nth (Z.to_nat NDIRECT) A 0) k
  | InDbl j => entry v (nth (Z.to_nat (NDIRECT + 1)) A 0) j
  | InLeaf j k => entry v (entry v (nth (Z.to_nat (NDIRECT + 1)) A 0) j) k
  end.

(** The place of the [bn]-th block of a file. *)
Definition place_of (bn : Z) : place :=
  if bn <? NDIRECT then InInode bn
  else if bn - NDIRECT <? NINDIRECT then InInd (bn - NDIRECT)
  else InLeaf ((bn - NDIRECT - NINDIRECT) / NINDIRECT) ((bn - NDIRECT - NINDIRECT) mod NINDIRECT).

(** Places of file contents, as opposed to places of block lists. *)
Definition is_leaf (p : place) : Prop :=
  match p with
  | InInode k => k < NDIRECT
  | InInd _ | InLeaf _ _ => True
  | InDbl _ => False
  end.

Ltac fsconst :=
  change NBDE with 16384 in *; change NDIRECT with 11 in *; change NINDIRECT with 128 in *;
  change MAXFILE with 16523 in *; change BSIZE with 512 in *.

Lemma ptr_parent v A p q k : parent p = Some (q, k) -> ptr v A p = entry v (ptr v A q) k.
Proof. by destruct p; intros [= <- <-]. Qed.

Lemma parent_ok p q k : place_ok p -> parent p = Some (q, k) -> place_ok q /\ 0 <= k < NINDIRECT.
Proof.
  destruct p; cbn; intros Hp [= <- <-]; cbn; fsconst; lia.
Qed.

Lemma parent_not_leaf p q k : parent p = Some (q, k) -> ~ is_leaf q.
Proof. destruct p; intros [= <- <-]; cbn; fsconst; lia. Qed.

Lemma parent_inj p p' q k : parent p = Some (q, k) -> parent p' = Some (q, k) -> p = p'.
Proof. destruct p, p'; cbn; intros; simplify_eq; done || (fsconst; lia). Qed.

Lemma place_of_ok bn : 0 <= bn < MAXFILE -> place_ok (place_of bn) /\ is_leaf (place_of bn).
Proof.
  intros Hbn. unfold place_of.
  destruct (Z.ltb_spec bn NDIRECT); [cbn; fsconst; lia|].
  destruct (Z.ltb_spec (bn - NDIRECT) NINDIRECT); cbn; fsconst; [lia|].
  split; [|done]. zlia.
Qed.

Lemma place_of_inj bn bn' :
  0 <= bn < MAXFILE -> 0 <= bn' < MAXFILE -> place_of bn = place_of bn' -> bn = bn'.
Proof.
  intros H H'. unfold place_of.
  destruct (Z.ltb_spec bn NDIRECT), (Z.ltb_spec bn' NDIRECT),
    (Z.ltb_spec (bn - NDIRECT) NINDIRECT), (Z.ltb_spec (bn' - NDIRECT) NINDIRECT);
    intros E; simplify_eq; try lia.
  fsconst. zlia.
Qed.

Section FsFile.
Context {D : Type} `{LD : LoggedDisk D}.

(** A well-formed tree: its blocks are data blocks in use, each at one place. *)
Record file_ok (v : Z -> mem) (sb : superblock) (A : list Z) : Prop := {
  fi_len : length A = Z.to_nat (NDIRECT + 2);
  fi_blk : forall p, place_ok p -> ptr v A p <> 0 ->
    data_block sb (ptr v A p) /\ used v sb (ptr v A p) = true;
  fi_inj : forall p q, place_ok p -> place_ok q -> ptr v A p = ptr v A q -> ptr v A p <> 0 -> p = q
}.

(** A block in use that is not one of the file's, nor of the free map. *)
Definition other_block (v : Z -> mem) (sb : superblock) (A : list Z) (y : Z) : Prop :=
  (0 <= y < sb_size sb -> used v sb y = true) /\ (forall c, 0 <= c < sb_size sb -> BBLOCK c sb <> y) /\
  forall p, place_ok p -> ptr v A p <> y.

(** From [v], [A] to [v'], [A'] the tree has grown at places of [ps] only: blocks
    that were there are still there, with the same contents, new ones are zero,
    and blocks that are not the file's keep their contents. *)
Record grown (sb : superblock) (v : Z -> mem) (A : list Z) (v' : Z -> mem) (A' : list Z)
    (ps : list place) : Prop := {
  gr_fs : fs_ok v' sb;
  gr_file : file_ok v' sb A';
  gr_old : forall q, place_ok q -> ptr v A q <> 0 -> ptr v' A' q = ptr v A q;
  gr_else : forall q, place_ok q -> q ∉ ps -> ptr v' A' q = ptr v A q;
  gr_data : forall q, place_ok q -> is_leaf q -> ptr v A q <> 0 -> v' (ptr v A q) = v (ptr v A q);
  gr_zero : forall q a, place_ok q -> is_leaf q -> ptr v A q = 0 -> ptr v' A' q <> 0 ->
    0 <= a < BSIZE -> v' (ptr v' A' q) a = 0;
  gr_frame : forall y, other_block v sb A y -> v' y = v y /\ other_block v' sb A' y
}.

Lemma grown_refl sb v A : fs_ok v sb -> file_ok v sb A -> grown sb v A v A [].
Proof using. intros Hfs Hf. by split. Qed.

Lemma grown_trans sb v0 A0 v1 A1 v2 A2 ps1 ps2 :
  grown sb v0 A0 v1 A1 ps1 -> grown sb v1 A1 v2 A2 ps2 -> grown sb v0 A0 v2 A2 (ps1 ++ ps2).
Proof using.
  intros [F1 G1 O1 E1 D1 Z1 R1] [F2 G2 O2 E2 D2 Z2 R2]. split; try done.
  - intros q Hq Hnz. rewrite O2; [by apply O1|done|]. by rewrite O1.
  - intros q Hq Hin. rewrite elem_of_app in Hin. rewrite E2, E1; tauto || done.
  - intros q Hq Hl Hnz. pose proof (O1 q Hq Hnz) as Eo. rewrite <- Eo at 1. rewrite D2, Eo by (done || by rewrite Eo).
    by apply D1.
  - intros q a Hq Hl Hz Hnz Ha. destruct (decide (ptr v1 A1 q = 0)) as [Hz1|Hz1]; [by apply Z2|].
    rewrite (O2 q Hq Hz1), (D2 q Hq Hl Hz1). by apply Z1.
  - intros y Hy. destruct (R1 y Hy) as (Ey & Hy1). destruct (R2 y Hy1) as (Ey2 & Hy2). split; [congruence|done].
Qed.

(** ** Allocating at one place *)

(** The block [x] that was free becomes the file's. *)
Lemma entry_zero m x k :
  (forall a, 0 <= a < BSIZE -> m x a = 0) -> 0 <= k < NINDIRECT -> entry m x k = 0.
Proof using.
  intros Hz Hk. unfold entry. destruct (x =? 0); [done|]. unfold get32. fsconst.
  rewrite !Hz by lia. done.
Qed.

Lemma entry_same v v' x k : v' x = v x -> entry v' x k = entry v x k.
Proof using. intros E. unfold entry. by rewrite E. Qed.

Section Alloc.
Variables (sb : superblock) (v v' : Z -> mem) (A A' : list Z) (p : place) (x : Z).
Hypothesis Hfs : fs_ok v sb.
Hypothesis Hf : file_ok v sb A.
Hypothesis Hp : place_ok p.
Hypothesis Hzero : ptr v A p = 0.
Hypothesis Hx : data_block sb x.
Hypothesis Hfree : used v sb x = false.
Hypothesis Hlen : length A' = Z.to_nat (NDIRECT + 2).
Hypothesis Hfs' : fs_ok v' sb.
Hypothesis Hused : forall c, 0 <= c < sb_size sb -> used v' sb c = if decide (x = c) then true else used v sb c.
Hypothesis Hxz : forall a, 0 <= a < BSIZE -> v' x a = 0.
(** The block that lists the new one, if any, changes in its entry only; the
    others do not change. *)
Hypothesis Hinode : forall k, 0 <= k < NDIRECT + 2 -> InInode k <> p -> nth (Z.to_nat k) A' 0 = nth (Z.to_nat k) A 0.
Hypothesis Hset :
  match parent p with
  | None => ptr v' A' p = x
  | Some (q, k) => ptr v A q <> 0 /\ entry v' (ptr v A q) k = x
  end.
Hypothesis Hentry : forall q k, place_ok q -> 0 <= k < NINDIRECT -> ptr v A q <> 0 -> parent p <> Some (q, k) ->
  ~ is_leaf q -> entry v' (ptr v A q) k = entry v (ptr v A q) k.
Hypothesis Hleaf : forall y, y <> x -> (forall c, 0 <= c < sb_size sb -> BBLOCK c sb <> y) ->
  (forall q k, parent p = Some (q, k) -> ptr v A q <> y) -> v' y = v y.

Set Default Proof Using "All".

(** [x] is not at any place yet. *)
Lemma fresh_place q : place_ok q -> ptr v A q <> x.
Proof.
  intros Hq E. destruct Hx as (_ & Hx0 & _). destruct (fi_blk _ _ _ Hf q Hq) as (_ & Hu); [lia|].
  rewrite E, Hfree in Hu. done.
Qed.

Lemma alloc_inode k : 0 <= k < NDIRECT + 2 -> InInode k <> p -> ptr v' A' (InInode k) = ptr v A (InInode k).
Proof using Hinode. intros Hk Hne. cbn. by apply Hinode. Qed.

Lemma Hnew : ptr v' A' p = x.
Proof.
  destruct (parent p) as [[q k]|] eqn:Epar; [|done]. destruct Hset as (Hnz & He).
  destruct (parent_ok _ _ _ Hp Epar) as (Hq & Hk).
  rewrite (ptr_parent _ _ _ _ _ Epar). enough (Eq : ptr v' A' q = ptr v A q) by (by rewrite Eq).
  assert (Hqp : q <> p) by (intros ->; by destruct p; cbn in Epar; simplify_eq).
  destruct q as [j|j|j|j j']; [by apply alloc_inode|by destruct p; cbn in Epar; simplify_eq| |by destruct p; cbn in Epar; simplify_eq].
  cbn [ptr]. assert (E12 : nth (Z.to_nat (NDIRECT + 1)) A' 0 = nth (Z.to_nat (NDIRECT + 1)) A 0).
  { apply Hinode; [done|]. intros <-. by cbn in Epar; simplify_eq. }
  rewrite E12. cbn [ptr] in Hnz.
  destruct (decide (nth (Z.to_nat (NDIRECT + 1)) A 0 = 0)) as [Hz|Hnz']; [unfold entry in Hnz; by rewrite Hz in Hnz|].
  apply (Hentry (InInode (NDIRECT + 1)) j); try done.
Qed.

(** One level down from a place that did not change, or that is the new one. *)
Lemma alloc_child q r k :
  place_ok q -> parent q = Some (r, k) -> q <> p ->
  ptr v' A' r = ptr v A r \/ r = p -> ptr v' A' q = ptr v A q.
Proof.
  intros Hq Hpar Hne Hr. destruct (parent_ok _ _ _ Hq Hpar) as (Hrok & Hk).
  rewrite !(ptr_parent _ _ _ _ _ Hpar). destruct (decide (r = p)) as [->|Hrp].
  - rewrite Hnew, Hzero. rewrite entry_zero by done. done.
  - destruct Hr as [Hr|?]; [|done]. rewrite Hr. destruct (decide (ptr v A r = 0)) as [Hz|Hnz].
    { unfold entry. by rewrite Hz. }
    apply Hentry; try done; [|by eapply parent_not_leaf].
    intros E. apply Hne. by eapply parent_inj.
Qed.

Lemma alloc_else q : place_ok q -> q <> p -> ptr v' A' q = ptr v A q.
Proof.
  assert (H11 : forall k, 0 <= k < NDIRECT + 2 -> ptr v' A' (InInode k) = ptr v A (InInode k) \/ InInode k = p).
  { intros k Hk. destruct (decide (InInode k = p)); [by right|left]. by apply alloc_inode. }
  intros Hq Hne. destruct q as [k|k|j|j k]; [by apply alloc_inode|..].
  - apply (alloc_child _ (InInode NDIRECT) k); try done. apply H11. done.
  - apply (alloc_child _ (InInode (NDIRECT + 1)) j); try done. apply H11. done.
  - apply (alloc_child _ (InDbl j) k); try done. destruct (decide (InDbl j = p)) as [?|Hd]; [by right|left].
    apply (alloc_child _ (InInode (NDIRECT + 1)) j); try done; [apply Hq|]. apply H11. done.
Qed.

Lemma alloc_file : file_ok v' sb A'.
Proof.
  split; [done|..].
  - intros q Hq Hnz. destruct (decide (q = p)) as [->|Hne].
    + rewrite Hnew. split; [done|]. rewrite Hused; [by rewrite decide_True|]. destruct Hx as (_ & ? & _). lia.
    + rewrite alloc_else in * by done. destruct (fi_blk _ _ _ Hf q Hq Hnz) as (Hd & Hu). split; [done|].
      rewrite Hused by (destruct Hd as (_ & ? & _); lia). rewrite Hu. by destruct (decide _).
  - intros q r Hq Hr E Hnz. destruct (decide (q = p)) as [->|Hqp], (decide (r = p)) as [->|Hrp]; try done.
    + exfalso. rewrite Hnew, alloc_else in E by done. by apply (fresh_place r Hr).
    + exfalso. rewrite Hnew, alloc_else in E by done. by apply (fresh_place q Hq).
    + rewrite !alloc_else in * by done. by apply (fi_inj _ _ _ Hf).
Qed.

Lemma alloc_grown : grown sb v A v' A' [p].
Proof.
  assert (Hdata : forall y, 0 <= y < sb_size sb -> used v sb y = true ->
    (forall c, 0 <= c < sb_size sb -> BBLOCK c sb <> y) ->
    (forall q k, parent p = Some (q, k) -> ptr v A q <> y) -> v' y = v y).
  { intros y Hy Hu Hn Hpar. apply Hleaf; [|done|done]. intros ->. by rewrite Hfree in Hu. }
  split; [done|apply alloc_file|..].
  - intros q Hq Hnz. apply alloc_else; [done|]. by intros ->.
  - intros q Hq Hin. apply alloc_else; [done|]. intros ->. apply Hin. left.
  - intros q Hq Hl Hnz. destruct (fi_blk _ _ _ Hf q Hq Hnz) as (Hd & Hu). pose proof Hd as (_ & ? & Hn & _).
    apply Hdata; [lia|done|done|]. intros r k Hpar E. destruct (parent_ok _ _ _ Hp Hpar) as (Hr & _).
    assert (r = q) as -> by (apply (fi_inj _ _ _ Hf); congruence). by eapply parent_not_leaf.
  - intros q a Hq Hl Hz Hnz Ha. destruct (decide (q = p)) as [->|Hne].
    + rewrite Hnew. by apply Hxz.
    + by rewrite alloc_else in Hnz.
  - intros y (Hu & Hn & Hpl).
    assert (Hyx : y <> x) by (intros ->; rewrite Hu in Hfree; [done|]; destruct Hx as (_ & ? & _); lia). split.
    + apply Hleaf; try done. intros q k Hpar. apply Hpl. by destruct (parent_ok _ _ _ Hp Hpar).
    + split_and!; [|done|].
      * intros Hy. rewrite Hused by done. rewrite Hu by done. by destruct (decide _).
      * intros q Hq. destruct (decide (q = p)) as [->|Hne]; [|rewrite alloc_else by done; by apply Hpl].
        rewrite Hnew. congruence.
Qed.
End Alloc.

(** ** Changing a data block *)

Lemma used_data v sb y m c :
  data_block sb y -> 0 <= c < sb_size sb -> used (<[y := m]> v) sb c = used v sb c.
Proof using.
  intros (_ & _ & Hn & _) Hc. unfold used. rewrite fn_lookup_insert_ne; [done|]. intros E. by apply (Hn c Hc).
Qed.

Lemma fs_ok_data v sb y m : fs_ok v sb -> data_block sb y -> fs_ok (<[y := m]> v) sb.
Proof using.
  intros Hok Hd. pose proof Hd as (Hh & _). pose proof Hok as [Hsb ? ? ? Hf]. split; try done.
  - rewrite fn_lookup_insert_ne; [done|]. intros ->. by apply ld_home_sb.
  - intros b Hb Hu. apply Hf; [done|]. by rewrite used_data in Hu.
Qed.

Lemma apart_ext v v' sb H :
  (forall c, 0 <= c < sb_size sb -> used v sb c = true -> used v' sb c = true) -> apart v sb H -> apart v' sb H.
Proof using.
  intros Hu Hap. eapply Forall_impl; [exact Hap|]. intros x (H1 & H2 & H3). split_and!; auto.
Qed.

Lemma apart_cons v sb H i y :
  fs_ok v sb -> data_block sb y -> used v sb y = true -> apart v sb H -> apart v sb ((i, y) :: H).
Proof using.
  intros Hok (Hh & _ & Hn & _) Hu Hap. apply Forall_cons. split; [|done]. split_and!; [done|done|].
  cbn. intros ->. by apply ld_home_sb.
Qed.

Lemma grown_weaken sb v A v' A' ps ps' :
  (forall p, p ∈ ps -> p ∈ ps') -> grown sb v A v' A' ps -> grown sb v A v' A' ps'.
Proof using.
  intros Hs [? ? ? He ? ? ?]. split; try done. intros q Hq Hin. apply He; [done|]. intros H. by apply Hin, Hs.
Qed.

(** ** The operations of [bmap] *)

(** The state [s] with another disk and other block addresses in inode [ip]. *)
Definition istate (s : fsys D) (ip : nat) (i : inode) (A : list Z) (d : D) : fsys D :=
  set_icache (<[ip := set_i_addrs A i]> (icache s)) (set_fdisk d s).

Lemma istate_id s ip i : icache s !! ip = Some i -> istate s ip i (i_addrs i) (fdisk s) = s.
Proof using.
  intros Hi. unfold istate. rewrite list_insert_id; [by destruct s|]. rewrite Hi. by destruct i.
Qed.

Lemma istate_at s ip i A d :
  icache s !! ip = Some i -> icache (istate s ip i A d) !! ip = Some (set_i_addrs A i).
Proof using. intros Hi. apply list_lookup_insert_eq. by eapply lookup_lt_Some. Qed.

Lemma istate_twice s ip i A d A' d' :
  istate (istate s ip i A d) ip (set_i_addrs A i) A' d' = istate s ip i A' d'.
Proof using. unfold istate, set_icache, set_fdisk. cbn. by rewrite list_insert_insert_eq. Qed.

Lemma geti_eq s ip i : icache s !! ip = Some i -> geti (D := D) ip s = Ok (i, s).
Proof using. intros H. unfold geti. by rewrite H. Qed.

Lemma addr_eq s ip i k :
  icache s !! ip = Some i -> length (i_addrs i) = Z.to_nat (NDIRECT + 2) -> 0 <= k < NDIRECT + 2 ->
  addr (D := D) ip k s = Ok (nth (Z.to_nat k) (i_addrs i) 0, s).
Proof using.
  intros Hi Hl Hk. unfold addr. mby (geti_eq s ip i Hi).
  destruct (lookup_lt_is_Some_2 (i_addrs i) (Z.to_nat k)) as (x & Hx); [rewrite Hl; lia|].
  rewrite Hx. rewrite (nth_lookup_Some _ _ 0 _ Hx). done.
Qed.

(** The file of inode [ip], the disk below it, and room for [c] more log entries
    and [f] more blocks. *)
Record fenv (s : fsys D) (ip : nat) (i : inode) (v : Z -> mem) (sb : superblock) (L : list Z)
    (H : list (nat * Z)) (c f : Z) : Prop := {
  fe_inode : icache s !! ip = Some i;
  fe_dev : i_dev i = 1;
  fe_sb : fsb s = sb;
  fe_fs : fs_ok v sb;
  fe_file : file_ok v sb (i_addrs i);
  fe_view : ld_view (fdisk s) v L H;
  fe_open : ld_open (fdisk s);
  fe_apart : apart v sb H;
  fe_cap : Z.of_nat (length L) + c < ld_cap;
  fe_buf : Z.of_nat (length L) + Z.of_nat (length H) + c < NBUF;
  fe_free : f <= Z.of_nat (nfree v sb)
}.

Lemma fenv_weaken s ip i v sb L H c f c' f' :
  c' <= c -> f' <= f -> fenv s ip i v sb L H c f -> fenv s ip i v sb L H c' f'.
Proof using. intros Hc Hf [? ? ? ? ? ? ? ? ? ? ?]. split; try done; lia. Qed.

(** What one allocation at [p] did: the tree has grown there, at the cost of at
    most [c] log entries and [f] blocks. *)
Definition allocated (s s' : fsys D) (ip : nat) (i : inode) (v : Z -> mem) (sb : superblock) (L : list Z)
    (H : list (nat * Z)) (c f : Z) (c' f' : Z) (ps : list place) (v' : Z -> mem) (A' : list Z) : Prop :=
  exists d L', s' = istate s ip i A' d /\ fenv s' ip (set_i_addrs A' i) v' sb L' H (c - c') (f - f') /\
    grown sb v (i_addrs i) v' A' ps.

(** Whether there is no block at a place, as a number to count with. *)
Definition miss (v : Z -> mem) (A : list Z) (p : place) : Z := if ptr v A p =? 0 then 1 else 0.

Lemma miss_same v A v' A' p : ptr v' A' p = ptr v A p -> miss v' A' p = miss v A p.
Proof using. unfold miss. by intros ->. Qed.

Lemma miss_range v A p : 0 <= miss v A p <= 1.
Proof using. unfold miss. destruct (_ =? _); lia. Qed.

Lemma bmap_addr_ok s ip i v sb L H c f k (z := miss v (i_addrs i) (InInode k)) :
  fenv s ip i v sb L H c f -> 2 * z <= c -> z <= f -> 0 <= k < NDIRECT + 2 ->
  exists x s' v' A', bmap_addr ip k s = Ok (x, s') /\ x <> 0 /\ ptr v' A' (InInode k) = x /\
    allocated s s' ip i v sb L H c f (2 * z) z [InInode k] v' A'.
Proof using.
  intros He Hc Hf Hk. unfold miss in z. cbn [ptr] in z. pose proof He as [Hi Hdev Hsb Hfs Hfile Hv Ho Hap Hcap Hbuf Hfree].
  pose proof (fi_len _ _ _ Hfile) as Hlen. unfold bmap_addr.
  mby (addr_eq s ip i k Hi Hlen Hk). set (x0 := nth (Z.to_nat k) (i_addrs i) 0).
  fold x0 in z. destruct (Z.eqb_spec x0 0) as [Hz|Hnz]; subst z.
  2:{ exists x0, s, v, (i_addrs i). split_and!; [done|done|done|].
      exists (fdisk s), L. split_and!; [by rewrite istate_id| |].
      - assert (Ei : set_i_addrs (i_addrs i) i = i) by (by destruct i). rewrite Ei.
        apply (fenv_weaken _ _ _ _ _ _ _ c f); [lia|lia|done].
      - eapply grown_weaken; [|by apply grown_refl]. intros p ?%elem_of_nil. done. }
  mby (geti_eq s ip i Hi). rewrite Hdev.
  destruct (balloc_ok s v sb L H Hfs Hsb Hv Ho Hap) as (x & d & R & Hd & Hxf & Hvd & Hod & Hfsd); [lia|lia|lia|].
  mby R. unfold set_addr, seti. mgo. pose proof Hd as (_ & Hx & HnB & _).
  set (A' := <[Z.to_nat k := x]> (i_addrs i)).
  exists x, (istate s ip i A' d), (taken sb x v), A'.
  assert (Hnth : nth (Z.to_nat k) A' 0 = x).
  { apply nth_lookup_Some, list_lookup_insert_eq. rewrite Hlen. lia. }
  assert (Hgrown : grown sb v (i_addrs i) (taken sb x v) A' [InInode k]).
  { apply (alloc_grown sb v (taken sb x v) (i_addrs i) A' (InInode k) x); try done.
    - unfold A'. by rewrite length_insert.
    - intros c0 Hc0. by apply used_taken.
    - intros a Ha. unfold taken. rewrite fn_lookup_insert. by apply fill_in.
    - intros j Hj Hne. unfold A'. rewrite !nth_lookup. rewrite list_lookup_insert_ne; [done|].
      intros E. apply Hne. f_equal. lia.
    - intros q j Hq Hj Hnz _ Hnl. apply entry_same.
      destruct (fi_blk _ _ _ Hfile q Hq Hnz) as ((_ & _ & HqB & _) & Hqu).
      unfold taken. rewrite !fn_lookup_insert_ne; [done| |].
      + apply HqB. lia.
      + intros E. rewrite E, Hqu in Hxf. done.
    - intros y Hyx HyB _. unfold taken. rewrite !fn_lookup_insert_ne; [done|apply HyB; lia|congruence]. }
  split_and!; [|lia|done|].
  - unfold mret. do 2 f_equal. unfold istate. by rewrite (alter_insert _ _ _ i).
  - exists d, (absorb x (absorb (BBLOCK x sb) L)). split_and!; [done| |done].
    pose proof (length_absorb x (absorb (BBLOCK x sb) L)). pose proof (length_absorb (BBLOCK x sb) L).
    split; try done.
    + by apply istate_at.
    + apply Hgrown.
    + eapply apart_ext; [|exact Hap]. intros c0 Hc0 Hu. rewrite used_taken by done. by destruct (decide _).
    + lia.
    + lia.
    + rewrite (nfree_taken v sb x) in Hfree by done. lia.
Qed.

(** The new block [x] is entered in the block of place [q]. *)
Lemma slot_grown v sb A p q k x :
  fs_ok v sb -> file_ok v sb A -> place_ok p -> parent p = Some (q, k) -> ptr v A q <> 0 ->
  ptr v A p = 0 -> data_block sb x -> used v sb x = false ->
  let y := ptr v A q in
  let v' := <[y := put32 (taken sb x v y) (4 * k) x]> (taken sb x v) in
  grown sb v A v' A [p] /\ ptr v' A p = x /\ nfree v sb = S (nfree v' sb).
Proof using.
  intros Hfs Hfile Hp Hpar Hnz Hz Hd Hxf y v'. destruct (parent_ok _ _ _ Hp Hpar) as (Hq & Hk).
  destruct (fi_blk _ _ _ Hfile q Hq Hnz) as (Hdy & Huy). fold y in Hdy, Huy, Hnz.
  pose proof Hd as (Hhx & Hx & HnB & _). pose proof Hdy as (_ & Hy & HyB & _).
  pose proof (ld_home_on _ Hhx) as Hxon. pose proof ld_sizes as Hls.
  assert (Hyx : y <> x) by (intros E; rewrite E, Hxf in Huy; done).
  assert (Hty : taken sb x v y = v y).
  { unfold taken. rewrite !fn_lookup_insert_ne; [done|apply HyB; lia|congruence]. }
  assert (Hused : forall c, 0 <= c < sb_size sb -> used v' sb c = if decide (x = c) then true else used v sb c).
  { intros c Hc. unfold v'. rewrite used_data by done. by apply used_taken. }
  assert (Hset : entry v' y k = x).
  { unfold entry, v'. rewrite (proj2 (Z.eqb_neq y 0)) by done. rewrite fn_lookup_insert.
    apply get32_put32_eq. unfold is_u32. lia. }
  assert (Hg : grown sb v A v' A [p]).
  { apply (alloc_grown sb v v' A A p x); try done.
    - apply Hfile.
    - apply fs_ok_data; [by apply fs_ok_taken|done].
    - intros a Ha. unfold v'. rewrite fn_lookup_insert_ne by done. unfold taken. rewrite fn_lookup_insert.
      by apply fill_in.
    - rewrite Hpar. done.
    - intros r j Hr Hj Hrnz Hne Hnl. destruct (decide (r = q)) as [->|Hrq].
      + assert (j <> k) by congruence. unfold entry. fold y. destruct (y =? 0); [done|].
        unfold v'. rewrite fn_lookup_insert, get32_put32_ne by lia. by rewrite Hty.
      + assert (ptr v A r <> y) by (intros E; apply Hrq; by apply (fi_inj _ _ _ Hfile)).
        destruct (fi_blk _ _ _ Hfile r Hr Hrnz) as ((_ & _ & HrB & _) & Hru).
        apply entry_same. unfold v'. rewrite fn_lookup_insert_ne by congruence. unfold taken.
        rewrite !fn_lookup_insert_ne; [done|apply HrB; lia|]. intros E. rewrite E, Hru in Hxf. done.
    - intros z Hzx HzB Hzp. unfold v'. rewrite fn_lookup_insert_ne by (by eapply Hzp). unfold taken.
      rewrite !fn_lookup_insert_ne; [done|apply HzB; lia|congruence]. }
  split_and!; [done| |].
  - rewrite (ptr_parent _ _ _ _ _ Hpar).
    rewrite (gr_old _ _ _ _ _ _ Hg q Hq Hnz). done.
  - rewrite (nfree_taken v sb x) by done. f_equal. symmetry. apply nfree_ext.
    intros c Hc. unfold v'. by apply used_data.
Qed.

Lemma bmap_slot_ok s ip i v sb L H c f bp p q k (z := miss v (i_addrs i) p) :
  fenv s ip i v sb L ((bp, ptr v (i_addrs i) q) :: H) c f -> 3 * z <= c -> z <= f ->
  place_ok p -> parent p = Some (q, k) -> ptr v (i_addrs i) q <> 0 ->
  exists x s' v', bmap_slot 1 bp k s = Ok (x, s') /\ x <> 0 /\ ptr v' (i_addrs i) p = x /\
    (exists d L', s' = set_fdisk d s /\ fenv s' ip i v' sb L' H (c - 3 * z) (f - z)) /\
    grown sb v (i_addrs i) v' (i_addrs i) [p].
Proof using.
  intros He Hc Hf Hp Hpar Hnz. pose proof He as [Hi Hdev Hsb Hfs Hfile Hv Ho Hap Hcap Hbuf Hfree].
  destruct (parent_ok _ _ _ Hp Hpar) as (Hq & Hk). set (y := ptr v (i_addrs i) q) in *.
  destruct (fi_blk _ _ _ Hfile q Hq Hnz) as (Hdy & Huy). fold y in Hdy, Huy.
  assert (Hap' : apart v sb H) by (by apply Forall_cons in Hap as (_ & ?)).
  cbn [length] in Hbuf.
  assert (Hptr : ptr v (i_addrs i) p = get32 (v y) (4 * k)).
  { rewrite (ptr_parent _ _ _ _ _ Hpar). unfold entry. fold y. by rewrite (proj2 (Z.eqb_neq y 0)). }
  unfold bmap_slot. mby (dop_ok _ s _ _ (ld_bdata_ok _ _ _ _ bp y Hv ltac:(left))). rewrite set_fdisk_id.
  assert (Ez : z = if get32 (v y) (4 * k) =? 0 then 1 else 0) by (unfold z, miss; by rewrite Hptr). clearbody z.
  destruct (Z.eqb_spec (get32 (v y) (4 * k)) 0) as [Hz|Hz]; subst z; mgo.
  2:{ destruct (ld_brelse_ok _ _ _ _ _ _ Hv) as (d & R & Hvd & Hod). mby (dop_ok _ s _ _ R).
      exists (get32 (v y) (4 * k)), (set_fdisk d s), v. split_and!; [done|done|done| |].
      - exists d, L. split; [done|]. split; try done; [by apply Hod|lia|lia|lia].
      - eapply grown_weaken; [|by apply grown_refl]. intros r ?%elem_of_nil. done. }
  destruct (balloc_ok s v sb L _ Hfs Hsb Hv Ho Hap) as (x & d1 & R1 & Hd & Hxf & Hv1 & Ho1 & Hfs1); [lia|cbn; lia|lia|].
  destruct (slot_grown v sb (i_addrs i) p q k x) as (Hg & Hpx & Hn); try done; [congruence|]. fold y in Hg, Hpx, Hn.
  set (L1 := absorb x (absorb (BBLOCK x sb) L)) in *.
  assert (Hl1 : (length L1 <= length L + 2)%nat).
  { unfold L1. pose proof (length_absorb x (absorb (BBLOCK x sb) L)). pose proof (length_absorb (BBLOCK x sb) L). lia. }
  destruct (ld_update_ok d1 _ L1 _ bp y (fun m => put32 m (4 * k) x) Hv1 Ho1 ltac:(left)) as (d2 & d3 & R2 & R3 & Hv3 & Ho3);
    [apply Hdy|lia|].
  destruct (ld_brelse_ok _ _ _ _ _ _ Hv3) as (d4 & R4 & Hv4 & Ho4).
  pose proof (length_absorb y L1) as Hl2. pose proof Hd as (_ & Hxr & _).
  eexists x, (set_fdisk d4 s), _. split_and!; [| |exact Hpx| |exact Hg].
  - mby R1. mby (dop_ok _ (set_fdisk d1 s) _ _ R2). mby (dop_ok _ (set_fdisk d2 s) _ _ R3).
    by mby (dop_ok _ (set_fdisk d3 s) _ _ R4).
  - lia.
  - exists d4, (absorb y L1). split; [done|]. split; try done.
    + apply Hg.
    + apply Hg.
    + by apply Ho4.
    + eapply apart_ext; [|exact Hap']. intros c0 Hc0 Hu. rewrite used_data, used_taken by done. by destruct (decide _).
    + lia.
    + lia.
    + lia.
Qed.

(** ** [bmap] *)

(** The buffer of a block of the tree is taken. *)
Lemma fenv_bread s ip i v sb L c f q :
  fenv s ip i v sb L [] c f -> 0 <= c -> place_ok q -> ptr v (i_addrs i) q <> 0 ->
  exists bp d, dop (ld_bread 1 (ptr v (i_addrs i) q)) s = Ok (bp, set_fdisk d s) /\
    fenv (set_fdisk d s) ip i v sb L [(bp, ptr v (i_addrs i) q)] c f.
Proof using.
  intros [Hi Hdev Hsb Hfs Hfile Hv Ho Hap Hcap Hbuf Hfree] Hc Hq Hnz.
  destruct (fi_blk _ _ _ Hfile q Hq Hnz) as (Hd & Hu). pose proof Hd as (Hh & _). pose proof ld_sizes as Hls.
  destruct (ld_bread_ok (fdisk s) v L [] _ Hv (not_elem_of_nil _) (ld_home_on _ Hh)) as (bp & d & R & Hvd & Hod);
    [cbn in *; lia|].
  exists bp, d. split; [by apply dop_ok|]. split; try done.
  - by apply Hod.
  - by apply apart_cons.
  - cbn [length]. lia.
Qed.

(** The places on the way to block [bn], and how many of them have no block. *)
Definition path (bn : Z) : list place :=
  if bn <? NDIRECT then [InInode bn]
  else if bn - NDIRECT <? NINDIRECT then [InInode NDIRECT; InInd (bn - NDIRECT)]
  else [InInode (NDIRECT + 1); InDbl ((bn - NDIRECT - NINDIRECT) / NINDIRECT);
        InLeaf ((bn - NDIRECT - NINDIRECT) / NINDIRECT) ((bn - NDIRECT - NINDIRECT) mod NINDIRECT)].

Definition misses (v : Z -> mem) (A : list Z) (bn : Z) : Z :=
  foldr (fun p n => miss v A p + n) 0 (path bn).

Definition bmap_post (s s' : fsys D) (ip : nat) (i : inode) (v : Z -> mem) (sb : superblock) (L : list Z)
    (c f : Z) (bn x : Z) : Prop :=
  exists v' A' d L', s' = istate s ip i A' d /\ x <> 0 /\ ptr v' A' (place_of bn) = x /\
    fenv s' ip (set_i_addrs A' i) v' sb L' [] (c - 3 * misses v (i_addrs i) bn) (f - misses v (i_addrs i) bn) /\
    grown sb v (i_addrs i) v' A' (path bn).

Lemma istate_fdisk s ip i A d d' : set_fdisk d' (istate s ip i A d) = istate s ip i A d'.
Proof using. done. Qed.

(** One level down: the block of place [q] is there, and its entry for [p] is taken. *)
Lemma bmap_down s ip i v sb L c f p q k (z := miss v (i_addrs i) p) :
  fenv s ip i v sb L [] c f -> 3 * z <= c -> z <= f ->
  place_ok p -> parent p = Some (q, k) -> ptr v (i_addrs i) q <> 0 ->
  exists bp x s1 s' v' d L', dop (ld_bread 1 (ptr v (i_addrs i) q)) s = Ok (bp, s1) /\
    bmap_slot 1 bp k s1 = Ok (x, s') /\ x <> 0 /\ ptr v' (i_addrs i) p = x /\ s' = set_fdisk d s /\
    fenv s' ip i v' sb L' [] (c - 3 * z) (f - z) /\ grown sb v (i_addrs i) v' (i_addrs i) [p].
Proof using.
  intros He Hc Hf Hp Hpar Hnz. destruct (parent_ok _ _ _ Hp Hpar) as (Hq & _).
  pose proof (miss_range v (i_addrs i) p).
  destruct (fenv_bread _ _ _ _ _ _ _ _ q He ltac:(lia) Hq Hnz) as (bp & d1 & R1 & He1).
  destruct (bmap_slot_ok _ _ _ _ _ _ _ _ _ bp p q k He1 Hc Hf Hp Hpar Hnz)
    as (x & s' & v' & R2 & Hx & Hptr & (d & L' & Es & He') & Hg).
  by exists bp, x, (set_fdisk d1 s), s', v', d, L'.
Qed.

Lemma bmap_direct s ip i v sb L c f bn :
  fenv s ip i v sb L [] c f -> 3 * misses v (i_addrs i) bn <= c -> misses v (i_addrs i) bn <= f ->
  0 <= bn < NDIRECT ->
  exists x s', bmap ip bn s = Ok (x, s') /\ bmap_post s s' ip i v sb L c f bn x.
Proof using.
  intros He Hc Hf Hbn. unfold bmap, bmap_post, misses, place_of, path in *.
  mby (geti_eq s ip i (fe_inode _ _ _ _ _ _ _ _ _ He)). rewrite (proj2 (Z.ltb_lt bn NDIRECT)) in * by lia.
  cbn [foldr] in *. pose proof (miss_range v (i_addrs i) (InInode bn)).
  destruct (bmap_addr_ok s ip i v sb L [] c f bn He) as (x & s' & v' & A' & R & Hx & Hp & d & L' & Es & He' & Hg); [lia..|].
  exists x, s'. split; [done|]. exists v', A', d, L'. split_and!; try done. eapply fenv_weaken; [| |exact He']; lia.
Qed.

Lemma bmap_indirect s ip i v sb L c f bn :
  fenv s ip i v sb L [] c f -> 3 * misses v (i_addrs i) bn <= c -> misses v (i_addrs i) bn <= f ->
  0 <= bn - NDIRECT < NINDIRECT ->
  exists x s', bmap ip bn s = Ok (x, s') /\ bmap_post s s' ip i v sb L c f bn x.
Proof using.
  intros He Hc Hf Hbn. unfold bmap, bmap_post, misses, place_of, path in *.
  mby (geti_eq s ip i (fe_inode _ _ _ _ _ _ _ _ _ He)). rewrite (fe_dev _ _ _ _ _ _ _ _ _ He).
  rewrite (proj2 (Z.ltb_ge bn NDIRECT)), (proj2 (Z.ltb_lt (bn - NDIRECT) NINDIRECT)) in * by lia.
  cbn [foldr] in *. set (p := InInd (bn - NDIRECT)) in *.
  pose proof (miss_range v (i_addrs i) (InInode NDIRECT)). pose proof (miss_range v (i_addrs i) p).
  destruct (bmap_addr_ok s ip i v sb L [] c f NDIRECT He) as (x1 & s1 & v1 & A1 & R1 & Hx1 & Hp1 & d1 & L1 & -> & He1 & Hg1);
    [lia..|done|].
  assert (Em : miss v1 A1 p = miss v (i_addrs i) p).
  { apply miss_same, (gr_else _ _ _ _ _ _ Hg1); [done|]. by intros ?%list_elem_of_singleton. }
  destruct (bmap_down _ _ _ _ _ _ _ _ p (InInode NDIRECT) (bn - NDIRECT) He1)
    as (bp & x & s2 & s' & v' & d & L' & R2 & R3 & Hx & Hp & Es & He' & Hg);
    cbn [i_addrs set_i_addrs] in *; rewrite ?Em, ?Hp1 in *; try done; try lia.
  exists x, s'. split; [mby R1; mby R2; exact R3|].
  exists v', A1, d, L'. rewrite istate_fdisk in Es. split_and!; try done.
  - eapply fenv_weaken; [| |exact He']; lia.
  - apply (grown_trans _ _ _ _ _ _ _ _ _ Hg1 Hg).
Qed.

Lemma bmap_double s ip i v sb L c f bn :
  fenv s ip i v sb L [] c f -> 3 * misses v (i_addrs i) bn <= c -> misses v (i_addrs i) bn <= f ->
  0 <= bn - NDIRECT - NINDIRECT < NBDE ->
  exists x s', bmap ip bn s = Ok (x, s') /\ bmap_post s s' ip i v sb L c f bn x.
Proof using.
  intros He Hc Hf Hbn. unfold bmap, bmap_post, misses, place_of, path in *.
  mby (geti_eq s ip i (fe_inode _ _ _ _ _ _ _ _ _ He)). rewrite (fe_dev _ _ _ _ _ _ _ _ _ He).
  rewrite (proj2 (Z.ltb_ge bn NDIRECT)), (proj2 (Z.ltb_ge (bn - NDIRECT) NINDIRECT)),
    (proj2 (Z.ltb_lt (bn - NDIRECT - NINDIRECT) NBDE)) in * by (fsconst; lia).
  cbn [foldr] in *. set (j := (bn - NDIRECT - NINDIRECT) / NINDIRECT) in *.
  set (k := (bn - NDIRECT - NINDIRECT) mod NINDIRECT) in *.
  assert (Hok : place_ok (InLeaf j k)) by (unfold j, k; cbn; fsconst; zlia).
  pose proof (miss_range v (i_addrs i) (InInode (NDIRECT + 1))). pose proof (miss_range v (i_addrs i) (InDbl j)).
  pose proof (miss_range v (i_addrs i) (InLeaf j k)).
  destruct (bmap_addr_ok s ip i v sb L [] c f (NDIRECT + 1) He)
    as (x1 & s1 & v1 & A1 & R1 & Hx1 & Hp1 & d1 & L1 & -> & He1 & Hg1); [lia..|done|].
  assert (Em1 : miss v1 A1 (InDbl j) = miss v (i_addrs i) (InDbl j)).
  { apply miss_same, (gr_else _ _ _ _ _ _ Hg1); [apply Hok|]. by intros ?%list_elem_of_singleton. }
  destruct (bmap_down _ _ _ _ _ _ _ _ (InDbl j) (InInode (NDIRECT + 1)) j He1)
    as (bp2 & x2 & s2 & s2' & v2 & d2 & L2 & R2 & R2' & Hx2 & Hp2 & Es2 & He2 & Hg2);
    cbn [i_addrs set_i_addrs] in *; rewrite ?Em1, ?Hp1 in *; try done; try lia; [apply Hok|].
  pose proof (grown_trans _ _ _ _ _ _ _ _ _ Hg1 Hg2) as Hg12.
  assert (Em2 : miss v2 A1 (InLeaf j k) = miss v (i_addrs i) (InLeaf j k)).
  { apply miss_same, (gr_else _ _ _ _ _ _ Hg12); [done|]. by intros [?|[?|[]%elem_of_nil]%list.elem_of_cons]%list.elem_of_cons. }
  destruct (bmap_down _ _ _ _ _ _ _ _ (InLeaf j k) (InDbl j) k He2)
    as (bp3 & x3 & s3 & s3' & v3 & d3 & L3 & R3 & R3' & Hx3 & Hp3 & Es3 & He3 & Hg3);
    cbn [i_addrs set_i_addrs] in *; rewrite ?Em2, ?Hp2 in *; try done; try lia.
  exists x3, s3'. split; [mby R1; mby R2; mby R2'; mby R3; exact R3'|].
  exists v3, A1, d3, L3. rewrite Es2, istate_fdisk in Es3. split_and!; try done.
  - eapply fenv_weaken; [| |exact He3]; lia.
  - apply (grown_trans _ _ _ _ _ _ _ _ _ Hg12 Hg3).
Qed.

(** [bmap] finds the block of every place of a file, and allocates what is missing
    on the way to it; the cost is three log entries and one block for each. *)
Lemma bmap_ok s ip i v sb L c f bn :
  fenv s ip i v sb L [] c f -> 3 * misses v (i_addrs i) bn <= c -> misses v (i_addrs i) bn <= f ->
  0 <= bn < MAXFILE ->
  exists x s', bmap ip bn s = Ok (x, s') /\ bmap_post s s' ip i v sb L c f bn x.
Proof using.
  intros He Hc Hf Hbn. destruct (Z.lt_ge_cases bn NDIRECT); [apply bmap_direct; done || lia|].
  destruct (Z.lt_ge_cases (bn - NDIRECT) NINDIRECT); [apply bmap_indirect; done || lia|].
  apply bmap_double; try done. fsconst. lia.
Qed.
End FsFile.
