(* ===== verification/FsInode.v ===== *)
(** * Inodes on the disk: [iupdate], [ilock], [ialloc] of [fs.c]

    The inode in memory and its 64 bytes in the inode blocks: what [iupdate]
    stores, [ilock] reads back, and the inodes beside it are not touched. *)

From Stdlib Require Import ZArith Lia String.
From stdpp Require Import base numbers functions list.
From S2P Require Import Prelude Bytes Params Locks Bio Log LogDisk Fs FsBlocks FsFile.

Local Open Scope Z_scope.
Local Open Scope kernel_scope.

(** ** The bytes of an inode *)

Definition is_s16 (x : Z) : Prop := - 2 ^ 15 <= x < 2 ^ 15.

(** The fields have values of their types. *)
Record inode_ok (i : inode) : Prop := {
  io_type : is_s16 (i_type i);
  io_major : is_s16 (i_major i);
  io_minor : is_s16 (i_minor i);
  io_nlink : is_s16 (i_nlink i);
  io_size : is_u32 (i_size i);
  io_addrs : Forall is_u32 (i_addrs i);
  io_len : length (i_addrs i) = Z.to_nat (NDIRECT + 2)
}.

(** The fields that are on the disk, of [i], in the cache entry [j]. *)
Definition disk_fields (i j : inode) : inode :=
  mkinode (i_dev j) (i_inum j) (i_ref j) (i_lock j) (i_valid j)
    (i_type i) (i_major i) (i_minor i) (i_nlink i) (i_size i) (i_addrs i).

(** The inode in memory is the one on the disk. *)
Definition synced (v : Z -> mem) (sb : superblock) (i : inode) : Prop :=
  get_dinode (dinode_off (i_inum i)) (v (IBLOCK (i_inum i) sb)) i = i.

Lemma put16_ne m a x b : b < a \/ a + 2 <= b -> put16 m a x b = m b.
Proof. intros H. unfold put16. by rewrite !put8_ne by lia. Qed.

Lemma get16_ext m m' a : (forall x, a <= x < a + 2 -> m' x = m x) -> get16 m' a = get16 m a.
Proof. intros H. unfold get16. by rewrite !H by lia. Qed.

Lemma s16_get16_put16 m a x : is_s16 x -> s16 (get16 (put16 m a x) a) = x.
Proof.
  unfold is_s16. intros H. unfold get16, put16. rewrite put8_ne, !put8_eq by lia.
  unfold s16, u8. rewrite Z.shiftr_div_pow2 by lia. zlia.
Qed.

Lemma put_addrs_out l : forall m o b, b < o \/ o + 4 * Z.of_nat (length l) <= b -> put_addrs m o l b = m b.
Proof.
  induction l as [|x l IH]; intros m o b H; [done|]. cbn [put_addrs length] in *.
  rewrite IH by lia. apply put32_ne. lia.
Qed.

Lemma get_addrs_put l : forall m o, Forall is_u32 l -> get_addrs (put_addrs m o l) o (length l) = l.
Proof.
  induction l as [|x l IH]; intros m o [Hx Hl]%Forall_cons || (intros m o _; done); cbn [put_addrs get_addrs length]; f_equal.
  - rewrite (get32_ext (put32 m o x)); [by apply get32_put32_eq|]. intros b Hb. apply put_addrs_out. lia.
  - by apply IH.
Qed.

Lemma put_dinode_out i o m b :
  length (i_addrs i) = Z.to_nat (NDIRECT + 2) -> b < o \/ o + DINODE_SIZE <= b -> put_dinode i o m b = m b.
Proof.
  intros Hl Hb. change DINODE_SIZE with 64 in *. unfold put_dinode. fsconst.
  rewrite put_addrs_out by lia. by rewrite put32_ne, !put16_ne by lia.
Qed.

(** What [iupdate] stores is what [ilock] loads. *)
Lemma get_put_dinode i j o m : inode_ok i -> get_dinode o (put_dinode i o m) j = disk_fields i j.
Proof.
  intros [Ht Hma Hmi Hn Hs Ha Hl]. unfold get_dinode, put_dinode, disk_fields.
  set (m5 := put32 _ (o + 8) _). rewrite <- Hl, get_addrs_put by done.
  assert (Hout : forall b, b < o + 12 -> put_addrs m5 (o + 12) (i_addrs i) b = m5 b)
    by (intros; apply put_addrs_out; lia).
  assert (E0 : s16 (get16 m5 o) = i_type i).
  { rewrite (get16_ext (put16 m o (i_type i))); [by apply s16_get16_put16|]. intros b Hb. unfold m5.
    by rewrite put32_ne, (put16_ne _ (o + 6)), (put16_ne _ (o + 4)), (put16_ne _ (o + 2)) by lia. }
  assert (E2 : s16 (get16 m5 (o + 2)) = i_major i).
  { rewrite (get16_ext (put16 (put16 m o (i_type i)) (o + 2) (i_major i))); [by apply s16_get16_put16|]. intros b Hb. unfold m5.
    by rewrite put32_ne, (put16_ne _ (o + 6)), (put16_ne _ (o + 4)) by lia. }
  assert (E4 : s16 (get16 m5 (o + 4)) = i_minor i).
  { rewrite (get16_ext (put16 (put16 (put16 m o (i_type i)) (o + 2) (i_major i)) (o + 4) (i_minor i)));
      [by apply s16_get16_put16|]. intros b Hb. unfold m5. by rewrite put32_ne, (put16_ne _ (o + 6)) by lia. }
  assert (E6 : s16 (get16 m5 (o + 6)) = i_nlink i).
  { unfold m5. set (m4 := put16 _ (o + 6) _). rewrite (get16_ext m4); [by apply s16_get16_put16|]. intros b Hb.
    by rewrite put32_ne by lia. }
  rewrite (get32_ext m5), (get16_ext m5 _ o), (get16_ext m5 _ (o + 2)), (get16_ext m5 _ (o + 4)), (get16_ext m5 _ (o + 6))
    by (intros; apply Hout; lia).
  rewrite E0, E2, E4, E6.
  unfold m5. rewrite get32_put32_eq by done. by destruct j.
Qed.

Lemma get_addrs_ext m m' n : forall o,
  (forall b, o <= b < o + 4 * Z.of_nat n -> m' b = m b) -> get_addrs m' o n = get_addrs m o n.
Proof.
  induction n as [|n IH]; intros o H; [done|]. cbn [get_addrs]. f_equal.
  - apply get32_ext. intros b Hb. apply H. lia.
  - apply IH. intros b Hb. apply H. lia.
Qed.

Lemma get_dinode_ext m m' o j :
  (forall b, o <= b < o + DINODE_SIZE -> m' b = m b) -> get_dinode o m' j = get_dinode o m j.
Proof.
  intros H. change DINODE_SIZE with 64 in H. unfold get_dinode. fsconst.
  by rewrite (get_addrs_ext m), (get32_ext m), (get16_ext m _ o), (get16_ext m _ (o + 2)), (get16_ext m _ (o + 4)),
    (get16_ext m _ (o + 6)) by (intros b Hb; apply H; lia).
Qed.

(** The slots of two inodes of the same block do not overlap. *)
Lemma dinode_slots a b :
  a <> b -> a / IPB = b / IPB -> dinode_off a + DINODE_SIZE <= dinode_off b \/ dinode_off b + DINODE_SIZE <= dinode_off a.
Proof. unfold dinode_off. change IPB with 8. change DINODE_SIZE with 64. intros. zlia. Qed.

Section FsInode.
Context {D : Type} `{LD : LoggedDisk D}.

(** The inode block of [inum] after an update with [i]. *)
Definition updated (sb : superblock) (i : inode) (v : Z -> mem) : Z -> mem :=
  let y := IBLOCK (i_inum i) sb in <[y := put_dinode i (dinode_off (i_inum i)) (v y)]> v.

(** ** Changing a block that is not the file's *)

Lemma other_write v sb A y m :
  fs_ok v sb -> file_ok v sb A -> other_block v sb A y -> y <> 1 ->
  (forall q, place_ok q -> ptr (<[y := m]> v) A q = ptr v A q) /\
  (forall c, 0 <= c < sb_size sb -> used (<[y := m]> v) sb c = used v sb c) /\
  fs_ok (<[y := m]> v) sb /\ file_ok (<[y := m]> v) sb A.
Proof using.
  intros Hfs Hf (Hu & HB & Hp) H1.
  assert (He : forall q k, place_ok q -> entry (<[y := m]> v) (ptr v A q) k = entry v (ptr v A q) k).
  { intros q k Hq. apply entry_same. apply fn_lookup_insert_ne. intros E. by apply (Hp q Hq). }
  assert (Hptr : forall q, place_ok q -> ptr (<[y := m]> v) A q = ptr v A q).
  { intros [k|k|j|j k] Hq; [done|by apply (He (InInode NDIRECT))|by apply (He (InInode (NDIRECT + 1)))|].
    cbn [ptr]. rewrite (He (InInode (NDIRECT + 1))) by done. apply (He (InDbl j)), Hq. }
  assert (Hus : forall c, 0 <= c < sb_size sb -> used (<[y := m]> v) sb c = used v sb c).
  { intros c Hc. unfold used. rewrite fn_lookup_insert_ne; [done|]. intros E. by apply (HB c Hc). }
  split_and!; [done|done| |].
  - destruct Hfs as [Hsb ? ? ? Hfr]. split; try done; [by rewrite fn_lookup_insert_ne|].
    intros b Hb. rewrite Hus by done. by apply Hfr.
  - destruct Hf as [Hlen Hblk Hinj]. split; [done| |].
    + intros q Hq. rewrite Hptr by done. intros Hnz. destruct (Hblk q Hq Hnz) as (Hdq & Huq). split; [done|].
      rewrite Hus; [done|]. destruct Hdq as (_ & ? & _). lia.
    + intros q r Hq Hr. rewrite !Hptr by done. by apply Hinj.
Qed.

(** Inode blocks belong to no file. *)
Lemma iblock_other v sb A inum :
  fs_ok v sb -> file_ok v sb A -> 0 <= inum < sb_ninodes sb ->
  other_block v sb A (IBLOCK inum sb) /\ IBLOCK inum sb <> 1 /\ ld_home (IBLOCK inum sb).
Proof using.
  intros Hfs Hf Hin. destruct (fo_imap _ _ Hfs inum Hin) as (_ & Hpos & Hh & HB).
  assert (H1 : IBLOCK inum sb <> 1) by (intros E; rewrite E in Hh; by apply ld_home_sb).
  split; [|done]. split_and!; [|done|].
  - intros Hy. destruct (used v sb (IBLOCK inum sb)) eqn:Hu; [done|].
    destruct (fo_free _ _ Hfs _ Hy Hu) as (_ & _ & _ & Hn). by destruct (Hn inum Hin).
  - intros p Hp E. destruct (fi_blk _ _ _ Hf p Hp ltac:(lia)) as ((_ & _ & _ & Hn) & _). by destruct (Hn inum Hin).
Qed.

(** ** [iupdate] *)

Lemma iupdate_ok s ip i v sb L H :
  icache s !! ip = Some i -> i_dev i = 1 -> fsb s = sb -> ld_home (IBLOCK (i_inum i) sb) ->
  ld_view (fdisk s) v L H -> ld_open (fdisk s) -> IBLOCK (i_inum i) sb ∉ H.*2 ->
  Z.of_nat (length L) < ld_cap -> Z.of_nat (length L) + Z.of_nat (length H) < NBUF ->
  exists d, iupdate ip s = Ok (tt, set_fdisk d s) /\
    ld_view d (updated sb i v) (absorb (IBLOCK (i_inum i) sb) L) H /\ ld_open d.
Proof using.
  intros Hi Hdev Hsb Hh Hv Ho Hin Hcap Hbuf.
  destruct (change_ok (fdisk s) v L H _ (put_dinode i (dinode_off (i_inum i))) Hv Ho Hin Hh Hcap Hbuf)
    as (bp & d1 & d2 & d3 & d4 & R1 & _ & R2 & R3 & R4 & Hv4 & Ho4).
  exists d4. split; [|done]. unfold iupdate. mby (geti_eq s ip i Hi). rewrite Hdev, Hsb.
  mby (dop_ok _ s _ _ R1). mby (dop_ok _ (set_fdisk d1 s) _ _ R2). mby (dop_ok _ (set_fdisk d2 s) _ _ R3).
  apply (dop_ok _ (set_fdisk d3 s) _ _ R4).
Qed.

Lemma updated_synced sb i v : inode_ok i -> synced (updated sb i v) sb i.
Proof using.
  intros Hok. unfold synced, updated. rewrite fn_lookup_insert, get_put_dinode by done. by destruct i.
Qed.

(** Other inodes are as they were, in the same block or elsewhere. *)
Lemma updated_other sb i v j b :
  inode_ok i -> fs_ok v sb -> 0 <= i_inum i < sb_ninodes sb -> 0 <= b < sb_ninodes sb -> b <> i_inum i ->
  get_dinode (dinode_off b) (updated sb i v (IBLOCK b sb)) j = get_dinode (dinode_off b) (v (IBLOCK b sb)) j.
Proof using.
  intros Hok Hfs Hi Hb Hne. unfold updated. destruct (decide (IBLOCK b sb = IBLOCK (i_inum i) sb)) as [E|E].
  - rewrite E, fn_lookup_insert. apply get_dinode_ext. intros a Ha. apply put_dinode_out; [apply Hok|].
    rewrite (proj1 (fo_imap _ _ Hfs b Hb)), (proj1 (fo_imap _ _ Hfs _ Hi)) in E.
    destruct (dinode_slots b (i_inum i)); lia.
  - by rewrite fn_lookup_insert_ne.
Qed.

(** ** Cache entries *)

(** The state with entry [i] at [ip]. *)
Definition put_inode (ip : nat) (i : inode) (s : fsys D) : fsys D := set_icache (<[ip := i]> (icache s)) s.

Lemma put_inode_at ip i j s : icache s !! ip = Some j -> icache (put_inode ip i s) !! ip = Some i.
Proof using. intros H. apply list_lookup_insert_eq. by eapply lookup_lt_Some. Qed.

Lemma put_inode_twice ip i j s : put_inode ip i (put_inode ip j s) = put_inode ip i s.
Proof using. unfold put_inode, set_icache. cbn. by rewrite list_insert_insert_eq. Qed.

Lemma put_inode_id ip i s : icache s !! ip = Some i -> put_inode ip i s = s.
Proof using. intros H. unfold put_inode. rewrite list_insert_id by done. by destruct s. Qed.

Lemma seti_ok ip f i s : icache s !! ip = Some i -> seti (D := D) ip f s = Ok (tt, put_inode ip (f i) s).
Proof using. intros H. unfold seti, mset, put_inode. by rewrite (alter_insert _ _ _ i). Qed.

Lemma onilock_ok {A} ip (m : M sleeplock A) i a l s :
  icache s !! ip = Some i -> m (i_lock i) = Ok (a, l) ->
  onilock (D := D) ip m s = Ok (a, put_inode ip (set_i_lock l i) s).
Proof using.
  intros Hi Hm. unfold onilock. mby (geti_eq s ip i Hi). rewrite Hm. cbn. by rewrite (alter_insert _ _ _ i).
Qed.

(** ** [ilock] and [iunlock] *)

(** The entry after [ilock]: locked, and loaded when it was not valid. *)
Definition locked (pid : Z) (i : inode) : inode := set_i_lock (sl_held pid) i.
Definition loaded (v : Z -> mem) (sb : superblock) (i : inode) : inode :=
  set_i_valid 1 (get_dinode (dinode_off (i_inum i)) (v (IBLOCK (i_inum i) sb)) i).

Lemma ilock_valid s ip i :
  icache s !! ip = Some i -> 1 <= i_ref i -> i_lock i = sl_free -> i_valid i <> 0 ->
  ilock (D := D) ip s = Ok (tt, put_inode ip (locked (fpid s) i) s).
Proof using.
  intros Hi Hr Hl Hval. unfold ilock. mby (geti_eq s ip i Hi). rewrite (proj2 (Z.ltb_ge _ _)) by lia. mgo.
  mby (onilock_ok ip (acquiresleep (fpid s)) i tt (sl_held (fpid s)) s Hi ltac:(by rewrite Hl)).
  mby (geti_eq _ ip _ (put_inode_at ip (set_i_lock (sl_held (fpid s)) i) i s Hi)).
  cbn [i_valid set_i_lock]. by rewrite (proj2 (Z.eqb_neq _ _) Hval).
Qed.

Lemma ilock_load s ip i v sb L H :
  icache s !! ip = Some i -> 1 <= i_ref i -> i_lock i = sl_free -> i_valid i = 0 -> i_dev i = 1 -> fsb s = sb ->
  ld_view (fdisk s) v L H -> IBLOCK (i_inum i) sb ∉ H.*2 -> 0 <= IBLOCK (i_inum i) sb < ld_size ->
  Z.of_nat (length L) + Z.of_nat (length H) < NBUF -> i_type (loaded v sb i) <> 0 ->
  exists d, ilock ip s = Ok (tt, put_inode ip (loaded v sb (locked (fpid s) i)) (set_fdisk d s)) /\
    ld_view d v L H /\ (ld_open (fdisk s) -> ld_open d).
Proof using.
  intros Hi Hr Hl Hval Hdev Hsb Hv Hin Hon Hbuf Hty.
  destruct (peek_ok (fdisk s) v L H _ Hv Hin Hon Hbuf) as (bp & d1 & d2 & R1 & R2 & R3 & Hv2 & Ho2).
  exists d2. split; [|done]. unfold ilock. mby (geti_eq s ip i Hi). rewrite (proj2 (Z.ltb_ge _ _)) by lia. mgo.
  mby (onilock_ok ip (acquiresleep (fpid s)) i tt (sl_held (fpid s)) s Hi ltac:(by rewrite Hl)).
  fold (locked (fpid s) i). set (i1 := locked (fpid s) i). pose proof (put_inode_at ip i1 i s Hi) as Hi1.
  mby (geti_eq _ ip _ Hi1). change (i_valid i1) with (i_valid i). change (i_dev i1) with (i_dev i).
  change (i_inum i1) with (i_inum i). rewrite Hval. cbn [Z.eqb mwhen]. mgo.
  change (fsb (put_inode ip i1 s)) with (fsb s). rewrite Hdev, Hsb.
  mby (dop_ok _ (put_inode ip i1 s) _ _ R1). mby (dop_ok _ (set_fdisk d1 (put_inode ip i1 s)) _ _ R2).
  set (g := get_dinode (dinode_off (i_inum i)) (v (IBLOCK (i_inum i) sb))).
  mby (seti_ok ip g i1 (set_fdisk d1 (put_inode ip i1 s)) Hi1).
  change (put_inode ip (g i1) (set_fdisk d1 (put_inode ip i1 s))) with (put_inode ip (g i1) (put_inode ip i1 (set_fdisk d1 s))).
  rewrite put_inode_twice. mby (dop_ok _ (put_inode ip (g i1) (set_fdisk d1 s)) _ _ R3).
  change (set_fdisk d2 (put_inode ip (g i1) (set_fdisk d1 s))) with (put_inode ip (g i1) (set_fdisk d2 s)).
  pose proof (put_inode_at ip (g i1) i (set_fdisk d2 s) Hi) as Hi2.
  mby (seti_ok ip (set_i_valid 1) (g i1) _ Hi2). rewrite put_inode_twice.
  mby (geti_eq _ ip _ (put_inode_at ip (set_i_valid 1 (g i1)) i (set_fdisk d2 s) Hi)).
  change (i_type (set_i_valid 1 (g i1))) with (i_type (loaded v sb i)). by rewrite (proj2 (Z.eqb_neq _ _) Hty).
Qed.

Lemma iunlock_ok s ip i :
  icache s !! ip = Some i -> 1 <= i_ref i -> i_lock i = sl_held (fpid s) ->
  iunlock (D := D) ip s = Ok (tt, put_inode ip (set_i_lock sl_free i) s).
Proof using.
  intros Hi Hr Hl. unfold iunlock. mgo.
  mby (onilock_ok ip (holdingsleep (fpid s)) i true (sl_held (fpid s)) s Hi ltac:(by rewrite Hl, holdingsleep_held)).
  rewrite <- Hl. assert (Ei : set_i_lock (i_lock i) i = i) by (by destruct i). rewrite Ei, put_inode_id by done.
  mby (geti_eq s ip i Hi). cbn [negb orb]. rewrite (proj2 (Z.ltb_ge _ _)) by lia.
  apply onilock_ok; [done|]. by rewrite Hl.
Qed.

(** What [iupdate] stores, [ilock] reads back: after [iupdate] any cache entry
    for the same inode that is not valid is loaded by [ilock] with the very fields
    the inode had in memory; all other inodes on the disk are as before. *)
Theorem iupdate_ilock s ip i v sb L :
  fs_ok v sb -> icache s !! ip = Some i -> i_dev i = 1 -> inode_ok i -> i_type i <> 0 ->
  0 <= i_inum i < sb_ninodes sb -> fsb s = sb -> ld_view (fdisk s) v L [] -> ld_open (fdisk s) ->
  Z.of_nat (length L) < ld_cap ->
  exists d v' L', iupdate ip s = Ok (tt, set_fdisk d s) /\ ld_view d v' L' [] /\
    (forall t jp j, fdisk t = d -> fsb t = sb -> icache t !! jp = Some j -> i_dev j = 1 -> i_inum j = i_inum i ->
       1 <= i_ref j -> i_lock j = sl_free -> i_valid j = 0 ->
       exists d', ilock jp t = Ok (tt, put_inode jp (disk_fields i (set_i_valid 1 (locked (fpid t) j))) (set_fdisk d' t)) /\
         ld_view d' v' L' []) /\
    (forall b j, 0 <= b < sb_ninodes sb -> b <> i_inum i ->
       get_dinode (dinode_off b) (v' (IBLOCK b sb)) j = get_dinode (dinode_off b) (v (IBLOCK b sb)) j).
Proof using.
  intros Hfs Hi Hdev Hok Hty Hin Hsb Hv Ho Hcap. destruct (fo_imap _ _ Hfs _ Hin) as (_ & _ & Hh & _).
  pose proof ld_sizes as Hls. pose proof (ld_home_on _ Hh) as Hon. pose proof (length_absorb (IBLOCK (i_inum i) sb) L) as Hla.
  destruct (iupdate_ok s ip i v sb L [] Hi Hdev Hsb Hh Hv Ho (not_elem_of_nil _) Hcap) as (d & R & Hvd & Hod); [cbn; lia|].
  exists d, (updated sb i v), (absorb (IBLOCK (i_inum i) sb) L). split_and!; [done|done| |].
  - intros t jp j Ed Esb Hj Hjd Ejn Hr Hl Hval. subst d.
    assert (Eld : forall k, i_inum k = i_inum i -> loaded (updated sb i v) sb k = disk_fields i (set_i_valid 1 k)).
    { intros k Ek. unfold loaded, updated. rewrite Ek, fn_lookup_insert, get_put_dinode by done. by destruct k. }
    destruct (ilock_load t jp j _ sb _ [] Hj Hr Hl Hval Hjd Esb Hvd (not_elem_of_nil _)) as (d' & R' & Hvd' & _).
    + by rewrite Ejn.
    + cbn. lia.
    + by rewrite Eld.
    + exists d'. rewrite Eld in R' by done. by split.
  - intros b j Hb Hne. by apply updated_other.
Qed.
End FsInode.

(** ** The root directory of the small disk *)

Definition mini_addrs : list Z := 36 :: replicate 12 0.
Definition mini_inode : inode := mkinode 1 1 1 (sl_held 1) 1 T_DIR 0 0 1 32 mini_addrs.

Lemma mini_inode_ok : inode_ok mini_inode.
Proof.
  split; [vm_compute; split; discriminate || reflexivity..| |done]. cbn. repeat (apply Forall_cons; split; [unfold is_u32; lia|]). apply Forall_nil_2.
Qed.

Lemma iupdate_ilock_witness :
  exists (s t : fsys lst) d d', iupdate (LD := mini_ld) 0 s = Ok (tt, set_fdisk d s) /\ fdisk t = d /\
    ilock (LD := mini_ld) 0 t = Ok (tt, put_inode 0 mini_inode (set_fdisk d' t)).
Proof.
  destruct mini_state as (s & v & Hv & Ho & Hsb & Hic & Hlk & Hvd).
  destruct (iupdate_ilock (LD := mini_ld) (set_icache [mini_inode] s) 0 mini_inode v mini_sb [])
    as (d & v' & L' & R & _ & Hl & _); try done; [by apply mini_fs_ok|apply mini_inode_ok|].
  set (j := mkinode 1 1 1 sl_free 0 0 0 0 0 0 []).
  destruct (Hl (mkfsys false [j] mini_sb 1 0%nat d) 0%nat j) as (d' & R' & _); try done.
  eexists _, _, d, d'. split; [exact R|]. split; [|exact R']. reflexivity.
Defined.
