(* ===== verification/FsIO.v ===== *)
(** * Reading and writing files: [readi] and [writei] of [fs.c]

    The bytes of a file are those of the blocks of its tree.  [readi] returns
    them, [writei] changes them and nothing else, and keeps the inode on the disk
    equal to the one in memory. *)

From Stdlib Require Import ZArith Lia String.
From stdpp Require Import base numbers functions list.
From S2P Require Import Prelude Bytes Params Locks Bio Log LogDisk Fs FsBlocks FsFile FsInode.

Local Open Scope Z_scope.
Local Open Scope kernel_scope.

(** Byte [o] of a file; a block that is missing reads as zeros. *)
Definition file_byte (v : Z -> mem) (A : list Z) (o : Z) : Z :=
  let x := ptr v A (place_of (o / BSIZE)) in
  if x =? 0 then 0 else v x (o mod BSIZE).

(** A file of [size] bytes that has all its blocks. *)
Definition dense (v : Z -> mem) (A : list Z) (size : Z) : Prop :=
  forall o, 0 <= o < size -> ptr v A (place_of (o / BSIZE)) <> 0.

(** The numbers of the blocks that hold the [n] bytes from [off]. *)
Definition blocks (off n : Z) : list Z :=
  if n <=? 0 then [] else seqZ (off / BSIZE) ((off + n - 1) / BSIZE - off / BSIZE + 1).

(** The bytes of one iteration of [readi] and [writei]. *)
Definition chunk (off n : Z) : Z := Z.min n (BSIZE - off mod BSIZE).

Lemma chunk_block off n o :
  0 <= off -> 0 < n -> off <= o < off + chunk off n -> o / BSIZE = off / BSIZE /\ o mod BSIZE = off mod BSIZE + (o - off).
Proof. unfold chunk. fsconst. intros. zlia. Qed.

Lemma chunk_range off n : 0 <= off -> 0 < n -> 0 < chunk off n <= n /\ off mod BSIZE + chunk off n <= BSIZE.
Proof. unfold chunk. fsconst. intros. zlia. Qed.

(** The block of the bytes that come after the chunk. *)
Lemma chunk_rest off n o :
  0 <= off -> 0 < n -> off <= o < off + n -> o / BSIZE = off / BSIZE -> o < off + chunk off n.
Proof. unfold chunk. fsconst. intros. zlia. Qed.

Lemma blocks_step off n :
  0 <= off -> 0 < n -> blocks off n = off / BSIZE :: blocks (off + chunk off n) (n - chunk off n).
Proof.
  intros Ho Hn. pose proof (chunk_range off n Ho Hn). unfold blocks. destruct (Z.leb_spec n 0); [lia|].
  assert (Hlast : off / BSIZE <= (off + n - 1) / BSIZE) by (fsconst; zlia).
  rewrite seqZ_cons by lia. f_equal. destruct (Z.leb_spec (n - chunk off n) 0).
  - assert ((off + n - 1) / BSIZE = off / BSIZE) as ->.
    { destruct (chunk_block off n (off + n - 1)); lia. }
    apply seqZ_nil. lia.
  - assert (Hnext : (off + chunk off n) / BSIZE = Z.succ (off / BSIZE)) by (unfold chunk in *; fsconst; zlia).
    replace (off + chunk off n + (n - chunk off n) - 1) with (off + n - 1) by lia. rewrite Hnext.
    f_equal. lia.
Qed.

Section FsIO.
Context {D : Type} `{LD : LoggedDisk D}.

(** ** Reading *)

(** What reading needs: the inode, its tree, and a buffer to spare. *)
Record renv (s : fsys D) (ip : nat) (i : inode) (v : Z -> mem) (sb : superblock) (L : list Z) : Prop := {
  re_inode : icache s !! ip = Some i;
  re_dev : i_dev i = 1;
  re_file : file_ok v sb (i_addrs i);
  re_view : ld_view (fdisk s) v L [];
  re_buf : Z.of_nat (length L) < NBUF
}.

(** The state but for the disk below, which has the same contents. *)
Definition same_view (s s' : fsys D) (v : Z -> mem) (L : list Z) : Prop :=
  exists d, s' = set_fdisk d s /\ ld_view d v L [] /\ (ld_open (fdisk s) -> ld_open d).

Lemma same_view_trans s s1 s2 v L : same_view s s1 v L -> same_view s1 s2 v L -> same_view s s2 v L.
Proof using. intros (d1 & -> & _ & O1) (d2 & -> & V2 & O2). exists d2. split_and!; auto. Qed.

Lemma same_view_renv s s' ip i v sb L : renv s ip i v sb L -> same_view s s' v L -> renv s' ip i v sb L.
Proof using. intros [? ? ? ? ?] (d & -> & ? & _). by split. Qed.

(** A block of the tree is looked at. *)
Lemma renv_bread s ip i v sb L q :
  renv s ip i v sb L -> place_ok q -> ptr v (i_addrs i) q <> 0 ->
  exists bp s1 s2, dop (ld_bread 1 (ptr v (i_addrs i) q)) s = Ok (bp, s1) /\
    dop (ld_bdata bp) s1 = Ok (v (ptr v (i_addrs i) q), s1) /\
    dop (ld_brelse bp) s1 = Ok (tt, s2) /\ same_view s s2 v L.
Proof using.
  intros [Hi Hdev Hf Hv Hb] Hq Hnz. destruct (fi_blk _ _ _ Hf q Hq Hnz) as ((Hh & _) & _).
  destruct (peek_ok (fdisk s) v L [] _ Hv (not_elem_of_nil _) (ld_home_on _ Hh)) as (bp & d1 & d2 & R1 & R2 & R3 & V & O);
    [cbn; lia|].
  exists bp, (set_fdisk d1 s), (set_fdisk d2 s). split_and!; try by apply dop_ok.
  - by apply (dop_ok _ (set_fdisk d1 s)).
  - by apply (dop_ok _ (set_fdisk d1 s)).
  - by exists d2.
Qed.

(** An entry that is there is returned as it is. *)
Lemma slot_hit s s' bp m k :
  dop (ld_bdata bp) s = Ok (m, s) -> dop (ld_brelse bp) s = Ok (tt, s') -> get32 m (4 * k) <> 0 ->
  bmap_slot (D := D) 1 bp k s = Ok (get32 m (4 * k), s').
Proof using.
  intros R1 R2 Hnz. unfold bmap_slot. mby R1. rewrite (proj2 (Z.eqb_neq _ _) Hnz). mgo. mby R2. done.
Qed.

(** One level down in a tree that has the entry. *)
Lemma down_hit s ip i v sb L p q k :
  renv s ip i v sb L -> place_ok p -> parent p = Some (q, k) -> ptr v (i_addrs i) p <> 0 ->
  exists bp s1 s2, dop (ld_bread 1 (ptr v (i_addrs i) q)) s = Ok (bp, s1) /\
    bmap_slot 1 bp k s1 = Ok (ptr v (i_addrs i) p, s2) /\ same_view s s2 v L.
Proof using.
  intros He Hp Hpar Hnz. destruct (parent_ok _ _ _ Hp Hpar) as (Hq & _).
  rewrite (ptr_parent _ _ _ _ _ Hpar) in *. set (y := ptr v (i_addrs i) q) in *.
  assert (Hy : y <> 0) by (intros E; by rewrite E in Hnz).
  destruct (renv_bread s ip i v sb L q He Hq Hy) as (bp & s1 & s2 & R1 & R2 & R3 & Hs).
  exists bp, s1, s2. split_and!; [done| |done]. unfold entry in *. rewrite (proj2 (Z.eqb_neq _ _) Hy) in *.
  eapply slot_hit; done.
Qed.

Lemma addr_hit s ip i v sb L k :
  renv s ip i v sb L -> place_ok (InInode k) -> ptr v (i_addrs i) (InInode k) <> 0 ->
  bmap_addr (D := D) ip k s = Ok (ptr v (i_addrs i) (InInode k), s).
Proof using.
  intros [Hi Hdev Hf Hv Hb] Hk Hnz. unfold bmap_addr. mby (addr_eq s ip i k Hi (fi_len _ _ _ Hf) Hk).
  cbn [ptr] in *. by rewrite (proj2 (Z.eqb_neq _ _) Hnz).
Qed.

(** [bmap] of a block that is there changes nothing. *)
Lemma bmap_hit s ip i v sb L bn :
  renv s ip i v sb L -> 0 <= bn < MAXFILE -> ptr v (i_addrs i) (place_of bn) <> 0 ->
  exists s', bmap ip bn s = Ok (ptr v (i_addrs i) (place_of bn), s') /\ same_view s s' v L.
Proof using.
  intros He Hbn Hnz. destruct (place_of_ok bn Hbn) as (Hok & _). unfold bmap.
  mby (geti_eq s ip i (re_inode _ _ _ _ _ _ He)). rewrite (re_dev _ _ _ _ _ _ He).
  assert (Hup : forall p q k, parent p = Some (q, k) -> ptr v (i_addrs i) p <> 0 -> ptr v (i_addrs i) q <> 0).
  { intros p q k Hpar Hp E. rewrite (ptr_parent _ _ _ _ _ Hpar), E in Hp. done. }
  assert (Hrefl : same_view s s v L).
  { exists (fdisk s). rewrite set_fdisk_id. split_and!; [done|apply He|done]. }
  unfold place_of in *. destruct (Z.ltb_spec bn NDIRECT) as [H1|H1].
  { exists s. by rewrite (addr_hit _ _ _ _ _ _ _ He Hok Hnz). }
  destruct (Z.ltb_spec (bn - NDIRECT) NINDIRECT) as [H2|H2].
  - mby (addr_hit _ _ _ _ _ _ NDIRECT He ltac:(done) (Hup (InInd _) _ _ eq_refl Hnz)).
    destruct (down_hit _ _ _ _ _ _ (InInd _) _ _ He Hok eq_refl Hnz) as (bp & s1 & s2 & R1 & R2 & Hs). exists s2. mby R1. done.
  - destruct (Z.ltb_spec (bn - NDIRECT - NINDIRECT) NBDE) as [_|?]; [|fsconst; lia].
    pose proof (Hup (InLeaf _ _) _ _ eq_refl Hnz) as Hnz1. pose proof (Hup (InDbl _) _ _ eq_refl Hnz1) as Hnz2.
    mby (addr_hit _ _ _ _ _ _ (NDIRECT + 1) He ltac:(done) Hnz2).
    destruct (down_hit _ _ _ _ _ _ (InDbl _) _ _ He (proj1 Hok) eq_refl Hnz1) as (bp & s1 & s2 & R1 & R2 & Hs).
    pose proof (same_view_renv _ _ _ _ _ _ _ He Hs) as He2.
    destruct (down_hit _ _ _ _ _ _ (InLeaf _ _) _ _ He2 Hok eq_refl Hnz) as (bp' & s3 & s4 & R3 & R4 & Hs').
    exists s4. mby R1. mby R2. mby R3. split; [done|]. by eapply same_view_trans.
Qed.

(** Iterations enough for the [n] bytes from [off]. *)
Definition enough (fuel : nat) (off n : Z) : Prop := n <= Z.of_nat fuel * BSIZE - off mod BSIZE \/ n <= 0.

Lemma enough_step fuel off n :
  0 <= off -> 0 < n -> enough fuel off n ->
  exists fuel', fuel = S fuel' /\ enough fuel' (off + chunk off n) (n - chunk off n).
Proof using.
  intros Ho Hn [H|?]; [|lia]. destruct fuel as [|fuel']; [fsconst; zlia|]. exists fuel'. split; [done|].
  unfold enough, chunk. fsconst. destruct (Z.le_gt_cases n (512 - off mod 512)); [right; lia|left]. zlia.
Qed.

Lemma io_fuel_enough off n : enough (io_fuel n) off n.
Proof using. unfold enough, io_fuel. fsconst. destruct (Z.le_gt_cases n 0); [by right|left]. zlia. Qed.

Lemma readi_loop_ok fuel : forall s ip i v sb L tot off n dst,
  renv s ip i v sb L -> 0 <= off -> tot <= n -> off + (n - tot) <= MAXFILE * BSIZE -> enough fuel off (n - tot) ->
  (forall o, off <= o < off + (n - tot) -> ptr v (i_addrs i) (place_of (o / BSIZE)) <> 0) ->
  exists s', readi_loop fuel ip tot off n dst s =
      Ok (dst ++ load (file_byte v (i_addrs i)) off (Z.to_nat (n - tot)), s') /\ same_view s s' v L.
Proof using.
  induction fuel as [fuel IH] using lt_wf_ind. intros s ip i v sb L tot off n dst He Ho Ht Hmax Hfuel Hd.
  destruct (Z.eq_dec tot n) as [->|Hne].
  { exists s. rewrite Z.sub_diag. cbn [Z.to_nat load]. rewrite app_nil_r. unfold readi_loop.
    destruct fuel; rewrite Z.ltb_irrefl; (split; [done|]); exists (fdisk s); rewrite set_fdisk_id; split_and!; done || apply He. }
  destruct (enough_step fuel off (n - tot) Ho ltac:(lia) Hfuel) as (fuel' & -> & Hfuel').
  pose proof (chunk_range off (n - tot) Ho ltac:(lia)) as Hm. set (m := chunk off (n - tot)) in *.
  cbn [readi_loop]. rewrite (proj2 (Z.ltb_lt tot n)) by lia. cbn [negb].
  assert (Hbn : 0 <= off / BSIZE < MAXFILE) by (fsconst; zlia).
  assert (Hnz : ptr v (i_addrs i) (place_of (off / BSIZE)) <> 0) by (apply Hd; lia).
  destruct (bmap_hit _ _ _ _ _ _ _ He Hbn Hnz) as (s1 & R1 & S1).
  pose proof (same_view_renv _ _ _ _ _ _ _ He S1) as He1.
  destruct (renv_bread _ _ _ _ _ _ _ He1 (proj1 (place_of_ok _ Hbn)) Hnz) as (bp & s2 & s3 & R2 & R3 & R4 & S3).
  pose proof (same_view_trans _ _ _ _ _ S1 S3) as S13. pose proof (same_view_renv _ _ _ _ _ _ _ He S13) as He3.
  destruct (IH fuel' ltac:(lia) s3 ip i v sb L (tot + m) (off + m) n
              (dst ++ load (v (ptr v (i_addrs i) (place_of (off / BSIZE)))) (off mod BSIZE) (Z.to_nat m)))
    as (s' & R & S'); try done; try lia.
  { replace (n - (tot + m)) with (n - tot - m) by lia. done. }
  { intros o Hoo. apply Hd. lia. }
  exists s'. mby (geti_eq s ip i (re_inode _ _ _ _ _ _ He)). rewrite (re_dev _ _ _ _ _ _ He).
  mby R1. mby R2. mby R3. mby R4. fold (chunk off (n - tot)). fold m. rewrite R. split; [|by eapply same_view_trans].
  do 2 f_equal. rewrite <- app_assoc. f_equal. replace (Z.to_nat (n - tot)) with (Z.to_nat m + Z.to_nat (n - (tot + m)))%nat by lia.
  rewrite load_app. rewrite Z2Nat.id by lia. f_equal. apply load_copy. intros k Hk. unfold file_byte.
  destruct (chunk_block off (n - tot) (off + k)) as (E1 & E2); [lia|lia|fold m; lia|]. rewrite E1, E2.
  rewrite (proj2 (Z.eqb_neq _ _) Hnz). f_equal. lia.
Qed.

(** [readi] returns the bytes of the file from [off], up to its end. *)
Lemma readi_ok dr s ip i v sb L off n (m := Z.min n (i_size i - off)) :
  renv s ip i v sb L -> i_type i <> T_DEV -> 0 <= off <= i_size i -> 0 <= n -> off + n < 2 ^ 32 ->
  i_size i <= MAXFILE * BSIZE -> dense v (i_addrs i) (i_size i) ->
  exists s', readi dr ip off n s = Ok ((m, load (file_byte v (i_addrs i)) off (Z.to_nat m)), s') /\ same_view s s' v L.
Proof using.
  intros He Ht Ho Hn Hov Hmax Hd. unfold readi. mby (geti_eq s ip i (re_inode _ _ _ _ _ _ He)).
  rewrite (proj2 (Z.eqb_neq _ _) Ht). rewrite u32_small by (unfold is_u32; lia).
  rewrite Z.gtb_ltb. rewrite (proj2 (Z.ltb_ge _ _)) by lia. rewrite (proj2 (Z.ltb_ge (off + n) off)) by lia. cbn [orb].
  assert (En : (if off + n >? i_size i then u32 (i_size i - off) else n) = m).
  { rewrite Z.gtb_ltb. unfold m. destruct (Z.ltb_spec (i_size i) (off + n)); [|lia].
    rewrite u32_small by (unfold is_u32; fsconst; lia). lia. }
  rewrite En. assert (Hm : 0 <= m /\ off + m <= i_size i) by (unfold m; lia).
  destruct (readi_loop_ok (io_fuel m) s ip i v sb L 0 off m [] He) as (s' & R & S'); [lia|lia|fsconst; lia| | |].
  - rewrite Z.sub_0_r. apply io_fuel_enough.
  - intros o Hoo. apply Hd. lia.
  - exists s'. mby R. rewrite Z.sub_0_r in *. split; [|done]. rewrite s32_small by (fsconst; lia). done.
Qed.

(** ** Writing *)

(** The places a write of [n] bytes from [off] goes through, and how many have no block. *)
Definition places (off n : Z) : list place := concat (path <$> blocks off n).
Definition nmiss (v : Z -> mem) (A : list Z) (ps : list place) : Z :=
  Z.of_nat (length (filter (fun p => ptr v A p = 0) (remove_dups ps))).

Lemma ptr_up v A p q k : parent p = Some (q, k) -> ptr v A p <> 0 -> ptr v A q <> 0.
Proof using. intros Hpar Hp E. rewrite (ptr_parent _ _ _ _ _ Hpar), E in Hp. done. Qed.

Lemma path_ok bn p : 0 <= bn < MAXFILE -> p ∈ path bn -> place_ok p.
Proof using.
  intros Hbn. unfold path. destruct (Z.ltb_spec bn NDIRECT); [intros ->%list_elem_of_singleton; cbn; fsconst; lia|].
  destruct (Z.ltb_spec (bn - NDIRECT) NINDIRECT); rewrite ?list.elem_of_cons, elem_of_nil; intros Hp;
    destruct_or?; subst; done || (cbn; fsconst; zlia).
Qed.

Lemma path_NoDup bn : NoDup (path bn).
Proof using.
  unfold path. destruct (_ <? _); [apply NoDup_singleton|]. destruct (_ <? _);
    repeat (apply NoDup_cons; split; [rewrite ?list.elem_of_cons, elem_of_nil; intros ?; destruct_or?; congruence|]);
    apply NoDup_nil_2.
Qed.

Lemma path_up v A bn p : p ∈ path bn -> ptr v A (place_of bn) <> 0 -> ptr v A p <> 0.
Proof using.
  unfold path, place_of. destruct (_ <? _); [by intros ->%list_elem_of_singleton|]. destruct (_ <? _).
  - rewrite ?list.elem_of_cons, elem_of_nil. intros [->|[->|[]]]; [|done]. by apply (ptr_up _ _ (InInd _) _ _ eq_refl).
  - rewrite ?list.elem_of_cons, elem_of_nil. intros [->|[->|[->|[]]]] Hl; [|by apply (ptr_up _ _ (InLeaf _ _) _ _ eq_refl Hl)|done].
    eapply (ptr_up _ _ (InDbl _) _ _ eq_refl). by apply (ptr_up _ _ (InLeaf _ _) _ _ eq_refl Hl).
Qed.

Lemma misses_filter v A ps :
  foldr (fun p n => miss v A p + n) 0 ps = Z.of_nat (length (filter (fun p => ptr v A p = 0) ps)).
Proof using.
  induction ps as [|p ps IH]; [done|]. cbn [foldr]. rewrite IH, filter_cons. unfold miss.
  destruct (Z.eqb_spec (ptr v A p) 0); destruct (decide _); cbn [length]; lia.
Qed.

(** Once the places [ps] have their blocks, only the others are missing. *)
Lemma nmiss_step v A v' A' ps qs :
  NoDup ps -> (forall p, p ∈ ps -> ptr v' A' p <> 0) ->
  (forall q, q ∈ qs -> q ∉ ps -> ptr v' A' q = ptr v A q) ->
  foldr (fun p n => miss v A p + n) 0 ps + nmiss v' A' qs <= nmiss v A (ps ++ qs).
Proof using.
  intros Hnd Hps Hqs. rewrite misses_filter. unfold nmiss. rewrite <- Nat2Z.inj_add, <- length_app. apply inj_le.
  apply submseteq_length, NoDup_submseteq.
  - apply NoDup_app. split_and!; [by apply NoDup_filter| |apply NoDup_filter, NoDup_remove_dups].
    intros p [_ Hp]%list_elem_of_filter [Hz _]%list_elem_of_filter. by apply (Hps p).
  - intros p. rewrite elem_of_app, !list_elem_of_filter, !elem_of_remove_dups, elem_of_app.
    intros [[Hz Hp]|[Hz Hp]]; [tauto|]. assert (p ∉ ps) by (intros Hin; by apply (Hps p)). rewrite Hqs in Hz by done. tauto.
Qed.

(** A block of contents changes: the tree does not. *)
Lemma leaf_write v sb A p m (x := ptr v A p) :
  fs_ok v sb -> file_ok v sb A -> place_ok p -> is_leaf p -> x <> 0 ->
  (forall q, place_ok q -> ptr (<[x := m]> v) A q = ptr v A q) /\
  fs_ok (<[x := m]> v) sb /\ file_ok (<[x := m]> v) sb A /\ nfree (<[x := m]> v) sb = nfree v sb.
Proof using.
  intros Hfs Hf Hp Hl Hx. destruct (fi_blk _ _ _ Hf p Hp Hx) as (Hd & _). fold x in Hd.
  assert (He : forall q k, place_ok q -> ~ is_leaf q -> entry (<[x := m]> v) (ptr v A q) k = entry v (ptr v A q) k).
  { intros q k Hq Hnl. unfold entry. destruct (Z.eqb_spec (ptr v A q) 0) as [|Hnz]; [done|].
    rewrite fn_lookup_insert_ne; [done|]. intros E. apply Hnl. by rewrite (fi_inj _ _ _ Hf q p Hq Hp (eq_sym E) Hnz). }
  assert (Hptr : forall q, place_ok q -> ptr (<[x := m]> v) A q = ptr v A q).
  { intros [k|k|j|j k] Hq; [done| | |].
    - apply (He (InInode NDIRECT)); [done|]. cbn. lia.
    - apply (He (InInode (NDIRECT + 1))); [done|]. cbn. fsconst. lia.
    - cbn [ptr]. rewrite (He (InInode (NDIRECT + 1))); [|done|cbn; fsconst; lia].
      apply (He (InDbl j)); [apply Hq|]. cbn. tauto. }
  split_and!; [done|by apply fs_ok_data| |by apply nfree_ext; intros; apply used_data].
  destruct Hf as [Hlen Hblk Hinj]. split; [done| |].
  - intros q Hq. rewrite Hptr by done. intros Hnz. destruct (Hblk q Hq Hnz) as (Hdq & Huq). split; [done|].
    rewrite used_data; [done|done|]. destruct Hdq as (_ & ? & _). lia.
  - intros q r Hq Hr. rewrite !Hptr by done. by apply Hinj.
Qed.

(** The bytes from [off] are now those of [g], the others and all other blocks are as before. *)
Record wrote (sb : superblock) (v : Z -> mem) (A : list Z) (v' : Z -> mem) (A' : list Z) (off n : Z) (g : mem) : Prop := {
  wr_byte : forall o, 0 <= o < MAXFILE * BSIZE ->
    file_byte v' A' o = if decide (off <= o < off + n) then g o else file_byte v A o;
  wr_keep : forall q, place_ok q -> ptr v A q <> 0 -> ptr v' A' q = ptr v A q;
  wr_new : forall o, off <= o < off + n -> ptr v' A' (place_of (o / BSIZE)) <> 0;
  wr_frame : forall y, other_block v sb A y -> v' y = v y /\ other_block v' sb A' y
}.

Lemma wrote_trans sb v0 A0 v1 A1 v2 A2 off n1 n2 g :
  0 <= off -> 0 <= n1 -> 0 <= n2 -> off + n1 + n2 <= MAXFILE * BSIZE ->
  wrote sb v0 A0 v1 A1 off n1 g -> wrote sb v1 A1 v2 A2 (off + n1) n2 g -> wrote sb v0 A0 v2 A2 off (n1 + n2) g.
Proof using.
  intros Ho H1 H2 Hmax [B1 O1 N1 F1] [B2 O2 N2 F2]. split.
  - intros o Hoo. rewrite B2, B1 by done. repeat destruct (decide _); done || lia.
  - intros q Hq Hnz. rewrite O2, O1; try done. by rewrite O1.
  - intros o Hoo. destruct (Z.lt_ge_cases o (off + n1)); [|apply N2; lia]. rewrite O2; [apply N1; lia|apply place_of_ok; fsconst; zlia|apply N1; lia].
  - intros y Hy. destruct (F1 y Hy) as (E1 & Hy1). destruct (F2 y Hy1) as (E2 & Hy2). split; [congruence|done].
Qed.

Lemma path_leaf bn p : p ∈ path bn -> is_leaf p -> p = place_of bn.
Proof using.
  unfold path, place_of. destruct (_ <? _); [by intros ->%list_elem_of_singleton|].
  destruct (_ <? _); rewrite ?list.elem_of_cons, elem_of_nil; intros ?; destruct_or?; subst; cbn; fsconst; done || lia.
Qed.

(** Allocation does not change the bytes. *)
Lemma grown_bytes sb v A v' A' bn o :
  grown sb v A v' A' (path bn) -> 0 <= bn < MAXFILE -> 0 <= o < MAXFILE * BSIZE -> file_byte v' A' o = file_byte v A o.
Proof using.
  intros [_ _ Gold Gelse Gdata Gzero _] Hbn Ho. assert (Hbo : 0 <= o / BSIZE < MAXFILE) by (fsconst; zlia).
  destruct (place_of_ok _ Hbo) as (Hok & Hl). unfold file_byte. set (q := place_of (o / BSIZE)) in *.
  destruct (Z.eqb_spec (ptr v A q) 0) as [Hz|Hnz].
  - destruct (Z.eqb_spec (ptr v' A' q) 0) as [|Hnz']; [done|]. apply Gzero; try done. fsconst. zlia.
  - rewrite (Gold q Hok Hnz), (proj2 (Z.eqb_neq _ _) Hnz). by rewrite Gdata.
Qed.

Lemma leaf_wrote v sb A off n src tot (m := chunk off n) (x := ptr v A (place_of (off / BSIZE))) :
  fs_ok v sb -> file_ok v sb A -> 0 <= off -> 0 < n -> off + n <= MAXFILE * BSIZE -> x <> 0 ->
  wrote sb v A (<[x := put_bytes (v x) (off mod BSIZE) src tot m]> v) A off m (fun o => src (tot + (o - off))).
Proof using.
  intros Hfs Hf Ho Hn Hmax Hx. assert (Hbn : 0 <= off / BSIZE < MAXFILE) by (fsconst; zlia).
  destruct (place_of_ok _ Hbn) as (Hok & Hl). pose proof (chunk_range off n Ho Hn) as Hm. fold m in Hm.
  destruct (leaf_write v sb A _ (put_bytes (v x) (off mod BSIZE) src tot m) Hfs Hf Hok Hl Hx) as (Hptr & _). fold x in Hptr.
  split.
  - intros o Hoo. assert (Hbo : 0 <= o / BSIZE < MAXFILE) by (fsconst; zlia). destruct (place_of_ok _ Hbo) as (Hok' & _).
    unfold file_byte. rewrite Hptr by done. destruct (decide (o / BSIZE = off / BSIZE)) as [E|E].
    + rewrite E. fold x. rewrite (proj2 (Z.eqb_neq _ _) Hx), fn_lookup_insert. unfold put_bytes.
      assert (Hmod : o mod BSIZE = off mod BSIZE + (o - off)) by (fsconst; zlia). rewrite Hmod.
      destruct (Z.leb_spec (off mod BSIZE) (off mod BSIZE + (o - off))), (Z.ltb_spec (off mod BSIZE + (o - off)) (off mod BSIZE + m));
        destruct (decide (off <= o < off + m)); cbn [andb]; try lia; [f_equal; lia|done..].
    + assert (Hnot : ~ (off <= o < off + m)) by (intros Hin; apply E; by apply (chunk_block off n o)).
      destruct (decide _); [done|]. destruct (Z.eqb_spec (ptr v A (place_of (o / BSIZE))) 0) as [|Hnz]; [done|].
      rewrite fn_lookup_insert_ne; [done|]. intros Ex. apply E, place_of_inj; [done|done|].
      by apply (fi_inj _ _ _ Hf).
  - intros q Hq _. by apply Hptr.
  - intros o Hoo. destruct (chunk_block off n o) as (E & _); [lia|lia|fold m; lia|]. rewrite E, Hptr by done. done.
  - intros y (Hu & Hn' & Hp). assert (Hyx : x <> y) by (by apply Hp). rewrite fn_lookup_insert_ne by done.
    destruct (fi_blk _ _ _ Hf _ Hok Hx) as (Hd & _). split; [done|]. split_and!; [|done|].
    + intros Hy. rewrite used_data by done. by apply Hu.
    + intros q Hq. rewrite Hptr by done. by apply Hp.
Qed.

(** One iteration of [writei]. *)
Lemma write_chunk s ip i v sb L c f src tot off n
    (m := chunk off n) (bn := off / BSIZE) (z := misses v (i_addrs i) bn) :
  fenv s ip i v sb L [] c f -> 3 * z + 1 <= c -> z <= f ->
  0 <= off -> 0 < n -> off + n <= MAXFILE * BSIZE ->
  exists x bp s1 s2 s3 s4 v' A' d L',
    bmap ip bn s = Ok (x, s1) /\ dop (ld_bread 1 x) s1 = Ok (bp, s2) /\
    dop (ld_bput bp (fun b => put_bytes b (off mod BSIZE) src tot m)) s2 = Ok (tt, s3) /\
    dop (ld_log_write bp) s3 = Ok (tt, s4) /\ dop (ld_brelse bp) s4 = Ok (tt, istate s ip i A' d) /\
    fenv (istate s ip i A' d) ip (set_i_addrs A' i) v' sb L' [] (c - 3 * z - 1) (f - z) /\
    wrote sb v (i_addrs i) v' A' off m (fun o => src (tot + (o - off))) /\
    (forall p, p ∈ path bn -> ptr v' A' p <> 0) /\
    (forall q, place_ok q -> q ∉ path bn -> ptr v' A' q = ptr v (i_addrs i) q).
Proof using.
  intros He Hc Hf Ho Hn Hmax. assert (Hbn : 0 <= bn < MAXFILE) by (unfold bn; fsconst; zlia).
  assert (Hz : 0 <= z) by (unfold z, misses; rewrite misses_filter; lia).
  destruct (bmap_ok s ip i v sb L c f bn He ltac:(lia) Hf Hbn) as (x & s1 & R1 & v1 & A' & d1 & L1 & -> & Hx & Hp & He1 & Hg).
  destruct (place_of_ok bn Hbn) as (Hok & Hl). subst x.
  destruct (fenv_bread _ _ _ _ _ _ _ _ (place_of bn) He1) as (bp & d2 & R2 & He2); [lia|done|done|].
  pose proof He2 as [Hi2 Hdev2 Hsb2 Hfs2 Hfile2 Hv2 Ho2 Hap2 Hcap2 Hbuf2 Hfree2]. cbn [i_addrs set_i_addrs] in *.
  set (x := ptr v1 A' (place_of bn)) in *. destruct (fi_blk _ _ _ Hfile2 _ Hok Hx) as (Hd & _). fold x in Hd.
  destruct (ld_update_ok d2 v1 L1 _ bp x (fun b => put_bytes b (off mod BSIZE) src tot m) Hv2 Ho2) as (d3 & d4 & R3 & R4 & Hv4 & Ho4);
    [left|apply Hd|lia|].
  destruct (ld_brelse_ok _ _ _ _ _ _ Hv4) as (d5 & R5 & Hv5 & Ho5).
  destruct (leaf_write v1 sb A' (place_of bn) (put_bytes (v1 x) (off mod BSIZE) src tot m)) as (Hptr & Hfs' & Hfile' & Hnf); try done.
  fold x in Hptr, Hfs', Hfile', Hnf. pose proof (length_absorb x L1) as Hla.
  exists x, bp, (istate s ip i A' d1), (istate s ip i A' d2), (istate s ip i A' d3), (istate s ip i A' d4).
  eexists _, A', d5, (absorb x L1). split_and!; try done.
  - by apply (dop_ok _ (istate s ip i A' d2)).
  - by apply (dop_ok _ (istate s ip i A' d3)).
  - by apply (dop_ok _ (istate s ip i A' d4)).
  - split; try done; [by apply Ho5|apply Forall_nil_2|fold z; lia|fold z; cbn [length] in *; lia|].
    fold z in Hfree2. cbn [i_addrs set_i_addrs] in *. rewrite Hnf. done.
  - pose proof (leaf_wrote v1 sb A' off n src tot Hfs2 Hfile2 Ho Hn Hmax Hx) as [B O' N Fr].
    split; [|intros q Hq Hnz; rewrite O'; rewrite ?(gr_old _ _ _ _ _ _ Hg); done|done|].
    + intros o Hoo. rewrite B by done. by rewrite (grown_bytes _ _ _ _ _ _ _ Hg Hbn Hoo).
    + intros y Hy. destruct (gr_frame _ _ _ _ _ _ Hg y Hy) as (E & Hy'). destruct (Fr y Hy') as (E' & Hy''). split; [etrans; [exact E'|exact E]|exact Hy''].
  - intros p Hp. rewrite Hptr by (by eapply path_ok). by eapply path_up.
  - intros q Hq Hin. rewrite Hptr by done. by apply (gr_else _ _ _ _ _ _ Hg).
Qed.

Lemma blocks_range off n bn : 0 <= off -> off + n <= MAXFILE * BSIZE -> bn ∈ blocks off n -> 0 <= bn < MAXFILE.
Proof using.
  intros Ho Hmax. unfold blocks. destruct (Z.leb_spec n 0); [by intros ?%elem_of_nil|].
  rewrite elem_of_seqZ. fsconst. zlia.
Qed.

Lemma places_ok off n p : 0 <= off -> off + n <= MAXFILE * BSIZE -> p ∈ places off n -> place_ok p.
Proof using.
  intros Ho Hmax. unfold places. rewrite list_elem_of_In, in_concat. intros (l & Hl%list_elem_of_In & Hp%list_elem_of_In).
  apply list_elem_of_fmap in Hl as (bn & -> & Hbn). eapply path_ok; [|exact Hp]. by eapply blocks_range.
Qed.

Lemma places_step off n :
  0 <= off -> 0 < n -> places off n = path (off / BSIZE) ++ places (off + chunk off n) (n - chunk off n).
Proof using. intros Ho Hn. unfold places. by rewrite blocks_step. Qed.

Lemma set_addrs_id i : set_i_addrs (i_addrs i) i = i.
Proof using. by destruct i. Qed.

Lemma set_addrs_twice A A' i : set_i_addrs A' (set_i_addrs A i) = set_i_addrs A' i.
Proof using. by destruct i. Qed.

Lemma wrote_none sb v A off g : wrote sb v A v A off 0 g.
Proof using. split; try done; [|intros; lia]. intros o Ho. destruct (decide _); [lia|done]. Qed.

Lemma wrote_ext sb v A v' A' off n g g' :
  (forall o, off <= o < off + n -> g o = g' o) -> wrote sb v A v' A' off n g -> wrote sb v A v' A' off n g'.
Proof using. intros E [B ? ? ?]. split; try done. intros o Ho. rewrite B by done. destruct (decide _); auto. Qed.

(** The log entries and blocks a write may take. *)
Definition wblocks (v : Z -> mem) (A : list Z) (off n : Z) : Z := nmiss v A (places off n).
Definition wcost (v : Z -> mem) (A : list Z) (off n : Z) : Z :=
  3 * wblocks v A off n + Z.of_nat (length (blocks off n)).

Lemma writei_loop_ok src fuel : forall s ip i v sb L c f tot off n,
  fenv s ip i v sb L [] c f -> 0 <= off -> tot <= n -> off + (n - tot) <= MAXFILE * BSIZE -> enough fuel off (n - tot) ->
  wcost v (i_addrs i) off (n - tot) <= c -> wblocks v (i_addrs i) off (n - tot) <= f ->
  exists v' A' d L', writei_loop fuel ip src tot off n s = Ok (off + (n - tot), istate s ip i A' d) /\
    fenv (istate s ip i A' d) ip (set_i_addrs A' i) v' sb L' []
      (c - wcost v (i_addrs i) off (n - tot)) (f - wblocks v (i_addrs i) off (n - tot)) /\
    wrote sb v (i_addrs i) v' A' off (n - tot) (fun o => src (tot + (o - off))) /\
    (forall q, place_ok q -> q ∉ places off (n - tot) -> ptr v' A' q = ptr v (i_addrs i) q).
Proof using.
  induction fuel as [fuel IH] using lt_wf_ind. intros s ip i v sb L c f tot off n He Ho Ht Hmax Hfuel Hc Hf.
  destruct (Z.eq_dec tot n) as [->|Hne].
  { exists v, (i_addrs i), (fdisk s), L. rewrite Z.sub_diag, Z.add_0_r, istate_id, set_addrs_id by apply He. split_and!.
    - destruct fuel; cbn [writei_loop]; by rewrite Z.ltb_irrefl.
    - rewrite Z.sub_diag in *. eapply fenv_weaken; [| |exact He]; unfold wcost, wblocks, nmiss; lia.
    - apply wrote_none.
    - done. }
  destruct (enough_step fuel off (n - tot) Ho ltac:(lia) Hfuel) as (fuel' & -> & Hfuel').
  pose proof (chunk_range off (n - tot) Ho ltac:(lia)) as Hm.
  unfold wcost, wblocks in Hc, Hf |- *. rewrite places_step in Hc, Hf |- * by lia.
  rewrite blocks_step in Hc |- * by lia. cbn [length] in Hc, Hf |- *.
  set (m := chunk off (n - tot)) in *. set (bn := off / BSIZE) in *.
  set (ps := places (off + m) (n - tot - m)) in *.
  assert (Hpos : 0 <= nmiss v (i_addrs i) (path bn ++ ps)) by (unfold nmiss; lia).
  assert (Hle : misses v (i_addrs i) bn <= nmiss v (i_addrs i) (path bn ++ ps)).
  { unfold misses. rewrite misses_filter. unfold nmiss. apply inj_le, submseteq_length, NoDup_submseteq.
    - apply NoDup_filter, path_NoDup.
    - intros p. rewrite !list_elem_of_filter, elem_of_remove_dups, elem_of_app. tauto. }
  destruct (write_chunk s ip i v sb L c f src tot off (n - tot) He)
    as (x & bp & s1 & s2 & s3 & s4 & v1 & A1 & d1 & L1 & R1 & R2 & R3 & R4 & R5 & He1 & Hw1 & Hin & Hout); [fold bn; lia..|].
  fold m bn in R1, R3, He1, Hw1, Hin, Hout.
  assert (Hps : misses v (i_addrs i) bn + nmiss v1 A1 ps <= nmiss v (i_addrs i) (path bn ++ ps)).
  { apply nmiss_step; [apply path_NoDup|done|]. intros q Hq Hn. apply Hout; [|done].
    eapply places_ok; [| |exact Hq]; lia. }
  assert (En : n - (tot + m) = n - tot - m) by lia.
  destruct (IH fuel' ltac:(lia) _ ip _ v1 sb L1 _ _ (tot + m) (off + m) n He1) as (v2 & A2 & d2 & L2 & R6 & He2 & Hw2 & Hout2);
    cbn [i_addrs set_i_addrs] in *; rewrite ?En in *; try done; try lia.
  { unfold wcost, wblocks. fold ps. lia. }
  { unfold wblocks. fold ps. lia. }
  rewrite !istate_twice, !set_addrs_twice in *. exists v2, A2, d2, L2. split_and!.
  - cbn [writei_loop]. rewrite (proj2 (Z.ltb_lt tot n)) by lia. cbn [negb].
    mby (geti_eq s ip i (fe_inode _ _ _ _ _ _ _ _ _ He)). rewrite (fe_dev _ _ _ _ _ _ _ _ _ He).
    fold (chunk off (n - tot)). fold m bn. mby R1. mby R2. mby R3. mby R4. mby R5. rewrite R6. do 2 f_equal. lia.
  - unfold wcost, wblocks in He2. fold ps in He2. eapply fenv_weaken; [| |exact He2]; lia.
  - replace (n - tot) with (m + (n - tot - m)) by lia. eapply wrote_trans; [lia..|done|].
    eapply wrote_ext; [|exact Hw2]. intros o Hoo. cbn beta. f_equal. lia.
  - intros q Hq Hn. rewrite elem_of_app in Hn. rewrite Hout2, Hout; tauto || done.
Qed.

(** ** [writei] *)

(** A file in use: its inode in memory is locked, valid and equal to the one on
    the disk, and all blocks of its contents are there. *)
Record open_file (s : fsys D) (ip : nat) (i : inode) (v : Z -> mem) (sb : superblock) (L : list Z) (c f : Z) : Prop := {
  of_env : fenv s ip i v sb L [] c f;
  of_inode : inode_ok i;
  of_inum : 0 <= i_inum i < sb_ninodes sb;
  of_size : i_size i <= MAXFILE * BSIZE;
  of_dense : dense v (i_addrs i) (i_size i);
  of_synced : synced v sb i
}.

Lemma fenv_renv s ip i v sb L c f : 0 <= c -> fenv s ip i v sb L [] c f -> renv s ip i v sb L.
Proof using. intros Hc [? ? ? ? ? ? ? ? ? Hb ?]. split; try done. cbn in Hb. lia. Qed.

Lemma blocks_byte off n bn : 0 <= off -> bn ∈ blocks off n -> exists o, off <= o < off + n /\ o / BSIZE = bn.
Proof using.
  intros Ho. unfold blocks. destruct (Z.leb_spec n 0); [by intros ?%elem_of_nil|]. rewrite elem_of_seqZ. intros Hb.
  exists (Z.max off (bn * BSIZE)). fsconst. zlia.
Qed.

Lemma dense_places v A size off n p :
  dense v A size -> 0 <= off -> off + n <= size -> p ∈ places off n -> ptr v A p <> 0.
Proof using.
  intros Hd Ho Hn. unfold places. rewrite list_elem_of_In, in_concat. intros (l & Hl%list_elem_of_In & Hp%list_elem_of_In).
  apply list_elem_of_fmap in Hl as (bn & -> & Hbn). destruct (blocks_byte off n bn Ho Hbn) as (o & Hoo & <-).
  eapply path_up; [exact Hp|]. apply Hd. lia.
Qed.

Lemma addrs_same v A v' A' :
  length A = Z.to_nat (NDIRECT + 2) -> length A' = Z.to_nat (NDIRECT + 2) ->
  (forall k, place_ok (InInode k) -> ptr v' A' (InInode k) = ptr v A (InInode k)) -> A' = A.
Proof using.
  intros H1 H2 Hp. apply (nth_ext _ _ 0 0); [congruence|]. intros k Hk. rewrite H2 in Hk.
  specialize (Hp (Z.of_nat k)). cbn [ptr place_ok] in Hp. rewrite Nat2Z.id in Hp. apply Hp. lia.
Qed.

(** A write inside a file that has its blocks allocates none. *)
Lemma wrote_inside sb v A v' A' size off n g :
  file_ok v sb A -> file_ok v' sb A' -> dense v A size -> 0 <= off -> off + n <= size ->
  wrote sb v A v' A' off n g -> (forall q, place_ok q -> q ∉ places off n -> ptr v' A' q = ptr v A q) -> A' = A.
Proof using.
  intros Hf Hf' Hd Ho Hn Hw Hout. apply (addrs_same v A v'); [apply Hf|apply Hf'|]. intros k Hk.
  destruct (decide (ptr v A (InInode k) = 0)) as [Hz|Hnz]; [|by apply (wr_keep _ _ _ _ _ _ _ _ Hw)].
  apply Hout; [done|]. intros Hin. by eapply dense_places.
Qed.

Lemma wrote_dense sb v A v' A' size off n g :
  dense v A size -> size <= MAXFILE * BSIZE -> 0 <= off <= size -> off + n <= MAXFILE * BSIZE ->
  wrote sb v A v' A' off n g -> dense v' A' (Z.max size (off + n)).
Proof using.
  intros Hd Hs Ho Hn [_ K N _] o Hoo. destruct (Z.lt_ge_cases o off).
  - rewrite K; [apply Hd; lia|apply place_of_ok; fsconst; zlia|apply Hd; lia].
  - destruct (Z.lt_ge_cases o (off + n)); [by apply N|]. rewrite K; [apply Hd; lia|apply place_of_ok; fsconst; zlia|apply Hd; lia].
Qed.

Lemma file_addrs v sb A : fs_ok v sb -> file_ok v sb A -> Forall is_u32 A.
Proof using.
  intros Hfs Hf. apply Forall_forall. intros x (k & Hk)%list_elem_of_lookup. pose proof (lookup_lt_Some _ _ _ Hk) as Hlt.
  rewrite (fi_len _ _ _ Hf) in Hlt. destruct (decide (x = 0)) as [->|Hnz]; [unfold is_u32; lia|].
  assert (Ep : ptr v A (InInode (Z.of_nat k)) = x).
  { cbn. rewrite Nat2Z.id. by apply nth_lookup_Some. }
  destruct (fi_blk _ _ _ Hf (InInode (Z.of_nat k))) as ((Hh & _) & _); [cbn; lia|congruence|].
  rewrite Ep in Hh. pose proof (ld_home_on _ Hh). pose proof ld_sizes. unfold is_u32. lia.
Qed.

Lemma inode_ok_grow i size A :
  inode_ok i -> is_u32 size -> Forall is_u32 A -> length A = Z.to_nat (NDIRECT + 2) ->
  inode_ok (set_i_size size (set_i_addrs A i)).
Proof using. intros [? ? ? ? ? ? ?] ? ? ?. by split. Qed.

(** The end of [writei]: the inode is stored when the file has grown. *)
Lemma grow_update s ip i v sb L c f size (i' := set_i_size size i) :
  fenv s ip i v sb L [] c f -> 1 <= c -> inode_ok i' -> 0 <= i_inum i < sb_ninodes sb ->
  exists d, (seti ip (set_i_size size) ;;! iupdate ip) s = Ok (tt, put_inode ip i' (set_fdisk d s)) /\
    let v' := updated sb i' v in
    fenv (put_inode ip i' (set_fdisk d s)) ip i' v' sb (absorb (IBLOCK (i_inum i) sb) L) [] (c - 1) f /\
    synced v' sb i' /\ (forall q, place_ok q -> ptr v' (i_addrs i) q = ptr v (i_addrs i) q) /\
    (forall c, 0 <= c < sb_size sb -> used v' sb c = used v sb c) /\
    (forall y, y <> IBLOCK (i_inum i) sb -> v' y = v y).
Proof using.
  intros [Hi Hdev Hsb Hfs Hf Hv Ho Hap Hcap Hbuf Hfree] Hc Hok Hin.
  destruct (iblock_other v sb (i_addrs i) (i_inum i) Hfs Hf Hin) as (Hoth & H1 & Hh).
  pose proof (put_inode_at ip i' i s Hi) as Hi'.
  destruct (iupdate_ok (put_inode ip i' s) ip i' v sb L [] Hi' Hdev Hsb Hh Hv Ho (not_elem_of_nil _)) as (d & R & Hvd & Hod); [lia|cbn in *; lia|].
  exists d. split; [by mby (seti_ok ip (set_i_size size) i s Hi)|].
  destruct (other_write v sb (i_addrs i) _ (put_dinode i' (dinode_off (i_inum i)) (v (IBLOCK (i_inum i) sb))) Hfs Hf Hoth H1)
    as (Hptr & Hus & Hfs' & Hf').
  change (<[IBLOCK (i_inum i) sb := put_dinode i' (dinode_off (i_inum i)) (v (IBLOCK (i_inum i) sb))]> v) with (updated sb i' v) in *.
  pose proof (length_absorb (IBLOCK (i_inum i) sb) L) as Hla. cbn [length] in *. split_and!.
  - split; try done; [apply Forall_nil_2|lia|cbn; lia|]. rewrite (nfree_ext v); [done|exact Hus].
  - by apply updated_synced.
  - done.
  - done.
  - intros y Hy. unfold updated. by apply fn_lookup_insert_ne.
Qed.

(** What a write leaves behind. *)
Definition written_file (s s' : fsys D) (ip : nat) (i : inode) (v : Z -> mem) (sb : superblock) (c f : Z)
    (src : mem) (off n : Z) : Prop :=
  exists i' v' d L', s' = put_inode ip i' (set_fdisk d s) /\
    i' = set_i_size (Z.max (i_size i) (off + n)) (set_i_addrs (i_addrs i') i) /\
    open_file s' ip i' v' sb L' (c - wcost v (i_addrs i) off n - 1) (f - wblocks v (i_addrs i) off n) /\
    (forall o, 0 <= o < MAXFILE * BSIZE ->
       file_byte v' (i_addrs i') o = if decide (off <= o < off + n) then src (o - off) else file_byte v (i_addrs i) o) /\
    (forall y, other_block v sb (i_addrs i) y -> y <> IBLOCK (i_inum i) sb ->
       v' y = v y /\ other_block v' sb (i_addrs i') y).

(** The inode is stored when the file has grown; contents and other blocks do not change. *)
Lemma write_end s ip i v sb L c f n end_ (size := Z.max (i_size i) end_) (i' := set_i_size size i) :
  fenv s ip i v sb L [] c f -> 1 <= c -> inode_ok i' -> 0 <= i_inum i < sb_ninodes sb ->
  size <= MAXFILE * BSIZE -> dense v (i_addrs i) size -> (0 < n \/ end_ <= i_size i) ->
  (end_ <= i_size i -> synced v sb i) ->
  exists d v' L', mwhen ((n >? 0) && (end_ >? i_size i)) (seti ip (set_i_size end_) ;;! iupdate ip) s =
      Ok (tt, put_inode ip i' (set_fdisk d s)) /\
    open_file (put_inode ip i' (set_fdisk d s)) ip i' v' sb L' (c - 1) f /\
    (forall o, 0 <= o < MAXFILE * BSIZE -> file_byte v' (i_addrs i) o = file_byte v (i_addrs i) o) /\
    (forall y, other_block v sb (i_addrs i) y -> y <> IBLOCK (i_inum i) sb -> v' y = v y /\ other_block v' sb (i_addrs i) y).
Proof using.
  intros He Hc Hok Hin Hmax Hd Hn Hsy. rewrite !Z.gtb_ltb. destruct (Z.lt_ge_cases (i_size i) end_) as [Hg|Hg].
  - rewrite (proj2 (Z.ltb_lt _ _) Hg), (proj2 (Z.ltb_lt 0 n)) by lia. cbn [andb mwhen].
    assert (Es : size = end_) by (unfold size; lia). rewrite <- Es.
    destruct (grow_update s ip i v sb L c f size He Hc Hok Hin) as (d & R & He' & Hs' & Hp & Hu & Hy).
    eexists d, _, _. split; [exact R|]. split_and!.
    + split; [exact He'|done|done|done| |done]. intros o Ho. cbn [i_addrs set_i_size] in *. rewrite Hp; [by apply Hd|].
      apply place_of_ok. cbn in Ho. fsconst. zlia.
    + intros o Ho. unfold file_byte. destruct (place_of_ok (o / BSIZE)) as (Hpo & _); [fsconst; zlia|]. rewrite Hp by done.
      destruct (Z.eqb_spec (ptr v (i_addrs i) (place_of (o / BSIZE))) 0) as [|Hnz]; [done|]. rewrite Hy; [done|].
      destruct (fi_blk _ _ _ (fe_file _ _ _ _ _ _ _ _ _ He) _ Hpo Hnz) as ((_ & _ & _ & HI) & _). intros E. by apply (HI (i_inum i)).
    + intros y (Hyu & HyB & Hyp) Hne. split; [by apply Hy|]. split_and!; [intros Hr; rewrite Hu by done; by apply Hyu|done|].
      intros q Hq. rewrite Hp by done. by apply Hyp.
  - rewrite (proj2 (Z.ltb_ge _ _) Hg), andb_false_r. assert (Ei : i' = i) by (unfold i', size; rewrite Z.max_l by lia; by destruct i).
    assert (Hi : icache s !! ip = Some i) by apply He.
    exists (fdisk s), v, L. rewrite Ei, set_fdisk_id, put_inode_id in * by done. split_and!; [done| |done|done].
    assert (Esz : size = i_size i) by (unfold size; lia). rewrite Esz in *. split; try done; [by eapply fenv_weaken; [| |exact He]; lia|by apply Hsy].
Qed.

(** [writei] changes the bytes from [off], the size and the inode of the file, and
    no block that belongs to anything else. *)
Lemma writei_ok dw s ip i v sb L c f src off n :
  open_file s ip i v sb L c f -> i_type i <> T_DEV -> 0 <= off <= i_size i -> 0 <= n -> off + n <= MAXFILE * BSIZE ->
  wcost v (i_addrs i) off n + 1 <= c -> wblocks v (i_addrs i) off n <= f ->
  exists s', writei dw ip src off n s = Ok (n, s') /\ written_file s s' ip i v sb c f src off n.
Proof using.
  intros [He Hok Hin Hsz Hd Hsy] Hty Ho Hn Hmax Hc Hf. pose proof (fe_inode _ _ _ _ _ _ _ _ _ He) as Hi.
  destruct (writei_loop_ok src (io_fuel n) s ip i v sb L c f 0 off n He) as (v1 & A1 & d1 & L1 & R & He1 & Hw & Hout);
    rewrite ?Z.sub_0_r in *; try lia; [apply io_fuel_enough|].
  assert (Hw' : wrote sb v (i_addrs i) v1 A1 off n (fun o => src (o - off))) by (by eapply wrote_ext; [|exact Hw]).
  pose proof (wrote_dense _ _ _ _ _ _ _ _ _ Hd Hsz Ho Hmax Hw') as Hd1. pose proof He1 as [Hi1 _ _ Hfs1 Hf1 _ _ _ _ _ _].
  cbn [i_addrs set_i_addrs] in Hf1. pose proof (file_addrs _ _ _ Hfs1 Hf1) as HA.
  destruct (iblock_other v sb (i_addrs i) (i_inum i)) as (Hib & _); [apply He|apply He|done|].
  set (i1 := set_i_addrs A1 i) in *.
  destruct (write_end (istate s ip i A1 d1) ip i1 v1 sb L1 _ _ n (off + n) He1) as (d2 & v2 & L2 & R2 & Hof & Hb2 & Hy2);
    try done; try (cbn; fsconst; lia).
  { apply inode_ok_grow; [done|unfold is_u32; cbn; fsconst; lia|done|apply Hf1]. }
  { intros Hle. cbn in Hle.
    assert (EA : A1 = i_addrs i) 
      by (apply (wrote_inside sb v _ v1 _ (i_size i) off n _ (fe_file _ _ _ _ _ _ _ _ _ He) Hf1 Hd (proj1 Ho) Hle Hw' Hout)).
    unfold i1. rewrite EA, set_addrs_id. unfold synced. by rewrite (proj1 (wr_frame _ _ _ _ _ _ _ _ Hw' _ Hib)). }
  set (i' := set_i_size (Z.max (i_size i1) (off + n)) i1) in *.
  assert (Es : put_inode ip i' (set_fdisk d2 (istate s ip i A1 d1)) = put_inode ip i' (set_fdisk d2 s))
    by apply (put_inode_twice ip i' i1 (set_fdisk d2 s)).
  rewrite Es in *. exists (put_inode ip i' (set_fdisk d2 s)). split.
  - unfold writei. mby (geti_eq s ip i Hi). rewrite (proj2 (Z.eqb_neq _ _) Hty).
    rewrite u32_small by (unfold is_u32; fsconst; lia). rewrite (Z.gtb_ltb off), (proj2 (Z.ltb_ge (i_size i) off)) by lia.
    rewrite (proj2 (Z.ltb_ge (off + n) off)), Z.gtb_ltb, (proj2 (Z.ltb_ge (MAXFILE * BSIZE) (off + n))) by lia. cbn [orb].
    mby R. mby (geti_eq _ ip _ Hi1). mby R2. by rewrite s32_small by (fsconst; lia).
  - exists i', v2, d2, L2. split_and!; try done.
    + intros o Hoo. change (i_addrs i') with (i_addrs i1). rewrite Hb2 by done. by apply (wr_byte _ _ _ _ _ _ _ _ Hw').
    + intros y Hy Hne. destruct (wr_frame _ _ _ _ _ _ _ _ Hw' y Hy) as (E & Hy1).
      destruct (Hy2 y Hy1 Hne) as (E2 & Hy3). split; [congruence|done].
Qed.

(** C3: [writei] of [n] bytes at [off], inside the file or at its end, returns [n];
    afterwards [readi] from any offset returns the new bytes where they were
    written and the old ones elsewhere, up to the new size, and stops there.  No
    block in use outside the file and the free map changes, except the one that
    holds the inode. *)
Theorem writei_readi dr dw s ip i v sb L c f src off n :
  open_file s ip i v sb L c f -> i_type i <> T_DEV -> 0 <= off <= i_size i -> 0 <= n -> off + n <= MAXFILE * BSIZE ->
  wcost v (i_addrs i) off n + 1 <= c -> wblocks v (i_addrs i) off n <= f ->
  let size := Z.max (i_size i) (off + n) in
  let bytes o := if decide (off <= o < off + n) then src (o - off) else file_byte v (i_addrs i) o in
  exists s' v' L', writei dw ip src off n s = Ok (n, s') /\ ld_view (fdisk s') v' L' [] /\
    (forall off' n', 0 <= off' <= size -> 0 <= n' -> off' + n' < 2 ^ 32 ->
       let m := Z.min n' (size - off') in
       exists s'', readi dr ip off' n' s' = Ok ((m, load bytes off' (Z.to_nat m)), s'') /\ same_view s' s'' v' L') /\
    (forall y, other_block v sb (i_addrs i) y -> y <> IBLOCK (i_inum i) sb -> v' y = v y).
Proof using.
  intros Hof Hty Ho Hn Hmax Hc Hf size bytes.
  destruct (writei_ok dw s ip i v sb L c f src off n Hof Hty Ho Hn Hmax Hc Hf)
    as (s' & R & i' & v' & d & L' & Es & Ei & [He Hok Hin Hsz Hd _] & Hb & Hy).
  assert (Esz : i_size i' = size) by (by rewrite Ei). assert (Et : i_type i' = i_type i) by (by rewrite Ei).
  exists s', v', L'. split_and!; [done|apply He| |by intros y Hyo Hne; apply (Hy y Hyo Hne)].
  intros off' n' Ho' Hn' Hov m. assert (Hcost : 0 <= wcost v (i_addrs i) off n) by (unfold wcost, wblocks, nmiss; lia).
  destruct (readi_ok dr s' ip i' v' sb L' off' n' (fenv_renv _ _ _ _ _ _ (c - wcost v (i_addrs i) off n - 1) _ ltac:(lia) He)) as (s'' & R' & S'');
    try (done || (rewrite ?Et, ?Esz; done)).
  exists s''. split; [|done]. rewrite R', Esz. fold m. do 3 f_equal. apply load_ext. intros o Hoo. apply Hb.
  rewrite Esz in Hsz. unfold m in Hoo. lia.
Qed.
End FsIO.

(** ** The root directory of the small disk *)

Lemma mini_ptr v p : place_ok p -> ptr v mini_addrs p <> 0 -> p = InInode 0.
Proof.
  destruct p as [k|k|j|j k]; cbn [place_ok ptr]; try done. fsconst. intros Hk Hnz.
  assert (Hcase : k = 0 \/ k = 1 \/ k = 2 \/ k = 3 \/ k = 4 \/ k = 5 \/ k = 6 \/ k = 7 \/ k = 8 \/ k = 9 \/ k = 10 \/ k = 11 \/ k = 12) by lia.
  by destruct_or?; subst.
Qed.

Lemma mini_file_ok v :
  (forall y, y < 2 \/ 32 <= y -> v y = mini_disk y) -> file_ok (LD := mini_ld) v mini_sb mini_addrs.
Proof.
  intros Hv. split; [done| |].
  - intros p Hp Hnz. rewrite (mini_ptr v p Hp Hnz). change (ptr v mini_addrs (InInode 0)) with 36. split; [apply mini_data; lia|].
    unfold used. rewrite mini_bblock, Hv by lia. reflexivity.
  - intros p q Hp Hq E Hnz. rewrite (mini_ptr v p Hp Hnz). symmetry. apply (mini_ptr v q Hq). by rewrite <- E.
Qed.

Lemma mini_open_at :
  exists s v, open_file (LD := mini_ld) s 0 mini_inode v mini_sb [] 28 60 /\ ic_lock s = false /\
    tail (icache s) = replicate 49 (mkinode 0 0 0 sl_free 0 0 0 0 0 0 []) /\ (forall y, y < 2 \/ 32 <= y -> v y = mini_disk y).
Proof.
  destruct mini_state as (s & v & Hv & Ho & Hsb & Hic & Hlk & Hvd).
  exists (set_icache (mini_inode :: tail (icache s)) s), v. split; [|split_and!; [done|by cbn; rewrite Hic|done]].
  split; [split|..]; try done.
  - by apply mini_fs_ok.
  - by apply mini_file_ok.
  - apply Forall_nil_2.
  - rewrite (nfree_ext mini_disk); [by vm_compute|].
    intros c Hc. unfold used. cbn in Hc. by rewrite mini_bblock, Hvd by lia.
  - apply mini_inode_ok.
  - intros o Hoo. cbn in Hoo. replace (o / BSIZE) with 0 by (fsconst; zlia). done.
  - unfold synced. change (IBLOCK (i_inum mini_inode) mini_sb) with 32. rewrite Hvd by lia.
    change (mini_disk 32) with (put_dinode mini_root 64 (fun _ => 0)). change (dinode_off (i_inum mini_inode)) with 64.
    by rewrite get_put_dinode by (destruct mini_inode_ok; by split).
Qed.

Lemma mini_open :
  exists s v, open_file (LD := mini_ld) s 0 mini_inode v mini_sb [] 28 60.
Proof. destruct mini_open_at as (s & v & H & _). by exists s, v. Qed.

Lemma writei_readi_witness :
  exists (s s' s'' : fsys lst) l, writei (LD := mini_ld) (fun _ => None) 0 (fun o => o + 1) 32 600 s = Ok (600, s') /\
    readi (LD := mini_ld) (fun _ => None) 0 630 10 s' = Ok ((2, l), s'') /\ l = [599; 600].
Proof.
  destruct mini_open as (s & v & Hof).
  destruct (writei_readi (LD := mini_ld) (fun _ => None) (fun _ => None) s 0 mini_inode v mini_sb [] 28 60 (fun o => o + 1) 32 600 Hof)
    as (s' & v' & L' & R & _ & Hr & _); [done|cbn; lia|lia|vm_compute; discriminate|vm_compute; discriminate|vm_compute; discriminate|].
  destruct (Hr 630 10) as (s'' & R' & _); [cbn; lia|lia|lia|].
  exists s, s', s'', [599; 600]. split; [exact R|]. split; [exact R'|reflexivity].
Defined.
