(* ===== verification/FsTrunc.v ===== *)
(** * Truncation: [itrunc] of [fs.c]

    [itrunc] gives back the direct blocks, the blocks of the indirect block and
    the indirect block.  The blocks below the doubly-indirect block are not given
    back: the inner loop goes over the wrong buffer, and the kernel panics. *)

From Stdlib Require Import ZArith Lia String.
From stdpp Require Import base numbers functions list.
From S2P Require Import Prelude Bytes Params Locks Bio Log LogDisk Fs FsBlocks FsFile FsInode FsIO.

Local Open Scope Z_scope.
Local Open Scope kernel_scope.

(** The blocks of the free map. *)
Definition maps (sb : superblock) : list Z := seqZ (sb_bmapstart sb) ((sb_size sb - 1) / BPB + 1).

(** The log has grown by blocks of the free map only. *)
Definition mapped (sb : superblock) (L L' : list Z) : Prop :=
  exists M, L' = L ++ M /\ NoDup M /\ M ⊆ maps sb.

Lemma mapped_length sb L L' : mapped sb L L' -> (length L' <= length L + length (maps sb))%nat.
Proof.
  intros (M & -> & Hnd & Hs). rewrite length_app. apply Nat.add_le_mono_l, submseteq_length. by apply NoDup_submseteq.
Qed.

Lemma mapped_absorb sb L L' x : mapped sb L L' -> x ∈ maps sb -> mapped sb L (absorb x L').
Proof.
  intros (M & -> & Hnd & Hs) Hx. unfold absorb. destruct (decide _) as [Hin|Hin]; [by exists M|].
  exists (M ++ [x]). rewrite app_assoc. split_and!; [done| |].
  - apply NoDup_app. split_and!; [done| |apply NoDup_singleton].
    intros y Hy ->%list_elem_of_singleton. apply Hin. apply elem_of_app. by right.
  - intros y [Hy| ->%list_elem_of_singleton]%elem_of_app; [by apply Hs|done].
Qed.

(** The cases of a place among those [itrunc] visits. *)
Ltac place_case H :=
  destruct H as [[[(? & ? & ?)|(? & ? & ?)]|?]|[(? & ? & ?)|(? & ? & ? & ? & ?)]]; simplify_eq; fsconst; lia.

Section FsTrunc.
Context {D : Type} `{LD : LoggedDisk D}.

Lemma bblock_maps v sb b : fs_ok v sb -> 0 <= b < sb_size sb -> BBLOCK b sb ∈ maps sb.
Proof using.
  intros Hok Hb. destruct (fo_bmap _ _ Hok b Hb) as (-> & _). unfold maps. apply elem_of_seqZ. unfold BPB, BSIZE. zlia.
Qed.

(** ** The state while blocks are given back *)

Section Truncating.
Variables (s0 : fsys D) (ip : nat) (i : inode) (v0 : Z -> mem) (sb : superblock) (L0 : list Z).
Abbreviation A0 := (i_addrs i).
Hypothesis Hi0 : icache s0 !! ip = Some i.
Hypothesis Hdev0 : i_dev i = 1.
Hypothesis Hsb0 : fsb s0 = sb.
Hypothesis Hfs0 : fs_ok v0 sb.
Hypothesis Hf0 : file_ok v0 sb A0.
Hypothesis Hcap0 : Z.of_nat (length L0) + Z.of_nat (length (maps sb)) < ld_cap.
Hypothesis Hbuf0 : Z.of_nat (length L0) + Z.of_nat (length (maps sb)) + 2 < NBUF.

(** The blocks at the places [Q] have been given back, the buffers [H] are in use. *)
Record truncating (Q : place -> Prop) (A : list Z) (H : list (nat * Z)) (s : fsys D) (v : Z -> mem) (L : list Z) : Prop := {
  tr_state : exists d, s = istate s0 ip i A d;
  tr_fs : fs_ok v sb;
  tr_used : forall c, 0 <= c < sb_size sb ->
    used v sb c = true <-> used v0 sb c = true /\ (c <> 0 -> forall p, Q p -> ptr v0 A0 p <> c);
  tr_same : forall y, (forall c, 0 <= c < sb_size sb -> BBLOCK c sb <> y) -> v y = v0 y;
  tr_ok : forall p, Q p -> place_ok p;
  tr_view : ld_view (fdisk s) v L H;
  tr_open : ld_open (fdisk s);
  tr_clear : clear sb H;
  tr_log : mapped sb L0 L;
  tr_two : (length H <= 2)%nat
}.

Definition trunc_at (Q : place -> Prop) (A : list Z) (H : list (nat * Z)) (s : fsys D) : Prop :=
  exists v L, truncating Q A H s v L.

Set Default Proof Using "All".

Lemma trunc_ext Q Q' A H s : (forall p, Q p <-> Q' p) -> trunc_at Q A H s -> trunc_at Q' A H s.
Proof.
  intros E (v & L & [? ? Hu ? Hok ? ? ? ? ?]). exists v, L. split; try done.
  - intros c Hc. rewrite Hu by done. split; intros (H1 & H2); (split; [done|]); intros Hz p Hp; apply H2; try done; by apply E.
  - intros p Hp. by apply Hok, E.
Qed.

(** A place without a block has nothing to give back. *)
Lemma trunc_none Q A H s p :
  trunc_at Q A H s -> place_ok p -> ptr v0 A0 p = 0 -> trunc_at (fun q => Q q \/ q = p) A H s.
Proof.
  intros (v & L & [? ? Hu ? Hok ? ? ? ? ?]) Hp Hz. exists v, L. split; try done.
  - intros c Hc. rewrite Hu by done. split; intros (H1 & H2); (split; [done|]); intros Hc0 q Hq; [|apply H2; tauto].
    destruct Hq as [Hq| ->]; [by apply H2|congruence].
  - intros q [Hq| ->]; [by apply Hok|done].
Qed.

(** The block at place [p] is given back, once. *)
Lemma trunc_free Q A H s p :
  trunc_at Q A H s -> place_ok p -> ptr v0 A0 p <> 0 -> ~ Q p ->
  exists s', bfree 1 (ptr v0 A0 p) s = Ok (tt, s') /\ trunc_at (fun q => Q q \/ q = p) A H s'.
Proof.
  intros (v & L & [Hs Hfs Hu Hsame Hok Hv Ho Hcl Hlog Htwo]) Hp Hnz Hnot.
  destruct (fi_blk _ _ _ Hf0 p Hp Hnz) as (Hd & Hused). set (x := ptr v0 A0 p) in *. pose proof Hd as (Hh & Hx & HB & _).
  pose proof (mapped_length _ _ _ Hlog) as Hlen. pose proof (fo_size _ _ Hfs0) as Hsize.
  destruct Hs as (d & ->).
  pose proof (bfree_spec (istate s0 ip i A d) v sb L H x Hfs Hsb0 Hv Ho Hcl ltac:(lia) ltac:(lia) ltac:(lia) ltac:(lia)) as Hb.
  assert (Hux : used v sb x = true).
  { apply Hu; [lia|]. split; [done|]. intros _ q Hq E. apply Hnot.
    assert (q = p) as <- by (apply (fi_inj _ _ _ Hf0); [by apply Hok|done|exact E|by rewrite E]). exact Hq. }
  rewrite Hux in Hb. destruct Hb as (d' & R & Hv' & Ho'). exists (set_fdisk d' (istate s0 ip i A d)). split; [exact R|].
  exists (given sb x v), (absorb (BBLOCK x sb) L). split; try done.
  - by exists d'.
  - by apply fs_ok_given.
  - intros c Hc. rewrite used_given by (done || lia). destruct (decide (x = c)) as [E|Hne].
    + split; [done|]. intros (_ & Hq). exfalso. apply (Hq ltac:(lia) p); [by right|exact E].
    + rewrite Hu by done. split; intros (H1 & H2); (split; [done|]); intros Hc0 q Hq; [|apply H2; tauto].
      destruct Hq as [Hq| ->]; [by apply H2|done].
  - intros y Hy. unfold given. rewrite fn_lookup_insert_ne; [by apply Hsame|]. apply Hy. lia.
  - intros q [Hq| ->]; [by apply Hok|done].
  - apply mapped_absorb; [done|]. eapply bblock_maps; [done|lia].
Qed.

(** A second time, [bfree] panics. *)
Lemma trunc_again Q A H s p :
  trunc_at Q A H s -> Q p -> ptr v0 A0 p <> 0 -> bfree 1 (ptr v0 A0 p) s = Panic "freeing free block".
Proof.
  intros (v & L & [Hs Hfs Hu Hsame Hok Hv Ho Hcl Hlog Htwo]) Hq Hnz.
  destruct (fi_blk _ _ _ Hf0 p (Hok p Hq) Hnz) as (Hd & Hused). set (x := ptr v0 A0 p) in *. pose proof Hd as (Hh & Hx & HB & _).
  pose proof (mapped_length _ _ _ Hlog) as Hlen. pose proof (fo_size _ _ Hfs0) as Hsize. destruct Hs as (d & ->).
  pose proof (bfree_spec (istate s0 ip i A d) v sb L H x Hfs Hsb0 Hv Ho Hcl ltac:(lia) ltac:(lia) ltac:(lia) ltac:(lia)) as Hb.
  destruct (used v sb x) eqn:Hux; [|done]. apply Hu in Hux as (_ & Hn); [|lia]. exfalso. by apply (Hn ltac:(lia) p).
Qed.

(** ** Buffers and addresses *)

Lemma trunc_bread Q A H s q :
  trunc_at Q A H s -> place_ok q -> ptr v0 A0 q <> 0 -> ptr v0 A0 q ∉ H.*2 -> (length H <= 1)%nat ->
  exists bp s', dop (ld_bread 1 (ptr v0 A0 q)) s = Ok (bp, s') /\ trunc_at Q A ((bp, ptr v0 A0 q) :: H) s'.
Proof.
  intros (v & L & [(d & ->) Hfs Hu Hsame Hok Hv Ho Hcl Hlog Htwo]) Hq Hnz Hin Hlen.
  destruct (fi_blk _ _ _ Hf0 q Hq Hnz) as ((Hh & Hx & HB & _) & _). pose proof (mapped_length _ _ _ Hlog) as Hll.
  destruct (ld_bread_ok _ v L H _ Hv Hin (ld_home_on _ Hh) ltac:(lia)) as (bp & d' & R & Hv' & Ho').
  exists bp, (istate s0 ip i A d'). split; [by apply (dop_ok _ (istate s0 ip i A d))|].
  exists v, L. split; try done; [by exists d'|by apply Ho'| |cbn; lia].
  apply Forall_cons. split; [|done]. split; [done|]. intros E. cbn in E. rewrite E in Hh. by apply ld_home_sb.
Qed.

Lemma trunc_brelse Q A H s bp x :
  trunc_at Q A ((bp, x) :: H) s -> exists s', dop (ld_brelse bp) s = Ok (tt, s') /\ trunc_at Q A H s'.
Proof.
  intros (v & L & [(d & ->) Hfs Hu Hsame Hok Hv Ho Hcl Hlog Htwo]).
  destruct (ld_brelse_ok _ _ _ _ _ _ Hv) as (d' & R & Hv' & Ho').
  exists (istate s0 ip i A d'). split; [by apply (dop_ok _ (istate s0 ip i A d))|].
  exists v, L. split; try done; [by exists d'|by apply Ho'| |cbn in Htwo; lia]. by apply Forall_cons in Hcl as (_ & ?).
Qed.

(** A block of the tree reads as it did at the start. *)
Lemma trunc_bdata Q A H s bp q :
  trunc_at Q A H s -> (bp, ptr v0 A0 q) ∈ H -> place_ok q -> ptr v0 A0 q <> 0 ->
  dop (ld_bdata bp) s = Ok (v0 (ptr v0 A0 q), s).
Proof.
  intros (v & L & [_ Hfs Hu Hsame Hok Hv Ho Hcl Hlog Htwo]) Hin Hq Hnz.
  destruct (fi_blk _ _ _ Hf0 q Hq Hnz) as ((Hh & Hx & HB & _) & _).
  rewrite (dop_ok _ s _ _ (ld_bdata_ok _ _ _ _ _ _ Hv Hin)), set_fdisk_id. by rewrite Hsame.
Qed.

Lemma trunc_addr Q A H s k :
  trunc_at Q A H s -> length A = Z.to_nat (NDIRECT + 2) -> 0 <= k < NDIRECT + 2 ->
  addr ip k s = Ok (nth (Z.to_nat k) A 0, s).
Proof.
  intros (v & L & [(d & ->) ? ? ? ? ? ? ? ? ?]) Hl Hk. by rewrite (addr_eq _ ip (set_i_addrs A i) k (istate_at _ _ _ _ _ Hi0) Hl Hk).
Qed.

Lemma trunc_set_addr Q A H s k x :
  trunc_at Q A H s -> exists s', set_addr ip k x s = Ok (tt, s') /\ trunc_at Q (<[Z.to_nat k := x]> A) H s'.
Proof.
  intros (v & L & [(d & ->) ? ? ? ? ? ? ? ? ?]). exists (istate s0 ip i (<[Z.to_nat k := x]> A) d). split.
  - unfold set_addr. rewrite (seti_ok _ _ (set_i_addrs A i) _ (istate_at _ _ _ _ _ Hi0)). do 2 f_equal. apply istate_twice.
  - exists v, L. split; try done. by exists d.
Qed.

(** ** The loops *)

(** The addresses after the first [k] have been cleared. *)
Definition zeros (k : nat) : list Z := replicate k 0 ++ drop k A0.

Lemma zeros_length k : (k <= Z.to_nat (NDIRECT + 2))%nat -> length (zeros k) = Z.to_nat (NDIRECT + 2).
Proof. intros Hk. unfold zeros. rewrite length_app, length_replicate, length_drop, (fi_len _ _ _ Hf0). lia. Qed.

Lemma zeros_nth k j : (k <= j)%nat -> nth j (zeros k) 0 = nth j A0 0.
Proof.
  intros Hk. unfold zeros. rewrite app_nth2; rewrite length_replicate; [|done]. rewrite !nth_lookup, lookup_drop.
  do 2 f_equal. lia.
Qed.

Lemma zeros_S k : (k < Z.to_nat (NDIRECT + 2))%nat -> <[k := 0]> (zeros k) = zeros (S k).
Proof.
  intros Hk. unfold zeros. destruct (lookup_lt_is_Some_2 A0 k) as (x & Hx); [by rewrite (fi_len _ _ _ Hf0)|].
  rewrite (drop_S _ _ _ Hx). rewrite insert_app_r_alt by (by rewrite length_replicate).
  rewrite length_replicate, Nat.sub_diag, replicate_S_end, <- app_assoc. done.
Qed.

Lemma zeros_same k : (k < Z.to_nat (NDIRECT + 2))%nat -> nth k A0 0 = 0 -> zeros (S k) = zeros k.
Proof.
  intros Hk Hz. rewrite <- zeros_S by done. apply list_insert_id. rewrite <- (zeros_nth k k ltac:(lia)) in Hz.
  destruct (lookup_lt_is_Some_2 (zeros k) k) as (x & Hx); [rewrite zeros_length; lia|].
  by rewrite (nth_lookup_Some _ _ 0 _ Hx) in Hz; subst.
Qed.

(** The inode's addresses below [k]. *)
Definition below (k : Z) (p : place) : Prop := exists j, p = InInode j /\ 0 <= j < k.

(** One address: its block is given back and it is cleared. *)
Lemma trunc_entry Q H s k :
  trunc_at Q (zeros (Z.to_nat k)) H s -> 0 <= k < NDIRECT + 2 -> ~ Q (InInode k) ->
  exists s', mwhen (negb (nth (Z.to_nat k) A0 0 =? 0)) (bfree 1 (nth (Z.to_nat k) A0 0) ;;! set_addr ip k 0) s = Ok (tt, s') /\
    trunc_at (fun q => Q q \/ q = InInode k) (zeros (Z.to_nat (k + 1))) H s'.
Proof.
  intros Ht Hk Hn. replace (Z.to_nat (k + 1)) with (S (Z.to_nat k)) by lia.
  destruct (Z.eqb_spec (nth (Z.to_nat k) A0 0) 0) as [Hz|Hnz]; cbn [negb mwhen].
  - exists s. split; [done|]. rewrite zeros_same by (done || lia). by apply (trunc_none _ _ _ _ (InInode k)).
  - destruct (trunc_free _ _ _ _ (InInode k) Ht Hk Hnz Hn) as (s1 & R1 & Ht1).
    destruct (trunc_set_addr _ _ _ _ k 0 Ht1) as (s2 & R2 & Ht2). exists s2.
    split; [by rewrite (mbind_ok _ _ _ _ _ R1)|]. by rewrite zeros_S in Ht2 by lia.
Qed.

Lemma trunc_direct s :
  trunc_at (fun _ => False) A0 [] s ->
  exists s', for_ (Z.to_nat NDIRECT) 0 (fun k => let! x := addr ip k in mwhen (negb (x =? 0)) (bfree 1 x ;;! set_addr ip k 0)) s = Ok (tt, s') /\
    trunc_at (below NDIRECT) (zeros (Z.to_nat NDIRECT)) [] s'.
Proof.
  intros Ht. apply (for_inv (fun j t => trunc_at (below j) (zeros (Z.to_nat j)) [] t)).
  - eapply trunc_ext; [|exact Ht]. intros p. split; [done|]. intros (j & _ & ?). lia.
  - intros j t Hj Hjt. rewrite Z2Nat.id, Z.add_0_l in Hj by (fsconst; lia).
    rewrite (mbind_ok _ _ _ _ _ (trunc_addr _ _ _ _ j Hjt (zeros_length (Z.to_nat j) ltac:(lia)) ltac:(lia))).
    rewrite zeros_nth by lia. destruct (trunc_entry _ _ _ j Hjt ltac:(lia)) as (t' & R & Ht'); [intros (k & [= <-] & ?); lia|].
    exists t'. split; [exact R|]. eapply trunc_ext; [|exact Ht']. intros p. split.
    + intros [(k & -> & ?)| ->]; eexists; (split; [done|lia]).
    + intros (k & -> & Hk). destruct (decide (k = j)) as [->|]; [by right|]. left. exists k. split; [done|lia].
Qed.

(** The blocks listed in the block of place [q], in buffer [bp]. *)
Lemma trunc_slots (P : Z -> place) Q A H s bp q :
  (forall j, 0 <= j < NINDIRECT -> place_ok (P j) /\ parent (P j) = Some (q, j)) -> (forall j, ~ Q (P j)) ->
  trunc_at Q A H s -> (bp, ptr v0 A0 q) ∈ H -> place_ok q -> ptr v0 A0 q <> 0 ->
  exists s', for_ (Z.to_nat NINDIRECT) 0 (free_slot 1 bp) s = Ok (tt, s') /\
    trunc_at (fun p => Q p \/ exists j, p = P j /\ 0 <= j < NINDIRECT) A H s'.
Proof.
  intros HP HQ Ht Hin Hq Hnz. apply (for_inv (fun k t => trunc_at (fun p => Q p \/ exists j, p = P j /\ 0 <= j < k) A H t)).
  { eapply trunc_ext; [|exact Ht]. intros p. split; [by left|]. intros [?|(j & _ & ?)]; [done|lia]. }
  intros j t Hj Hjt. rewrite Z2Nat.id, Z.add_0_l in Hj by (fsconst; lia). destruct (HP j Hj) as (Hpj & Hpar).
  unfold free_slot. rewrite (mbind_ok _ _ _ _ _ (trunc_bdata _ _ _ _ _ _ Hjt Hin Hq Hnz)).
  assert (Ep : get32 (v0 (ptr v0 A0 q)) (4 * j) = ptr v0 A0 (P j)).
  { rewrite (ptr_parent _ _ _ _ _ Hpar). unfold entry. by rewrite (proj2 (Z.eqb_neq _ _) Hnz). }
  assert (Hinj : forall k, 0 <= k < NINDIRECT -> P j = P k -> j = k).
  { intros k Hk E. destruct (HP k Hk) as (_ & Hpk). rewrite <- E, Hpar in Hpk. congruence. }
  assert (Hext : forall p, ((Q p \/ exists k, p = P k /\ 0 <= k < j) \/ p = P j) <-> (Q p \/ exists k, p = P k /\ 0 <= k < j + 1)).
  { intros p. split.
    - intros [[?|(k & -> & ?)]| ->]; [by left|right; exists k; split; [done|lia]|right; exists j; split; [done|lia]].
    - intros [?|(k & -> & Hk)]; [by left; left|]. destruct (decide (k = j)) as [->|]; [by right|].
      left. right. exists k. split; [done|lia]. }
  rewrite Ep. destruct (Z.eqb_spec (ptr v0 A0 (P j)) 0) as [Hz|Hz]; cbn [negb mwhen].
  - exists t. split; [done|]. eapply trunc_ext; [exact Hext|]. by apply trunc_none.
  - destruct (trunc_free _ _ _ _ (P j) Hjt Hpj Hz) as (t' & R & Ht').
    + intros [?|(k & E & Hk)]; [by apply (HQ j)|]. assert (j = k) by (apply Hinj; [lia|done]). lia.
    + exists t'. split; [exact R|]. by eapply trunc_ext; [exact Hext|].
Qed.

Lemma trunc_nones Q R A H s :
  trunc_at Q A H s -> (forall p, R p -> place_ok p /\ ptr v0 A0 p = 0) -> trunc_at (fun q => Q q \/ R q) A H s.
Proof.
  intros (v & L & [? ? Hu ? Hok ? ? ? ? ?]) HR. exists v, L. split; try done.
  - intros c Hc. rewrite Hu by done. split; intros (H1 & H2); (split; [done|]); intros Hc0 q Hq; [|apply H2; tauto].
    destruct Hq as [Hq|Hq]; [by apply H2|]. destruct (HR q Hq) as (_ & ->). congruence.
  - intros q [Hq|Hq]; [by apply Hok|by apply HR].
Qed.

Definition in_indirect (p : place) : Prop := exists j, p = InInd j /\ 0 <= j < NINDIRECT.
Definition in_double (p : place) : Prop := exists j, p = InDbl j /\ 0 <= j < NINDIRECT.

Lemma trunc_indirect s (x := nth (Z.to_nat NDIRECT) A0 0) :
  trunc_at (below NDIRECT) (zeros (Z.to_nat NDIRECT)) [] s ->
  exists s', mwhen (negb (x =? 0))
      (let! bp := dop (ld_bread 1 x) in
       for_ (Z.to_nat NINDIRECT) 0 (free_slot 1 bp) ;;! dop (ld_brelse bp) ;;! bfree 1 x ;;! set_addr ip NDIRECT 0) s = Ok (tt, s') /\
    trunc_at (fun p => below (NDIRECT + 1) p \/ in_indirect p) (zeros (Z.to_nat (NDIRECT + 1))) [] s'.
Proof.
  intros Ht.
  assert (Hbelow : forall p, below (NDIRECT + 1) p <-> below NDIRECT p \/ p = InInode NDIRECT).
  { intros p. split.
    - intros (k & -> & Hk). destruct (decide (k = NDIRECT)) as [->|]; [by right|]. left. exists k. split; [done|lia].
    - intros [(k & -> & ?)| ->]; eexists; (split; [done|fsconst; lia]). }
  destruct (Z.eqb_spec x 0) as [Hz|Hnz]; cbn [negb mwhen].
  - exists s. split; [done|]. change (Z.to_nat (NDIRECT + 1)) with (S (Z.to_nat NDIRECT)). rewrite zeros_same by (done || fsconst; lia).
    eapply (trunc_ext (fun p => below NDIRECT p \/ (p = InInode NDIRECT \/ in_indirect p))); [intros p; rewrite Hbelow; tauto|].
    apply trunc_nones; [done|]. intros p [->|(j & -> & Hj)]; [by split|]. split; [done|]. cbn [ptr]. fold x. by rewrite Hz.
  - destruct (trunc_bread _ _ _ _ (InInode NDIRECT) Ht) as (bp & s1 & R1 & Ht1); [done|done|apply not_elem_of_nil|cbn; lia|].
    change (ptr v0 A0 (InInode NDIRECT)) with x in *.
    destruct (trunc_slots InInd (below NDIRECT) _ _ s1 bp (InInode NDIRECT) ltac:(done) ltac:(by intros j (k & ? & _)) Ht1 ltac:(left) ltac:(done) Hnz)
      as (s2 & R2 & Ht2).
    destruct (trunc_brelse _ _ _ _ _ _ Ht2) as (s3 & R3 & Ht3).
    destruct (trunc_free _ _ _ _ (InInode NDIRECT) Ht3) as (s4 & R4 & Ht4); [done|done| |].
    { intros [(k & [= <-] & ?)|(j & ? & _)]; [lia|done]. }
    destruct (trunc_set_addr _ _ _ _ NDIRECT 0 Ht4) as (s5 & R5 & Ht5). exists s5. split.
    + rewrite (mbind_ok _ _ _ _ _ R1), (mbind_ok _ _ _ _ _ R2), (mbind_ok _ _ _ _ _ R3). by rewrite (mbind_ok _ _ _ _ _ R4).
    + change (Z.to_nat (NDIRECT + 1)) with (S (Z.to_nat NDIRECT)). rewrite <- zeros_S by (fsconst; lia).
      eapply trunc_ext; [|exact Ht5]. intros p. rewrite Hbelow. unfold in_indirect. tauto.
Qed.

(** An empty doubly-indirect block. *)
Lemma trunc_double_empty s (x := nth (Z.to_nat (NDIRECT + 1)) A0 0) :
  trunc_at (fun p => below (NDIRECT + 1) p \/ in_indirect p) (zeros (Z.to_nat (NDIRECT + 1))) [] s ->
  (forall j, 0 <= j < NINDIRECT -> ptr v0 A0 (InDbl j) = 0) ->
  exists s', mwhen (negb (x =? 0))
      (let! bp := dop (ld_bread 1 x) in
       for_ (Z.to_nat NINDIRECT) 0 (itrunc_double 1 bp) ;;! dop (ld_brelse bp) ;;! bfree 1 x ;;! set_addr ip (NDIRECT + 1) 0) s = Ok (tt, s') /\
    trunc_at place_ok (zeros (Z.to_nat (NDIRECT + 2))) [] s'.
Proof.
  intros Ht Hd. set (Q := fun p => below (NDIRECT + 1) p \/ in_indirect p) in *.
  assert (Hall : forall p, place_ok p <-> (Q p \/ p = InInode (NDIRECT + 1)) \/ (in_double p \/ exists j k, p = InLeaf j k /\ 0 <= j < NINDIRECT /\ 0 <= k < NINDIRECT)).
  { intros [k|k|j|j k]; split; cbn; intros Hp; unfold Q, below, in_indirect, in_double in *.
    - destruct (decide (k = NDIRECT + 1)) as [->|]; [by left; right|]. left. left. left. exists k. split; [done|lia].
    - place_case Hp.
    - left. left. right. by exists k.
    - place_case Hp.
    - right. left. by exists j.
    - place_case Hp.
    - right. right. by exists j, k.
    - place_case Hp. }
  assert (Hrest : forall A t, trunc_at (fun p => Q p \/ p = InInode (NDIRECT + 1)) A [] t -> trunc_at place_ok A [] t).
  { intros A t Htt. eapply trunc_ext; [intros p; symmetry; apply Hall|]. apply trunc_nones; [done|].
    intros p [(j & -> & Hj)|(j & k & -> & Hj & Hk)]; [split; [done|by apply Hd]|]. split; [done|].
    rewrite (ptr_parent _ _ (InLeaf j k) _ _ eq_refl), (Hd j Hj). done. }
  assert (HnQ : ~ Q (InInode (NDIRECT + 1))) by (intros [(k & [= <-] & ?)|(j & ? & _)]; [lia|done]).
  destruct (Z.eqb_spec x 0) as [Hz|Hnz]; cbn [negb mwhen].
  - exists s. split; [done|]. change (Z.to_nat (NDIRECT + 2)) with (S (Z.to_nat (NDIRECT + 1))).
    rewrite zeros_same by (done || fsconst; lia). apply Hrest. by apply trunc_none.
  - destruct (trunc_bread _ _ _ _ (InInode (NDIRECT + 1)) Ht) as (bp & s1 & R1 & Ht1); [done|done|apply not_elem_of_nil|cbn; lia|].
    change (ptr v0 A0 (InInode (NDIRECT + 1))) with x in *.
    assert (R2 : for_ (Z.to_nat NINDIRECT) 0 (itrunc_double 1 bp) s1 = Ok (tt, s1)).
    { destruct (for_inv (fun _ t => t = s1) (itrunc_double 1 bp) (Z.to_nat NINDIRECT) 0 s1 eq_refl) as (s' & R & ->); [|exact R].
      intros j t Hj ->. exists s1. split; [|done]. rewrite Z2Nat.id, Z.add_0_l in Hj by (fsconst; lia). unfold itrunc_double.
      rewrite (mbind_ok _ _ _ _ _ (trunc_bdata _ _ _ _ bp (InInode (NDIRECT + 1)) Ht1 ltac:(left) ltac:(done) Hnz)).
      change (ptr v0 A0 (InInode (NDIRECT + 1))) with x. specialize (Hd j Hj). cbn [ptr] in Hd. fold x in Hd. unfold entry in Hd.
      rewrite (proj2 (Z.eqb_neq _ _) Hnz) in Hd. by rewrite Hd. }
    destruct (trunc_brelse _ _ _ _ _ _ Ht1) as (s3 & R3 & Ht3).
    destruct (trunc_free _ _ _ _ (InInode (NDIRECT + 1)) Ht3) as (s4 & R4 & Ht4); [done|done|done|].
    destruct (trunc_set_addr _ _ _ _ (NDIRECT + 1) 0 Ht4) as (s5 & R5 & Ht5). exists s5. split.
    + rewrite (mbind_ok _ _ _ _ _ R1), (mbind_ok _ _ _ _ _ R2), (mbind_ok _ _ _ _ _ R3). by rewrite (mbind_ok _ _ _ _ _ R4).
    + change (Z.to_nat (NDIRECT + 2)) with (S (Z.to_nat (NDIRECT + 1))). rewrite <- zeros_S by (fsconst; lia). by apply Hrest.
Qed.

(** A doubly-indirect block with an entry: the blocks it lists are given back by
    the inner loop, which goes over the same buffer, and then once more. *)
Lemma trunc_double_panics s (x := nth (Z.to_nat (NDIRECT + 1)) A0 0) k :
  trunc_at (fun p => below (NDIRECT + 1) p \/ in_indirect p) (zeros (Z.to_nat (NDIRECT + 1))) [] s ->
  0 <= k < NINDIRECT -> ptr v0 A0 (InDbl k) <> 0 -> (forall j, 0 <= j < k -> ptr v0 A0 (InDbl j) = 0) ->
  mwhen (negb (x =? 0))
    (let! bp := dop (ld_bread 1 x) in
     for_ (Z.to_nat NINDIRECT) 0 (itrunc_double 1 bp) ;;! dop (ld_brelse bp) ;;! bfree 1 x ;;! set_addr ip (NDIRECT + 1) 0) s
  = Panic "freeing free block".
Proof.
  intros Ht Hk Hnk Hbefore. set (Q := fun p => below (NDIRECT + 1) p \/ in_indirect p) in *.
  assert (Hq : place_ok (InInode (NDIRECT + 1))) by done.
  assert (Hnz : x <> 0) by (apply (ptr_up _ _ (InDbl k) _ _ eq_refl Hnk)).
  rewrite (proj2 (Z.eqb_neq _ _) Hnz). cbn [negb mwhen].
  destruct (trunc_bread _ _ _ _ (InInode (NDIRECT + 1)) Ht) as (bp & s1 & R1 & Ht1); [done|done|apply not_elem_of_nil|cbn; lia|].
  change (ptr v0 A0 (InInode (NDIRECT + 1))) with x in R1. rewrite (mbind_ok _ _ _ _ _ R1). apply mbind_panic.
  assert (Hslot : forall j, 0 <= j < NINDIRECT -> get32 (v0 x) (4 * j) = ptr v0 A0 (InDbl j)).
  { intros j Hj. cbn [ptr]. fold x. unfold entry. by rewrite (proj2 (Z.eqb_neq _ _) Hnz). }
  apply (for_panic (fun _ t => t = s1) _ _ _ k); [done|fsconst; lia| |].
  - intros j t Hj ->. exists s1. split; [|done]. unfold itrunc_double.
    rewrite (mbind_ok _ _ _ _ _ (trunc_bdata _ _ _ _ bp (InInode (NDIRECT + 1)) Ht1 ltac:(left) Hq Hnz)).
    change (ptr v0 A0 (InInode (NDIRECT + 1))) with x. by rewrite Hslot, Hbefore by lia.
  - intros t ->. unfold itrunc_double.
    rewrite (mbind_ok _ _ _ _ _ (trunc_bdata _ _ _ _ bp (InInode (NDIRECT + 1)) Ht1 ltac:(left) Hq Hnz)).
    change (ptr v0 A0 (InInode (NDIRECT + 1))) with x in *. rewrite Hslot by done.
    rewrite (proj2 (Z.eqb_neq _ _) Hnk). cbn [negb mwhen].
    destruct (trunc_bread _ _ _ _ (InDbl k) Ht1) as (bp' & s2 & R2 & Ht2); [done|done| |cbn; lia|].
    { intros E%list_elem_of_singleton. cbn [fst snd] in E.
      assert (E' : InDbl k = InInode (NDIRECT + 1)) by (apply (fi_inj _ _ _ Hf0); done). done. }
    rewrite (mbind_ok _ _ _ _ _ R2).
    destruct (trunc_slots InDbl Q _ _ s2 bp (InInode (NDIRECT + 1)) ltac:(done) ltac:(by intros j [(? & ? & _)|(? & ? & _)]) Ht2
      ltac:(right; left) Hq Hnz) as (s3 & R3 & Ht3). rewrite (mbind_ok _ _ _ _ _ R3).
    destruct (trunc_brelse _ _ _ _ _ _ Ht3) as (s4 & R4 & Ht4). rewrite (mbind_ok _ _ _ _ _ R4).
    rewrite (mbind_ok _ _ _ _ _ (trunc_bdata _ _ _ _ bp (InInode (NDIRECT + 1)) Ht4 ltac:(left) Hq Hnz)).
    change (ptr v0 A0 (InInode (NDIRECT + 1))) with x. rewrite Hslot by done. apply mbind_panic.
    eapply (trunc_again _ _ _ _ (InDbl k) Ht4); [|done]. right. by exists k.
Qed.

(** ** The whole of [itrunc] *)

Lemma trunc_start L : L = L0 -> ld_view (fdisk s0) v0 L [] -> ld_open (fdisk s0) -> trunc_at (fun _ => False) A0 [] s0.
Proof.
  intros -> Hv Ho. exists v0, L0. split; try done.
  - exists (fdisk s0). by rewrite istate_id.
  - intros c Hc. split; [done|]. by intros (? & _).
  - apply Forall_nil_2.
  - exists []. rewrite app_nil_r. split_and!; [done|apply NoDup_nil_2|]. by intros y ?%elem_of_nil.
  - cbn. lia.
Qed.

(** The state before the doubly-indirect block is looked at. *)
Lemma trunc_first :
  ld_view (fdisk s0) v0 L0 [] -> ld_open (fdisk s0) ->
  exists s1, trunc_at (fun p => below (NDIRECT + 1) p \/ in_indirect p) (zeros (Z.to_nat (NDIRECT + 1))) [] s1 /\
    itrunc ip s0 =
    (mwhen (negb (nth (Z.to_nat (NDIRECT + 1)) A0 0 =? 0))
      (let! bp := dop (ld_bread 1 (nth (Z.to_nat (NDIRECT + 1)) A0 0)) in
       for_ (Z.to_nat NINDIRECT) 0 (itrunc_double 1 bp) ;;! dop (ld_brelse bp) ;;!
       bfree 1 (nth (Z.to_nat (NDIRECT + 1)) A0 0) ;;! set_addr ip (NDIRECT + 1) 0) ;;!
     seti ip (set_i_size 0) ;;! iupdate ip) s1.
Proof.
  intros Hv Ho. destruct (trunc_direct s0 (trunc_start L0 eq_refl Hv Ho)) as (s1 & R1 & Ht1).
  destruct (trunc_indirect s1 Ht1) as (s2 & R2 & Ht2). exists s2. split; [done|].
  unfold itrunc. rewrite (mbind_ok _ _ _ _ _ (geti_eq s0 ip i Hi0)), Hdev0, (mbind_ok _ _ _ _ _ R1).
  rewrite (mbind_ok _ _ _ _ _ (trunc_addr _ _ _ _ NDIRECT Ht1 (zeros_length (Z.to_nat NDIRECT) ltac:(fsconst; lia)) ltac:(fsconst; lia))).
  rewrite zeros_nth, (mbind_ok _ _ _ _ _ R2) by lia.
  rewrite (mbind_ok _ _ _ _ _ (trunc_addr _ _ _ _ (NDIRECT + 1) Ht2 (zeros_length (Z.to_nat (NDIRECT + 1)) ltac:(fsconst; lia)) ltac:(fsconst; lia))).
  by rewrite zeros_nth by lia.
Qed.
End Truncating.

Lemma first_entry (P : Z -> bool) n k :
  0 <= k < Z.of_nat n -> P k = true -> exists k', 0 <= k' < Z.of_nat n /\ P k' = true /\ forall j, 0 <= j < k' -> P j = false.
Proof using.
  intros Hk HP. assert (Hrec : forall m, (m <= n)%nat ->
    (exists k', 0 <= k' < Z.of_nat m /\ P k' = true /\ forall j, 0 <= j < k' -> P j = false) \/ (forall j, 0 <= j < Z.of_nat m -> P j = false)).
  { induction m as [|m IH]; intros Hm; [right; intros; lia|]. destruct (IH ltac:(lia)) as [(k' & H1 & H2 & H3)|Hno].
    - left. exists k'. split_and!; done || lia.
    - destruct (P (Z.of_nat m)) eqn:Em.
      + left. exists (Z.of_nat m). split_and!; try done; lia.
      + right. intros j Hj. destruct (decide (j = Z.of_nat m)) as [->|]; [done|]. apply Hno. lia. }
  destruct (Hrec n ltac:(lia)) as [?|Hno]; [done|]. by rewrite Hno in HP.
Qed.

(** C33: [itrunc] of a file without blocks below the doubly-indirect block gives
    back exactly the blocks of the file, clears its addresses and its size in memory
    and on the disk, and changes no block besides the free map and the inode's. *)
Theorem itrunc_frees s ip i v sb L :
  icache s !! ip = Some i -> i_dev i = 1 -> fsb s = sb -> fs_ok v sb -> file_ok v sb (i_addrs i) ->
  inode_ok i -> 0 <= i_inum i < sb_ninodes sb -> ld_view (fdisk s) v L [] -> ld_open (fdisk s) ->
  Z.of_nat (length L) + Z.of_nat (length (maps sb)) + 1 < ld_cap ->
  Z.of_nat (length L) + Z.of_nat (length (maps sb)) + 2 < NBUF ->
  (forall j, 0 <= j < NINDIRECT -> ptr v (i_addrs i) (InDbl j) = 0) ->
  let i' := set_i_size 0 (set_i_addrs (replicate (Z.to_nat (NDIRECT + 2)) 0) i) in
  exists d v' L', itrunc ip s = Ok (tt, put_inode ip i' (set_fdisk d s)) /\
    ld_view d v' L' [] /\ ld_open d /\ fs_ok v' sb /\ synced v' sb i' /\
    (forall b, 0 < b < sb_size sb ->
       used v' sb b = true <-> used v sb b = true /\ forall p, place_ok p -> ptr v (i_addrs i) p <> b) /\
    (forall y, (forall b, 0 <= b < sb_size sb -> BBLOCK b sb <> y) -> y <> IBLOCK (i_inum i) sb -> v' y = v y).
Proof using.
  intros Hi Hdev Hsb Hfs Hf Hiok Hin Hv Ho Hcap' Hbuf Hd i'.
  assert (Hcap : Z.of_nat (length L) + Z.of_nat (length (maps sb)) < ld_cap) by lia.
  destruct (trunc_first s ip i v sb L Hi Hdev Hsb Hfs Hf Hcap Hbuf Hv Ho) as (s1 & Ht1 & R1).
  destruct (trunc_double_empty s ip i v sb L Hi Hdev Hsb Hfs Hf Hcap Hbuf s1 Ht1 Hd) as (s2 & R2 & v2 & L2 & [(d2 & ->) Hfs2 Hu2 Hsame2 _ Hv2 Ho2 _ Hlog _]).
  assert (EA : zeros i (Z.to_nat (NDIRECT + 2)) = replicate (Z.to_nat (NDIRECT + 2)) 0).
  { unfold zeros. rewrite drop_ge, app_nil_r by (rewrite (fi_len _ _ _ Hf); lia). done. }
  rewrite EA in *. set (A := replicate (Z.to_nat (NDIRECT + 2)) 0) in *. pose proof (mapped_length _ _ _ Hlog) as Hlen.
  assert (Hptr0 : forall q, place_ok q -> ptr v2 A q = 0).
  { assert (Hn : forall k, nth k A 0 = 0) by (intros k; unfold A; rewrite nth_lookup; destruct (replicate _ _ !! k) eqn:E; [|done]; by apply lookup_replicate in E as (-> & _)).
    intros [k|k|j|j k] _; cbn [ptr]; rewrite Hn; done. }
  assert (Hf2 : file_ok v2 sb A) by (split; [done| |]; intros p; intros; exfalso; by eauto).
  assert (He2 : fenv (istate s ip i A d2) ip (set_i_addrs A i) v2 sb L2 [] 1 0).
  { split; try done; [by apply istate_at|apply Forall_nil_2|lia|cbn; lia|lia]. }
  destruct (grow_update _ ip _ v2 sb L2 1 0 0 He2) as (d3 & R3 & He3 & Hsy & _ & Hu3 & Hy3); [lia| |done|].
  { apply inode_ok_grow; [done|unfold is_u32; lia| |done]. apply Forall_replicate. unfold is_u32. lia. }
  fold i' in R3, He3, Hsy, Hu3, Hy3. eexists d3, _, _.
  split; [rewrite R1, (mbind_ok _ _ _ _ _ R2), R3; do 2 f_equal; apply (put_inode_twice ip i' (set_i_addrs A i) (set_fdisk d3 s))|].
  split_and!; [apply (fe_view _ _ _ _ _ _ _ _ _ He3)|apply (fe_open _ _ _ _ _ _ _ _ _ He3)|apply (fe_fs _ _ _ _ _ _ _ _ _ He3)|done| |].
  - intros b Hb. rewrite Hu3, Hu2 by lia. split; intros (H1 & H2); (split; [done|]); [apply H2; lia|auto].
  - intros y Hy Hne. rewrite Hy3 by done. by apply Hsame2.
Qed.

(** C37: Truncating a file that has a block below the doubly-indirect block panics:
    the inner loop of [itrunc] reads the block numbers from [bp] instead of
    [bp_aux], so it gives back the indirect blocks themselves, and [bfree] then finds
    the first of them free. *)
Theorem itrunc_double_panics s ip i v sb L k :
  icache s !! ip = Some i -> i_dev i = 1 -> fsb s = sb -> fs_ok v sb -> file_ok v sb (i_addrs i) ->
  ld_view (fdisk s) v L [] -> ld_open (fdisk s) ->
  Z.of_nat (length L) + Z.of_nat (length (maps sb)) < ld_cap ->
  Z.of_nat (length L) + Z.of_nat (length (maps sb)) + 2 < NBUF ->
  0 <= k < NINDIRECT -> ptr v (i_addrs i) (InDbl k) <> 0 ->
  itrunc ip s = Panic "freeing free block".
Proof using.
  intros Hi Hdev Hsb Hfs Hf Hv Ho Hcap Hbuf Hk Hnz.
  destruct (first_entry (fun j => negb (ptr v (i_addrs i) (InDbl j) =? 0)) (Z.to_nat NINDIRECT) k) as (k' & Hk' & Hp & Hb);
    [fsconst; lia|by rewrite (proj2 (Z.eqb_neq _ _) Hnz)|].
  destruct (trunc_first s ip i v sb L Hi Hdev Hsb Hfs Hf Hcap Hbuf Hv Ho) as (s1 & Ht1 & ->). apply mbind_panic.
  apply (trunc_double_panics s ip i v sb L Hi Hdev Hsb Hfs Hf Hcap Hbuf s1 k'); [done|fsconst; lia| |].
  - by apply negb_true_iff, Z.eqb_neq in Hp.
  - intros j Hj. by apply Z.eqb_eq, negb_false_iff, Hb.
Qed.
End FsTrunc.

(** ** Examples on the small disk *)

Lemma itrunc_frees_witness :
  exists (s : fsys lst) d, itrunc (LD := mini_ld) 0 s =
    Ok (tt, put_inode 0 (set_i_size 0 (set_i_addrs (replicate 13 0) mini_inode)) (set_fdisk d s)).
Proof.
  destruct mini_open as (s & v & [[Hi Hdev Hsb Hfs Hf Hv Ho Hap Hcap Hbuf Hfree] Hok Hin Hsz Hd Hsy]).
  destruct (itrunc_frees (LD := mini_ld) s 0 mini_inode v mini_sb [] Hi Hdev Hsb Hfs Hf Hok Hin Hv Ho)
    as (d & v' & L' & R & _); [reflexivity|reflexivity|done|]. exists s, d. exact R.
Defined.

(** The small disk with a file whose only block is below the doubly-indirect block. *)
Definition deep_disk : Z -> mem :=
  fun x =>
    if x =? 35 then store (fun _ => 0) 0 [255; 255; 255; 255; 255; 3]
    else if x =? 40 then put32 (fun _ => 0) 0 41
    else if x =? 41 then put32 (fun _ => 0) 0 39
    else mini_disk x.
Definition deep_addrs : list Z := replicate 12 0 ++ [40].
Definition deep_inode : inode := mkinode 1 2 1 (sl_held 1) 1 T_FILE 0 0 1 71680 deep_addrs.

Lemma one_entry x j : 0 <= j -> is_u32 x -> get32 (put32 (fun _ => 0) 0 x) (4 * j) = if j =? 0 then x else 0.
Proof.
  intros Hj Hx. destruct (Z.eqb_spec j 0) as [->|Hne]; [by apply get32_put32_eq|]. by rewrite get32_put32_ne by lia.
Qed.

Lemma deep_ptr v p :
  (forall y, y < 2 \/ 32 <= y -> v y = deep_disk y) -> place_ok p -> ptr v deep_addrs p <> 0 ->
  (p = InInode 12 /\ ptr v deep_addrs p = 40) \/ (p = InDbl 0 /\ ptr v deep_addrs p = 41) \/
  (p = InLeaf 0 0 /\ ptr v deep_addrs p = 39).
Proof.
  intros Hv Hp Hnz.
  assert (Edbl : forall j, 0 <= j -> entry v 40 j = if j =? 0 then 41 else 0).
  { intros j Hj. unfold entry. cbn [Z.eqb]. rewrite Hv by lia. by apply one_entry. }
  destruct p as [k|k|j|j k]; cbn [place_ok ptr] in *; fsconst.
  - assert (Hcase : k = 0 \/ k = 1 \/ k = 2 \/ k = 3 \/ k = 4 \/ k = 5 \/ k = 6 \/ k = 7 \/ k = 8 \/ k = 9 \/ k = 10 \/ k = 11 \/ k = 12) by lia.
    destruct_or?; subst; try done. by left.
  - done.
  - change (nth (Z.to_nat (11 + 1)) deep_addrs 0) with 40 in *. rewrite Edbl in * by lia.
    destruct (Z.eqb_spec j 0) as [->|]; [|done]. right. by left.
  - change (nth (Z.to_nat (11 + 1)) deep_addrs 0) with 40 in *. rewrite Edbl in * by lia.
    destruct (Z.eqb_spec j 0) as [->|]; [|done]. unfold entry in *. cbn [Z.eqb] in *. rewrite Hv in * by lia.
    change (deep_disk 41) with (put32 (fun _ => 0) 0 39) in *. rewrite one_entry in * by (unfold is_u32; lia).
    destruct (Z.eqb_spec k 0) as [->|]; [|done]. right. by right.
Qed.

Lemma itrunc_double_panics_witness :
  exists s : fsys lst, itrunc (LD := mini_ld) 0 s = Panic "freeing free block".
Proof.
  destruct (mini_state_on deep_disk ltac:(by split)) as (s & v & Hv & Ho & Hsb & Hic & Hlk & Hvd).
  exists (set_icache (deep_inode :: tail (icache s)) s).
  apply (itrunc_double_panics (LD := mini_ld) _ 0 deep_inode v mini_sb [] 0); try done.
  - apply mini_fs_ok_on; [by apply Hvd; lia|]. eapply mini_used; [apply Hvd; lia|]. by vm_compute.
  - change (i_addrs deep_inode) with deep_addrs. split; [done| |].
    + intros p Hp Hnz. destruct (deep_ptr v p Hvd Hp Hnz) as [(_ & ->)|[(_ & ->)|(_ & ->)]];
        (split; [apply mini_data; lia|unfold used; rewrite mini_bblock, Hvd by lia; reflexivity]).
    + intros p q Hp Hq E Hnz. destruct (deep_ptr v p Hvd Hp Hnz) as [(-> & E1)|[(-> & E1)|(-> & E1)]];
        destruct (deep_ptr v q Hvd Hq ltac:(by rewrite <- E)) as [(-> & E2)|[(-> & E2)|(-> & E2)]]; congruence.
  - cbn [i_addrs deep_inode ptr]. change (nth _ deep_addrs 0) with 40. unfold entry. cbn [Z.eqb].
    rewrite Hvd by lia. discriminate.
Defined.
