(* ===== verification/FsDir.v ===== *)
(** * Directories: [dirlookup] and [dirlink] of [fs.c]

    A directory is a file of sixteen-byte entries; what its users see is a map
    from names to inode numbers ([dir_get]).  [dirlink] adds a name to the map
    and [dirlookup] looks one up, through the inode cache ([iget]). *)

From Stdlib Require Import ZArith Lia String.
From stdpp Require Import base numbers functions list.
From S2P Require Import Prelude Bytes Params Locks Bio Log LogDisk Fs FsBlocks FsFile FsInode FsIO.

Local Open Scope Z_scope.
Local Open Scope kernel_scope.

(** ** Names *)

(** The name in an array of [DIRSIZ] characters. *)
Definition name_of (m : mem) : list Z := cstr (load m 0 (Z.to_nat DIRSIZ)).

Lemma ncmp_zero p q n : forall i, ncmp p q i n = 0 <-> cstr (load p i n) = cstr (load q i n).
Proof.
  induction n as [|n IH]; intros i; cbn [ncmp load cstr]; [done|].
  destruct (Z.eqb_spec (p i) 0) as [Hp|Hp], (Z.eqb_spec (q i) 0) as [Hq|Hq]; cbn [negb andb].
  - split; [done|lia].
  - split; [lia|done].
  - rewrite (proj2 (Z.eqb_neq _ _)) by lia. split; [lia|done].
  - destruct (Z.eqb_spec (p i) (q i)) as [E|E]; [|split; [lia|intros [=]; lia]].
    rewrite IH, E. split; [by intros ->|by injection 1].
Qed.

Lemma namecmp_zero p q : namecmp p q = 0 <-> name_of p = name_of q.
Proof. apply ncmp_zero. Qed.

Lemma length_ncpy t n : forall i, length (ncpy t i n) = n.
Proof.
  induction n as [|n IH]; intros i; [done|]. cbn [ncpy]. destruct (t i =? 0); [apply length_replicate|]. cbn. by rewrite IH.
Qed.

(** [strncpy] keeps the name. *)
Lemma cstr_ncpy t n : forall i, cstr (ncpy t i n) = cstr (load t i n).
Proof.
  induction n as [|n IH]; intros i; [done|]. cbn [ncpy load cstr].
  destruct (Z.eqb_spec (t i) 0) as [E|E]; [done|]. cbn [cstr]. rewrite (proj2 (Z.eqb_neq _ _) E). by f_equal.
Qed.

Lemma nth_load m a n k : 0 <= k < Z.of_nat n -> nth (Z.to_nat k) (load m a n) 0 = m (a + k).
Proof. intros Hk. apply nth_lookup_Some. rewrite load_lookup by lia. f_equal. f_equal. lia. Qed.

Lemma load_nth l n : length l = n -> load (fun k => nth (Z.to_nat k) l 0) 0 n = l.
Proof.
  intros Hl. apply list_eq. intros k. destruct (decide (k < n)%nat) as [Hk|Hk].
  - rewrite load_lookup by done. destruct (lookup_lt_is_Some_2 l k) as (x & Hx); [lia|]. rewrite Hx. f_equal.
    rewrite Z.add_0_l, Nat2Z.id. by apply nth_lookup_Some.
  - rewrite !lookup_ge_None_2; [done|lia|rewrite length_load; lia].
Qed.

(** ** Entries *)

(** The entry at offset [off] of the bytes [b]: an inode number, zero when the
    entry is free, and a name. *)
Definition dentry (b : mem) (off : Z) : Z * list Z := (b off + 256 * b (off + 1), cstr (load b (off + 2) (Z.to_nat DIRSIZ))).

(** The first [n] entries. *)
Definition dentries (b : mem) (n : nat) : list (Z * list Z) := (fun k => dentry b (DIRENT_SIZE * Z.of_nat k)) <$> seq 0 n.

(** The first entry in use with the name, and the first free entry. *)
Definition is_named (nm : list Z) (e : Z * list Z) : bool := negb (e.1 =? 0) && bool_decide (e.2 = nm).
Fixpoint pos {A} (P : A -> bool) (l : list A) : nat :=
  match l with
  | [] => O
  | x :: l' => if P x then O else S (pos P l')
  end.
Definition dir_get (l : list (Z * list Z)) (nm : list Z) : option Z := fst <$> l !! pos (is_named nm) l.
Definition free_pos (l : list (Z * list Z)) : nat := pos (fun e => e.1 =? 0) l.

Lemma entry_inum b off : de_inum (load b off (Z.to_nat DIRENT_SIZE)) = (dentry b off).1.
Proof. reflexivity. Qed.

Lemma entry_name b off : name_of (de_name (load b off (Z.to_nat DIRENT_SIZE))) = (dentry b off).2.
Proof.
  unfold name_of, dentry. cbn [snd]. f_equal. apply load_copy. intros k Hk. unfold de_name.
  rewrite nth_load by (change (Z.of_nat (Z.to_nat DIRENT_SIZE)) with 16; change (Z.of_nat (Z.to_nat DIRSIZ)) with 14 in Hk; lia).
  f_equal. lia.
Qed.

Lemma dentry_ext b b' off off' : (forall k, 0 <= k < DIRENT_SIZE -> b' (off' + k) = b (off + k)) -> dentry b' off' = dentry b off.
Proof.
  change DIRENT_SIZE with 16. intros H. unfold dentry. rewrite (H 1) by lia.
  pose proof (H 0 ltac:(lia)) as H0. rewrite !Z.add_0_r in H0. rewrite H0. f_equal. f_equal.
  apply load_copy. intros k Hk. change (Z.of_nat (Z.to_nat DIRSIZ)) with 14 in Hk. rewrite <- !Z.add_assoc. apply H. lia.
Qed.

(** The bytes [dirlink] writes are the entry. *)
Lemma dentry_mk b off inum name :
  0 <= inum < 2 ^ 16 -> (forall k, 0 <= k < DIRENT_SIZE -> b (off + k) = nth (Z.to_nat k) (mk_dirent inum name) 0) ->
  dentry b off = (inum, name_of name).
Proof.
  intros Hi H. rewrite (dentry_ext (fun k => nth (Z.to_nat k) (mk_dirent inum name) 0) _ 0) by done.
  unfold dentry. f_equal.
  - change (u8 inum + 256 * u8 (Z.shiftr inum 8) = inum). unfold u8. rewrite Z.shiftr_div_pow2 by lia. zlia.
  - unfold name_of. rewrite <- (cstr_ncpy name). f_equal. rewrite <- (load_nth (ncpy name 0 _) _ (length_ncpy _ _ _)).
    apply load_copy. intros k Hk. unfold mk_dirent. replace (Z.to_nat (0 + 2 + k)) with (S (S (Z.to_nat k))) by lia. done.
Qed.

Lemma dentries_lookup b n j : dentries b n !! j = if decide (j < n)%nat then Some (dentry b (DIRENT_SIZE * Z.of_nat j)) else None.
Proof.
  unfold dentries. rewrite list_lookup_fmap. destruct (decide (j < n)%nat) as [H|H].
  - by rewrite lookup_seq_lt.
  - rewrite lookup_seq_ge by lia. done.
Qed.

Lemma length_dentries b n : length (dentries b n) = n.
Proof. unfold dentries. by rewrite length_fmap, length_seq. Qed.

(** ** Searching *)

Lemma pos_before {A} (P : A -> bool) l : forall j x, l !! j = Some x -> (j < pos P l)%nat -> P x = false.
Proof.
  induction l as [|y l IH]; intros j x Hj Hlt; [done|]. cbn in Hlt. destruct (P y) eqn:E; [lia|].
  destruct j as [|j]; [by injection Hj as <-|]. apply (IH j); [done|lia].
Qed.

Lemma pos_at {A} (P : A -> bool) l x : l !! pos P l = Some x -> P x = true.
Proof. induction l as [|y l IH]; [done|]. cbn. destruct (P y) eqn:E; [by intros [= <-]|done]. Qed.

Lemma pos_unique {A} (P : A -> bool) l j x :
  l !! j = Some x -> P x = true -> (forall i y, (i < j)%nat -> l !! i = Some y -> P y = false) -> pos P l = j.
Proof.
  revert j. induction l as [|z l IH]; intros j Hj HP Hb; [done|]. cbn. destruct j as [|j].
  - injection Hj as ->. by rewrite HP.
  - rewrite (Hb O z) by (done || lia). f_equal. apply IH; [done|done|]. intros i y Hi. apply (Hb (S i)). lia.
Qed.

Lemma pos_le {A} (P : A -> bool) l : (pos P l <= length l)%nat.
Proof. induction l as [|x l IH]; cbn; [lia|]. destruct (P x); lia. Qed.

Lemma dir_get_some l nm x :
  dir_get l nm = Some x <-> exists j, l !! j = Some (x, nm) /\ x <> 0 /\
    forall i e, (i < j)%nat -> l !! i = Some e -> is_named nm e = false.
Proof.
  unfold dir_get. split.
  - destruct (l !! pos _ l) as [[y n]|] eqn:E; [|done]. intros [= ->]. exists (pos (is_named nm) l).
    pose proof (pos_at _ _ _ E) as HP. unfold is_named in HP. cbn in HP. apply andb_true_iff in HP as [H0 Hn].
    apply bool_decide_eq_true in Hn as ->. split; [done|]. split; [intros ->; done|]. intros i e Hi He. by eapply pos_before.
  - intros (j & Hj & Hx & Hb). rewrite (pos_unique _ _ j (x, nm)); [by rewrite Hj|done| |done].
    unfold is_named. cbn. rewrite (proj2 (Z.eqb_neq _ _) Hx). by rewrite bool_decide_true.
Qed.

Lemma dir_get_none l nm e j : dir_get l nm = None -> l !! j = Some e -> is_named nm e = false.
Proof.
  unfold dir_get. intros H Hj. apply (pos_before (is_named nm) l j e Hj). apply lookup_lt_Some in Hj.
  destruct (l !! pos _ l) eqn:E; [done|]. apply lookup_ge_None in E. lia.
Qed.

(** One entry that was free, or new, now has a name that was not there. *)
Lemma dir_get_link l l' k nm inum :
  dir_get l nm = None -> inum <> 0 -> l' !! k = Some (inum, nm) -> (forall j, j <> k -> l' !! j = l !! j) ->
  (forall e, l !! k = Some e -> e.1 = 0) ->
  forall n, dir_get l' n = if decide (n = nm) then Some inum else dir_get l n.
Proof.
  intros Hn Hi Hk Hj Hf n. destruct (decide (n = nm)) as [->|Hne].
  - apply dir_get_some. exists k. split; [done|]. split; [done|]. intros i e Hik He. rewrite Hj in He by lia.
    by apply (dir_get_none l nm e i).
  - assert (Hold : forall e, l !! k = Some e -> is_named n e = false).
    { intros e He. unfold is_named. by rewrite (Hf e He). }
    assert (Hnew : is_named n (inum, nm) = false) by (unfold is_named; cbn; rewrite bool_decide_false by done; apply andb_false_r).
    apply option_eq. intros x. rewrite !dir_get_some. split; intros (j & H1 & H2 & H3); exists j.
    + assert (j <> k) by (intros ->; congruence). rewrite Hj in H1 by done. split_and!; try done.
      intros i e Hij He. destruct (decide (i = k)) as [->|]; [by apply Hold|]. apply (H3 i); [done|by rewrite Hj].
    + assert (Hjk : j <> k). { intros ->. specialize (Hf _ H1). cbn in Hf. done. }
      rewrite Hj by done. split_and!; try done. intros i e Hij He. destruct (decide (i = k)) as [->|]; [congruence|].
      rewrite Hj in He by done. by apply (H3 i).
Qed.

Section FsDir.
Context {D : Type} `{LD : LoggedDisk D}.
Variable devsw_read : Z -> option (nat -> Z -> M (fsys D) (Z * list Z)).
Variable devsw_write : Z -> option (nat -> mem -> Z -> M (fsys D) Z).

(** ** Looking through a directory *)

(** A directory that can be read: [n] whole entries. *)
Record dir_open (s : fsys D) (dp : nat) (i : inode) (v : Z -> mem) (sb : superblock) (L : list Z) (n : nat) : Prop := {
  dr_env : renv s dp i v sb L;
  dr_type : i_type i = T_DIR;
  dr_size : i_size i = DIRENT_SIZE * Z.of_nat n;
  dr_max : i_size i <= MAXFILE * BSIZE;
  dr_dense : dense v (i_addrs i) (i_size i)
}.

(** Its entries. *)
Definition listing (v : Z -> mem) (i : inode) : list (Z * list Z) :=
  dentries (file_byte v (i_addrs i)) (Z.to_nat (i_size i / DIRENT_SIZE)).

Lemma listing_eq s dp i v sb L n : dir_open s dp i v sb L n -> listing v i = dentries (file_byte v (i_addrs i)) n.
Proof using.
  intros H. unfold listing. rewrite (dr_size _ _ _ _ _ _ _ H). f_equal. change DIRENT_SIZE with 16.
  rewrite Z.mul_comm, Z.div_mul by lia. lia.
Qed.

Lemma same_view_refl s dp i v sb L : renv s dp i v sb L -> same_view s s v L.
Proof using. intros H. exists (fdisk s). rewrite set_fdisk_id. split_and!; [done|apply H|done]. Qed.

Lemma same_view_dir s s' dp i v sb L n : dir_open s dp i v sb L n -> same_view s s' v L -> dir_open s' dp i v sb L n.
Proof using. intros [He ? ? ? ?] Hs. split; try done. by apply (same_view_renv s). Qed.

(** One entry is read. *)
Lemma read_entry s dp i v sb L n k :
  dir_open s dp i v sb L n -> (k < n)%nat ->
  exists s', readi devsw_read dp (DIRENT_SIZE * Z.of_nat k) DIRENT_SIZE s =
      Ok ((DIRENT_SIZE, load (file_byte v (i_addrs i)) (DIRENT_SIZE * Z.of_nat k) (Z.to_nat DIRENT_SIZE)), s') /\ same_view s s' v L.
Proof using.
  intros [He Ht Hs Hm Hd] Hk. change DIRENT_SIZE with 16 in *. 
  destruct (readi_ok devsw_read s dp i v sb L (16 * Z.of_nat k) 16 He) as (s' & R & Hsv);
    [by rewrite Ht|lia|lia|unfold MAXFILE, BSIZE in *; fsconst; lia|done|done|].
  exists s'. rewrite R. by replace (Z.min 16 (i_size i - 16 * Z.of_nat k)) with 16 by lia.
Qed.

Lemma dirlookup_from_ok fuel : forall s dp i v sb L n k name,
  dir_open s dp i v sb L n -> (k <= n)%nat -> (n <= fuel + k)%nat ->
  let l := drop k (listing v i) in
  let j := pos (is_named (name_of name)) l in
  exists s', same_view s s' v L /\
    dirlookup_from devsw_read fuel dp name (DIRENT_SIZE * Z.of_nat k) s =
      match l !! j with
      | None => Ok (None, s')
      | Some e => (let! ip := iget 1 e.1 in mret (Some (ip, DIRENT_SIZE * Z.of_nat (k + j)))) s'
      end.
Proof using.
  induction fuel as [|fuel IH]; intros s dp i v sb L n k name Hd Hk Hf; pose proof (dr_env _ _ _ _ _ _ _ Hd) as He;
    cbn [dirlookup_from]; mby (geti_eq s dp i (re_inode _ _ _ _ _ _ He)); rewrite (listing_eq _ _ _ _ _ _ _ Hd), (dr_size _ _ _ _ _ _ _ Hd).
  - assert (k = n) as -> by lia. rewrite Z.ltb_irrefl. cbn [negb]. exists s. split; [by eapply same_view_refl|].
    by rewrite drop_ge by (rewrite length_dentries; lia).
  - destruct (decide (k = n)) as [->|Hne].
    { rewrite Z.ltb_irrefl. cbn [negb]. exists s. split; [by eapply same_view_refl|].
      by rewrite drop_ge by (rewrite length_dentries; lia). }
    rewrite (proj2 (Z.ltb_lt _ _)) by (change DIRENT_SIZE with 16; lia). cbn [negb].
    destruct (read_entry s dp i v sb L n k Hd ltac:(lia)) as (s1 & R1 & Hs1). mby R1.
    rewrite Z.eqb_refl. cbn [negb]. rewrite entry_inum. set (b := file_byte v (i_addrs i)).
    assert (El : dentries b n !! k = Some (dentry b (DIRENT_SIZE * Z.of_nat k))) by (rewrite dentries_lookup; by rewrite decide_True by lia).
    rewrite (drop_S _ _ _ El). cbn [pos]. unfold is_named at 1 3.
    destruct (IH s1 dp i v sb L n (S k) name (same_view_dir _ _ _ _ _ _ _ _ Hd Hs1)) as (s2 & Hs2 & R2); [lia|lia|].
    rewrite (listing_eq _ _ _ _ _ _ _ Hd) in R2. fold b in R2.
    replace (DIRENT_SIZE * Z.of_nat k + DIRENT_SIZE) with (DIRENT_SIZE * Z.of_nat (S k)) by (change DIRENT_SIZE with 16; lia).
    assert (Hcont : exists s', same_view s s' v L /\
      dirlookup_from devsw_read fuel dp name (DIRENT_SIZE * Z.of_nat (S k)) s1 =
      match drop (S k) (dentries b n) !! pos (is_named (name_of name)) (drop (S k) (dentries b n)) with
      | None => Ok (None, s')
      | Some e => (let! ip := iget 1 e.1 in mret (Some (ip, DIRENT_SIZE * Z.of_nat (k + S (pos (is_named (name_of name)) (drop (S k) (dentries b n))))))) s'
      end).
    { exists s2. split; [by eapply same_view_trans|]. rewrite R2. by rewrite <- plus_n_Sm. }
    destruct (Z.eqb_spec (dentry b (DIRENT_SIZE * Z.of_nat k)).1 0) as [E0|E0]; cbn [negb andb]; [exact Hcont|].
    destruct (Z.eqb_spec (namecmp name (de_name (load b (DIRENT_SIZE * Z.of_nat k) (Z.to_nat DIRENT_SIZE)))) 0) as [E|E];
      rewrite namecmp_zero, entry_name in E.
    + rewrite bool_decide_true by done. exists s1. split; [done|]. rewrite (re_dev _ _ _ _ _ _ He). by rewrite Nat.add_0_r.
    + rewrite bool_decide_false by done. exact Hcont.
Qed.

Lemma dirlookup_ok s dp i v sb L n name :
  dir_open s dp i v sb L n ->
  exists s', same_view s s' v L /\
    dirlookup devsw_read dp name s =
      match listing v i !! pos (is_named (name_of name)) (listing v i) with
      | None => Ok (None, s')
      | Some e => (let! ip := iget 1 e.1 in mret (Some (ip, DIRENT_SIZE * Z.of_nat (pos (is_named (name_of name)) (listing v i))))) s'
      end.
Proof using.
  intros Hd. unfold dirlookup. mby (geti_eq s dp i (re_inode _ _ _ _ _ _ (dr_env _ _ _ _ _ _ _ Hd))).
  rewrite (dr_type _ _ _ _ _ _ _ Hd). change (T_DIR =? T_DIR) with true. cbn [negb].
  destruct (dirlookup_from_ok (dir_fuel (i_size i)) s dp i v sb L n 0 name Hd) as (s' & Hs & R); [lia| |by exists s'].
  unfold dir_fuel. rewrite (dr_size _ _ _ _ _ _ _ Hd). change DIRENT_SIZE with 16. rewrite Z.mul_comm, Z.div_mul by lia. lia.
Qed.

Lemma dirlink_from_ok fuel : forall s dp i v sb L n k,
  dir_open s dp i v sb L n -> (k <= n)%nat -> (n <= fuel + k)%nat ->
  exists s', same_view s s' v L /\
    dirlink_from devsw_read fuel dp (DIRENT_SIZE * Z.of_nat k) s =
      Ok (DIRENT_SIZE * Z.of_nat (k + free_pos (drop k (listing v i))), s').
Proof using.
  induction fuel as [|fuel IH]; intros s dp i v sb L n k Hd Hk Hf; pose proof (dr_env _ _ _ _ _ _ _ Hd) as He;
    cbn [dirlink_from]; mby (geti_eq s dp i (re_inode _ _ _ _ _ _ He)); rewrite (listing_eq _ _ _ _ _ _ _ Hd), (dr_size _ _ _ _ _ _ _ Hd).
  - assert (k = n) as -> by lia. rewrite Z.ltb_irrefl. cbn [negb]. exists s. split; [by eapply same_view_refl|].
    rewrite drop_ge by (rewrite length_dentries; lia). cbn. by rewrite Nat.add_0_r.
  - destruct (decide (k = n)) as [->|Hne].
    { rewrite Z.ltb_irrefl. cbn [negb]. exists s. split; [by eapply same_view_refl|].
      rewrite drop_ge by (rewrite length_dentries; lia). cbn. by rewrite Nat.add_0_r. }
    rewrite (proj2 (Z.ltb_lt _ _)) by (change DIRENT_SIZE with 16; lia). cbn [negb].
    destruct (read_entry s dp i v sb L n k Hd ltac:(lia)) as (s1 & R1 & Hs1). mby R1.
    rewrite Z.eqb_refl. cbn [negb]. rewrite entry_inum. set (b := file_byte v (i_addrs i)).
    assert (El : dentries b n !! k = Some (dentry b (DIRENT_SIZE * Z.of_nat k))) by (rewrite dentries_lookup; by rewrite decide_True by lia).
    rewrite (drop_S _ _ _ El). unfold free_pos. cbn [pos].
    destruct (_ =? 0); [exists s1; by rewrite Nat.add_0_r|].
    destruct (IH s1 dp i v sb L n (S k) (same_view_dir _ _ _ _ _ _ _ _ Hd Hs1)) as (s2 & Hs2 & R2); [lia|lia|].
    exists s2. split; [by eapply same_view_trans|].
    replace (DIRENT_SIZE * Z.of_nat k + DIRENT_SIZE) with (DIRENT_SIZE * Z.of_nat (S k)) by (change DIRENT_SIZE with 16; lia).
    rewrite R2, (listing_eq _ _ _ _ _ _ _ Hd). by rewrite <- plus_n_Sm.
Qed.

(** ** The inode cache *)

Lemma iget_scan_ok l : forall k dev inum e,
  match iget_scan l k dev inum e with
  | (Some ip, _) => exists j i, ip = (k + j)%nat /\ l !! j = Some i /\ 0 < i_ref i /\ i_dev i = dev /\ i_inum i = inum
  | (None, e') =>
      (forall i, i ∈ l -> 0 < i_ref i -> i_dev i = dev -> i_inum i <> inum) /\
      match e with
      | Some _ => e' = e
      | None => match e' with
                | Some ip => exists j i, ip = (k + j)%nat /\ l !! j = Some i /\ i_ref i = 0
                | None => forall i, i ∈ l -> i_ref i <> 0
                end
      end
  end.
Proof using.
  induction l as [|i l IH]; intros k dev inum e; cbn [iget_scan].
  - split; [by intros i ?%elem_of_nil|]. destruct e; [done|]. by intros i ?%elem_of_nil.
  - destruct (_ && _) eqn:E.
    + exists O, i. rewrite Nat.add_0_r. rewrite !andb_true_iff, Z.gtb_ltb in E. split_and!; try done; lia.
    + set (e0 := match e with None => _ | Some _ => _ end). specialize (IH (S k) dev inum e0).
      destruct (iget_scan l (S k) dev inum e0) as [[ip|] e'].
      * destruct IH as (j & i' & -> & H & ?). exists (S j), i'. split; [lia|done].
      * destruct IH as [Hno IH]. split.
        { intros i' [->|Hin]%list.elem_of_cons; [|by apply Hno]. intros H1 H2 H3. rewrite Z.gtb_ltb in E.
          rewrite (proj2 (Z.ltb_lt _ _) H1), (proj2 (Z.eqb_eq _ _) H2), (proj2 (Z.eqb_eq _ _) H3) in E. done. }
        destruct e as [x|]; subst e0; [done|]. destruct (Z.eqb_spec (i_ref i) 0) as [E0|E0].
        -- subst e'. exists O, i. by rewrite Nat.add_0_r.
        -- destruct e' as [ip|].
           ++ destruct IH as (j & i' & -> & H & ?). exists (S j), i'. split; [lia|done].
           ++ intros i' [->|Hin]%list.elem_of_cons; [done|by apply IH].
Qed.

(** The entry of an inode in the cache after one more reference to it. *)
Definition referenced (s : fsys D) (dev inum : Z) (i i' : inode) : Prop :=
  (0 < i_ref i /\ i_dev i = dev /\ i_inum i = inum /\ i' = set_i_ref (i_ref i + 1) i) \/
  (i_ref i = 0 /\ (forall j, j ∈ icache s -> 0 < i_ref j -> i_dev j = dev -> i_inum j <> inum) /\
   i' = set_i_valid 0 (set_i_ref 1 (set_i_inum inum (set_i_dev dev i)))).

Lemma iget_ok s dev inum :
  ic_lock s = false -> (exists i, i ∈ icache s /\ i_ref i = 0) ->
  exists ip i i', iget (D := D) dev inum s = Ok (ip, put_inode ip i' s) /\ icache s !! ip = Some i /\ referenced s dev inum i i'.
Proof using.
  intros Hl (f & Hf & Hf0). pose proof (iget_scan_ok (icache s) 0 dev inum None) as H.
  unfold iget, iacquire, irelease, acquire. unfold mbind at 1. rewrite Hl. cbn [obind]. mgo.
  cbn [icache set_ic_lock]. set (s1 := set_ic_lock true s).
  assert (Hend : forall ip i i', icache s !! ip = Some i ->
    (let! _ := release ic_lock set_ic_lock in mret ip) (put_inode ip i' s1) = Ok (ip, put_inode ip i' s)).
  { intros ip i i' _. destruct s. cbn in Hl. by subst. }
  destruct (iget_scan (icache s) 0 dev inum None) as [[ip|] e].
  - destruct H as (j & i & -> & Hi & Hr & Hd & Hn). exists j, i, (set_i_ref (i_ref i + 1) i). cbn [Nat.add].
    mby (seti_ok j (fun i => set_i_ref (i_ref i + 1) i) i s1 Hi). rewrite (Hend _ i) by done. split_and!; try done. by left.
  - destruct H as [Hno H]. destruct e as [ip|]; [|by destruct (H f)].
    destruct H as (j & i & -> & Hi & Hr). exists j, i, (set_i_valid 0 (set_i_ref 1 (set_i_inum inum (set_i_dev dev i)))). cbn [Nat.add].
    mby (seti_ok j (set_i_dev dev) i s1 Hi).
    mby (seti_ok j (set_i_inum inum) _ _ (put_inode_at j (set_i_dev dev i) i s1 Hi)). rewrite put_inode_twice.
    mby (seti_ok j (set_i_ref 1) _ _ (put_inode_at j (set_i_inum inum (set_i_dev dev i)) i s1 Hi)). rewrite put_inode_twice.
    mby (seti_ok j (set_i_valid 0) _ _ (put_inode_at j (set_i_ref 1 (set_i_inum inum (set_i_dev dev i))) i s1 Hi)). rewrite put_inode_twice.
    rewrite (Hend _ i) by done. split_and!; try done. by right.
Qed.

Lemma referenced_inum s dev inum i i' : referenced s dev inum i i' -> i_dev i' = dev /\ i_inum i' = inum /\ 1 <= i_ref i'.
Proof using. intros [(? & ? & ? & ->)|(? & ? & ->)]; cbn; split_and!; done || lia. Qed.

(** What [dirlookup] returns: the inode the name stands for, with one more reference. *)
Definition looked_up (s : fsys D) (v : Z -> mem) (L : list Z) (r : outcome (option (nat * Z) * fsys D)) (inum : option Z) : Prop :=
  match inum with
  | None => exists s', r = Ok (None, s') /\ same_view s s' v L
  | Some m => exists ip off i i' s', r = Ok (Some (ip, off), put_inode ip i' s') /\ same_view s s' v L /\
      icache s !! ip = Some i /\ referenced s 1 m i i'
  end.

Lemma dirlookup_get s dp i v sb L n name :
  dir_open s dp i v sb L n -> ic_lock s = false -> (exists i, i ∈ icache s /\ i_ref i = 0) ->
  looked_up s v L (dirlookup devsw_read dp name s) (dir_get (listing v i) (name_of name)).
Proof using.
  intros Hd Hl Hf. destruct (dirlookup_ok s dp i v sb L n name Hd) as (s1 & Hs & ->). unfold dir_get.
  destruct (listing v i !! _) as [[m nm]|]; [|by exists s1]. cbn [fmap option_fmap option_map fst].
  pose proof Hs as (d & E & Hv & Ho). assert (Hic : icache s1 = icache s) by (by rewrite E).
  destruct (iget_ok s1 1 m) as (ip & j & j' & R & Hj & Hr); [by rewrite E|by rewrite Hic|].
  rewrite (mbind_ok _ _ _ _ _ R). cbn. exists ip, (DIRENT_SIZE * Z.of_nat (pos (is_named (name_of name)) (listing v i))), j, j', s1.
  unfold referenced in Hr. rewrite Hic in Hj, Hr. done.
Qed.

(** ** [dirlink] *)

Lemma open_dir s dp i v sb L c f n :
  0 <= c -> open_file s dp i v sb L c f -> i_type i = T_DIR -> i_size i = DIRENT_SIZE * Z.of_nat n -> dir_open s dp i v sb L n.
Proof using. intros Hc [He Hok Hin Hsz Hd Hsy] Ht Hs. split; try done. by eapply fenv_renv. Qed.

Lemma same_view_open s s' dp i v sb L c f : open_file s dp i v sb L c f -> same_view s s' v L -> open_file s' dp i v sb L c f.
Proof using. intros [[? ? ? ? ? ? Hop ? ? ? ?] ? ? ? ? ?] (d & -> & ? & Ho). split; try done. split; try done. by apply Ho. Qed.

(** The entries after one was written at position [k]. *)
Lemma entries_written b b' n k inum name :
  0 <= inum < 2 ^ 16 -> (k <= n)%nat ->
  (forall o, 0 <= o < DIRENT_SIZE * Z.of_nat (S n) ->
     b' o = if decide (DIRENT_SIZE * Z.of_nat k <= o < DIRENT_SIZE * Z.of_nat k + DIRENT_SIZE)
            then nth (Z.to_nat (o - DIRENT_SIZE * Z.of_nat k)) (mk_dirent inum name) 0 else b o) ->
  let l := dentries b n in let l' := dentries b' (n `max` S k) in
  l' !! k = Some (inum, name_of name) /\ forall j, j <> k -> l' !! j = l !! j.
Proof using.
  intros Hi Hk Hb l l'. subst l l'. change DIRENT_SIZE with 16 in *. split.
  - rewrite dentries_lookup, decide_True by lia. f_equal. apply dentry_mk; [done|]. intros o Ho. change DIRENT_SIZE with 16 in *.
    rewrite Hb by lia. rewrite decide_True by lia. f_equal. lia.
  - intros j Hj. rewrite !dentries_lookup. destruct (decide (j < n)%nat) as [H|H], (decide (j < n `max` S k)%nat) as [H'|H']; try done; try lia.
    f_equal. apply dentry_ext. change DIRENT_SIZE with 16. intros o Ho. rewrite Hb by lia. by rewrite decide_False by lia.
Qed.

(** C20: directories are maps from names to inodes.  [dirlink] of a name that is
    not in the directory returns 0 and maps it to the inode, every other name is
    mapped as before, and [dirlookup] of any name afterwards returns the inode
    it is mapped to with one more reference, or nothing.  The directory stays
    well formed and no block in use elsewhere changes, but the one of its inode. *)
Theorem dirlink_dirlookup s dp i v sb L c f n name inum (l := listing v i) (off := DIRENT_SIZE * Z.of_nat (free_pos l)) :
  open_file s dp i v sb L c f -> i_type i = T_DIR -> i_size i = DIRENT_SIZE * Z.of_nat n ->
  DIRENT_SIZE * Z.of_nat (S n) <= MAXFILE * BSIZE -> ic_lock s = false -> (exists i, i ∈ icache s /\ i_ref i = 0) ->
  0 < inum < 2 ^ 16 -> dir_get l (name_of name) = None ->
  wcost v (i_addrs i) off DIRENT_SIZE + 1 <= c -> wblocks v (i_addrs i) off DIRENT_SIZE <= f ->
  exists s' i' v' L' c' f', dirlink devsw_read devsw_write dp name inum s = Ok (0, s') /\ open_file s' dp i' v' sb L' c' f' /\
    (forall nm, dir_get (listing v' i') nm = if decide (nm = name_of name) then Some inum else dir_get l nm) /\
    (forall nm, looked_up s' v' L' (dirlookup devsw_read dp nm s') (dir_get (listing v' i') (name_of nm))) /\
    (forall y, other_block v sb (i_addrs i) y -> y <> IBLOCK (i_inum i) sb -> v' y = v y).
Proof using.
  intros Hof Ht Hs Hmax Hl Hfree Hin Hnone Hc Hf.
  assert (Hc0 : 0 <= wcost v (i_addrs i) off DIRENT_SIZE) by (unfold wcost, wblocks, nmiss; lia).
  pose proof (open_dir s dp i v sb L c f n ltac:(lia) Hof Ht Hs) as Hd. pose proof (listing_eq _ _ _ _ _ _ _ Hd) as El. fold l in El.
  destruct (dirlookup_ok s dp i v sb L n name Hd) as (s1 & Hs1 & R1). fold l in R1. unfold dir_get in Hnone.
  destruct (l !! _) eqn:E in R1; [by rewrite E in Hnone|]. pose proof (same_view_dir _ _ _ _ _ _ _ _ Hd Hs1) as Hd1.
  destruct (dirlink_from_ok (dir_fuel (i_size i)) s1 dp i v sb L n 0 Hd1) as (s2 & Hs2 & R2); [lia| |].
  { unfold dir_fuel. rewrite Hs. change DIRENT_SIZE with 16. rewrite Z.mul_comm, Z.div_mul by lia. lia. }
  cbn [Nat.add] in R2. rewrite drop_0 in R2. fold l off in R2. pose proof (same_view_trans _ _ _ _ _ Hs1 Hs2) as Hs12.
  pose proof (same_view_open _ _ _ _ _ _ _ _ _ Hof Hs12) as Hof2.
  assert (Hk : (free_pos l <= n)%nat) by (etrans; [apply pos_le|]; by rewrite El, length_dentries).
  destruct (writei_ok devsw_write s2 dp i v sb L c f (fun k => nth (Z.to_nat k) (mk_dirent inum name) 0) off DIRENT_SIZE Hof2)
    as (s3 & R3 & i' & v' & d & L' & Es & Ei & Hof3 & Hb & Hy); try done;
    [by rewrite Ht|unfold off; change DIRENT_SIZE with 16 in *; lia..|].
  assert (Hsz : i_size i' = DIRENT_SIZE * Z.of_nat (n `max` S (free_pos l))).
  { rewrite Ei. cbn [i_size set_i_size set_i_addrs]. unfold off. rewrite Hs. change DIRENT_SIZE with 16. lia. }
  assert (Hty : i_type i' = T_DIR) by (by rewrite Ei).
  eassert (Hd3 : dir_open s3 dp i' v' sb L' _) by (by eapply open_dir; [|exact Hof3|..]; [lia|..]).
  destruct (entries_written (file_byte v (i_addrs i)) (file_byte v' (i_addrs i')) n (free_pos l) inum name) as [Hnew Hold];
    [lia|done|intros o Ho; apply Hb; lia|].
  rewrite <- (listing_eq _ _ _ _ _ _ _ Hd3) in Hnew, Hold. rewrite <- El in Hold.
  exists s3, i', v', L'. do 2 eexists. split_and!; [|exact Hof3| | |].
  - unfold dirlink. mby R1. mby (geti_eq s1 dp i (re_inode _ _ _ _ _ _ (dr_env _ _ _ _ _ _ _ Hd1))). mby R2. mby R3. done.
  - apply (dir_get_link l _ (free_pos l)); [done|lia|done|done|].
    intros e He. apply pos_at in He. lia.
  - intros nm. apply (dirlookup_get _ _ _ _ _ _ _ _ Hd3); destruct Hs12 as (d2 & -> & _).
    + by rewrite Es.
    + destruct Hfree as (j & Hj & Hj0). rewrite Es. cbn. apply list_elem_of_lookup in Hj as (k & Hj).
      destruct (decide (k = dp)) as [->|Hne].
      * pose proof (fe_inode _ _ _ _ _ _ _ _ _ (of_env _ _ _ _ _ _ _ _ Hof)) as Hi. simplify_eq.
        exists i'. split; [|by rewrite Ei]. apply list_elem_of_lookup. exists dp. apply list_lookup_insert_eq. by eapply lookup_lt_Some.
      * exists j. split; [|done]. apply list_elem_of_lookup. exists k. by rewrite list_lookup_insert_ne.
  - intros y Hyo Hne. by apply (Hy y).
Qed.

Lemma iput_held s ip i pid : icache s !! ip = Some i -> i_lock i = sl_held pid -> iput (D := D) ip s = Block.
Proof using.
  intros Hi Hl. assert (E : onilock ip (acquiresleep (fpid s)) s = Block).
  { unfold onilock. mby (geti_eq s ip i Hi). by rewrite Hl. }
  unfold iput. mgo. unfold mbind at 1. by rewrite E.
Qed.

(** A name that is there: the entry's inode is released again.  When that inode is
    the directory itself, whose lock the caller holds, [iput] waits for it forever. *)
Lemma dirlink_self s dp i v sb L n name inum pid :
  dir_open s dp i v sb L n -> ic_lock s = false -> (exists i, i ∈ icache s /\ i_ref i = 0) ->
  0 < i_ref i -> i_lock i = sl_held pid ->
  (forall k j, icache s !! k = Some j -> 0 < i_ref j -> i_dev j = 1 -> i_inum j = i_inum i -> k = dp) ->
  dir_get (listing v i) (name_of name) = Some (i_inum i) ->
  dirlink devsw_read devsw_write dp name inum s = Block.
Proof using.
  intros Hd Hl Hfree Hr Hlk Huniq Hg. pose proof (dirlookup_get s dp i v sb L n name Hd Hl Hfree) as H. rewrite Hg in H.
  destruct H as (ip & off & j & j' & s1 & R & Hs1 & Hj & Href).
  pose proof (re_inode _ _ _ _ _ _ (dr_env _ _ _ _ _ _ _ Hd)) as Hi. pose proof (re_dev _ _ _ _ _ _ (dr_env _ _ _ _ _ _ _ Hd)) as Hdev.
  destruct Href as [(Hrj & Hdj & Hnj & ->)|(_ & Hno & _)].
  2: { destruct (Hno i); try done. apply list_elem_of_lookup. by exists dp. }
  pose proof (Huniq ip j Hj Hrj Hdj Hnj) as ->. rewrite Hi in Hj. injection Hj as <-. destruct Hs1 as (d & -> & _).
  unfold dirlink. rewrite (mbind_ok _ _ _ _ _ R). unfold mbind. 
  rewrite (iput_held _ dp (set_i_ref (i_ref i + 1) i) pid); [done|by apply (put_inode_at dp _ i)|done].
Qed.
End FsDir.

(** ** The root directory of the small disk *)

(** The name of one character, NUL-padded. *)
Definition name1 (c : Z) : mem := fun k => if k =? 0 then c else 0.

Lemma mini_listing v : (forall y, y < 2 \/ 32 <= y -> v y = mini_disk y) -> listing v mini_inode = [(1, [46]); (1, [46; 46])].
Proof.
  intros Hv. unfold listing. change (Z.to_nat (i_size mini_inode / DIRENT_SIZE)) with 2%nat.
  change (dentries (file_byte v (i_addrs mini_inode)) 2) with [dentry (file_byte v mini_addrs) 0; dentry (file_byte v mini_addrs) 16].
  assert (Hb : forall o, 0 <= o < 32 -> file_byte v mini_addrs o = mini_disk 36 o).
  { intros o Ho. unfold file_byte. replace (o / BSIZE) with 0 by (fsconst; zlia). replace (o mod BSIZE) with o by (fsconst; zlia).
    change (ptr v mini_addrs (place_of 0)) with 36. cbn [Z.eqb]. by rewrite Hv by lia. }
  rewrite (dentry_ext (mini_disk 36) (file_byte v mini_addrs) 0 0), (dentry_ext (mini_disk 36) (file_byte v mini_addrs) 16 16) by (change DIRENT_SIZE with 16; intros k Hk; apply Hb; lia).
  reflexivity.
Qed.

Lemma dirlink_dirlookup_witness :
  exists (s s' s'' : fsys lst) ip off i, dirlink (LD := mini_ld) (fun _ => None) (fun _ => None) 0 (name1 97) 5 s = Ok (0, s') /\
    dirlookup (LD := mini_ld) (fun _ => None) 0 (name1 97) s' = Ok (Some (ip, off), s'') /\ icache s'' !! ip = Some i /\ i_inum i = 5.
Proof.
  destruct mini_open_at as (s & v & Hof & Hl & Hic & Hvd). pose proof (mini_listing v Hvd) as El.
  assert (Hfree : exists i, i ∈ icache s /\ i_ref i = 0).
  { exists (mkinode 0 0 0 sl_free 0 0 0 0 0 0 []). split; [|done]. destruct (icache s) as [|i t]; [done|]. cbn in Hic. subst t.
    right. left. }
  destruct (dirlink_dirlookup (LD := mini_ld) (fun _ => None) (fun _ => None) s 0 mini_inode v mini_sb [] 28 60 2 (name1 97) 5 Hof)
    as (s' & i' & v' & L' & c' & f' & R & Hof' & Hget & Hlook & _);
    [reflexivity|reflexivity|vm_compute; discriminate|exact Hl|exact Hfree|lia|rewrite El; reflexivity
    |rewrite El; vm_compute; discriminate|rewrite El; vm_compute; discriminate|].
  specialize (Hlook (name1 97)). rewrite Hget, decide_True in Hlook by done.
  destruct Hlook as (ip & off & j & j' & s'' & R' & Hs & Hj & Hr). destruct (referenced_inum _ _ _ _ _ Hr) as (_ & Hn & _).
  exists s, s', (put_inode ip j' s''), ip, off, j'. split; [exact R|]. split; [exact R'|]. split; [|exact Hn].
  apply (put_inode_at _ _ j). by destruct Hs as (d & -> & _).
Defined.

(** [link] of a file to [.]: the directory is locked, and is the inode of the entry. *)
Example dirlink_dot_blocks :
  exists s : fsys lst, dirlink (LD := mini_ld) (fun _ => None) (fun _ => None) 0 (name1 46) 5 s = Block.
Proof.
  destruct mini_open_at as (s & v & Hof & Hl & Hic & Hvd). pose proof (mini_listing v Hvd) as El. exists s.
  pose proof (fe_inode _ _ _ _ _ _ _ _ _ (of_env _ _ _ _ _ _ _ _ Hof)) as Hi.
  eapply (dirlink_self (LD := mini_ld) _ _ s 0 mini_inode v mini_sb [] 2 _ _ 1).
  - by eapply open_dir; [|exact Hof|..].
  - done.
  - exists (mkinode 0 0 0 sl_free 0 0 0 0 0 0 []). split; [|done]. destruct (icache s) as [|i t]; [done|]. cbn in Hic. subst t.
    right. left.
  - done.
  - done.
  - intros k j Hk Hr _ _. destruct k as [|k]; [done|]. rewrite <- lookup_tail, Hic in Hk. apply lookup_replicate in Hk as [-> _]. done.
  - by rewrite El.
Qed.
