(* ===== verification/FsPath.v ===== *)
(** * Paths: [skipelem] and [namex] of [fs.c]

    A path is resolved element by element along the maps of the directories on
    the disk ([target]).  [namex] computes it through the inode cache, and gives
    back every reference it takes on the way, whatever the outcome. *)

From Stdlib Require Import ZArith Lia String.
From stdpp Require Import base numbers functions list.
From S2P Require Import Prelude Bytes Params Locks Bio Log LogDisk Fs FsBlocks FsFile FsInode FsIO FsDir.

Local Open Scope Z_scope.
Local Open Scope kernel_scope.

(** ** Path elements *)

(** The elements of a path: what is between slashes, cut to [DIRSIZ] characters. *)
Fixpoint split_from (cur path : list Z) : list (list Z) :=
  match path with
  | [] => match cur with [] => [] | _ => [cur] end
  | c :: t =>
      if c =? 47 then match cur with [] => split_from [] t | _ => cur :: split_from [] t end
      else split_from (cur ++ [c]) t
  end.
Definition elements (path : list Z) : list (list Z) := take (Z.to_nat DIRSIZ) <$> split_from [] path.

Definition no_nul (l : list Z) : Prop := Forall (fun c => c <> 0) l.

Lemma cstr_nul_free l : no_nul l -> cstr l = l.
Proof. induction 1 as [|c l Hc Hl IH]; [done|]. cbn. by rewrite (proj2 (Z.eqb_neq _ _) Hc), IH. Qed.

Lemma cstr_app_nul l k : no_nul l -> cstr (l ++ 0 :: k) = l.
Proof. induction 1 as [|c l Hc Hl IH]; [done|]. cbn. by rewrite (proj2 (Z.eqb_neq _ _) Hc), IH. Qed.

Lemma split_skip path : split_from [] (skip_slashes path) = split_from [] path.
Proof. induction path as [|c t IH]; [done|]. cbn. destruct (c =? 47) eqn:E; [done|]. cbn. by rewrite E. Qed.

Lemma skip_slashes_head path : match skip_slashes path with [] => True | c :: _ => c <> 47 end.
Proof. induction path as [|c t IH]; [done|]. cbn. destruct (Z.eqb_spec c 47); done. Qed.

Lemma skip_slashes_length path : (length (skip_slashes path) <= length path)%nat.
Proof. induction path as [|c t IH]; [done|]. cbn. destruct (c =? 47); cbn; lia. Qed.

Lemma skip_slashes_suffix path : exists p, path = p ++ skip_slashes path.
Proof.
  induction path as [|c t IH]; [by exists []|]. cbn. destruct (c =? 47); [|by exists []].
  destruct IH as (p & E). exists (c :: p). cbn. by f_equal.
Qed.

Lemma take_elem_split p e r :
  take_elem p = (e, r) -> p = e ++ r /\ forall cur, cur ++ e <> [] -> split_from cur p = (cur ++ e) :: split_from [] r.
Proof.
  revert e. induction p as [|c t IH]; intros e; cbn [take_elem].
  - intros [= <- <-]. split; [done|]. intros cur. rewrite app_nil_r. by destruct cur.
  - destruct (c =? 47) eqn:E.
    + intros [= <- <-]. split; [done|]. intros cur. rewrite app_nil_r. cbn [split_from]. rewrite E. by destruct cur.
    + destruct (take_elem t) as [e' r'] eqn:Et. intros [= <- <-]. destruct (IH e' eq_refl) as [-> H]. split; [done|].
      intros cur _. cbn [split_from]. rewrite E, H; [by rewrite <- app_assoc|]. by destruct cur.
Qed.

Lemma name_of_copy e name : no_nul e -> name_of (copy_name e name) = take (Z.to_nat DIRSIZ) e.
Proof.
  intros He. unfold name_of, copy_name. change (Z.to_nat DIRSIZ) with 14%nat. change DIRSIZ with 14.
  rewrite Z.geb_leb. destruct (Z.leb_spec 14 (Z.of_nat (length e))) as [Hl|Hl].
  - rewrite <- (cstr_nul_free (take 14 e)) by (by apply Forall_take). f_equal.
    rewrite <- (load_nth (take 14 e) 14) by (rewrite length_take; lia). apply load_copy. intros k Hk.
    replace (0 + k) with k by lia. cbv beta. rewrite (proj2 (Z.leb_le 0 k)), (proj2 (Z.ltb_lt k 14)) by lia. cbn [andb].
    rewrite <- (take_drop 14 e) at 1. rewrite app_nth1; [done|]. rewrite length_take. lia.
  - rewrite take_ge by lia. set (f := fun i : Z => _). replace 14%nat with (length e + S (13 - length e))%nat by lia.
    rewrite load_app. cbn [load].
    assert (E0 : load f 0 (length e) = e).
    { rewrite <- (load_nth e (length e) eq_refl) at 2. apply load_copy. intros k Hk. unfold f. replace (0 + k) with k by lia.
      by rewrite (proj2 (Z.leb_le 0 k)), (proj2 (Z.ltb_lt k (Z.of_nat (length e)))) by lia. }
    assert (E1 : f (0 + Z.of_nat (length e)) = 0).
    { unfold f. rewrite Z.add_0_l, Z.ltb_irrefl, andb_false_r, Z.eqb_refl. done. }
    rewrite E0, E1. by apply cstr_app_nul.
Qed.

(** [skipelem] takes the first element off. *)
Lemma skipelem_spec path name :
  no_nul path ->
  match skipelem path name with
  | None => elements path = []
  | Some (r, nm) => elements path = name_of nm :: elements r /\ no_nul r /\ (length r < length path)%nat /\
      (r = [] <-> elements r = [])
  end.
Proof.
  intros Hn. unfold skipelem. pose proof (skip_slashes_head path) as Hh. pose proof (skip_slashes_length path) as Hlen.
  pose proof (split_skip path) as Hs. destruct (skip_slashes_suffix path) as (p0 & Ep).
  destruct (skip_slashes path) as [|c t] eqn:E; [unfold elements; by rewrite <- Hs|].
  destruct (take_elem (c :: t)) as [e r] eqn:Et. destruct (take_elem_split _ _ _ Et) as [Eer Hsp].
  assert (He : e <> []).
  { cbn in Et. rewrite (proj2 (Z.eqb_neq _ _) Hh) in Et. destruct (take_elem t). by injection Et as <- <-. }
  rewrite Eer in Ep. assert (Hnn : no_nul e /\ no_nul r).
  { rewrite Ep in Hn. apply Forall_app in Hn as [_ Hn]. by apply Forall_app in Hn. }
  split_and!.
  - unfold elements. rewrite <- Hs, (Hsp [] He), split_skip. rewrite name_of_copy by apply Hnn. done.
  - destruct (skip_slashes_suffix r) as (p1 & Er). destruct Hnn as [_ Hr]. rewrite Er in Hr. by apply Forall_app in Hr as [_ ?].
  - pose proof (skip_slashes_length r). rewrite Ep, !length_app. destruct e; [done|]. cbn. lia.
  - pose proof (skip_slashes_head r) as Hr. destruct (skip_slashes r) as [|c' t'] eqn:Er; [done|]. split; [done|].
    unfold elements. cbn [split_from]. rewrite (proj2 (Z.eqb_neq _ _) Hr). intros H. apply fmap_nil_inv in H. exfalso.
    destruct (take_elem t') as [e' r'] eqn:Et'. destruct (take_elem_split _ _ _ Et') as [_ Hsp']. 
    rewrite (Hsp' ([] ++ [c'])) in H; done.
Qed.

(** ** The tree on the disk *)

(** Inode [n] on the disk. *)
Definition inode_on (v : Z -> mem) (sb : superblock) (n : Z) : inode :=
  get_dinode (dinode_off n) (v (IBLOCK n sb)) (mkinode 1 n 0 sl_free 0 0 0 0 0 0 []).

(** Where a path leads from inode [n]; for [nameiparent], one element less. *)
Fixpoint target (v : Z -> mem) (sb : superblock) (parent : bool) (n : Z) (es : list (list Z)) : option Z :=
  match es with
  | [] => if parent then None else Some n
  | e :: es' =>
      if i_type (inode_on v sb n) =? T_DIR then
        if parent && match es' with [] => true | _ => false end then Some n
        else match dir_get (listing v (inode_on v sb n)) e with
             | None => None
             | Some m => target v sb parent m es'
             end
      else None
  end.

(** An inode in use. *)
Definition alive (v : Z -> mem) (sb : superblock) (n : Z) : Prop :=
  0 < n < sb_ninodes sb /\ i_type (inode_on v sb n) <> 0.

Section FsPath.
Context {D : Type} `{LD : LoggedDisk D}.
Variable devsw_read : Z -> option (nat -> Z -> M (fsys D) (Z * list Z)).

(** It has a link, and a directory has whole entries that lead to inodes in use. *)
Record node_ok (v : Z -> mem) (sb : superblock) (n : Z) (i := inode_on v sb n) : Prop := {
  no_nlink : i_nlink i <> 0;
  no_file : i_type i = T_DIR -> file_ok v sb (i_addrs i);
  no_size : i_type i = T_DIR -> i_size i mod DIRENT_SIZE = 0 /\ 0 <= i_size i <= MAXFILE * BSIZE;
  no_dense : i_type i = T_DIR -> dense v (i_addrs i) (i_size i);
  no_entry : i_type i = T_DIR -> forall nm m, dir_get (listing v i) nm = Some m -> alive v sb m
}.

(** A cache entry no process has locked. *)
Record entry_ok (v : Z -> mem) (sb : superblock) (i : inode) : Prop := {
  en_ref : 0 <= i_ref i;
  en_lock : i_lock i = sl_free;
  en_dev : 0 < i_ref i -> i_dev i = 1;
  en_alive : 0 < i_ref i -> alive v sb (i_inum i);
  en_synced : 0 < i_ref i -> i_valid i <> 0 -> synced v sb i
}.

(** The disk, and the cache but for the entries [ex]. *)
Record walk_env (s : fsys D) (v : Z -> mem) (sb : superblock) (L : list Z) (ex : list nat) : Prop := {
  we_lock : ic_lock s = false;
  we_sb : fsb s = sb;
  we_fs : fs_ok v sb;
  we_view : ld_view (fdisk s) v L [];
  we_buf : Z.of_nat (length L) < NBUF;
  we_tree : forall n, alive v sb n -> node_ok v sb n;
  we_cache : forall k i, k ∉ ex -> icache s !! k = Some i -> entry_ok v sb i
}.

(** The references counted in the cache. *)
Definition refs (s : fsys D) : list Z := i_ref <$> icache s.

Lemma refs_put ip i s : refs (put_inode ip i s) = <[ip := i_ref i]> (refs s).
Proof using. unfold refs, put_inode. cbn. by rewrite list_fmap_insert. Qed.

Lemma refs_lookup s ip i : icache s !! ip = Some i -> refs s !! ip = Some (i_ref i).
Proof using. intros H. unfold refs. by rewrite list_lookup_fmap, H. Qed.

Lemma synced_fields v sb i :
  synced v sb i -> let j := inode_on v sb (i_inum i) in
  i_type i = i_type j /\ i_nlink i = i_nlink j /\ i_size i = i_size j /\ i_addrs i = i_addrs j.
Proof using.
  intros H. split_and!; symmetry; [exact (f_equal i_type H)|exact (f_equal i_nlink H)|exact (f_equal i_size H)|exact (f_equal i_addrs H)].
Qed.

Lemma synced_relock v sb i l : synced v sb i -> synced v sb (set_i_lock l i).
Proof using.
  unfold synced. cbn [i_inum set_i_lock]. intros H.
  transitivity (set_i_lock l (get_dinode (dinode_off (i_inum i)) (v (IBLOCK (i_inum i) sb)) i)); [done|by rewrite H].
Qed.

Lemma synced_reref v sb i r : synced v sb i -> synced v sb (set_i_ref r i).
Proof using.
  unfold synced. cbn [i_inum set_i_ref]. intros H.
  transitivity (set_i_ref r (get_dinode (dinode_off (i_inum i)) (v (IBLOCK (i_inum i) sb)) i)); [done|by rewrite H].
Qed.

Lemma get_dinode_twice o m i :
  let j := set_i_valid 1 (get_dinode o m i) in get_dinode o m j = j /\ i_inum j = i_inum i.
Proof using.
  unfold get_dinode. generalize (get_addrs m (o + 12) (Z.to_nat (NDIRECT + 2))) (get32 m (o + 8)).
  generalize (s16 (get16 m o)) (s16 (get16 m (o + 2))) (s16 (get16 m (o + 4))) (s16 (get16 m (o + 6))). done.
Qed.

Lemma loaded_synced v sb i : synced v sb (loaded v sb i).
Proof using.
  unfold synced, loaded. destruct (get_dinode_twice (dinode_off (i_inum i)) (v (IBLOCK (i_inum i) sb)) i) as [E En].
  by rewrite En.
Qed.

Lemma loaded_keep v sb i (j := loaded v sb i) :
  i_dev j = i_dev i /\ i_inum j = i_inum i /\ i_ref j = i_ref i /\ i_lock j = i_lock i /\ i_valid j = 1.
Proof using. split_and!; reflexivity. Qed.
Local Opaque get_dinode.

(** Any change of one entry. *)
Lemma walk_put s v sb L ex ip i :
  walk_env s v sb L (ip :: ex) -> entry_ok v sb i \/ ip ∈ ex -> walk_env (put_inode ip i s) v sb L ex.
Proof using.
  intros [? ? ? ? ? ? Hc] Hi. split; try done. intros k j Hk Hj. cbn in Hj. destruct (decide (k = ip)) as [->|Hne].
  - destruct Hi as [Hi|]; [|done]. apply list_lookup_insert_Some in Hj as [(_ & <- & _)|(? & _)]; done.
  - rewrite list_lookup_insert_ne in Hj by done. apply (Hc k j); [|done]. by intros [->|?]%list.elem_of_cons.
Qed.

Lemma walk_weaken s v sb L ex ex' : (forall k, k ∈ ex -> k ∈ ex') -> walk_env s v sb L ex -> walk_env s v sb L ex'.
Proof using. intros He [? ? ? ? ? ? Hc]. split; try done. intros k i Hk. apply Hc. auto. Qed.

Lemma walk_view s s' v sb L ex : walk_env s v sb L ex -> same_view s s' v L -> walk_env s' v sb L ex.
Proof using. intros [? ? ? ? ? ? Hc] (d & -> & Hv & _). split; done. Qed.

(** ** Steps of [namex] *)

(** The process holds the lock of entry [ip], which is [i] and up to date. *)
Record held (s : fsys D) (v : Z -> mem) (sb : superblock) (ip : nat) (i : inode) : Prop := {
  hd_at : icache s !! ip = Some i;
  hd_lock : i_lock i = sl_held (fpid s);
  hd_ref : 0 < i_ref i;
  hd_valid : i_valid i <> 0;
  hd_ok : entry_ok v sb (set_i_lock sl_free i)
}.

Lemma held_synced s v sb ip i : held s v sb ip i -> synced v sb i.
Proof using.
  intros [? Hl Hr Hv [_ _ _ _ Hs]]. specialize (Hs Hr Hv). apply (synced_relock _ _ _ (i_lock i)) in Hs. by destruct i.
Qed.

Lemma held_view s s' v sb L ip i : held s v sb ip i -> same_view s s' v L -> held s' v sb ip i.
Proof using. intros [? ? ? ? ?] (d & -> & _). by split. Qed.

Lemma ilock_walk s v sb L ip i :
  walk_env s v sb L [] -> icache s !! ip = Some i -> 0 < i_ref i ->
  exists i' s', ilock ip s = Ok (tt, s') /\ walk_env s' v sb L [ip] /\ held s' v sb ip i' /\
    i_inum i' = i_inum i /\ refs s' = refs s /\ (ld_open (fdisk s) -> ld_open (fdisk s')).
Proof using.
  intros He Hi Hr. pose proof He as [Hl Hsb Hfs Hv Hb Ht Hc]. pose proof (Hc ip i (not_elem_of_nil _) Hi) as [Hr0 Hlk Hdev Hal Hsy].
  specialize (Hdev Hr). specialize (Hal Hr). specialize (Hsy Hr). destruct Hal as (Hn & Hty).
  destruct (fo_imap _ _ Hfs (i_inum i) ltac:(lia)) as (_ & _ & Hh & _).
  destruct (decide (i_valid i = 0)) as [E|E].
  - destruct (ilock_load s ip i v sb L [] Hi) as (d & R & Hvd & Ho); try done; [lia|apply not_elem_of_nil|by apply ld_home_on|cbn; lia|].
    destruct (loaded_keep v sb (locked (fpid s) i)) as (Kd & Kn & Kr & Kl & Kv).
    pose proof (loaded_synced v sb (locked (fpid s) i)) as Ks. revert R Kd Kn Kr Kl Kv Ks.
    generalize (loaded v sb (locked (fpid s) i)). unfold locked. cbn [i_dev i_inum i_ref i_lock set_i_lock]. intros i' R Kd Kn Kr Kl Kv Ks.
    exists i', (put_inode ip i' (set_fdisk d s)). split; [exact R|]. split_and!; [| |done| |done].
    + apply walk_put; [|right; by left]. split; try done. intros k j Hk. apply Hc. apply not_elem_of_nil.
    + split; [by apply (put_inode_at _ _ i (set_fdisk d s))|done|lia|lia|].
      split; cbn [i_ref i_lock i_dev i_inum set_i_lock]; rewrite ?Kr, ?Kd, ?Kn; try done. intros _ _. by apply synced_relock.
    + rewrite refs_put. apply list_insert_id. rewrite Kr. by apply refs_lookup.
  - exists (locked (fpid s) i), (put_inode ip (locked (fpid s) i) s). split; [apply ilock_valid; done || lia|].
    split_and!; [| |done| |done].
    + apply walk_put; [|right; by left]. eapply walk_weaken; [|exact He]. by intros ? ?%elem_of_nil.
    + split; [by apply (put_inode_at _ _ i)|done|done|done|]. split; try done.
      intros _ _. by apply synced_relock, synced_relock, Hsy.
    + rewrite refs_put. apply list_insert_id. exact (refs_lookup s ip i Hi).
Qed.

Lemma iunlock_walk s v sb L ip i :
  walk_env s v sb L [ip] -> held s v sb ip i ->
  exists s', iunlock ip s = Ok (tt, s') /\ walk_env s' v sb L [] /\ icache s' !! ip = Some (set_i_lock sl_free i) /\
    refs s' = refs s /\ fdisk s' = fdisk s /\ forall k, k <> ip -> icache s' !! k = icache s !! k.
Proof using.
  intros He [Hi Hl Hr Hv Hok]. exists (put_inode ip (set_i_lock sl_free i) s). split_and!.
  - apply iunlock_ok; done || lia.
  - apply walk_put; [done|by left].
  - by apply (put_inode_at _ _ i).
  - rewrite refs_put. apply list_insert_id. exact (refs_lookup s ip i Hi).
  - done.
  - intros k Hk. cbn. by rewrite list_lookup_insert_ne.
Qed.

(** [iput] of an inode that has links. *)
Lemma iput_linked s ip i :
  icache s !! ip = Some i -> i_lock i = sl_free -> ic_lock s = false -> (i_valid i = 0 \/ i_nlink i <> 0) ->
  iput (D := D) ip s = Ok (tt, put_inode ip (set_i_ref (i_ref i - 1) i) s).
Proof using.
  intros Hi Hl Hic Hv. unfold iput. mgo.
  mby (onilock_ok ip (acquiresleep (fpid s)) i tt (sl_held (fpid s)) s Hi ltac:(by rewrite Hl)).
  set (i1 := set_i_lock (sl_held (fpid s)) i). pose proof (put_inode_at ip i1 i s Hi) as Hi1. mby (geti_eq _ ip _ Hi1).
  change (i_valid i1) with (i_valid i). change (i_nlink i1) with (i_nlink i).
  assert (Ev : negb (i_valid i =? 0) && (i_nlink i =? 0) = false).
  { destruct Hv as [->|Hv]; [done|]. rewrite (proj2 (Z.eqb_neq _ _) Hv). apply andb_false_r. }
  rewrite Ev. cbn [mwhen]. mgo. mby (onilock_ok ip releasesleep i1 tt sl_free (put_inode ip i1 s) Hi1 eq_refl).
  rewrite put_inode_twice. assert (Ei : set_i_lock sl_free i1 = i) by (rewrite <- Hl; by destruct i). rewrite Ei, put_inode_id by done.
  unfold iacquire, irelease, acquire. unfold mbind at 1. rewrite Hic. cbn [obind].
  mby (seti_ok ip (fun i => set_i_ref (i_ref i - 1) i) i (set_ic_lock true s) Hi). clear -Hic. destruct s. cbn in Hic. by subst.
Qed.

Lemma iput_walk s v sb L ip i :
  walk_env s v sb L [] -> icache s !! ip = Some i -> 0 < i_ref i ->
  exists s', iput ip s = Ok (tt, s') /\ walk_env s' v sb L [] /\ refs s' = alter Z.pred ip (refs s) /\ fdisk s' = fdisk s /\
    (exists i', icache s' !! ip = Some i' /\ i_inum i' = i_inum i /\ i_ref i' = i_ref i - 1) /\
    forall k, k <> ip -> icache s' !! k = icache s !! k.
Proof using.
  intros He Hi Hr. pose proof He as [Hl _ _ _ _ Ht Hc]. pose proof (Hc ip i (not_elem_of_nil _) Hi) as [Hr0 Hlk Hdev Hal Hsy].
  exists (put_inode ip (set_i_ref (i_ref i - 1) i) s). split_and!; [| | |done|exists (set_i_ref (i_ref i - 1) i); by rewrite (put_inode_at _ _ i)|].
  - apply iput_linked; try done. destruct (decide (i_valid i = 0)) as [|E]; [by left|right].
    destruct (synced_fields _ _ _ (Hsy Hr E)) as (_ & -> & _). apply no_nlink, Ht, Hal, Hr.
  - apply walk_put; [eapply walk_weaken; [|exact He]; by intros ? ?%elem_of_nil|]. left. split; cbn; try done.
    + lia.
    + by intros _; apply Hdev.
    + by intros _; apply Hal.
    + intros _ E. by apply synced_reref, Hsy.
  - rewrite refs_put, (alter_insert _ _ _ _ (refs_lookup s ip i Hi)). done.
  - intros k Hk. cbn. by rewrite list_lookup_insert_ne.
Qed.

Lemma iunlockput_walk s v sb L ip i :
  walk_env s v sb L [ip] -> held s v sb ip i ->
  exists s', iunlockput ip s = Ok (tt, s') /\ walk_env s' v sb L [] /\ refs s' = alter Z.pred ip (refs s) /\ fdisk s' = fdisk s /\
    (exists i', icache s' !! ip = Some i' /\ i_inum i' = i_inum i /\ i_ref i' = i_ref i - 1) /\
    forall k, k <> ip -> icache s' !! k = icache s !! k.
Proof using.
  intros He Hh. destruct (iunlock_walk s v sb L ip i He Hh) as (s1 & R1 & He1 & Hi1 & Hr1 & Hd1 & Ho1).
  destruct (iput_walk s1 v sb L ip _ He1 Hi1 (hd_ref _ _ _ _ _ Hh)) as (s2 & R2 & He2 & Hr2 & Hd2 & Hi2 & Ho2).
  exists s2. unfold iunlockput. rewrite (mbind_ok _ _ _ _ _ R1). split_and!; try congruence; [done|].
  intros k Hk. by rewrite Ho2, Ho1.
Qed.

Lemma held_dir s v sb L ip i :
  walk_env s v sb L [ip] -> held s v sb ip i -> i_type i = T_DIR ->
  exists n, dir_open s ip i v sb L n /\ listing v i = listing v (inode_on v sb (i_inum i)).
Proof using.
  intros He Hh Hty. destruct (synced_fields _ _ _ (held_synced _ _ _ _ _ Hh)) as (E1 & _ & E3 & E4).
  pose proof Hh as [Hi Hl Hr Hv [_ _ Hdev Hal _]]. specialize (Hdev Hr). specialize (Hal Hr). cbn in Hdev, Hal.
  destruct (we_tree _ _ _ _ _ He _ Hal) as [_ Hf Hs Hd _]. rewrite <- E1 in *. specialize (Hf Hty). specialize (Hd Hty). destruct (Hs Hty) as [Hm Hb].
  rewrite <- ?E3, <- ?E4 in *. exists (Z.to_nat (i_size i / DIRENT_SIZE)). split; [|unfold listing; by rewrite E3, E4].
  split; try done; [split; try done; apply He| |lia]. clear devsw_read. change DIRENT_SIZE with 16 in *. zlia.
Qed.

(** An entry of the cache that is free, whatever the process itself refers to. *)
Definition spare (B : list Z) : Prop := exists a b, a <> b /\ B !! a = Some 0 /\ B !! b = Some 0.

Lemma spare_free s ip B : spare B -> refs s = alter Z.succ ip B -> exists i, i ∈ icache s /\ i_ref i = 0.
Proof using.
  intros (a & b & Hne & Ha & Hb) Hr.
  assert (Hk : exists k, refs s !! k = Some 0).
  { destruct (decide (ip = a)) as [->|]; [exists b|exists a]; rewrite Hr, list_lookup_alter, decide_False; done. }
  destruct Hk as (k & Hk). unfold refs in Hk. rewrite list_lookup_fmap in Hk. apply fmap_Some in Hk as (i & Hi & E).
  exists i. split; [|done]. apply list_elem_of_lookup. eauto.
Qed.

(** One more reference to an entry. *)
Lemma referenced_ok s v sb m i i' : alive v sb m -> referenced (D := D) s 1 m i i' -> entry_ok v sb i -> entry_ok v sb i'.
Proof using.
  intros Hm Href [Hr Hl Hd Ha Hs]. destruct Href as [(Hp & Hd1 & Hn & ->)|(H0 & _ & ->)]; split; cbn; try done; try lia.
  - by rewrite Hn.
  - intros _ Hv. apply synced_reref. by apply Hs.
Qed.

Lemma held_referenced s t v sb m ip i i' :
  held s v sb ip i -> referenced (D := D) t 1 m i i' -> held (put_inode ip i' s) v sb ip i'.
Proof using.
  intros [Hi Hl Hr Hv [Hr0 Hl0 Hd Ha Hs]] [(Hp & Hd1 & Hn & ->)|(H0 & _ & _)]; [|lia].
  split; [by apply (put_inode_at _ _ i)|done|cbn; lia|done|]. split; cbn in *; try done; try lia.
  - by intros _; apply Ha.
  - intros _ _. apply (synced_reref _ _ _ (i_ref i + 1)) in Hs; done.
Qed.

Lemma dirlookup_walk s v sb L ip i name :
  walk_env s v sb L [ip] -> held s v sb ip i -> i_type i = T_DIR -> (exists i, i ∈ icache s /\ i_ref i = 0) ->
  exists r s', dirlookup devsw_read ip name s = Ok (r, s') /\ walk_env s' v sb L [ip] /\
    (exists i', held s' v sb ip i') /\ (ld_open (fdisk s) -> ld_open (fdisk s')) /\
    match dir_get (listing v (inode_on v sb (i_inum i))) (name_of name), r with
    | None, None => refs s' = refs s
    | Some m, Some (nx, _) => refs s' = alter Z.succ nx (refs s) /\ exists j, icache s' !! nx = Some j /\ i_inum j = m /\ 0 < i_ref j
    | _, _ => False
    end.
Proof using.
  intros He Hh Hty Hfree. destruct (held_dir _ _ _ _ _ _ He Hh Hty) as (n & Hd & El). rewrite <- El.
  pose proof (dirlookup_get devsw_read s ip i v sb L n name Hd (we_lock _ _ _ _ _ He) Hfree) as H.
  destruct (dir_get (listing v i) (name_of name)) as [m|] eqn:Eg.
  2: { destruct H as (s1 & R & Hs1). exists None, s1. split_and!; [done|by eapply walk_view|by eexists; eapply held_view| |].
       - destruct Hs1 as (d & -> & _ & Ho). done.
       - destruct Hs1 as (d & -> & _). done. }
  destruct H as (nx & off & j & j' & s1 & R & Hs1 & Hj & Href).
  assert (Hm : alive v sb m).
  { rewrite El in Eg. pose proof Hh as [_ _ Hr _ [_ _ _ Hal _]].
    destruct (synced_fields _ _ _ (held_synced _ _ _ _ _ Hh)) as (E1 & _). rewrite E1 in Hty. by eapply (no_entry _ _ _ (we_tree _ _ _ _ _ He _ (Hal Hr))). }
  destruct (referenced_inum _ _ _ _ _ Href) as (Kd & Kn & Kr).
  assert (Hic : icache s1 = icache s) by (by destruct Hs1 as (d & -> & _)).
  assert (Eref : i_ref j' = Z.succ (i_ref j)) by (destruct Href as [(_ & _ & _ & ->)|(-> & _ & ->)]; cbn; lia).
  exists (Some (nx, off)), (put_inode nx j' s1). split; [done|]. split_and!.
  - destruct (decide (nx = ip)) as [->|Hne]; (apply walk_put; [eapply walk_weaken; [|by eapply walk_view]|]).
    + intros k Hk. by right.
    + right. by left.
    + intros k Hk. by right.
    + left. apply (referenced_ok s v sb m j); [done|done|]. apply (we_cache _ _ _ _ _ He nx); [|done]. by rewrite list_elem_of_singleton.
  - pose proof (held_view _ _ _ _ _ _ _ Hh Hs1) as Hh1. destruct (decide (nx = ip)) as [->|Hne].
    + rewrite (hd_at _ _ _ _ _ Hh) in Hj. injection Hj as <-. exists j'. by apply (held_referenced s1 s v sb m ip i).
    + exists i. destruct Hh1 as [? ? ? ? ?]. split; try done. cbn. by rewrite list_lookup_insert_ne.
  - destruct Hs1 as (d & -> & _ & Ho). done.
  - rewrite refs_put. assert (refs s1 = refs s) as -> by (unfold refs; by rewrite Hic).
    by rewrite Eref, (alter_insert _ _ _ _ (refs_lookup s nx j Hj)).
  - exists j'. split_and!; [|done|lia]. apply (put_inode_at _ _ j). by rewrite Hic.
Qed.

(** ** The walk *)

Lemma refs_moved (B : list Z) ip nx : alter Z.pred ip (alter Z.succ nx (alter Z.succ ip B)) = alter Z.succ nx B.
Proof using.
  apply list_eq. intros k. rewrite !list_lookup_alter. repeat case_decide; simplify_eq; try done; destruct (B !! _); try done;
    apply (f_equal Some); lia.
Qed.

Lemma refs_back (B : list Z) ip : alter Z.pred ip (alter Z.succ ip B) = B.
Proof using.
  apply list_eq. intros k. rewrite !list_lookup_alter. repeat case_decide; simplify_eq; try done; destruct (B !! _); try done;
    apply (f_equal Some); lia.
Qed.

(** The inode found, one reference to it, and no other left behind. *)
Definition resolved (s : fsys D) (B : list Z) (t : option Z) (r : option nat) : Prop :=
  match t, r with
  | None, None => refs s = B
  | Some m, Some ip => refs s = alter Z.succ ip B /\ exists i, icache s !! ip = Some i /\ i_inum i = m /\ 0 < i_ref i
  | _, _ => False
  end.

(** The end of the path. *)
Lemma namex_end (parent : bool) s v sb L ip i name B :
  walk_env s v sb L [] -> icache s !! ip = Some i -> 0 < i_ref i -> refs s = alter Z.succ ip B ->
  exists r nm s', (if parent then (let! _ := iput ip in mret (None, name)) else mret (Some ip, name)) s = Ok ((r, nm), s') /\
    walk_env s' v sb L [] /\ resolved s' B (target v sb parent (i_inum i) []) r /\
    (parent = true -> r <> None -> last [] = Some (name_of nm)) /\ (ld_open (fdisk s) -> ld_open (fdisk s')).
Proof using.
  intros He Hi Hr HB. destruct parent.
  2: { exists (Some ip), name, s. split_and!; [done|done| |done|done]. split; [done|by exists i]. }
  destruct (iput_walk s v sb L ip i He Hi Hr) as (s1 & R1 & He1 & Hr1 & Hd1 & _). exists None, name, s1.
  rewrite (mbind_ok _ _ _ _ _ R1). unfold resolved. rewrite Hr1, HB, refs_back. cbn [target]. rewrite Hd1. by split_and!.
Qed.

Lemma namex_loop_ok fuel parent : forall s v sb L ip i path name B,
  walk_env s v sb L [] -> icache s !! ip = Some i -> 0 < i_ref i -> refs s = alter Z.succ ip B -> spare B ->
  no_nul path -> (length path <= fuel)%nat ->
  exists r nm s', namex_loop devsw_read fuel parent ip path name s = Ok ((r, nm), s') /\ walk_env s' v sb L [] /\
    resolved s' B (target v sb parent (i_inum i) (elements path)) r /\
    (parent = true -> r <> None -> last (elements path) = Some (name_of nm)) /\
    (ld_open (fdisk s) -> ld_open (fdisk s')).
Proof using.
  induction fuel as [|fuel IH]; intros s v sb L ip i path name B He Hi Hr HB Hsp Hnn Hlen;
    pose proof (skipelem_spec path name Hnn) as Hsk; cbn [namex_loop]; destruct (skipelem path name) as [[path' name']|] eqn:Esk.
  1: destruct Hsk as (_ & _ & ? & _); lia.
  1, 3: rewrite Hsk; exact (namex_end parent s v sb L ip i name B He Hi Hr HB).
  destruct Hsk as (Eel & Hnn' & Hlt & Hlast). rewrite Eel. cbn [target].
  destruct (ilock_walk s v sb L ip i He Hi Hr) as (i1 & s1 & R1 & He1 & Hh1 & En1 & Er1 & Ho1). rewrite (mbind_ok _ _ _ _ _ R1).
  mby (geti_eq s1 ip i1 (hd_at _ _ _ _ _ Hh1)).
  destruct (synced_fields _ _ _ (held_synced _ _ _ _ _ Hh1)) as (Et & _). rewrite En1 in Et. rewrite <- Et.
  destruct (Z.eqb_spec (i_type i1) T_DIR) as [Hty|Hty]; cbn [negb].
  2: { destruct (iunlockput_walk s1 v sb L ip i1 He1 Hh1) as (s2 & R2 & He2 & Hr2 & Hd2 & _). exists None, name', s2.
       rewrite (mbind_ok _ _ _ _ _ R2). unfold resolved. rewrite Hr2, Er1, HB, refs_back. rewrite Hd2. by split_and!. }
  assert (Eend : match path' with [] => true | _ => false end = match elements path' with [] => true | _ => false end).
  { destruct Hlast as [H1 H2]. destruct (elements path'); [by rewrite (H2 eq_refl)|]. destruct path'; [by specialize (H1 eq_refl)|done]. }
  rewrite Eend. destruct (parent && _) eqn:Estop.
  { apply andb_true_iff in Estop as [-> Estop]. destruct (elements path') eqn:E; [|done].
    destruct (iunlock_walk s1 v sb L ip i1 He1 Hh1) as (s2 & R2 & He2 & Hi2 & Hr2 & Hd2 & _). exists (Some ip), name', s2.
    rewrite (mbind_ok _ _ _ _ _ R2). split_and!; try done; [|by rewrite Hd2].
    split; [by rewrite Hr2, Er1|]. exists (set_i_lock sl_free i1). split; [done|]. split; [done|apply Hh1]. }
  destruct (dirlookup_walk s1 v sb L ip i1 name' He1 Hh1 Hty) as (r & s2 & R2 & He2 & (i2 & Hh2) & Ho2 & Hcase).
  { apply (spare_free s1 ip B Hsp). by rewrite Er1. }
  rewrite (mbind_ok _ _ _ _ _ R2). rewrite En1 in Hcase.
  destruct (iunlockput_walk s2 v sb L ip i2 He2 Hh2) as (s3 & R3 & He3 & Hr3 & Hd3 & Hi3 & Hk3).
  destruct (dir_get _ _) as [m|], r as [[nx off]|]; try done; rewrite (mbind_ok _ _ _ _ _ R3).
  2: { exists None, name', s3. unfold resolved. rewrite Hr3, Hcase, Er1, HB, refs_back, Hd3. split_and!; try done. auto. }
  destruct Hcase as (Hr2 & j & Hj & Hm & Hjr). rewrite Hr2, Er1, HB, refs_moved in Hr3.
  assert (Hnx : exists j', icache s3 !! nx = Some j' /\ i_inum j' = m /\ 0 < i_ref j').
  { destruct (decide (nx = ip)) as [->|Hne]; [|exists j; by rewrite Hk3].
    rewrite (hd_at _ _ _ _ _ Hh2) in Hj. injection Hj as <-. destruct Hi3 as (j' & Hj' & En' & Er'). exists j'. split_and!; [done|congruence|].
    pose proof (refs_lookup s2 ip i2 (hd_at _ _ _ _ _ Hh2)) as Hl. rewrite Hr2, list_lookup_alter, decide_True in Hl by done.
    rewrite (refs_lookup s1 ip i1 (hd_at _ _ _ _ _ Hh1)) in Hl. injection Hl as Hl. pose proof (hd_ref _ _ _ _ _ Hh1). lia. }
  destruct Hnx as (j' & Hj' & Hm' & Hjr').
  destruct (IH s3 v sb L nx j' path' name' B He3 Hj' Hjr' Hr3 Hsp Hnn' ltac:(lia)) as (r' & nm & s4 & R4 & He4 & Hres & Hnm & Ho4).
  exists r', nm, s4. rewrite Hm' in Hres. split_and!; try done.
  - intros -> Hne. specialize (Hnm eq_refl Hne). by destruct (elements path').
  - intros Ho. apply Ho4. rewrite Hd3. auto.
Qed.

Lemma idup_ok s ip i :
  icache s !! ip = Some i -> ic_lock s = false -> idup (D := D) ip s = Ok (ip, put_inode ip (set_i_ref (i_ref i + 1) i) s).
Proof using.
  intros Hi Hl. unfold idup, iacquire, irelease, acquire. unfold mbind at 1. rewrite Hl. cbn [obind].
  mby (seti_ok ip (fun i => set_i_ref (i_ref i + 1) i) i (set_ic_lock true s) Hi). clear -Hl. destruct s. cbn in Hl. by subst.
Qed.

(** One more reference, to an entry of the cache found or made. *)
Lemma reference_walk s v sb L ip i i' m :
  walk_env s v sb L [] -> alive v sb m -> icache s !! ip = Some i -> referenced s 1 m i i' ->
  walk_env (put_inode ip i' s) v sb L [] /\ icache (put_inode ip i' s) !! ip = Some i' /\ i_inum i' = m /\ 0 < i_ref i' /\
  refs (put_inode ip i' s) = alter Z.succ ip (refs s).
Proof using.
  intros He Hm Hi Href. destruct (referenced_inum _ _ _ _ _ Href) as (_ & Kn & Kr). split_and!; [| |done|lia|].
  - apply walk_put; [eapply walk_weaken; [|exact He]; by intros ? ?%elem_of_nil|]. left.
    apply (referenced_ok s v sb m i); [done|done|]. by apply (we_cache _ _ _ _ _ He ip i (not_elem_of_nil _)).
  - by apply (put_inode_at _ _ i).
  - rewrite refs_put, (alter_insert _ _ _ _ (refs_lookup s ip i Hi)). f_equal.
    destruct Href as [(_ & _ & _ & ->)|(-> & _ & ->)]; cbn; lia.
Qed.

(** C7: path names.  [namex] returns the inode that the path leads to along the
    directories on the disk, from the root or from the current directory, or
    nothing when an element is missing or is no directory; for [nameiparent] it
    stops one element early and hands that element over.  On every outcome it
    holds one reference to what it returns and no other, no lock, and the disk
    is unchanged. *)
Theorem namex_resolves s v sb L path parent name cwd
    (start := match path with c :: _ => if c =? 47 then ROOTINO else i_inum cwd | [] => i_inum cwd end) :
  walk_env s v sb L [] -> spare (refs s) -> no_nul path -> icache s !! fcwd s = Some cwd -> 0 < i_ref cwd -> alive v sb ROOTINO ->
  exists r nm s', namex devsw_read path parent name s = Ok ((r, nm), s') /\ walk_env s' v sb L [] /\
    resolved s' (refs s) (target v sb parent start (elements path)) r /\
    (parent = true -> r <> None -> last (elements path) = Some (name_of nm)) /\
    (ld_open (fdisk s) -> ld_open (fdisk s')).
Proof using.
  intros He Hsp Hnn Hcwd Hcr Hroot.
  assert (Hgo : forall ip i i' m, icache s !! ip = Some i -> referenced s 1 m i i' -> alive v sb m -> m = start ->
    exists r nm s', namex_loop devsw_read (length path) parent ip path name (put_inode ip i' s) = Ok ((r, nm), s') /\ walk_env s' v sb L [] /\
    resolved s' (refs s) (target v sb parent start (elements path)) r /\
    (parent = true -> r <> None -> last (elements path) = Some (name_of nm)) /\ (ld_open (fdisk s) -> ld_open (fdisk s'))).
  { intros ip i i' m Hi Href Hm Em. destruct (reference_walk s v sb L ip i i' m He Hm Hi Href) as (He1 & Hi1 & Hn1 & Hr1 & HB).
    rewrite <- Em, <- Hn1. by eapply (namex_loop_ok (length path) parent (put_inode ip i' s)). }
  pose proof (we_cache _ _ _ _ _ He _ _ (not_elem_of_nil _) Hcwd) as [_ _ Hcd Hca _].
  assert (Hdup : exists i', idup (D := D) (fcwd s) s = Ok (fcwd s, put_inode (fcwd s) i' s) /\ referenced s 1 (i_inum cwd) cwd i').
  { exists (set_i_ref (i_ref cwd + 1) cwd). split; [apply idup_ok; [done|apply He]|]. left. split_and!; auto. }
  destruct Hdup as (i' & Rd & Hrd). unfold namex. destruct path as [|c path].
  - mgo. mby Rd. by apply (Hgo (fcwd s) cwd i' (i_inum cwd)); auto.
  - destruct (c =? 47) eqn:E; subst start.
    + destruct (iget_ok s ROOTDEV ROOTINO) as (ip & j & j' & R & Hj & Href); [apply He| |mby R; by apply (Hgo ip j j' ROOTINO)].
      destruct Hsp as (a & _ & _ & Ha & _). unfold refs in Ha. rewrite list_lookup_fmap in Ha. apply fmap_Some in Ha as (j & Hj & E0).
      exists j. split; [|done]. apply list_elem_of_lookup. eauto.
    + mgo. mby Rd. by apply (Hgo (fcwd s) cwd i' (i_inum cwd)); auto.
Qed.
End FsPath.

(** ** The root directory of the small disk *)

Lemma mini_inode_on v n :
  (forall y, y < 2 \/ 32 <= y -> v y = mini_disk y) -> 0 < n < 16 -> inode_on v mini_sb n = inode_on mini_disk mini_sb n.
Proof. intros Hv Hn. unfold inode_on. rewrite Hv; [done|]. rewrite mini_iblock by lia. right. clear Hv. zlia. Qed.

Lemma mini_alive v n : (forall y, y < 2 \/ 32 <= y -> v y = mini_disk y) -> alive v mini_sb n -> n = 1.
Proof.
  intros Hv [Hn Ht]. change (sb_ninodes mini_sb) with 16 in Hn. rewrite mini_inode_on in Ht by done.
  pose proof (all_below (fun n => (n <=? 1) || (i_type (inode_on mini_disk mini_sb n) =? 0)) 16 ltac:(vm_compute; reflexivity) n ltac:(lia)) as H.
  cbv beta in H. rewrite (proj2 (Z.eqb_neq _ _) Ht), orb_false_r in H. lia.
Qed.

Lemma mini_root_on v : (forall y, y < 2 \/ 32 <= y -> v y = mini_disk y) -> inode_on v mini_sb 1 = mini_root.
Proof. intros Hv. rewrite mini_inode_on by (done || lia). vm_compute. reflexivity. Qed.

Lemma mini_node v : (forall y, y < 2 \/ 32 <= y -> v y = mini_disk y) -> node_ok (LD := mini_ld) v mini_sb 1.
Proof.
  intros Hv. pose proof (mini_root_on v Hv) as E. split; rewrite E.
  - done.
  - intros _. by apply mini_file_ok.
  - intros _. vm_compute. repeat split; discriminate.
  - intros _ o Hoo. cbn in Hoo. replace (o / BSIZE) with 0 by (fsconst; clear Hv E; zlia). done.
  - intros _ nm m Hg. change (listing v mini_root) with (listing v mini_inode) in Hg. rewrite (mini_listing v Hv) in Hg.
    apply dir_get_some in Hg as (j & Hj & _). assert (m = 1) as -> by (destruct j as [|[|j]]; [by injection Hj| by injection Hj|done]).
    split; [done|]. by rewrite E.
Qed.

(** The current directory is the root, in the first entry of the cache. *)
Lemma namex_resolves_witness :
  exists (s s' : fsys lst) r nm ip i, namex (LD := mini_ld) (fun _ => None) [47; 46; 47; 47; 46; 46; 47; 97] true (name1 0) s = Ok ((r, nm), s') /\
    r = Some ip /\ icache s' !! ip = Some i /\ i_inum i = 1 /\ name_of nm = [97].
Proof.
  destruct mini_state as (s & v & Hv & Ho & Hsb & Hic & Hlk & Hvd).
  set (c := mkinode 1 1 1 sl_free 0 0 0 0 0 0 []). set (b := mkinode 0 0 0 sl_free 0 0 0 0 0 0 []).
  destruct (namex_resolves (LD := mini_ld) (fun _ => None) (set_fcwd 0 (set_icache (c :: replicate 49 b) s)) v mini_sb []
    [47; 46; 47; 47; 46; 46; 47; 97] true (name1 0) c) as (r & nm & s' & R & _ & Hres & Hnm & _).
  - split; [exact Hlk|exact Hsb|by apply mini_fs_ok|exact Hv|vm_compute; reflexivity| |].
    + intros n Hn. rewrite (mini_alive v n Hvd Hn). by apply mini_node.
    + intros k i _ Hk. cbn [icache set_fcwd set_icache] in Hk. destruct k as [|k]; [|rewrite lookup_cons_ne_0 in Hk by done; cbn [Nat.pred] in Hk].
      * injection Hk as <-. split; try done. intros _. split; [done|]. by rewrite mini_root_on.
      * apply lookup_replicate in Hk as [-> _]. split; done.
  - exists 1%nat, 2%nat. done.
  - repeat constructor; discriminate.
  - reflexivity.
  - reflexivity.
  - split; [done|]. by rewrite mini_root_on.
  - assert (Et : target v mini_sb true ROOTINO (elements [47; 46; 47; 47; 46; 46; 47; 97]) = Some 1).
    { change (elements [47; 46; 47; 47; 46; 46; 47; 97]) with [[46]; [46; 46]; [97]]. cbn [target]. change ROOTINO with 1.
      rewrite (mini_root_on v Hvd). change (listing v mini_root) with (listing v mini_inode). rewrite (mini_listing v Hvd).
      change (dir_get _ [46]) with (Some 1). cbn [andb]. change (i_type mini_root =? T_DIR) with true. cbv iota beta.
      rewrite (mini_root_on v Hvd). change (listing v mini_root) with (listing v mini_inode). rewrite (mini_listing v Hvd).
      change (dir_get _ [46; 46]) with (Some 1). change (i_type mini_root =? T_DIR) with true. cbv iota beta.
      by rewrite (mini_root_on v Hvd). }
    change (resolved s' (refs (set_fcwd 0 (set_icache (c :: replicate 49 b) s)))
      (target v mini_sb true ROOTINO (elements [47; 46; 47; 47; 46; 46; 47; 97])) r) in Hres.
    rewrite Et in Hres. destruct r as [ip|]; [|done]. destruct Hres as (_ & i & Hi & Hn & _).
    exists (set_fcwd 0 (set_icache (c :: replicate 49 b) s)), s', (Some ip), nm, ip, i.
    split; [exact R|]. split; [done|]. split; [exact Hi|]. split; [exact Hn|].
    specialize (Hnm eq_refl ltac:(discriminate)). injection Hnm as <-. reflexivity.
Defined.
