(* ===== verification/Mkfs.v ===== *)
(** * The image of the file system: [mkfs.c]

    The program that writes the initial disk, over the sectors of the image file.
    The numbers are little-endian as on the host the image is made on, so [xint]
    and [xshort] are the identity.  [img_rep] describes an image under construction
    as a list of files with their contents: each sector in use belongs to one place
    of one file, and sectors not in use are zero; [made] describes the finished
    image. *)

From Stdlib Require Import ZArith Lia String.
From stdpp Require Import base numbers functions list.
From S2P Require Import Prelude Bytes Params Locks Bio Log LogDisk Fs FsBlocks FsFile FsInode FsIO FsDir.

Local Open Scope Z_scope.
Local Open Scope kernel_scope.

(** ** The program *)

Definition NINODES : Z := 200.

Definition nbitmap : Z := FSSIZE / (BSIZE * 8) + 1.
Definition ninodeblocks : Z := NINODES / IPB + 1.
Definition nlog : Z := LOGSIZE.
Definition nmeta : Z := 2 + nlog + ninodeblocks + nbitmap.
Definition nblocks : Z := FSSIZE - nmeta.

(** [sb], and its bytes. *)
Definition mk_sb : superblock := mksb FSSIZE nblocks NINODES nlog 2 (2 + nlog) (2 + nlog + ninodeblocks).
Definition put_sb (sb : superblock) (m : mem) : mem :=
  put32 (put32 (put32 (put32 (put32 (put32 (put32 m 0 (sb_size sb)) 4 (sb_nblocks sb)) 8 (sb_ninodes sb)) 12 (sb_nlog sb))
    16 (sb_logstart sb)) 20 (sb_inodestart sb)) 24 (sb_bmapstart sb).

(** The image file, with the number of its sectors, and the two counters. *)
Record mkst : Type := mkmk { img : Z -> mem; isize : Z; freeinode : Z; freeblock : Z }.

Definition set_img (v : Z -> mem) (s : mkst) : mkst := mkmk v (isize s) (freeinode s) (freeblock s).
Definition set_isize (v : Z) (s : mkst) : mkst := mkmk (img s) v (freeinode s) (freeblock s).
Definition set_freeinode (v : Z) (s : mkst) : mkst := mkmk (img s) (isize s) v (freeblock s).
Definition set_freeblock (v : Z) (s : mkst) : mkst := mkmk (img s) (isize s) (freeinode s) v.

Abbreviation KM := (M mkst).

Definition wsect (sec : Z) (buf : mem) : KM unit :=
  mset (fun s => set_isize (Z.max (isize s) (sec + 1)) (set_img (<[sec := buf]> (img s)) s)).
(** Reading past the end of the file returns less than a sector. *)
Definition rsect (sec : Z) : KM mem :=
  fun s => if sec <? isize s then Ok (img s sec, s) else Panic "read".

(** A [struct dinode] is an inode without the fields of the cache. *)
Definition no_inode : inode := mkinode 0 0 0 sl_free 0 0 0 0 0 0 [].

Definition winode (inum : Z) (ip : inode) : KM unit :=
  let bn := IBLOCK inum mk_sb in
  let! buf := rsect bn in
  wsect bn (put_dinode ip (dinode_off inum) buf).
Definition rinode (inum : Z) : KM inode :=
  let! buf := rsect (IBLOCK inum mk_sb) in
  mret (get_dinode (dinode_off inum) buf no_inode).

(** [ialloc]. *)
Definition mk_ialloc (type : Z) : KM Z :=
  let! inum := mget freeinode in
  mset (set_freeinode (inum + 1)) ;;!
  winode inum (mkinode 0 0 0 sl_free 0 type 0 0 1 0 (replicate (Z.to_nat (NDIRECT + 2)) 0)) ;;!
  mret inum.

(** [balloc]. *)
Fixpoint mark_used (n : nat) (i : Z) (buf : mem) : mem :=
  match n with
  | O => buf
  | S n' => mark_used n' (i + 1) (set_bit i buf)
  end.
Definition mk_balloc (used : Z) : KM unit :=
  if negb (used <? BSIZE * 8) then mpanic "used < BSIZE*8" else
  wsect (sb_bmapstart mk_sb) (mark_used (Z.to_nat used) 0 (fun _ => 0)).

(** [freeblock++] *)
Definition take_block : KM Z :=
  let! b := mget freeblock in
  mset (set_freeblock (b + 1)) ;;!
  mret b.

(** The block [x] of one iteration of [iappend], with the inode as it is then. *)
Definition set_dinode_addr (k b : Z) (din : inode) : inode := set_i_addrs (<[Z.to_nat k := b]> (i_addrs din)) din.
Definition iappend_block (din : inode) (fbn : Z) : KM (inode * Z) :=
  if fbn <? NDIRECT then
    let x := nth (Z.to_nat fbn) (i_addrs din) 0 in
    if x =? 0 then
      let! b := take_block in
      mret (set_dinode_addr fbn b din, b)
    else mret (din, x)
  else
    let! din := (if nth (Z.to_nat NDIRECT) (i_addrs din) 0 =? 0 then
                   let! b := take_block in
                   mret (set_dinode_addr NDIRECT b din)
                 else mret din) in
    let ind := nth (Z.to_nat NDIRECT) (i_addrs din) 0 in
    let! indirect := rsect ind in
    if NINDIRECT <=? fbn - NDIRECT then mundef else
    let x := get32 indirect (4 * (fbn - NDIRECT)) in
    if x =? 0 then
      let! b := take_block in
      wsect ind (put32 indirect (4 * (fbn - NDIRECT)) b) ;;!
      mret (din, b)
    else mret (din, x).

Fixpoint iappend_loop (fuel : nat) (din : inode) (off : Z) (p : list Z) : KM (inode * Z) :=
  match p with
  | [] => mret (din, off)
  | _ =>
      match fuel with
      | O => mnofuel
      | S fuel' =>
          let fbn := off / BSIZE in
          if negb (fbn <? MAXFILE) then mpanic "fbn < MAXFILE" else
          let! (din, x) := iappend_block din fbn in
          let n1 := Z.min (Z.of_nat (length p)) ((fbn + 1) * BSIZE - off) in
          let! buf := rsect x in
          wsect x (put_bytes buf (off - fbn * BSIZE) (fun k => nth (Z.to_nat k) p 0) 0 n1) ;;!
          iappend_loop fuel' din (off + n1) (drop (Z.to_nat n1) p)
      end
  end.

Definition iappend (inum : Z) (p : list Z) : KM unit :=
  let! din := rinode inum in
  let! (din, off) := iappend_loop (S (length p)) din (i_size din) p in
  winode inum (set_i_size off din).

Fixpoint iappend_all (inum : Z) (chunks : list (list Z)) : KM unit :=
  match chunks with
  | [] => mret tt
  | buf :: rest => iappend inum buf ;;! iappend_all inum rest
  end.

(** A string as the array it is in. *)
Definition str (l : list Z) : mem := fun k => nth (Z.to_nat k) l 0.

(** One of the files: its name as given and what the calls of [read] return, or
    nothing when it cannot be opened. *)
Definition skip_underscore (name : list Z) : list Z := match name with c :: t => if c =? 95 then t else name | [] => [] end.
Definition mk_file (rootino : Z) (f : list Z * option (list (list Z))) : KM unit :=
  let '(name, data) := f in
  if existsb (fun c => c =? 47) name then mpanic "index(argv[i], '/') == 0" else
  match data with
  | None => mpanic "open"
  | Some chunks =>
      let name := skip_underscore name in
      let! inum := mk_ialloc T_FILE in
      iappend rootino (mk_dirent inum (str name)) ;;!
      iappend_all inum chunks
  end.
Fixpoint mk_files (rootino : Z) (files : list (list Z * option (list (list Z)))) : KM unit :=
  match files with
  | [] => mret tt
  | f :: rest => mk_file rootino f ;;! mk_files rootino rest
  end.

(** [main], after the image file has been opened and truncated. *)
Definition mkfs (files : list (list Z * option (list (list Z)))) : KM unit :=
  mset (set_freeblock nmeta) ;;!
  for_ (Z.to_nat FSSIZE) 0 (fun i => wsect i (fun _ => 0)) ;;!
  wsect 1 (put_sb mk_sb (fun _ => 0)) ;;!
  let! rootino := mk_ialloc T_DIR in
  if negb (rootino =? ROOTINO) then mpanic "rootino == ROOTINO" else
  iappend rootino (mk_dirent rootino (str [46])) ;;!
  iappend rootino (mk_dirent rootino (str [46; 46])) ;;!
  mk_files rootino files ;;!
  let! din := rinode rootino in
  winode rootino (set_i_size ((i_size din / BSIZE + 1) * BSIZE) din) ;;!
  let! b := mget freeblock in
  mk_balloc b.

Definition mk_start : mkst := mkmk (fun _ _ => 0) 0 1 0.

(** ** The blocks of the files *)

(** Block lists of all files, block numbers below [fb]: every block belongs to one
    place of one file, blocks from [fb] on are zero, and there are no doubly
    indirect blocks. *)
Record trees (v : Z -> mem) (fb : Z) (As : list (list Z)) : Prop := {
  tr_fb : nmeta <= fb;
  tr_zero : forall b o, fb <= b -> v b o = 0;
  tr_node : forall i A, As !! i = Some A -> length A = Z.to_nat (NDIRECT + 2) /\ nth (Z.to_nat (NDIRECT + 1)) A 0 = 0;
  tr_rng : forall i A p, As !! i = Some A -> place_ok p -> ptr v A p <> 0 -> nmeta <= ptr v A p < fb;
  tr_inj : forall i A p j B q, As !! i = Some A -> As !! j = Some B -> place_ok p -> place_ok q ->
    ptr v A p = ptr v B q -> ptr v A p <> 0 -> i = j /\ p = q
}.

Lemma nmeta_eq : nmeta = 63.
Proof. reflexivity. Qed.

(** Two disks that agree on the indirect block of a file agree on its places. *)
Lemma ptr_ext v v' A p :
  nth (Z.to_nat (NDIRECT + 1)) A 0 = 0 ->
  (nth (Z.to_nat NDIRECT) A 0 <> 0 -> v' (nth (Z.to_nat NDIRECT) A 0) = v (nth (Z.to_nat NDIRECT) A 0)) ->
  ptr v' A p = ptr v A p.
Proof.
  intros Hd Hi. destruct p; cbn [ptr]; [done|..].
  - unfold entry. destruct (Z.eqb_spec (nth (Z.to_nat NDIRECT) A 0) 0); [done|]. by rewrite Hi.
  - unfold entry. by rewrite Hd.
  - unfold entry. by rewrite Hd.
Qed.

(** [freeblock] given to an entry of an inode. *)
Lemma ptr_direct v fb As i A k p :
  trees v fb As -> As !! i = Some A -> 0 <= k <= NDIRECT -> nth (Z.to_nat k) A 0 = 0 -> place_ok p ->
  ptr v (<[Z.to_nat k := fb]> A) p = if decide (p = InInode k) then fb else ptr v A p.
Proof.
  intros Ht HA Hk Hz Hp. destruct (tr_node _ _ _ Ht _ _ HA) as [Hl Hd].
  assert (Hn : forall j, 0 <= j -> nth (Z.to_nat j) (<[Z.to_nat k := fb]> A) 0 = if decide (j = k) then fb else nth (Z.to_nat j) A 0).
  { intros j Hj. rewrite !nth_lookup. destruct (decide (j = k)) as [->|Hne].
    - rewrite list_lookup_insert_eq by (rewrite Hl; fsconst; lia). done.
    - by rewrite list_lookup_insert_ne by lia. }
  assert (H12 : nth (Z.to_nat (NDIRECT + 1)) (<[Z.to_nat k := fb]> A) 0 = 0).
  { rewrite Hn by done. rewrite decide_False by lia. done. }
  destruct p as [j|j|j|j j']; cbn [ptr].
  - rewrite Hn by (cbn in Hp; lia). destruct (decide (j = k)) as [->|Hne]; [by rewrite decide_True|].
    rewrite decide_False; [done|]. by intros [=].
  - rewrite decide_False by done. rewrite Hn by done. destruct (decide (NDIRECT = k)) as [<-|Hne]; [|done].
    rewrite Hz. rewrite entry_zero; [done| |done]. intros a _. apply (tr_zero _ _ _ Ht). lia.
  - rewrite H12, Hd. done.
  - rewrite H12, Hd. done.
Qed.

(** Giving [freeblock] to a place that has no block. *)
Lemma trees_give v fb As v' As' i p :
  trees v fb As -> place_ok p ->
  (forall b o, fb + 1 <= b -> v' b o = 0) ->
  (forall j A', As' !! j = Some A' -> length A' = Z.to_nat (NDIRECT + 2) /\ nth (Z.to_nat (NDIRECT + 1)) A' 0 = 0 /\
     exists A, As !! j = Some A /\
     forall q, place_ok q -> ptr v' A' q = if decide (j = i /\ q = p) then fb else ptr v A q) ->
  trees v' (fb + 1) As'.
Proof.
  intros [Hfb Hz Hn Hr Hj] Hp Hz' Hp'. split.
  - lia.
  - done.
  - intros j A' HA'. destruct (Hp' _ _ HA') as (? & ? & _). done.
  - intros j A' q HA' Hq. destruct (Hp' _ _ HA') as (_ & _ & A & HA & E). rewrite E by done. destruct (decide _); [lia|].
    intros H0. specialize (Hr _ _ _ HA Hq H0). lia.
  - intros j A' q k B' r HA' HB' Hq Hrk. destruct (Hp' _ _ HA') as (_ & _ & A & HA & E), (Hp' _ _ HB') as (_ & _ & B & HB & EB).
    rewrite E, EB by done. destruct (decide (j = i /\ q = p)) as [[-> ->]|H1], (decide (k = i /\ r = p)) as [[-> ->]|H2]; [done|..].
    + intros Ef Hf0. specialize (Hr _ _ _ HB Hrk ltac:(congruence)). lia.
    + intros Ef Hf0. specialize (Hr _ _ _ HA Hq ltac:(congruence)). lia.
    + by eapply Hj.
Qed.

Lemma trees_direct v fb As i A k :
  trees v fb As -> As !! i = Some A -> 0 <= k <= NDIRECT -> nth (Z.to_nat k) A 0 = 0 ->
  trees v (fb + 1) (<[i := <[Z.to_nat k := fb]> A]> As).
Proof.
  intros Ht HA Hk Hz. eapply (trees_give _ _ _ _ _ i (InInode k)); [done|cbn; fsconst; lia| |].
  - intros b o Hb. apply (tr_zero _ _ _ Ht). lia.
  - intros j A' HA'. apply list_lookup_insert_Some in HA' as [(-> & <- & _)|(Hne & HA')].
    + destruct (tr_node _ _ _ Ht _ _ HA) as [Hl Hd]. rewrite length_insert. split; [done|]. split.
      * change (ptr v (<[Z.to_nat k:=fb]> A) (InInode (NDIRECT + 1)) = 0). erewrite ptr_direct by (done || by fsconst).
        rewrite decide_False; [done|]. intros [=]. lia.
      * exists A. split; [done|]. intros q Hq. erewrite ptr_direct by done. destruct (decide (q = _)) as [->|?].
        -- by rewrite decide_True.
        -- rewrite decide_False; [done|]. tauto.
    + destruct (tr_node _ _ _ Ht _ _ HA') as [Hl Hd]. split_and!; [done..|]. exists A'. split; [done|]. intros q Hq.
      rewrite decide_False; [done|]. intros [? _]. done.
Qed.

(** [freeblock] given to an entry of an indirect block. *)
Lemma ptr_slot v fb As i A k (x := nth (Z.to_nat NDIRECT) A 0) (v' := <[x := put32 (v x) (4 * k) fb]> v) j B q :
  trees v fb As -> As !! i = Some A -> x <> 0 -> 0 <= k < NINDIRECT -> is_u32 fb -> As !! j = Some B -> place_ok q ->
  ptr v' B q = if decide (j = i /\ q = InInd k) then fb else ptr v B q.
Proof.
  intros Ht HA Hx Hk Hu HB Hq. destruct (tr_node _ _ _ Ht _ _ HB) as [Hl Hd]. destruct (decide (j = i)) as [->|Hne].
  - assert (B = A) as -> by congruence. destruct q as [c|c|c|c c']; cbn [ptr].
    + by rewrite decide_False by (intros [_ [=]]).
    + fold x. unfold entry. rewrite (proj2 (Z.eqb_neq _ _) Hx). unfold v'. rewrite fn_lookup_insert. destruct (decide (c = k)) as [->|Hc].
      * rewrite decide_True by done. by apply get32_put32_eq.
      * rewrite decide_False by (intros [_ [=]]; done). apply get32_put32_ne. lia.
    + rewrite decide_False by (intros [_ [=]]). unfold entry. by rewrite Hd.
    + rewrite decide_False by (intros [_ [=]]). unfold entry. by rewrite Hd.
  - rewrite decide_False by tauto. apply ptr_ext; [done|]. intros H0. unfold v'. apply fn_lookup_insert_ne. intros E.
    destruct (tr_inj _ _ _ Ht i A (InInode NDIRECT) j B (InInode NDIRECT)) as [? _]; done.
Qed.

Lemma trees_slot v fb As i A k (x := nth (Z.to_nat NDIRECT) A 0) (v' := <[x := put32 (v x) (4 * k) fb]> v) :
  trees v fb As -> As !! i = Some A -> x <> 0 -> 0 <= k < NINDIRECT -> is_u32 fb -> trees v' (fb + 1) As.
Proof.
  intros Ht HA Hx Hk Hu. eapply (trees_give _ _ _ _ _ i (InInd k)); [done|done| |].
  - intros b o Hb. unfold v'. rewrite fn_lookup_insert_ne; [apply (tr_zero _ _ _ Ht); lia|].
    pose proof (tr_rng _ _ _ Ht i A (InInode NDIRECT) HA ltac:(done) Hx). cbn [ptr] in *. fold x in H. lia.
  - intros j B HB. destruct (tr_node _ _ _ Ht _ _ HB) as [Hl Hd]. split_and!; [done..|]. exists B. split; [done|]. intros q Hq.
    by eapply ptr_slot.
Qed.

(** ** Adding blocks to a file *)

Lemma file_byte_same v A v' A' o :
  0 <= o < MAXFILE * BSIZE ->
  (forall q, place_ok q -> is_leaf q -> if decide (ptr v A q = 0) then ptr v' A' q = 0 \/ forall a, v' (ptr v' A' q) a = 0
     else ptr v' A' q = ptr v A q /\ v' (ptr v A q) = v (ptr v A q)) ->
  file_byte v' A' o = file_byte v A o.
Proof.
  intros Ho H. destruct (place_of_ok (o / BSIZE)) as [Hok Hl]; [fsconst; zlia|]. specialize (H _ Hok Hl). unfold file_byte.
  destruct (decide _) as [E|E].
  - rewrite E, Z.eqb_refl. destruct H as [->|H]; [done|]. rewrite H. by destruct (_ =? 0).
  - destruct H as [-> ->]. done.
Qed.

(** File [i] has got blocks at the places [ps], which were free. *)
Record gave (v : Z -> mem) (fb : Z) (As : list (list Z)) (i : nat) (A : list Z) (v' : Z -> mem) (fb' : Z) (A' : list Z)
    (ps : list place) : Prop := {
  gv_trees : trees v' fb' (<[i := A']> As);
  gv_other : forall j B q, As !! j = Some B -> j <> i -> place_ok q -> ptr v' B q = ptr v B q;
  gv_mine : forall q, place_ok q -> q ∉ ps -> ptr v' A' q = ptr v A q;
  gv_new : forall q, q ∈ ps -> place_ok q /\ ptr v A q = 0 /\ ptr v' A' q <> 0;
  gv_fb : fb' = fb + Z.of_nat (length ps);
  gv_byte : forall j B B' o, As !! j = Some B -> <[i := A']> As !! j = Some B' -> 0 <= o < MAXFILE * BSIZE ->
    file_byte v' B' o = file_byte v B o;
  gv_low : forall b, b < nmeta -> v' b = v b
}.

Lemma gave_refl v fb As i A : trees v fb As -> As !! i = Some A -> gave v fb As i A v fb A [].
Proof.
  intros Ht HA. assert (E : <[i := A]> As = As) by (by apply list_insert_id). split; try done.
  - by rewrite E.
  - intros q Hq. by apply elem_of_nil in Hq.
  - cbn. lia.
  - rewrite E. intros j B B' o H1 H2 _. congruence.
Qed.

Lemma gave_trans v0 fb0 As i A0 v1 fb1 A1 v2 fb2 A2 ps qs :
  As !! i = Some A0 ->
  gave v0 fb0 As i A0 v1 fb1 A1 ps -> gave v1 fb1 (<[i := A1]> As) i A1 v2 fb2 A2 qs ->
  gave v0 fb0 As i A0 v2 fb2 A2 (ps ++ qs).
Proof.
  intros HA [T1 O1 M1 N1 F1 B1 L1] [T2 O2 M2 N2 F2 B2 L2]. rewrite list_insert_insert_eq in *. split.
  - done.
  - intros j B q HB Hne Hq. rewrite (O2 j B); [by apply (O1 j)| |done|done]. by rewrite list_lookup_insert_ne.
  - intros q Hq Hin. rewrite elem_of_app in Hin. rewrite M2, M1; tauto || done.
  - intros q [Hq|Hq]%elem_of_app.
    + destruct (N1 q Hq) as (Hk & H0 & H1). split_and!; [done..|]. rewrite M2; [done|done|]. intros Hq2. by destruct (N2 q Hq2) as (_ & ? & _).
    + destruct (N2 q Hq) as (Hk & H0 & H1). split_and!; [done| |done]. destruct (decide (q ∈ ps)) as [Hp|Hp]; [by destruct (N1 q Hp) as (_ & ? & _)|].
      by rewrite <- M1.
  - rewrite length_app. lia.
  - intros j B B' o HB HB' Ho. assert (exists B1, <[i := A1]> As !! j = Some B1) as (B1' & HB1).
    { apply lookup_lt_is_Some. rewrite length_insert. by eapply lookup_lt_Some. }
    rewrite (B2 j B1' B' o HB1 HB' Ho). by apply (B1 j).
  - intros b Hb. rewrite L2, L1; done.
Qed.

(** One block, at place [p]. *)
Lemma gave_one v fb As i A v' A' p :
  trees v fb As -> As !! i = Some A -> trees v' (fb + 1) (<[i := A']> As) -> place_ok p -> ptr v A p = 0 ->
  (forall j B B' q, As !! j = Some B -> <[i := A']> As !! j = Some B' -> place_ok q ->
     ptr v' B' q = if decide (j = i /\ q = p) then fb else ptr v B q) ->
  (forall j B q, As !! j = Some B -> place_ok q -> is_leaf q -> ptr v B q <> 0 -> v' (ptr v B q) = v (ptr v B q)) ->
  (forall o, v' fb o = 0) -> (forall b, b < nmeta -> v' b = v b) ->
  gave v fb As i A v' (fb + 1) A' [p].
Proof.
  intros Ht HA Ht' Hp Hz Hptr Hleaf Hfb Hlow. pose proof (tr_fb _ _ _ Ht) as H63. rewrite nmeta_eq in H63.
  assert (HA' : <[i := A']> As !! i = Some A') by (apply list_lookup_insert_eq; by eapply lookup_lt_Some).
  split; try done.
  - intros j B q HB Hne Hq. rewrite (Hptr j B B q HB); [|by rewrite list_lookup_insert_ne|done]. by rewrite decide_False by tauto.
  - intros q Hq Hin. rewrite (Hptr i A A' q HA HA' Hq), decide_False; [done|]. intros [_ ->]. apply Hin. by left.
  - intros q ->%list_elem_of_singleton. rewrite (Hptr i A A' p HA HA' Hp), decide_True by done. split_and!; [done..|lia].
  - intros j B B' o HB HB' Ho. apply file_byte_same; [done|]. intros q Hq Hl. rewrite (Hptr j B B' q HB HB' Hq).
    destruct (decide (j = i /\ q = p)) as [[-> ->]|H].
    + assert (B = A) as -> by congruence. rewrite decide_True by done. by right.
    + destruct (decide (ptr v B q = 0)) as [E|E]; [by left|]. split; [done|by eapply Hleaf].
Qed.

Lemma gave_direct v fb As i A k :
  trees v fb As -> As !! i = Some A -> 0 <= k <= NDIRECT -> nth (Z.to_nat k) A 0 = 0 ->
  gave v fb As i A v (fb + 1) (<[Z.to_nat k := fb]> A) [InInode k].
Proof.
  intros Ht HA Hk Hz. apply gave_one; try done.
  - by apply trees_direct.
  - cbn. fsconst. lia.
  - intros j B B' q HB HB' Hq. apply list_lookup_insert_Some in HB' as [(-> & <- & _)|(Hne & HB')].
    + assert (B = A) as -> by congruence. erewrite ptr_direct by done. destruct (decide (q = _)) as [->|?]; [by rewrite decide_True|].
      rewrite decide_False; [done|tauto].
    + assert (B = B') as -> by congruence. rewrite decide_False; [done|]. intros [? _]. congruence.
  - intros o. apply (tr_zero _ _ _ Ht). lia.
Qed.

Lemma gave_slot v fb As i A k (x := nth (Z.to_nat NDIRECT) A 0) :
  trees v fb As -> As !! i = Some A -> x <> 0 -> 0 <= k < NINDIRECT -> is_u32 fb -> ptr v A (InInd k) = 0 ->
  gave v fb As i A (<[x := put32 (v x) (4 * k) fb]> v) (fb + 1) A [InInd k].
Proof.
  intros Ht HA Hx Hk Hu Hz. pose proof (tr_rng _ _ _ Ht i A (InInode NDIRECT) HA ltac:(done) Hx) as Hr. cbn [ptr] in Hr. fold x in Hr.
  assert (E : <[i := A]> As = As) by (by apply list_insert_id). apply gave_one; try done.
  - rewrite E. by eapply trees_slot.
  - rewrite E. intros j B B' q HB HB' Hq. assert (B' = B) as -> by congruence. by eapply ptr_slot.
  - intros j B q HB Hq Hl H0. apply fn_lookup_insert_ne. intros Ex.
    destruct (tr_inj _ _ _ Ht i A (InInode NDIRECT) j B q) as [_ <-]; try done; cbn in Hl; lia.
  - intros o. rewrite fn_lookup_insert_ne by lia. apply (tr_zero _ _ _ Ht). lia.
  - intros b Hb. apply fn_lookup_insert_ne. lia.
Qed.

(** The blocks that [iappend] has to add for block [fbn] of a file. *)
Definition missing (v : Z -> mem) (A : list Z) (fbn : Z) : list place :=
  (if decide (NDIRECT <= fbn /\ ptr v A (InInode NDIRECT) = 0) then [InInode NDIRECT] else []) ++
  (if decide (ptr v A (place_of fbn) = 0) then [place_of fbn] else []).

Lemma take_block_ok s : take_block s = Ok (freeblock s, set_freeblock (freeblock s + 1) s).
Proof. reflexivity. Qed.

Lemma rsect_ok b s : b < isize s -> rsect b s = Ok (img s b, s).
Proof. intros H. unfold rsect. by rewrite (proj2 (Z.ltb_lt _ _) H). Qed.

Lemma wsect_ok b m s : b < isize s -> wsect b m s = Ok (tt, set_img (<[b := m]> (img s)) s).
Proof. intros H. unfold wsect, mset, set_isize, set_img. cbn. by rewrite Z.max_l by lia. Qed.

Definition small_blocks : Z := NDIRECT + NINDIRECT.

Definition appended (s s' : mkst) (din din' : inode) (As : list (list Z)) (i : nat) (ps : list place) : Prop :=
  exists v' A', din' = set_i_addrs A' din /\ s' = mkmk v' (isize s) (freeinode s) (freeblock s + Z.of_nat (length ps)) /\
    gave (img s) (freeblock s) As i (i_addrs din) v' (freeblock s') A' ps.

Lemma appended_refl s din As i :
  trees (img s) (freeblock s) As -> As !! i = Some (i_addrs din) -> appended s s din din As i [].
Proof.
  intros Ht HA. exists (img s), (i_addrs din). split_and!; [by destruct din|destruct s; cbn; f_equal; lia|by apply gave_refl].
Qed.

(** The first block of the two, when the file needs an indirect block. *)
Lemma append_ind s din As i (k := nth (Z.to_nat NDIRECT) (i_addrs din) 0) :
  trees (img s) (freeblock s) As -> As !! i = Some (i_addrs din) ->
  exists din' s', (if k =? 0 then (let! b := take_block in mret (set_dinode_addr NDIRECT b din)) else mret din) s = Ok (din', s') /\
    appended s s' din din' As i (if decide (k = 0) then [InInode NDIRECT] else []) /\ nth (Z.to_nat NDIRECT) (i_addrs din') 0 <> 0.
Proof.
  intros Ht HA. pose proof (tr_fb _ _ _ Ht) as Hfb. rewrite nmeta_eq in Hfb. destruct (Z.eqb_spec k 0) as [E|E].
  - rewrite decide_True by done. mby (take_block_ok s). eexists _, _. split; [done|].
    pose proof (gave_direct _ _ _ _ _ NDIRECT Ht HA ltac:(done) E) as Hg. split.
    + eexists _, _. split_and!; [done|done|exact Hg].
    + apply (gv_new _ _ _ _ _ _ _ _ _ Hg (InInode NDIRECT)). by left.
  - rewrite decide_False by done. exists din, s. split_and!; [done|by apply appended_refl|done].
Qed.

(** The block itself, in the indirect block. *)
Lemma append_slot s din As i k (x := nth (Z.to_nat NDIRECT) (i_addrs din) 0) (p := InInd k) (z := ptr (img s) (i_addrs din) p) :
  trees (img s) (freeblock s) As -> As !! i = Some (i_addrs din) -> x <> 0 -> 0 <= k < NINDIRECT ->
  freeblock s <= isize s < 2 ^ 32 ->
  exists y s', (let! indirect := rsect x in
      if NINDIRECT <=? k then mundef else
      let y := get32 indirect (4 * k) in
      if y =? 0 then
        let! b := take_block in
        wsect x (put32 indirect (4 * k) b) ;;!
        mret (din, b)
      else mret (din, y)) s = Ok ((din, y), s') /\
    appended s s' din din As i (if decide (z = 0) then [p] else []) /\ y = ptr (img s') (i_addrs din) p /\ y <> 0.
Proof.
  intros Ht HA Hx Hk Hfb. pose proof (tr_rng _ _ _ Ht i _ (InInode NDIRECT) HA ltac:(done) Hx) as Hr. cbn [ptr] in Hr. fold x in Hr.
  pose proof (tr_fb _ _ _ Ht) as H63. rewrite nmeta_eq in *.
  assert (Ez : z = get32 (img s x) (4 * k)). { unfold z, p. cbn [ptr]. fold x. unfold entry. by rewrite (proj2 (Z.eqb_neq _ _) Hx). }
  mby (rsect_ok x s ltac:(lia)). rewrite (proj2 (Z.leb_gt _ _)) by lia. cbv zeta. rewrite <- Ez. destruct (Z.eqb_spec z 0) as [E|E].
  - rewrite decide_True by done. mby (take_block_ok s). mby (wsect_ok x (put32 (img s x) (4 * k) (freeblock s)) (set_freeblock (freeblock s + 1) s) ltac:(cbn; lia)).
    eexists _, _. split; [done|]. pose proof (gave_slot _ _ _ _ _ k Ht HA Hx Hk ltac:(unfold is_u32; lia) E) as Hg. split.
    + eexists _, (i_addrs din). split_and!; [by destruct din|done|exact Hg].
    + split; [|lia]. symmetry.
      change (ptr (<[x := put32 (img s x) (4 * k) (freeblock s)]> (img s)) (i_addrs din) p = freeblock s).
      pose proof (ptr_slot _ _ _ i _ k i _ p Ht HA Hx Hk ltac:(unfold is_u32; lia) HA Hk) as Hp. by rewrite decide_True in Hp.
  - rewrite decide_False by done. eexists _, _. split; [done|]. split_and!; [by apply appended_refl|done|done].
Qed.

Lemma appended_trans s0 din0 s1 din1 s2 din2 As i ps qs :
  As !! i = Some (i_addrs din0) -> appended s0 s1 din0 din1 As i ps -> appended s1 s2 din1 din2 (<[i := i_addrs din1]> As) i qs ->
  appended s0 s2 din0 din2 As i (ps ++ qs).
Proof.
  intros HA (v1 & A1 & -> & -> & G1) (v2 & A2 & -> & -> & G2). cbn in G1, G2. exists v2, A2. split_and!; [by destruct din0| |].
  - cbn. f_equal. rewrite length_app. lia.
  - cbn. by eapply gave_trans.
Qed.

Lemma iappend_block_ok s din As i fbn (ps := missing (img s) (i_addrs din) fbn) :
  trees (img s) (freeblock s) As -> As !! i = Some (i_addrs din) -> 0 <= fbn < small_blocks ->
  freeblock s + Z.of_nat (length ps) <= isize s < 2 ^ 32 ->
  exists din' x s', iappend_block din fbn s = Ok ((din', x), s') /\ appended s s' din din' As i ps /\ x = ptr (img s') (i_addrs din') (place_of fbn) /\ x <> 0.
Proof.
  intros Ht HA Hf Hsz. unfold iappend_block, small_blocks in *. subst ps. unfold missing, place_of in *. destruct (Z.ltb_spec fbn NDIRECT) as [Hl|Hl].
  - rewrite (decide_False (P := NDIRECT <= fbn /\ _)) in * by lia. cbn [app ptr] in *. destruct (Z.eqb_spec (nth (Z.to_nat fbn) (i_addrs din) 0) 0) as [E|E].
    + rewrite decide_True in * by done. mby (take_block_ok s). eexists _, _, _. split; [done|].
      pose proof (gave_direct _ _ _ _ _ fbn Ht HA ltac:(lia) E) as Hg. split; [by eexists _, _|]. cbn.
      pose proof (ptr_direct _ _ _ i _ fbn (InInode fbn) Ht HA ltac:(lia) E) as Hp. rewrite decide_True in Hp by done. cbn in Hp.
      pose proof (tr_fb _ _ _ Ht) as Hfb. rewrite nmeta_eq in Hfb. rewrite Hp by (fsconst; lia). lia.
    + rewrite decide_False in * by done. exists din, (nth (Z.to_nat fbn) (i_addrs din) 0), s. split_and!; [done|by apply appended_refl|done|done].
  - rewrite (proj2 (Z.ltb_lt (fbn - NDIRECT) NINDIRECT)) in * by lia. set (p := InInd (fbn - NDIRECT)) in *.
    destruct (append_ind s din As i Ht HA) as (din1 & s1 & R1 & H1 & Hx). mby R1.
    set (ps := if decide (nth _ _ 0 = 0) then _ else _) in H1. set (qs := if decide (ptr (img s) _ p = 0) then [p] else []) in *.
    assert (Eps : (if decide (NDIRECT <= fbn /\ ptr (img s) (i_addrs din) (InInode NDIRECT) = 0) then [InInode NDIRECT] else []) = ps).
    { unfold ps. cbn [ptr]. destruct (decide (nth _ _ 0 = 0)) as [E|E]; [by rewrite decide_True|]. rewrite decide_False; [done|tauto]. }
    rewrite Eps in *. rewrite length_app in Hsz. pose proof H1 as (v1 & A1 & Ed & Es & G1). subst din1 s1. cbn [img freeblock i_addrs set_i_addrs] in *.
    assert (Hmine : ptr v1 A1 p = ptr (img s) (i_addrs din) p).
    { apply (gv_mine _ _ _ _ _ _ _ _ _ G1); [cbn; fsconst; lia|]. unfold ps. destruct (decide (nth _ _ 0 = 0)); [|apply not_elem_of_nil].
      by intros ?%list_elem_of_singleton. }
    destruct (append_slot (mkmk v1 (isize s) (freeinode s) (freeblock s + Z.of_nat (length ps))) (set_i_addrs A1 din) (<[i := A1]> As) i (fbn - NDIRECT))
      as (y & s2 & R2 & H2 & Ey & Hy); cbn [img freeblock isize i_addrs set_i_addrs]; [apply G1| |done|lia|lia|].
    + apply list_lookup_insert_eq. by eapply lookup_lt_Some.
    + exists (set_i_addrs A1 din), y, s2. split; [exact R2|]. split; [|done]. cbn [img i_addrs set_i_addrs] in H2. fold p in H2. rewrite Hmine in H2.
      by eapply appended_trans.
Qed.

(** Writing a block of contents. *)
Lemma trees_leaf v fb As i A p m (x := ptr v A p) (v' := <[x := m]> v) :
  trees v fb As -> As !! i = Some A -> place_ok p -> is_leaf p -> x <> 0 ->
  (forall j B q, As !! j = Some B -> ptr v' B q = ptr v B q) /\ trees v' fb As.
Proof.
  intros Ht HA Hp Hl Hx.
  assert (Hptr : forall j B q, As !! j = Some B -> ptr v' B q = ptr v B q).
  { intros j B q HB. apply ptr_ext; [by apply (tr_node _ _ _ Ht j)|]. intros H0. apply fn_lookup_insert_ne. intros E.
    destruct (tr_inj _ _ _ Ht i A p j B (InInode NDIRECT)) as [_ ->]; done. }
  split; [done|]. pose proof (tr_rng _ _ _ Ht _ _ _ HA Hp Hx) as Hr. fold x in Hr. destruct Ht as [H1 H2 H3 H4 H5]. split; try done.
  - intros b o Hb. unfold v'. rewrite fn_lookup_insert_ne by lia. by apply H2.
  - intros j B q HB Hq. rewrite (Hptr j) by done. eauto.
  - intros j B q k C r HB HC Hq Hrk. rewrite (Hptr j), (Hptr k) by done. eauto.
Qed.

(** ** The contents of the files *)

(** The blocks that a file of [n] bytes takes. *)
Definition cost (n : Z) : Z := (n + BSIZE - 1) / BSIZE + (if NDIRECT * BSIZE <? n then 1 else 0).
Definition size_of (l : list Z) : Z := Z.of_nat (length l).
Lemma size_app a b : size_of (a ++ b) = size_of a + size_of b.
Proof. unfold size_of. rewrite length_app. lia. Qed.

Fixpoint total (Ls : list (list Z)) : Z :=
  match Ls with
  | [] => 0
  | l :: Ls' => cost (size_of l) + total Ls'
  end.

Lemma total_insert Ls i l l' : Ls !! i = Some l -> total (<[i := l']> Ls) = total Ls - cost (size_of l) + cost (size_of l').
Proof.
  revert i. induction Ls as [|k Ls IH]; intros [|i] H; try done; cbn [lookup list_lookup insert list_insert total] in *.
  - injection H as ->. lia.
  - rewrite IH by done. lia.
Qed.

Lemma total_snoc Ls l : total (Ls ++ [l]) = total Ls + cost (size_of l).
Proof. induction Ls as [|k Ls IH]; cbn [app total]; [lia|]. rewrite IH. lia. Qed.

Lemma cost_mono a b : a <= b -> cost a <= cost b.
Proof.
  intros H. unfold cost. fsconst. pose proof (Z.div_le_mono (a + 512 - 1) (b + 512 - 1) 512).
  destruct (Z.ltb_spec (11 * 512) a), (Z.ltb_spec (11 * 512) b); lia.
Qed.

(** A file of [n] bytes has the blocks it needs and no other. *)
Record extent (v : Z -> mem) (A : list Z) (n : Z) : Prop := {
  ex_max : n <= small_blocks * BSIZE;
  ex_data : forall bn, 0 <= bn < small_blocks -> ptr v A (place_of bn) <> 0 <-> bn * BSIZE < n;
  ex_ind : ptr v A (InInode NDIRECT) <> 0 <-> NDIRECT * BSIZE < n
}.

(** The files of an image, by their contents. *)
Record laid (v : Z -> mem) (fb : Z) (As Ls : list (list Z)) : Prop := {
  la_trees : trees v fb As;
  la_len : length As = length Ls;
  la_count : fb = nmeta + total Ls;
  la_bytes : forall i A l o, As !! i = Some A -> Ls !! i = Some l -> 0 <= o < MAXFILE * BSIZE ->
    file_byte v A o = nth (Z.to_nat o) l 0;
  la_ext : forall i A l, As !! i = Some A -> Ls !! i = Some l -> extent v A (size_of l)
}.

(** Appending [n1] bytes inside one block. *)
Lemma missing_cost v A n n1 (fbn := n / BSIZE) :
  extent v A n -> 0 <= n -> 0 < n1 -> n + n1 <= (fbn + 1) * BSIZE -> fbn < small_blocks ->
  cost (n + n1) = cost n + Z.of_nat (length (missing v A fbn)).
Proof.
  intros [_ Hd Hi] Hn Hn1 Hle Hf. unfold missing, cost. specialize (Hd fbn ltac:(unfold fbn; fsconst; zlia)).
  assert (E1 : (NDIRECT <= fbn /\ ptr v A (InInode NDIRECT) = 0) <-> n = 5632).
  { unfold fbn in *. fsconst. destruct (decide (ptr v A (InInode 11) = 0)) as [E|E]; split; intros; try (exfalso; zlia).
    - assert (~ 11 * 512 < n) by tauto. zlia.
    - split; [zlia|done]. }
  assert (E2 : ptr v A (place_of fbn) = 0 <-> n mod 512 = 0).
  { unfold fbn in *. fsconst. destruct (decide (ptr v A (place_of (n / 512)) = 0)) as [E|E]; split; intros; try done.
    - assert (~ n / 512 * 512 < n) by tauto. zlia.
    - apply Hd in E. zlia. }
  rewrite length_app. destruct (decide (NDIRECT <= fbn /\ _)) as [H1|H1]; rewrite E1 in H1;
    destruct (decide (ptr v A (place_of fbn) = 0)) as [H2|H2]; rewrite E2 in H2; clear - H1 H2 Hn Hn1 Hle Hf; unfold fbn, small_blocks in *; fsconst; cbn [length];
    destruct (Z.ltb_spec (11 * 512) (n + n1)), (Z.ltb_spec (11 * 512) n); zlia.
Qed.

Lemma leaf_bytes v fb As i A p m (x := ptr v A p) j B o :
  trees v fb As -> As !! i = Some A -> place_ok p -> is_leaf p -> x <> 0 -> As !! j = Some B -> 0 <= o < MAXFILE * BSIZE ->
  file_byte (<[x := m]> v) B o = if decide (j = i /\ place_of (o / BSIZE) = p) then m (o mod BSIZE) else file_byte v B o.
Proof.
  intros Ht HA Hp Hl Hx HB Ho. destruct (trees_leaf v fb As i A p m Ht HA Hp Hl Hx) as [Hptr _].
  destruct (place_of_ok (o / BSIZE)) as [Hok Hlo]; [fsconst; zlia|]. unfold file_byte. fold x in Hptr. rewrite (Hptr j B) by done.
  destruct (decide _) as [[-> Hpo]|Hne].
  - assert (B = A) as -> by congruence. rewrite Hpo. fold x. by rewrite (proj2 (Z.eqb_neq _ _) Hx), fn_lookup_insert.
  - destruct (Z.eqb_spec (ptr v B (place_of (o / BSIZE))) 0) as [E|E]; [done|]. rewrite fn_lookup_insert_ne; [done|]. intros Ex.
    apply Hne. by destruct (tr_inj _ _ _ Ht i A p j B (place_of (o / BSIZE))) as [-> ->].
Qed.

Lemma nth_append (l p : list Z) m k :
  0 <= m <= size_of p -> 0 <= k ->
  nth (Z.to_nat k) (l ++ take (Z.to_nat m) p) 0 =
  if (size_of l <=? k) && (k <? size_of l + m) then nth (Z.to_nat (k - size_of l)) p 0 else nth (Z.to_nat k) l 0.
Proof.
  unfold size_of. intros Hm Hk. destruct (Z.leb_spec (Z.of_nat (length l)) k) as [H|H]; cbn [andb]; [|by rewrite app_nth1 by lia].
  rewrite app_nth2 by lia. replace (Z.to_nat k - length l)%nat with (Z.to_nat (k - Z.of_nat (length l))) by lia.
  destruct (Z.ltb_spec k (Z.of_nat (length l) + m)) as [H'|H'].
  - rewrite <- (take_drop (Z.to_nat m) p) at 2. rewrite app_nth1; [done|]. rewrite length_take. lia.
  - rewrite !nth_overflow; [done|lia|]. rewrite length_take. lia.
Qed.

Lemma elem_of_missing v A fbn q :
  q ∈ missing v A fbn <->
  ((q = InInode NDIRECT /\ NDIRECT <= fbn) \/ q = place_of fbn) /\ ptr v A q = 0.
Proof.
  unfold missing. rewrite elem_of_app. split.
  - intros [H|H]; [destruct (decide (_ /\ _)) as [[? ?]|?]|destruct (decide (ptr v A (place_of fbn) = 0))];
      try (by apply elem_of_nil in H); apply list_elem_of_singleton in H as ->; tauto.
  - intros [[[-> H1]| ->] H2]; [left; rewrite decide_True by done|right; rewrite decide_True by done]; by left.
Qed.

Lemma extent_append v A n n1 v' A' (fbn := n / BSIZE) :
  extent v A n -> 0 <= n -> 0 < n1 -> n + n1 <= (fbn + 1) * BSIZE -> fbn < small_blocks ->
  (forall q, place_ok q -> q ∉ missing v A fbn -> ptr v' A' q = ptr v A q) ->
  (forall q, q ∈ missing v A fbn -> place_ok q /\ ptr v A q = 0 /\ ptr v' A' q <> 0) ->
  extent v' A' (n + n1).
Proof.
  intros [Hm Hd Hi] Hn Hn1 Hle Hf Hold Hnew.
  assert (Hplace : forall bn, 0 <= bn < small_blocks -> place_ok (place_of bn) /\ is_leaf (place_of bn)).
  { intros bn Hbn. apply place_of_ok. unfold small_blocks in Hbn. fsconst. lia. }
  assert (Hnot : forall bn, 0 <= bn < small_blocks -> place_of bn <> InInode NDIRECT).
  { intros bn Hbn E. destruct (Hplace bn Hbn) as [_ Hl]. by rewrite E in Hl. }
  assert (Hpos : forall q, place_ok q -> (q = InInode NDIRECT /\ NDIRECT <= fbn) \/ q = place_of fbn -> ptr v' A' q <> 0).
  { intros q Hq Hor. destruct (decide (ptr v A q = 0)) as [E|E].
    - apply Hnew. by rewrite elem_of_missing.
    - rewrite Hold; [done|done|]. rewrite elem_of_missing. tauto. }
  assert (Hfb : 0 <= fbn) by (unfold fbn; fsconst; zlia). split.
  - unfold small_blocks in *. fsconst. lia.
  - intros bn Hbn. destruct (Hplace bn Hbn) as [Hpo Hpl]. destruct (decide (bn = fbn)) as [->|Hne].
    + split; [intros _; unfold fbn in *; fsconst; zlia|intros _]. apply Hpos; [done|by right].
    + rewrite Hold, Hd; [unfold fbn in *; fsconst; zlia|done|done|]. rewrite elem_of_missing. intros [[[Hin _]|Hin] _]; [by eapply Hnot|].
      apply place_of_inj in Hin; [done|..]; unfold small_blocks in *; fsconst; lia.
  - assert (Hdec : NDIRECT * BSIZE < n + n1 <-> NDIRECT <= fbn) by (unfold fbn in *; fsconst; zlia). rewrite Hdec.
    destruct (decide (NDIRECT <= fbn)) as [H1|H1].
    + split; [done|]. intros _. apply Hpos; [done|by left].
    + rewrite Hold, Hi; [split; [lia|done]|done|]. rewrite elem_of_missing. intros [[[_ ?]|Hin] _]; [done|].
      by eapply Hnot; [|symmetry].
Qed.

Lemma laid_append v fb As Ls i A l p n1 v1 fb1 A1 (n := size_of l) (fbn := n / BSIZE) (x := ptr v1 A1 (place_of fbn)) :
  laid v fb As Ls -> As !! i = Some A -> Ls !! i = Some l -> fbn < small_blocks ->
  gave v fb As i A v1 fb1 A1 (missing v A fbn) -> x <> 0 ->
  0 < n1 <= size_of p -> n + n1 <= (fbn + 1) * BSIZE ->
  laid (<[x := put_bytes (v1 x) (n - fbn * BSIZE) (fun k => nth (Z.to_nat k) p 0) 0 n1]> v1) fb1 (<[i := A1]> As)
    (<[i := l ++ take (Z.to_nat n1) p]> Ls).
Proof.
  intros [Ht Hlen Hc Hb He] HA Hl Hf [T1 O1 M1 N1 F1 B1 L1] Hx Hn1 Hle.
  assert (Hn : 0 <= n) by (unfold n, size_of; lia). assert (Hfb : 0 <= fbn) by (unfold fbn; fsconst; zlia).
  pose proof (He i A l HA Hl) as Hex. fold n in Hex.
  assert (Hn' : size_of (l ++ take (Z.to_nat n1) p) = n + n1).
  { unfold n, size_of in *. rewrite length_app, length_take. lia. }
  assert (HA1 : <[i := A1]> As !! i = Some A1) by (apply list_lookup_insert_eq; by eapply lookup_lt_Some).
  destruct (place_of_ok fbn) as [Hpo Hpl]; [unfold small_blocks in Hf; fsconst; lia|].
  destruct (trees_leaf v1 fb1 _ i A1 (place_of fbn) (put_bytes (v1 x) (n - fbn * BSIZE) (fun k => nth (Z.to_nat k) p 0) 0 n1) T1 HA1 Hpo Hpl Hx)
    as [Hptr Ht']. fold x in Hptr, Ht'. split.
  - done.
  - by rewrite !length_insert.
  - rewrite (total_insert _ _ _ _ Hl), Hn', F1, Hc. rewrite (missing_cost v A n n1) by done || lia. fold n fbn. lia.
  - intros j B k o HB HL Ho. rewrite (leaf_bytes v1 fb1 _ i A1 (place_of fbn) _ j B o T1 HA1 Hpo Hpl Hx HB Ho).
    assert (exists B0, As !! j = Some B0) as (B0 & HB0).
    { apply lookup_lt_is_Some. apply lookup_lt_Some in HB. by rewrite length_insert in HB. }
    pose proof (B1 j B0 B o HB0 HB Ho) as Eold. apply list_lookup_insert_Some in HL as [(<- & <- & _)|(Hne & HL)].
    + assert (B0 = A) as -> by congruence. assert (B = A1) as -> by congruence.
      rewrite Eold, (Hb i A l o HA Hl Ho), nth_append by lia. rewrite (Hb i A l o HA Hl Ho) in Eold. fold n.
      destruct (decide _) as [[_ Hpl']|Hpl'].
      * unfold file_byte in Eold. rewrite Hpl' in Eold. fold x in Eold. rewrite (proj2 (Z.eqb_neq _ _) Hx) in Eold.
        apply place_of_inj in Hpl'; [|fsconst; zlia|unfold small_blocks in *; fsconst; lia].
        unfold put_bytes. rewrite Eold. rewrite <- Hpl' in *. clear - Hpl' Hle Hn Ho. fsconst. 
        replace (n - o / 512 * 512 <=? o mod 512) with (n <=? o) by (apply Bool.eq_iff_eq_true; rewrite !Z.leb_le; zlia).
        replace (o mod 512 <? n - o / 512 * 512 + n1) with (o <? n + n1) by (apply Bool.eq_iff_eq_true; rewrite !Z.ltb_lt; zlia).
        destruct (_ && _); [|done]. do 2 f_equal. zlia.
      * rewrite (proj2 (andb_false_iff _ _)); [done|]. rewrite Z.leb_gt, Z.ltb_ge.
        destruct (decide (o / BSIZE = fbn)) as [E|E]; [rewrite E in Hpl'; tauto|]. clear - E Hle Hn Ho. unfold fbn in *. fsconst. zlia.
    + rewrite decide_False by (intros [? _]; congruence). rewrite Eold. assert (B = B0) as -> by (rewrite list_lookup_insert_ne in HB by done; congruence). by apply (Hb j).
  - intros j B k HB HL. apply list_lookup_insert_Some in HL as [(<- & <- & _)|(Hne & HL)].
    + assert (B = A1) as -> by congruence. rewrite Hn'. eapply (extent_append v A); try done; [lia| |].
      * intros q Hq Hin. rewrite (Hptr i A1) by done. by apply M1.
      * intros q Hin. rewrite (Hptr i A1) by done. by apply N1.
    + rewrite list_lookup_insert_ne in HB by done. destruct (He j B k HB HL) as [E1 E2 E3].
      assert (Hsame : forall q, place_ok q -> ptr (<[x := put_bytes (v1 x) (n - fbn * BSIZE) (fun k => nth (Z.to_nat k) p 0) 0 n1]> v1) B q = ptr v B q).
      { intros q Hq. rewrite (Hptr j B) by (by rewrite list_lookup_insert_ne). by apply (O1 j). }
      split; [done| |by rewrite Hsame]. intros bn Hbn. rewrite Hsame; [by apply E2|]. apply place_of_ok. unfold small_blocks in Hbn. fsconst. lia.
Qed.

Lemma iappend_loop_ok fuel : forall s din As Ls i l p,
  laid (img s) (freeblock s) As Ls -> As !! i = Some (i_addrs din) -> Ls !! i = Some l -> (length p <= fuel)%nat ->
  size_of l + size_of p <= small_blocks * BSIZE ->
  nmeta + total Ls - cost (size_of l) + cost (size_of l + size_of p) <= isize s < 2 ^ 32 ->
  exists A' v' fb', iappend_loop fuel din (size_of l) p s =
      Ok ((set_i_addrs A' din, size_of l + size_of p), mkmk v' (isize s) (freeinode s) fb') /\
    laid v' fb' (<[i := A']> As) (<[i := l ++ p]> Ls) /\ forall b, b < nmeta -> v' b = img s b.
Proof.
  induction fuel as [|fuel IH]; intros s din As Ls i l p Hla HA Hl Hfuel Hmax Hsz.
  all: destruct p as [|c p]; [|try (cbn in Hfuel; lia)].
  1, 2: exists (i_addrs din), (img s), (freeblock s); rewrite app_nil_r, !list_insert_id by done;
    split_and!; [cbn; unfold mret; do 3 f_equal; [by destruct din|unfold size_of; cbn; lia|by destruct s]|done|done].
  set (q := c :: p) in *. cbn [iappend_loop]. fold q. change (match q with [] => _ | _ :: _ => ?x end) with x.
  set (n := size_of l) in *. set (fbn := n / BSIZE). assert (Hn : 0 <= n) by (unfold n, size_of; lia).
  assert (Hq : 0 < size_of q) by (unfold q, size_of; cbn; lia).
  assert (Hf : 0 <= fbn < small_blocks) by (unfold fbn, small_blocks in *; fsconst; zlia).
  rewrite (proj2 (Z.ltb_lt fbn MAXFILE)) by (unfold small_blocks in Hf; fsconst; lia). cbn [negb].
  set (n1 := Z.min (Z.of_nat (length q)) ((fbn + 1) * BSIZE - n)). fold (size_of q) in n1.
  assert (Hn1 : 0 < n1 <= size_of q /\ n + n1 <= (fbn + 1) * BSIZE) by (unfold n1, fbn; fsconst; zlia).
  pose proof Hla as [Ht Hlen Hc Hb He]. pose proof (He i _ l HA Hl) as Hex.
  pose proof (missing_cost _ _ n n1 Hex ltac:(lia) ltac:(lia) ltac:(apply Hn1) ltac:(apply Hf)) as Hmc. fold fbn in Hmc.
  pose proof (cost_mono (n + n1) (n + size_of q) ltac:(lia)) as Hmono.
  destruct (iappend_block_ok s din As i fbn Ht HA Hf ltac:(lia)) as (din1 & x & s1 & R & (v1 & A1 & -> & -> & G) & Ex & Hx).
  cbn [img freeblock i_addrs set_i_addrs] in G, Ex. mby R. assert (Hx' : ptr v1 A1 (place_of fbn) <> 0) by (by rewrite <- Ex).
  pose proof (gv_trees _ _ _ _ _ _ _ _ _ G) as Ht1.
  assert (HA1 : <[i := A1]> As !! i = Some A1) by (apply list_lookup_insert_eq; by eapply lookup_lt_Some).
  destruct (place_of_ok fbn) as [Hpo Hpl]; [unfold small_blocks in Hf; fsconst; lia|].
  pose proof (tr_rng _ _ _ Ht1 i A1 (place_of fbn) HA1 Hpo Hx') as Hr. rewrite <- Ex in Hr.
  set (s1 := mkmk v1 _ _ _). mby (rsect_ok x s1 ltac:(cbn; lia)).
  set (m := put_bytes _ _ _ _ _). mby (wsect_ok x m s1 ltac:(cbn; lia)).
  pose proof (laid_append _ _ _ _ _ _ l q n1 _ _ _ Hla HA Hl ltac:(apply Hf) G Hx' ltac:(lia) ltac:(apply Hn1)) as Hla1.
  fold n fbn in Hla1. rewrite <- Ex in Hla1.
  assert (Hs1 : size_of (l ++ take (Z.to_nat n1) q) = n + n1) by (unfold n, size_of in *; rewrite length_app, length_take; lia).
  assert (Hs2 : size_of (drop (Z.to_nat n1) q) = size_of q - n1) by (unfold size_of in *; rewrite length_drop; lia).
  destruct (IH (set_img (<[x := m]> v1) s1) (set_i_addrs A1 din) (<[i := A1]> As) (<[i := l ++ take (Z.to_nat n1) q]> Ls) i
    (l ++ take (Z.to_nat n1) q) (drop (Z.to_nat n1) q)) as (A2 & v2 & fb2 & R2 & Hla2 & Hlow).
  - done.
  - done.
  - apply list_lookup_insert_eq. by eapply lookup_lt_Some.
  - rewrite length_drop. unfold size_of in Hn1. lia.
  - lia.
  - rewrite (total_insert _ _ _ _ Hl), Hs1, Hs2. cbn [isize s1 set_img]. replace (n + n1 + (size_of q - n1)) with (n + size_of q) by lia. fold n. lia.
  - exists A2, v2, fb2. rewrite Hs1, Hs2 in R2. rewrite !list_insert_insert_eq, <- app_assoc, take_drop in Hla2. split_and!; [|done|].
    + etransitivity; [exact R2|]. do 3 f_equal. lia.
    + intros b Hb'. rewrite Hlow by done. cbn. rewrite fn_lookup_insert_ne by lia. by apply (gv_low _ _ _ _ _ _ _ _ _ G).
Qed.

(** The blocks before the data do not matter for it. *)
Lemma laid_low v v' fb As Ls : (forall b, nmeta <= b -> v' b = v b) -> laid v fb As Ls -> laid v' fb As Ls.
Proof.
  intros Hv [Ht Hlen Hc Hb He].
  assert (Hptr : forall i A q, As !! i = Some A -> ptr v' A q = ptr v A q).
  { intros i A q HA. apply ptr_ext; [by apply (tr_node _ _ _ Ht i)|]. intros H0. apply Hv.
    by apply (tr_rng _ _ _ Ht i A (InInode NDIRECT)). }
  split; try done.
  - destruct Ht as [H1 H2 H3 H4 H5]. split; try done.
    + intros b o Hb'. rewrite Hv by lia. by apply H2.
    + intros i A q HA Hq. rewrite (Hptr i) by done. eauto.
    + intros i A q j B r HA HB Hq Hr. rewrite (Hptr i), (Hptr j) by done. eauto.
  - intros i A l o HA Hl Ho. rewrite <- (Hb i A l o) by done. apply file_byte_same; [done|]. intros q Hq _. rewrite (Hptr i) by done.
    destruct (decide _) as [E|E]; [by left|]. split; [done|]. apply Hv. by apply (tr_rng _ _ _ Ht i).
  - intros i A l HA Hl. destruct (He i A l HA Hl) as [E1 E2 E3]. split; [done|..].
    + intros bn Hbn. rewrite (Hptr i) by done. by apply E2.
    + by rewrite (Hptr i).
Qed.

(** ** The inodes on the image *)

Lemma mk_iblock n : 0 <= n < NINODES -> IBLOCK n mk_sb = n / IPB + 32 /\ 32 <= IBLOCK n mk_sb < 58.
Proof.
  unfold NINODES. intros Hn. assert (E : IBLOCK n mk_sb = n / IPB + 32).
  { unfold IBLOCK. change (sb_inodestart mk_sb) with 32. change IPB with 8. apply u32_small. unfold is_u32. zlia. }
  split; [done|]. rewrite E. change IPB with 8. zlia.
Qed.

Definition dinode_at (v : Z -> mem) (n : Z) : inode := get_dinode (dinode_off n) (v (IBLOCK n mk_sb)) no_inode.
Definition dnode (type : Z) (A : list Z) (size : Z) : inode := mkinode 0 0 0 sl_free 0 type 0 0 1 size A.

Lemma rinode_ok n s : 0 <= n < NINODES -> isize s = FSSIZE -> rinode n s = Ok (dinode_at (img s) n, s).
Proof.
  intros Hn Hs. unfold rinode. destruct (mk_iblock n Hn) as [_ H]. mby (rsect_ok (IBLOCK n mk_sb) s ltac:(rewrite Hs; unfold FSSIZE; lia)). done.
Qed.

Lemma winode_ok n T A size s :
  0 <= n < NINODES -> isize s = FSSIZE -> inode_ok (dnode T A size) ->
  exists v', winode n (dnode T A size) s = Ok (tt, set_img v' s) /\ (forall b, b < 32 \/ 58 <= b -> v' b = img s b) /\
    dinode_at v' n = dnode T A size /\ forall m, 0 <= m < NINODES -> m <> n -> dinode_at v' m = dinode_at (img s) m.
Proof.
  intros Hn Hs Hok. destruct (mk_iblock n Hn) as [En H]. assert (Hb : IBLOCK n mk_sb < isize s) by (rewrite Hs; unfold FSSIZE; lia).
  unfold winode. mby (rsect_ok (IBLOCK n mk_sb) s Hb). rewrite wsect_ok by done. eexists. split; [done|]. split_and!.
  - intros b Hb'. rewrite fn_lookup_insert_ne by lia. done.
  - unfold dinode_at. rewrite fn_lookup_insert, get_put_dinode by done. done.
  - intros m Hm Hne. unfold dinode_at. destruct (mk_iblock m Hm) as [Em _].
    destruct (decide (IBLOCK m mk_sb = IBLOCK n mk_sb)) as [E|E]; [|by rewrite fn_lookup_insert_ne by done].
    rewrite E, fn_lookup_insert. apply get_dinode_ext. intros b Hb'. apply put_dinode_out; [apply Hok|].
    destruct (dinode_slots m n Hne); lia.
Qed.

(** The image while [mkfs] runs: inode [k + 1] is file [k] of [X], a type with
    contents. *)
Record img_rep (s : mkst) (X : list (Z * list Z)) : Prop := {
  ir_size : isize s = FSSIZE;
  ir_inum : freeinode s = Z.of_nat (length X) + 1;
  ir_max : Z.of_nat (length X) < NINODES;
  ir_sb : img s 1 = put_sb mk_sb (fun _ => 0);
  ir_log : forall b o, 2 <= b < 32 -> img s b o = 0;
  ir_free : forall n, Z.of_nat (length X) < n < NINODES -> i_type (dinode_at (img s) n) = 0;
  ir_files : exists As, laid (img s) (freeblock s) As X.*2 /\ 
    forall k T l A, X !! k = Some (T, l) -> As !! k = Some A ->
      is_s16 T /\ dinode_at (img s) (Z.of_nat k + 1) = dnode T A (size_of l)
}.

Lemma dnode_ok v fb As i A T n :
  trees v fb As -> As !! i = Some A -> fb <= FSSIZE -> is_s16 T -> is_u32 n -> inode_ok (dnode T A n).
Proof.
  intros Ht HA Hfb HT Hn. destruct (tr_node _ _ _ Ht i A HA) as [Hl _]. split; cbn; try done.
  apply Forall_lookup. intros k x Hx. unfold is_u32. apply lookup_lt_Some in Hx as Hk. rewrite Hl in Hk. 
  destruct (decide (x = 0)) as [->|Hne]; [lia|].
  assert (E : ptr v A (InInode (Z.of_nat k)) = x) by (cbn; rewrite Nat2Z.id, nth_lookup, Hx; done).
  pose proof (tr_rng _ _ _ Ht i A (InInode (Z.of_nat k)) HA) as Hr. rewrite E, nmeta_eq in Hr. unfold FSSIZE in Hfb.
  specialize (Hr ltac:(cbn; fsconst; lia) Hne). lia.
Qed.

Lemma iappend_ok s X k T l p :
  img_rep s X -> X !! k = Some (T, l) -> size_of l + size_of p <= small_blocks * BSIZE ->
  nmeta + total (X.*2) - cost (size_of l) + cost (size_of l + size_of p) <= FSSIZE ->
  exists s', iappend (Z.of_nat k + 1) p s = Ok (tt, s') /\ img_rep s' (<[k := (T, l ++ p)]> X).
Proof.
  intros [Hsz Hin Hmax Hsb Hlog Hfree (As & Hla & Hnode)] HX Hs Htot.
  assert (Hl : X.*2 !! k = Some l) by (rewrite list_lookup_fmap, HX; done).
  assert (exists A, As !! k = Some A) as (A & HA).
  { apply lookup_lt_is_Some. rewrite (la_len _ _ _ _ Hla), length_fmap. by eapply lookup_lt_Some. }
  destruct (Hnode k T l A HX HA) as [HT Hd]. apply lookup_lt_Some in HX as Hk.
  assert (Hn : 0 <= Z.of_nat k + 1 < NINODES) by lia. unfold iappend. mby (rinode_ok _ s Hn Hsz). rewrite Hd. cbn [i_size dnode].
  destruct (iappend_loop_ok (S (length p)) s (dnode T A (size_of l)) As X.*2 k l p Hla HA Hl ltac:(lia) Hs) as (A' & v' & fb' & R & Hla' & Hlow).
  { rewrite Hsz. unfold FSSIZE in *. lia. }
  mby R. change (set_i_size (size_of l + size_of p) (set_i_addrs A' (dnode T A (size_of l)))) with (dnode T A' (size_of l + size_of p)).
  assert (HA' : <[k := A']> As !! k = Some A') by (apply list_lookup_insert_eq; by eapply lookup_lt_Some).
  assert (Hsl : size_of (l ++ p) = size_of l + size_of p) by (unfold size_of; rewrite length_app; lia).
  pose proof (la_count _ _ _ _ Hla') as Hc. rewrite (total_insert _ _ _ _ Hl), Hsl in Hc.
  assert (Hok : inode_ok (dnode T A' (size_of l + size_of p))).
  { apply (dnode_ok v' fb' (<[k := A']> As) k); [apply Hla'|done|lia|done|].
    unfold small_blocks, size_of, is_u32 in *. fsconst. lia. }
  destruct (winode_ok (Z.of_nat k + 1) T A' (size_of l + size_of p) (mkmk v' (isize s) (freeinode s) fb') Hn Hsz Hok) as (v2 & R2 & Hout & Hnew & Hother).
  rewrite R2. eexists. split; [done|]. cbn [img freeblock isize freeinode set_img] in *.
  assert (H63 : forall b, 0 <= b < NINODES -> dinode_at v' b = dinode_at (img s) b).
  { intros b Hb. unfold dinode_at. rewrite Hlow; [done|]. destruct (mk_iblock b Hb). rewrite nmeta_eq. lia. }
  split; cbn [img freeblock isize freeinode set_img]; rewrite ?length_insert; try done.
  - rewrite Hout, Hlow by (rewrite ?nmeta_eq; lia). done.
  - intros b o Hb. rewrite Hout, Hlow by (rewrite ?nmeta_eq; lia). by apply Hlog.
  - intros n Hb. rewrite Hother, H63 by lia. by apply Hfree.
  - exists (<[k := A']> As). rewrite list_fmap_insert. split.
    + eapply laid_low; [|exact Hla']. intros b Hb. apply Hout. rewrite nmeta_eq in Hb. lia.
    + intros j T' l' B HX' HB. apply list_lookup_insert_Some in HX' as [(<- & [= <- <-] & _)|(Hne & HX')].
      * assert (B = A') as -> by congruence. by rewrite Hsl.
      * rewrite list_lookup_insert_ne in HB by done. apply lookup_lt_Some in HX' as Hj. rewrite Hother, H63 by lia. eauto.
Qed.

(** [iappend] handles the indirect block only: the first byte after [small_blocks]
    is looked up past the end of the array [indirect], although it is below
    [MAXFILE], the bound that the assertion tests. *)
Lemma iappend_large_undef s X k T l p :
  img_rep s X -> X !! k = Some (T, l) -> size_of l = small_blocks * BSIZE -> p <> [] ->
  freeblock s <= FSSIZE -> iappend (Z.of_nat k + 1) p s = Undef.
Proof.
  intros [Hsz Hin Hmax Hsb Hlog Hfree (As & Hla & Hnode)] HX Hs Hp Hfb.
  assert (Hl : X.*2 !! k = Some l) by (rewrite list_lookup_fmap, HX; done).
  assert (exists A, As !! k = Some A) as (A & HA).
  { apply lookup_lt_is_Some. rewrite (la_len _ _ _ _ Hla), length_fmap. by eapply lookup_lt_Some. }
  destruct (Hnode k T l A HX HA) as [_ Hd]. apply lookup_lt_Some in HX as Hk.
  assert (Hx : nth (Z.to_nat NDIRECT) A 0 <> 0) by (apply (ex_ind _ _ _ (la_ext _ _ _ _ Hla k A l HA Hl)); rewrite Hs; done).
  pose proof (tr_rng _ _ _ (la_trees _ _ _ _ Hla) k A (InInode NDIRECT) HA ltac:(done) Hx) as Hr. cbn [ptr] in Hr.
  unfold iappend. mby (rinode_ok (Z.of_nat k + 1) s ltac:(lia) Hsz). rewrite Hd. cbn [i_size dnode]. rewrite Hs.
  destruct p as [|c p]; [done|]. cbn [iappend_loop length]. change (small_blocks * BSIZE / BSIZE) with 139.
  change (139 <? MAXFILE) with true. cbn [negb]. unfold iappend_block. change (139 <? NDIRECT) with false. cbv iota. cbn [i_addrs dnode].
  rewrite (proj2 (Z.eqb_neq _ _) Hx). unfold mbind. cbn [mret obind i_addrs dnode]. rewrite rsect_ok by lia. done.
Qed.

Lemma iappend_all_ok chunks : forall s X k T l,
  img_rep s X -> X !! k = Some (T, l) -> size_of l + size_of (concat chunks) <= small_blocks * BSIZE ->
  nmeta + total (X.*2) - cost (size_of l) + cost (size_of l + size_of (concat chunks)) <= FSSIZE ->
  exists s', iappend_all (Z.of_nat k + 1) chunks s = Ok (tt, s') /\ img_rep s' (<[k := (T, l ++ concat chunks)]> X).
Proof.
  induction chunks as [|p chunks IH]; intros s X k T l Hr HX Hs Htot; cbn [iappend_all concat] in *.
  - exists s. rewrite app_nil_r, list_insert_id by done. done.
  - rewrite size_app in *. assert (Hp : 0 <= size_of (concat chunks)) by (unfold size_of; lia).
    pose proof (cost_mono (size_of l + size_of p) (size_of l + (size_of p + size_of (concat chunks))) ltac:(lia)).
    destruct (iappend_ok s X k T l p Hr HX ltac:(lia) ltac:(lia)) as (s1 & R1 & Hr1).
    destruct (IH s1 _ k T (l ++ p) Hr1) as (s2 & R2 & Hr2).
    + apply list_lookup_insert_eq. by eapply lookup_lt_Some.
    + rewrite size_app. lia.
    + rewrite list_fmap_insert. erewrite total_insert by (rewrite list_lookup_fmap, HX; done). rewrite size_app. cbn [snd].
      rewrite size_app. rewrite <- Z.add_assoc. lia.
    + exists s2. split; [by mby R1|]. by rewrite list_insert_insert_eq, <- app_assoc in Hr2.
Qed.

(** A new inode has no blocks. *)
Lemma ptr_blank v p : place_ok p -> ptr v (replicate (Z.to_nat (NDIRECT + 2)) 0) p = 0.
Proof.
  assert (Hn : forall k, nth k (replicate (Z.to_nat (NDIRECT + 2)) 0) 0 = 0) .
  { intros k. rewrite nth_lookup. destruct (_ !! k) as [x|] eqn:E; [|done]. by apply lookup_replicate in E as [-> _]. }
  intros _. destruct p; cbn [ptr]; by rewrite !Hn.
Qed.

Lemma snoc_Some {A} (l : list A) x i y : (l ++ [x]) !! i = Some y -> l !! i = Some y \/ (y = x /\ i = length l).
Proof.
  intros [H|[Hle H]]%lookup_app_Some; [by left|right]. destruct (i - length l)%nat eqn:E; [|done]. injection H as <-. split; [done|lia].
Qed.

Lemma insert_snoc {A} (l : list A) x y : <[length l := y]> (l ++ [x]) = l ++ [y].
Proof. induction l as [|z l IH]; [done|]. cbn. by f_equal. Qed.

Lemma laid_snoc v fb As Ls :
  laid v fb As Ls -> laid v fb (As ++ [replicate (Z.to_nat (NDIRECT + 2)) 0]) (Ls ++ [[]]).
Proof.
  intros [[H1 H2 H3 H4 H5] Hlen Hc Hb He]. split; [split|..].
  - done.
  - done.
  - intros i A [HA|[-> ->]]%snoc_Some; [by eapply H3|]. split; [by rewrite length_replicate|done].
  - intros i A p [HA|[-> ->]]%snoc_Some Hp; [by eapply H4|]. by rewrite ptr_blank.
  - intros i A p j B q [HA|[-> ->]]%snoc_Some HB Hp Hq; [|by rewrite ptr_blank].
    apply snoc_Some in HB as [HB|[-> ->]]; [by eapply H5|]. rewrite (ptr_blank v q) by done. by intros ->.
  - rewrite !length_app. cbn [length]. lia.
  - rewrite total_snoc. change (cost (size_of [])) with 0. lia.
  - intros i A l o HA [Hl|[-> ->]]%snoc_Some Ho.
    + apply snoc_Some in HA as [HA|[-> ->]]; [by eapply Hb|]. apply lookup_lt_Some in Hl. lia.
    + apply snoc_Some in HA as [HA|[-> _]]; [apply lookup_lt_Some in HA; lia|]. unfold file_byte.
      rewrite ptr_blank by (apply place_of_ok; fsconst; zlia). by destruct (Z.to_nat o).
  - intros i A l HA [Hl|[-> ->]]%snoc_Some.
    + apply snoc_Some in HA as [HA|[-> ->]]; [by eapply He|]. apply lookup_lt_Some in Hl. lia.
    + apply snoc_Some in HA as [HA|[-> _]]; [apply lookup_lt_Some in HA; lia|]. split; [done|..].
      * intros bn Hbn. rewrite ptr_blank by (apply place_of_ok; unfold small_blocks in Hbn; fsconst; lia). unfold size_of. fsconst. cbn. lia.
      * rewrite ptr_blank by done. unfold size_of. fsconst. cbn. lia.
Qed.

Lemma mk_ialloc_ok s X T :
  img_rep s X -> is_s16 T -> Z.of_nat (length X) + 1 < NINODES ->
  exists s', mk_ialloc T s = Ok (Z.of_nat (length X) + 1, s') /\ img_rep s' (X ++ [(T, [])]) /\ freeblock s' = freeblock s.
Proof.
  intros [Hsz Hin Hmax Hsb Hlog Hfree (As & Hla & Hnode)] HT Hn. unfold mk_ialloc. mgo. rewrite Hin.
  set (n := Z.of_nat (length X) + 1) in *. set (s1 := set_freeinode (n + 1) s).
  assert (Hok : inode_ok (dnode T (replicate (Z.to_nat (NDIRECT + 2)) 0) 0)).
  { split; cbn; try done. by repeat constructor. }
  destruct (winode_ok n T _ 0 s1 ltac:(lia) Hsz Hok) as (v' & R & Hout & Hnew & Hother). unfold dnode in R at 1. mby R.
  eexists. split; [done|]. split; [|done]. pose proof (la_len _ _ _ _ Hla) as Hlen. rewrite length_fmap in Hlen.
  split; cbn [img freeblock isize freeinode set_img set_freeinode s1] in *; rewrite ?length_app; cbn [length]; try lia.
  - rewrite Hout by lia. done.
  - intros b o Hb. rewrite Hout by lia. by apply Hlog.
  - intros b Hb. rewrite Hother by lia. apply Hfree. lia.
  - eexists. rewrite fmap_app. split.
    + eapply laid_low; [|by apply laid_snoc]. intros b Hb. apply Hout. rewrite nmeta_eq in Hb. lia.
    + intros k T' l A [HX|[[= -> ->] ->]]%snoc_Some HA.
      * apply lookup_lt_Some in HX as Hk. apply snoc_Some in HA as [HA|[_ ->]]; [|lia]. rewrite Hother by lia. eauto.
      * apply snoc_Some in HA as [HA|[-> _]]; [apply lookup_lt_Some in HA; lia|]. done.
Qed.

(** ** What the image holds *)

(** The files to be copied: names, and the pieces in which they are read. *)
Abbreviation source := (list (list Z * list (list Z))).

(** The entries of the root directory. *)
Definition entries (fs : source) : list (Z * list Z) :=
  (ROOTINO, [46]) :: (ROOTINO, [46; 46]) :: imap (fun k f => (Z.of_nat k + 2, skip_underscore f.1)) fs.
Definition dents (fs : source) : list Z := concat ((fun e => mk_dirent e.1 (str e.2)) <$> entries fs).
Definition contents (fs : source) : list (list Z) := (fun f => concat f.2) <$> fs.
Definition image (fs : source) : list (Z * list Z) := (T_DIR, dents fs) :: (pair T_FILE <$> contents fs).

(** The files fit. *)
Record fits (fs : source) : Prop := {
  ft_count : Z.of_nat (length fs) + 1 < NINODES;
  ft_slash : Forall (fun f => Forall (fun c => c <> 47) f.1) fs;
  ft_size : Forall (fun l => size_of l <= small_blocks * BSIZE) (contents fs);
  ft_total : nmeta + cost (16 * (2 + Z.of_nat (length fs))) + total (contents fs) < BSIZE * 8
}.

Lemma length_dirent n nm : length (mk_dirent n nm) = 16%nat.
Proof. unfold mk_dirent. cbn [length]. by rewrite length_ncpy. Qed.

Lemma dents_snoc fs f : dents (fs ++ [f]) = dents fs ++ mk_dirent (Z.of_nat (length fs) + 2) (str (skip_underscore f.1)).
Proof.
  unfold dents, entries. rewrite imap_app. cbn [imap]. rewrite !fmap_cons, fmap_app. cbn [concat]. rewrite concat_app, !app_assoc.
  cbn [fmap list_fmap concat fst snd]. by rewrite Nat.add_0_r, app_nil_r.
Qed.

Lemma size_dents fs : size_of (dents fs) = 16 * (2 + Z.of_nat (length fs)).
Proof.
  induction fs as [|f fs IH] using rev_ind; [done|]. rewrite dents_snoc. unfold size_of in *.
  rewrite !length_app, length_dirent. cbn [length]. lia.
Qed.

Lemma total_app Ls Ls' : total (Ls ++ Ls') = total Ls + total Ls'.
Proof. induction Ls as [|l Ls IH]; cbn [app total]; lia. Qed.

Lemma cost_pos n : 0 <= n -> 0 <= cost n.
Proof. intros H. change 0 with (cost 0) at 1. by apply cost_mono. Qed.

Lemma total_pos Ls : 0 <= total Ls.
Proof. induction Ls as [|l Ls IH]; cbn [total]; [lia|]. pose proof (cost_pos (size_of l) ltac:(unfold size_of; lia)). lia. Qed.

Lemma snd_image fs : (image fs).*2 = dents fs :: contents fs.
Proof. unfold image. cbn. f_equal. rewrite <- list_fmap_compose. cbn. apply list_fmap_id. Qed.

Lemma mk_file_ok s fs f rest :
  img_rep s (image fs) -> fits (fs ++ f :: rest) ->
  exists s', mk_file ROOTINO (f.1, Some f.2) s = Ok (tt, s') /\ img_rep s' (image (fs ++ [f])).
Proof.
  intros Hr [Hcnt Hsl Hsz Htot]. unfold contents in Hsz, Htot. rewrite fmap_app, length_app in *. cbn [fmap list_fmap length] in *.
  apply Forall_app in Hsl as [_ [Hsl _]%Forall_cons]. apply Forall_app in Hsz as [_ [Hsz _]%Forall_cons].
  rewrite total_app in Htot. cbn [total] in Htot. pose proof (total_pos ((fun f => concat f.2) <$> rest)) as Hpos.
  change ((fun f => concat f.2) <$> fs) with (contents fs) in Htot.
  assert (Hlen : length (image fs) = S (length fs)) by (unfold image, contents; cbn; by rewrite !length_fmap).
  pose proof (size_dents fs) as Hd.
  assert (H16 : cost (16 * (2 + Z.of_nat (length fs)) + 16) <= cost (16 * (2 + Z.of_nat (length fs + S (length rest))))) by (apply cost_mono; lia).
  unfold mk_file. destruct f as [name chunks]. cbn [fst snd] in *.
  replace (existsb (fun c => c =? 47) name) with false.
  2:{ symmetry. apply not_true_iff_false. rewrite existsb_exists. intros (c & Hc & E). rewrite Forall_forall in Hsl.
      apply list_elem_of_In in Hc. specialize (Hsl c Hc). lia. }
  destruct (mk_ialloc_ok s _ T_FILE Hr ltac:(done) ltac:(rewrite Hlen; lia)) as (s1 & R1 & Hr1 & _). mby R1. rewrite Hlen in *.
  assert (E1 : (image fs ++ [(T_FILE, [])]) !! 0%nat = Some (T_DIR, dents fs)) by done.
  set (de := mk_dirent _ _). assert (Hde : size_of de = 16) by (unfold size_of, de; by rewrite length_dirent).
  assert (Etot : total (image fs ++ [(T_FILE, [])]).*2 = cost (16 * (2 + Z.of_nat (length fs))) + total (contents fs)).
  { rewrite fmap_app, snd_image, total_app. cbn [fmap list_fmap snd total app]. rewrite Hd. change (cost (size_of [])) with 0. lia. }
  destruct (iappend_ok s1 _ 0 T_DIR (dents fs) de Hr1 E1) as (s2 & R2 & Hr2).
  { rewrite Hd, Hde. unfold small_blocks, NINODES in *. fsconst. lia. }
  { rewrite Etot, Hd, Hde. pose proof (cost_pos (size_of (concat chunks)) ltac:(unfold size_of; lia)). unfold FSSIZE. fsconst. lia. }
  change (Z.of_nat 0 + 1) with ROOTINO in R2. mby R2.
  assert (E2 : <[0%nat := (T_DIR, dents fs ++ de)]> (image fs ++ [(T_FILE, [])]) !! S (length fs) = Some (T_FILE, [])).
  { rewrite list_lookup_insert_ne by done. rewrite lookup_app_r by lia. by rewrite Hlen, Nat.sub_diag. }
  destruct (iappend_all_ok chunks s2 _ (S (length fs)) T_FILE [] Hr2 E2) as (s3 & R3 & Hr3).
  { change (size_of []) with 0. lia. }
  { rewrite list_fmap_insert. erewrite total_insert by done. cbn [snd]. rewrite Etot, Hd. change (size_of []) with 0. change (cost 0) with 0.
    rewrite size_app, Hd, Hde. change (0 + size_of (concat chunks)) with (size_of (concat chunks)). unfold FSSIZE. fsconst. lia. }
  rewrite R3. exists s3. split; [done|]. replace (image (fs ++ [(name, chunks)])) with
    (<[S (length fs) := (T_FILE, [] ++ concat chunks)]> (<[0%nat := (T_DIR, dents fs ++ de)]> (image fs ++ [(T_FILE, [])]))); [done|].
  unfold image, contents. rewrite dents_snoc, !fmap_app. cbn. f_equal.
  - by replace (Z.of_nat (length fs) + 2) with (Z.of_nat (S (length fs)) + 1) by lia.
  - etransitivity; [|apply (insert_snoc _ (T_FILE, []))]. by rewrite !length_fmap.
Qed.

Lemma mk_files_ok rest : forall s fs,
  img_rep s (image fs) -> fits (fs ++ rest) ->
  exists s', mk_files ROOTINO ((fun f => (f.1, Some f.2)) <$> rest) s = Ok (tt, s') /\ img_rep s' (image (fs ++ rest)).
Proof.
  induction rest as [|f rest IH]; intros s fs Hr Hf.
  - exists s. by rewrite app_nil_r.
  - destruct (mk_file_ok s fs f rest Hr Hf) as (s1 & R1 & Hr1).
    destruct (IH s1 (fs ++ [f]) Hr1) as (s2 & R2 & Hr2); [by rewrite <- app_assoc|].
    exists s2. rewrite <- app_assoc in Hr2. split; [|done]. cbn [fmap list_fmap mk_files]. by mby R1.
Qed.

(** The loop that clears the image. *)
Lemma zero_ok n : forall i s,
  (forall b o, img s b o = 0) -> isize s = i -> 0 <= i ->
  exists s', for_ n i (fun i => wsect i (fun _ => 0)) s = Ok (tt, s') /\ (forall b o, img s' b o = 0) /\
    isize s' = i + Z.of_nat n /\ freeinode s' = freeinode s /\ freeblock s' = freeblock s.
Proof.
  induction n as [|n IH]; intros i s Hz Hs Hi.
  - exists s. cbn. split_and!; try done. lia.
  - cbn [for_]. mgo.
    destruct (IH (i + 1) (set_isize (Z.max (isize s) (i + 1)) (set_img (<[i := fun _ => 0]> (img s)) s))) as (s' & R & H1 & H2 & H3 & H4).
    + intros b o. cbn. destruct (decide (b = i)) as [->|Hne]; [by rewrite fn_lookup_insert|]. rewrite fn_lookup_insert_ne by done. apply Hz.
    + cbn. lia.
    + lia.
    + exists s'. split_and!; [exact R|done|lia|done|done].
Qed.

(** ** The finished image *)

Lemma mark_used_bit n : forall i buf b,
  0 <= i -> 0 <= b -> (bit (mark_used n i buf) b =? 0) = if decide (i <= b < i + Z.of_nat n) then false else (bit buf b =? 0).
Proof.
  induction n as [|n IH]; intros i buf b Hi Hb; cbn [mark_used].
  - by rewrite decide_False by lia.
  - rewrite IH, bit_set by lia. repeat case_decide; done || lia.
Qed.

(** The size that [mkfs] gives the root directory in the end. *)
Definition root_size (fs : source) : Z := (16 * (2 + Z.of_nat (length fs)) / BSIZE + 1) * BSIZE.

(** An image with the files [fs]: [fb] blocks are in use, [As] are the block lists
    of the inodes. *)
Record made (v : Z -> mem) (fs : source) (fb : Z) (As : list (list Z)) : Prop := {
  md_sb : v 1 = put_sb mk_sb (fun _ => 0);
  md_map : forall b, 0 <= b < BPB -> used v mk_sb b = bool_decide (b < fb);
  md_count : Z.of_nat (length fs) + 1 < NINODES;
  md_fb : fb < BPB;
  md_laid : laid v fb As (dents fs :: contents fs);
  md_root : forall A, As !! 0%nat = Some A -> dinode_at v ROOTINO = dnode T_DIR A (root_size fs);
  md_file : forall k l A, contents fs !! k = Some l -> As !! S k = Some A ->
    dinode_at v (Z.of_nat k + 2) = dnode T_FILE A (size_of l);
  md_free : forall n, Z.of_nat (length fs) + 1 < n < NINODES -> i_type (dinode_at v n) = 0
}.

Lemma mk_bblock b : 0 <= b < FSSIZE -> BBLOCK b mk_sb = b / BPB + 58.
Proof.
  unfold FSSIZE. intros Hb. unfold BBLOCK. change (sb_bmapstart mk_sb) with 58. change BPB with 4096. apply u32_small. unfold is_u32. zlia.
Qed.

(** What [main] does after the files. *)
Lemma finish_ok s fs :
  img_rep s (image fs) -> fits fs ->
  exists s' As, (let! din := rinode ROOTINO in
      winode ROOTINO (set_i_size ((i_size din / BSIZE + 1) * BSIZE) din) ;;!
      let! b := mget freeblock in
      mk_balloc b) s = Ok (tt, s') /\ made (img s') fs (freeblock s) As /\ forall o, img s' 2 o = 0.
Proof.
  intros [Hsz Hin Hmax Hsb Hlog Hfree (As & Hla & Hnode)] [Hcnt Hsl Hmaxs Htot]. rewrite snd_image in Hla.
  assert (Hlen : length (image fs) = S (length fs)) by (unfold image, contents; cbn; by rewrite !length_fmap).
  pose proof (la_count _ _ _ _ Hla) as Hc. cbn [total] in Hc. rewrite size_dents in Hc.
  destruct (lookup_lt_is_Some_2 As 0%nat) as (A & HA). { rewrite (la_len _ _ _ _ Hla). cbn. lia. }
  destruct (Hnode 0%nat T_DIR (dents fs) A eq_refl HA) as [_ Hd]. change (Z.of_nat 0 + 1) with ROOTINO in Hd. rewrite size_dents in Hd.
  mby (rinode_ok ROOTINO s ltac:(done) Hsz). rewrite Hd. cbn [i_size dnode].
  change (set_i_size _ _) with (dnode T_DIR A (root_size fs)).
  assert (Hfb : freeblock s <= FSSIZE) by (unfold FSSIZE; fsconst; lia).
  assert (Hok : inode_ok (dnode T_DIR A (root_size fs))).
  { apply (dnode_ok (img s) (freeblock s) As 0%nat); [apply Hla|done|done|done|].
    unfold root_size, is_u32, NINODES in *. fsconst. zlia. }
  destruct (winode_ok ROOTINO T_DIR A (root_size fs) s ltac:(done) Hsz Hok) as (v1 & R1 & Hout & Hnew & Hother).
  mby R1. mgo. unfold mk_balloc. cbn [freeblock set_img]. rewrite (proj2 (Z.ltb_lt _ _)) by lia. cbn [negb].
  change (sb_bmapstart mk_sb) with 58. rewrite wsect_ok by (cbn; rewrite Hsz; done). set (m := mark_used _ _ _).
  eexists _, As. split; [done|]. cbn [img set_img].
  assert (Hdin : forall n, 0 <= n < NINODES -> dinode_at (<[58 := m]> v1) n = dinode_at v1 n).
  { intros n Hn. unfold dinode_at. destruct (mk_iblock n Hn) as [_ ?]. by rewrite fn_lookup_insert_ne by lia. }
  split; [split|].
  - rewrite fn_lookup_insert_ne by done. rewrite Hout by lia. done.
  - intros b Hb. change BPB with 4096 in Hb. unfold used. rewrite mk_bblock by (unfold FSSIZE; lia). change BPB with 4096.
    rewrite Z.div_small, Z.mod_small by lia. change (0 + 58) with 58. rewrite fn_lookup_insert. unfold m. rewrite mark_used_bit by lia.
    rewrite nmeta_eq in Hc. case_decide as Hd'; [rewrite bool_decide_true by lia; done|]. rewrite bool_decide_false by lia. done.
  - done.
  - unfold BPB. lia.
  - eapply laid_low; [|exact Hla]. intros b Hb. rewrite nmeta_eq in Hb. rewrite fn_lookup_insert_ne by lia. apply Hout. lia.
  - intros B HB. assert (B = A) as -> by congruence. by rewrite Hdin.
  - intros k l B Hk HB. assert (Hk' : (k < length fs)%nat) by (apply lookup_lt_Some in Hk; unfold contents in Hk; by rewrite length_fmap in Hk).
    rewrite Hdin by (unfold NINODES in *; lia). change ROOTINO with 1 in Hother. rewrite Hother by (unfold NINODES in *; lia).
    destruct (Hnode (S k) T_FILE l B) as [_ E]; [|done|by replace (Z.of_nat k + 2) with (Z.of_nat (S k) + 1) by lia].
    change ((pair T_FILE <$> contents fs) !! k = Some (T_FILE, l)). by rewrite list_lookup_fmap, Hk.
  - intros n Hn. change ROOTINO with 1 in Hother. rewrite Hdin, Hother by lia. apply Hfree. rewrite Hlen. lia.
  - intros o. rewrite fn_lookup_insert_ne by done. rewrite Hout by lia. apply Hlog. lia.
Qed.

Definition args (fs : source) : list (list Z * option (list (list Z))) := (fun f => (f.1, Some f.2)) <$> fs.

(** The root directory with its first two entries. *)
Lemma root_ok s :
  img_rep s [] -> exists s1 s2 s3, mk_ialloc T_DIR s = Ok (ROOTINO, s1) /\
    iappend ROOTINO (mk_dirent ROOTINO (str [46])) s1 = Ok (tt, s2) /\
    iappend ROOTINO (mk_dirent ROOTINO (str [46; 46])) s2 = Ok (tt, s3) /\ img_rep s3 (image []).
Proof.
  intros Hr. destruct (mk_ialloc_ok s [] T_DIR Hr ltac:(done) ltac:(done)) as (s1 & R1 & Hr1 & _).
  assert (Hd : forall n nm, size_of (mk_dirent n nm) = 16) by (intros; unfold size_of; by rewrite length_dirent).
  destruct (iappend_ok s1 _ 0 T_DIR [] (mk_dirent ROOTINO (str [46])) Hr1 eq_refl) as (s2 & R2 & Hr2).
  { rewrite Hd. done. }
  { rewrite Hd. done. }
  destruct (iappend_ok s2 _ 0 T_DIR _ (mk_dirent ROOTINO (str [46; 46])) Hr2 eq_refl) as (s3 & R3 & Hr3).
  { rewrite app_nil_l, !Hd. done. }
  { rewrite app_nil_l, !Hd. done. }
  exists s1, s2, s3. split_and!; [exact R1|exact R2|exact R3|exact Hr3].
Qed.

Lemma mkfs_ok fs :
  fits fs -> exists s fb As, mkfs (args fs) mk_start = Ok (tt, s) /\ made (img s) fs fb As /\ forall o, img s 2 o = 0.
Proof.
  intros Hf. destruct (zero_ok (Z.to_nat FSSIZE) 0 (set_freeblock nmeta mk_start)) as (s1 & R1 & Hz & Hs & Hi & Hb); [done|done|done|].
  rewrite Z2Nat.id in Hs by done. cbn in Hi, Hb.
  set (s2 := set_img (<[1 := put_sb mk_sb (fun _ => 0)]> (img s1)) s1).
  assert (Hr2 : img_rep s2 []).
  { clear R1. split; cbn [img isize freeinode freeblock set_img s2]; try done.
    - intros b o Hbb. rewrite fn_lookup_insert_ne by lia. apply Hz.
    - intros n Hn. unfold dinode_at. destruct (mk_iblock n) as [_ ?]; [cbn in Hn; lia|]. rewrite fn_lookup_insert_ne by lia.
      cbn. unfold get16. by rewrite !Hz.
    - exists []. split; [|done]. rewrite Hb. split; try done. split; try done. intros b o Hbb. rewrite nmeta_eq in Hbb.
      rewrite fn_lookup_insert_ne by lia. apply Hz. }
  destruct (root_ok s2 Hr2) as (t1 & t2 & s3 & T1 & T2 & T3 & Hr3). destruct (mk_files_ok fs s3 [] Hr3 Hf) as (s4 & R4 & Hr4).
  destruct (finish_ok s4 fs Hr4 Hf) as (s5 & As & R5 & Hmade). exists s5, (freeblock s4), As. split; [|done].
  unfold mkfs. mgo. mby R1. mby (wsect_ok 1 (put_sb mk_sb (fun _ => 0)) s1 ltac:(by rewrite Hs)). fold s2.
  mby T1. change (negb (ROOTINO =? ROOTINO)) with false. cbv iota. mby T2. mby T3. mby R4. exact R5.
Qed.
