(* ===== verification/MkfsBoot.v ===== *)
(** * Booting from the image of [mkfs.c]

    The composition of [mkfs] with the kernel: recovery of the log, [namex],
    [ilock] and [readi] on the image.  [mkfs_boot] shows that after booting every
    file is found by its name and has its contents. *)

From Stdlib Require Import ZArith Lia String.
From stdpp Require Import base numbers functions list.
From S2P Require Import Prelude Bytes Params Locks Bio Log LogDisk Fs FsBlocks FsFile FsInode FsIO FsDir FsPath Mkfs.

Local Open Scope Z_scope.
Local Open Scope kernel_scope.

(** ** The kernel on the image *)

Lemma mk_geom : 1 < 2 /\ 0 < 30 <= LOGSIZE /\ 2 + 30 <= FSSIZE /\ FSSIZE < 2 ^ 31 /\ 1 <= 1.
Proof. unfold LOGSIZE, MAXOPBLOCKS, FSSIZE. lia. Qed.

#[local] Instance mk_ld : LoggedDisk lst := log_disk_instance 2 30 FSSIZE 1 mk_geom.
#[local] Instance mk_tx : Transactions lst (LD := mk_ld) := log_transactions 2 30 FSSIZE mk_geom.

(** The disk as the kernel sees it: the image outside the log. *)
Lemma made_view v v' fs fb As : (forall y, y < 2 \/ 32 <= y -> v' y = v y) -> made v fs fb As -> made v' fs fb As.
Proof.
  intros Hv [H1 H2 H3 H4 H5 H6 H7 H8].
  assert (Hd : forall n, 0 <= n < NINODES -> dinode_at v' n = dinode_at v n).
  { intros n Hn. unfold dinode_at. rewrite Hv; [done|]. destruct (mk_iblock n Hn). lia. }
  split; try done.
  - rewrite Hv by lia. done.
  - intros b Hb. rewrite <- H2 by done. unfold used. rewrite Hv; [done|]. rewrite mk_bblock by (change BPB with 4096 in Hb; unfold FSSIZE; lia).
    change BPB with 4096. zlia.
  - eapply laid_low; [|done]. intros b Hb. rewrite nmeta_eq in Hb. apply Hv. lia.
  - intros A HA. rewrite Hd by done. by apply H6.
  - intros k l A Hk HA. apply lookup_lt_Some in Hk as Hk'. unfold contents in Hk'. rewrite length_fmap in Hk'.
    rewrite Hd by lia. by apply H7.
  - intros n Hn. rewrite Hd by lia. by apply H8.
Qed.

(** The data blocks start after the free map. *)
Lemma mk_data b : nmeta <= b < FSSIZE -> data_block mk_sb b.
Proof.
  rewrite nmeta_eq. unfold FSSIZE. intros Hb. split_and!; [cbn; unfold home, FSSIZE; lia|lia|cbn; unfold FSSIZE; lia|..].
  - intros c Hc. change (sb_size mk_sb) with FSSIZE in Hc. rewrite mk_bblock by done. unfold FSSIZE in Hc. change BPB with 4096. zlia.
  - intros i Hi. change (sb_ninodes mk_sb) with NINODES in Hi. destruct (mk_iblock i Hi). lia.
Qed.

Lemma made_fs_ok v fs fb As : made v fs fb As -> fs_ok v mk_sb.
Proof.
  intros Hm. split.
  - rewrite (md_sb _ _ _ _ Hm). reflexivity.
  - cbn. unfold FSSIZE. lia.
  - intros b Hb. change (sb_size mk_sb) with FSSIZE in Hb. split; [by apply mk_bblock|]. rewrite mk_bblock by done.
    unfold FSSIZE in Hb. change BPB with 4096. cbn. unfold home, FSSIZE. zlia.
  - intros i Hi. change (sb_ninodes mk_sb) with NINODES in Hi. destruct (mk_iblock i Hi) as [Ei Hr]. split_and!; [done|lia| |].
    + cbn. unfold home, FSSIZE. lia.
    + intros b Hb. change (sb_size mk_sb) with FSSIZE in Hb. rewrite mk_bblock by done. unfold FSSIZE in Hb. change BPB with 4096. zlia.
  - intros b Hb Hu. change (sb_size mk_sb) with FSSIZE in Hb. apply mk_data. split; [|lia].
    destruct (decide (nmeta <= b)) as [|Hlt]; [done|]. rewrite nmeta_eq in *. rewrite (md_map _ _ _ _ Hm) in Hu by (change BPB with 4096; lia).
    apply bool_decide_eq_false in Hu. pose proof (tr_fb _ _ _ (la_trees _ _ _ _ (md_laid _ _ _ _ Hm))) as H. rewrite nmeta_eq in H. lia.
Qed.

Lemma made_file_ok v fs fb As i A : made v fs fb As -> As !! i = Some A -> file_ok v mk_sb A.
Proof.
  intros Hm HA. pose proof (la_trees _ _ _ _ (md_laid _ _ _ _ Hm)) as Ht. pose proof (md_fb _ _ _ _ Hm) as Hfb. change BPB with 4096 in Hfb. split.
  - by apply (tr_node _ _ _ Ht i).
  - intros p Hp H0. pose proof (tr_rng _ _ _ Ht i A p HA Hp H0) as Hr. split; [apply mk_data; unfold FSSIZE; lia|].
    rewrite nmeta_eq in Hr. rewrite (md_map _ _ _ _ Hm) by (change BPB with 4096; lia). apply bool_decide_true. lia.
  - intros p q Hp Hq E H0. by destruct (tr_inj _ _ _ Ht i A p i A q).
Qed.

Lemma extent_dense v A n m : extent v A n -> m <= (n + BSIZE - 1) / BSIZE * BSIZE -> dense v A m.
Proof.
  intros [Hmax Hd _] Hm o Ho. unfold small_blocks in *. apply Hd; fsconst; zlia.
Qed.

(** *** The root directory *)

Record named (fs : source) : Prop := {
  nm_nul : Forall (fun f => no_nul f.1) fs;
  nm_some : Forall (fun f => skip_underscore f.1 <> []) fs;
  nm_diff : NoDup ((fun e => take (Z.to_nat DIRSIZ) e.2) <$> entries fs)
}.

Lemma nth_concat (n : nat) (L : list (list Z)) : forall j k e,
  Forall (fun l => length l = n) L -> L !! j = Some e -> (k < n)%nat -> nth (n * j + k) (concat L) 0 = nth k e 0.
Proof.
  induction L as [|l L IH]; intros j k e [Hl HL]%Forall_cons Hj Hk || (intros j k e _ Hj; done). cbn [concat]. destruct j as [|j].
  - injection Hj as ->. rewrite Nat.mul_0_r, Nat.add_0_l, app_nth1 by lia. done.
  - rewrite app_nth2 by lia. replace (n * S j + k - length l)%nat with (n * j + k)%nat by lia. by apply IH.
Qed.

Lemma skip_no_nul l : no_nul l -> no_nul (skip_underscore l).
Proof. intros H. destruct l as [|c l]; [done|]. cbn. destruct (c =? 95); [by apply Forall_cons in H as [_ ?]|done]. Qed.

Lemma name_of_str l : no_nul l -> name_of (str l) = take (Z.to_nat DIRSIZ) l.
Proof.
  intros Hl. unfold name_of, str. change (Z.to_nat DIRSIZ) with 14%nat. destruct (decide (14 <= length l)%nat) as [Hlen|Hlen].
  - rewrite <- (cstr_nul_free (take 14 l)) by (by apply Forall_take). f_equal.
    rewrite <- (load_nth (take 14 l) 14) by (rewrite length_take; lia). apply load_copy. intros k Hk.
    rewrite <- (take_drop 14 l) at 1. rewrite app_nth1; [done|]. rewrite length_take. lia.
  - rewrite take_ge by lia. replace 14%nat with (length l + S (13 - length l))%nat by lia. rewrite load_app, load_nth by done.
    cbn [load]. rewrite (nth_overflow l) by lia. by apply cstr_app_nul.
Qed.

Lemma entries_ok fs j e :
  named fs -> entries fs !! j = Some e -> e.1 = Z.max 1 (Z.of_nat j) /\ name_of (str e.2) = take (Z.to_nat DIRSIZ) e.2.
Proof.
  intros [Hn _ _] He. destruct j as [|[|j]]; [by injection He as <-|by injection He as <-|].
  change (imap (fun k f => (Z.of_nat k + 2, skip_underscore f.1)) fs !! j = Some e) in He. rewrite list_lookup_imap in He.
  apply fmap_Some in He as (f & Hf & ->). cbn [fst snd]. split; [lia|]. apply name_of_str, skip_no_nul. rewrite Forall_lookup in Hn. eauto.
Qed.

Lemma length_entries fs : length (entries fs) = (2 + length fs)%nat.
Proof. unfold entries. cbn. by rewrite length_imap. Qed.

Lemma made_entry v fs fb As A j :
  made v fs fb As -> named fs -> As !! 0%nat = Some A -> DIRENT_SIZE * Z.of_nat j < root_size fs ->
  dentry (file_byte v A) (DIRENT_SIZE * Z.of_nat j) =
  match entries fs !! j with Some e => (e.1, take (Z.to_nat DIRSIZ) e.2) | None => (0, []) end.
Proof.
  intros Hm Hn HA Hj. change DIRENT_SIZE with 16 in *.
  assert (Hb : forall k, 0 <= k < 16 -> file_byte v A (16 * Z.of_nat j + k) = nth (Z.to_nat (16 * Z.of_nat j + k)) (dents fs) 0).
  { intros k Hk. apply (la_bytes _ _ _ _ (md_laid _ _ _ _ Hm) 0%nat); [done|done|]. pose proof (md_count _ _ _ _ Hm).
    unfold root_size, NINODES in *. fsconst. zlia. }
  destruct (entries fs !! j) as [e|] eqn:He.
  - destruct (entries_ok fs j e Hn He) as [E1 E2]. rewrite <- E2. apply dentry_mk.
    + apply lookup_lt_Some in He. rewrite length_entries in He. pose proof (md_count _ _ _ _ Hm). unfold NINODES in *. lia.
    + change DIRENT_SIZE with 16. intros k Hk. rewrite Hb by done. unfold dents.
      replace (Z.to_nat (16 * Z.of_nat j + k)) with (16 * j + Z.to_nat k)%nat by lia. eapply nth_concat; [|by rewrite list_lookup_fmap, He|lia].
      apply Forall_fmap, Forall_true. intros e'. apply length_dirent.
  - apply lookup_ge_None in He. rewrite length_entries in He. pose proof (size_dents fs) as Hs. unfold size_of in Hs.
    rewrite (dentry_ext (fun _ => 0) _ 0); [done|]. change DIRENT_SIZE with 16. intros k Hk. rewrite Hb by done.
    apply nth_overflow. lia.
Qed.

Lemma on_dnode v n T A size :
  dinode_at v n = dnode T A size ->
  let i := inode_on v mk_sb n in i_type i = T /\ i_nlink i = 1 /\ i_size i = size /\ i_addrs i = A.
Proof.
  intros H. split_and!; [exact (f_equal i_type H)|exact (f_equal i_nlink H)|exact (f_equal i_size H)|exact (f_equal i_addrs H)].
Qed.

Lemma made_root v fs fb As :
  made v fs fb As -> exists A, As !! 0%nat = Some A /\
    let i := inode_on v mk_sb ROOTINO in i_type i = T_DIR /\ i_nlink i = 1 /\ i_size i = root_size fs /\ i_addrs i = A.
Proof.
  intros Hm. destruct (lookup_lt_is_Some_2 As 0%nat) as (A & HA).
  { rewrite (la_len _ _ _ _ (md_laid _ _ _ _ Hm)). cbn. lia. }
  exists A. split; [done|]. apply on_dnode. by apply (md_root _ _ _ _ Hm).
Qed.

Lemma made_file v fs fb As k f :
  made v fs fb As -> fs !! k = Some f -> exists A, As !! S k = Some A /\
    let i := inode_on v mk_sb (Z.of_nat k + 2) in
    i_type i = T_FILE /\ i_nlink i = 1 /\ i_size i = size_of (concat f.2) /\ i_addrs i = A.
Proof.
  intros Hm Hf. apply lookup_lt_Some in Hf as Hk. destruct (lookup_lt_is_Some_2 As (S k)) as (A & HA).
  { rewrite (la_len _ _ _ _ (md_laid _ _ _ _ Hm)). unfold contents. cbn. rewrite length_fmap. lia. }
  exists A. split; [done|]. apply on_dnode. apply (md_file _ _ _ _ Hm k (concat f.2) A); [|done]. unfold contents. by rewrite list_lookup_fmap, Hf.
Qed.

Lemma made_listing v fs fb As j x :
  made v fs fb As -> named fs -> listing v (inode_on v mk_sb ROOTINO) !! j = Some x ->
  x = match entries fs !! j with Some e => (e.1, take (Z.to_nat DIRSIZ) e.2) | None => (0, []) end.
Proof.
  intros Hm Hn. destruct (made_root v fs fb As Hm) as (A & HA & Ht & _ & Hs & EA). unfold listing. rewrite Hs, EA.
  rewrite dentries_lookup. case_decide as Hj; [|done]. intros [= <-]. eapply made_entry; try done.
  change DIRENT_SIZE with 16 in *. unfold root_size in *. fsconst. zlia.
Qed.

Lemma made_alive v fs fb As n :
  made v fs fb As -> alive v mk_sb n <-> n = ROOTINO \/ exists k, (k < length fs)%nat /\ n = Z.of_nat k + 2.
Proof.
  intros Hm. pose proof (md_count _ _ _ _ Hm) as Hc. unfold alive. change (sb_ninodes mk_sb) with NINODES. change ROOTINO with 1. split.
  - intros [Hr Ht]. destruct (decide (n = 1)) as [->|Hne]; [by left|right]. exists (Z.to_nat (n - 2)). 
    destruct (decide (n <= Z.of_nat (length fs) + 1)) as [Hle|Hgt]; [split; lia|]. exfalso. apply Ht. apply (md_free _ _ _ _ Hm). lia.
  - intros [->|(k & Hk & ->)].
    + destruct (made_root v fs fb As Hm) as (A & _ & Ht & _). change ROOTINO with 1 in Ht. by rewrite Ht.
    + destruct (lookup_lt_is_Some_2 fs k Hk) as (f & Hf). destruct (made_file v fs fb As k f Hm Hf) as (A & _ & Ht & _). rewrite Ht. split; [lia|done].
Qed.

Lemma made_node v fs fb As n :
  made v fs fb As -> named fs -> (2 + Z.of_nat (length fs)) mod 32 <> 0 -> alive v mk_sb n -> node_ok v mk_sb n.
Proof.
  intros Hm Hn Hmod Ha. apply (made_alive v fs fb As n Hm) in Ha as [->|(k & Hk & ->)].
  - destruct (made_root v fs fb As Hm) as (A & HA & Ht & Hl & Hs & EA). pose proof (md_count _ _ _ _ Hm). split; rewrite ?Hs, ?EA.
    + rewrite Hl. done.
    + intros _. by eapply made_file_ok.
    + intros _. change DIRENT_SIZE with 16. unfold root_size, NINODES in *. fsconst. zlia.
    + intros _. eapply extent_dense; [by apply (la_ext _ _ _ _ (md_laid _ _ _ _ Hm) 0%nat)|]. rewrite size_dents. unfold root_size. fsconst. zlia.
    + intros _ nm m (j & Hj & H0 & _)%dir_get_some. apply (made_listing v fs fb As j (m, nm) Hm Hn) in Hj.
      destruct (entries fs !! j) as [e|] eqn:He; [|by injection Hj]. destruct (entries_ok fs j e Hn He) as [E1 _].
      apply lookup_lt_Some in He. rewrite length_entries in He. injection Hj as -> _. apply (made_alive v fs fb As _ Hm). rewrite E1.
      change ROOTINO with 1. destruct (decide (j <= 1)%nat); [left; lia|right]. exists (j - 2)%nat. lia.
  - destruct (lookup_lt_is_Some_2 fs k Hk) as (f & Hf). destruct (made_file v fs fb As k f Hm Hf) as (A & _ & Ht & Hl & _).
    split; rewrite ?Ht, ?Hl; done.
Qed.

(** Every file is found by its name. *)
Lemma made_get v fs fb As k f :
  made v fs fb As -> named fs -> fs !! k = Some f ->
  dir_get (listing v (inode_on v mk_sb ROOTINO)) (take (Z.to_nat DIRSIZ) (skip_underscore f.1)) = Some (Z.of_nat k + 2).
Proof.
  intros Hm Hn Hf. apply lookup_lt_Some in Hf as Hk.
  assert (He : entries fs !! S (S k) = Some (Z.of_nat k + 2, skip_underscore f.1)).
  { change (imap (fun k f => (Z.of_nat k + 2, skip_underscore f.1)) fs !! k = Some (Z.of_nat k + 2, skip_underscore f.1)).
    by rewrite list_lookup_imap, Hf. }
  assert (Hall : forall j, (j < 2 + length fs)%nat -> exists x, listing v (inode_on v mk_sb ROOTINO) !! j = Some x).
  { intros j Hj. apply lookup_lt_is_Some. destruct (made_root v fs fb As Hm) as (A & HA & Ht & _ & Hs & EA). unfold listing.
    rewrite length_dentries, Hs. change DIRENT_SIZE with 16. unfold root_size. fsconst. zlia. }
  apply dir_get_some. exists (S (S k)). split_and!; [|lia|].
  - destruct (Hall (S (S k)) ltac:(lia)) as (x & Hx). rewrite Hx. by rewrite (made_listing v fs fb As _ x Hm Hn Hx), He.
  - intros j e Hj Hx. rewrite (made_listing v fs fb As _ e Hm Hn Hx). destruct (entries fs !! j) as [e'|] eqn:He'; [|done].
    unfold is_named. cbn [fst snd]. apply andb_false_iff. right. apply bool_decide_eq_false. intros E.
    assert (j = S (S k)); [|lia]. eapply (NoDup_lookup _ _ _ _ (nm_diff _ Hn)); rewrite list_lookup_fmap; [by rewrite He'|by rewrite He; cbn; rewrite E].
Qed.

(** ** Booting from the image *)

(** The file system of the kernel before its first use: an empty inode cache. *)
Definition cold_fs (sb : superblock) (d : lst) : fsys lst :=
  mkfsys false (replicate (Z.to_nat NINODE) (mkinode 0 0 0 sl_free 0 0 0 0 0 0 [])) sb 1 0%nat d.

Lemma image_log_ok v fs fb As : made v fs fb As -> (forall o, v 2 o = 0) -> ok_disk 2 30 FSSIZE v v.
Proof.
  intros Hm H2. assert (E2 : get32 (v 2) 0 = 0) by (unfold get32; by rewrite !H2).
  assert (Eh : head_of v 2 = []) by (unfold head_of; by rewrite E2). split; [split|].
  - split_and!; apply mk_geom.
  - rewrite (md_sb _ _ _ _ Hm). split; reflexivity.
  - by rewrite E2.
  - rewrite Eh. apply good_nil. lia.
  - intros y _. apply recovered_other. rewrite Eh. apply not_elem_of_nil.
Qed.

(** The first operation after booting. *)
Lemma boot_ok v fs fb As pid :
  made v fs fb As -> named fs -> (2 + Z.of_nat (length fs)) mod 32 <> 0 -> (forall o, v 2 o = 0) ->
  exists r r' w, reboot v FSSIZE pid = Ok (tt, r) /\ begin_op r = Ok (tt, r') /\ made w fs fb As /\
    walk_env (cold_fs (sb_of (v 1)) r') w mk_sb [] [].
Proof.
  intros Hm Hn Hmod H2. destruct (recovery 2 30 FSSIZE v v FSSIZE pid (image_log_ok v fs fb As Hm H2) eq_refl)
    as (r & w & R & Hok & Hv & Hlk & Hco & Hout & _).
  destruct (log_begin_ok 2 30 FSSIZE r w) as (r' & R' & Hv' & Ho'); [by split_and!|done|].
  assert (Hmw : made w fs fb As) by (eapply made_view; [|done]; intros y Hy; apply Hv; unfold home; lia).
  exists r, r', w. split_and!; [done|done|done|]. clear R R' Hok. split.
  - reflexivity.
  - cbn [cold_fs fsb]. rewrite (md_sb _ _ _ _ Hm). reflexivity.
  - by eapply made_fs_ok.
  - exact Hv'.
  - reflexivity.
  - intros n Ha. by eapply made_node.
  - intros k i _ Hi. cbn [cold_fs icache] in Hi. apply lookup_replicate in Hi as [-> _]. split; cbn; try done; lia.
Qed.

Lemma one_element l : Forall (fun c => c <> 47) l -> l <> [] -> elements (47 :: l) = [take (Z.to_nat DIRSIZ) l].
Proof.
  intros Hl H0. unfold elements. change (split_from [] (47 :: l)) with (split_from [] l).
  assert (Hgen : forall cur, cur ++ l <> [] -> split_from cur l = [cur ++ l]).
  { clear H0. induction Hl as [|c l Hc Hl IH]; intros cur H0; cbn [split_from].
    - rewrite app_nil_r in *. by destruct cur.
    - rewrite (proj2 (Z.eqb_neq _ _) Hc). rewrite IH; rewrite <- app_assoc; [done|]. by destruct cur. }
  by rewrite (Hgen []).
Qed.

(** [namei("/name")] from a cold cache. *)
Lemma boot_namei dr s w fs fb As k f nm0 :
  made w fs fb As -> named fs -> fs !! k = Some f -> Forall (fun c => c <> 47) f.1 ->
  walk_env s w mk_sb [] [] -> spare (refs s) ->
  exists ip nm s' i, namex dr (47 :: skip_underscore f.1) false nm0 s = Ok ((Some ip, nm), s') /\
    walk_env s' w mk_sb [] [] /\ icache s' !! ip = Some i /\ i_inum i = Z.of_nat k + 2 /\ 0 < i_ref i.
Proof.
  intros Hm Hn Hf Hsl He Hsp. set (l := skip_underscore f.1).
  assert (Hl : no_nul l /\ l <> [] /\ Forall (fun c => c <> 47) l).
  { destruct Hn as [Hn1 Hn2 _]. rewrite Forall_lookup in Hn1, Hn2. split_and!; [apply skip_no_nul; eauto|by eapply Hn2|].
    unfold l. destruct (f.1) as [|c t]; [done|]. cbn. destruct (c =? 95); [by apply Forall_cons in Hsl as [_ ?]|done]. }
  destruct Hl as (Hl1 & Hl2 & Hl3).
  destruct (iget_ok s ROOTDEV ROOTINO) as (ip0 & j & j' & R & Hj & Href); [apply He| |].
  { destruct Hsp as (a & _ & _ & Ha & _). unfold refs in Ha. rewrite list_lookup_fmap in Ha. apply fmap_Some in Ha as (j & Hj & E0).
    exists j. split; [|done]. apply list_elem_of_lookup. eauto. }
  assert (Hroot : alive w mk_sb ROOTINO) by (apply (made_alive w fs fb As _ Hm); by left).
  destruct (reference_walk s w mk_sb [] ip0 j j' ROOTINO He Hroot Hj Href) as (He1 & Hi1 & Hn1 & Hr1 & HB).
  destruct (namex_loop_ok dr (length (47 :: l)) false (put_inode ip0 j' s) w mk_sb [] ip0 j' (47 :: l) nm0 (refs s) He1 Hi1 Hr1 HB Hsp)
    as (r & nm & s' & R2 & He2 & Hres & _); [by constructor|done|].
  rewrite Hn1, one_element in Hres by done. cbn [target andb] in Hres.
  destruct (made_root w fs fb As Hm) as (A & _ & Ht & _). rewrite Ht, Z.eqb_refl in Hres.
  unfold l in Hres. rewrite (made_get w fs fb As k f Hm Hn Hf) in Hres. destruct r as [ip|]; [|done]. destruct Hres as (_ & i & Hi & Hin & Hir).
  exists ip, nm, s', i. split_and!; try done. unfold namex. change (47 =? 47) with true. cbv iota. by mby R.
Qed.

Lemma load_contents v fs fb As k f A :
  made v fs fb As -> fs !! k = Some f -> As !! S k = Some A -> size_of (concat f.2) <= MAXFILE * BSIZE ->
  load (file_byte v A) 0 (length (concat f.2)) = concat f.2.
Proof.
  intros Hm Hf HA Hs. rewrite <- (load_nth (concat f.2) _ eq_refl) at 2. apply load_copy. intros o Ho. rewrite Z.add_0_l.
  apply (la_bytes _ _ _ _ (md_laid _ _ _ _ Hm) (S k)); [done| |unfold size_of in Hs; lia].
  change (contents fs !! k = Some (concat f.2)). unfold contents. by rewrite list_lookup_fmap, Hf.
Qed.

Lemma cold_spare sb d : spare (refs (cold_fs sb d)).
Proof. by exists 0%nat, 1%nat. Qed.

(** Looking a file up and reading it. *)
Lemma image_reads dr s w fs fb As k name chunks nm0 :
  made w fs fb As -> named fs -> fs !! k = Some (name, chunks) -> Forall (fun c => c <> 47) name ->
  walk_env s w mk_sb [] [] -> spare (refs s) ->
  exists ip i nm s1 s2 s3, namex dr (47 :: skip_underscore name) false nm0 s = Ok ((Some ip, nm), s1) /\
    ilock ip s1 = Ok (tt, s2) /\ icache s2 !! ip = Some i /\ i_type i = T_FILE /\ i_size i = size_of (concat chunks) /\
    readi dr ip 0 (i_size i) s2 = Ok ((i_size i, concat chunks), s3).
Proof.
  intros Hmw Hn Hf Hsl He Hsp.
  destruct (boot_namei dr s w fs fb As k _ nm0 Hmw Hn Hf Hsl He Hsp) as (ip & nm & s1 & i & R3 & He1 & Hi & Hin & Hir).
  destruct (ilock_walk s1 w mk_sb [] ip i He1 Hi Hir) as (i' & s2 & R4 & He2 & Hh & Hin' & _).
  destruct (synced_fields _ _ _ (held_synced _ _ _ _ _ Hh)) as (Et & _ & Es & Ea). rewrite Hin', Hin in Et, Es, Ea.
  destruct (made_file w fs fb As k _ Hmw Hf) as (A & HA & Ft & _ & Fs & FA). cbn [snd] in Fs.
  assert (Hl : contents fs !! k = Some (concat chunks)) by (unfold contents; by rewrite list_lookup_fmap, Hf).
  pose proof (la_ext _ _ _ _ (md_laid _ _ _ _ Hmw) (S k) A _ HA Hl) as Hex.
  assert (Hsz : 0 <= i_size i' <= MAXFILE * BSIZE).
  { rewrite Es, Fs. pose proof (ex_max _ _ _ Hex). unfold size_of, small_blocks in *. fsconst. lia. }
  destruct (readi_ok dr s2 ip i' w mk_sb [] 0 (i_size i')) as (s3 & R5 & _).
  - split; [apply Hh| | |apply He2|apply He2].
    + apply (en_dev _ _ _ (hd_ok _ _ _ _ _ Hh)). apply Hh.
    + rewrite Ea, FA. by eapply made_file_ok.
  - rewrite Et, Ft. done.
  - lia.
  - lia.
  - fsconst. lia.
  - lia.
  - rewrite Ea, FA, Es, Fs. eapply extent_dense; [exact Hex|]. fsconst. unfold size_of. zlia.
  - exists ip, i', nm, s1, s2, s3. split_and!; [exact R3|exact R4|apply Hh|by rewrite Et, Ft|by rewrite Es, Fs|].
    rewrite R5, Z.sub_0_r, Z.min_id. rewrite Ea, FA. rewrite Es, Fs. unfold size_of at 2. rewrite Nat2Z.id.
    pose proof (load_contents w fs fb As k (name, chunks) A Hmw Hf HA ltac:(cbn [snd]; rewrite <- Fs, <- Es; lia)) as Hld.
    cbn [snd] in Hld. by rewrite Hld.
Qed.

(** The case left out below: with 30, 62, ... files the entries of the root directory
    fill its blocks, and the size mkfs gives it reaches over another block that
    it does not have. *)
Lemma root_hole fs :
  fits fs -> (2 + Z.of_nat (length fs)) mod 32 = 0 ->
  exists st, mkfs (args fs) mk_start = Ok (tt, st) /\
    let i := inode_on (img st) mk_sb ROOTINO in
    let bn := (2 + Z.of_nat (length fs)) / 32 in
    i_size i = (bn + 1) * BSIZE /\ ptr (img st) (i_addrs i) (place_of bn) = 0.
Proof.
  intros Hfit Hmod. destruct (mkfs_ok fs Hfit) as (st & fb & As & R & Hm & _). exists st. split; [done|]. cbv zeta.
  destruct (made_root _ _ _ _ Hm) as (A & HA & _ & _ & -> & ->). pose proof (md_count _ _ _ _ Hm) as Hc.
  pose proof (la_ext _ _ _ _ (md_laid _ _ _ _ Hm) 0%nat A _ HA eq_refl) as Hex. rewrite size_dents in Hex.
  unfold root_size, NINODES in *. split; [fsconst; zlia|]. apply dec_stable. intros Hp.
  apply (ex_data _ _ _ Hex) in Hp; [fsconst; zlia|]. unfold small_blocks. fsconst. zlia.
Qed.

(** C8: the image that mkfs makes is a file system of the kernel.  For any files that
    fit (and whose number plus 2, the number of entries of the root directory, is
    not a multiple of 32: see [root_hole]), mkfs runs to its end; the kernel boots
    from the image (with nothing in the log), and then every file is found under
    its name in the root directory, is a regular file of the right size, and
    reads as what mkfs was given. *)
Theorem mkfs_boot fs k name chunks dr nm0 pid :
  fits fs -> named fs -> (2 + Z.of_nat (length fs)) mod 32 <> 0 -> fs !! k = Some (name, chunks) ->
  exists st r r' ip i nm s1 s2 s3,
    mkfs (args fs) mk_start = Ok (tt, st) /\
    reboot (img st) FSSIZE pid = Ok (tt, r) /\ begin_op r = Ok (tt, r') /\
    namex dr (47 :: skip_underscore name) false nm0 (cold_fs (sb_of (img st 1)) r') = Ok ((Some ip, nm), s1) /\
    ilock ip s1 = Ok (tt, s2) /\ icache s2 !! ip = Some i /\ i_type i = T_FILE /\ i_size i = size_of (concat chunks) /\
    readi dr ip 0 (i_size i) s2 = Ok ((i_size i, concat chunks), s3).
Proof.
  intros Hfit Hn Hmod Hf. destruct (mkfs_ok fs Hfit) as (st & fb & As & R0 & Hm & H2).
  destruct (boot_ok (img st) fs fb As pid Hm Hn Hmod H2) as (r & r' & w & R1 & R2 & Hmw & He).
  pose proof (proj1 (Forall_lookup _ _) (ft_slash _ Hfit) k _ Hf) as Hsl.
  destruct (image_reads dr _ w fs fb As k name chunks nm0 Hmw Hn Hf Hsl He (cold_spare _ _)) as (ip & i & nm & s1 & s2 & s3 & H).
  exists st, r, r', ip, i, nm, s1, s2, s3. exact (conj R0 (conj R1 (conj R2 H))).
Qed.

(** Two files: [_cat], in two pieces, and an empty [x]. *)
Definition two_files : source := [([95; 99; 97; 116], [[1; 2; 3]; [4]]); ([120], [])].

Lemma mkfs_boot_witness :
  exists st r r' ip i nm s1 s2 s3,
    mkfs (args two_files) mk_start = Ok (tt, st) /\
    reboot (img st) FSSIZE 1 = Ok (tt, r) /\ begin_op r = Ok (tt, r') /\
    namex (fun _ => None) (47 :: [99; 97; 116]) false (fun _ => 0) (cold_fs (sb_of (img st 1)) r') = Ok ((Some ip, nm), s1) /\
    ilock ip s1 = Ok (tt, s2) /\ icache s2 !! ip = Some i /\ i_type i = T_FILE /\ i_size i = 4 /\
    readi (fun _ => None) ip 0 (i_size i) s2 = Ok ((i_size i, [1; 2; 3; 4]), s3).
Proof.
  apply (mkfs_boot two_files 0 [95; 99; 97; 116] [[1; 2; 3]; [4]] (fun _ => None) (fun _ => 0) 1).
  - split; [done|by repeat constructor|by repeat constructor|done].
  - split; [by repeat constructor|by repeat constructor|]. apply (bool_decide_unpack _). vm_compute. done.
  - done.
  - reflexivity.
Defined.
