(* ===== verification/File.v ===== *)
(** * Open files: file.c, and [pipealloc] and [pipeclose] of pipe.c

    The table of open files with its reference counts, over the file system, the
    pipes (each in a page of the allocator, kept by the address of the page) and
    the log.  [fileread] and [filewrite] of a pipe can go to sleep and are resumed
    by the pipe's own code ([Pipe]). *)

From Stdlib Require Import ZArith Lia String.
From stdpp Require Import base numbers gmap functions list.
From S2P Require Import Prelude Bytes Params Kalloc Proc Locks Pipe Bio Log LogDisk Fs FsBlocks FsFile FsInode FsIO.

Local Open Scope Z_scope.
Local Open Scope kernel_scope.

(** ** Data *)

Inductive fdtype := FD_NONE | FD_PIPE | FD_INODE.

#[export] Instance fdtype_eq_dec : EqDecision fdtype.
Proof. solve_decision. Defined.

(** [struct file]; [f_pipe] is the address of the pipe's page. *)
Record file := mkfile {
  f_type : fdtype;
  f_ref : Z;
  f_readable : Z;
  f_writable : Z;
  f_pipe : Z;
  f_ip : nat;
  f_off : Z
}.

Definition set_f_type (v : fdtype) (s : file) : file :=
  mkfile v (f_ref s) (f_readable s) (f_writable s) (f_pipe s) (f_ip s) (f_off s).
Definition set_f_ref (v : Z) (s : file) : file :=
  mkfile (f_type s) v (f_readable s) (f_writable s) (f_pipe s) (f_ip s) (f_off s).
Definition set_f_readable (v : Z) (s : file) : file :=
  mkfile (f_type s) (f_ref s) v (f_writable s) (f_pipe s) (f_ip s) (f_off s).
Definition set_f_writable (v : Z) (s : file) : file :=
  mkfile (f_type s) (f_ref s) (f_readable s) v (f_pipe s) (f_ip s) (f_off s).
Definition set_f_pipe (v : Z) (s : file) : file :=
  mkfile (f_type s) (f_ref s) (f_readable s) (f_writable s) v (f_ip s) (f_off s).
Definition set_f_ip (v : nat) (s : file) : file :=
  mkfile (f_type s) (f_ref s) (f_readable s) (f_writable s) (f_pipe s) v (f_off s).
Definition set_f_off (v : Z) (s : file) : file :=
  mkfile (f_type s) (f_ref s) (f_readable s) (f_writable s) (f_pipe s) (f_ip s) v.

(** [ftable], the pipes and the file system. *)
Record files (D : Type) := mkfiles {
  ft_lock : bool;
  ftable : list file;
  ft_pipes : gmap Z pipe;
  ft_fs : fsys D
}.
Arguments mkfiles {D} _ _ _ _.
Arguments ft_lock {D} _.
Arguments ftable {D} _.
Arguments ft_pipes {D} _.
Arguments ft_fs {D} _.

Definition set_ft_lock {D : Type} (v : bool) (s : files D) : files D := mkfiles v (ftable s) (ft_pipes s) (ft_fs s).
Definition set_ftable {D : Type} (v : list file) (s : files D) : files D := mkfiles (ft_lock s) v (ft_pipes s) (ft_fs s).
Definition set_ft_pipes {D : Type} (v : gmap Z pipe) (s : files D) : files D := mkfiles (ft_lock s) (ftable s) v (ft_fs s).
Definition set_ft_fs {D : Type} (v : fsys D) (s : files D) : files D := mkfiles (ft_lock s) (ftable s) (ft_pipes s) v.

(** The offset of [data] in [struct pipe], after the spin lock, and the addresses of
    the channels of the pipe at [p]. *)
Definition PIPE_DATA : Z := 4 + 4 + 4 + 4 * 10.
Definition pipe_chan (p : Z) (c : pchan) : Z :=
  match c with NRead => p + PIPE_DATA + PIPESIZE | NWrite => p + PIPE_DATA + PIPESIZE + 4 end.

(** The pointers to the entries of [ftable] and of the inode cache are their
    positions from 1 on; 0 is the null pointer. *)
Definition ptr_to (k : nat) : Z := Z.of_nat k + 1.
Definition index_of (a : Z) : nat := Z.to_nat (a - 1).

(** The first file from [k] on that has no references. *)
Fixpoint find_free (k : nat) (fs : list file) : option nat :=
  match fs with
  | [] => None
  | f :: fs' => if f_ref f =? 0 then Some k else find_free (S k) fs'
  end.

Section File.
Context {St D : Type} {PA : PageAllocator St} `{TX : Transactions D}.

Abbreviation FM := (M (files D)).
Abbreviation BM := (M (St * files D)).

Variable devsw_read : Z -> option (nat -> Z -> M (fsys D) (Z * list Z)).
Variable devsw_write : Z -> option (nat -> mem -> Z -> M (fsys D) Z).

(** Running code of the allocator, of the file table, of the file system, of the
    log, and of the pipe in the page at [p]; the latter with the channels it has
    called [wakeup] on. *)
Definition onkern {A} (c : M St A) : BM A :=
  fun s => obind (c s.1) (fun '(a, k) => Ok (a, (k, s.2))).
Definition onfiles {A} (c : FM A) : BM A :=
  fun s => obind (c s.2) (fun '(a, f) => Ok (a, (s.1, f))).
Definition onfs {A} (c : M (fsys D) A) : FM A :=
  fun s => obind (c (ft_fs s)) (fun '(a, f) => Ok (a, set_ft_fs f s)).
Definition onlog {A} (c : M D A) : FM A := onfs (dop c).
Definition onpipe {A} (p : Z) (c : M pipe A) : FM (A * list Z) :=
  fun s => match ft_pipes s !! p with
           | None => Undef
           | Some q =>
               obind (c q) (fun '(a, q) =>
                 Ok ((a, pipe_chan p <$> pi_wakes q),
                     set_ft_pipes (<[p := set_pi_wakes [] q]> (ft_pipes s)) s))
           end.

Definition getf (k : nat) : FM file :=
  fun s => match ftable s !! k with Some f => Ok (f, s) | None => Undef end.
Definition setf (k : nat) (g : file -> file) : FM unit :=
  mset (fun s => set_ftable (alter g k (ftable s)) s).

Definition facquire : FM unit := acquire ft_lock set_ft_lock.
Definition frelease : FM unit := release ft_lock set_ft_lock.

(** ** file.c *)

Definition fileinit : FM unit := mset (set_ft_lock false).

Definition filealloc : FM (option nat) :=
  facquire ;;!
  let! fs := mget ftable in
  match find_free 0 fs with
  | Some k => setf k (set_f_ref 1) ;;! frelease ;;! mret (Some k)
  | None => frelease ;;! mret None
  end.

Definition filedup (k : nat) : FM nat :=
  facquire ;;!
  let! f := getf k in
  if f_ref f <? 1 then mpanic "filedup" else
  setf k (fun f => set_f_ref (f_ref f + 1) f) ;;!
  frelease ;;!
  mret k.

(** [pipeclose]: the last of the two ends frees the page.  The result, here and in
    what follows, has the channels to wake up. *)
Definition pipe_close (p : Z) (writable : bool) : BM (list Z) :=
  let! (last, ws) := onfiles (onpipe p (pipeclose writable)) in
  mwhen last
    (onfiles (mset (fun s => set_ft_pipes (delete p (ft_pipes s)) s)) ;;!
     onkern (pa_kfree p)) ;;!
  mret ws.

Definition fileclose (k : nat) : BM (list Z) :=
  onfiles facquire ;;!
  let! f := onfiles (getf k) in
  if f_ref f <? 1 then mpanic "fileclose" else
  onfiles (setf k (fun f => set_f_ref (f_ref f - 1) f)) ;;!
  let! f := onfiles (getf k) in
  if f_ref f >? 0 then onfiles frelease ;;! mret [] else
  let ff := f in
  onfiles (setf k (set_f_ref 0)) ;;!
  onfiles (setf k (set_f_type FD_NONE)) ;;!
  onfiles frelease ;;!
  match f_type ff with
  | FD_PIPE => pipe_close (f_pipe ff) (negb (f_writable ff =? 0))
  | FD_INODE =>
      onfiles (onlog tx_begin) ;;!
      onfiles (onfs (iput (f_ip ff))) ;;!
      onfiles (onlog tx_end) ;;!
      mret []
  | FD_NONE => mret []
  end.

Definition filestat (k : nat) : FM (option stat) :=
  let! f := getf k in
  match f_type f with
  | FD_INODE =>
      onfs (ilock (f_ip f)) ;;!
      let! st := onfs (stati (f_ip f)) in
      onfs (iunlock (f_ip f)) ;;!
      mret (Some st)
  | _ => mret None
  end.

(** The result and the bytes put at [addr]; [killed] is [myproc()->killed]. *)
Definition fileread (killed : bool) (k : nat) (n : Z) : FM ((io_res * list Z) * list Z) :=
  let! f := getf k in
  if f_readable f =? 0 then mret ((Done (-1), []), []) else
  match f_type f with
  | FD_PIPE => onpipe (f_pipe f) (piperead killed n)
  | FD_INODE =>
      onfs (ilock (f_ip f)) ;;!
      let! (r, l) := onfs (readi devsw_read (f_ip f) (f_off f) (u32 n)) in
      mwhen (r >? 0) (setf k (fun f => set_f_off (u32 (f_off f + r)) f)) ;;!
      onfs (iunlock (f_ip f)) ;;!
      mret ((Done r, l), [])
  | FD_NONE => mpanic "fileread"
  end.

(** The bytes written in one transaction. *)
Definition write_max : Z := ((MAXOPBLOCKS - 1 - 1 - 2) / 2) * 512.

(** The loop over the transactions: the final [i]. *)
Fixpoint filewrite_loop (fuel : nat) (k : nat) (addr : mem) (i n : Z) : FM Z :=
  if negb (i <? n) then mret i else
  match fuel with
  | O => mnofuel
  | S fuel' =>
      let n1 := if n - i >? write_max then write_max else n - i in
      onlog tx_begin ;;!
      let! f := getf k in
      onfs (ilock (f_ip f)) ;;!
      let! r := onfs (writei devsw_write (f_ip f) (fun o => addr (i + o)) (f_off f) (u32 n1)) in
      mwhen (r >? 0) (setf k (fun f => set_f_off (u32 (f_off f + r)) f)) ;;!
      onfs (iunlock (f_ip f)) ;;!
      onlog tx_end ;;!
      if r <? 0 then mret i else
      if negb (r =? n1) then mpanic "short filewrite" else
      filewrite_loop fuel' k addr (i + r) n
  end.

Definition filewrite (killed : bool) (k : nat) (addr : mem) (n : Z) : FM (io_res * list Z) :=
  let! f := getf k in
  if f_writable f =? 0 then mret (Done (-1), []) else
  match f_type f with
  | FD_PIPE => onpipe (f_pipe f) (pipewrite killed addr n)
  | FD_INODE =>
      let! i := filewrite_loop (Z.to_nat (n / write_max + 1)) k addr 0 n in
      mret (Done (if i =? n then n else -1), [])
  | FD_NONE => mpanic "filewrite"
  end.

(** ** [pipealloc] *)

(** After [bad]: the page was not allocated, so only the files are closed; they are
    of type [FD_NONE] and closing them wakes nobody up. *)
Definition pipe_bad (f0 f1 : option nat) : BM (option (nat * nat)) :=
  (match f0 with Some k => fileclose k | None => mret [] end) ;;!
  (match f1 with Some k => fileclose k | None => mret [] end) ;;!
  mret None.

Definition pipealloc : BM (option (nat * nat)) :=
  let! f0 := onfiles filealloc in
  match f0 with
  | None => pipe_bad None None
  | Some k0 =>
      let! f1 := onfiles filealloc in
      match f1 with
      | None => pipe_bad (Some k0) None
      | Some k1 =>
          let! p := onkern pa_kalloc in
          if p =? 0 then pipe_bad (Some k0) (Some k1) else
          let! m := onkern (mget pa_mem) in
          onfiles (mset (fun s => set_ft_pipes (<[p := new_pipe (fun j => m (p + PIPE_DATA + j))]> (ft_pipes s)) s)) ;;!
          onfiles (setf k0 (fun f => set_f_pipe p (set_f_writable 0 (set_f_readable 1 (set_f_type FD_PIPE f))))) ;;!
          onfiles (setf k1 (fun f => set_f_pipe p (set_f_writable 1 (set_f_readable 0 (set_f_type FD_PIPE f))))) ;;!
          mret (Some (k0, k1))
      end
  end.

(** What [proc.c] sees of the layer. *)
Definition dup_ptr (a : Z) : FM Z := filedup (index_of a) ;;! mret a.
Definition idup_ptr (a : Z) : FM Z := onfs (idup (index_of a)) ;;! mret a.
Definition namei_ptr (path : list Z) : FM Z :=
  let! ip := onfs (namei devsw_read path) in
  mret (match ip with Some k => ptr_to k | None => 0 end).

End File.

(** ** The layer as [proc.c] sees it *)

Section Layer.
Context {St D : Type} {PA : PageAllocator St} `{TX : Transactions D}.
Variable devsw_read : Z -> option (nat -> Z -> M (fsys D) (Z * list Z)).

(** An open file, and a cached inode. *)
Definition open_ptr (s : files D) (a : Z) : Prop :=
  ft_lock s = false /\ exists f, ftable s !! index_of a = Some f /\ 1 <= f_ref f.
Definition inode_ptr (s : files D) (a : Z) : Prop :=
  ic_lock (ft_fs s) = false /\ is_Some (icache (ft_fs s) !! index_of a).

(** [filedup] adds a reference and does nothing else. *)
Lemma filedup_run (s : files D) k f :
  ft_lock s = false -> ftable s !! k = Some f -> 1 <= f_ref f ->
  filedup k s = Ok (k, set_ftable (alter (fun f => set_f_ref (f_ref f + 1) f) k (ftable s)) s).
Proof.
  intros Hl Hk Hf. unfold filedup, facquire, frelease, acquire, release, getf, setf, mbind, mset, mret.
  rewrite Hl. cbn. rewrite Hk. cbn. rewrite (proj2 (Z.ltb_ge _ _)) by lia. cbn.
  destruct s. cbn in *. by subst.
Qed.

Lemma dup_ptr_ok (s : files D) a : open_ptr s a ->
  exists s', dup_ptr a s = Ok (a, s') /\ (forall b, open_ptr s b -> open_ptr s' b) /\
    (forall i, inode_ptr s i -> inode_ptr s' i).
Proof.
  intros (Hl & f & Hk & Hf). eexists. split_and!.
  - unfold dup_ptr. by rewrite (mbind_ok _ _ _ _ _ (filedup_run _ _ _ Hl Hk Hf)).
  - intros b (_ & g & Hb & Hg). split; [done|]. cbn. rewrite list_lookup_alter.
    destruct (decide (index_of a = index_of b)) as [E|]; [|eauto].
    rewrite E, Hb. eexists. split; [done|]. cbn. lia.
  - done.
Qed.

Lemma idup_run (s : fsys D) k :
  ic_lock s = false -> idup k s = Ok (k, set_icache (alter (fun i => set_i_ref (i_ref i + 1) i) k (icache s)) s).
Proof.
  intros Hl. unfold idup, iacquire, irelease, acquire, release, seti, mbind, mset, mret. rewrite Hl. cbn.
  destruct s. cbn in *. by subst.
Qed.

Lemma idup_ptr_ok (s : files D) a : inode_ptr s a ->
  exists s', idup_ptr a s = Ok (a, s') /\ (forall b, open_ptr s b -> open_ptr s' b) /\
    (forall i, inode_ptr s i -> inode_ptr s' i).
Proof.
  intros (Hl & Hi). eexists. split_and!.
  - unfold idup_ptr, onfs, mbind. rewrite (idup_run _ _ Hl). cbn. done.
  - done.
  - intros b (_ & Hb). split; [done|]. cbn. apply lookup_lt_is_Some. rewrite length_alter.
    by apply lookup_lt_is_Some.
Qed.

#[local] Instance file_layer : FileLayer St (files D) := {|
  fl_filedup := dup_ptr;
  fl_fileclose a := fileclose (index_of a);
  fl_idup := idup_ptr;
  fl_iput a := onfs (iput (index_of a));
  fl_begin_op := onlog tx_begin;
  fl_end_op := onlog tx_end;
  fl_namei := namei_ptr devsw_read;
  fl_file := open_ptr;
  fl_inode := inode_ptr;
  fl_filedup_ok := dup_ptr_ok;
  fl_idup_ok := idup_ptr_ok
|}.

End Layer.
