(* ===== verification/FileWrite.v ===== *)
(** * Large writes: [filewrite] of file.c, over the file system and the log

    [filewrite] cuts the data into transactions.  The bound on the places a piece
    can add to a file shows that each transaction fits the log; between two of them
    the log is empty again and the file is consistent, and the file as a whole ends
    up with the new bytes. *)

From Stdlib Require Import ZArith Lia String.
From stdpp Require Import base numbers gmap functions list.
From S2P Require Import Prelude Bytes Params Kalloc Proc Locks Pipe Bio Log LogDisk Fs FsBlocks FsFile FsInode FsIO File.

Local Open Scope Z_scope.
Local Open Scope kernel_scope.

(** ** How much a piece of a write can add to a file *)

(** The places a piece of at most [write_max] bytes touches: at most four blocks, and
    above them at most three blocks of block numbers. *)
Definition upper (bn : Z) : list place :=
  if bn + 3 - NDIRECT <? NINDIRECT then [InInode NDIRECT]
  else if bn - NDIRECT <? NINDIRECT then [InInode NDIRECT; InInode (NDIRECT + 1); InDbl 0]
  else [InInode (NDIRECT + 1); InDbl ((bn - NDIRECT - NINDIRECT) / NINDIRECT);
        InDbl ((bn - NDIRECT - NINDIRECT) / NINDIRECT + 1)].

Lemma path_near bn k p : 0 <= bn -> 0 <= k <= 3 -> p ∈ path (bn + k) -> p = place_of (bn + k) \/ p ∈ upper bn.
Proof.
  intros Hbn Hk. unfold path, place_of, upper. fsconst.
  destruct (Z.ltb_spec (bn + k) 11) as [|H1]; [rewrite list_elem_of_singleton; auto|].
  destruct (Z.ltb_spec (bn + k - 11) 128) as [H2|H2].
  - rewrite !list.elem_of_cons, elem_of_nil. intros [->|[->|[]]]; [right|by left].
    destruct (Z.ltb_spec (bn + 3 - 11) 128); [by left|]. destruct (Z.ltb_spec (bn - 11) 128); [by left|lia].
  - rewrite !list.elem_of_cons, elem_of_nil. intros [->|[->|[->|[]]]]; [right|right|by left].
    + destruct (Z.ltb_spec (bn + 3 - 11) 128); [lia|]. destruct (Z.ltb_spec (bn - 11) 128); [right; by left|by left].
    + destruct (Z.ltb_spec (bn + 3 - 11) 128); [lia|]. destruct (Z.ltb_spec (bn - 11) 128) as [H3|H3].
      * assert ((bn + k - 11 - 128) / 128 = 0) as -> by zlia. right; right; by left.
      * assert (E : (bn + k - 11 - 128) / 128 = (bn - 11 - 128) / 128 \/ (bn + k - 11 - 128) / 128 = (bn - 11 - 128) / 128 + 1) by zlia.
        destruct E as [-> | ->]; [right; by left|right; right; by left].
Qed.

Lemma upper_length bn : (length (upper bn) <= 3)%nat.
Proof. unfold upper. destruct (_ <? _); [cbn; lia|]. destruct (_ <? _); cbn; lia. Qed.

Lemma blocks_few off n : 0 <= off -> n <= write_max -> Z.of_nat (length (blocks off n)) <= 4.
Proof.
  intros Ho Hn. change write_max with 1536 in Hn. unfold blocks. destruct (Z.leb_spec n 0); [cbn; lia|].
  rewrite length_seqZ. fsconst. zlia.
Qed.

Lemma piece_places (v : Z -> mem) A off n :
  0 <= off -> n <= write_max -> nmiss v A (places off n) <= 7.
Proof.
  intros Ho Hn. unfold nmiss. set (l := filter _ _).
  set (bn := off / BSIZE). assert (Hbn : 0 <= bn) by (unfold bn; fsconst; zlia).
  assert (Hsub : l ⊆+ ((fun k => place_of (bn + k)) <$> [0; 1; 2; 3]) ++ upper bn).
  { apply NoDup_submseteq; [apply NoDup_filter, NoDup_remove_dups|]. intros p Hp.
    apply list_elem_of_filter in Hp as [_ Hp]. rewrite elem_of_remove_dups in Hp. unfold places in Hp.
    apply list_elem_of_In, in_concat in Hp as (q & Hq%list_elem_of_In & Hp%list_elem_of_In).
    apply list_elem_of_fmap in Hq as (b & -> & Hb). unfold blocks in Hb.
    destruct (Z.leb_spec n 0); [by apply elem_of_nil in Hb|]. apply elem_of_seqZ in Hb. fold bn in Hb.
    change write_max with 1536 in Hn.
    assert (Hk : 0 <= b - bn <= 3) by (unfold bn in *; fsconst; zlia).
    replace b with (bn + (b - bn)) in Hp by lia. destruct (path_near bn (b - bn) p Hbn Hk Hp) as [-> |Hp'].
    - apply elem_of_app. left. apply list_elem_of_fmap. exists (b - bn). split; [done|].
      assert (b - bn = 0 \/ b - bn = 1 \/ b - bn = 2 \/ b - bn = 3) as [-> |[-> |[-> | ->]]] by lia;
        rewrite !list.elem_of_cons; auto.
    - apply elem_of_app. by right. }
  apply submseteq_length in Hsub. rewrite length_app, length_fmap in Hsub. pose proof (upper_length bn). cbn in Hsub. lia.
Qed.

(** Log entries of one transaction of [filewrite], and blocks it takes. *)
Lemma piece_cost (v : Z -> mem) A off n :
  0 <= off -> n <= write_max -> wcost v A off n + 1 <= 26 /\ wblocks v A off n <= 7.
Proof.
  intros Ho Hn. pose proof (piece_places v A off n Ho Hn). pose proof (blocks_few off n Ho Hn). unfold wcost, wblocks. lia.
Qed.

Section FileWrite.
Context {D : Type} `{TX : Transactions D}.

(** ** Contents that agree where the file system looks *)

Definition agree (v v' : Z -> mem) : Prop := forall y, ld_home y \/ y = 1 -> v' y = v y.

Section Agree.
Context (v v' : Z -> mem) (sb : superblock) (A : list Z).
Hypotheses (Hag : agree v v') (Hfs : fs_ok v sb).

Lemma used_agree b : 0 <= b < sb_size sb -> used v' sb b = used v sb b.
Proof using Hag Hfs. intros Hb. unfold used. rewrite Hag; [done|]. left. by apply (fo_bmap _ _ Hfs). Qed.

Lemma nfree_agree : nfree v' sb = nfree v sb.
Proof using Hag Hfs. apply nfree_ext, used_agree. Qed.

Lemma fs_ok_agree : fs_ok v' sb.
Proof using Hag Hfs.
  destruct Hfs as [H1 H2 H3 H4 H5]. split; [|done|done|done|].
  - rewrite Hag by (by right). done.
  - intros b Hb. rewrite used_agree by done. by apply H5.
Qed.

Hypothesis Hfile : file_ok v sb A.

Lemma entry_agree p k : place_ok p -> entry v' (ptr v A p) k = entry v (ptr v A p) k.
Proof using Hag Hfile.
  intros Hp. unfold entry. destruct (Z.eqb_spec (ptr v A p) 0) as [|Hne]; [done|].
  rewrite Hag; [done|]. left. apply (fi_blk _ _ _ Hfile p Hp Hne).
Qed.

Lemma ptr_agree p : place_ok p -> ptr v' A p = ptr v A p.
Proof using Hag Hfile.
  assert (Hdbl : forall j, 0 <= j < NINDIRECT -> ptr v' A (InDbl j) = ptr v A (InDbl j)).
  { intros j Hj. apply (entry_agree (InInode (NDIRECT + 1)) j). cbn. fsconst. lia. }
  destruct p as [k|k|j|j k]; intros Hp; [done| |by apply Hdbl|].
  - apply (entry_agree (InInode NDIRECT) k). cbn. fsconst. lia.
  - destruct Hp as [Hj _]. rewrite (ptr_parent v' A (InLeaf j k) (InDbl j) k), (ptr_parent v A (InLeaf j k) (InDbl j) k) by done.
    rewrite Hdbl by done. by apply (entry_agree (InDbl j)).
Qed.

Lemma file_ok_agree : file_ok v' sb A.
Proof using Hag Hfs Hfile.
  destruct Hfile as [H1 H2 H3] eqn:E. clear E. split; [done| |].
  - intros p Hp. rewrite ptr_agree by done. intros Hne. destruct (H2 p Hp Hne) as [Hd Hu]. split; [done|].
    rewrite used_agree; [done|]. destruct Hd as (_ & Hd & _). lia.
  - intros p q Hp Hq. rewrite !ptr_agree by done. by apply H3.
Qed.

Lemma byte_agree o : 0 <= o < MAXFILE * BSIZE -> file_byte v' A o = file_byte v A o.
Proof using Hag Hfile.
  intros Ho. destruct (place_of_ok (o / BSIZE)) as [Hp _]; [fsconst; zlia|]. unfold file_byte. rewrite ptr_agree by done.
  destruct (Z.eqb_spec (ptr v A (place_of (o / BSIZE))) 0) as [|Hne]; [done|].
  rewrite Hag; [done|]. left. apply (fi_blk _ _ _ Hfile _ Hp Hne).
Qed.

Lemma dense_agree size : size <= MAXFILE * BSIZE -> dense v A size -> dense v' A size.
Proof using Hag Hfile.
  intros Hs Hd o Ho. rewrite ptr_agree; [by apply Hd|]. apply place_of_ok. fsconst. zlia.
Qed.

Lemma synced_agree i : 0 <= i_inum i < sb_ninodes sb -> synced v sb i -> synced v' sb i.
Proof using Hag Hfs.
  intros Hi. unfold synced. rewrite Hag; [done|]. left. by apply (fo_imap _ _ Hfs).
Qed.

End Agree.

(** ** A file between two transactions *)

Record idle_file (s : fsys D) (ip : nat) (i : inode) (v : Z -> mem) (sb : superblock) (f : Z) : Prop := {
  id_inode : icache s !! ip = Some i;
  id_ref : 1 <= i_ref i;
  id_lock : i_lock i = sl_free;
  id_valid : i_valid i <> 0;
  id_dev : i_dev i = 1;
  id_type : i_type i <> T_DEV;
  id_sb : fsb s = sb;
  id_fs : fs_ok v sb;
  id_file : file_ok v sb (i_addrs i);
  id_view : ld_view (fdisk s) v [] [];
  id_idle : tx_idle (fdisk s);
  id_free : f <= Z.of_nat (nfree v sb);
  id_ok : inode_ok i;
  id_inum : 0 <= i_inum i < sb_ninodes sb;
  id_size : i_size i <= MAXFILE * BSIZE;
  id_dense : dense v (i_addrs i) (i_size i);
  id_synced : synced v sb i
}.

Lemma synced_lock v sb i l : synced v sb i -> synced v sb (set_i_lock l i).
Proof.
  intros H. unfold synced in *. cbn [i_inum set_i_lock].
  change (get_dinode ?o ?m (set_i_lock l i)) with (set_i_lock l (get_dinode o m i)). by rewrite H.
Qed.

(** One transaction: begin, lock, write, unlock, end. *)
Definition write_tx (dw : Z -> option (nat -> mem -> Z -> M (fsys D) Z)) (ip : nat) (src : mem) (off n : Z) : M (fsys D) Z :=
  dop tx_begin ;;! ilock ip ;;!
  let! r := writei dw ip src off n in
  iunlock ip ;;! dop tx_end ;;! mret r.

Lemma begin_lock_open s ip i v sb f :
  idle_file s ip i v sb f -> 27 <= ld_cap -> exists d, tx_begin (fdisk s) = Ok (tt, d) /\
  ilock ip (set_fdisk d s) = Ok (tt, put_inode ip (locked (fpid s) i) (set_fdisk d s)) /\
  open_file (put_inode ip (locked (fpid s) i) (set_fdisk d s)) ip (locked (fpid s) i) v sb [] 26 f.
Proof.
  intros [Hi Hr Hl Hv Hd Ht Hsb Hfs Hf Hvw Hidle Hfr Hok Hin Hsz Hde Hsy] Hcap.
  destruct (tx_begin_ok _ _ Hvw Hidle) as (d & R & Hvd & Hopen). exists d. split_and!; [done| |].
  - by apply (ilock_valid (set_fdisk d s) ip i).
  - assert (Hat : icache (put_inode ip (locked (fpid s) i) (set_fdisk d s)) !! ip = Some (locked (fpid s) i))
      by (by apply (put_inode_at ip (locked (fpid s) i) i (set_fdisk d s))).
    pose proof ld_sizes as [_ Hnb]. split; [|by destruct Hok|done|done|done|by apply synced_lock].
    split; try done; [by apply Forall_nil|cbn; lia].
Qed.

(** The transaction leaves the file idle again, with the new bytes. *)
Lemma write_tx_ok dw s ip i v sb f src off n :
  idle_file s ip i v sb f -> 27 <= ld_cap -> 0 <= off <= i_size i -> 0 <= n <= write_max ->
  off + n <= MAXFILE * BSIZE -> 7 <= f ->
  exists s' i' v', write_tx dw ip src off n s = Ok (n, s') /\ idle_file s' ip i' v' sb (f - 7) /\
    i_size i' = Z.max (i_size i) (off + n) /\ i_inum i' = i_inum i /\ fpid s' = fpid s /\
    forall o, 0 <= o < MAXFILE * BSIZE ->
      file_byte v' (i_addrs i') o = if decide (off <= o < off + n) then src (o - off) else file_byte v (i_addrs i) o.
Proof.
  intros Hid Hcap Ho Hn Hmax Hf. destruct (begin_lock_open s ip i v sb f Hid Hcap) as (d & R1 & R2 & Hopen).
  set (s1 := put_inode ip (locked (fpid s) i) (set_fdisk d s)) in *.
  pose proof (piece_cost v (i_addrs i) off n ltac:(lia) ltac:(lia)) as [Hc Hb].
  destruct (writei_ok dw s1 ip (locked (fpid s) i) v sb [] 26 f src off n Hopen) as (s2 & R3 & i2 & v2 & d2 & L2 & Es2 & Ei2 & Hof2 & Hby & _);
    [apply Hid|done|lia|done|done|cbn [i_addrs set_i_lock locked]; lia|].
  destruct Hof2 as [[Hi2 Hdev2 Hsb2 Hfs2 Hf2 Hvw2 Hop2 _ _ _ Hfr2] Hok2 Hin2 Hsz2 Hde2 Hsy2].
  assert (Hl2 : i_lock i2 = sl_held (fpid s2)) by (rewrite Ei2, Es2; done).
  assert (R4 : iunlock ip s2 = Ok (tt, put_inode ip (set_i_lock sl_free i2) s2)).
  { apply iunlock_ok; [done| |done]. rewrite Ei2. apply Hid. }
  set (s3 := put_inode ip (set_i_lock sl_free i2) s2) in *.
  destruct (tx_end_ok (fdisk s3) v2 L2 Hvw2 Hop2) as (d3 & v3 & R5 & Hvw3 & Hidle3 & Hag).
  exists (set_fdisk d3 s3), (set_i_lock sl_free i2), v3. split_and!.
  - unfold write_tx. rewrite (mbind_ok _ _ s tt (set_fdisk d s)) by (by apply dop_ok). mby R2. mby R3. mby R4.
    rewrite (mbind_ok _ _ s3 tt (set_fdisk d3 s3)) by (by apply dop_ok). done.
  - assert (Hat : icache s3 !! ip = Some (set_i_lock sl_free i2)) by (by apply (put_inode_at ip (set_i_lock sl_free i2) i2 s2)).
    split; try done.
    + rewrite Ei2. apply Hid.
    + rewrite Ei2. apply Hid.
    + rewrite Ei2. apply Hid.
    + by apply (fs_ok_agree v2).
    + by apply (file_ok_agree v2).
    + rewrite (nfree_agree v2 v3 sb) by done. cbn [i_addrs set_i_lock locked] in Hfr2. lia.
    + by destruct Hok2.
    + by apply (dense_agree v2 v3 sb).
    + apply synced_lock. by apply (synced_agree v2).
  - cbn. by rewrite Ei2.
  - cbn. by rewrite Ei2.
  - cbn. by rewrite Es2.
  - intros o Hoo. cbn. rewrite (byte_agree v2 v3 sb) by done. by apply Hby.
Qed.

(** ** The loop *)

(** The file behind entry [k] after the offset has moved to [off]. *)
Definition moved (k : nat) (off : Z) (t : files D) (s : fsys D) : files D :=
  set_ftable (alter (set_f_off off) k (ftable t)) (set_ft_fs s t).

Lemma onfs_ok {A} (c : M (fsys D) A) (t : files D) a s :
  c (ft_fs t) = Ok (a, s) -> onfs c t = Ok (a, set_ft_fs s t).
Proof. intros E. unfold onfs. by rewrite E. Qed.

(** One iteration runs [write_tx] and moves the offset. *)
Lemma write_step dw k f t src n s' :
  ftable t !! k = Some f -> 0 < n < 2 ^ 31 -> is_u32 (f_off f + n) ->
  write_tx dw (f_ip f) src (f_off f) n (ft_fs t) = Ok (n, s') ->
  (onlog tx_begin ;;!
   let! f := getf k in
   onfs (ilock (f_ip f)) ;;!
   let! r := onfs (writei dw (f_ip f) src (f_off f) (u32 n)) in
   mwhen (r >? 0) (setf k (fun f => set_f_off (u32 (f_off f + r)) f)) ;;!
   onfs (iunlock (f_ip f)) ;;!
   onlog tx_end ;;! mret r) t = Ok (n, moved k (f_off f + n) t s').
Proof.
  intros Hk Hn Hu. unfold write_tx. intros E.
  apply mbind_inv in E as ([] & s1 & R1 & E). apply mbind_inv in E as ([] & s2 & R2 & E).
  apply mbind_inv in E as (r & s3 & R3 & E). apply mbind_inv in E as ([] & s4 & R4 & E).
  apply mbind_inv in E as ([] & s5 & R5 & E). injection E as -> ->.
  unfold onlog. rewrite (mbind_ok _ _ t _ _ (onfs_ok _ _ _ _ R1)).
  assert (Hg : getf k (set_ft_fs s1 t) = Ok (f, set_ft_fs s1 t)) by (unfold getf; cbn; by rewrite Hk). mby Hg.
  rewrite (mbind_ok _ _ (set_ft_fs s1 t) _ _ (onfs_ok _ (set_ft_fs s1 t) _ _ R2)).
  rewrite (u32_small n) by (unfold is_u32; lia).
  rewrite (mbind_ok _ _ _ _ _ (onfs_ok _ (set_ft_fs s2 t) _ _ R3)).
  rewrite Z.gtb_ltb, (proj2 (Z.ltb_lt 0 n)) by lia. cbn [mwhen]. unfold setf. mgo.
  assert (Ea : alter (fun f => set_f_off (u32 (f_off f + n)) f) k (ftable t) = alter (set_f_off (f_off f + n)) k (ftable t)).
  { rewrite !(alter_insert _ _ _ _ Hk). by rewrite u32_small. }
  cbn [ftable set_ft_fs]. rewrite Ea.
  rewrite (mbind_ok _ _ _ _ _ (onfs_ok _ (moved k (f_off f + n) t s3) _ _ R4)).
  rewrite (mbind_ok _ _ _ _ _ (onfs_ok _ (moved k (f_off f + n) t s4) _ _ R5)). done.
Qed.

(** The same iteration at the head of the loop, with its checks after it. *)
Lemma loop_step dw fuel k addr i n t r t' (n1 := if n - i >? write_max then write_max else n - i) :
  i < n -> 0 <= r -> r = n1 ->
  (onlog tx_begin ;;!
   let! f := getf k in
   onfs (ilock (f_ip f)) ;;!
   let! r := onfs (writei dw (f_ip f) (fun o => addr (i + o)) (f_off f) (u32 n1)) in
   mwhen (r >? 0) (setf k (fun f => set_f_off (u32 (f_off f + r)) f)) ;;!
   onfs (iunlock (f_ip f)) ;;!
   onlog tx_end ;;! mret r) t = Ok (r, t') ->
  filewrite_loop dw (S fuel) k addr i n t = filewrite_loop dw fuel k addr (i + r) n t'.
Proof.
  intros Hi Hr Hn E. cbn [filewrite_loop]. rewrite (proj2 (Z.ltb_lt i n)) by lia. cbn [negb]. fold n1.
  apply mbind_inv in E as ([] & s1 & R1 & E). apply mbind_inv in E as (f & s2 & R2 & E).
  apply mbind_inv in E as ([] & s3 & R3 & E). apply mbind_inv in E as (r0 & s4 & R4 & E).
  apply mbind_inv in E as ([] & s5 & R5 & E). apply mbind_inv in E as ([] & s6 & R6 & E).
  apply mbind_inv in E as ([] & s7 & R7 & E). injection E as -> ->.
  mby R1. mby R2. mby R3. mby R4. mby R5. mby R6. mby R7.
  rewrite (proj2 (Z.ltb_ge r 0)) by lia. by rewrite Hn, Z.eqb_refl.
Qed.

(** The bytes of the file after [n] bytes of [src] are written at [off]. *)
Definition overwritten (v : Z -> mem) (A : list Z) (src : mem) (off n o : Z) : Z :=
  if decide (off <= o < off + n) then src (o - off) else file_byte v A o.

(** What the loop comes to, from index [j] on. *)
Definition writes dw (fuel : nat) (k : nat) (addr : mem) (j n : Z) (t : files D) (f : file) (i : inode) (v : Z -> mem)
    (sb : superblock) (nf : Z) : Prop :=
  exists s' i' v', filewrite_loop dw fuel k addr j n t = Ok (n, moved k (f_off f + (n - j)) t s') /\
    idle_file s' (f_ip f) i' v' sb (nf - 7 * Z.of_nat fuel) /\ i_size i' = Z.max (i_size i) (f_off f + (n - j)) /\
    forall o, 0 <= o < MAXFILE * BSIZE ->
      file_byte v' (i_addrs i') o = overwritten v (i_addrs i) (fun o => addr (j + o)) (f_off f) (n - j) o.

Lemma writes_done dw fuel k addr n t f i v sb nf :
  ftable t !! k = Some f -> idle_file (ft_fs t) (f_ip f) i v sb nf -> 0 <= f_off f <= i_size i ->
  writes dw fuel k addr n n t f i v sb nf.
Proof.
  intros Hk Hid Ho. exists (ft_fs t), i, v. rewrite Z.sub_diag, Z.add_0_r. split_and!; [| |lia|].
  - assert (E : moved k (f_off f) t (ft_fs t) = t).
    { unfold moved. cbn. rewrite (alter_insert _ _ _ _ Hk), list_insert_id by (destruct f; done). by destruct t. }
    rewrite E. destruct fuel; cbn; by rewrite Z.ltb_irrefl.
  - destruct Hid. by split; try done; lia.
  - intros o Hoo. unfold overwritten. rewrite decide_False by lia. done.
Qed.

Lemma filewrite_loop_ok dw k addr sb n : 27 <= ld_cap -> n < 2 ^ 31 -> forall fuel t f i v nf j,
  ftable t !! k = Some f -> idle_file (ft_fs t) (f_ip f) i v sb nf -> 0 <= j <= n -> 0 <= f_off f <= i_size i ->
  f_off f + (n - j) <= MAXFILE * BSIZE -> n - j <= write_max * Z.of_nat fuel -> 7 * Z.of_nat fuel <= nf ->
  writes dw fuel k addr j n t f i v sb nf.
Proof.
  intros Hcap Hn32. induction fuel as [|fuel IH]; intros t f i v nf j Hk Hid Hj Ho Hmax Hfuel Hnf;
    change write_max with 1536 in Hfuel; (destruct (Z.eq_dec j n) as [->|Hne]; [by apply writes_done|]).
  - lia.
  - set (n1 := if n - j >? write_max then write_max else n - j).
    assert (Hn1 : 0 < n1 <= write_max /\ n1 <= n - j /\ (n1 = n - j \/ n1 = 1536)).
    { unfold n1. change write_max with 1536. rewrite Z.gtb_ltb. destruct (Z.ltb_spec 1536 (n - j)); lia. }
    destruct (write_tx_ok dw (ft_fs t) (f_ip f) i v sb nf (fun o => addr (j + o)) (f_off f) n1 Hid Hcap)
      as (s1 & i1 & v1 & R & Hid1 & Hsz1 & _ & _ & Hb1); [lia|lia|lia|lia|].
    assert (Hu : is_u32 (f_off f + n1)) by (unfold is_u32; fsconst; lia).
    pose proof (write_step dw k f t _ n1 s1 Hk ltac:(lia) Hu R) as Hstep.
    unfold writes. rewrite (loop_step dw fuel k addr j n t n1 _ ltac:(lia) ltac:(lia) eq_refl Hstep).
    set (t1 := moved k (f_off f + n1) t s1). set (f1 := set_f_off (f_off f + n1) f).
    assert (Hk1 : ftable t1 !! k = Some f1) by (unfold t1, moved; cbn; by rewrite list_lookup_alter_eq, Hk).
    destruct (IH t1 f1 i1 v1 (nf - 7) (j + n1) Hk1 Hid1) as (s2 & i2 & v2 & R2 & Hid2 & Hsz2 & Hb2);
      [lia|unfold f1; cbn; lia|unfold f1; cbn; lia|change write_max with 1536; lia|lia|].
    exists s2, i2, v2. change (f_ip f1) with (f_ip f) in *. change (f_off f1) with (f_off f + n1) in *.
    replace (f_off f + n1 + (n - (j + n1))) with (f_off f + (n - j)) in * by lia. split_and!.
    + rewrite R2. do 2 f_equal. unfold t1, moved. cbn. by rewrite list_alter_alter_eq.
    + by replace (nf - 7 * Z.of_nat (S fuel)) with (nf - 7 - 7 * Z.of_nat fuel) by lia.
    + rewrite Hsz2, Hsz1. lia.
    + intros o Hoo. rewrite Hb2 by done. unfold overwritten.
      destruct (decide (f_off f + n1 <= o < f_off f + n1 + (n - (j + n1)))).
      * rewrite decide_True by lia. f_equal. lia.
      * rewrite Hb1 by done. destruct (decide (f_off f <= o < f_off f + n1)).
        -- rewrite decide_True by lia. done.
        -- rewrite decide_False by lia. done.
Qed.

(** ** Property *)

(** C4: a write of any length to a file, with the log to itself and enough free
    blocks (seven for each piece of 1536 bytes), returns [n]: none of its
    transactions overflows the log, which holds 27 blocks or more, and none is
    short.  The offset moves by [n], the file grows if needed and has the new
    bytes where they were written and the old ones elsewhere; afterwards no
    transaction is open and the inode is unlocked and stored. *)
Theorem filewrite_transactions dw t k f i v sb nf addr n :
  27 <= ld_cap -> ftable t !! k = Some f -> f_type f = FD_INODE -> f_writable f <> 0 ->
  idle_file (ft_fs t) (f_ip f) i v sb nf -> 0 <= n < 2 ^ 31 -> 0 <= f_off f <= i_size i ->
  f_off f + n <= MAXFILE * BSIZE -> 7 * (n / write_max + 1) <= nf ->
  exists s' i' v', filewrite dw false k addr n t = Ok ((Done n, []), moved k (f_off f + n) t s') /\
    idle_file s' (f_ip f) i' v' sb (nf - 7 * (n / write_max + 1)) /\ i_size i' = Z.max (i_size i) (f_off f + n) /\
    forall o, 0 <= o < MAXFILE * BSIZE ->
      file_byte v' (i_addrs i') o = overwritten v (i_addrs i) addr (f_off f) n o.
Proof.
  intros Hcap Hk Hty Hw Hid Hn Ho Hmax Hnf.
  assert (Hd : 0 <= n / write_max) by (apply Z.div_pos; [lia|done]).
  destruct (filewrite_loop_ok dw k addr sb n Hcap ltac:(lia) (Z.to_nat (n / write_max + 1)) t f i v nf 0 Hk Hid)
    as (s' & i' & v' & R & Hid' & Hsz & Hb); rewrite ?Z2Nat.id, ?Z.sub_0_r in * by lia; try lia.
  { change write_max with 1536. zlia. }
  exists s', i', v'. split_and!; try done.
  unfold filewrite. assert (Hg : getf k t = Ok (f, t)) by (unfold getf; by rewrite Hk). mby Hg.
  rewrite (proj2 (Z.eqb_neq _ _) Hw), Hty. mby R. by rewrite Z.eqb_refl.
Qed.

End FileWrite.

(** ** Witness: a write of 2000 bytes at the end of the root of the small disk *)

Lemma mini_idle : exists (s : fsys lst) i v, idle_file (LD := mini_ld) (TX := mini_tx) s 0 i v mini_sb 60 /\ i_size i = 32.
Proof.
  destruct mini_open as (s & v & [[Hi Hdev Hsb Hfs Hf Hvw Hop _ _ _ Hfr] Hok Hin Hsz Hde Hsy]).
  destruct (tx_end_ok (Transactions := mini_tx) (fdisk s) v [] Hvw Hop) as (d & v' & _ & Hvw' & Hidle & Hag).
  set (i := set_i_lock sl_free mini_inode).
  exists (set_fdisk d (put_inode 0 i s)), i, v'. split; [|done].
  assert (Hat : icache (put_inode 0 i s) !! 0%nat = Some i) by (by apply (put_inode_at 0 i mini_inode s)).
  pose proof (fs_ok_agree (LD := mini_ld) v v' mini_sb Hag Hfs) as Hfs'.
  pose proof (file_ok_agree (LD := mini_ld) v v' mini_sb _ Hag Hfs Hf) as Hf'.
  pose proof (dense_agree (LD := mini_ld) v v' mini_sb _ Hag Hf _ Hsz Hde) as Hde'.
  pose proof (synced_agree (LD := mini_ld) v v' mini_sb Hag Hfs _ Hin Hsy) as Hsy'.
  rewrite <- (nfree_agree (LD := mini_ld) v v' mini_sb Hag Hfs) in Hfr.
  constructor;
    [exact Hat|cbn; lia|reflexivity|discriminate|reflexivity|discriminate|exact Hsb|exact Hfs'|exact Hf'|exact Hvw'
    |exact Hidle|exact Hfr|by destruct Hok|exact Hin|exact Hsz|exact Hde'|by apply (synced_lock v' mini_sb mini_inode)].
Qed.

Lemma filewrite_transactions_witness :
  exists (t t' : files lst), filewrite (LD := mini_ld) (TX := mini_tx) (fun _ => None) false 0 (fun o => o mod 256) 2000 t = Ok ((Done 2000, []), t').
Proof.
  destruct mini_idle as (s & i & v & Hid & Hsz). set (f := mkfile FD_INODE 1 1 1 0 0 32).
  destruct (filewrite_transactions (LD := mini_ld) (TX := mini_tx) (fun _ => None) (mkfiles false [f] ∅ s) 0 f i v mini_sb 60 (fun o => o mod 256) 2000)
    as (s' & i' & v' & R & _); [by vm_compute|done|done|done|exact Hid|lia|cbn; lia|by vm_compute|by vm_compute|].
  eexists _, _. exact R.
Defined.
