(* ===== verification/Exec.v ===== *)
(** * exec: exec.c, elf.h

    [exec] builds a new address space from an ELF file: the segments, a guard page,
    a stack as large as the segments, and the arguments on it; then it replaces the
    image of the process.  It joins the file system ([Fs], [File]), the page tables
    ([Vm]) and the process table ([Proc]). *)

From Stdlib Require Import ZArith Lia String.
From stdpp Require Import base numbers gmap functions list.
From S2P Require Import Prelude Bytes Params Kalloc Vm VmSpace Proc ProcInv ProcFork Trap Locks Pipe Bio Log LogDisk Fs FsBlocks File.

Local Open Scope Z_scope.
Local Open Scope kernel_scope.

(** ** elf.h *)

Definition ELF_MAGIC : Z := 0x464C457F.
Definition ELF_PROG_LOAD : Z := 1.

Definition bytes_at (l : list Z) : mem := fun i => nth (Z.to_nat i) l 0.

(** [struct elfhdr]: its size and the fields [exec] reads. *)
Definition ELFHDR_SIZE : Z := 4 + 12 + 2 + 2 + 4 + 4 + 4 + 4 + 4 + 2 * 6.
Definition elf_magic (l : list Z) : Z := get32 (bytes_at l) 0.
Definition elf_entry (l : list Z) : Z := get32 (bytes_at l) 24.
Definition elf_phoff (l : list Z) : Z := get32 (bytes_at l) 28.
Definition elf_phnum (l : list Z) : Z := get16 (bytes_at l) 44.

(** [struct proghdr]. *)
Definition PROGHDR_SIZE : Z := 4 * 8.
Definition ph_type (l : list Z) : Z := get32 (bytes_at l) 0.
Definition ph_off (l : list Z) : Z := get32 (bytes_at l) 4.
Definition ph_vaddr (l : list Z) : Z := get32 (bytes_at l) 8.
Definition ph_filesz (l : list Z) : Z := get32 (bytes_at l) 16.
Definition ph_memsz (l : list Z) : Z := get32 (bytes_at l) 20.

(** The little-endian bytes of an array of words. *)
Definition word_bytes (v : Z) : list Z := [u8 v; u8 (Z.shiftr v 8); u8 (Z.shiftr v 16); u8 (Z.shiftr v 24)].
Definition words_bytes (l : list Z) : list Z := flat_map word_bytes l.

(** What follows the last slash of the path. *)
Fixpoint last_elem (last s : list Z) : list Z :=
  match s with
  | [] => last
  | c :: s' => last_elem (if c =? 47 then s' else last) s'
  end.

Section Exec.
Context {St D : Type} {PA : PageAllocator St} `{TX : Transactions D}.
Variable data : Z.
Variable devsw_read : Z -> option (nat -> Z -> M (fsys D) (Z * list Z)).

Abbreviation PM := (M (pst St (files D))).

Definition fs {A} (c : M (fsys D) A) : PM A := fsop (onfs c).
Definition begin_tx : PM unit := fsop (onlog tx_begin).
Definition end_tx : PM unit := fsop (onlog tx_end).

(** [readi] into kernel memory. *)
Definition readi_to (ip : nat) (dst off n : Z) : PM Z :=
  let! (r, l) := fs (readi devsw_read ip off n) in
  kern (mset (fun k => pa_setmem (store (pa_mem k) dst l) k)) ;;!
  mret r.

(** [switchuvm]: its checks; the rest loads the registers of the CPU. *)
Definition switchuvm (p : proc) : PM unit :=
  if p_kstack p =? 0 then mpanic "switchuvm: no kstack"
  else if p_pgdir p =? 0 then mpanic "switchuvm: no pgdir"
  else mret tt.

(** The loop over the program headers: the size, or [goto bad]. *)
Fixpoint exec_load (n : nat) (ip : nat) (pgdir off sz : Z) : PM (option Z) :=
  match n with
  | O => mret (Some sz)
  | S n' =>
      let! (r, ph) := fs (readi devsw_read ip off PROGHDR_SIZE) in
      if negb (r =? PROGHDR_SIZE) then mret None else
      if negb (ph_type ph =? ELF_PROG_LOAD) || (ph_memsz ph =? 0)
      then exec_load n' ip pgdir (u32 (off + PROGHDR_SIZE)) sz else
      if ph_memsz ph <? ph_filesz ph then mret None else
      if u32 (ph_vaddr ph + ph_memsz ph) <? ph_vaddr ph then mret None else
      let! sz := kern (allocuvm pgdir sz (u32 (ph_vaddr ph + ph_memsz ph))) in
      if sz =? 0 then mret None else
      if negb (ph_vaddr ph mod PGSIZE =? 0) then mret None else
      let! r := loaduvm (fun _ => kern) (readi_to ip) pgdir (ph_vaddr ph) (ph_off ph) (ph_filesz ph) in
      if r <? 0 then mret None else
      exec_load n' ip pgdir (u32 (off + PROGHDR_SIZE)) sz
  end.

(** Up to the end of that loop: [pgdir] (0 when there is none yet) and, unless it
    jumps to [bad], the entry point and the size. *)
Definition exec_image (ip : nat) : PM (Z * option (Z * Z)) :=
  let! (r, elf) := fs (readi devsw_read ip 0 ELFHDR_SIZE) in
  if negb (r =? ELFHDR_SIZE) then mret (0, None) else
  if negb (elf_magic elf =? ELF_MAGIC) then mret (0, None) else
  let! pgdir := kern (setupkvm data) in
  if pgdir =? 0 then mret (0, None) else
  let! sz := exec_load (Z.to_nat (elf_phnum elf)) ip pgdir (elf_phoff elf) 0 in
  mret (pgdir, match sz with Some sz => Some (elf_entry elf, sz) | None => None end).

(** The loop that pushes the argument strings: the stack pointer and the
    pointers [ustack[3..]], or [goto bad]. *)
Fixpoint exec_args (pgdir : Z) (argv : list (list Z)) (argc sp : Z) (ustack : list Z) :
    PM (option (Z * list Z)) :=
  match argv with
  | [] => mret (Some (sp, ustack))
  | arg :: argv' =>
      if argc >=? MAXARG then mret None else
      let sp := Z.land (u32 (sp - (Z.of_nat (length arg) + 1))) (Z.lnot 3) in
      let! r := kern (copyout pgdir sp (arg ++ [0])) in
      if r <? 0 then mret None else
      exec_args pgdir argv' (argc + 1) sp (ustack ++ [sp])
  end.

(** Guard page, stack and arguments: the new size and stack pointer. *)
Definition exec_stack (cur : nat) (pgdir sz : Z) (argv : list (list Z)) : PM (option (Z * Z)) :=
  let sz := PGROUNDUP sz in
  setp cur (set_p_guard sz) ;;!
  let bloque_datos_y_codigo := sz / PGSIZE in
  let! sz := kern (allocuvm pgdir sz (u32 (sz + (bloque_datos_y_codigo + 1) * PGSIZE))) in
  if sz =? 0 then mret None else
  kern (clearpteu pgdir (u32 (sz - (bloque_datos_y_codigo + 1) * PGSIZE))) ;;!
  let! r := exec_args pgdir argv 0 sz [] in
  match r with
  | None => mret None
  | Some (sp, args) =>
      let argc := Z.of_nat (length args) in
      let ustack := [0xffffffff; argc; u32 (sp - (argc + 1) * 4)] ++ args ++ [0] in
      let sp := u32 (sp - (3 + argc + 1) * 4) in
      let! r := kern (copyout pgdir sp (words_bytes ustack)) in
      if r <? 0 then mret None else mret (Some (sz, sp))
  end.

(** Save the name and commit to the user image. *)
Definition exec_commit (cur : nat) (path : list Z) (pgdir sz entry sp : Z) : PM Z :=
  setp cur (fun p => set_p_name (name_copy (p_name p) (last_elem path path)) p) ;;!
  let! p := getp cur in
  let oldpgdir := p_pgdir p in
  setp cur (set_p_pgdir pgdir) ;;!
  setp cur (set_p_sz sz) ;;!
  kern (wr (p_tf p + TF_EIP) entry) ;;!
  kern (wr (p_tf p + TF_ESP) sp) ;;!
  let! p := getp cur in
  switchuvm p ;;!
  kern (freevm oldpgdir) ;;!
  mret 0.

(** The label [bad]; [ip] is [None] once the file has been released. *)
Definition exec_bad (pgdir : Z) (ip : option nat) : PM Z :=
  mwhen (negb (pgdir =? 0)) (kern (freevm pgdir)) ;;!
  (match ip with Some ip => fs (iunlockput ip) ;;! end_tx | None => mret tt end) ;;!
  mret (-1).

(** [argv] without its null pointer, strings without their final 0. *)
Definition exec (path : list Z) (argv : list (list Z)) : PM Z :=
  let! cur := myproc in
  begin_tx ;;!
  let! ip := fs (namei devsw_read path) in
  match ip with
  | None => end_tx ;;! mret (-1)
  | Some ip =>
      fs (ilock ip) ;;!
      let! (pgdir, image) := exec_image ip in
      match image with
      | None => exec_bad pgdir (Some ip)
      | Some (entry, sz) =>
          fs (iunlockput ip) ;;!
          end_tx ;;!
          let! r := exec_stack cur pgdir sz argv in
          match r with
          | None => exec_bad pgdir None
          | Some (sz, sp) => exec_commit cur path pgdir sz entry sp
          end
      end
  end.

(** ** What a failed [exec] leaves *)

(** Operations that leave the process table alone. *)
Definition procs_kept {A} (c : PM A) : Prop := forall s, post c s (fun _ s' => t_procs s' = t_procs s).

Lemma kept_bind {A B} (c : PM A) (k : A -> PM B) : procs_kept c -> (forall a, procs_kept (k a)) -> procs_kept (mbind c k).
Proof.
  intros Hc Hk s. apply post_bind. eapply post_conseq; [apply Hc|]. intros a s' E.
  eapply post_conseq; [apply Hk|]. cbn. congruence.
Qed.

Lemma kept_kern {A} (c : M St A) : procs_kept (kern c).
Proof. intros s. by apply post_kern. Qed.

Lemma kept_fs {A} (c : M (fsys D) A) : procs_kept (fs c).
Proof. intros s. by apply post_fsop. Qed.

Lemma kept_ret {A} (a : A) : procs_kept (mret a).
Proof. intros s. by apply post_ret. Qed.

Lemma kept_fail {A} (c : PM A) : (forall s a, c s <> Ok a) -> procs_kept c.
Proof. intros H s a s' E. by apply H in E. Qed.

Ltac kept :=
  repeat match goal with
  | H : context [procs_kept] |- _ => solve [apply H]
  | |- procs_kept (mret _) => apply kept_ret
  | |- procs_kept (kern _) => apply kept_kern
  | |- procs_kept (fs _) => apply kept_fs
  | |- procs_kept (mpanic _) => by apply kept_fail
  | |- procs_kept mnofuel => by apply kept_fail
  | |- procs_kept (mbind _ _) => apply kept_bind; [|intros ?]
  | |- procs_kept (match ?x with _ => _ end) => destruct x
  end.

Lemma kept_loaduvm ip pgdir va off sz : procs_kept (loaduvm (fun _ => kern) (readi_to ip) pgdir va off sz).
Proof.
  assert (H : forall n i, procs_kept (loaduvm_loop (fun _ => kern) (readi_to ip) n pgdir va off sz i)).
  { induction n as [|n IH]; intros i; cbn; unfold readi_to; kept. }
  unfold loaduvm. kept.
Qed.

Lemma kept_image ip : procs_kept (exec_image ip).
Proof.
  assert (H : forall n pgdir off sz, procs_kept (exec_load n ip pgdir off sz)).
  { induction n as [|n IH]; intros pgdir off sz; cbn; kept; apply kept_loaduvm. }
  unfold exec_image. kept.
Qed.

Lemma kept_args pgdir argv argc sp us : procs_kept (exec_args pgdir argv argc sp us).
Proof. revert argc sp us. induction argv as [|arg l IH]; intros argc sp us; cbn; kept. Qed.

Lemma kept_bad pgdir ip : procs_kept (exec_bad pgdir ip).
Proof.
  unfold exec_bad. apply kept_bind; [|intros u; apply kept_bind; [|intros u'; apply kept_ret]].
  - unfold mwhen. destruct (negb _); [apply kept_kern|apply kept_ret].
  - destruct ip; [|apply kept_ret]. apply kept_bind; [apply kept_fs|]. intros u'. apply kept_fs.
Qed.

Lemma stack_guard cur pgdir sz argv (s : pst St (files D)) :
  post (exec_stack cur pgdir sz argv) s (fun _ s' => t_procs s' = alter (set_p_guard (PGROUNDUP sz)) cur (t_procs s)).
Proof.
  unfold exec_stack. apply post_bind, post_set.
  match goal with |- post ?c ?s1 _ => assert (Hk : procs_kept c) end.
  { apply kept_bind; [apply kept_kern|]. intros sz'. destruct (sz' =? 0); [apply kept_ret|].
    apply kept_bind; [apply kept_kern|]. intros u. apply kept_bind; [apply kept_args|].
    intros [[sp args]|]; [|apply kept_ret]. apply kept_bind; [apply kept_kern|]. intros r.
    destruct (r <? 0); apply kept_ret. }
  eapply post_conseq; [apply Hk|]. cbn. intros _ s' E. exact E.
Qed.

(** ** Property *)

(** [exec] sets [inicio_pagina_guarda] before it is sure to succeed.  When it
    gives up later (no memory for the stack, arguments that do not fit) it returns
    -1 and the process goes on with its old pages and size, but with the guard of
    the program that was not started: the page-fault handler, which refused the
    addresses of the old guard page, now lets them pass. *)
Theorem exec_failure_unguards me pgdir sz argv (s s1 s2 : pst St (files D)) r p va :
  t_procs s !! me = Some p -> exec_stack me pgdir sz argv s = Ok (None, s1) -> exec_bad pgdir None s1 = Ok (r, s2) ->
  PGROUNDDOWN va = p_guard p -> p_guard p < p_sz p -> p_guard p < KERNBASE -> p_guard p <> PGROUNDUP sz ->
  r = -1 /\ exists p', t_procs s2 !! me = Some p' /\ p_pgdir p' = p_pgdir p /\ p_sz p' = p_sz p /\
    p_guard p' = PGROUNDUP sz /\ fault_refused p va = true /\ fault_refused p' va = false.
Proof.
  intros Hp E1 E2 Hva Hsz Hk Hne. pose proof (stack_guard me pgdir sz argv s _ _ E1) as T1.
  pose proof (kept_bad pgdir None s1 _ _ E2) as T2. cbn in T2. split.
  - unfold exec_bad in E2. apply mbind_inv in E2 as (u & t & _ & E2). by injection E2 as <- _.
  - exists (set_p_guard (PGROUNDUP sz) p). rewrite T2, T1, list_lookup_alter_eq, Hp. split_and!; try done.
    + unfold fault_refused. by rewrite Hva, Z.eqb_refl, !orb_true_r.
    + unfold fault_refused. rewrite Hva. cbn [p_sz p_guard set_p_guard].
      rewrite !Z.geb_leb, (proj2 (Z.leb_gt _ _) Hsz), (proj2 (Z.leb_gt _ _) Hk), (proj2 (Z.eqb_neq _ _) Hne). done.
Qed.

End Exec.

(** ** Witness: one free page, not enough for the new stack *)

Definition guarded : proc := set_p_guard 0x4000 (set_p_sz 0x10000 init_slot).
Definition poor_state (f : files lst) : pst kstate (files lst) :=
  mkP false [guarded] 2 (Some 0%nat) (Some 0%nat) 0 witness_state f.

Lemma exec_failure_unguards_witness :
  exists p', p_guard p' = 0x2000 /\ fault_refused guarded 0x4010 = true /\ fault_refused p' 0x4010 = false.
Proof.
  destruct mini_state as (f & _). set (t := mkfiles false [] ∅ f : files lst).
  assert (Hrun : match exec_stack (D := lst) (PA := witness_pa) 0 0x80400000 0x1800 [] (poor_state t) with
    | Ok (None, s1) => match exec_bad (D := lst) (LD := mini_ld) (TX := mini_tx) (PA := witness_pa) 0x80400000 None s1 with
                       | Ok _ => true | _ => false end
    | _ => false end = true) by (vm_compute; reflexivity).
  destruct (exec_stack _ _ _ _ (poor_state t)) as [[[x|] s1]| | | |] eqn:E1; try discriminate Hrun.
  destruct (exec_bad _ _ s1) as [[r s2]| | | |] eqn:E2; try discriminate Hrun.
  destruct (exec_failure_unguards (D := lst) (LD := mini_ld) (TX := mini_tx) (PA := witness_pa) 0 0x80400000 0x1800 []
    (poor_state t) s1 s2 r guarded 0x4010 eq_refl E1 E2) as (_ & p' & _ & _ & _ & Hg & H1 & H2);
    [reflexivity|reflexivity|reflexivity|discriminate|].
  exists p'. split; [exact Hg|]. split; [exact H1|exact H2].
Defined.
