(* ===== verification/Sysfile.v ===== *)
(** * System calls on files: sysfile.c

    Every handler of sysfile.c: the arguments are fetched from user memory ([Trap]),
    the descriptors are those of the process ([Proc]), and the work is done by the
    open files ([File]), the file system ([Fs]) and [exec] ([Exec]).  A handler that
    can sleep has no result when it does. *)

From Stdlib Require Import ZArith Lia String.
From stdpp Require Import base numbers gmap functions list.
From S2P Require Import Prelude Bytes Params Kalloc Vm VmSpace Proc ProcInv ProcFork Trap Clock Locks Pipe Bio Log LogDisk Fs FsBlocks File Exec.

Local Open Scope Z_scope.
Local Open Scope kernel_scope.

(** The first descriptor from [fd] on that is free. *)
Fixpoint free_fd (fd : Z) (ofile : list Z) : option Z :=
  match ofile with
  | [] => None
  | f :: ofile' => if f =? 0 then Some fd else free_fd (fd + 1) ofile'
  end.

(** The names "." and "..". *)
Definition dot : mem := bytes_at [46; 0].
Definition dotdot : mem := bytes_at [46; 46; 0].

Section Sysfile.
Context {St D : Type} {PA : PageAllocator St} `{TX : Transactions D}.
Variable data : Z.
Variable devsw_read : Z -> option (nat -> Z -> M (fsys D) (Z * list Z)).
Variable devsw_write : Z -> option (nat -> mem -> Z -> M (fsys D) Z).

(** What is on the stack where [char name[DIRSIZ]] is declared. *)
Variable stack_name : mem.

Abbreviation PM := (M (pst St (files D))).

(** ** Access to the other components *)

(** The file system sees the pid and the current directory of [myproc()]. *)
Definition enter : PM unit :=
  let! me := myproc in
  let! p := getp me in
  fs (mset (fun s => set_fcwd (index_of (p_cwd p)) (set_fpid (p_pid p) s))).

(** The open file behind a pointer, and closing it. *)
Definition file_at (f : Z) : PM file := fsop (getf (index_of f)).
Definition close_ptr (f : Z) : PM unit :=
  let! ws := bothop (fileclose (index_of f)) in wakeups ws.

(** User bytes, read and written one after the other. *)
Fixpoint uloads (va : Z) (n : nat) : PM (list Z) :=
  match n with
  | O => mret []
  | S n' => let! b := uload va in let! l := uloads (u32 (va + 1)) n' in mret (b :: l)
  end.
Fixpoint ustores (va : Z) (l : list Z) : PM unit :=
  match l with
  | [] => mret tt
  | b :: l' => ustore va b ;;! ustores (u32 (va + 1)) l'
  end.

(** [argstr] with the string. *)
Definition argpath (n : Z) : PM (option (list Z)) :=
  let! r := argstr n in
  match r with
  | None => mret None
  | Some (a, len) => let! l := uloads a (Z.to_nat len) in mret (Some l)
  end.

(** ** Descriptors *)

(** The descriptor and the file pointer. *)
Definition argfd (n : Z) : PM (option (Z * Z)) :=
  let! r := argint n in
  match r with
  | None => mret None
  | Some fd =>
      let! me := myproc in
      let! p := getp me in
      if (fd <? 0) || (fd >=? NOFILE) then mret None else
      match p_ofile p !! Z.to_nat fd with
      | None => mundef
      | Some f => if f =? 0 then mret None else mret (Some (fd, f))
      end
  end.

Definition set_fd (me : nat) (fd f : Z) : PM unit :=
  setp me (fun p => set_p_ofile (<[Z.to_nat fd := f]> (p_ofile p)) p).

Definition fdalloc (f : Z) : PM Z :=
  let! me := myproc in
  let! p := getp me in
  match free_fd 0 (p_ofile p) with
  | Some fd => set_fd me fd f ;;! mret fd
  | None => mret (-1)
  end.

Definition sys_dup : PM Z :=
  let! r := argfd 0 in
  match r with
  | None => mret (-1)
  | Some (_, f) =>
      let! fd := fdalloc f in
      if fd <? 0 then mret (-1) else
      fsop (dup_ptr f) ;;!
      mret fd
  end.

Definition sys_dup2 : PM Z :=
  let! r := argfd 0 in
  match r with
  | None => mret (-1)
  | Some (oldfd, f) =>
      let! r := argint 1 in
      match r with
      | None => mret (-1)
      | Some newfd =>
          if (newfd <? 0) || (newfd >=? NOFILE) then mret (-1) else
          if oldfd =? newfd then mret oldfd else
          let! me := myproc in
          let! p := getp me in
          match p_ofile p !! Z.to_nat newfd with
          | None => mundef
          | Some g =>
              mwhen (negb (g =? 0)) (close_ptr g) ;;!
              let! f' := fsop (dup_ptr f) in
              set_fd me newfd f' ;;!
              mret newfd
          end
      end
  end.

(** How a call on a file ends: asleep on a channel of the pipe, or returning. *)
Definition io_end (f : Z) (r : io_res) : PM (option Z) :=
  match r with
  | Done n => mret (Some n)
  | Asleep c _ =>
      let! fl := file_at f in
      Proc.plock ;;!
      sleep (CAddr (pipe_chan (f_pipe fl) c)) ;;!
      mret None
  end.

Definition sys_read : PM (option Z) :=
  let! r := argfd 0 in
  match r with
  | None => mret (Some (-1))
  | Some (_, f) =>
      let! r := argint 2 in
      match r with
      | None => mret (Some (-1))
      | Some n =>
          let! r := argptr 1 n in
          match r with
          | None => mret (Some (-1))
          | Some p =>
              let! me := myproc in
              let! q := getp me in
              let! ((r, l), ws) := fsop (fileread devsw_read (p_killed q) (index_of f) n) in
              ustores p l ;;!
              wakeups ws ;;!
              io_end f r
          end
      end
  end.

(** The bytes are fetched before the call, if the file is writable. *)
Definition sys_write : PM (option Z) :=
  let! r := argfd 0 in
  match r with
  | None => mret (Some (-1))
  | Some (_, f) =>
      let! r := argint 2 in
      match r with
      | None => mret (Some (-1))
      | Some n =>
          let! r := argptr 1 n in
          match r with
          | None => mret (Some (-1))
          | Some p =>
              let! me := myproc in
              let! q := getp me in
              let! fl := file_at f in
              let! l := (if f_writable fl =? 0 then mret [] else uloads p (Z.to_nat n)) in
              let! (r, ws) := fsop (filewrite devsw_write (p_killed q) (index_of f) (bytes_at l) n) in
              wakeups ws ;;!
              io_end f r
          end
      end
  end.

Definition sys_close : PM Z :=
  let! r := argfd 0 in
  match r with
  | None => mret (-1)
  | Some (fd, f) =>
      let! me := myproc in
      set_fd me fd 0 ;;!
      close_ptr f ;;!
      mret 0
  end.

(** [struct stat] in user memory, field by field. *)
Definition ustore16 (va v : Z) : PM unit :=
  ustore va (u8 v) ;;! ustore (u32 (va + 1)) (u8 (Z.shiftr v 8)).
Definition ustore_stat (va : Z) (st : stat) : PM unit :=
  ustore32 (u32 (va + 4)) (st_dev st) ;;!
  ustore32 (u32 (va + 8)) (st_ino st) ;;!
  ustore16 va (st_type st) ;;!
  ustore16 (u32 (va + 12)) (st_nlink st) ;;!
  ustore32 (u32 (va + 16)) (st_size st).

Definition sys_fstat : PM Z :=
  let! r := argfd 0 in
  match r with
  | None => mret (-1)
  | Some (_, f) =>
      let! r := argptr 1 20 in
      match r with
      | None => mret (-1)
      | Some va =>
          let! st := fsop (filestat (index_of f)) in
          match st with
          | None => mret (-1)
          | Some st => ustore_stat va st ;;! mret 0
          end
      end
  end.

(** ** Names *)

(** The label [bad] of [sys_link]. *)
Definition link_bad (ip : nat) : PM Z :=
  fs (ilock ip) ;;!
  fs (seti ip (fun i => set_i_nlink (s16 (i_nlink i - 1)) i)) ;;!
  fs (iupdate ip) ;;!
  fs (iunlockput ip) ;;!
  end_tx ;;!
  mret (-1).

Definition sys_link : PM Z :=
  let! r := argpath 0 in
  match r with
  | None => mret (-1)
  | Some old =>
      let! r := argpath 1 in
      match r with
      | None => mret (-1)
      | Some new =>
          begin_tx ;;!
          let! ip := fs (namei devsw_read old) in
          match ip with
          | None => end_tx ;;! mret (-1)
          | Some ip =>
              fs (ilock ip) ;;!
              let! i := fs (geti ip) in
              if i_type i =? T_DIR then fs (iunlockput ip) ;;! end_tx ;;! mret (-1) else
              fs (seti ip (fun i => set_i_nlink (s16 (i_nlink i + 1)) i)) ;;!
              fs (iupdate ip) ;;!
              fs (iunlock ip) ;;!
              let! (dp, name) := fs (nameiparent devsw_read new stack_name) in
              match dp with
              | None => link_bad ip
              | Some dp =>
                  fs (ilock dp) ;;!
                  let! d := fs (geti dp) in
                  let! i := fs (geti ip) in
                  let! r := (if negb (i_dev d =? i_dev i) then mret (-1)
                             else fs (dirlink devsw_read devsw_write dp name (i_inum i))) in
                  if r <? 0 then fs (iunlockput dp) ;;! link_bad ip else
                  fs (iunlockput dp) ;;!
                  fs (iput ip) ;;!
                  end_tx ;;!
                  mret 0
              end
          end
      end
  end.

(** The loop of [isdirempty]. *)
Fixpoint isdirempty_from (fuel : nat) (dp : nat) (off : Z) : M (fsys D) bool :=
  let! i := geti dp in
  if negb (off <? i_size i) then mret true else
  match fuel with
  | O => mnofuel
  | S fuel' =>
      let! (r, de) := readi devsw_read dp off DIRENT_SIZE in
      if negb (r =? DIRENT_SIZE) then mpanic "isdirempty: readi" else
      if negb (de_inum de =? 0) then mret false else isdirempty_from fuel' dp (off + DIRENT_SIZE)
  end.

Definition isdirempty (dp : nat) : M (fsys D) bool :=
  let! i := geti dp in
  isdirempty_from (dir_fuel (i_size i)) dp (2 * DIRENT_SIZE).

(** The label [bad] of [sys_unlink]. *)
Definition unlink_bad (dp : nat) : PM Z := fs (iunlockput dp) ;;! end_tx ;;! mret (-1).

Definition sys_unlink : PM Z :=
  let! r := argpath 0 in
  match r with
  | None => mret (-1)
  | Some path =>
      begin_tx ;;!
      let! (dp, name) := fs (nameiparent devsw_read path stack_name) in
      match dp with
      | None => end_tx ;;! mret (-1)
      | Some dp =>
          fs (ilock dp) ;;!
          if (namecmp name dot =? 0) || (namecmp name dotdot =? 0) then unlink_bad dp else
          let! r := fs (dirlookup devsw_read dp name) in
          match r with
          | None => unlink_bad dp
          | Some (ip, off) =>
              fs (ilock ip) ;;!
              let! i := fs (geti ip) in
              if i_nlink i <? 1 then mpanic "unlink: nlink < 1" else
              let! busy := (if i_type i =? T_DIR then let! e := fs (isdirempty ip) in mret (negb e)
                            else mret false) in
              if busy then fs (iunlockput ip) ;;! unlink_bad dp else
              let! r := fs (writei devsw_write dp (fun _ => 0) off DIRENT_SIZE) in
              if negb (r =? DIRENT_SIZE) then mpanic "unlink: writei" else
              mwhen (i_type i =? T_DIR)
                (fs (seti dp (fun d => set_i_nlink (s16 (i_nlink d - 1)) d)) ;;! fs (iupdate dp)) ;;!
              fs (iunlockput dp) ;;!
              fs (seti ip (fun i => set_i_nlink (s16 (i_nlink i - 1)) i)) ;;!
              fs (iupdate ip) ;;!
              fs (iunlockput ip) ;;!
              end_tx ;;!
              mret 0
          end
      end
  end.

(** The new inode, locked. *)
Definition create (path : list Z) (type major minor : Z) : M (fsys D) (option nat) :=
  let! (dp, name) := nameiparent devsw_read path stack_name in
  match dp with
  | None => mret None
  | Some dp =>
      ilock dp ;;!
      let! r := dirlookup devsw_read dp name in
      match r with
      | Some (ip, _) =>
          iunlockput dp ;;!
          ilock ip ;;!
          let! i := geti ip in
          if (type =? T_FILE) && (i_type i =? T_FILE) then mret (Some ip)
          else iunlockput ip ;;! mret None
      | None =>
          let! d := geti dp in
          let! ip := ialloc (i_dev d) type in
          ilock ip ;;!
          seti ip (set_i_major major) ;;!
          seti ip (set_i_minor minor) ;;!
          seti ip (set_i_nlink 1) ;;!
          iupdate ip ;;!
          let! i := geti ip in
          mwhen (type =? T_DIR)
            (seti dp (fun d => set_i_nlink (s16 (i_nlink d + 1)) d) ;;!
             iupdate dp ;;!
             let! r := dirlink devsw_read devsw_write ip dot (i_inum i) in
             if r <? 0 then mpanic "create dots" else
             let! r := dirlink devsw_read devsw_write ip dotdot (i_inum d) in
             if r <? 0 then mpanic "create dots" else mret tt) ;;!
          let! r := dirlink devsw_read devsw_write dp name (i_inum i) in
          if r <? 0 then mpanic "create: dirlink" else
          iunlockput dp ;;!
          mret (Some ip)
      end
  end.

(** The inode to open, locked; [None] after the clean-up of the error cases. *)
Definition open_inode (path : list Z) (omode : Z) : PM (option nat) :=
  if negb (Z.land omode O_CREATE =? 0) then
    let! ip := fs (create path T_FILE 0 0) in
    match ip with
    | None => end_tx ;;! mret None
    | Some ip => mret (Some ip)
    end
  else
    let! ip := fs (namei devsw_read path) in
    match ip with
    | None => end_tx ;;! mret None
    | Some ip =>
        fs (ilock ip) ;;!
        let! i := fs (geti ip) in
        if (i_type i =? T_DIR) && negb (omode =? O_RDONLY)
        then fs (iunlockput ip) ;;! end_tx ;;! mret None
        else mret (Some ip)
    end.

Definition sys_open : PM Z :=
  let! r := argpath 0 in
  match r with
  | None => mret (-1)
  | Some path =>
      let! r := argint 1 in
      match r with
      | None => mret (-1)
      | Some omode =>
          begin_tx ;;!
          let! ip := open_inode path omode in
          match ip with
          | None => mret (-1)
          | Some ip =>
              let! f := fsop filealloc in
              match f with
              | None => fs (iunlockput ip) ;;! end_tx ;;! mret (-1)
              | Some k =>
                  let! fd := fdalloc (ptr_to k) in
                  if fd <? 0 then
                    close_ptr (ptr_to k) ;;!
                    fs (iunlockput ip) ;;!
                    end_tx ;;!
                    mret (-1)
                  else
                    fs (iunlock ip) ;;!
                    end_tx ;;!
                    fsop (setf k (set_f_type FD_INODE)) ;;!
                    fsop (setf k (set_f_ip ip)) ;;!
                    fsop (setf k (set_f_off 0)) ;;!
                    fsop (setf k (set_f_readable (if Z.land omode O_WRONLY =? 0 then 1 else 0))) ;;!
                    fsop (setf k (set_f_writable
                      (if negb (Z.land omode O_WRONLY =? 0) || negb (Z.land omode O_RDWR =? 0) then 1 else 0))) ;;!
                    mret fd
              end
          end
      end
  end.

Definition sys_mkdir : PM Z :=
  begin_tx ;;!
  let! r := argpath 0 in
  match r with
  | None => end_tx ;;! mret (-1)
  | Some path =>
      let! ip := fs (create path T_DIR 0 0) in
      match ip with
      | None => end_tx ;;! mret (-1)
      | Some ip => fs (iunlockput ip) ;;! end_tx ;;! mret 0
      end
  end.

(** [create] takes [short]s. *)
Definition sys_mknod : PM Z :=
  begin_tx ;;!
  let! r := argpath 0 in
  match r with
  | None => end_tx ;;! mret (-1)
  | Some path =>
      let! r := argint 1 in
      match r with
      | None => end_tx ;;! mret (-1)
      | Some major =>
          let! r := argint 2 in
          match r with
          | None => end_tx ;;! mret (-1)
          | Some minor =>
              let! ip := fs (create path T_DEV (s16 major) (s16 minor)) in
              match ip with
              | None => end_tx ;;! mret (-1)
              | Some ip => fs (iunlockput ip) ;;! end_tx ;;! mret 0
              end
          end
      end
  end.

Definition sys_chdir : PM Z :=
  let! cur := myproc in
  begin_tx ;;!
  let! r := argpath 0 in
  match r with
  | None => end_tx ;;! mret (-1)
  | Some path =>
      let! ip := fs (namei devsw_read path) in
      match ip with
      | None => end_tx ;;! mret (-1)
      | Some ip =>
          fs (ilock ip) ;;!
          let! i := fs (geti ip) in
          if negb (i_type i =? T_DIR) then fs (iunlockput ip) ;;! end_tx ;;! mret (-1) else
          fs (iunlock ip) ;;!
          let! p := getp cur in
          fs (iput (index_of (p_cwd p))) ;;!
          end_tx ;;!
          setp cur (set_p_cwd (ptr_to ip)) ;;!
          mret 0
      end
  end.

(** The loop that fetches [argv], from index [i]. *)
Fixpoint fetch_argv (n : nat) (uargv i : Z) : PM (option (list (list Z))) :=
  match n with
  | O => mret None
  | S n' =>
      let! r := fetchint (u32 (uargv + 4 * i)) in
      match r with
      | None => mret None
      | Some uarg =>
          if uarg =? 0 then mret (Some []) else
          let! r := fetchstr (u32 uarg) in
          match r with
          | None => mret None
          | Some len =>
              let! arg := uloads (u32 uarg) (Z.to_nat len) in
              let! rest := fetch_argv n' uargv (i + 1) in
              mret (match rest with Some l => Some (arg :: l) | None => None end)
          end
      end
  end.

Definition sys_exec : PM Z :=
  let! r := argpath 0 in
  match r with
  | None => mret (-1)
  | Some path =>
      let! r := argint 1 in
      match r with
      | None => mret (-1)
      | Some uargv =>
          let! argv := fetch_argv (Z.to_nat MAXARG) (u32 uargv) 0 in
          match argv with
          | None => mret (-1)
          | Some argv => exec data devsw_read path argv
          end
      end
  end.

Definition sys_pipe : PM Z :=
  let! r := argptr 0 8 in
  match r with
  | None => mret (-1)
  | Some va =>
      let! r := bothop pipealloc in
      match r with
      | None => mret (-1)
      | Some (rf, wf) =>
          let! me := myproc in
          let! fd0 := fdalloc (ptr_to rf) in
          let! fd1 := (if fd0 <? 0 then mret (-1) else fdalloc (ptr_to wf)) in
          if fd1 <? 0 then
            mwhen (fd0 >=? 0) (set_fd me fd0 0) ;;!
            close_ptr (ptr_to rf) ;;!
            close_ptr (ptr_to wf) ;;!
            mret (-1)
          else
            ustore32 va fd0 ;;!
            ustore32 (u32 (va + 4)) fd1 ;;!
            mret 0
      end
  end.

End Sysfile.

(** [freemem] is that of kalloc.c. *)
Definition sys_freemem {F : Type} (PA : PageAllocator kstate) : M (pst kstate F) Z :=
  let! r := argint 0 in
  match r with
  | None => mret (-1)
  | Some type => kern (freemem (Z.to_nat (PHYSTOP / PGSIZE)) type)
  end.

(** ** The table of syscall.c, and the kernel's entry for a system call *)

Section Table.
Context {D : Type} `{TX : Transactions D} (PA : PageAllocator kstate).
Variables (data trapret forkret : Z).
Variable devsw_read : Z -> option (nat -> Z -> M (fsys D) (Z * list Z)).
Variable devsw_write : Z -> option (nat -> mem -> Z -> M (fsys D) Z).
Variable stack_name : mem.
Variable rtc : nat -> Z -> Z.

Abbreviation PM := (M (pst kstate (files D))).
Abbreviation KM := (M (kst kstate (files D))).

#[local] Instance table_layer : FileLayer kstate (files D) := file_layer devsw_read.

Definition call (c : PM Z) : option (KM (option Z)) :=
  Some (pm enter ;;! let! r := pm c in mret (Some r)).
Definition call_sleep (c : PM (option Z)) : option (KM (option Z)) := Some (pm enter ;;! pm c).

(** [clk] bounds the readings of the clock and [t0] is its first access. *)
Definition syscalls (clk t0 : nat) (num : Z) : option (KM (option Z)) :=
  if num =? SYS_fork then call (sys_fork data trapret forkret) else
  if num =? SYS_exit then call_sleep sys_exit else
  if num =? SYS_wait then call_sleep sys_wait else
  if num =? SYS_pipe then call sys_pipe else
  if num =? SYS_read then call_sleep (sys_read devsw_read) else
  if num =? SYS_kill then call sys_kill else
  if num =? SYS_exec then call (sys_exec data devsw_read) else
  if num =? SYS_fstat then call sys_fstat else
  if num =? SYS_chdir then call (sys_chdir devsw_read) else
  if num =? SYS_dup then call sys_dup else
  if num =? SYS_getpid then call sys_getpid else
  if num =? SYS_sbrk then call sys_sbrk else
  if num =? SYS_sleep then Some sys_sleep else
  if num =? SYS_uptime then Some (let! r := sys_uptime in mret (Some r)) else
  if num =? SYS_open then call (sys_open devsw_read devsw_write stack_name) else
  if num =? SYS_write then call_sleep (sys_write devsw_write) else
  if num =? SYS_mknod then call (sys_mknod devsw_read devsw_write stack_name) else
  if num =? SYS_unlink then call (sys_unlink devsw_read devsw_write stack_name) else
  if num =? SYS_link then call (sys_link devsw_read devsw_write stack_name) else
  if num =? SYS_mkdir then call (sys_mkdir devsw_read devsw_write stack_name) else
  if num =? SYS_close then call sys_close else
  if num =? SYS_date then call (sys_date rtc clk t0) else
  if num =? SYS_dup2 then call sys_dup2 else
  if num =? SYS_freemem then call (sys_freemem PA) else None.

Definition syscall (clk t0 : nat) : KM unit := syscall_ (syscalls clk t0).

End Table.
