(* ===== verification/Descriptors.v ===== *)
(** * Reference counts of open files

    The count of an open file is the number of descriptors that refer to it, over
    all processes, whatever system calls run in whatever order.  The proof follows
    the difference between the two through each handler: [filedup] and [filealloc]
    raise the count before or after a descriptor is set, [fileclose] lowers it. *)

From Stdlib Require Import ZArith Lia String.
From stdpp Require Import base numbers gmap functions list.
From S2P Require Import Prelude Bytes Params Kalloc Vm VmSpace Proc ProcInv ProcFork Trap Clock Locks Pipe Bio Log LogDisk Fs FsBlocks File Exec Sysfile.

Local Open Scope Z_scope.
Local Open Scope kernel_scope.

Create HintDb fds discriminated.

(** ** Sums over lists *)

Definition zsum {A} (f : A -> Z) (l : list A) : Z := foldr (fun x n => f x + n) 0 l.
#[global] Arguments zsum : simpl never.

Lemma zsum_cons {A} (f : A -> Z) x l : zsum f (x :: l) = f x + zsum f l.
Proof. done. Qed.

Lemma zsum_insert {A} (f : A -> Z) l i x y :
  l !! i = Some x -> zsum f (<[i := y]> l) = zsum f l - f x + f y.
Proof.
  revert i. induction l as [|z l IH]; intros [|i] H; try done.
  - injection H as ->. change (<[0%nat := y]> (x :: l)) with (y :: l). rewrite !zsum_cons. lia.
  - change (<[S i := y]> (z :: l)) with (z :: <[i := y]> l). rewrite !zsum_cons, (IH i H). lia.
Qed.

Lemma zsum_nonneg {A} (f : A -> Z) l : (forall x, 0 <= f x) -> 0 <= zsum f l.
Proof. intros H. induction l as [|x l IH]; [done|]. rewrite zsum_cons. specialize (H x). lia. Qed.

Lemma zsum_elem {A} (f : A -> Z) l x : (forall x, 0 <= f x) -> x ∈ l -> f x <= zsum f l.
Proof.
  intros H. induction l as [|y l IH]; [by intros ?%elem_of_nil|]. rewrite zsum_cons.
  pose proof (zsum_nonneg f l H). pose proof (H y). intros [->|Hx]%list.elem_of_cons; [|specialize (IH Hx)]; lia.
Qed.

(** ** Descriptors and counts *)

Definition dead (p : proc) : bool := bool_decide (p_state p = UNUSED \/ p_state p = ZOMBIE).
Definition slot (p : proc) : bool * list Z := (dead p, p_ofile p).

(** 1 if the descriptor refers to [a]; the descriptors that do, in all processes. *)
Definition refers (a b : Z) : Z := if b =? a then 1 else 0.
Definition refs (a : Z) (ps : list (bool * list Z)) : Z := zsum (fun p => zsum (refers a) p.2) ps.

(** What matters here of a state: the descriptors and the counts. *)
Definition fdview {St D} (s : pst St (files D)) : list (bool * list Z) * list Z :=
  (slot <$> t_procs s, f_ref <$> ftable (t_fs s)).

(** The counts are those of the descriptors, up to [d]; descriptors are null or
    refer to a file, and dead processes have none. *)
Record fds_off (d : Z -> Z) (v : list (bool * list Z) * list Z) : Prop := {
  fo_slots : Forall (fun p => length p.2 = Z.to_nat NOFILE /\ (p.1 = true -> Forall (eq 0) p.2)) v.1;
  fo_files : forall p a, p ∈ v.1 -> a ∈ p.2 -> a <> 0 -> exists k, a = ptr_to k /\ (k < length v.2)%nat;
  fo_count : forall k n, v.2 !! k = Some n -> n = refs (ptr_to k) v.1 + d (ptr_to k)
}.
Definition fds_ok : list (bool * list Z) * list Z -> Prop := fds_off (fun _ => 0).

Lemma refers_nonneg a b : 0 <= refers a b.
Proof. unfold refers. by destruct (_ =? _). Qed.

Lemma index_ptr k : index_of (ptr_to k) = k.
Proof. unfold index_of, ptr_to. lia. Qed.

Lemma ptr_pos k : 0 < ptr_to k.
Proof. unfold ptr_to. lia. Qed.

Lemma ptr_inj k k' : ptr_to k = ptr_to k' -> k = k'.
Proof. unfold ptr_to. lia. Qed.

Lemma fds_off_ext d d' v : (forall a, 0 < a -> d a = d' a) -> fds_off d v -> fds_off d' v.
Proof.
  intros E [H1 H2 H3]. split; [done|done|]. intros k n Hn. rewrite <- E by apply ptr_pos. by apply H3.
Qed.

(** Changing descriptor [fd] of process [i] from [g] to [f]. *)
Lemma fds_set d ps rs i b fs fd f g :
  fds_off d (ps, rs) -> ps !! i = Some (b, fs) -> fs !! fd = Some g -> (b = true -> f = 0) ->
  (f = 0 \/ exists k, f = ptr_to k /\ (k < length rs)%nat) ->
  fds_off (fun a => d a + refers a g - refers a f) (<[i := (b, <[fd := f]> fs)]> ps, rs).
Proof.
  intros [H1 H2 H3] Hi Hg Hb Hf. cbn in *.
  pose proof (Forall_lookup_1 _ _ _ _ H1 Hi) as [Hl Hd]. cbn in Hl, Hd.
  split; cbn.
  - apply Forall_insert; [done|]. cbn. rewrite length_insert. split; [done|]. intros Hbt. apply Forall_insert; [auto|].
    symmetry. auto.
  - intros p a Hp Ha Hne. apply list_elem_of_lookup in Hp as [j Hj].
    apply list_lookup_insert_Some in Hj as [(-> & <- & _)|[_ Hj]].
    + cbn in Ha. apply list_elem_of_lookup in Ha as [m Hm].
      apply list_lookup_insert_Some in Hm as [(-> & -> & _)|[_ Hm]]; [by destruct Hf|].
      apply (H2 (b, fs) a); [by eapply list_elem_of_lookup_2|by eapply list_elem_of_lookup_2|done].
    + apply (H2 p a); [by eapply list_elem_of_lookup_2|done|done].
  - intros k n Hn. rewrite (H3 k n Hn). unfold refs. rewrite (zsum_insert _ _ _ _ _ Hi). cbn.
    rewrite (zsum_insert _ _ _ _ _ Hg). lia.
Qed.

(** Changing the count of file [k] by [e]. *)
Lemma fds_count d ps rs k n e :
  fds_off d (ps, rs) -> rs !! k = Some n ->
  fds_off (fun a => d a + e * refers a (ptr_to k)) (ps, <[k := n + e]> rs).
Proof.
  intros [H1 H2 H3] Hk. split; cbn in *; [done| |].
  - intros p a Hp Ha Hne. rewrite length_insert. eauto.
  - intros j m Hj. unfold refers. apply list_lookup_insert_Some in Hj as [(<- & <- & _)|[Hne Hj]].
    + rewrite (H3 _ _ Hk), Z.eqb_refl. lia.
    + rewrite (H3 _ _ Hj), (proj2 (Z.eqb_neq _ _)); [lia|]. by intros ?%ptr_inj.
Qed.

(** A process changes state. *)
Lemma fds_state d ps rs i b b' fs :
  fds_off d (ps, rs) -> ps !! i = Some (b, fs) -> (b' = true -> Forall (eq 0) fs) ->
  fds_off d (<[i := (b', fs)]> ps, rs).
Proof.
  intros [H1 H2 H3] Hi Hb. split; cbn in *.
  - apply Forall_insert; [done|]. by destruct (Forall_lookup_1 _ _ _ _ H1 Hi).
  - intros p a [j Hj]%list_elem_of_lookup Ha Hne.
    apply list_lookup_insert_Some in Hj as [(-> & <- & _)|[_ Hj]];
      [apply (H2 (b, fs) a)|apply (H2 p a)]; try done; by eapply list_elem_of_lookup_2.
  - intros k n Hn. rewrite (H3 _ _ Hn). unfold refs. rewrite (zsum_insert _ _ _ _ _ Hi). cbn. lia.
Qed.

(** A descriptor counts. *)
Lemma fds_ref ps rs i b fs a k n :
  fds_ok (ps, rs) -> ps !! i = Some (b, fs) -> a ∈ fs -> a = ptr_to k -> rs !! k = Some n -> 1 <= n.
Proof.
  intros [_ _ H3] Hi Ha -> Hk. rewrite (H3 _ _ Hk). unfold refs.
  pose proof (zsum_elem (fun p : bool * list Z => zsum (refers (ptr_to k)) p.2) ps (b, fs)) as E1.
  pose proof (zsum_elem (refers (ptr_to k)) fs (ptr_to k) (refers_nonneg _) Ha) as E2.
  unfold refers in E2 at 1. rewrite Z.eqb_refl in E2.
  specialize (E1 (fun p => zsum_nonneg _ _ (refers_nonneg _)) (list_elem_of_lookup_2 _ _ _ Hi)). cbn in E1, E2 |- *. lia.
Qed.

Section Descriptors.
Context {St D : Type} {PA : PageAllocator St} `{TX : Transactions D}.

Abbreviation PM := (M (pst St (files D))).
Abbreviation FM := (M (files D)).

(** ** Operations that leave descriptors and counts alone *)

Definition keepv {A} (c : PM A) : Prop :=
  forall s, post c s (fun _ s' => fdview s' = fdview s /\ t_cur s' = t_cur s).

Lemma keepv_ret {A} (a : A) : keepv (mret a).
Proof. intros s. by apply post_ret. Qed.

Lemma keepv_get {A} (f : pst St (files D) -> A) : keepv (mget f).
Proof. intros s. by apply post_get. Qed.

Lemma keepv_fail {A} (c : PM A) : (forall s a, c s <> Ok a) -> keepv c.
Proof. intros H s a s' E. by apply H in E. Qed.

Lemma keepv_bind {A B} (c : PM A) (k : A -> PM B) : keepv c -> (forall a, keepv (k a)) -> keepv (mbind c k).
Proof.
  intros Hc Hk s. apply post_bind. eapply post_conseq; [apply Hc|]. intros a s' [E1 E2].
  eapply post_conseq; [apply Hk|]. cbn. intros _ s2 [E3 E4]. split; congruence.
Qed.

Lemma keepv_when c (m : PM unit) : keepv m -> keepv (mwhen c m).
Proof. intros H. destruct c; [done|apply keepv_ret]. Qed.

Lemma keepv_kern {A} (c : M St A) : keepv (kern c).
Proof. intros s. by apply post_kern. Qed.

Lemma post_fs {A} (c : M (fsys D) A) (s : pst St (files D)) Q :
  (forall a f, Q a (set_t_fs (set_ft_fs f (t_fs s)) s)) -> post (fs c) s Q.
Proof.
  intros H a s' E. unfold fs, fsop, onfs in E. destruct (c _) as [[b f]| | | |]; try done. cbn in E.
  injection E as <- <-. apply H.
Qed.

Lemma keepv_fs {A} (c : M (fsys D) A) : keepv (fs c).
Proof. intros s. by apply post_fs. Qed.

Lemma keepv_myproc : keepv myproc.
Proof. intros s. by apply post_myproc. Qed.

Lemma keepv_getp i : keepv (getp i).
Proof. intros s. by apply post_getp. Qed.

Lemma slots_alter f i (ps : list proc) : (forall p, slot (f p) = slot p) -> slot <$> alter f i ps = slot <$> ps.
Proof.
  intros H. apply list_eq. intros j. rewrite !list_lookup_fmap, list_lookup_alter.
  destruct (decide (i = j)) as [<-|]; [|done]. destruct (ps !! i) as [p|]; [|done]. cbn. by rewrite H.
Qed.

Lemma keepv_setp i f : (forall p, slot (f p) = slot p) -> keepv (setp i f).
Proof. intros H s. apply post_set. unfold fdview. cbn. by rewrite slots_alter. Qed.

Lemma slot_wake c p : slot (wake c p) = slot p.
Proof.
  unfold slot, wake. destruct (is_state SLEEPING p && _) eqn:E; [|done]. apply andb_true_iff in E as [E%is_state_true _].
  unfold dead. cbn. rewrite E. by rewrite !bool_decide_false by (intros [?|?]; congruence).
Qed.

Lemma keepv_wakeup1 c : keepv (wakeup1 c).
Proof.
  intros s. apply post_set. unfold fdview. cbn. split; [|done]. f_equal. rewrite <- list_fmap_compose.
  apply list_fmap_ext. intros ? p _. apply slot_wake.
Qed.

Lemma keepv_plock : keepv Proc.plock.
Proof. intros s. by apply post_acquire. Qed.

Lemma keepv_punlock : keepv Proc.punlock.
Proof. intros s. by apply post_release. Qed.

(** Splits a program into its steps and frames each of them. *)
Ltac keepv_step :=
  first
    [ assumption
    | solve [auto 1 with fds nocore]
    | apply keepv_ret | apply keepv_get | apply keepv_kern | apply keepv_fs | apply keepv_myproc | apply keepv_getp
    | apply keepv_wakeup1 | apply keepv_plock | apply keepv_punlock
    | apply keepv_when
    | apply keepv_bind; [|intros ?]
    | (apply keepv_setp; reflexivity)
    | (apply keepv_fail; intros ? ?; discriminate) ].
Ltac keepv := repeat (keepv_step || match goal with |- keepv (if ?b then _ else _) => destruct b
                                                 | |- keepv (match ?x with _ => _ end) => destruct x end).

Lemma keepv_wakeups cs : keepv (wakeups cs).
Proof. induction cs as [|c cs IH]; cbn; unfold wakeup; keepv. Qed.
#[local] Hint Resolve keepv_wakeups : fds.

Lemma keepv_page_fault va : keepv (page_fault va).
Proof. unfold page_fault, reservarPagina. keepv. Qed.
#[local] Hint Resolve keepv_page_fault : fds.

Lemma keepv_uaddr va : keepv (uaddr va).
Proof. unfold uaddr. keepv. Qed.
#[local] Hint Resolve keepv_uaddr : fds.

Lemma keepv_uload va : keepv (uload va).
Proof. unfold uload. keepv. Qed.
#[local] Hint Resolve keepv_uload : fds.

Lemma keepv_ustore va v : keepv (ustore va v).
Proof. unfold ustore. keepv. Qed.
#[local] Hint Resolve keepv_ustore : fds.

Lemma keepv_ustore32 va v : keepv (ustore32 va v).
Proof. unfold ustore32. keepv. Qed.
#[local] Hint Resolve keepv_ustore32 : fds.

Lemma keepv_uloads va n : keepv (uloads va n).
Proof. revert va. induction n as [|n IH]; intros va; cbn; keepv; apply IH. Qed.
#[local] Hint Resolve keepv_uloads : fds.

Lemma keepv_ustores va l : keepv (ustores va l).
Proof. revert va. induction l as [|b l IH]; intros va; cbn; keepv; apply IH. Qed.
#[local] Hint Resolve keepv_ustores : fds.

Lemma keepv_fetchint a : keepv (fetchint a).
Proof. unfold fetchint, uload32. keepv. Qed.
#[local] Hint Resolve keepv_fetchint : fds.

Lemma keepv_argint n : keepv (argint n).
Proof. unfold argint. keepv. Qed.
#[local] Hint Resolve keepv_argint : fds.

Lemma keepv_argptr n k : keepv (argptr n k).
Proof. unfold argptr. keepv. Qed.
#[local] Hint Resolve keepv_argptr : fds.

Lemma keepv_fetchstr a : keepv (fetchstr a).
Proof.
  assert (H : forall f s0 s ep, keepv (fetchstr_loop f s0 s ep)).
  { induction f as [|f IH]; intros s0 s ep; cbn; keepv; apply IH. }
  unfold fetchstr. keepv.
Qed.
#[local] Hint Resolve keepv_fetchstr : fds.

Lemma keepv_argpath n : keepv (argpath n).
Proof. unfold argpath, argstr. keepv. Qed.
#[local] Hint Resolve keepv_argpath : fds.

Lemma keepv_enter : keepv enter.
Proof. unfold enter. keepv. Qed.
#[local] Hint Resolve keepv_enter : fds.

Lemma keepv_begin : keepv begin_tx.
Proof. apply keepv_fs. Qed.
#[local] Hint Resolve keepv_begin : fds.

Lemma keepv_end : keepv end_tx.
Proof. apply keepv_fs. Qed.
#[local] Hint Resolve keepv_end : fds.

(** ** Operations on files *)

Lemma post_fsop_fm {A} (c : FM A) (s : pst St (files D)) (Q : A -> pst St (files D) -> Prop) :
  post c (t_fs s) (fun a f => Q a (set_t_fs f s)) -> post (fsop c) s Q.
Proof.
  intros H a s' E. unfold fsop in E. destruct (c (t_fs s)) as [[b f]| | | |] eqn:Ec; try done. cbn in E.
  injection E as <- <-. by apply H.
Qed.

Lemma post_bothop_bm {A} (c : M (St * files D) A) (s : pst St (files D)) (Q : A -> pst St (files D) -> Prop) :
  post c (t_kern s, t_fs s) (fun a x => Q a (set_t_fs x.2 (set_t_kern x.1 s))) -> post (bothop c) s Q.
Proof.
  intros H a s' E. unfold bothop in E. destruct (c _) as [[b [k f]]| | | |] eqn:Ec; try done. cbn in E.
  injection E as <- <-. by apply (H _ (k, f)).
Qed.

Lemma post_onfiles {A} (c : FM A) (x : St * files D) (Q : A -> St * files D -> Prop) :
  post c x.2 (fun a f => Q a (x.1, f)) -> post (onfiles c) x Q.
Proof.
  intros H a s' E. unfold onfiles in E. destruct (c x.2) as [[b f]| | | |] eqn:Ec; try done. cbn in E.
  injection E as <- <-. by apply H.
Qed.

Lemma post_onkern {A} (c : M St A) (x : St * files D) (Q : A -> St * files D -> Prop) :
  (forall a k, Q a (k, x.2)) -> post (onkern c) x Q.
Proof.
  intros H a s' E. unfold onkern in E. destruct (c x.1) as [[b f]| | | |] eqn:Ec; try done. cbn in E.
  injection E as <- <-. by apply H.
Qed.

Lemma post_onfs {A} (c : M (fsys D) A) (t : files D) (Q : A -> files D -> Prop) :
  (forall a f, Q a (set_ft_fs f t)) -> post (onfs c) t Q.
Proof.
  intros H a s' E. unfold onfs in E. destruct (c _) as [[b f]| | | |] eqn:Ec; try done. cbn in E.
  injection E as <- <-. by apply H.
Qed.

Lemma post_onpipe {A} p (c : M pipe A) (t : files D) (Q : A * list Z -> files D -> Prop) :
  (forall a ps, Q a (set_ft_pipes ps t)) -> post (onpipe p c) t Q.
Proof.
  intros H a s' E. unfold onpipe in E. destruct (ft_pipes t !! p) as [q|]; [|done].
  destruct (c _) as [[b f]| | | |] eqn:Ec; try done. cbn in E. injection E as <- <-. by apply H.
Qed.

Lemma post_getf k (t : files D) (Q : file -> files D -> Prop) :
  (forall f, ftable t !! k = Some f -> Q f t) -> post (getf k) t Q.
Proof. intros H a s' E. unfold getf in E. destruct (ftable t !! k); [|done]. injection E as <- <-. auto. Qed.

(** The counts, and one of them changing. *)
Definition counts (t : files D) : list Z := f_ref <$> ftable t.
Definition count_moves (k : nat) (e : Z) (t t' : files D) : Prop :=
  exists n, counts t !! k = Some n /\ 0 <= n + e /\ 0 <= n /\ counts t' = <[k := n + e]> (counts t).

Lemma counts_alter g k (l : list file) f :
  l !! k = Some f -> f_ref <$> alter g k l = <[k := f_ref (g f)]> (f_ref <$> l).
Proof. intros H. rewrite (alter_insert _ _ _ _ H). apply list_fmap_insert. Qed.

Lemma counts_same g k (l : list file) :
  (forall f, f_ref (g f) = f_ref f) -> f_ref <$> alter g k l = f_ref <$> l.
Proof.
  intros H. apply list_eq. intros j. rewrite !list_lookup_fmap, list_lookup_alter.
  destruct (decide (k = j)) as [<-|]; [|done]. destruct (l !! k) as [p|]; [|done]. cbn. by rewrite H.
Qed.

Lemma dup_counts a (t : files D) :
  post (dup_ptr a) t (fun r t' => r = a /\ count_moves (index_of a) 1 t t').
Proof.
  unfold dup_ptr, filedup, facquire, frelease, setf. apply post_bind, post_bind, post_acquire. intros _.
  apply post_bind, post_getf. intros f Hf. destruct (Z.ltb_spec (f_ref f) 1); [apply post_panic|].
  apply post_bind, post_set, post_bind, post_release. intros _. apply post_ret, post_ret. split; [done|].
  exists (f_ref f). unfold counts. cbn in *. split_and!; [by rewrite list_lookup_fmap, Hf|lia|lia|].
  by rewrite (counts_alter _ _ _ _ Hf).
Qed.

Lemma find_free_spec k l r : find_free k l = Some r ->
  exists f, l !! (r - k)%nat = Some f /\ f_ref f = 0 /\ (k <= r)%nat.
Proof.
  revert k. induction l as [|f l IH]; intros k; [done|]. cbn. destruct (Z.eqb_spec (f_ref f) 0) as [E|].
  - intros [= <-]. exists f. by rewrite Nat.sub_diag.
  - intros (g & Hg & Eg & Hk)%IH. exists g. split_and!; [|done|lia]. by replace (r - k)%nat with (S (r - S k)) by lia.
Qed.

Lemma filealloc_counts (t : files D) :
  post filealloc t (fun r t' =>
    match r with None => counts t' = counts t | Some k => counts t !! k = Some 0 /\ count_moves k 1 t t' end).
Proof.
  unfold filealloc, facquire, frelease, setf. apply post_bind, post_acquire. intros _. apply post_bind, post_get. cbn.
  destruct (find_free 0 (ftable t)) as [k|] eqn:E.
  - apply find_free_spec in E as (f & Hf & E0 & _). rewrite Nat.sub_0_r in Hf.
    apply post_bind, post_set, post_bind, post_release. intros _. apply post_ret. unfold count_moves, counts. cbn.
    assert (Hk : (f_ref <$> ftable t) !! k = Some 0) by (by rewrite list_lookup_fmap, Hf, <- E0).
    split; [done|]. exists 0. split_and!; [done|lia|lia|]. by rewrite (counts_alter _ _ _ _ Hf).
  - apply post_bind, post_release. intros _. by apply post_ret.
Qed.

(** What [fileclose] does after the count is settled. *)
Lemma pipe_close_counts p w (x : St * files D) :
  post (pipe_close p w) x (fun _ x' => counts x'.2 = counts x.2).
Proof.
  unfold pipe_close. apply post_bind, post_onfiles, post_onpipe. intros [last ws] ps. apply post_bind.
  apply post_when; intros _; [|by apply post_ret].
  apply post_bind, post_onfiles, post_set, post_onkern. intros a k. by apply post_ret.
Qed.

Lemma fileclose_counts k (x : St * files D) :
  post (fileclose k) x (fun _ x' => count_moves k (-1) x.2 x'.2).
Proof.
  unfold fileclose, facquire, frelease, setf. apply post_bind, post_onfiles, post_acquire. intros _.
  apply post_bind, post_onfiles, post_getf. intros f Hf. destruct (Z.ltb_spec (f_ref f) 1) as [|Hr]; [apply post_panic|].
  apply post_bind, post_onfiles, post_set, post_bind, post_onfiles, post_getf. cbn in *.
  intros g Hg. rewrite list_lookup_alter_eq, Hf in Hg. injection Hg as <-. cbn.
  assert (Hk : counts x.2 !! k = Some (f_ref f)) by (unfold counts; by rewrite list_lookup_fmap, Hf).
  assert (Hdone : forall t', counts t' = <[k := f_ref f - 1]> (counts x.2) -> count_moves k (-1) x.2 t').
  { intros t' E. exists (f_ref f). by split_and!; [|lia|lia|]. }
  rewrite Z.gtb_ltb. destruct (Z.ltb_spec 0 (f_ref f - 1)) as [Hs|Hz].
  - apply post_bind, post_onfiles, post_release. intros _. apply post_ret, Hdone. cbn.
    unfold counts. cbn. by rewrite (counts_alter _ _ _ _ Hf).
  - assert (E1 : f_ref f = 1) by lia.
    apply post_bind, post_onfiles, post_set, post_bind, post_onfiles, post_set, post_bind, post_onfiles, post_release.
    intros _. cbn.
    assert (Hfin : f_ref <$> alter (set_f_type FD_NONE) k (alter (set_f_ref 0) k
      (alter (fun f => set_f_ref (f_ref f - 1) f) k (ftable x.2))) = <[k := f_ref f - 1]> (counts x.2)).
    { unfold counts. rewrite !list_alter_alter_eq, (counts_alter _ _ _ _ Hf). cbn. by rewrite E1. }
    destruct (f_type f).
    + by apply post_ret, Hdone.
    + eapply post_conseq; [apply pipe_close_counts|]. cbn. intros _ x' E. apply Hdone. by rewrite E.
    + apply post_bind, post_onfiles, post_onfs. intros ? f1. apply post_bind, post_onfiles, post_onfs. intros ? f2.
      apply post_bind, post_onfiles, post_onfs. intros ? f3. by apply post_ret, Hdone.
Qed.

(** ** System states *)

(** The process that runs is not dead. *)
Definition cur_live (s : pst St (files D)) : Prop :=
  forall me, t_cur s = Some me -> exists fs, (slot <$> t_procs s) !! me = Some (false, fs).
Definition fd_state (d : Z -> Z) (s : pst St (files D)) : Prop := fds_off d (fdview s) /\ cur_live s.

(** Same processes for this purpose, same process on the CPU. *)
Definition same_procs (s s' : pst St (files D)) : Prop :=
  slot <$> t_procs s' = slot <$> t_procs s /\ t_cur s' = t_cur s.

Lemma fd_state_ext d d' s : (forall a, 0 < a -> d a = d' a) -> fd_state d s -> fd_state d' s.
Proof. intros E [H1 H2]. split; [|done]. by eapply fds_off_ext. Qed.

Lemma keepv_state {A} (c : PM A) d s :
  keepv c -> fd_state d s -> post c s (fun _ s' => fd_state d s' /\ same_procs s s').
Proof.
  intros Hc [H1 H2]. eapply post_conseq; [apply Hc|]. intros _ s' [E1 E2]. unfold fdview in E1. injection E1 as E1 E3.
  split; [|done]. split.
  - unfold fdview. by rewrite E1, E3.
  - intros me Hme. rewrite E1. apply H2. congruence.
Qed.

Lemma count_state d s s' k e :
  fd_state d s -> count_moves k e (t_fs s) (t_fs s') -> same_procs s s' ->
  fd_state (fun a => d a + e * refers a (ptr_to k)) s'.
Proof.
  intros [H1 H2] (n & Hn & _ & _ & Hc) [E1 E2]. unfold counts in *. split.
  - unfold fdview. rewrite E1, Hc. by apply fds_count.
  - intros me Hme. rewrite E1. apply H2. congruence.
Qed.

Lemma dup_state d s k : fd_state d s ->
  post (fsop (dup_ptr (ptr_to k))) s (fun r s' => r = ptr_to k /\
    fd_state (fun a => d a + refers a (ptr_to k)) s' /\ t_procs s' = t_procs s /\ t_cur s' = t_cur s).
Proof.
  intros H. apply post_fsop_fm. eapply post_conseq; [apply dup_counts|]. intros r f [-> Hm]. rewrite index_ptr in Hm.
  split_and!; try done. eapply fd_state_ext; [|by apply (count_state d s _ k 1)]. intros a _. cbn. lia.
Qed.

Lemma close_state d s k : fd_state d s ->
  post (close_ptr (ptr_to k)) s (fun _ s' => fd_state (fun a => d a - refers a (ptr_to k)) s' /\ same_procs s s').
Proof.
  intros H. unfold close_ptr. apply post_bind, post_bothop_bm. eapply post_conseq; [apply fileclose_counts|].
  intros ws [k' f] Hm. rewrite index_ptr in Hm.
  eapply post_conseq; [apply (keepv_state _ (fun a => d a - refers a (ptr_to k))); [apply keepv_wakeups|]|].
  - eapply fd_state_ext; [|by apply (count_state d s _ k (-1))]. intros a _. cbn. lia.
  - by intros ? s' [? ?].
Qed.

Lemma alloc_state d s : fd_state d s ->
  post (fsop filealloc) s (fun r s' => same_procs s s' /\
    match r with
    | None => fd_state d s'
    | Some k => fd_state (fun a => d a + refers a (ptr_to k)) s' /\ (k < length (ftable (t_fs s')))%nat
    end).
Proof.
  intros H. apply post_fsop_fm. eapply post_conseq; [apply filealloc_counts|]. intros [k|] f Hm; (split; [done|]).
  - destruct Hm as [H0 Hm]. split.
    + eapply fd_state_ext; [|by apply (count_state d s _ k 1)]. intros a _. cbn. lia.
    + destruct Hm as (n & Hn & _ & _ & Hc). unfold counts in *. apply lookup_lt_Some in Hn. cbn.
      rewrite <- (length_fmap f_ref), Hc, length_insert. done.
  - destruct H as [H1 H2]. split; [|done]. unfold fdview in *. cbn in *. unfold counts in Hm. by rewrite Hm.
Qed.

(** A descriptor that can be stored: null, or a file of the table. *)
Definition file_ptr (s : pst St (files D)) (f : Z) : Prop :=
  f = 0 \/ exists k, f = ptr_to k /\ (k < length (ftable (t_fs s)))%nat.

Lemma slots_lookup (ps : list proc) i b fs :
  (slot <$> ps) !! i = Some (b, fs) -> exists p, ps !! i = Some p /\ dead p = b /\ p_ofile p = fs.
Proof. rewrite list_lookup_fmap. destruct (ps !! i) as [p|]; [|done]. intros [= <- <-]. by exists p. Qed.

Lemma set_fd_state d s me fd f g b fs :
  fd_state d s -> (slot <$> t_procs s) !! me = Some (b, fs) -> fs !! Z.to_nat fd = Some g ->
  (b = true -> f = 0) -> file_ptr s f ->
  post (set_fd me fd f) s (fun _ s' => fd_state (fun a => d a + refers a g - refers a f) s' /\ t_cur s' = t_cur s /\
    slot <$> t_procs s' = <[me := (b, <[Z.to_nat fd := f]> fs)]> (slot <$> t_procs s) /\ t_fs s' = t_fs s).
Proof.
  intros [H1 H2] Hme Hg Hb Hf. apply post_set. cbn.
  assert (E : slot <$> alter (fun p => set_p_ofile (<[Z.to_nat fd := f]> (p_ofile p)) p) me (t_procs s) =
    <[me := (b, <[Z.to_nat fd := f]> fs)]> (slot <$> t_procs s)).
  { apply slots_lookup in Hme as (p & Hp & <- & <-). rewrite (alter_insert _ _ _ _ Hp). by rewrite list_fmap_insert. }
  split_and!; try done. split.
  - unfold fdview. cbn. rewrite E. eapply fds_set; try done. unfold file_ptr in Hf. by rewrite length_fmap.
  - intros me' Hm. cbn in Hm |- *. destruct (H2 me' Hm) as [fs' Hfs']. rewrite E.
    destruct (decide (me = me')) as [<-|].
    + rewrite Hme in Hfs'. injection Hfs' as -> ->. rewrite list_lookup_insert_eq by (by eapply lookup_lt_Some). eauto.
    + rewrite list_lookup_insert_ne by done. eauto.
Qed.

Lemma free_fd_spec fd l r : free_fd fd l = Some r -> 0 <= fd -> fd <= r /\ l !! Z.to_nat (r - fd) = Some 0.
Proof.
  revert fd. induction l as [|f l IH]; intros fd; [done|]. cbn. destruct (Z.eqb_spec f 0) as [->|].
  - intros [= <-] _. split; [lia|]. by rewrite Z.sub_diag.
  - intros H Hfd. apply IH in H as [Hle Hr]; [|lia]. split; [lia|].
    replace (Z.to_nat (r - fd)) with (S (Z.to_nat (r - (fd + 1)))) by lia. done.
Qed.

(** [fdalloc] stores [f] in a free descriptor, or fails and changes nothing. *)
Lemma fdalloc_state d s f :
  fd_state d s -> file_ptr s f ->
  post (fdalloc f) s (fun r s' => t_fs s' = t_fs s /\ t_cur s' = t_cur s /\
    ((r = -1 /\ s' = s) \/
     (0 <= r /\ fd_state (fun a => d a - refers a f) s' /\ forall me fs, t_cur s = Some me ->
        (slot <$> t_procs s) !! me = Some (false, fs) ->
        slot <$> t_procs s' = <[me := (false, <[Z.to_nat r := f]> fs)]> (slot <$> t_procs s) /\
        fs !! Z.to_nat r = Some 0))).
Proof.
  intros Hs Hf. unfold fdalloc. apply post_bind, post_myproc. intros me Hme. apply post_bind, post_getp. intros p Hp.
  destruct (proj2 Hs me Hme) as [fs Hslot]. assert (Hof : p_ofile p = fs /\ dead p = false).
  { rewrite list_lookup_fmap, Hp in Hslot. by injection Hslot as -> ->. } destruct Hof as [Hof Hd].
  destruct (free_fd 0 (p_ofile p)) as [r|] eqn:Er; [|apply post_ret; split_and!; [done|done|by left]].
  apply free_fd_spec in Er as [Hr H0]; [|lia]. rewrite Z.sub_0_r, Hof in H0.
  apply post_bind. eapply post_conseq; [by eapply (set_fd_state d s me r f 0)|].
  intros _ s' (H1 & H2 & H3 & H4). apply post_ret. split_and!; [done|done|right]. split_and!; [lia| |].
  - eapply fd_state_ext; [|exact H1]. intros a Ha. cbn. unfold refers at 1. rewrite (proj2 (Z.eqb_neq 0 a)) by lia. lia.
  - intros me' fs' Hme' Hfs'. rewrite Hme in Hme'. injection Hme' as <-. rewrite Hslot in Hfs'. by injection Hfs' as <-.
Qed.

Lemma slot_file_ptr d s me b fs i f :
  fd_state d s -> (slot <$> t_procs s) !! me = Some (b, fs) -> fs !! i = Some f -> file_ptr s f.
Proof.
  intros [H _] Hme Hi. destruct (decide (f = 0)) as [->|Hf]; [by left|right].
  destruct (fo_files _ _ H (b, fs) f) as (k & -> & Hk).
  { by eapply list_elem_of_lookup_2. } { by eapply list_elem_of_lookup_2. } { done. }
  cbn in Hk. rewrite length_fmap in Hk. eauto.
Qed.

(** The descriptor of an argument is one of the process. *)
Lemma argfd_state d s n : fd_state d s ->
  post (argfd n) s (fun r s' => fd_state d s' /\ same_procs s s' /\
    match r with
    | None => True
    | Some (fd, f) => 0 <= fd < NOFILE /\ exists me fs k, t_cur s' = Some me /\
        (slot <$> t_procs s') !! me = Some (false, fs) /\ fs !! Z.to_nat fd = Some f /\ f = ptr_to k /\ file_ptr s' f
    end).
Proof.
  intros Hs. unfold argfd. apply post_bind. eapply post_conseq; [apply keepv_state; [apply keepv_argint|exact Hs]|].
  intros r s1 [Hs1 Hsame]. destruct r as [fd|]; [|by apply post_ret].
  apply post_bind, post_myproc. intros me Hme. apply post_bind, post_getp. intros p Hp.
  destruct ((fd <? 0) || (fd >=? NOFILE)) eqn:Er; [by apply post_ret|]. zbool.
  destruct (p_ofile p !! Z.to_nat fd) as [f|] eqn:Ef; [|apply post_undef].
  destruct (Z.eqb_spec f 0) as [|Hf]; [by apply post_ret|]. apply post_ret. split_and!; try done.
  destruct (proj2 Hs1 me Hme) as [fs Hslot]. assert (Hof : p_ofile p = fs).
  { rewrite list_lookup_fmap, Hp in Hslot. by injection Hslot as _ ->. } rewrite Hof in Ef.
  pose proof (slot_file_ptr _ _ _ _ _ _ _ Hs1 Hslot Ef) as Hp'. destruct Hp' as [|(k & -> & Hk)]; [done|].
  exists me, fs, k. split_and!; try done. right. eauto.
Qed.

(** ** The handlers *)

Variable data : Z.
Variable devsw_read : Z -> option (nat -> Z -> M (fsys D) (Z * list Z)).
Variable devsw_write : Z -> option (nat -> mem -> Z -> M (fsys D) Z).
Variable stack_name : mem.

Definition zero : Z -> Z := fun _ => 0.
Definition counted (s : pst St (files D)) : Prop := fd_state zero s.
Definition keeps_counts {A} (c : PM A) : Prop := forall s, counted s -> post c s (fun _ s' => counted s').

Lemma keeps_keepv {A} (c : PM A) : keepv c -> keeps_counts c.
Proof. intros Hc s Hs. eapply post_conseq; [by apply keepv_state|]. by intros ? ? [? _]. Qed.

Lemma keeps_bind {A B} (c : PM A) (k : A -> PM B) :
  keeps_counts c -> (forall a, keeps_counts (k a)) -> keeps_counts (mbind c k).
Proof. intros Hc Hk s Hs. apply post_bind. eapply post_conseq; [by apply Hc|]. intros a s' Hs'. by apply Hk. Qed.

(** Returning when the difference is zero again. *)
Lemma post_counted {A} (a : A) d s : fd_state d s -> (forall b, 0 < b -> d b = 0) -> post (mret a) s (fun _ s' => counted s').
Proof. intros Hs H. apply post_ret. by eapply fd_state_ext. Qed.

Lemma dup_counted : keeps_counts sys_dup.
Proof.
  intros s Hs. unfold sys_dup. apply post_bind. eapply post_conseq; [by apply argfd_state|].
  intros [[fd f]|] s1 (Hs1 & _ & Hf); [|by apply post_ret]. destruct Hf as (_ & me & fs & k & _ & _ & _ & -> & Hp).
  apply post_bind. eapply post_conseq; [by apply fdalloc_state|].
  intros r s2 (_ & _ & [[-> ->]|(Hr & Hs2 & _)]); [by apply post_ret|].
  rewrite (proj2 (Z.ltb_ge _ _)) by lia. apply post_bind.
  eapply post_conseq; [by apply dup_state|]. intros ? s3 (_ & Hs3 & _).
  eapply post_counted; [exact Hs3|]. intros b _. unfold zero. lia.
Qed.

Lemma close_counted : keeps_counts sys_close.
Proof.
  intros s Hs. unfold sys_close. apply post_bind. eapply post_conseq; [by apply argfd_state|].
  intros [[fd f]|] s1 (Hs1 & _ & Hf); [|by apply post_ret]. destruct Hf as (_ & me & fs & k & Hme & Hfs & Hfd & -> & Hp).
  apply post_bind, post_myproc. intros me' Hme'. rewrite Hme in Hme'. injection Hme' as <-.
  apply post_bind. eapply post_conseq; [eapply (set_fd_state _ _ me fd 0); try done; by left|].
  intros _ s2 (Hs2 & _). apply post_bind. eapply post_conseq; [by apply close_state|]. intros _ s3 [Hs3 _].
  eapply post_counted; [exact Hs3|]. intros b Hb. unfold zero. unfold refers at 2. rewrite (proj2 (Z.eqb_neq 0 b)); lia.
Qed.

(** The part of [sys_dup2] after its checks, on the descriptors of the process. *)
Lemma dup2_state s me fs oldfd newfd f k g :
  counted s -> t_cur s = Some me -> (slot <$> t_procs s) !! me = Some (false, fs) ->
  fs !! Z.to_nat oldfd = Some f -> f = ptr_to k -> fs !! Z.to_nat newfd = Some g ->
  post (mwhen (negb (g =? 0)) (close_ptr g) ;;!
        let! f' := fsop (dup_ptr f) in set_fd me newfd f' ;;! mret newfd) s
    (fun r s' => r = newfd /\ counted s' /\ t_cur s' = Some me /\
       slot <$> t_procs s' = <[me := (false, <[Z.to_nat newfd := f]> fs)]> (slot <$> t_procs s)).
Proof.
  intros Hs Hme Hfs Hold Hf Hnew. subst f. apply post_bind.
  assert (Hclose : post (mwhen (negb (g =? 0)) (close_ptr g)) s (fun _ s' =>
    fd_state (fun a => - refers a g * (if g =? 0 then 0 else 1)) s' /\ same_procs s s')).
  { apply post_when; intros Eg; zbool.
    - pose proof (slot_file_ptr _ _ _ _ _ _ _ Hs Hfs Hnew) as [|(j & -> & _)]; [done|].
      eapply post_conseq; [by apply close_state|]. intros _ s' [H1 H2]. split; [|done].
      eapply fd_state_ext; [|exact H1]. intros a _. cbn. rewrite (proj2 (Z.eqb_neq _ _)) by done. unfold zero. lia.
    - subst g. split; [|done]. eapply fd_state_ext; [|exact Hs]. intros a _. unfold zero. cbn. lia. }
  eapply post_conseq; [exact Hclose|]. intros _ s1 (Hs1 & E1 & E2). apply post_bind.
  eapply post_conseq; [by apply dup_state|]. intros ? s2 (-> & Hs2 & E3 & E4).
  assert (Hfs2 : (slot <$> t_procs s2) !! me = Some (false, fs)) by congruence.
  apply post_bind. eapply post_conseq.
  { eapply (set_fd_state _ s2 me newfd (ptr_to k) g); try done. by eapply slot_file_ptr. }
  intros _ s3 (Hs3 & E5 & E6 & _). apply post_ret. split_and!; [done| |congruence|].
  - eapply fd_state_ext; [|exact Hs3]. intros a Ha. unfold zero. cbn. destruct (Z.eqb_spec g 0) as [->|]; [|lia].
    unfold refers at 3. rewrite (proj2 (Z.eqb_neq 0 a)); lia.
  - rewrite E6. congruence.
Qed.

Lemma dup2_counted : keeps_counts sys_dup2.
Proof.
  intros s Hs. unfold sys_dup2. apply post_bind. eapply post_conseq; [by apply argfd_state|].
  intros [[oldfd f]|] s1 (Hs1 & _ & Hf); [|by apply post_ret]. destruct Hf as (_ & me & fs & k & Hme & Hfs & Hfd & Ek & _).
  apply post_bind. eapply post_conseq; [apply keepv_state; [apply keepv_argint|exact Hs1]|].
  intros [newfd|] s2 (Hs2 & E1 & E2); [|by apply post_ret].
  destruct (_ || _) eqn:Er; [by apply post_ret|]. destruct (oldfd =? newfd); [by apply post_ret|].
  apply post_bind, post_myproc. intros me' Hme'. assert (me' = me) as -> by congruence.
  apply post_bind, post_getp. intros p Hp. assert (Hfs2 : (slot <$> t_procs s2) !! me = Some (false, fs)) by congruence.
  assert (Hof : p_ofile p = fs) by (rewrite list_lookup_fmap, Hp in Hfs2; by injection Hfs2 as _ ->).
  destruct (p_ofile p !! Z.to_nat newfd) as [g|] eqn:Eg; [|apply post_undef]. rewrite Hof in Eg.
  eapply post_conseq; [by eapply (dup2_state s2 me fs oldfd newfd f k g)|]. by intros ? s3 (_ & ? & _).
Qed.

Lemma keepv_setf k g : (forall f, f_ref (g f) = f_ref f) -> keepv (fsop (setf k g)).
Proof.
  intros H s. apply post_fsop_fm, post_set. unfold fdview. cbn. by rewrite (counts_same g k (ftable (t_fs s)) H).
Qed.

Lemma keepv_open_inode path omode : keepv (open_inode devsw_read devsw_write stack_name path omode).
Proof. unfold open_inode. keepv. Qed.

(** Runs a step that leaves descriptors and counts alone. *)
Ltac run_keepv H :=
  apply post_bind; eapply post_conseq; [apply keepv_state; [|exact H]|]; cbv beta.

Lemma open_counted : keeps_counts (sys_open devsw_read devsw_write stack_name).
Proof.
  intros s Hs. unfold sys_open. run_keepv Hs; [apply keepv_argpath|]. intros [path|] s1 [Hs1 _]; [|by apply post_ret].
  run_keepv Hs1; [apply keepv_argint|]. intros [omode|] s2 [Hs2 _]; [|by apply post_ret].
  run_keepv Hs2; [apply keepv_begin|]. intros _ s3 [Hs3 _].
  run_keepv Hs3; [apply keepv_open_inode|]. intros [ip|] s4 [Hs4 _]; [|by apply post_ret].
  apply post_bind. eapply post_conseq; [by apply alloc_state|]. intros [k|] s5 [_ Hs5].
  2: { run_keepv Hs5; [apply keepv_fs|]. intros _ s6 [Hs6 _]. run_keepv Hs6; [apply keepv_end|].
       intros _ s7 [Hs7 _]. by apply post_ret. }
  destruct Hs5 as [Hs5 Hk]. apply post_bind. eapply post_conseq; [apply fdalloc_state; [exact Hs5|right; eauto]|].
  intros fd s6 (E1 & E2 & Hfd). destruct Hfd as [[-> ->]|(Hfd & Hs6 & _)]; cbn [Z.ltb Z.compare].
  - apply post_bind. eapply post_conseq; [by apply close_state|]. intros _ s7 [Hs7 _].
    run_keepv Hs7; [apply keepv_fs|]. intros _ s8 [Hs8 _]. run_keepv Hs8; [apply keepv_end|]. intros _ s9 [Hs9 _].
    eapply post_counted; [exact Hs9|]. intros b _. unfold zero. lia.
  - rewrite (proj2 (Z.ltb_ge _ _)) by lia.
    eapply post_conseq; [apply keepv_state; [|exact Hs6]|].
    { keepv; apply keepv_setf; by intros []. }
    intros _ s7 [Hs7 _]. eapply fd_state_ext; [|exact Hs7]. intros b _. unfold zero. lia.
Qed.

(** Raising a count and lowering it again; two counts, in the order of [pipealloc]. *)
Lemma moves_back k (t t' t'' : files D) : count_moves k 1 t t' -> count_moves k (-1) t' t'' -> counts t'' = counts t.
Proof.
  intros (n & Hn & _ & _ & E) (m & Hm & _ & _ & E'). rewrite E in Hm.
  rewrite list_lookup_insert_eq in Hm by (by eapply lookup_lt_Some). injection Hm as <-.
  rewrite E', E, list_insert_insert_eq. replace (n + 1 + -1) with n by lia. by apply list_insert_id.
Qed.

Lemma moves_back2 k0 k1 (t t0 t1 t2 t3 : files D) :
  counts t !! k0 = Some 0 -> counts t0 !! k1 = Some 0 -> count_moves k0 1 t t0 -> count_moves k1 1 t0 t1 ->
  count_moves k0 (-1) t1 t2 -> count_moves k1 (-1) t2 t3 -> counts t3 = counts t.
Proof.
  intros Z0 Z1 (n0 & Hn0 & _ & _ & E0) (n1 & Hn1 & _ & _ & E1) (m0 & Hm0 & _ & _ & F0) (m1 & Hm1 & _ & _ & F1).
  assert (n0 = 0) as -> by congruence. assert (n1 = 0) as -> by congruence.
  pose proof (lookup_lt_Some _ _ _ Z0) as L0. pose proof (lookup_lt_Some _ _ _ Z1) as L1.
  assert (Hne : k0 <> k1) by (intros ->; rewrite E0, list_lookup_insert_eq in Z1 by done; done).
  rewrite E0 in Z1. rewrite list_lookup_insert_ne in Z1 by done.
  rewrite E1, E0, list_lookup_insert_ne, list_lookup_insert_eq in Hm0 by done. injection Hm0 as <-.
  rewrite F0, E1, list_lookup_insert_ne, list_lookup_insert_eq in Hm1 by done. injection Hm1 as <-.
  rewrite F1, F0, E1, E0, (list_insert_insert_ne _ k1 k0) by done.
  rewrite list_insert_insert_eq, (list_insert_insert_ne _ k0 k1), list_insert_insert_eq by done.
  rewrite (list_insert_id _ k0) by done. by rewrite list_insert_id.
Qed.

Lemma pipealloc_counts (x : St * files D) :
  post pipealloc x (fun r x' =>
    match r with
    | None => counts x'.2 = counts x.2
    | Some (k0, k1) => exists t, count_moves k0 1 x.2 t /\ count_moves k1 1 t x'.2
    end).
Proof.
  unfold pipealloc, pipe_bad. apply post_bind, post_onfiles. eapply post_conseq; [apply filealloc_counts|].
  intros [k0|] t0 H0.
  2: { apply post_bind, post_ret, post_bind, post_ret. by apply post_ret. }
  destruct H0 as [Hz0 H0]. apply post_bind, post_onfiles. eapply post_conseq; [apply filealloc_counts|].
  intros [k1|] t1 H1.
  2: { cbv match. apply post_bind. eapply post_conseq; [apply fileclose_counts|]. intros ws x' Hc. cbn in *.
       apply post_bind, post_ret, post_ret. apply (moves_back k0 _ t1); [|done].
       destruct H0 as (n & ? & ? & ? & E). exists n. split_and!; try done. by rewrite H1. }
  destruct H1 as [Hz1 H1]. apply post_bind, post_onkern. intros p k. cbn. destruct (p =? 0).
  - apply post_bind. eapply post_conseq; [apply fileclose_counts|]. intros ws0 x2 Hc0. cbn in *.
    apply post_bind. eapply post_conseq; [apply fileclose_counts|]. intros ws1 x3 Hc1. apply post_ret.
    by apply (moves_back2 k0 k1 _ t0 t1 x2.2).
  - apply post_bind, post_onkern. intros m k'. apply post_bind, post_onfiles, post_set. cbn.
    apply post_bind, post_onfiles, post_set, post_bind, post_onfiles, post_set, post_ret. cbn.
    exists t0. split; [done|]. destruct H1 as (n & ? & ? & ? & E). exists n. split_and!; try done.
    unfold counts in *. cbn. rewrite !counts_same by done. done.
Qed.

Lemma count_moves_lt k e (t t' : files D) : count_moves k e t t' -> (k < length (ftable t'))%nat /\ length (ftable t') = length (ftable t).
Proof.
  intros (n & Hn & _ & _ & E). apply lookup_lt_Some in Hn. unfold counts in *. rewrite length_fmap in Hn.
  apply (f_equal length) in E. rewrite length_insert, !length_fmap in E. lia.
Qed.

Lemma pipealloc_state d s : fd_state d s ->
  post (bothop pipealloc) s (fun r s' => same_procs s s' /\
    match r with
    | None => fd_state d s'
    | Some (k0, k1) => fd_state (fun a => d a + refers a (ptr_to k0) + refers a (ptr_to k1)) s' /\
        file_ptr s' (ptr_to k0) /\ file_ptr s' (ptr_to k1)
    end).
Proof.
  intros H. apply post_bothop_bm. eapply post_conseq; [apply pipealloc_counts|]. intros [[k0 k1]|] [kn f] Hm; (split; [done|]).
  - destruct Hm as (t & H0 & H1). cbn in H0, H1. destruct (count_moves_lt _ _ _ _ H0), (count_moves_lt _ _ _ _ H1).
    split_and!; [|right; exists k0; split; [done|cbn; lia]|right; exists k1; split; [done|cbn; lia]].
    assert (Ht : fd_state (fun a => d a + 1 * refers a (ptr_to k0)) (set_t_fs t s)) by (by apply (count_state d s)).
    eapply fd_state_ext; [|by apply (count_state _ _ (set_t_fs f (set_t_kern kn s)) k1 1 Ht)]. intros a _. cbn. lia.
  - destruct H as [H1 H2]. split; [|done]. unfold fdview, counts in *. cbn in *. by rewrite Hm.
Qed.

(** The end of [sys_pipe] when there is no descriptor for an end. *)
Lemma pipe_undo d s k0 k1 : fd_state d s -> (forall a, 0 < a -> d a = refers a (ptr_to k0) + refers a (ptr_to k1)) ->
  post (close_ptr (ptr_to k0) ;;! close_ptr (ptr_to k1) ;;! mret (-1)) s (fun _ s' => counted s').
Proof.
  intros Hs Hd. apply post_bind. eapply post_conseq; [by apply close_state|]. intros _ s1 [Hs1 _].
  apply post_bind. eapply post_conseq; [by apply close_state|]. intros _ s2 [Hs2 _].
  eapply post_counted; [exact Hs2|]. intros b Hb. cbn. rewrite (Hd b Hb). lia.
Qed.

Lemma pipe_counted : keeps_counts sys_pipe.
Proof.
  intros s Hs. unfold sys_pipe. run_keepv Hs; [apply keepv_argptr|]. intros [va|] s1 [Hs1 _]; [|by apply post_ret].
  apply post_bind. eapply post_conseq; [by apply pipealloc_state|]. intros [[k0 k1]|] s2 [_ Hs2]; [|by apply post_ret].
  destruct Hs2 as (Hs2 & Hp0 & Hp1). apply post_bind, post_myproc. intros me Hme.
  destruct (proj2 Hs2 me Hme) as [fs Hfs].
  apply post_bind. eapply post_conseq; [by apply fdalloc_state|]. intros fd0 s3 (F3 & C3 & [[-> ->]|(Hfd0 & Hs3 & Hsl)]).
  - cbn [Z.ltb Z.compare]. apply post_bind, post_ret. cbn [Z.ltb Z.compare Z.geb mwhen].
    apply post_bind, post_ret. apply (pipe_undo _ _ k0 k1 Hs2). intros a _. unfold zero. lia.
  - rewrite (proj2 (Z.ltb_ge _ _)) by lia. destruct (Hsl me fs Hme Hfs) as [E3 H0]. clear Hsl.
    assert (Hp1' : file_ptr s3 (ptr_to k1)) by (unfold file_ptr; by rewrite F3).
    apply post_bind. eapply post_conseq; [by apply fdalloc_state|].
    intros fd1 s4 (_ & C4 & [[-> ->]|(Hfd1 & Hs4 & _)]).
    + cbn [Z.ltb Z.compare]. rewrite Z.geb_leb, (proj2 (Z.leb_le _ _)) by lia. apply post_bind. cbn [mwhen].
      eapply post_conseq.
      { eapply (set_fd_state _ s3 me fd0 0 (ptr_to k0) false); [exact Hs3| | |done|by left].
        - rewrite E3, list_lookup_insert_eq by (by eapply lookup_lt_Some). done.
        - rewrite list_lookup_insert_eq by (by eapply lookup_lt_Some). done. }
      intros _ s5 (Hs5 & _). apply (pipe_undo _ _ k0 k1 Hs5). intros a Ha. unfold zero.
      unfold refers at 5. rewrite (proj2 (Z.eqb_neq 0 a)); lia.
    + rewrite (proj2 (Z.ltb_ge _ _)) by lia.
      eapply post_conseq; [apply keepv_state; [|exact Hs4]|].
      { keepv; apply keepv_ustore32. }
      intros _ s7 [Hs7 _]. eapply fd_state_ext; [|exact Hs7]. intros b _. unfold zero. lia.
Qed.

(** Reading and writing move offsets and pipes only. *)
Lemma keepv_fileread k killed n : keepv (fsop (fileread devsw_read killed k n)).
Proof.
  intros s. apply post_fsop_fm. unfold fileread. apply post_bind, post_getf. intros f Hf.
  destruct (f_readable f =? 0); [by apply post_ret|]. destruct (f_type f); [apply post_panic|by apply post_onpipe|].
  apply post_bind, post_onfs. intros _ g1. apply post_bind, post_onfs. intros [r l] g2. apply post_bind.
  apply post_when; intros _; [apply post_set|];
    (apply post_bind, post_onfs; intros _ g3; apply post_ret; unfold fdview; cbn); by rewrite ?counts_same.
Qed.

Lemma filewrite_counts fuel k addr i n (t : files D) :
  post (filewrite_loop devsw_write fuel k addr i n) t (fun _ t' => counts t' = counts t).
Proof.
  revert t i. induction fuel as [|fuel IH]; intros t i; cbn; destruct (negb (i <? n)); try by apply post_ret.
  { by intros a t'. }
  apply post_bind, post_onfs. intros _ g1. apply post_bind, post_getf. intros f Hf.
  apply post_bind, post_onfs. intros _ g2. apply post_bind, post_onfs. intros r g3. apply post_bind.
  apply post_when; intros _; [apply post_set|];
    (apply post_bind, post_onfs; intros _ g4; apply post_bind, post_onfs; intros _ g5;
     destruct (r <? 0); [apply post_ret; unfold counts; cbn; by rewrite ?counts_same|];
     destruct (negb _); [apply post_panic|];
     eapply post_conseq; [apply IH|]; intros _ t' ->; unfold counts; cbn; by rewrite ?counts_same).
Qed.

Lemma keepv_filewrite k killed addr n : keepv (fsop (filewrite devsw_write killed k addr n)).
Proof.
  intros s. apply post_fsop_fm. unfold filewrite. apply post_bind, post_getf. intros f Hf.
  destruct (f_writable f =? 0); [by apply post_ret|]. destruct (f_type f); [apply post_panic|by apply post_onpipe|].
  apply post_bind. eapply post_conseq; [apply filewrite_counts|]. intros i t Ht. apply post_ret.
  unfold fdview, counts in *. cbn. by rewrite Ht.
Qed.

(** A process changes state, alive before and after, or dead before and after. *)
Lemma keepv_at_setp i f (s : pst St (files D)) p : t_procs s !! i = Some p -> slot (f p) = slot p ->
  post (setp i f) s (fun _ s' => fdview s' = fdview s /\ t_cur s' = t_cur s /\ t_procs s' !! i = Some (f p)).
Proof.
  intros Hp Hf. apply post_set. unfold fdview. cbn. rewrite list_lookup_alter_eq, Hp. split_and!; try done. f_equal.
  rewrite (alter_insert _ _ _ _ Hp), list_fmap_insert. apply list_insert_id. by rewrite list_lookup_fmap, Hp, Hf.
Qed.

Lemma view_counted d (s s' : pst St (files D)) : fdview s' = fdview s -> t_cur s' = t_cur s \/ t_cur s' = None -> fd_state d s -> fd_state d s'.
Proof.
  intros E Ec [H1 H2]. split; [by rewrite E|]. unfold fdview in E. injection E as E _. intros me Hme. rewrite E.
  apply H2. destruct Ec; congruence.
Qed.

Lemma keeps_sched : keeps_counts sched.
Proof.
  intros s Hs. unfold sched. prun. destruct (negb _); prun. destruct (is_state _ _); prun.
  by apply (view_counted _ s); [|right|].
Qed.

(** Setting a living state on a living process. *)
Lemma keeps_set_live me f st : (forall p, p_state (f p) = st) -> (forall p, p_ofile (f p) = p_ofile p) ->
  st <> UNUSED -> st <> ZOMBIE ->
  forall s, counted s -> t_cur s = Some me -> post (setp me f) s (fun _ s' => counted s' /\ t_cur s' = Some me).
Proof.
  intros Ef Eo Hu Hz s Hs Hme. destruct (proj2 Hs me Hme) as [fs Hfs]. pose proof Hfs as (p & Hp & Hd & _)%slots_lookup.
  eapply post_conseq; [apply (keepv_at_setp me f s p Hp)|].
  - unfold slot. rewrite Eo, Hd. f_equal. unfold dead. rewrite Ef. apply bool_decide_false. by intros [?|?].
  - intros _ s' (E1 & E2 & _). split; [|congruence]. apply (view_counted _ s); auto.
Qed.

Lemma keeps_sleep c : keeps_counts (sleep c).
Proof.
  intros s Hs. unfold sleep. apply post_bind, post_myproc. intros me Hme. apply post_bind.
  eapply post_conseq; [apply keepv_state; [apply keepv_setp; by intros []|exact Hs]|]. intros _ s1 (Hs1 & _ & E1).
  apply post_bind. eapply post_conseq; [apply (keeps_set_live me _ SLEEPING); try done; congruence|].
  intros _ s2 [Hs2 _]. by apply keeps_sched.
Qed.

#[local] Opaque sleep.

Lemma keeps_yield : keeps_counts yield.
Proof.
  intros s Hs. unfold yield. run_keepv Hs; [apply keepv_plock|]. intros _ s1 (Hs1 & _ & E1).
  apply post_bind, post_myproc. intros me Hme. apply post_bind.
  eapply post_conseq; [apply (keeps_set_live me _ RUNNABLE); try done; congruence|].
  intros _ s2 [Hs2 _]. by apply keeps_sched.
Qed.

Lemma keeps_kill pid : keeps_counts (kill pid).
Proof.
  intros s Hs. unfold kill. run_keepv Hs; [apply keepv_plock|]. intros _ s1 (Hs1 & _). apply post_bind, post_get.
  destruct (find_proc _ _ _) as [i|]; [|eapply post_conseq; [apply keepv_state; [|exact Hs1]; keepv|by intros ? ? [? _]]].
  run_keepv Hs1; [apply keepv_setp; by intros []|]. intros _ s2 (Hs2 & _).
  apply post_bind, post_getp. intros p Hp. apply post_bind.
  assert (Hend : forall s3, counted s3 -> post (Proc.punlock ;;! mret 0) s3 (fun _ s' => counted s')).
  { intros s3 Hs3. eapply post_conseq; [apply keepv_state; [|exact Hs3]; keepv|by intros ? ? [? _]]. }
  apply post_when; intros Est; [|by apply Hend]. apply is_state_true in Est.
  eapply post_conseq; [apply (keepv_at_setp _ _ _ p Hp)|].
  { unfold slot, dead. cbn. by rewrite !bool_decide_false by (intros [?|?]; congruence). }
  intros _ s3 (E1 & E2 & _). apply Hend. by apply (view_counted _ s2); auto.
Qed.

Lemma slots_alter_at f i (ps : list proc) p :
  ps !! i = Some p -> slot (f p) = slot p -> slot <$> alter f i ps = slot <$> ps.
Proof.
  intros Hp Hf. rewrite (alter_insert _ _ _ _ Hp), list_fmap_insert. apply list_insert_id.
  by rewrite list_lookup_fmap, Hp, Hf.
Qed.

Lemma slot_dead p q : p_ofile q = p_ofile p -> p_state p = UNUSED \/ p_state p = ZOMBIE ->
  p_state q = UNUSED \/ p_state q = ZOMBIE -> slot q = slot p.
Proof. intros E H1 H2. unfold slot, dead. by rewrite E, !bool_decide_true. Qed.

Lemma keeps_wait : keeps_counts wait.
Proof.
  intros s Hs. unfold wait, wait_pass. prun. destruct (find_proc _ _ _) as [i|] eqn:Ef; prun.
  - apply find_proc_0 in Ef as (p & Hp & [_ Hz%is_state_true]%andb_true_iff).
    apply (view_counted _ s); [|left; reflexivity|exact Hs]. unfold fdview. pcbn. rewrite !list_alter_alter_eq. f_equal.
    apply (slots_alter_at _ _ _ p Hp), slot_dead; [reflexivity|by right|by left].
  - destruct (_ || _); prun; [by apply (view_counted _ s); [|left|]|].
    eapply post_conseq; [apply keeps_sleep|]. { by apply (view_counted _ s); [|left|]. }
    intros u s2 Hs2. by apply post_ret.
Qed.

Lemma pick_lookup scan (ps : list proc) i : pick scan ps = Some i -> exists p, ps !! i = Some p /\ p_state p = RUNNABLE.
Proof.
  unfold pick. destruct (find_proc _ scan (drop scan ps)) as [j|] eqn:E.
  - intros [= <-]. apply find_proc_Some in E as (p & H1 & Hp & Hr & _). apply is_state_true in Hr. exists p.
    rewrite lookup_drop in Hp. split; [|done]. rewrite <- Hp. f_equal. lia.
  - intros (p & Hp & Hr%is_state_true)%find_proc_0. eauto.
Qed.

Lemma keeps_scheduler : keeps_counts scheduler.
Proof.
  intros s Hs. unfold scheduler. prun. destruct (pick _ _) as [i|] eqn:Ep; prun; [|by apply (view_counted _ s); [|left|]].
  apply pick_lookup in Ep as (p & Hp & Hr). destruct Hs as [H1 H2].
  assert (E : slot <$> alter (fun x => set_p_chan CNull (set_p_state RUNNING x)) i (t_procs s) = slot <$> t_procs s).
  { eapply slots_alter_at; [exact Hp|]. unfold slot, dead. cbn. by rewrite !bool_decide_false by (intros [?|?]; congruence). }
  split.
  - unfold fdview. cbn. rewrite list_alter_alter_eq. unfold compose. by rewrite E.
  - intros me [= <-]. cbn. rewrite list_alter_alter_eq. unfold compose. rewrite E, list_lookup_fmap, Hp. cbn.
    exists (p_ofile p). unfold slot, dead. by rewrite bool_decide_false by (intros [?|?]; congruence).
Qed.

Lemma keeps_wakeup c : keeps_counts (wakeup c).
Proof. apply keeps_keepv. unfold wakeup. keepv. Qed.

Lemma keeps_growproc n : keeps_counts (growproc n).
Proof. apply keeps_keepv. unfold growproc. keepv. Qed.

(** ** [fork] and [exit] *)

Variables (trapret forkret : Z).

#[local] Instance fd_layer : FileLayer St (files D) := file_layer devsw_read.

Lemma keepv_for n i (body : Z -> PM unit) : (forall j, keepv (body j)) -> keepv (for_ n i body).
Proof. intros H. revert i. induction n as [|n IH]; intros i; cbn; keepv. Qed.

Lemma post_assoc {S A B C} (m : M S A) (k : A -> M S B) (h : B -> M S C) s Q :
  post (mbind m k) s (fun b s' => post (h b) s' Q) -> post (mbind m (fun a => mbind (k a) h)) s Q.
Proof. intros H c s' E. rewrite <- mbind_assoc in E. revert c s' E. by apply post_bind. Qed.

(** A slot with its state set, whatever process runs. *)
Lemma set_live_state d s i fs f st :
  (forall p, p_state (f p) = st) -> (forall p, p_ofile (f p) = p_ofile p) -> st <> UNUSED -> st <> ZOMBIE ->
  fd_state d s -> (slot <$> t_procs s) !! i = Some (false, fs) ->
  post (setp i f) s (fun _ s' => fd_state d s' /\ same_procs s s').
Proof.
  intros Ef Eo Hu Hz Hs Hfs. pose proof Hfs as (p & Hp & Hd & _)%slots_lookup.
  assert (E : slot <$> alter f i (t_procs s) = slot <$> t_procs s).
  { eapply slots_alter_at; [exact Hp|]. unfold slot. rewrite Eo, Hd. f_equal. unfold dead. rewrite Ef.
    apply bool_decide_false. by intros [?|?]. }
  apply post_set. split; [|done]. apply (view_counted _ s); [|by left|done]. unfold fdview. cbn. by rewrite E.
Qed.

(** While [fork] copies the descriptors: those of the parent, and the child's, null
    from [j] on. *)
Definition copying (cur np : nat) (me : option nat) (fsc : list Z) (j : Z) (t : pst St (files D)) : Prop :=
  counted t /\ t_cur t = me /\ (slot <$> t_procs t) !! cur = Some (false, fsc) /\
  exists fsn, (slot <$> t_procs t) !! np = Some (false, fsn) /\
    forall m a, (Z.to_nat j <= m)%nat -> fsn !! m = Some a -> a = 0.

Lemma fork_files_counted cur np s fsc fsn :
  cur <> np -> counted s -> (slot <$> t_procs s) !! cur = Some (false, fsc) ->
  (slot <$> t_procs s) !! np = Some (false, fsn) -> Forall (eq 0) fsn ->
  post (fork_files cur np) s (fun _ s' => counted s' /\ exists fs, (slot <$> t_procs s') !! np = Some (false, fs)).
Proof.
  intros Hne Hs Hc Hn Hz. unfold fork_files.
  eapply post_conseq; [apply (post_for (copying cur np (t_cur s) fsc))|].
  - split_and!; try done. exists fsn. split; [done|]. intros m a _ Hm. symmetry. exact (Forall_lookup_1 _ _ m a Hz Hm).
  - intros j t Hj (Ht & Ec & Htc & fn & Htn & Hzero). apply post_bind, post_getp. intros p Hp.
    assert (Hof : p_ofile p = fsc) by (rewrite list_lookup_fmap, Hp in Htc; by injection Htc as _ ->). rewrite Hof.
    destruct (fsc !! Z.to_nat j) as [f|] eqn:Ef; [|apply post_undef].
    assert (Hkeep : forall fn' : list Z, (forall m a, (Z.to_nat j < m)%nat -> fn' !! m = Some a -> a = 0) ->
      forall m a, (Z.to_nat (j + 1) <= m)%nat -> fn' !! m = Some a -> a = 0).
    { intros fn' H m a Hm. apply H. lia. }
    apply post_when; intros Ez; zbool.
    2: { split_and!; try done. exists fn. split; [done|]. apply Hkeep. intros m a Hm. apply Hzero. lia. }
    pose proof (slot_file_ptr _ _ _ _ _ _ _ Ht Htc Ef) as [|(k & -> & Hk)]; [done|].
    apply post_bind. eapply post_conseq; [by apply dup_state|]. intros g t1 (-> & Ht1 & E1 & E2).
    pose proof (Forall_lookup_1 _ _ _ _ (fo_slots _ _ (proj1 Ht)) Htn) as [Hlen _]. cbn in Hlen.
    destruct (lookup_lt_is_Some_2 fn (Z.to_nat j)) as [z Hzj]; [rewrite Hlen; unfold NOFILE in *; lia|].
    assert (z = 0) as -> by (by apply (Hzero (Z.to_nat j))).
    eapply post_conseq.
    { apply (set_fd_state _ t1 np j (ptr_to k) 0 false fn Ht1); [by rewrite E1|done|done|].
      apply (slot_file_ptr _ _ cur false fsc (Z.to_nat j) _ Ht1); [by rewrite E1|done]. }
    intros _ t2 (Ht2 & E3 & E4 & _). split_and!; [|congruence| |].
    + eapply fd_state_ext; [|exact Ht2]. intros a Ha. cbn. unfold zero. unfold refers at 2.
      rewrite (proj2 (Z.eqb_neq 0 a)); lia.
    + rewrite E4, list_lookup_insert_ne by done. by rewrite E1.
    + exists (<[Z.to_nat j := ptr_to k]> fn). split.
      * rewrite E4, list_lookup_insert_eq; [done|]. rewrite E1. by eapply lookup_lt_Some.
      * apply Hkeep. intros m a Hm. rewrite list_lookup_insert_ne by lia. apply Hzero. lia.
  - intros _ s' (Hs' & _ & _ & fn & Hfn & _). eauto.
Qed.

#[local] Opaque fork_files.

(** A free slot comes to life: it has no descriptors. *)
Lemma birth_counted s s' i p f :
  counted s -> t_procs s !! i = Some p -> p_state p = UNUSED -> t_procs s' = alter f i (t_procs s) ->
  t_cur s' = t_cur s -> t_fs s' = t_fs s -> dead (f p) = false -> p_ofile (f p) = p_ofile p ->
  counted s' /\ (slot <$> t_procs s') !! i = Some (false, p_ofile p) /\ Forall (eq 0) (p_ofile p) /\
  t_cur s <> Some i /\ forall j, j <> i -> (slot <$> t_procs s') !! j = (slot <$> t_procs s) !! j.
Proof.
  intros Hs Hp Hu Et Ec Ef Hd Ho.
  assert (Hsl : (slot <$> t_procs s) !! i = Some (true, p_ofile p)).
  { rewrite list_lookup_fmap, Hp. cbn. unfold slot, dead. by rewrite bool_decide_true by (by left). }
  destruct (Forall_lookup_1 _ _ _ _ (fo_slots _ _ (proj1 Hs)) Hsl) as [_ Hz]. specialize (Hz eq_refl). cbn in Hz.
  assert (Hcur : t_cur s <> Some i).
  { intros E. destruct (proj2 Hs i E) as [fs Hfs]. congruence. }
  assert (E : slot <$> t_procs s' = <[i := (false, p_ofile p)]> (slot <$> t_procs s)).
  { rewrite Et, (alter_insert _ _ _ _ Hp), list_fmap_insert. unfold slot. by rewrite Hd, Ho. }
  split_and!; try done.
  - destruct Hs as [H1 H2]. split; [unfold fdview; rewrite E, Ef; eapply fds_state; [exact H1|exact Hsl|done]|].
    intros me Hme. rewrite Ec in Hme. destruct (H2 me Hme) as [fs Hfs]. exists fs.
    rewrite E, list_lookup_insert_ne; [done|congruence].
  - rewrite E, list_lookup_insert_eq; [done|]. by eapply lookup_lt_Some.
  - intros j Hj. by rewrite E, list_lookup_insert_ne.
Qed.

(** The end of [fork], after the descriptors. *)
Lemma fork_tail_counted i cwd name (pid : Z) s fs :
  counted s -> (slot <$> t_procs s) !! i = Some (false, fs) ->
  post (let! cwd := fsop (fl_idup cwd) in
        setp i (set_p_cwd cwd) ;;!
        setp i (fun r => set_p_name (name_copy (p_name r) name) r) ;;!
        Proc.plock ;;! setp i (set_p_state RUNNABLE) ;;! Proc.punlock ;;! mret pid) s (fun _ s' => counted s').
Proof.
  intros Hs Hi. cbn [fl_idup fd_layer file_layer]. unfold idup_ptr.
  apply post_bind, post_fsop_fm, post_bind, post_onfs. intros k f. apply post_ret.
  assert (Hs1 : counted (set_t_fs (set_ft_fs f (t_fs s)) s)) by (by apply (view_counted _ s); [|left|]).
  run_keepv Hs1; [by apply keepv_setp|]. intros _ s2 (Hs2 & E2 & _).
  run_keepv Hs2; [by apply keepv_setp|]. intros _ s3 (Hs3 & E3 & _).
  run_keepv Hs3; [apply keepv_plock|]. intros _ s4 (Hs4 & E4 & _).
  apply post_bind. eapply post_conseq.
  { apply (set_live_state zero s4 i fs _ RUNNABLE); [done..|]. rewrite E4, E3, E2. exact Hi. }
  intros _ s5 [Hs5 _]. run_keepv Hs5; [apply keepv_punlock|]. intros _ s6 [Hs6 _]. by apply post_ret.
Qed.

Lemma keeps_fork : keeps_counts (fork data trapret forkret).
Proof.
  intros s Hs. unfold fork, allocproc. prun. destruct (find_proc _ _ _) as [i|] eqn:Ef; prun.
  2: by apply (view_counted _ s); [|left|].
  apply find_proc_0 in Ef as (p & Hp & Hu%is_state_true). destruct (proj2 Hs me Hme) as [fsc Hc].
  destruct (a =? 0); prun.
  { apply (view_counted _ s); [|left; reflexivity|exact Hs]. unfold fdview. pcbn. rewrite !list_alter_alter_eq. f_equal.
    apply (slots_alter_at _ _ _ p Hp), slot_dead; [reflexivity|by left|by left]. }
  destruct (_ =? 0); prun.
  { apply (view_counted _ s); [|left; reflexivity|exact Hs]. unfold fdview. pcbn. rewrite !list_alter_alter_eq. f_equal.
    apply (slots_alter_at _ _ _ p Hp), slot_dead; [reflexivity|by left|by left]. }
  match goal with |- post _ ?X _ => edestruct (birth_counted s X i p) as (H1 & H2 & H3 & H4 & H5);
    [exact Hs|exact Hp|exact Hu|pcbn; rewrite !list_alter_alter_eq; reflexivity|done..|] end.
  assert (Hne : me <> i) by congruence.
  eapply post_conseq; [apply (fork_files_counted me i _ fsc (p_ofile p) Hne H1); [by rewrite H5|exact H2|exact H3]|].
  intros _ t (Ht & fs & Hfs). by apply (fork_tail_counted i _ _ _ t fs).
Qed.

(** While [exit] closes the descriptors: those before [j] are null. *)
Definition closing (cur : nat) (j : Z) (t : pst St (files D)) : Prop :=
  counted t /\ t_cur t = Some cur /\ exists fs, (slot <$> t_procs t) !! cur = Some (false, fs) /\
    forall m a, (m < Z.to_nat j)%nat -> fs !! m = Some a -> a = 0.

Lemma fileclose_all_counted cur s :
  counted s -> t_cur s = Some cur -> post (fileclose_all cur) s (fun _ s' => closing cur NOFILE s').
Proof.
  intros Hs Hc. unfold fileclose_all.
  eapply post_conseq; [apply (post_for (closing cur))|by cbn].
  - destruct (proj2 Hs cur Hc) as [fs Hfs]. split_and!; try done. exists fs. split; [done|]. intros m a Hm. lia.
  - intros j t Hj (Ht & Ec & fs & Hfs & Hz). apply post_bind, post_getp. intros p Hp.
    assert (Hof : p_ofile p = fs) by (rewrite list_lookup_fmap, Hp in Hfs; by injection Hfs as _ ->). rewrite Hof.
    destruct (fs !! Z.to_nat j) as [f|] eqn:Ef; [|apply post_undef].
    assert (Hnext : forall fs' : list Z, (forall m a, (m < Z.to_nat j)%nat -> fs' !! m = Some a -> a = 0) ->
      fs' !! Z.to_nat j = Some 0 -> forall m a, (m < Z.to_nat (j + 1))%nat -> fs' !! m = Some a -> a = 0).
    { intros fs' H Hj0 m a Hm Hma. destruct (decide (m = Z.to_nat j)) as [->|]; [congruence|]. apply (H m a); [lia|done]. }
    apply post_when; intros Ez; zbool.
    2: { subst f. split_and!; try done. exists fs. split; [done|]. by apply Hnext. }
    pose proof (slot_file_ptr _ _ _ _ _ _ _ Ht Hfs Ef) as [|(k & -> & Hk)]; [done|].
    apply post_assoc. eapply post_conseq; [apply (close_state _ _ k Ht)|]. intros _ t1 (Ht1 & E1 & E2).
    eapply post_conseq.
    { apply (set_fd_state _ t1 cur j 0 (ptr_to k) false fs Ht1); [by rewrite E1|done|done|by left]. }
    intros _ t2 (Ht2 & E3 & E4 & _). assert (Hlt : (Z.to_nat j < length fs)%nat) by (by eapply lookup_lt_Some).
    split_and!; [|congruence|].
    + eapply fd_state_ext; [|exact Ht2]. intros a Ha. cbn. unfold zero. unfold refers at 3.
      rewrite (proj2 (Z.eqb_neq 0 a)); lia.
    + exists (<[Z.to_nat j := 0]> fs). split.
      * rewrite E4, list_lookup_insert_eq; [done|]. rewrite E1. by eapply lookup_lt_Some.
      * apply Hnext; [|by rewrite list_lookup_insert_eq]. intros m a Hm. rewrite list_lookup_insert_ne by lia. apply Hz. done.
Qed.

#[local] Opaque fileclose_all.

Lemma keepv_reparent cur : keepv (reparent cur).
Proof. apply keepv_for. intros j. keepv. Qed.

(** The process becomes a zombie without descriptors and gives the CPU up. *)
Lemma die_counted cur s : closing cur NOFILE s ->
  post (setp cur (set_p_state ZOMBIE) ;;! sched) s (fun _ s' => counted s').
Proof.
  intros (Hs & Hc & fs & Hfs & Hz). apply post_bind, post_set. unfold sched. prun.
  destruct (negb _); prun. destruct (is_state _ _); prun. split; [|by intros ? ?].
  pose proof Hfs as (p & Hp & Hd & Ho)%slots_lookup. unfold fdview. pcbn.
  rewrite (alter_insert _ _ _ _ Hp), list_fmap_insert. unfold slot at 1. cbn. rewrite Ho.
  eapply fds_state; [exact (proj1 Hs)|exact Hfs|]. intros _.
  destruct (Forall_lookup_1 _ _ _ _ (fo_slots _ _ (proj1 Hs)) Hfs) as [Hlen _]. cbn in Hlen.
  apply Forall_lookup. intros m a Hm. symmetry. apply (Hz m); [|done]. rewrite <- Hlen. by eapply lookup_lt_Some.
Qed.

Lemma closing_keepv {A} (c : PM A) cur s : keepv c -> closing cur NOFILE s -> post c s (fun _ s' => closing cur NOFILE s').
Proof.
  intros Hk (Hs & Hc & fs & Hfs & Hz). eapply post_conseq; [by apply keepv_state|]. intros _ s' (Hs' & E1 & E2).
  split_and!; [done|congruence|]. exists fs. by rewrite E1.
Qed.

Ltac close_step H :=
  apply post_bind; eapply post_conseq; [eapply closing_keepv; [|exact H]|clear H; intros ? ? H]; cbv beta.

Lemma keeps_exit status : keeps_counts (exit status).
Proof.
  intros s Hs. unfold exit. apply post_bind, post_myproc. intros me Hme.
  run_keepv Hs; [by apply keepv_setp|]. intros _ s1 (Hs1 & _ & C1). apply post_bind, post_get.
  destruct (bool_decide _); [apply post_panic|]. apply post_bind.
  eapply post_conseq; [apply (fileclose_all_counted me s1 Hs1); congruence|]. intros u s2 H2.
  cbn [fl_begin_op fl_iput fl_end_op fd_layer file_layer].
  close_step H2; [apply keepv_begin|]. close_step H2; [apply keepv_getp|]. close_step H2; [apply keepv_fs|].
  close_step H2; [apply keepv_end|]. close_step H2; [by apply keepv_setp|]. close_step H2; [apply keepv_plock|].
  close_step H2; [apply keepv_getp|]. close_step H2; [apply keepv_wakeup1|]. close_step H2; [apply keepv_reparent|].
  by apply die_counted.
Qed.

(** ** The handlers that use descriptors only *)

Lemma keeps_io_end f r : keeps_counts (io_end f r).
Proof.
  destruct r as [n|c i]; cbn; [by apply keeps_keepv, keepv_ret|].
  apply keeps_bind; [|intros fl; apply keeps_bind; [|intros u]].
  - apply keeps_keepv. intros s. by apply post_fsop_fm, post_getf.
  - apply keeps_keepv, keepv_plock.
  - apply keeps_bind; [apply keeps_sleep|]. intros u'. apply keeps_keepv, keepv_ret.
Qed.

Lemma keepv_argfd n : keepv (argfd n).
Proof. unfold argfd. keepv. Qed.
#[local] Hint Resolve keepv_argfd : fds.

Lemma keeps_ret {A} (a : A) : keeps_counts (mret a).
Proof. apply keeps_keepv, keepv_ret. Qed.

(** The steps of a handler: frames where possible. *)
Ltac keeps_step :=
  first [ apply keeps_ret
        | apply keeps_io_end
        | (apply keeps_bind; [apply keeps_keepv; keepv|intros ?]) ].
Ltac keeps := repeat (keeps_step || match goal with |- keeps_counts (match ?x with _ => _ end) => destruct x end).

Lemma keeps_read : keeps_counts (sys_read devsw_read).
Proof.
  unfold sys_read. keeps; apply keepv_fileread.
Qed.

Lemma keeps_write : keeps_counts (sys_write devsw_write).
Proof.
  unfold sys_write. keeps; [|apply keepv_filewrite]. intros s. by apply post_fsop_fm, post_getf.
Qed.

Lemma keepv_filestat k : keepv (fsop (filestat k)).
Proof.
  intros s. apply post_fsop_fm. unfold filestat. apply post_bind, post_getf. intros f Hf.
  destruct (f_type f); [by apply post_ret..|].
  apply post_bind, post_onfs. intros _ g1. apply post_bind, post_onfs. intros st g2.
  apply post_bind, post_onfs. intros _ g3. by apply post_ret.
Qed.

Lemma keepv_fstat : keepv sys_fstat.
Proof. unfold sys_fstat, ustore_stat, ustore16. keepv. apply keepv_filestat. Qed.

Lemma keepv_link : keepv (sys_link devsw_read devsw_write stack_name).
Proof. unfold sys_link, link_bad. keepv. Qed.

Lemma keepv_unlink : keepv (sys_unlink devsw_read devsw_write stack_name).
Proof. unfold sys_unlink, unlink_bad. keepv. Qed.

Lemma keepv_mkdir : keepv (sys_mkdir devsw_read devsw_write stack_name).
Proof. unfold sys_mkdir. keepv. Qed.

Lemma keepv_mknod : keepv (sys_mknod devsw_read devsw_write stack_name).
Proof. unfold sys_mknod. keepv. Qed.

Lemma keepv_chdir : keepv (sys_chdir devsw_read).
Proof. unfold sys_chdir. keepv. Qed.

Lemma keepv_loaduvm ip pgdir va off sz : keepv (loaduvm (fun _ => kern) (readi_to devsw_read ip) pgdir va off sz).
Proof.
  assert (H : forall n i, keepv (loaduvm_loop (fun _ => kern) (readi_to devsw_read ip) n pgdir va off sz i)).
  { induction n as [|n IH]; intros i; cbn; unfold readi_to; keepv. }
  unfold loaduvm. keepv.
Qed.

Lemma keepv_exec path argv : keepv (exec data devsw_read path argv).
Proof.
  assert (Hload : forall n ip pgdir off sz, keepv (exec_load devsw_read n ip pgdir off sz)).
  { induction n as [|n IH]; intros ip pgdir off sz; cbn; keepv; apply keepv_loaduvm. }
  assert (Hargs : forall pgdir argc sp us, keepv (exec_args pgdir argv argc sp us)).
  { intros pgdir. induction argv as [|arg l IH]; intros argc sp us; cbn; keepv. }
  unfold exec, exec_image, exec_stack, exec_commit, exec_bad, switchuvm. keepv.
Qed.

#[local] Hint Resolve keepv_exec : fds.

Lemma keepv_sys_exec : keepv (sys_exec data devsw_read).
Proof.
  assert (H : forall n a i, keepv (fetch_argv n a i)).
  { induction n as [|n IH]; intros a i; cbn; keepv. }
  unfold sys_exec. keepv.
Qed.

(** ** Steps *)

(** The calls of sysfile.c; the result is missing when the process sleeps. *)
Definition returns (c : PM Z) : PM (option Z) := let! r := c in mret (Some r).
Definition file_calls : list (PM (option Z)) :=
  [returns sys_dup; returns sys_dup2; sys_read devsw_read; sys_write devsw_write; returns sys_close;
   returns sys_fstat; returns (sys_link devsw_read devsw_write stack_name);
   returns (sys_unlink devsw_read devsw_write stack_name); returns (sys_open devsw_read devsw_write stack_name);
   returns (sys_mkdir devsw_read devsw_write stack_name); returns (sys_mknod devsw_read devsw_write stack_name);
   returns (sys_chdir devsw_read); returns (sys_exec data devsw_read); returns sys_pipe].

(** The operations on processes ([ProcInv]) and the calls on files, in any order. *)
Inductive fdstep : pst St (files D) -> pst St (files D) -> Prop :=
| fd_proc s s' : ProcInv.pstep data trapret forkret s s' -> fdstep s s'
| fd_call c r s s' : c ∈ file_calls -> (enter ;;! c) s = Ok (r, s') -> fdstep s s'.

Inductive fdreach : pst St (files D) -> pst St (files D) -> Prop :=
| fd_refl s : fdreach s s
| fd_more s1 s2 s3 : fdreach s1 s2 -> fdstep s2 s3 -> fdreach s1 s3.

Lemma keeps_returns c : keeps_counts c -> keeps_counts (returns c).
Proof. intros H. apply keeps_bind; [done|]. intros r. apply keeps_ret. Qed.

Lemma keeps_calls : Forall keeps_counts file_calls.
Proof.
  repeat apply Forall_cons_2; try apply Forall_nil_2; try apply keeps_returns;
    first [apply dup_counted|apply dup2_counted|apply keeps_read|apply keeps_write|apply close_counted
          |apply open_counted|apply pipe_counted|apply keeps_keepv].
  - apply keepv_fstat.
  - apply keepv_link.
  - apply keepv_unlink.
  - apply keepv_mkdir.
  - apply keepv_mknod.
  - apply keepv_chdir.
  - apply keepv_sys_exec.
Qed.

Lemma fdstep_counted s s' : fdstep s s' -> counted s -> counted s'.
Proof.
  intros H Hs. destruct H as [s s' Hp|c r s s' Hc E].
  - revert Hs. destruct Hp as [r s s' _ E|n s s' E|r s s' E|pid r s s' E|s s' E|c s s' _ E|c s s' E|n r s s' E|r s s' _ E];
      intros Hs; revert E.
    + by apply keeps_fork.
    + by apply keeps_exit.
    + by apply keeps_wait.
    + by apply keeps_kill.
    + by apply keeps_yield.
    + by apply (keeps_bind _ _ (keeps_keepv _ keepv_plock) (fun _ => keeps_sleep c)).
    + by apply keeps_wakeup.
    + by apply keeps_growproc.
    + by apply keeps_scheduler.
  - revert E. apply keeps_bind; [apply keeps_keepv, keepv_enter| |exact Hs]. intros u.
    by apply (proj1 (Forall_forall _ _) keeps_calls).
Qed.


Lemma counted_open s i p fd a :
  counted s -> t_procs s !! i = Some p -> p_ofile p !! fd = Some a -> a <> 0 -> exists k f,
  a = ptr_to k /\ ftable (t_fs s) !! k = Some f /\ 1 <= f_ref f.
Proof.
  intros Hs Hp Ha Hne.
  assert (Hsl : (slot <$> t_procs s) !! i = Some (slot p)) by (by rewrite list_lookup_fmap, Hp).
  destruct (slot_file_ptr _ _ _ _ _ _ _ Hs Hsl Ha) as [|(k & -> & Hk)]; [done|].
  apply lookup_lt_is_Some in Hk as [f Hf]. exists k, f. split_and!; try done.
  eapply fds_ref; [exact (proj1 Hs)|exact Hsl|by eapply list_elem_of_lookup_2|done|]. by rewrite list_lookup_fmap, Hf.
Qed.

(** ** Properties *)

(** C5: reference counts.  Whatever calls on files, forks, exits, waits, wake-ups
    and switches run, in whatever order, the count of every open file is the
    number of descriptors that refer to it in all processes, no descriptor refers
    to a file that is free, and dead processes have no descriptors. *)
Theorem descriptor_counts s s' :
  counted s -> fdreach s s' ->
  (forall k f, ftable (t_fs s') !! k = Some f -> f_ref f = refs (ptr_to k) (slot <$> t_procs s')) /\
  (forall i p fd a, t_procs s' !! i = Some p -> p_ofile p !! fd = Some a -> a <> 0 ->
     exists k f, a = ptr_to k /\ ftable (t_fs s') !! k = Some f /\ 1 <= f_ref f) /\
  (forall i p a, t_procs s' !! i = Some p -> dead p = true -> a ∈ p_ofile p -> a = 0).
Proof.
  intros Hs Hr. assert (Hs' : counted s').
  { induction Hr as [|s1 s2 s3 _ IH Hstep]; [done|]. eapply fdstep_counted; eauto. }
  split_and!.
  - intros k f Hf. rewrite (fo_count _ _ (proj1 Hs') k (f_ref f)); [unfold zero; cbn; lia|].
    cbn. by rewrite list_lookup_fmap, Hf.
  - intros i p fd a. by apply counted_open.
  - intros i p a Hp Hd Ha. destruct (Forall_lookup_1 _ _ i (slot p) (fo_slots _ _ (proj1 Hs'))) as [_ Hz].
    { cbn. by rewrite list_lookup_fmap, Hp. }
    symmetry. exact (proj1 (Forall_forall _ _) (Hz Hd) a Ha).
Qed.

(** The descriptors of the process that runs. *)
Definition my_fds (s : pst St (files D)) (fs : list Z) : Prop :=
  exists me p, t_cur s = Some me /\ t_procs s !! me = Some p /\ p_ofile p = fs.
Definition open_fd (fs : list Z) (fd f : Z) : Prop :=
  0 <= fd < NOFILE /\ fs !! Z.to_nat fd = Some f /\ f <> 0.

Lemma argfd_run s n fd fs :
  argint n s = Ok (Some fd, s) -> my_fds s fs -> length fs = Z.to_nat NOFILE ->
  argfd n s = Ok (match (if (fd <? 0) || (fd >=? NOFILE) then None else fs !! Z.to_nat fd) with
                  | Some f => if f =? 0 then None else Some (fd, f) | None => None end, s).
Proof.
  intros Ha (me & p & Hme & Hp & <-) Hlen. unfold argfd. mby Ha.
  assert (E1 : myproc s = Ok (me, s)) by (unfold myproc; by rewrite Hme). mby E1.
  assert (E2 : getp me s = Ok (p, s)) by (by apply getp_ok). mby E2.
  destruct ((fd <? 0) || (fd >=? NOFILE)) eqn:Er; [done|]. zbool.
  destruct (lookup_lt_is_Some_2 (p_ofile p) (Z.to_nat fd)) as [f Hf]; [rewrite Hlen; unfold NOFILE in *; lia|].
  rewrite Hf. by destruct (f =? 0).
Qed.

(** [sys_dup2] once its arguments are fetched. *)
Section Dup2.
Context (s : pst St (files D)) (oldfd newfd : Z) (fs : list Z).
Hypotheses (Hmy : my_fds s fs) (Hlen : length fs = Z.to_nat NOFILE).
Hypotheses (A0 : argint 0 s = Ok (Some oldfd, s)) (A1 : argint 1 s = Ok (Some newfd, s)).

Lemma dup2_refused : (forall f, ~ open_fd fs oldfd f) \/ ~ (0 <= newfd < NOFILE) -> sys_dup2 s = Ok (-1, s).
Proof.
  intros H. unfold sys_dup2. rewrite (mbind_ok _ _ _ _ _ (argfd_run s 0 oldfd fs A0 Hmy Hlen)).
  destruct ((oldfd <? 0) || (oldfd >=? NOFILE)) eqn:Er; [done|]. zbool.
  destruct (fs !! Z.to_nat oldfd) as [f|] eqn:Ef; [|done]. destruct (Z.eqb_spec f 0) as [|Hf]; [done|].
  mby A1. destruct H as [H|H]; [by destruct (H f)|]. destruct ((newfd <? 0) || (newfd >=? NOFILE)) eqn:En; [done|]. zbool. lia.
Qed.

Lemma dup2_run f : open_fd fs oldfd f -> 0 <= newfd < NOFILE -> exists me g, t_cur s = Some me /\
  fs !! Z.to_nat newfd = Some g /\
  sys_dup2 s = (if oldfd =? newfd then mret oldfd else
                mwhen (negb (g =? 0)) (close_ptr g) ;;!
                let! f' := fsop (dup_ptr f) in set_fd me newfd f' ;;! mret newfd) s.
Proof.
  intros (Hr & Hf & Hne) Hn. pose proof Hmy as (me & p & Hme & Hp & Ho).
  destruct (lookup_lt_is_Some_2 fs (Z.to_nat newfd)) as [g Hg]; [rewrite Hlen; lia|]. exists me, g. split_and!; try done.
  unfold sys_dup2. rewrite (mbind_ok _ _ _ _ _ (argfd_run s 0 oldfd fs A0 Hmy Hlen)).
  assert (E1 : myproc s = Ok (me, s)) by (unfold myproc; by rewrite Hme).
  assert (E2 : getp me s = Ok (p, s)) by (by apply getp_ok).
  rewrite (proj2 (Z.ltb_ge oldfd 0)), Z.geb_leb, (proj2 (Z.leb_gt NOFILE oldfd)) by lia. cbn [orb].
  rewrite Hf, (proj2 (Z.eqb_neq f 0)) by done. mby A1.
  rewrite (proj2 (Z.ltb_ge newfd 0)), Z.geb_leb, (proj2 (Z.leb_gt NOFILE newfd)) by lia. cbn [orb].
  destruct (oldfd =? newfd); [done|]. mby E1. mby E2. by rewrite Ho, Hg.
Qed.

End Dup2.

(** C28: [dup2(oldfd, newfd)], on each branch.  If [oldfd] is not open or [newfd] is
    out of range the result is -1 and nothing changes; if they are equal the
    result is [newfd] and nothing changes.  Otherwise the result is [newfd], which
    now refers to the file of [oldfd] while no other descriptor of any process
    changes, whatever [newfd] referred to is closed, and all reference counts are
    those of the descriptors; the call cannot fail when [newfd] was free. *)
Theorem dup2_correct s oldfd newfd fs :
  counted s -> ft_lock (t_fs s) = false -> my_fds s fs ->
  argint 0 s = Ok (Some oldfd, s) -> argint 1 s = Ok (Some newfd, s) ->
  ((forall f, ~ open_fd fs oldfd f) \/ ~ (0 <= newfd < NOFILE) -> sys_dup2 s = Ok (-1, s)) /\
  (forall f, open_fd fs oldfd f -> 0 <= newfd < NOFILE ->
    (oldfd = newfd -> sys_dup2 s = Ok (newfd, s)) /\
    (oldfd <> newfd ->
      (forall r s', sys_dup2 s = Ok (r, s') -> r = newfd /\ counted s' /\ my_fds s' (<[Z.to_nat newfd := f]> fs) /\
         forall me j, t_cur s = Some me -> j <> me -> (slot <$> t_procs s') !! j = (slot <$> t_procs s) !! j) /\
      (fs !! Z.to_nat newfd = Some 0 -> exists s', sys_dup2 s = Ok (newfd, s')))).
Proof.
  intros Hs Hlk Hmy A0 A1. pose proof Hmy as (me & p & Hme & Hp & Ho).
  destruct (proj2 Hs me Hme) as [fs' Hsl]. assert (fs' = fs) as ->.
  { rewrite list_lookup_fmap, Hp in Hsl. injection Hsl as _ <-. done. }
  destruct (Forall_lookup_1 _ _ _ _ (fo_slots _ _ (proj1 Hs)) Hsl) as [Hlen _]. cbn in Hlen.
  split; [by apply dup2_refused|]. intros f Hf Hn.
  destruct (dup2_run s oldfd newfd fs Hmy Hlen A0 A1 f Hf Hn) as (me' & g & Hme' & Hg & ->).
  rewrite Hme in Hme'. injection Hme' as <-. destruct Hf as (Hr & Hof & Hne). split.
  - intros <-. by rewrite Z.eqb_refl.
  - intros Hd. rewrite (proj2 (Z.eqb_neq _ _)) by done.
    destruct (counted_open s me p (Z.to_nat oldfd) f Hs Hp) as (k & fl & Ek & Hfl & Hrf); [by rewrite Ho|done|]. split.
    + intros r s' E. destruct (dup2_state s me fs oldfd newfd f k g Hs Hme Hsl Hof Ek Hg r s' E) as (-> & Hs' & Hc & Es').
      pose proof (lookup_lt_Some _ _ _ Hsl) as Hlt. split_and!; [done|done| |].
      * assert (Hm : (slot <$> t_procs s') !! me = Some (false, <[Z.to_nat newfd := f]> fs)) by (by rewrite Es', list_lookup_insert_eq).
        apply slots_lookup in Hm as (q & Hq & _ & Hqo). by exists me, q.
      * intros me' j Hme' Hj. rewrite Hme in Hme'. injection Hme' as <-. by rewrite Es', list_lookup_insert_ne.
    + intros Hfree. rewrite Hg in Hfree. injection Hfree as ->. eexists.
      unfold mbind, fsop, dup_ptr, mwhen, set_fd, setp, mset, mret. cbn [negb Z.eqb obind]. unfold mbind.
      rewrite Ek, index_ptr, (filedup_run (t_fs s) k fl Hlk Hfl Hrf). cbn. reflexivity.
Qed.

End Descriptors.

(** ** Witnesses

    init runs with descriptor 0 open, and calls [dup2(0, 3)]. *)

Definition fd_slot : proc := set_p_ofile (1 :: replicate 15 0) (set_p_sz 8192 init_slot).
Definition free_file : file := mkfile FD_NONE 0 0 0 0 0 0.
Definition fd_files (f : fsys lst) : files lst :=
  mkfiles false (mkfile FD_INODE 1 1 0 0 0 0 :: replicate 99 free_file) ∅ f.
Definition fd_boot (f : fsys lst) : pst kstate (files lst) :=
  mkP false (fd_slot :: replicate 63 unused_slot) 2 (Some 0%nat) (Some 0%nat) 0
    (mkK false true 0 (put32 (arg_mem 0) 0x80402008 3)) (fd_files f).

Lemma fd_boot_counted f : counted (fd_boot f).
Proof.
  split.
  - split.
    + apply Forall_cons_2; [by split|]. apply Forall_fmap, Forall_replicate. split; [done|]. intros _.
      apply (Forall_replicate (eq 0) 16). done.
    + cbn [fst snd fdview fd_boot t_procs t_fs]. intros p a Hp Ha Hne. exists 0%nat. split; [|cbn; lia].
      rewrite fmap_cons, fmap_replicate in Hp. apply list.elem_of_cons in Hp as [->|[-> _]%elem_of_replicate].
      * cbn in Ha. repeat (apply list.elem_of_cons in Ha as [->|Ha]; [done|]). by apply elem_of_nil in Ha.
      * cbn in Ha. repeat (apply list.elem_of_cons in Ha as [->|Ha]; [done|]). by apply elem_of_nil in Ha.
    + cbn [fst snd fdview fd_boot t_procs t_fs ftable fd_files]. intros k n Hk.
      assert (Hlt : (k < 100)%nat) by (apply lookup_lt_Some in Hk; by rewrite length_fmap in Hk).
      assert (Hall : forallb (fun k => match (f_ref <$> (mkfile FD_INODE 1 1 0 0 0 0 :: replicate 99 free_file)) !! k with
        | Some n => n =? refs (ptr_to k) (slot <$> fd_slot :: replicate 63 unused_slot) | None => true end) (seq 0 100) = true)
        by (vm_compute; reflexivity).
      rewrite forallb_forall in Hall. specialize (Hall k). rewrite Hk in Hall.
      unfold zero. rewrite Z.add_0_r. apply Z.eqb_eq, Hall, in_seq. lia.
  - intros me [= <-]. by eexists.
Qed.

Lemma descriptor_counts_witness :
  exists f : fsys lst, exists s', fdreach (TX := mini_tx) (PA := witness_pa) 0 (fun _ => None) (fun _ => None) (fun _ => 0) 0 0 (fd_boot f) s' /\
    forall k g, ftable (t_fs s') !! k = Some g -> f_ref g = refs (ptr_to k) (slot <$> t_procs s').
Proof.
  destruct mini_state as (f & _). exists f.
  assert (Hstep : exists s', fdstep (TX := mini_tx) (PA := witness_pa) 0 (fun _ => None) (fun _ => None) (fun _ => 0) 0 0 (fd_boot f) s').
  { eexists. eapply fd_call; [apply list.elem_of_cons; right; apply list.elem_of_cons; by left|]. vm_compute. reflexivity. }
  destruct Hstep as [s' Hstep]. exists s'. 
  assert (Hr := fd_more _ _ _ _ _ _ (fd_boot f) (fd_boot f) s' (fd_refl _ _ _ _ _ _ _) Hstep).
  split; [exact Hr|].
  destruct (descriptor_counts (TX := mini_tx) (PA := witness_pa) 0 (fun _ => None) (fun _ => None) (fun _ => 0) 0 0
    (fd_boot f) s' (fd_boot_counted f) Hr) as (H & _). exact H.
Defined.

Lemma dup2_correct_witness :
  exists f : fsys lst, exists s', sys_dup2 (TX := mini_tx) (PA := witness_pa) (fd_boot f) = Ok (3, s') /\
    my_fds s' (1 :: 0 :: 0 :: 1 :: replicate 12 0).
Proof.
  destruct mini_state as (f & _). exists f.
  destruct (dup2_correct (TX := mini_tx) (PA := witness_pa) (fd_boot f) 0 3 (1 :: replicate 15 0)) as [_ H].
  - apply fd_boot_counted.
  - reflexivity.
  - by exists 0%nat, fd_slot.
  - vm_compute. reflexivity.
  - vm_compute. reflexivity.
  - destruct (H 1) as [_ H']; [by split_and!|done|]. destruct H' as [H1 H2]; [done|]. destruct H2 as [s' Hs']; [done|].
    exists s'. split; [exact Hs'|]. destruct (H1 3 s' Hs') as (_ & _ & Hm & _). exact Hm.
Defined.
