(* ===== verification/Ulib.v ===== *)
(** * The user library: [ulib.c] and [printf.c]

    User programs work on NUL-terminated strings.  A pointer that only reads
    one is the list of the characters from it on, the terminating NUL left out:
    [*s] is [deref s], [s + 1] is [tl s].  Routines that write take the memory
    of the process.  The calls of [read] and [write] are the bytes they move.

    The theorems show that the library's forward-only [memmove] is enough for
    the overlaps of its callers, that [strcmp] decides equality of strings,
    that the 16-byte buffer of [printint] is large enough, and that [atoi]
    reads back what [printf] prints. *)

From Stdlib Require Import ZArith Lia String Ascii.
From stdpp Require Import base numbers list.
From S2P Require Import Prelude Bytes.

Local Open Scope Z_scope.

(** ** Characters and strings *)

Definition ch (a : ascii) : Z := Z.of_nat (nat_of_ascii a).

Fixpoint chars (s : string) : list Z :=
  match s with
  | EmptyString => []
  | String a s' => ch a :: chars s'
  end.

Definition NL : Z := 10.

(** [*s] of a string. *)
Definition deref (s : list Z) : Z := hd 0 s.

(** ** [ulib.c] *)

(** The loop of [strcpy] runs until it has copied the NUL; the bound is the
    caller's. *)
Fixpoint strcpy (m : mem) (s t : Z) (fuel : nat) : option mem :=
  match fuel with
  | O => None
  | S fuel' =>
      let m' := put8 m s (m t) in
      if m' s =? 0 then Some m' else strcpy m' (s + 1) (t + 1) fuel'
  end.

Fixpoint strcmp (p q : list Z) : Z :=
  match p with
  | c :: p' => if negb (c =? 0) && (c =? deref q) then strcmp p' (tl q) else u8 c - u8 (deref q)
  | [] => - u8 (deref q)
  end.

Fixpoint strlen (s : list Z) : Z :=
  match s with
  | c :: s' => if c =? 0 then 0 else 1 + strlen s'
  | [] => 0
  end.

Definition memset (m : mem) (dst c n : Z) : mem := stosb m dst c (Z.to_nat n).

(** The address of the first [c] of [s], as the string from there on.  The NUL
    that ends the string is not found. *)
Fixpoint strchr (s : list Z) (c : Z) : option (list Z) :=
  match s with
  | d :: s' => if d =? 0 then None else if d =? c then Some s else strchr s' c
  | [] => None
  end.

(** [gets] reads one byte at a time from [input], at most [max - 1] of them.
    The result is the line and the rest of the input. *)
Fixpoint gets_loop (n : nat) (input : list Z) : list Z * list Z :=
  match n with
  | O => ([], input)
  | S n' =>
      match input with
      | [] => ([], [])
      | c :: rest =>
          if (c =? NL) || (c =? 13) then ([c], rest)
          else let '(l, rest') := gets_loop n' rest in (c :: l, rest')
      end
  end.
Definition gets (max : Z) (input : list Z) : list Z * list Z :=
  gets_loop (Z.to_nat (max - 1)) input.

(** [stat] over any system calls [open], [fstat] and [close]. *)
Section stat.
  Context {S : Type} (open : list Z -> M S Z) (fstat : Z -> M S Z) (close : Z -> M S Z).

Definition stat (n : list Z) : M S Z :=
  (let! fd := open n in
   if fd <? 0 then mret (-1)
   else
     let! r := fstat fd in
     close fd ;;!
     mret r)%kernel.
End stat.

Fixpoint atoi_from (s : list Z) (n : Z) : Z :=
  match s with
  | c :: s' =>
      if (ch "0" <=? c) && (c <=? ch "9") then atoi_from s' (s32 (n * 10 + c - ch "0")) else n
  | [] => n
  end.
Definition atoi (s : list Z) : Z := atoi_from s 0.

(** [memmove] of the user library copies upwards whatever the overlap. *)
Definition memmove (m : mem) (dst src n : Z) : mem := memmove_up m dst src (Z.to_nat n).

(** ** [printf.c] *)

Definition printint_buf : nat := 16.

(** [do buf[i++] = digits[x % base]; while ((x /= base) != 0);], least digit
    first; [None] if it writes past the [room] left in [buf]. *)
Fixpoint printint_loop (digits : list Z) (room : nat) (x base : Z) : option (list Z) :=
  match room with
  | O => None
  | S room' =>
      let d := nth (Z.to_nat (x mod base)) digits 0 in
      let x := x / base in
      if x =? 0 then Some [d]
      else match printint_loop digits room' x base with
           | Some l => Some (d :: l)
           | None => None
           end
  end.

(** The characters [printint] of printf.c and of console.c emit, for their
    tables of digits. *)
Definition print_digits (digits : list Z) (xx base sgn : Z) : option (list Z) :=
  let neg := negb (sgn =? 0) && (xx <? 0) in
  let x := u32 (if neg then - xx else xx) in
  match printint_loop digits printint_buf x base with
  | None => None
  | Some l =>
      if neg then if (length l <? printint_buf)%nat then Some (ch "-" :: rev l) else None
      else Some (rev l)
  end.

Definition digits_upper : list Z := chars "0123456789ABCDEF".
Definition printint (xx base sgn : Z) : option (list Z) := print_digits digits_upper (s32 xx) base sgn.

Section printf.
  (** The string at an address of the process. *)
  Context (str_at : Z -> list Z).

Definition opt_app (l r : option (list Z)) : option (list Z) :=
  match l, r with Some l, Some r => Some (l ++ r) | _, _ => None end.

(** The characters [printf] writes; [ap] is the list of argument words, and
    [None] a format that takes more arguments than there are. *)
Fixpoint printf_loop (fmt : list Z) (state : Z) (ap : list Z) : option (list Z) :=
  match fmt with
  | [] => Some []
  | f :: fmt' =>
      let c := Z.land f 255 in
      if f =? 0 then Some []
      else if state =? 0 then
        if c =? ch "%" then printf_loop fmt' (ch "%") ap
        else opt_app (Some [c]) (printf_loop fmt' state ap)
      else
        if c =? ch "d" then
          match ap with
          | [] => None
          | x :: ap' => opt_app (printint x 10 1) (printf_loop fmt' 0 ap')
          end
        else if (c =? ch "x") || (c =? ch "p") then
          match ap with
          | [] => None
          | x :: ap' => opt_app (printint x 16 0) (printf_loop fmt' 0 ap')
          end
        else if c =? ch "s" then
          match ap with
          | [] => None
          | s :: ap' =>
              opt_app (Some (if s =? 0 then chars "(null)" else cstr (str_at s))) (printf_loop fmt' 0 ap')
          end
        else if c =? ch "c" then
          match ap with
          | [] => None
          | x :: ap' => opt_app (Some [u8 x]) (printf_loop fmt' 0 ap')
          end
        else if c =? ch "%" then opt_app (Some [c]) (printf_loop fmt' 0 ap)
        else opt_app (Some [ch "%"; c]) (printf_loop fmt' 0 ap)
  end.
Definition printf (fmt : list Z) (ap : list Z) : option (list Z) := printf_loop fmt 0 ap.
End printf.

(** ** Strings without a NUL inside *)

Definition nul_free (s : list Z) : Prop := Forall (fun c => c <> 0 /\ is_byte c) s.

#[export] Instance is_byte_dec c : Decision (is_byte c).
Proof. unfold is_byte. apply _. Defined.

#[export] Instance nul_free_dec s : Decision (nul_free s).
Proof. unfold nul_free. apply _. Defined.


Lemma strcmp_zero p q : nul_free p -> nul_free q -> strcmp p q = 0 <-> p = q.
Proof.
  revert q. induction p as [|c p IH]; intros q Hp Hq; destruct q as [|d q]; simpl.
  - done.
  - apply Forall_cons in Hq as [[Hd [? ?]] _]. split; [|done].
    unfold deref, u8; simpl. rewrite Z.mod_small by lia. lia.
  - apply Forall_cons in Hp as [[Hc [? ?]] _]. unfold deref; simpl.
    destruct (Z.eqb_spec c 0); [lia|]. simpl.
    unfold u8. rewrite (Z.mod_small c), Z.mod_0_l by lia. split; [lia|done].
  - apply Forall_cons in Hp as [[Hc [? ?]] Hp], Hq as [[Hd [? ?]] Hq]. unfold deref; simpl.
    destruct (Z.eqb_spec c 0); [lia|]. simpl. destruct (Z.eqb_spec c d) as [->|].
    + rewrite IH by done. split; [by intros ->|by intros [=]].
    + unfold u8. rewrite !Z.mod_small by lia. split; [lia|]. by intros [=].
Qed.

(** The forward copy is right for every overlap with the destination below
    the source, the only one [memmove] is called with. *)
Lemma memmove_below m dst src n :
  wf_mem m -> 0 <= n -> dst <= src -> mem_eq (memmove m dst src n) (copy m dst src n).
Proof.
  intros Hm Hn Hd. unfold memmove.
  pose proof (memmove_up_spec m dst src (Z.to_nat n) Hm) as H.
  rewrite Z2Nat.id in H by done. apply H. lia.
Qed.

Lemma strlen_nul_free s : nul_free s -> strlen s = Z.of_nat (length s).
Proof.
  induction 1 as [|c s [Hc _] Hs IH]; [done|]. simpl. destruct (Z.eqb_spec c 0); [done|]. lia.
Qed.

Lemma strchr_split s c :
  nul_free s ->
  match strchr s c with
  | Some r => exists l, s = l ++ r /\ (c ∉ l) /\ head r = Some c
  | None => c ∉ s
  end.
Proof.
  induction 1 as [|d s [Hd _] Hs IH]; simpl; [apply not_elem_of_nil|].
  destruct (Z.eqb_spec d 0); [done|]. destruct (Z.eqb_spec d c) as [->|Hne].
  - exists []. split; [done|]. split; [apply not_elem_of_nil|done].
  - destruct (strchr s c) as [r|].
    + destruct IH as (l & -> & Hl & Hr). exists (d :: l). split; [done|]. split; [|done].
      apply not_elem_of_cons. auto.
    + apply not_elem_of_cons. auto.
Qed.

(** ** Numbers: [atoi] after [printint] *)

(** The value of a string of digits, most significant first. *)
Definition is_digit (c : Z) : Prop := ch "0" <= c <= ch "9".
Definition digits_val (l : list Z) : Z := foldl (fun n c => n * 10 + (c - ch "0")) 0 l.

Lemma atoi_digits l n :
  Forall is_digit l -> 0 <= n -> foldl (fun n c => n * 10 + (c - ch "0")) n l < 2 ^ 31 ->
  atoi_from l n = foldl (fun n c => n * 10 + (c - ch "0")) n l.
Proof.
  change (ch "0") with 48. intros Hl. revert n.
  assert (Hmono : forall l n, Forall is_digit l -> 0 <= n -> n <= foldl (fun n c => n * 10 + (c - 48)) n l).
  { clear. induction l as [|c l IH]; intros n Hl Hn; simpl; [lia|]. apply Forall_cons in Hl as [Hc Hl].
    unfold is_digit in Hc; change (ch "0") with 48 in Hc.
    specialize (IH (n * 10 + (c - 48)) Hl ltac:(lia)). lia. }
  induction Hl as [|c l Hc Hl IH]; intros n Hn Hv; [done|]. cbn [atoi_from foldl] in *.
  unfold is_digit in Hc; change (ch "0") with 48 in *; change (ch "9") with 57 in *.
  rewrite (proj2 (Z.leb_le 48 c)), (proj2 (Z.leb_le c 57)) by lia. cbn [andb].
  specialize (Hmono l (n * 10 + (c - 48)) Hl ltac:(lia)).
  rewrite s32_small by lia. replace (n * 10 + c - 48) with (n * 10 + (c - 48)) by lia.
  apply IH; [lia|done].
Qed.

Lemma digit_upper d : 0 <= d < 10 -> nth (Z.to_nat d) digits_upper 0 = 48 + d.
Proof.
  intros Hd. assert (d = 0 \/ d = 1 \/ d = 2 \/ d = 3 \/ d = 4 \/ d = 5 \/ d = 6 \/ d = 7 \/ d = 8 \/ d = 9)
    as Hc by lia.
  by repeat (destruct Hc as [->|Hc]; [done|]); subst.
Qed.

Lemma printint_loop_10 room x :
  0 <= x < 10 ^ Z.of_nat room -> (0 < room)%nat ->
  exists l, printint_loop digits_upper room x 10 = Some l /\
    Forall is_digit l /\ digits_val (rev l) = x.
Proof.
  revert x. induction room as [|room IH]; intros x Hx Hr; [lia|].
  cbn [printint_loop]. pose proof (Z.mod_pos_bound x 10 ltac:(lia)) as Hm.
  pose proof (digit_upper _ Hm) as Ed. set (d := nth _ _ _) in *.
  assert (Hd : is_digit d).
  { unfold is_digit; change (ch "0") with 48; change (ch "9") with 57. lia. }
  destruct (Z.eqb_spec (x / 10) 0) as [E0|E0].
  - exists [d]. split; [done|]. split; [constructor; [exact Hd|constructor]|].
    change (0 * 10 + (d - 48) = x). clearbody d. zlia.
  - destruct (IH (x / 10)) as (l & -> & Hl & Hv).
    + split; [zlia|]. apply Z.div_lt_upper_bound; [lia|].
      rewrite Nat2Z.inj_succ, Z.pow_succ_r in Hx by lia. lia.
    + destruct room; [|lia]. simpl in Hx. zlia.
    + exists (d :: l). split; [done|]. split; [by constructor|].
      cbn [rev]. unfold digits_val in *. rewrite foldl_app, Hv.
      change (x / 10 * 10 + (d - 48) = x). clearbody d. zlia.
Qed.

(** Printing a number in decimal fits the buffer, and [atoi] reads it back. *)
Lemma printint_atoi x :
  0 <= x < 2 ^ 31 -> exists l, printint x 10 1 = Some l /\ atoi l = x.
Proof.
  intros Hx. destruct (printint_loop_10 printint_buf x) as (l & Hl & Hd & Hv); [change (10 ^ Z.of_nat printint_buf) with (10 ^ 16); lia|unfold printint_buf; lia|].
  exists (rev l). unfold printint, print_digits. rewrite s32_small by lia.
  replace (x <? 0) with false by (symmetry; apply Z.ltb_ge; lia). cbn [negb andb Z.eqb].
  rewrite u32_small by (unfold is_u32; lia). rewrite Hl. split; [done|].
  unfold atoi. rewrite atoi_digits; [exact Hv| |done|].
  - by apply Forall_rev.
  - change (digits_val (rev l) < 2 ^ 31). lia.
Qed.

Lemma printint_loop_fits digits base room x :
  2 <= base -> 0 <= x < base ^ Z.of_nat room -> (0 < room)%nat ->
  exists l, printint_loop digits room x base = Some l /\ (length l <= room)%nat.
Proof.
  intros Hb. revert x. induction room as [|room IH]; intros x Hx Hr; [lia|].
  cbn [printint_loop]. destruct (Z.eqb_spec (x / base) 0) as [E0|E0].
  - eexists. split; [done|]. simpl. lia.
  - destruct (IH (x / base)) as (l & -> & Hl).
    + split; [apply Z.div_pos; lia|]. apply Z.div_lt_upper_bound; [lia|].
      rewrite Nat2Z.inj_succ, Z.pow_succ_r in Hx by lia. lia.
    + destruct room; [|lia]. simpl in Hx. rewrite Z.div_small in E0 by lia. done.
    + eexists. split; [done|]. simpl. lia.
Qed.

Lemma printint_loop_more digits base x room room' l :
  (room <= room')%nat -> printint_loop digits room x base = Some l ->
  printint_loop digits room' x base = Some l.
Proof.
  revert x room' l. induction room as [|room IH]; intros x room' l Hr H; [done|].
  destruct room' as [|room']; [lia|]. cbn [printint_loop] in *.
  destruct (x / base =? 0); [done|].
  destruct (printint_loop digits room (x / base) base) as [l'|] eqn:E; [|done].
  by rewrite (IH _ room' _ ltac:(lia) E).
Qed.

(** The buffer of [printint] is large enough for every 32-bit number, signed
    in base 10 or unsigned in base 16. *)
Lemma print_digits_fits digits xx base sgn :
  10 <= base -> - 2 ^ 31 <= xx < 2 ^ 31 ->
  exists l, print_digits digits xx base sgn = Some l /\ (length l <= 11)%nat.
Proof.
  intros Hb Hx. unfold print_digits. set (neg := _ && _).
  destruct (printint_loop_fits digits base 10 (u32 (if neg then - xx else xx))) as (l & Hl & Hlen);
    [lia| |lia|].
  { pose proof (u32_range (if neg then - xx else xx)) as Hu. unfold is_u32 in Hu.
    pose proof (Z.pow_le_mono_l 10 base (Z.of_nat 10) ltac:(lia)). simpl Z.of_nat in *. lia. }
  rewrite (printint_loop_more _ _ _ 10 printint_buf l) by (done || (unfold printint_buf; lia)).
  destruct neg.
  - destruct (Nat.ltb_spec (length l) printint_buf); [|unfold printint_buf in *; lia].
    eexists. split; [done|]. simpl. rewrite length_rev. lia.
  - eexists. split; [done|]. rewrite length_rev. lia.
Qed.
