(* ===== verification/Umalloc.v ===== *)
(** * The user allocator: [umalloc.c]

    The allocator of Kernighan and Ritchie: a circular list of free blocks in the
    order of their addresses, each with a header of two words.  The state is the
    memory of the process, [freep] and the size of the process, the end of the
    heap, that [sbrk] moves; an access outside the memory of the process is
    [Undef].  A page that is touched for the first time is there and zero: the
    process that the kernel kills because it has no page left does not go on.

    The abstract heap is the list of the blocks from the start of the heap to its
    end, free or handed out ([blk]).  [umalloc_safe] shows, for any sequence of
    calls that keep the heap below [KERNBASE], with any writes of the program to
    its blocks in between, that live blocks never overlap, that the calls return,
    and that they keep the contents of the live blocks.  Of the other requests,
    [morecore_past_end], [morecore_huge_faults] and [units_wrap] show what
    happens. *)

From Stdlib Require Import ZArith Lia String.
From stdpp Require Import base numbers list.
From S2P Require Import Prelude Bytes Params.

Local Open Scope Z_scope.
Local Open Scope kernel_scope.

(** ** The code *)

Record ust : Type := mkust { umem : mem; freep : Z; brk : Z }.

Definition set_umem (v : mem) (s : ust) : ust := mkust v (freep s) (brk s).
Definition set_freep (v : Z) (s : ust) : ust := mkust (umem s) v (brk s).
Definition set_brk (v : Z) (s : ust) : ust := mkust (umem s) (freep s) v.

Abbreviation UM := (M ust).

(** [sizeof(Header)] *)
Definition HDR : Z := 8.

(** Words of the memory of the process; the kernel's part is out of reach. *)
Definition uload (a : Z) : UM Z :=
  fun s => if (0 <=? a) && (a + 4 <=? Z.min (brk s) KERNBASE) then Ok (get32 (umem s) a, s) else Undef.
Definition ustore (a v : Z) : UM unit :=
  fun s => if (0 <=? a) && (a + 4 <=? Z.min (brk s) KERNBASE) then Ok (tt, set_umem (put32 (umem s) a v) s) else Undef.

(** [p->s.ptr] and [p->s.size]. *)
Definition h_ptr (p : Z) : UM Z := uload p.
Definition h_size (p : Z) : UM Z := uload (p + 4).
Definition set_ptr (p v : Z) : UM unit := ustore p v.
Definition set_size (p v : Z) : UM unit := ustore (p + 4) v.

(** The loop of [free]. *)
Fixpoint free_find (fuel : nat) (bp p : Z) : UM Z :=
  match fuel with
  | O => mnofuel
  | S fuel' =>
      let! q := h_ptr p in
      if (p <? bp) && (bp <? q) then mret p
      else if (q <=? p) && ((p <? bp) || (bp <? q)) then mret p
      else free_find fuel' bp q
  end.

(** No list of headers is longer than the memory. *)
Definition list_fuel (s : ust) : nat := Z.to_nat (brk s).

(** The block [bp] is joined to the next free one, [q], and to the previous one, [p]. *)
Definition free_upper (bp q : Z) : UM unit :=
  let! size := h_size bp in
  if u32 (bp + HDR * size) =? q then
    let! qsize := h_size q in
    set_size bp (u32 (size + qsize)) ;;!
    let! qq := h_ptr q in
    set_ptr bp qq
  else set_ptr bp q.
Definition free_lower (bp p : Z) : UM unit :=
  let! psize := h_size p in
  if u32 (p + HDR * psize) =? bp then
    let! size := h_size bp in
    set_size p (u32 (psize + size)) ;;!
    let! q := h_ptr bp in
    set_ptr p q
  else set_ptr p bp.

Definition free (ap : Z) : UM unit :=
  let bp := u32 (ap - HDR) in
  let! p := mget freep in
  let! fuel := mget list_fuel in
  let! p := free_find fuel bp p in
  let! q := h_ptr p in
  free_upper bp q ;;!
  free_lower bp p ;;!
  mset (set_freep p).

(** The system call ([sys_sbrk]) on the size of the process, with an [int] for its
    argument.  A positive count is added to the size, whatever the result, and the
    pages are made when they are touched.  For a negative one [growproc] calls
    [deallocuvm], which releases the pages above the new end (they are zero when
    touched again) unless the new end is not below the old one, and whose result 0
    is taken for an error. *)
Definition sbrk (n : Z) : UM Z :=
  fun s =>
    let n := s32 n in
    let addr := brk s in
    if n <? 0 then
      let newsz := u32 (brk s + n) in
      if newsz >=? brk s then Ok (addr, s)
      else
        let s := set_umem (fill (umem s) (PGROUNDUP newsz) (PGROUNDUP (brk s) - PGROUNDUP newsz) 0) s in
        if newsz =? 0 then Ok (-1, s) else Ok (addr, set_brk newsz s)
    else Ok (addr, set_brk (u32 (brk s + n)) s).

Section Alloc.
(** The address of [base]. *)
Variables base : Z.

Definition morecore (nu : Z) : UM Z :=
  let nu := if nu <? 4096 then 4096 else nu in
  let! p := sbrk (u32 (nu * HDR)) in
  if p =? -1 then mret 0 else
  set_size p nu ;;!
  free (p + HDR) ;;!
  mget freep.

(** A block that is large enough is taken, whole or its end. *)
Definition malloc_take (nunits prevp p size : Z) : UM Z :=
  let! p := (if size =? nunits then
               let! q := h_ptr p in
               set_ptr prevp q ;;!
               mret p
             else
               set_size p (u32 (size - nunits)) ;;!
               let! size := h_size p in
               let p := u32 (p + HDR * size) in
               set_size p nunits ;;!
               mret p) in
  mset (set_freep prevp) ;;!
  mret (u32 (p + HDR)).

(** The loop of [malloc]. *)
Fixpoint malloc_loop (fuel : nat) (nunits prevp p : Z) : UM Z :=
  match fuel with
  | O => mnofuel
  | S fuel' =>
      let! size := h_size p in
      if size >=? nunits then malloc_take nunits prevp p size
      else
        let! fp := mget freep in
        if p =? fp then
          let! p := morecore nunits in
          if p =? 0 then mret 0
          else
            let! q := h_ptr p in
            malloc_loop fuel' nunits p q
        else
          let! q := h_ptr p in
          malloc_loop fuel' nunits p q
  end.

Definition units (nbytes : Z) : Z := u32 (u32 (nbytes + HDR - 1) / HDR + 1).

(** Once around the list, and once more after the heap has grown. *)
Definition malloc_fuel (nunits : Z) (s : ust) : nat := Z.to_nat (brk s + (brk s + HDR * (nunits + 4096))).

Definition malloc (nbytes : Z) : UM Z :=
  let nunits := units nbytes in
  let! fuel := mget (malloc_fuel nunits) in
  let! prevp := mget freep in
  let! prevp := (if prevp =? 0 then
                   set_ptr base base ;;!
                   mset (set_freep base) ;;!
                   set_size base 0 ;;!
                   mret base
                 else mret prevp) in
  let! p := h_ptr prevp in
  malloc_loop fuel nunits prevp p.
End Alloc.

(** ** The abstract heap *)

(** A block: free, or handed out for a number of bytes; and its size in units. *)
Definition blk : Type := option Z * Z.

(** The end of the blocks [T] that start at [a]. *)
Fixpoint tend (a : Z) (T : list blk) : Z :=
  match T with
  | [] => a
  | (_, u) :: T' => tend (a + HDR * u) T'
  end.

(** The free blocks with their addresses; the live ones as the program sees them. *)
Fixpoint frees (a : Z) (T : list blk) : list (Z * Z) :=
  match T with
  | [] => []
  | (None, u) :: T' => (a, u) :: frees (a + HDR * u) T'
  | (Some _, u) :: T' => frees (a + HDR * u) T'
  end.
Fixpoint lives (a : Z) (T : list blk) : list (Z * Z) :=
  match T with
  | [] => []
  | (None, u) :: T' => lives (a + HDR * u) T'
  | (Some n, u) :: T' => (a + HDR, n) :: lives (a + HDR * u) T'
  end.

(** Every block has a header and room for the bytes asked for. *)
Definition blk_ok (b : blk) : Prop :=
  match b with
  | (None, u) => 1 <= u
  | (Some n, u) => 1 <= u /\ 0 <= n <= HDR * (u - 1)
  end.

(** No two free blocks side by side. *)
Fixpoint merged (T : list blk) : Prop :=
  match T with
  | (None, _) :: ((None, _) :: _) => False
  | _ :: T' => merged T'
  | [] => True
  end.

(** The header of every live block has its size. *)
Fixpoint headers (m : mem) (a : Z) (T : list blk) : Prop :=
  match T with
  | [] => True
  | (None, u) :: T' => headers m (a + HDR * u) T'
  | (Some _, u) :: T' => get32 m (a + 4) = u /\ headers m (a + HDR * u) T'
  end.

(** From the pointer [a] the list in memory goes through [L] and ends with [z]. *)
Fixpoint seg (m : mem) (a : Z) (L : list (Z * Z)) (z : Z) : Prop :=
  match L with
  | [] => a = z
  | (b, u) :: L' => a = b /\ get32 m (b + 4) = u /\ seg m (get32 m b) L' z
  end.

Lemma tend_app T1 T2 : forall a, tend a (T1 ++ T2) = tend (tend a T1) T2.
Proof. induction T1 as [|[o u] T1 IH]; intros a; [done|]. cbn. apply IH. Qed.

Lemma frees_app T1 T2 : forall a, frees a (T1 ++ T2) = frees a T1 ++ frees (tend a T1) T2.
Proof. induction T1 as [|[[n|] u] T1 IH]; intros a; cbn; [done|apply IH|by rewrite IH]. Qed.

Lemma lives_app T1 T2 : forall a, lives a (T1 ++ T2) = lives a T1 ++ lives (tend a T1) T2.
Proof. induction T1 as [|[[n|] u] T1 IH]; intros a; cbn; [done|by rewrite IH|apply IH]. Qed.

Lemma headers_app m T1 T2 : forall a, headers m a (T1 ++ T2) <-> headers m a T1 /\ headers m (tend a T1) T2.
Proof. induction T1 as [|[[n|] u] T1 IH]; intros a; cbn; [tauto| |apply IH]. rewrite IH. tauto. Qed.

Lemma seg_app m L1 L2 z : forall a, seg m a (L1 ++ L2) z <-> exists y, seg m a L1 y /\ seg m y L2 z.
Proof.
  induction L1 as [|[b u] L1 IH]; intros a; cbn.
  - split; [by exists a|]. by intros (y & -> & H).
  - rewrite IH. split; [intros (? & ? & y & ? & ?); eauto 6|intros (y & (? & ? & ?) & ?); eauto 6].
Qed.

Lemma blk_units b : blk_ok b -> 1 <= b.2.
Proof. destruct b as [[n|] u]; cbn; lia. Qed.

Lemma tend_ge T : Forall blk_ok T -> forall a, a + HDR * Z.of_nat (length T) <= tend a T.
Proof.
  induction 1 as [|b T Hb HT IH]; intros a; [cbn; lia|]. apply blk_units in Hb. destruct b as [o u]. cbn [tend length] in *.
  specialize (IH (a + HDR * u)). unfold HDR in *. cbn in Hb. lia.
Qed.

Lemma tend_le T a : Forall blk_ok T -> a <= tend a T.
Proof. intros H. pose proof (tend_ge T H a). unfold HDR in *. lia. Qed.

(** Free blocks are in order, inside the heap. *)
Lemma frees_range T : Forall blk_ok T -> forall a b u, (b, u) ∈ frees a T -> a <= b /\ 1 <= u /\ b + HDR * u <= tend a T.
Proof.
  induction 1 as [|t T Ht HT IH]; intros a b u; [by intros ?%elem_of_nil|].
  destruct t as [[n|] w]; apply blk_units in Ht; cbn in Ht; cbn [frees tend].
  - intros Hin. specialize (IH _ _ _ Hin). unfold HDR in *. lia.
  - rewrite list.elem_of_cons. pose proof (tend_le T (a + HDR * w) HT) as Hle. intros [[= -> ->]|Hin]; [unfold HDR in *; lia|].
    specialize (IH _ _ _ Hin). unfold HDR in *. lia.
Qed.

Definition headfree (T : list blk) : bool := match T with (None, _) :: _ => true | _ => false end.
Definition endfree (T : list blk) : bool := match last T with Some (None, _) => true | _ => false end.

Lemma merged_cons b T : merged (b :: T) <-> merged T /\ (b.1 = None -> headfree T = false).
Proof. destruct b as [[n|] u]; cbn; [intuition congruence|]. destruct T as [|[[n|] w] T]; cbn; intuition congruence. Qed.

Lemma merged_app T1 T2 : merged (T1 ++ T2) <-> merged T1 /\ merged T2 /\ (endfree T1 = true -> headfree T2 = false).
Proof.
  induction T1 as [|b T1 IH]; [cbn; intuition congruence|]. cbn [app]. rewrite !merged_cons, IH. destruct T1 as [|c T1].
  - unfold endfree. cbn. destruct b as [[n|] u]; cbn; intuition congruence.
  - change (endfree (b :: c :: T1)) with (endfree (c :: T1)). change (headfree ((c :: T1) ++ T2)) with (headfree (c :: T1)). tauto.
Qed.

Lemma endfree_snoc T b : endfree (T ++ [b]) = match b.1 with None => true | Some _ => false end.
Proof. unfold endfree. rewrite last_snoc. by destruct b as [[n|] u]. Qed.

(** ** Words in memory *)

(** Two headers that are the same or do not overlap. *)
Definition apart8 (a b : Z) : Prop := a = b \/ a + HDR <= b \/ b + HDR <= a.

Lemma get_ptr_ptr m a b v : apart8 a b -> is_u32 v -> get32 (put32 m a v) b = if b =? a then v else get32 m b.
Proof.
  intros Hab Hv. destruct (Z.eqb_spec b a) as [->|Hne]; [by apply get32_put32_eq|]. apply get32_ext. intros x Hx. apply put32_ne.
  unfold apart8, HDR in Hab. lia.
Qed.

Lemma get_size_ptr m a b v : apart8 a b -> get32 (put32 m a v) (b + 4) = get32 m (b + 4).
Proof. intros Hab. apply get32_ext. intros x Hx. apply put32_ne. unfold apart8, HDR in Hab. lia. Qed.

Lemma get_ptr_size m a b v : apart8 a b -> get32 (put32 m (a + 4) v) b = get32 m b.
Proof. intros Hab. apply get32_ext. intros x Hx. apply put32_ne. unfold apart8, HDR in Hab. lia. Qed.

Lemma get_size_size m a b v : apart8 a b -> is_u32 v -> get32 (put32 m (a + 4) v) (b + 4) = if b =? a then v else get32 m (b + 4).
Proof.
  intros Hab Hv. destruct (Z.eqb_spec b a) as [->|Hne]; [by apply get32_put32_eq|]. apply get32_ext. intros x Hx. apply put32_ne.
  unfold apart8, HDR in Hab. lia.
Qed.

Lemma seg_ext m m' L z : forall a,
  (forall b u, (b, u) ∈ L -> get32 m' b = get32 m b /\ get32 m' (b + 4) = get32 m (b + 4)) -> seg m a L z -> seg m' a L z.
Proof.
  induction L as [|[b u] L IH]; intros a H; [done|]. cbn. intros (-> & Hu & Hs).
  destruct (H b u) as [Hp Hz]; [left|]. rewrite Hp, Hz. split_and!; try done. apply IH; [|done]. intros c w Hc. apply (H c w). by right.
Qed.

(** The bytes of the live blocks are the same. *)
Fixpoint live_same (m m' : mem) (a : Z) (T : list blk) : Prop :=
  match T with
  | [] => True
  | (None, u) :: T' => live_same m m' (a + HDR * u) T'
  | (Some _, u) :: T' => (forall x, a <= x < a + HDR * u -> m' x = m x) /\ live_same m m' (a + HDR * u) T'
  end.

Lemma live_same_app m m' T1 T2 : forall a, live_same m m' a (T1 ++ T2) <-> live_same m m' a T1 /\ live_same m m' (tend a T1) T2.
Proof. induction T1 as [|[[n|] u] T1 IH]; intros a; cbn; [tauto| |apply IH]. rewrite IH. tauto. Qed.

Lemma live_same_refl m T : forall a, live_same m m a T.
Proof. induction T as [|[[n|] u] T IH]; intros a; cbn; auto. Qed.

Lemma live_same_trans m1 m2 m3 T : forall a, live_same m1 m2 a T -> live_same m2 m3 a T -> live_same m1 m3 a T.
Proof.
  induction T as [|[[n|] u] T IH]; intros a; cbn; [done| |apply IH]. intros [H1 H2] [H3 H4]. split; [|by eapply IH].
  intros x Hx. by rewrite H3, H1.
Qed.

Lemma live_same_out m m' T : Forall blk_ok T -> forall a, (forall x, a <= x < tend a T -> m' x = m x) -> live_same m m' a T.
Proof.
  induction 1 as [|b T Hb HT IH]; intros a H; [done|]. destruct b as [[n|] u]; apply blk_units in Hb; cbn in Hb;
    pose proof (tend_le T (a + HDR * u) HT) as Hle; cbn [live_same tend] in *.
  - split; [intros x Hx; apply H; lia|]. apply IH. intros x Hx. apply H. unfold HDR in *. lia.
  - apply IH. intros x Hx. apply H. unfold HDR in *. lia.
Qed.

(** A write inside a free block, or below the heap. *)
Lemma live_same_free m m' a T1 u T2 :
  Forall blk_ok (T1 ++ (None, u) :: T2) -> (forall x, x < tend a T1 \/ tend a T1 + HDR * u <= x -> m' x = m x) ->
  live_same m m' a (T1 ++ (None, u) :: T2).
Proof.
  intros HT H. apply Forall_app in HT as [H1 H2]. apply Forall_cons in H2 as [_ H2]. apply live_same_app. split.
  - apply live_same_out; [done|]. intros x Hx. apply H. lia.
  - cbn. apply live_same_out; [done|]. intros x Hx. apply H. lia.
Qed.

Lemma live_same_below m m' a T : Forall blk_ok T -> (forall x, a <= x -> m' x = m x) -> live_same m m' a T.
Proof. intros HT H. apply live_same_out; [done|]. intros x Hx. apply H. lia. Qed.

Lemma headers_live m m' T : Forall blk_ok T -> forall a, live_same m m' a T -> headers m a T -> headers m' a T.
Proof.
  induction 1 as [|b T Hb HT IH]; intros a; [done|]. destruct b as [[n|] u]; apply blk_units in Hb; cbn in Hb; cbn [live_same headers].
  - intros [H1 H2] [H3 H4]. split; [|by apply IH]. rewrite <- H3. apply get32_ext. intros x Hx. apply H1. unfold HDR in *. lia.
  - apply IH.
Qed.

(** ** Walking the list *)

Lemma uload_ok a s : 0 <= a -> a + 4 <= Z.min (brk s) (2 ^ 31) -> uload a s = Ok (get32 (umem s) a, s).
Proof. intros H1 H2. unfold uload. change KERNBASE with (2 ^ 31). by rewrite (proj2 (Z.leb_le _ _) H1), (proj2 (Z.leb_le _ _) H2). Qed.

Lemma ustore_ok a v s : 0 <= a -> a + 4 <= Z.min (brk s) (2 ^ 31) -> ustore a v s = Ok (tt, set_umem (put32 (umem s) a v) s).
Proof. intros H1 H2. unfold ustore. change KERNBASE with (2 ^ 31). by rewrite (proj2 (Z.leb_le _ _) H1), (proj2 (Z.leb_le _ _) H2). Qed.

Lemma h_ptr_ok p s : 0 <= p -> p + HDR <= Z.min (brk s) (2 ^ 31) -> h_ptr p s = Ok (get32 (umem s) p, s).
Proof. unfold HDR. intros. apply uload_ok; lia. Qed.

Lemma h_size_ok p s : 0 <= p -> p + HDR <= Z.min (brk s) (2 ^ 31) -> h_size p s = Ok (get32 (umem s) (p + 4), s).
Proof. unfold HDR. intros. apply uload_ok; lia. Qed.

(** Headers in ascending order, after the one at [a]; and the last address. *)
Fixpoint asc (a : Z) (L : list (Z * Z)) : Prop :=
  match L with
  | [] => True
  | (b, _) :: L' => a + HDR <= b /\ asc b L'
  end.
Fixpoint lasta (a : Z) (L : list (Z * Z)) : Z :=
  match L with
  | [] => a
  | (b, _) :: L' => lasta b L'
  end.

Lemma asc_app L1 L2 : forall a, asc a (L1 ++ L2) <-> asc a L1 /\ asc (lasta a L1) L2.
Proof. induction L1 as [|[b u] L1 IH]; intros a; cbn; [tauto|]. rewrite IH. tauto. Qed.

Lemma lasta_app L1 L2 : forall a, lasta a (L1 ++ L2) = lasta (lasta a L1) L2.
Proof. induction L1 as [|[b u] L1 IH]; intros a; cbn; [done|]. apply IH. Qed.

Lemma frees_asc T : Forall blk_ok T -> forall a0 a, a0 + HDR <= a -> asc a0 (frees a T).
Proof.
  induction 1 as [|b T Hb HT IH]; intros a0 a Ha; [done|]. destruct b as [[n|] u]; apply blk_units in Hb; cbn in Hb; cbn.
  - apply IH. unfold HDR in *. lia.
  - split; [done|]. apply IH. unfold HDR in *. lia.
Qed.

Lemma asc_above L : forall a b u, asc a L -> (b, u) ∈ L -> a + HDR <= b.
Proof.
  induction L as [|[c w] L IH]; intros a b u; [by intros _ ?%elem_of_nil|]. cbn. intros [H1 H2] [[= -> ->]|Hin]%list.elem_of_cons; [done|].
  specialize (IH _ _ _ H2 Hin). unfold HDR in *. lia.
Qed.

Lemma asc_before L c w : forall a b v z, asc a (L ++ [(c, w)]) -> (b, v) ∈ (a, z) :: L -> b + HDR <= c.
Proof.
  induction L as [|[d y] L IH]; intros a b v z; cbn; intros [H1 H2] Hin; apply list.elem_of_cons in Hin as [[= -> ->]|Hin].
  - done.
  - by apply elem_of_nil in Hin.
  - apply asc_app in H2 as [H2 H3]. cbn in H3. specialize (IH d d y y). rewrite asc_app in IH. cbn in IH.
    specialize (IH ltac:(tauto) ltac:(left)). unfold HDR in *. lia.
  - by apply (IH d b v y).
Qed.

(** Every node is inside the memory of the process. *)
Definition inside (s : ust) (L : list (Z * Z)) : Prop := forall b u, (b, u) ∈ L -> 0 <= b /\ b + HDR <= Z.min (brk s) (2 ^ 31).

Lemma find_low s bp q L : forall x u fuel,
  seg (umem s) x ((x, u) :: L) q -> asc x L -> inside s ((x, u) :: L) -> x < bp -> (forall b w, (b, w) ∈ L -> b < bp) ->
  bp < q \/ q <= x -> (length L < fuel)%nat -> free_find fuel bp x s = Ok (lasta x L, s).
Proof.
  induction L as [|[b w] L IH]; intros x u fuel Hs Ha Hin Hx Hb Hq Hf; (destruct fuel as [|fuel]; [cbn in Hf; lia|]);
    cbn [free_find]; unfold h_ptr; (destruct (Hin x u) as [I1 I2]; [left|]); unfold HDR in I2;
    mby (uload_ok x s I1 ltac:(lia)); destruct Hs as (_ & _ & Hs).
  - cbn in Hs. rewrite Hs. destruct Hq as [Hq|Hq].
    + by rewrite (proj2 (Z.ltb_lt _ _) Hx), (proj2 (Z.ltb_lt _ _) Hq).
    + rewrite (proj2 (Z.ltb_lt _ _) Hx), (proj2 (Z.leb_le _ _) Hq). cbn. by destruct (bp <? q).
  - cbn in Ha. unfold HDR in Ha. destruct Ha as [Ha1 Ha2]. pose proof (Hb b w ltac:(left)) as Hbb. pose proof Hs as (E & _). rewrite E.
    rewrite (proj2 (Z.ltb_ge bp b)) by lia. rewrite andb_false_r, (proj2 (Z.leb_gt b x)) by lia. cbn [andb lasta].
    apply (IH b w); try done.
    + by rewrite E in Hs.
    + intros c y Hc. apply (Hin c y). by right.
    + intros c y Hc. apply (Hb c y). by right.
    + destruct Hq as [Hq|Hq]; [by left|right]. lia.
    + cbn in Hf. lia.
Qed.

Lemma find_high s bp base L : forall x u fuel,
  seg (umem s) x ((x, u) :: L) base -> asc x L -> inside s ((x, u) :: L) -> bp < x -> base < bp ->
  free_find (S (length L) + fuel) bp x s = free_find fuel bp base s.
Proof.
  induction L as [|[b w] L IH]; intros x u fuel Hs Ha Hin Hx Hb; cbn [free_find Nat.add length]; unfold h_ptr;
    (destruct (Hin x u) as [I1 I2]; [left|]); unfold HDR in I2; mby (uload_ok x s I1 ltac:(lia)); destruct Hs as (_ & _ & Hs);
    rewrite (proj2 (Z.ltb_ge x bp)) by lia; cbn [andb orb].
  - cbn in Hs. rewrite Hs. rewrite (proj2 (Z.ltb_ge bp base)) by lia. by rewrite andb_false_r.
  - cbn in Ha. unfold HDR in Ha. destruct Ha as [Ha1 Ha2]. pose proof Hs as (E & _). rewrite E, (proj2 (Z.leb_gt b x)) by lia. cbn [andb].
    apply (IH b w); try done; [by rewrite E in Hs| |lia]. intros c y Hc. apply (Hin c y). by right.
Qed.

Lemma lasta_split L : forall a w, exists G sp, (a, w) :: L = G ++ [(lasta a L, sp)].
Proof.
  induction L as [|[b u] L IH]; intros a w; [by exists [], w|]. destruct (IH b u) as (G & sp & E). exists ((a, w) :: G), sp.
  cbn. by rewrite E.
Qed.

Lemma length_frees T : forall a, (length (frees a T) <= length T)%nat.
Proof. induction T as [|[[n|] u] T IH]; intros a; cbn; [lia|specialize (IH (a + HDR * u)); lia..]. Qed.

Lemma frees_elem T : forall a b w, (b, w) ∈ frees a T -> exists A B, T = A ++ (None, w) :: B /\ b = tend a A.
Proof.
  induction T as [|[[n|] u] T IH]; intros a b w; cbn [frees]; [by intros ?%elem_of_nil|..].
  - intros Hin. destruct (IH _ _ _ Hin) as (A & B & -> & ->). by exists ((Some n, u) :: A), B.
  - rewrite list.elem_of_cons. intros [[= -> ->]|Hin]; [by exists [], T|].
    destruct (IH _ _ _ Hin) as (A & B & -> & ->). by exists ((None, u) :: A), B.
Qed.

Section Heap.
Variables base heap0 : Z.
Hypothesis Hgeom : 0 < base /\ base + HDR <= heap0.

(** The end of the heap stays below [KERNBASE]. *)
Abbreviation limit := (2 ^ 31 - 1).

(** The list in memory is that of the free blocks of [T], from [base] on. *)
Record rep (s : ust) (T : list blk) : Prop := {
  r_seg : seg (umem s) base ((base, 0) :: frees heap0 T) base;
  r_freep : freep s ∈ ((base, 0) :: frees heap0 T).*1;
  r_head : headers (umem s) heap0 T;
  r_end : tend heap0 T = brk s;
  r_limit : brk s <= limit;
  r_ok : Forall blk_ok T;
  r_merged : merged T
}.

Lemma rep_inside s T : rep s T -> inside s ((base, 0) :: frees heap0 T).
Proof using Hgeom.
  intros [_ _ _ He Hlim Hok _] b u Hin. pose proof (tend_le T heap0 Hok) as Hle. apply list.elem_of_cons in Hin as [[= -> ->]|Hin].
  - lia.
  - destruct (frees_range T Hok heap0 b u Hin). unfold HDR in *. lia.
Qed.

Lemma rep_fuel s T : rep s T -> (2 + length T <= list_fuel s)%nat.
Proof using Hgeom.
  intros [_ _ _ He _ Hok _]. pose proof (tend_ge T Hok heap0). unfold list_fuel, HDR in *. lia.
Qed.

(** The nodes before and after the block at the end of [T1]. *)
Lemma free_find_ok s T1 n u T2 :
  rep s (T1 ++ (Some n, u) :: T2) ->
  free_find (list_fuel s) (tend heap0 T1) (freep s) s = Ok (lasta base (frees heap0 T1), s).
Proof using Hgeom.
  intros Hr. pose proof (rep_inside _ _ Hr) as Hin. pose proof (rep_fuel _ _ Hr) as Hfuel. destruct Hr as [Hs Hf _ _ _ Hok _].
  rewrite length_app in Hfuel. cbn [length] in Hfuel. rewrite frees_app in *. cbn [frees] in *.
  apply Forall_app in Hok as [Hok1 Hok2]. apply Forall_cons in Hok2 as [Hu Hok2]. apply blk_units in Hu. cbn in Hu.
  set (bp := tend heap0 T1) in *. pose proof (tend_le T1 heap0 Hok1) as Hbp. fold bp in Hbp.
  set (F1 := frees heap0 T1) in *. set (F2 := frees (bp + HDR * u) T2) in *.
  assert (H1 : forall b w, (b, w) ∈ F1 -> b < bp).
  { intros b w Hb. destruct (frees_range T1 Hok1 heap0 b w Hb). unfold HDR in *. lia. }
  assert (A1 : asc base F1) by (apply frees_asc; [done|unfold HDR in *; lia]).
  assert (A2 : asc bp F2) by (apply frees_asc; [done|unfold HDR in *; lia]).
  assert (L1 : (length F1 <= length T1)%nat) by apply length_frees. assert (L2 : (length F2 <= length T2)%nat) by apply length_frees.
  change ((base, 0) :: F1 ++ F2) with (((base, 0) :: F1) ++ F2) in Hs. apply seg_app in Hs as (q & Hs1 & Hs2).
  assert (Hq : bp < q \/ q <= base).
  { destruct F2 as [|[c w] F2']; [right; cbn in Hs2; lia|left]. destruct Hs2 as (-> & _). pose proof (asc_above _ _ _ w A2 ltac:(left)). unfold HDR in *. lia. }
  assert (Hlow : forall fuel, (length T1 < fuel)%nat -> free_find fuel bp base s = Ok (lasta base F1, s)).
  { intros fuel Hl. apply (find_low s bp q F1 base 0); try done; [|unfold HDR in *; lia|lia].
    intros b w Hb. apply (Hin b w). rewrite list.elem_of_cons, elem_of_app. apply list.elem_of_cons in Hb as [?|?]; auto. }
  rewrite fmap_cons, fmap_app, list.elem_of_cons, elem_of_app in Hf. destruct Hf as [Hf|[Hf|Hf]].
  - cbn in Hf. rewrite Hf. apply Hlow. lia.
  - apply list_elem_of_fmap in Hf as ([fp w] & -> & Hf). apply list_elem_of_split in Hf as (G & L & E). cbn [fst].
    rewrite E in Hs1, A1, L1. change ((base, 0) :: G ++ (fp, w) :: L) with (((base, 0) :: G) ++ (fp, w) :: L) in Hs1.
    apply seg_app in Hs1 as (y & _ & Hs1). pose proof Hs1 as (-> & _). apply asc_app in A1 as [_ A1]. cbn in A1. destruct A1 as [Hfp A1].
    rewrite length_app in L1. cbn in L1.
    replace (lasta base F1) with (lasta fp L) by (rewrite E, lasta_app; done).
    assert (Hsub : forall b v, (b, v) ∈ (fp, w) :: L -> (b, v) ∈ F1) by (intros b v Hb; rewrite E, elem_of_app; by right).
    apply (find_low s bp q L fp w); try done.
    + intros b v Hb. apply (Hin b v). rewrite list.elem_of_cons, elem_of_app. auto.
    + apply (H1 fp w), Hsub. left.
    + intros b v Hb. apply (H1 b v), Hsub. by right.
    + destruct Hq as [|Hq]; [by left|right]. enough (base + HDR <= fp) by (unfold HDR in *; lia).
      apply (asc_above F1 base fp w); [|apply Hsub; left]. apply frees_asc; [done|unfold HDR in *; lia].
    + lia.
  - apply list_elem_of_fmap in Hf as ([fp w] & -> & Hf). apply list_elem_of_split in Hf as (G & L & E). cbn [fst].
    assert (Hsub : forall b v, (b, v) ∈ (fp, w) :: L -> (b, v) ∈ F2) by (intros b v Hb; rewrite E, elem_of_app; by right).
    assert (Hfp : bp + HDR <= fp) by (apply (asc_above _ _ _ w A2), Hsub; left).
    rewrite E in Hs2, A2, L2. apply seg_app in Hs2 as (y & _ & Hs2). pose proof Hs2 as (-> & _). apply asc_app in A2 as [_ A2]. cbn in A2.
    rewrite length_app in L2. cbn in L2.
    replace (list_fuel s) with (S (length L) + (list_fuel s - S (length L)))%nat by lia.
    rewrite (find_high s bp base L fp w); try done; [|by destruct A2| |unfold HDR in *; lia|unfold HDR in *; lia].
    + apply Hlow. lia.
    + intros b v Hb. apply (Hin b v). rewrite list.elem_of_cons, elem_of_app. auto.
Qed.

(** The last node before the blocks [T2], and the list from there on. *)
Lemma rep_split s T1 T2 (p := lasta base (frees heap0 T1)) :
  rep s (T1 ++ T2) ->
  exists G sp, (base, 0) :: frees heap0 T1 = G ++ [(p, sp)] /\ seg (umem s) base G p /\ get32 (umem s) (p + 4) = sp /\
    seg (umem s) (get32 (umem s) p) (frees (tend heap0 T1) T2) base.
Proof using.
  intros [Hs _ _ _ _ _ _]. rewrite frees_app in Hs. change ((base, 0) :: ?a ++ ?b) with (((base, 0) :: a) ++ b) in Hs.
  destruct (lasta_split (frees heap0 T1) base 0) as (G & sp & E). fold p in E. rewrite E in Hs. rewrite <- app_assoc in Hs.
  apply seg_app in Hs as (y & H1 & H2). cbn in H2. destruct H2 as (-> & H2 & H3). exists G, sp. done.
Qed.

Lemma mem_small s T : rep s T -> forall a, a <= brk s -> 0 <= a -> is_u32 a.
Proof using Hgeom. intros H a Ha H0. pose proof (r_limit _ _ H). unfold is_u32. lia. Qed.

Lemma seg_start m q L z : seg m q L z -> q = z \/ exists u, (q, u) ∈ L.
Proof using. destruct L as [|[b u] L]; cbn; [auto|]. intros (-> & _). right. exists u. left. Qed.

(** A pointer into the blocks [T], or to [base]. *)
Lemma seg_u32 s m q a T :
  seg m q (frees a T) base -> Forall blk_ok T -> heap0 <= a -> tend a T = brk s -> brk s <= limit -> is_u32 q /\ (q = base \/ a <= q).
Proof using Hgeom.
  intros Hs Hok Ha He Hl. pose proof (tend_le T a Hok). destruct (seg_start _ _ _ _ Hs) as [->|(u & Hin)].
  - unfold is_u32, HDR in *. lia.
  - destruct (frees_range T Hok a q u Hin). unfold is_u32, HDR in *. lia.
Qed.

(** The block at [bp] has swallowed the free block after it, if there is one: now
    its size is [u1], it points to [q1], and the blocks after it are [R2]. *)
Record joined (s : ust) (bp u : Z) (T2 : list blk) (m1 : mem) (u1 q1 : Z) (R2 : list blk) : Prop := {
  j_ptr : get32 m1 bp = q1;
  j_size : get32 m1 (bp + 4) = u1;
  j_grow : u <= u1;
  j_mem : forall x, x < bp \/ bp + HDR <= x -> m1 x = umem s x;
  j_seg : seg (umem s) q1 (frees (bp + HDR * u1) R2) base;
  j_end : tend (bp + HDR * u1) R2 = brk s;
  j_ok : Forall blk_ok R2;
  j_merged : merged R2;
  j_head : headfree R2 = false;
  j_lives : lives (bp + HDR * u1) R2 = lives (bp + HDR * u) T2;
  j_headers : headers (umem s) (bp + HDR * u1) R2;
  j_same : forall m m', live_same m m' (bp + HDR * u) T2 -> live_same m m' (bp + HDR * u1) R2
}.

Lemma free_upper_ok s T1 n u T2 (bp := tend heap0 T1) (m := umem s) :
  rep s (T1 ++ (Some n, u) :: T2) ->
  exists m1 u1 q1 R2, free_upper bp (get32 m (lasta base (frees heap0 T1))) s = Ok (tt, set_umem m1 s) /\
    joined s bp u T2 m1 u1 q1 R2.
Proof using Hgeom.
  intros Hr. destruct (rep_split s T1 ((Some n, u) :: T2) Hr) as (G & sp & _ & _ & _ & Hs). fold bp m in Hs. cbn [frees] in Hs.
  pose proof (mem_small _ _ Hr) as Hsm. destruct Hr as [_ _ Hh He Hlim Hok Hm]. set (q := get32 m (lasta base (frees heap0 T1))) in *.
  rewrite tend_app in He. cbn [tend] in He. fold bp in He. apply headers_app in Hh as [_ Hh]. cbn in Hh. fold bp m in Hh. destruct Hh as [Hu Hh].
  apply Forall_app in Hok as [Hok1 Hok2]. apply Forall_cons in Hok2 as [Hbu Hok2]. apply blk_units in Hbu. cbn in Hbu.
  apply merged_app in Hm as (_ & Hm & _). apply merged_cons in Hm as [Hm _].
  pose proof (tend_le T1 heap0 Hok1) as Hbp. fold bp in Hbp. pose proof (tend_le T2 (bp + HDR * u) Hok2) as Hb2.
  unfold free_upper, h_size, h_ptr, set_size, set_ptr. unfold HDR in *. mby (uload_ok (bp + 4) s ltac:(lia) ltac:(lia)). fold m. rewrite Hu.
  rewrite u32_small by (apply Hsm; lia). destruct T2 as [|[[n2|] u2] T2].
  3: { (* the next block is free *)
    cbn [frees] in Hs. destruct Hs as (Eq & Hu2 & Hs). rewrite Eq, Z.eqb_refl. apply Forall_cons in Hok2 as [Hb2u Hok2]. cbn in Hb2u.
    cbn [tend] in He, Hb2. pose proof (tend_le T2 (bp + 8 * u + HDR * u2) Hok2) as Hb3. unfold HDR in *.
    mby (uload_ok (bp + 8 * u + 4) s ltac:(lia) ltac:(lia)). fold m. rewrite Hu2. rewrite u32_small by (apply Hsm; lia).
    mby (ustore_ok (bp + 4) (u + u2) s ltac:(lia) ltac:(lia)). fold m.
    mby (uload_ok (bp + 8 * u) (set_umem (put32 m (bp + 4) (u + u2)) s) ltac:(lia) ltac:(cbn; lia)). cbn [umem set_umem].
    rewrite get_ptr_size by (unfold apart8, HDR; lia). rewrite ustore_ok by (cbn; lia). cbn [umem set_umem].
    exists (put32 (put32 m (bp + 4) (u + u2)) bp (get32 m (bp + 8 * u))), (u + u2), (get32 m (bp + 8 * u)), T2.
    apply merged_cons in Hm as [Hm Hhf].
    split; [done|]. split; unfold HDR; replace (bp + 8 * (u + u2)) with (bp + 8 * u + 8 * u2) by lia; try done; try lia.
    + apply get32_put32_eq. refine (proj1 (seg_u32 s m _ (bp + 8 * u + 8 * u2) T2 Hs Hok2 _ _ _)); try done. lia.
    + rewrite get_size_ptr by (unfold apart8, HDR; lia). apply get32_put32_eq. apply Hsm; lia.
    + intros x Hx. rewrite !put32_ne by lia. done.
    + by apply Hhf. }
  (* nothing after it, or a live block *)
  all: assert (Hq : is_u32 q /\ q <> bp + 8 * u).
  1: { cbn in Hs. rewrite Hs. unfold is_u32. lia. }
  2: { cbn [frees] in Hs. apply Forall_cons in Hok2 as [Hb2u Hok2]. apply blk_units in Hb2u. cbn in Hb2u.
       destruct (seg_u32 s m _ (bp + 8 * u + HDR * u2) T2 Hs Hok2 ltac:(unfold HDR; lia) He Hlim). unfold HDR in *. split; [done|]. lia. }
  all: destruct Hq as [Hq Hne]; rewrite (proj2 (Z.eqb_neq _ _)) by done; rewrite ustore_ok by lia; fold m.
  all: eexists (put32 m bp q), u, q, _; split; [reflexivity|]; split; try done; [by apply get32_put32_eq|..].
  all: try (rewrite get_size_ptr by (unfold apart8, HDR; lia); done).
  all: intros x Hx; rewrite put32_ne by (unfold HDR in *; lia); done.
Qed.

(** Only the headers at [p] and [bp] differ. *)
Definition two_headers (m m' : mem) (p bp : Z) : Prop :=
  forall x, x < p \/ p + HDR <= x -> x < bp \/ bp + HDR <= x -> m' x = m x.

Lemma seg_two m m' p bp L a z :
  two_headers m m' p bp -> (forall b u, (b, u) ∈ L -> (b + HDR <= p \/ p + HDR <= b) /\ (b + HDR <= bp \/ bp + HDR <= b)) ->
  seg m a L z -> seg m' a L z.
Proof using.
  intros H2 Hout. apply seg_ext. intros b u Hb. specialize (Hout b u Hb). unfold HDR in *.
  split; apply get32_ext; intros x Hx; apply H2; unfold HDR; lia.
Qed.

(** The live blocks when the headers of the last free one before [bp] and of the
    block at [bp] change. *)
Lemma live_two m m' T1 u T2 :
  Forall blk_ok (T1 ++ (None, u) :: T2) -> two_headers m m' (lasta base (frees heap0 T1)) (tend heap0 T1) ->
  live_same m m' heap0 (T1 ++ (None, u) :: T2).
Proof using Hgeom.
  intros Hok H2. apply Forall_app in Hok as [Hok1 Hok2]. apply Forall_cons in Hok2 as [Hu Hok2].
  apply blk_units in Hu. cbn in Hu. pose proof (tend_le T1 heap0 Hok1) as Hle. set (p := lasta base (frees heap0 T1)) in *.
  set (bp := tend heap0 T1) in *.
  assert (Hp : p = base \/ exists w, (p, w) ∈ frees heap0 T1).
  { destruct (lasta_split (frees heap0 T1) base 0) as (G & sp & E). fold p in E.
    assert (Hin : (p, sp) ∈ (base, 0) :: frees heap0 T1) by (rewrite E, elem_of_app; right; left).
    apply list.elem_of_cons in Hin as [[= -> _]|Hin]; [by left|right; eauto]. }
  assert (Hpr : p + HDR <= bp).
  { destruct Hp as [->|(w & Hw)]; [unfold bp; lia|]. destruct (frees_range T1 Hok1 heap0 p w Hw). unfold HDR, bp in *. lia. }
  apply live_same_app. fold bp. split.
  - destruct Hp as [Hp|(w & Hw)].
    + apply live_same_out; [done|]. intros x Hx. fold bp in Hx. apply H2; lia.
    + destruct (frees_elem _ _ _ _ Hw) as (A & B & -> & Ep). apply live_same_app.
      apply Forall_app in Hok1 as [HA HB]. apply Forall_cons in HB as [Hw1 HB]. cbn in Hw1.
      unfold bp in *. rewrite tend_app in *. cbn [tend] in *. pose proof (tend_le B _ HB : tend heap0 A + HDR * w <= _) as HleB.
      split; cbn [live_same]; apply live_same_out; try done; intros x Hx; apply H2; unfold HDR in *; lia.
  - cbn [live_same]. apply live_same_out; [done|]. intros x Hx. apply H2; unfold HDR in *; lia.
Qed.

(** The block at [bp] has joined the list after [p], or has been swallowed by it. *)
Record freed (s : ust) (T1 : list blk) (bp u : Z) (T2 : list blk) (p : Z) (m2 : mem) (T' : list blk) : Prop := {
  d_mem : two_headers (umem s) m2 p bp;
  d_seg : seg m2 base ((base, 0) :: frees heap0 T') base;
  d_in : p ∈ ((base, 0) :: frees heap0 T').*1;
  d_end : tend heap0 T' = brk s;
  d_ok : Forall blk_ok T';
  d_merged : merged T';
  d_lives : lives heap0 T' = lives heap0 T1 ++ lives (bp + HDR * u) T2;
  d_headers : headers (umem s) heap0 T';
  d_same : forall m m', live_same m m' heap0 (T1 ++ (None, u) :: T2) -> live_same m m' heap0 T';
  d_big : exists b w, (b, w) ∈ frees heap0 T' /\ u <= w
}.

(** The list with the node [(p, w)] after [G], in a memory that differs from
    [umem s] only there and at [bp]. *)
Lemma freed_seg s T1 n u T2 m1 u1 q1 R2 m2 G p w L :
  rep s (T1 ++ (Some n, u) :: T2) -> joined s (tend heap0 T1) u T2 m1 u1 q1 R2 ->
  two_headers (umem s) m2 p (tend heap0 T1) -> seg (umem s) base G p -> (forall b v, (b, v) ∈ G -> b + HDR <= p) ->
  p + HDR <= tend heap0 T1 -> get32 m2 (p + 4) = w -> seg m2 (get32 m2 p) L q1 ->
  seg m2 base (G ++ (p, w) :: L ++ frees (tend heap0 T1 + HDR * u1) R2) base.
Proof using Hgeom.
  intros Hr Hj H2 HG Hlow Hp Hw HL. set (bp := tend heap0 T1) in *. apply seg_app. exists p. split.
  - apply (seg_two (umem s) m2 p bp); [done| |done]. intros b v Hb. specialize (Hlow b v Hb). lia.
  - cbn [seg]. split; [done|]. split; [done|]. apply seg_app. exists q1. split; [done|].
    apply (seg_two (umem s) m2 p bp); [done| |apply Hj]. intros b v Hb.
    destruct (frees_range R2 (j_ok _ _ _ _ _ _ _ _ Hj) _ b v Hb). pose proof (j_grow _ _ _ _ _ _ _ _ Hj).
    pose proof (r_ok _ _ Hr) as Hok. apply Forall_app in Hok as [_ Hok]. apply Forall_cons in Hok as [Hu _]. apply blk_units in Hu. cbn in Hu.
    unfold HDR in *. lia.
Qed.

(** Facts about the node before [bp] that both cases use. *)
Lemma prev_node s T1 o u T2 (p := lasta base (frees heap0 T1)) (bp := tend heap0 T1) :
  rep s (T1 ++ (o, u) :: T2) ->
  exists G sp, (base, 0) :: frees heap0 T1 = G ++ [(p, sp)] /\ seg (umem s) base G p /\ get32 (umem s) (p + 4) = sp /\
    (forall b v, (b, v) ∈ G -> b + HDR <= p) /\ 0 < p /\ p + HDR <= bp /\ 0 <= sp /\ p + HDR * sp <= bp /\ bp + HDR * u <= brk s /\ 1 <= u.
Proof using Hgeom.
  intros Hr. destruct (rep_split s T1 _ Hr) as (G & sp & E & HG & Hsp & _). fold p in E, HG, Hsp. exists G, sp.
  pose proof (r_ok _ _ Hr) as Hok. pose proof (r_end _ _ Hr) as He. rewrite tend_app in He. cbn [tend] in He. fold bp in He.
  apply Forall_app in Hok as [Hok1 Hok2]. apply Forall_cons in Hok2 as [Hu Hok2]. apply blk_units in Hu. cbn in Hu.
  pose proof (tend_le T1 heap0 Hok1) as Hle. fold bp in Hle. pose proof (tend_le T2 (bp + HDR * u) Hok2) as Hle2.
  assert (Hlow : forall b v, (b, v) ∈ G -> b + HDR <= p).
  { intros b v Hb. destruct G as [|g G]; [by apply elem_of_nil in Hb|]. cbn in E. injection E as <- E.
    apply (asc_before G p sp base b v 0); [|done]. rewrite <- E. apply frees_asc; [done|lia]. }
  assert (Hin : (p, sp) ∈ (base, 0) :: frees heap0 T1) by (rewrite E, elem_of_app; right; left).
  split_and!; try done; try lia; apply list.elem_of_cons in Hin as [[= Ep Es]|Hin]; try (rewrite ?Ep, ?Es; unfold HDR in *; lia);
    destruct (frees_range T1 Hok1 heap0 p sp Hin) as (I1 & I2 & I3); fold bp in I3; unfold HDR in *; lia.
Qed.

(** When a live block, or nothing, comes before it. *)
Lemma last_live T1 p sp :
  Forall blk_ok T1 -> endfree T1 = false -> (p, sp) ∈ (base, 0) :: frees heap0 T1 -> p + HDR * sp <> tend heap0 T1.
Proof using Hgeom.
  intros Hok Hend Hin. destruct T1 as [|t T1 _] using rev_ind.
  - apply list_elem_of_singleton in Hin as [= -> ->]. cbn. unfold HDR in *. lia.
  - rewrite endfree_snoc in Hend. destruct t as [[k|] w]; [|done]. apply Forall_app in Hok as [Hok Hw].
    apply Forall_cons in Hw as [Hw _]. apply blk_units in Hw. cbn in Hw. rewrite frees_app, tend_app in *. cbn [frees tend] in *.
    rewrite app_nil_r in Hin. pose proof (tend_le T1 heap0 Hok) as Hle. apply list.elem_of_cons in Hin as [[= -> ->]|Hin].
    + unfold HDR in *. lia.
    + destruct (frees_range T1 Hok heap0 p sp Hin). unfold HDR in *. lia.
Qed.

Lemma lower_apart s T1 n u T2 m1 u1 q1 R2 (p := lasta base (frees heap0 T1)) (bp := tend heap0 T1) :
  rep s (T1 ++ (Some n, u) :: T2) -> joined s bp u T2 m1 u1 q1 R2 -> endfree T1 = false ->
  exists m2, free_lower bp p (set_umem m1 s) = Ok (tt, set_umem m2 s) /\ freed s T1 bp u T2 p m2 (T1 ++ (None, u1) :: R2).
Proof using Hgeom.
  intros Hr Hj Hend. destruct (prev_node s T1 (Some n) u T2 Hr) as (G & sp & E & HG & Hsp & Hlow & Hp0 & Hpb & Hs0 & Hps & Hbu & Hu).
  fold p bp in E, HG, Hsp, Hlow, Hp0, Hpb, Hps, Hbu. pose proof (mem_small _ _ Hr) as Hsm.
  pose proof Hr as [_ _ Hh _ Hlim Hok Hm]. pose proof Hj as [J1 J2 J3 J4 J5 J6 J7 J8 J9 J10 J11 J12].
  apply Forall_app in Hok as [Hok1 Hok2]. apply headers_app in Hh as [Hh1 _]. apply merged_app in Hm as [Hm1 _].
  assert (Hne : p + HDR * sp <> bp).
  { apply (last_live T1 p sp Hok1 Hend). rewrite E, elem_of_app. right. left. }
  exists (put32 m1 p bp). unfold free_lower, h_size, set_ptr, h_ptr. unfold HDR in *.
  mby (uload_ok (p + 4) (set_umem m1 s) ltac:(lia) ltac:(cbn; lia)). cbn [umem set_umem].
  assert (Esp : get32 m1 (p + 4) = sp) by (rewrite <- Hsp; apply get32_ext; intros x Hx; apply J4; unfold HDR; lia).
  rewrite Esp. rewrite u32_small by (apply Hsm; lia). rewrite (proj2 (Z.eqb_neq _ _) Hne). rewrite ustore_ok by (cbn; lia).
  split; [done|]. assert (H2 : two_headers (umem s) (put32 m1 p bp) p bp).
  { intros x Hx1 Hx2. unfold HDR in *. rewrite put32_ne by lia. by apply J4. }
  split; try done.
  - rewrite frees_app. cbn [frees]. fold bp. change ((base, 0) :: frees heap0 T1 ++ ?a) with (((base, 0) :: frees heap0 T1) ++ a).
    rewrite E, <- app_assoc. cbn [app]. eapply (freed_seg s T1 n u T2 m1 u1 q1 R2 _ G p sp [(bp, u1)]); try done.
    + rewrite get_size_ptr by (unfold apart8, HDR; lia). done.
    + rewrite get32_put32_eq by (apply Hsm; lia). cbn [seg]. rewrite get_size_ptr, get_ptr_ptr by (unfold apart8, HDR; lia || (apply Hsm; lia)).
      rewrite (proj2 (Z.eqb_neq bp p)) by lia. done.
  - rewrite frees_app. change ((base, 0) :: frees heap0 T1 ++ ?a) with (((base, 0) :: frees heap0 T1) ++ a). rewrite E, !fmap_app, !elem_of_app. left. right. left.
  - by rewrite tend_app.
  - apply Forall_app. split; [done|]. apply Forall_cons. split; [cbn; lia|done].
  - apply merged_app. rewrite Hend. split_and!; try done. apply merged_cons. done.
  - rewrite lives_app. cbn [lives]. fold bp. unfold HDR in *. by rewrite J10.
  - apply headers_app. done.
  - intros m m'. rewrite !live_same_app. cbn [live_same]. fold bp. unfold HDR in *. intros [H3 H4]. split; [done|]. by apply J12.
  - exists bp, u1. split; [|done]. rewrite frees_app, elem_of_app. right. left.
Qed.

Lemma lower_join s T1 w n u T2 m1 u1 q1 R2 (p := tend heap0 T1) (bp := p + HDR * w) :
  rep s ((T1 ++ [(None, w)]) ++ (Some n, u) :: T2) -> joined s bp u T2 m1 u1 q1 R2 ->
  exists m2, free_lower bp p (set_umem m1 s) = Ok (tt, set_umem m2 s) /\
    freed s (T1 ++ [(None, w)]) bp u T2 p m2 (T1 ++ (None, w + u1) :: R2).
Proof using Hgeom.
  intros Hr Hj. destruct (prev_node s _ (Some n) u T2 Hr) as (G & sp & E & HG & Hsp & Hlow & Hp0 & Hpb & Hs0 & Hps & Hbu & Hu).
  assert (Ebp : tend heap0 (T1 ++ [(None, w)]) = bp) by (by rewrite tend_app).
  assert (Ep : lasta base (frees heap0 (T1 ++ [(None, w)])) = p) by (by rewrite frees_app, lasta_app).
  rewrite frees_app in E. change ((base, 0) :: frees heap0 T1 ++ ?a) with (((base, 0) :: frees heap0 T1) ++ a) in E.
  cbn [frees] in E. apply app_inj_tail in E as [E1 E2]. injection E2 as _ Ew. symmetry in Ew. subst G. rewrite Ebp, Ep, ?Ew in *. pose proof (mem_small _ _ Hr) as Hsm.
  pose proof Hr as [_ _ Hh _ Hlim Hok Hm]. pose proof Hj as [J1 J2 J3 J4 J5 J6 J7 J8 J9 J10 J11 J12].
  rewrite <- app_assoc in Hh, Hok, Hm. cbn [app] in Hh, Hok, Hm.
  apply Forall_app in Hok as [Hok1 Hok2]. apply headers_app in Hh as [Hh1 _]. apply merged_app in Hm as (Hm1 & _ & Hend).
  apply Forall_cons in Hok2 as [Hw _]. cbn in Hw.
  assert (Hbr : bp + HDR * u1 <= brk s) by (pose proof (tend_le R2 (bp + HDR * u1) J7); lia).
  exists (put32 (put32 m1 (p + 4) (w + u1)) p q1). unfold free_lower, h_size, set_size, set_ptr, h_ptr. unfold bp, HDR in *.
  mby (uload_ok (p + 4) (set_umem m1 s) ltac:(lia) ltac:(cbn; lia)). cbn [umem set_umem].
  assert (Esp : get32 m1 (p + 4) = w) by (rewrite <- Hsp; apply get32_ext; intros x Hx; apply J4; unfold HDR; lia).
  rewrite Esp. rewrite u32_small by (apply Hsm; lia). rewrite Z.eqb_refl.
  mby (uload_ok (p + 8 * w + 4) (set_umem m1 s) ltac:(lia) ltac:(cbn; lia)). cbn [umem set_umem]. rewrite J2.
  rewrite u32_small by (apply Hsm; lia). mby (ustore_ok (p + 4) (w + u1) (set_umem m1 s) ltac:(lia) ltac:(cbn; lia)). cbn [umem set_umem].
  mby (uload_ok (p + 8 * w) (set_umem (put32 m1 (p + 4) (w + u1)) (set_umem m1 s)) ltac:(lia) ltac:(cbn; lia)). cbn [umem set_umem].
  rewrite get_ptr_size by (unfold apart8, HDR; lia). rewrite J1. rewrite ustore_ok by (cbn; lia). split; [done|].
  assert (Hq1 : is_u32 q1).
  { refine (proj1 (seg_u32 s (umem s) q1 (p + 8 * w + 8 * u1) R2 J5 J7 _ J6 Hlim)). pose proof (tend_le T1 heap0 Hok1) as Hle1. fold p in Hle1. lia. }
  assert (H2 : two_headers (umem s) (put32 (put32 m1 (p + 4) (w + u1)) p q1) p (p + 8 * w)).
  { intros x Hx1 Hx2. unfold HDR in *. rewrite !put32_ne by lia. by apply J4. }
  assert (Eend : p + HDR * (w + u1) = p + 8 * w + 8 * u1) by (unfold HDR; lia).
  split; try done.
  - rewrite frees_app. cbn [frees]. fold p. rewrite Eend. change ((base, 0) :: frees heap0 T1 ++ ?a) with (((base, 0) :: frees heap0 T1) ++ a).
    rewrite <- Ebp in Hj, H2. rewrite <- Ebp.
    eapply (freed_seg s (T1 ++ [(None, w)]) n u T2 m1 u1 q1 R2 _ ((base, 0) :: frees heap0 T1) p (w + u1) []); try done.
    + rewrite Ebp. unfold HDR. lia.
    + rewrite get_size_ptr by (unfold apart8, HDR; lia). apply get32_put32_eq, Hsm; lia.
    + cbn [seg]. by apply get32_put32_eq.
  - rewrite frees_app. cbn [frees]. fold p. rewrite fmap_cons, fmap_app, list.elem_of_cons, elem_of_app. right. right. left.
  - rewrite tend_app. cbn [tend]. fold p. by rewrite Eend.
  - apply Forall_app. split; [done|]. apply Forall_cons. split; [cbn; lia|done].
  - apply merged_app. split_and!; try done. apply merged_cons. done.
  - rewrite !lives_app. cbn [lives]. fold p. rewrite Eend, J10, app_nil_r. done.
  - apply headers_app. split; [done|]. cbn [headers]. fold p. by rewrite Eend.
  - intros m m'. rewrite <- app_assoc, !live_same_app. cbn [app live_same]. fold p. rewrite Eend. unfold HDR. intros (H3 & _ & H4). split; [done|]. by apply J12.
  - exists p, (w + u1). split; [|lia]. rewrite frees_app, elem_of_app. right. left.
Qed.

(** [free] of a live block. *)
Lemma free_ok s T1 n u T2 (bp := tend heap0 T1) :
  rep s (T1 ++ (Some n, u) :: T2) ->
  exists s' T', free (bp + HDR) s = Ok (tt, s') /\ rep s' T' /\ brk s' = brk s /\
    lives heap0 T' = lives heap0 T1 ++ lives (bp + HDR * u) T2 /\
    live_same (umem s) (umem s') heap0 (T1 ++ (None, u) :: T2) /\
    (exists b w, (b, w) ∈ frees heap0 T' /\ u <= w).
Proof using Hgeom.
  intros Hr. pose proof (prev_node s T1 (Some n) u T2 Hr) as (G & sp & _ & _ & _ & _ & Hp0 & Hpb & _ & _ & Hbu & Hu).
  pose proof (mem_small _ _ Hr) as Hsm. pose proof (r_limit _ _ Hr) as Hlim. fold bp in Hpb, Hbu. set (p := lasta base (frees heap0 T1)) in *.
  destruct (free_upper_ok s T1 n u T2 Hr) as (m1 & u1 & q1 & R2 & RU & Hj). fold bp p in RU, Hj.
  assert (Hl : exists m2 T', free_lower bp p (set_umem m1 s) = Ok (tt, set_umem m2 s) /\ freed s T1 bp u T2 p m2 T').
  { destruct (endfree T1) eqn:Hend.
    - destruct T1 as [|[[k|] w] T1 _] using rev_ind; [done|by rewrite endfree_snoc in Hend|].
      assert (Ebp : bp = tend heap0 T1 + HDR * w) by (unfold bp; by rewrite tend_app).
      assert (Ep : p = tend heap0 T1) by (unfold p; by rewrite frees_app, lasta_app).
      rewrite Ebp, Ep in *. destruct (lower_join s T1 w n u T2 m1 u1 q1 R2 Hr Hj) as (m2 & RL & HF). eauto.
    - destruct (lower_apart s T1 n u T2 m1 u1 q1 R2 Hr Hj Hend) as (m2 & RL & HF). eauto. }
  destruct Hl as (m2 & T' & RL & [F1 F2 F3 F4 F5 F6 F7 F8 F9 F10]).
  assert (Hok : Forall blk_ok (T1 ++ (None, u) :: T2)).
  { pose proof (r_ok _ _ Hr) as Hok. apply Forall_app in Hok as [Hok1 Hok2]. apply Forall_cons in Hok2 as [_ Hok2]. by repeat constructor || apply Forall_app. }
  pose proof (live_two _ _ T1 u T2 Hok F1) as Hls.
  exists (set_freep p (set_umem m2 s)), T'. split_and!; try done.
  - unfold free. rewrite u32_small by (apply Hsm; unfold HDR in *; lia). replace (bp + HDR - HDR) with bp by lia. mgo.
    mby (free_find_ok s T1 n u T2 Hr). fold p. unfold h_ptr. mby (uload_ok p s ltac:(lia) ltac:(unfold HDR in *; lia)).
    mby RU. mby RL. done.
  - split; try done. apply (headers_live (umem s)); [done| |done]. by apply F9.
Qed.

(** ** Taking a block *)

Lemma seg_next m L z : forall a i x u, seg m a L z -> L !! i = Some (x, u) ->
  get32 m x = match L !! S i with Some (y, _) => y | None => z end /\ get32 m (x + 4) = u.
Proof using.
  induction L as [|[b w] L IH]; intros a i x u; [done|]. cbn [seg]. intros (-> & Hw & Hs) Hi. destruct i as [|i].
  - injection Hi as -> ->. split; [|done]. cbn. destruct L as [|[c y] L]; [done|]. by destruct Hs.
  - by apply (IH (get32 m b) i).
Qed.

Lemma asc_NoDup L : forall a z, asc a L -> NoDup ((a, z) :: L).*1.
Proof using.
  induction L as [|[b u] L IH]; intros a z; cbn [asc]; [intros _; apply NoDup_singleton|]. intros [H1 H2]. rewrite fmap_cons. apply NoDup_cons. split; [|by apply (IH b u)].
  intros Hin. apply list_elem_of_fmap in Hin as ([c w] & E & Hin). cbn in E. subst c. apply list.elem_of_cons in Hin as [[= -> _]|Hin].
  - unfold HDR in *. lia.
  - pose proof (asc_above _ _ _ _ H2 Hin). unfold HDR in *. lia.
Qed.

Lemma rep_NoDup s T : rep s T -> NoDup ((base, 0) :: frees heap0 T).*1.
Proof using Hgeom. intros Hr. apply asc_NoDup, frees_asc; [apply Hr|lia]. Qed.

(** Only one node points to a free block. *)
Lemma prev_unique s A u B px :
  rep s (A ++ (None, u) :: B) -> px ∈ ((base, 0) :: frees heap0 (A ++ (None, u) :: B)).*1 -> get32 (umem s) px = tend heap0 A ->
  px = lasta base (frees heap0 A).
Proof using Hgeom.
  intros Hr Hin Hpx. pose proof (rep_NoDup _ _ Hr) as Hnd. destruct (rep_split s A _ Hr) as (G & sp & E & _ & _ & Hs).
  pose proof (r_seg _ _ Hr) as Hseg. pose proof (r_ok _ _ Hr) as Hok. apply Forall_app in Hok as [HA _]. pose proof (tend_le A heap0 HA) as Hle.
  rewrite frees_app in *. cbn [frees] in *. set (p := lasta base (frees heap0 A)) in *. set (b := tend heap0 A) in *.
  change ((base, 0) :: frees heap0 A ++ ?r) with (((base, 0) :: frees heap0 A) ++ r) in *. rewrite E in *.
  set (F := (G ++ [(p, sp)]) ++ (b, u) :: frees (b + HDR * u) B) in *.
  assert (Hb : F !! S (length G) = Some (b, u)).
  { unfold F. rewrite lookup_app_r by (rewrite length_app; cbn; lia). rewrite length_app. cbn [length].
    replace (S (length G) - (length G + 1))%nat with O by lia. done. }
  assert (Hp : F !! length G = Some (p, sp)).
  { unfold F. rewrite lookup_app_l by (rewrite length_app; cbn; lia). by apply list_lookup_middle. }
  apply list_elem_of_fmap in Hin as ([x w] & -> & Hin). cbn in *. apply list_elem_of_lookup in Hin as (i & Hi).
  destruct (seg_next _ _ _ _ _ _ _ Hseg Hi) as [Hn _]. rewrite Hpx in Hn. destruct (F !! S i) as [[y v]|] eqn:Ey; [|unfold b, HDR in *; lia].
  assert (Hij : S i = S (length G)).
  { eapply (NoDup_lookup _ _ _ y Hnd); rewrite list_lookup_fmap; [by rewrite Ey|]. rewrite Hb. cbn. by rewrite Hn. }
  injection Hij as ->. rewrite Hp in Hi. by injection Hi.
Qed.

(** A block for [n] bytes has been handed out at [a]. *)
Record handed (s : ust) (T : list blk) (n a : Z) (s' : ust) (T' : list blk) : Prop := {
  ha_rep : rep s' T';
  ha_brk : brk s' = brk s;
  ha_lives : lives heap0 T' ≡ₚ (a, n) :: lives heap0 T;
  ha_same : live_same (umem s) (umem s') heap0 T
}.

Lemma take_whole s A u B n (px := lasta base (frees heap0 A)) (b := tend heap0 A) :
  rep s (A ++ (None, u) :: B) -> 0 <= n <= HDR * (u - 1) ->
  exists s' T', malloc_take u px b u s = Ok (b + HDR, s') /\ handed s (A ++ (None, u) :: B) n (b + HDR) s' T'.
Proof using Hgeom.
  intros Hr Hn. pose proof (mem_small _ _ Hr) as Hsm.
  destruct (prev_node s A None u B Hr) as (G & sp & E & HG & Hsp & Hlow & Hp0 & Hpb & _ & _ & Hbu & Hu). fold px b in E, HG, Hsp, Hlow, Hp0, Hpb, Hbu.
  destruct (rep_split s A ((None, u) :: B) Hr) as (_ & _ & _ & _ & _ & Hs). fold px b in Hs.
  pose proof Hr as [_ _ Hh He Hlim Hok Hm]. pose proof Hok as Hok'. apply Forall_app in Hok as [HA HB]. apply Forall_cons in HB as [_ HB].
  rewrite tend_app in He. cbn [tend] in He. fold b in He. pose proof (tend_le A heap0 HA) as Hle1. fold b in Hle1.
  cbn [frees seg] in Hs. destruct Hs as (Eb & Hsize & Hs). set (q := get32 (umem s) b) in *.
  destruct (seg_u32 s (umem s) q (b + HDR * u) B Hs HB ltac:(unfold HDR in *; lia) He Hlim) as [Hq _].
  set (m' := put32 (umem s) px q).
  assert (H2 : two_headers (umem s) m' px b) by (intros x Hx1 Hx2; unfold m', HDR in *; rewrite put32_ne by lia; done).
  exists (set_freep px (set_umem m' s)), (A ++ (Some n, u) :: B). split.
  { unfold malloc_take, h_ptr, set_ptr. rewrite Z.eqb_refl. rewrite mbind_assoc. unfold HDR in *.
    mby (uload_ok b s ltac:(lia) ltac:(lia)). fold q. mby (ustore_ok px q s ltac:(lia) ltac:(lia)). fold m'. mgo.
    by rewrite u32_small by (apply Hsm; lia). }
  pose proof (live_two _ _ A u B Hok' H2) as Hls.
  split; [split| |..]; try done; cbn [umem freep brk set_freep set_umem].
  - rewrite frees_app. cbn [frees]. fold b. change ((base, 0) :: frees heap0 A ++ ?r) with (((base, 0) :: frees heap0 A) ++ r). rewrite E, <- app_assoc.
    apply seg_app. exists px. split.
    + apply (seg_two (umem s) m' px b); [done| |done]. intros c v Hc. specialize (Hlow c v Hc). lia.
    + cbn [app seg]. split; [done|]. split; [unfold m'; by rewrite get_size_ptr by (unfold apart8; lia)|].
      assert (get32 m' px = q) as -> by (by apply get32_put32_eq). apply (seg_two (umem s) m' px b); [done| |done].
      intros c v Hc. destruct (frees_range B HB _ c v Hc). unfold HDR in *. lia.
  - rewrite frees_app. change ((base, 0) :: frees heap0 A ++ ?a) with (((base, 0) :: frees heap0 A) ++ a). rewrite E, !fmap_app, !elem_of_app. left. right. left.
  - apply (headers_live _ _ _ Hok' _ Hls) in Hh. apply headers_app in Hh as [Hh1 Hh2]. apply headers_app. split; [done|].
    split; [|done]. fold b. unfold m'. by rewrite get_size_ptr by (unfold apart8; lia).
  - rewrite tend_app. done.
  - apply Forall_app. split; [done|]. apply Forall_cons. done.
  - apply merged_app. apply merged_app in Hm as (M1 & M2 & M3). split_and!; try done. apply merged_cons. by apply merged_cons in M2 as [M2 _].
  - rewrite !lives_app. cbn [lives]. fold b. symmetry. apply Permutation_middle.
Qed.

Lemma take_end s A u B k n (px := lasta base (frees heap0 A)) (b := tend heap0 A) (a := b + HDR * (u - k)) :
  rep s (A ++ (None, u) :: B) -> 1 <= k < u -> 0 <= n <= HDR * (k - 1) ->
  exists s' T', malloc_take k px b u s = Ok (a + HDR, s') /\ handed s (A ++ (None, u) :: B) n (a + HDR) s' T'.
Proof using Hgeom.
  intros Hr Hk Hn. pose proof (mem_small _ _ Hr) as Hsm.
  destruct (prev_node s A None u B Hr) as (G & sp & E & HG & Hsp & Hlow & Hp0 & Hpb & _ & _ & Hbu & Hu). fold px b in E, HG, Hsp, Hlow, Hp0, Hpb, Hbu.
  destruct (rep_split s A ((None, u) :: B) Hr) as (_ & _ & _ & _ & _ & Hs). fold px b in Hs.
  pose proof Hr as [_ _ Hh He Hlim Hok Hm]. pose proof Hok as Hok'. apply Forall_app in Hok as [HA HB]. apply Forall_cons in HB as [_ HB].
  rewrite tend_app in He. cbn [tend] in He. fold b in He. pose proof (tend_le A heap0 HA) as Hle1. fold b in Hle1.
  cbn [frees seg] in Hs. destruct Hs as (Eb & Hsize & Hs). set (q := get32 (umem s) b) in *.
  set (m' := put32 (put32 (umem s) (b + 4) (u - k)) (a + 4) k). assert (Hab : b + HDR <= a /\ a + HDR * k = b + HDR * u) by (unfold a, HDR in *; lia).
  assert (H2 : forall x, x < b \/ b + HDR * u <= x -> m' x = umem s x) by (intros x Hx; unfold m', HDR in *; rewrite !put32_ne by lia; done).
  exists (set_freep px (set_umem m' s)), (A ++ (None, u - k) :: (Some n, k) :: B). split.
  { unfold malloc_take, h_ptr, set_ptr, h_size, set_size. rewrite (proj2 (Z.eqb_neq u k)) by lia. unfold a, HDR in *.
    rewrite u32_small by (apply Hsm; lia). rewrite mbind_assoc. mby (ustore_ok (b + 4) (u - k) s ltac:(lia) ltac:(lia)).
    mby (uload_ok (b + 4) (set_umem (put32 (umem s) (b + 4) (u - k)) s) ltac:(lia) ltac:(cbn; lia)). cbn [umem set_umem].
    rewrite get32_put32_eq by (apply Hsm; lia). rewrite u32_small by (apply Hsm; lia).
    mby (ustore_ok (b + 8 * (u - k) + 4) k (set_umem (put32 (umem s) (b + 4) (u - k)) s) ltac:(lia) ltac:(cbn; lia)). mgo.
    by rewrite u32_small by (apply Hsm; lia). }
  pose proof (live_same_free _ m' heap0 A u B Hok' H2) as Hls.
  assert (Hnodes : forall L c z, (forall d v, (d, v) ∈ L -> d + HDR <= b \/ b + HDR * u <= d) -> seg (umem s) c L z -> seg m' c L z).
  { intros L c z HL. apply seg_ext. intros d v Hd. specialize (HL d v Hd). unfold HDR in *. split; apply get32_ext; intros x Hx; apply H2; lia. }
  split; [split| |..]; try done; cbn [umem freep brk set_freep set_umem].
  - rewrite frees_app. cbn [frees]. fold b a. replace (a + HDR * k) with (b + HDR * u) by lia.
    change ((base, 0) :: frees heap0 A ++ ?r) with (((base, 0) :: frees heap0 A) ++ r). rewrite E, <- app_assoc.
    apply seg_app. exists px. split; [apply (Hnodes G); [|done]; intros c v Hc; specialize (Hlow c v Hc); unfold HDR in *; lia|].
    assert (Epx : get32 m' px = b /\ get32 m' (px + 4) = sp).
    { rewrite <- Eb, <- Hsp. unfold HDR in *. split; apply get32_ext; intros x Hx; apply H2; lia. }
    assert (Ebb : get32 m' b = q /\ get32 m' (b + 4) = u - k).
    { unfold m'. rewrite !get_ptr_size by (unfold apart8; lia). split; [done|].
      rewrite get_size_size by (unfold apart8; lia || (apply Hsm; unfold HDR in *; lia)). rewrite (proj2 (Z.eqb_neq b a)) by (unfold HDR in *; lia).
      apply get32_put32_eq, Hsm; unfold HDR in *; lia. }
    destruct Epx as [Ep1 Ep2]. destruct Ebb as [Ebb1 Ebb2]. cbn [app seg]. rewrite Ep1, Ep2, Ebb1, Ebb2. split_and!; try done.
    apply Hnodes; [|done]. intros c v Hc. destruct (frees_range B HB _ c v Hc). lia.
  - rewrite frees_app. change ((base, 0) :: frees heap0 A ++ ?a) with (((base, 0) :: frees heap0 A) ++ a). rewrite E, !fmap_app, !elem_of_app. left. right. left.
  - apply (headers_live _ _ _ Hok' _ Hls) in Hh. apply headers_app in Hh as [Hh1 Hh2]. apply headers_app. split; [done|].
    cbn [headers] in *. fold b in Hh2. fold b a. replace (a + HDR * k) with (b + HDR * u) by lia. split; [|done].
    unfold m'. apply get32_put32_eq, Hsm; unfold HDR in *; lia.
  - rewrite tend_app. cbn [tend]. fold b a. by replace (a + HDR * k) with (b + HDR * u) by lia.
  - apply Forall_app. split; [done|]. apply Forall_cons. split; [cbn; lia|]. apply Forall_cons. split; [cbn; lia|done].
  - apply merged_app. apply merged_app in Hm as (M1 & M2 & M3). split_and!; try done. apply merged_cons in M2 as [M2 _]. by repeat (apply merged_cons; split).
  - rewrite !lives_app. cbn [lives]. fold b a. replace (a + HDR * k) with (b + HDR * u) by lia. symmetry. apply Permutation_middle.
Qed.

(** A free block that is large enough is taken, whole or in part. *)
Lemma take_ok s T px b u k n :
  rep s T -> (b, u) ∈ (base, 0) :: frees heap0 T -> px ∈ ((base, 0) :: frees heap0 T).*1 -> get32 (umem s) px = b ->
  1 <= k <= u -> 0 <= n <= HDR * (k - 1) ->
  exists a s' T', malloc_take k px b u s = Ok (a, s') /\ heap0 <= a /\ handed s T n a s' T'.
Proof using Hgeom.
  intros Hr Hb Hpx Eb Hk Hn. apply list.elem_of_cons in Hb as [[= -> ->]|Hb]; [lia|].
  destruct (frees_elem _ _ _ _ Hb) as (A & B & -> & ->). pose proof (prev_unique s A u B px Hr Hpx Eb) as ->.
  pose proof (r_ok _ _ Hr) as Hok. apply Forall_app in Hok as [HA _]. pose proof (tend_le A heap0 HA) as Hle.
  destruct (decide (k = u)) as [->|Hne].
  - destruct (take_whole s A u B n Hr Hn) as (s' & T' & R & H). eexists _, s', T'. split; [exact R|]. split; [unfold HDR; lia|done].
  - destruct (take_end s A u B k n Hr ltac:(lia) Hn) as (s' & T' & R & H). eexists _, s', T'. split; [exact R|]. split; [unfold HDR; lia|done].
Qed.

(** ** Once around the list *)

(** The nodes after [freep], in the order of the list, up to [freep]. *)
Lemma rotate s T :
  rep s T -> exists C sf, seg (umem s) (get32 (umem s) (freep s)) (C ++ [(freep s, sf)]) (get32 (umem s) (freep s)) /\
    (forall x, (x ∈ C ++ [(freep s, sf)]) <-> (x ∈ (base, 0) :: frees heap0 T)) /\ (freep s ∉ C.*1) /\ (length C <= length T)%nat.
Proof using Hgeom.
  intros Hr. pose proof (rep_NoDup _ _ Hr) as Hnd. pose proof (r_freep _ _ Hr) as Hf. pose proof (r_seg _ _ Hr) as Hs.
  pose proof (length_frees T heap0) as Hl. assert (Hlen : length ((base, 0) :: frees heap0 T) = S (length (frees heap0 T))) by done.
  apply list_elem_of_fmap in Hf as ([fp sf] & Ef & Hf). cbn in Ef. rewrite Ef. apply list_elem_of_split in Hf as (G & L & E).
  rewrite E in Hnd, Hs, Hlen. rewrite E. exists (L ++ G), sf.
  apply seg_app in Hs as (y & Hs1 & Hs2). cbn in Hs2. destruct Hs2 as (-> & Hsf & Hs2).
  rewrite fmap_app, fmap_cons in Hnd. rewrite length_app in Hlen. cbn in Hlen. split_and!.
  - rewrite <- app_assoc. apply seg_app. exists base. split; [done|]. apply seg_app. exists fp. split; [done|]. by cbn.
  - intros x. rewrite !elem_of_app, !list.elem_of_cons, elem_of_nil. tauto.
  - apply NoDup_app in Hnd as (_ & Hd & Hn2). apply NoDup_cons in Hn2 as [Hn2 _]. rewrite fmap_app, elem_of_app.
    intros [?|Hg]; [done|]. apply (Hd fp Hg). left.
  - rewrite length_app. lia.
Qed.

(** The loop of [malloc] up to the first block that is large enough, or to [freep]. *)
Lemma scan s T k C : forall prev a z fuel sf,
  rep s T -> seg (umem s) a (C ++ [(freep s, sf)]) z -> get32 (umem s) prev = a -> prev ∈ ((base, 0) :: frees heap0 T).*1 ->
  (forall x, x ∈ C ++ [(freep s, sf)] -> x ∈ (base, 0) :: frees heap0 T) -> freep s ∉ C.*1 -> (length C < fuel)%nat ->
  (exists px b u, malloc_loop fuel k prev a s = malloc_take k px b u s /\ (b, u) ∈ (base, 0) :: frees heap0 T /\ k <= u /\
     px ∈ ((base, 0) :: frees heap0 T).*1 /\ get32 (umem s) px = b) \/
  ((forall x, x ∈ C ++ [(freep s, sf)] -> x.2 < k) /\ malloc_loop fuel k prev a s =
     (let! p := morecore k in
      if p =? 0 then mret 0 else let! q := h_ptr p in malloc_loop (fuel - S (length C)) k p q) s).
Proof using Hgeom.
  induction C as [|[b u] C IH]; intros prev a z fuel sf Hr Hs Hprev Hpin Hsub Hnf Hlen; (destruct fuel as [|fuel]; [cbn in Hlen; lia|]);
    pose proof (rep_inside _ _ Hr) as Hin; cbn [malloc_loop]; cbn [app seg] in Hs; destruct Hs as (Ea & Hu & Hs).
  - destruct (Hin (freep s) sf) as [I1 I2]; [apply Hsub; left|]. rewrite Ea. rewrite !(mbind_ok _ _ _ _ _ (h_size_ok (freep s) s I1 I2)). rewrite Hu, Z.geb_leb.
    destruct (Z.leb_spec k sf) as [Hk|Hk]; [left|right].
    + exists prev, (freep s), sf. split_and!; try done; [apply Hsub; left|congruence].
    + split; [by intros x ->%list_elem_of_singleton|]. mgo. rewrite Z.eqb_refl. cbn [length]. by rewrite Nat.sub_succ, Nat.sub_0_r.
  - destruct (Hin b u) as [I1 I2]; [apply Hsub; left|]. rewrite Ea in Hprev |- *. rewrite !(mbind_ok _ _ _ _ _ (h_size_ok b s I1 I2)). rewrite Hu, Z.geb_leb.
    destruct (Z.leb_spec k u) as [Hk|Hk].
    + left. exists prev, b, u. split_and!; try done. apply Hsub. left.
    + mgo. assert (Hne : b <> freep s) by (intros ->; apply Hnf; left). rewrite !(proj2 (Z.eqb_neq _ _) Hne).
      rewrite !(mbind_ok _ _ _ _ _ (h_ptr_ok b s I1 I2)).
      destruct (IH b (get32 (umem s) b) z fuel sf Hr Hs eq_refl) as [H|[H1 H2]].
      * apply list_elem_of_fmap. exists (b, u). split; [done|]. apply Hsub. left.
      * intros x Hx. apply Hsub. by right.
      * intros Hx. apply Hnf. by right.
      * cbn in Hlen. lia.
      * left. done.
      * right. split; [|exact H2]. intros x [->|Hx]%list.elem_of_cons; [done|by apply H1].
Qed.

(** ** Growing the heap *)

Definition grow (k : Z) : Z := if k <? 4096 then 4096 else k.

Lemma grown_rep s T nu (s' := set_umem (put32 (umem s) (brk s + 4) nu) (set_brk (brk s + HDR * nu) s)) :
  rep s T -> 1 <= nu -> brk s + HDR * nu <= limit -> rep s' (T ++ [(Some 0, nu)]).
Proof using Hgeom.
  intros Hr Hnu Hlim. pose proof (rep_inside _ _ Hr) as Hin. destruct Hr as [Hs Hf Hh He _ Hok Hm].
  pose proof (tend_le T heap0 Hok) as Hle. rewrite He in Hle.
  assert (Hnf : frees heap0 (T ++ [(Some 0, nu)]) = frees heap0 T) by (rewrite frees_app; cbn; by rewrite app_nil_r).
  split; rewrite ?Hnf; try done; cbn [umem brk set_umem set_brk].
  - apply (seg_ext (umem s)); [|done]. intros b u Hb. destruct (Hin b u Hb) as [I1 I2]. unfold HDR in *.
    split; apply get32_ext; intros x Hx; apply put32_ne; lia.
  - apply headers_app. split.
    + apply (headers_live (umem s)); [done| |done]. apply live_same_out; [done|]. intros x Hx. apply put32_ne. lia.
    + cbn [headers]. rewrite He. split; [|done]. apply get32_put32_eq. unfold is_u32, HDR in *. lia.
  - rewrite tend_app, He. done.
  - apply Forall_app. split; [done|]. apply Forall_cons. split; [cbn; unfold HDR; lia|done].
  - apply merged_app. split_and!; done.
Qed.

(** The bytes of the blocks of [L], as the program sees them. *)
Definition payload_same (m m' : mem) (L : list (Z * Z)) : Prop := forall p n x, (p, n) ∈ L -> p <= x < p + n -> m' x = m x.

Lemma live_payload m m' T : Forall blk_ok T -> forall a, live_same m m' a T -> payload_same m m' (lives a T).
Proof using.
  induction 1 as [|[[n|] u] T Hb HT IH]; intros a; cbn [live_same lives]; [by intros _ p n x ?%elem_of_nil| |apply IH].
  intros [H1 H2] p k x [[= -> ->]|Hin]%list.elem_of_cons Hx; [apply H1; cbn in Hb; unfold HDR in *; lia|]. by eapply (IH _ H2).
Qed.

Lemma lives_range T : Forall blk_ok T -> forall a p n, (p, n) ∈ lives a T -> a + HDR <= p /\ 0 <= n /\ p + n <= tend a T.
Proof using.
  induction 1 as [|[[n|] u] T Hb HT IH]; intros a p k; cbn [lives tend]; [by intros ?%elem_of_nil| |].
  - cbn in Hb. pose proof (tend_le T (a + HDR * u) HT). intros [[= -> ->]|Hin]%list.elem_of_cons; [unfold HDR in *; lia|].
    specialize (IH _ _ _ Hin). unfold HDR in *. lia.
  - cbn in Hb. intros Hin. specialize (IH _ _ _ Hin). unfold HDR in *. lia.
Qed.

Lemma sbrk_grows n s : 0 <= n < 2 ^ 31 -> 0 <= brk s -> brk s + n < 2 ^ 32 -> sbrk n s = Ok (brk s, set_brk (brk s + n) s).
Proof using.
  intros Hn Hb Hs. unfold sbrk. rewrite s32_small by lia. rewrite (proj2 (Z.ltb_ge n 0)) by lia.
  by rewrite u32_small by (unfold is_u32; lia).
Qed.

Lemma morecore_ok s T k :
  rep s T -> 1 <= k -> brk s + HDR * grow k <= limit ->
  exists s' T', morecore k s = Ok (freep s', s') /\ rep s' T' /\ brk s' = brk s + HDR * grow k /\
    lives heap0 T' = lives heap0 T /\ payload_same (umem s) (umem s') (lives heap0 T) /\ (exists b w, (b, w) ∈ frees heap0 T' /\ k <= w).
Proof using Hgeom.
  intros Hr Hk Hlim. unfold morecore. fold (grow k). assert (Hg : k <= grow k /\ 4096 <= grow k).
  { unfold grow, HDR in *. destruct (Z.ltb_spec k 4096); lia. }
  pose proof (rep_fuel _ _ Hr) as Hfuel. unfold list_fuel in Hfuel. pose proof (r_end _ _ Hr) as He. pose proof (r_ok _ _ Hr) as Hok.
  assert (Hsb : sbrk (u32 (grow k * HDR)) s = Ok (brk s, set_brk (brk s + HDR * grow k) s)).
  { unfold HDR in *. rewrite u32_small by (unfold is_u32; lia). rewrite (Z.mul_comm (grow k)). apply sbrk_grows; lia. }
  rewrite (mbind_ok _ _ _ _ _ Hsb).
  rewrite (proj2 (Z.eqb_neq (brk s) (-1))) by lia. unfold HDR in *. set (s1 := set_brk (brk s + 8 * grow k) s).
  unfold set_size. mby (ustore_ok (brk s + 4) (grow k) s1 ltac:(lia) ltac:(cbn; lia)).
  pose proof (grown_rep s T (grow k) Hr ltac:(lia) Hlim) as Hr2. unfold HDR in Hr2. fold s1 in Hr2.
  destruct (free_ok _ T 0 (grow k) [] Hr2) as (s' & T' & R & Hr' & Hb & Hl & Hsame & (b & w & Hbw & Hw)). rewrite He in R, Hl. unfold HDR in R.
  change (umem s1) with (umem s). mby R. mgo. exists s', T'. rewrite app_nil_r in Hl. cbn [lives] in Hl. split_and!; try done.
  - apply live_same_app in Hsame as [Hsame _]. apply (live_payload _ _ T Hok) in Hsame. intros p n x Hin Hx. rewrite (Hsame p n x Hin Hx).
    apply put32_ne. destruct (lives_range T Hok heap0 p n Hin). lia.
  - exists b, w. split; [done|]. lia.
Qed.

(** ** [malloc] *)

(** A block for [n] bytes at [a], apart from the blocks [L]. *)
Definition allocated (s s' : ust) (n a : Z) (L : list (Z * Z)) : Prop :=
  exists T', rep s' T' /\ lives heap0 T' ≡ₚ (a, n) :: L /\ payload_same (umem s) (umem s') L.

Lemma handed_allocated s0 s T n a s' T' :
  handed s T n a s' T' -> Forall blk_ok T -> payload_same (umem s0) (umem s) (lives heap0 T) -> allocated s0 s' n a (lives heap0 T).
Proof using.
  intros [H1 _ H3 H4] Hok H0. exists T'. split_and!; try done. intros p k x Hin Hx.
  by rewrite (live_payload _ _ T Hok heap0 H4 p k x Hin Hx), (H0 p k x Hin Hx).
Qed.

Lemma freep_range s T : rep s T -> base <= freep s /\ freep s + HDR <= Z.min (brk s) (2 ^ 31).
Proof using Hgeom.
  intros Hr. pose proof (r_freep _ _ Hr) as Hf. apply list_elem_of_fmap in Hf as ([b u] & -> & Hf).
  destruct (rep_inside _ _ Hr b u Hf). cbn. apply list.elem_of_cons in Hf as [[= -> _]|Hf]; [lia|].
  destruct (frees_range T (r_ok _ _ Hr) heap0 b u Hf). unfold HDR in *. lia.
Qed.

Lemma malloc_loop_ok s T k n fuel :
  rep s T -> 1 <= k -> brk s + HDR * grow k <= limit -> 0 <= n <= HDR * (k - 1) -> (malloc_fuel k s <= fuel)%nat ->
  exists a s', malloc_loop fuel k (freep s) (get32 (umem s) (freep s)) s = Ok (a, s') /\
    heap0 <= a /\ allocated s s' n a (lives heap0 T).
Proof using Hgeom.
  intros Hr Hk Hlim Hn Hfuel. pose proof (rep_fuel _ _ Hr) as Hf1. unfold list_fuel, malloc_fuel in *.
  assert (Hg : grow k <= k + 4096 /\ 4096 <= grow k) by (unfold grow; destruct (Z.ltb_spec k 4096); lia).
  destruct (rotate s T Hr) as (C & sf & Hs & Hmem & Hnf & Hlen).
  destruct (scan s T k C (freep s) (get32 (umem s) (freep s)) _ fuel sf Hr Hs eq_refl) as [(px & b & u & -> & Hb & Hku & Hpx & Eb)|[_ ->]].
  - apply Hr.
  - intros x Hx. by apply Hmem.
  - done.
  - unfold HDR in *. lia.
  - destruct (take_ok s T px b u k n Hr Hb Hpx Eb ltac:(lia) Hn) as (a & s' & T' & -> & Ha & Hh). exists a, s'. split; [done|]. split; [done|].
    eapply handed_allocated; [done|apply Hr|]. by intros p j x _ _.
  - destruct (morecore_ok s T k Hr Hk Hlim) as (s1 & T1 & R & Hr1 & Hb1 & Hl1 & Hp1 & (b1 & w1 & Hbig & Hw1)); rewrite (mbind_ok _ _ _ _ _ R).
    destruct (freep_range _ _ Hr1) as [Hfp1 Hfp2]. rewrite (proj2 (Z.eqb_neq (freep s1) 0)) by lia.
    rewrite (mbind_ok _ _ _ _ _ (h_ptr_ok (freep s1) s1 ltac:(lia) Hfp2)).
    destruct (rotate s1 T1 Hr1) as (C1 & sf1 & Hs1 & Hmem1 & Hnf1 & Hlen1). pose proof (rep_fuel _ _ Hr1) as Hf2. unfold list_fuel in Hf2.
    destruct (scan s1 T1 k C1 (freep s1) (get32 (umem s1) (freep s1)) _ (fuel - S (length C)) sf1 Hr1 Hs1 eq_refl)
      as [(px & b & u & -> & Hb & Hku & Hpx & Eb)|[Hno _]].
    + apply Hr1.
    + intros x Hx. by apply Hmem1.
    + done.
    + unfold HDR in *. lia.
    + destruct (take_ok s1 T1 px b u k n Hr1 Hb Hpx Eb ltac:(lia) Hn) as (a & s' & T' & -> & Ha & Hh). exists a, s'. split; [done|]. split; [done|].
      rewrite <- Hl1 in Hp1 |- *. eapply handed_allocated; [done|apply Hr1|done].
    + specialize (Hno (b1, w1)). rewrite Hmem1 in Hno. cbn in Hno. specialize (Hno ltac:(by right)). lia.
Qed.

(** The state at the start, and afterwards. *)
Definition heap_ok (s : ust) (T : list blk) : Prop := rep s T \/ (freep s = 0 /\ T = [] /\ brk s = heap0 /\ heap0 <= limit).

(** Requests for which there is room: 32 KB, or the bytes asked for with two
    headers, end below [KERNBASE]. *)
Definition fits (s : ust) (n : Z) : Prop :=
  0 <= n /\ brk s + Z.max (HDR * 4096) (n + 2 * HDR) < KERNBASE.

Lemma units_ok s n : 0 <= brk s -> fits s n -> 1 <= units n /\ brk s + HDR * grow (units n) <= limit /\ n <= HDR * (units n - 1).
Proof using.
  unfold fits, units, grow, HDR, KERNBASE. intros H0 [H1 H2]. rewrite (u32_small (n + 8 - 1)) by (unfold is_u32; lia).
  rewrite u32_small by (unfold is_u32; zlia). zcase; zlia.
Qed.

Lemma malloc_ok s T n :
  heap_ok s T -> fits s n ->
  exists a s', malloc base n s = Ok (a, s') /\ heap0 <= a /\ allocated s s' n a (lives heap0 T).
Proof using Hgeom.
  intros Hh Hn. assert (Hb0 : 0 <= brk s).
  { destruct Hh as [Hr|(_ & _ & -> & _)]; [destruct (freep_range _ _ Hr)|]; unfold HDR in *; lia. }
  destruct (units_ok s n Hb0 Hn) as (Hk & Hk2 & Hk3). destruct Hn as [Hn0 _]. unfold malloc. mgo. destruct Hh as [Hr|(Hf & -> & Hb & Hl)].
  - destruct (freep_range _ _ Hr) as [Hfp1 Hfp2]. rewrite (proj2 (Z.eqb_neq (freep s) 0)) by lia. mgo.
    rewrite (mbind_ok _ _ _ _ _ (h_ptr_ok (freep s) s ltac:(lia) Hfp2)).
    exact (malloc_loop_ok s T (units n) n (malloc_fuel (units n) s) Hr Hk Hk2 ltac:(lia) ltac:(lia)).
  - (* the first call *)
    rewrite Hf. cbn [Z.eqb]. unfold set_ptr, set_size. rewrite mbind_assoc. unfold HDR in *.
    mby (ustore_ok base base s ltac:(lia) ltac:(lia)). set (s1 := set_umem _ s).
    mby (ustore_ok (base + 4) 0 (set_freep base s1) ltac:(lia) ltac:(cbn; lia)). set (s2 := set_umem _ (set_freep base s1)). mgo.
    assert (Hr : rep s2 []).
    { split; cbn; try done; try (unfold HDR; lia).
      - rewrite get32_put32_eq by (unfold is_u32; lia). rewrite (get_ptr_size _ base base), get32_put32_eq by (unfold is_u32; lia || (by left)). done.
      - left. }
    mby (h_ptr_ok base s2 ltac:(lia) ltac:(cbn; unfold HDR; lia)).
    destruct (malloc_loop_ok s2 [] (units n) n (malloc_fuel (units n) s) Hr Hk Hk2 ltac:(unfold HDR; lia) (Nat.le_refl _)) as (a & s' & R & H1 & T' & H2 & H3 & _).
    exists a, s'. split; [exact R|]. split; [done|]. exists T'. split_and!; try done. by intros p j x ?%elem_of_nil.
Qed.

(** ** The program and its allocator *)

(** A call of [malloc] there is room for, one of [free], or a write of the program to
    one of its blocks; the second component is the blocks the program has. *)
Inductive ustep : ust * list (Z * Z) -> ust * list (Z * Z) -> Prop :=
| us_malloc s L n p s' :
    fits s n -> malloc base n s = Ok (p, s') -> ustep (s, L) (s', (p, n) :: L)
| us_free s L1 p n L2 s' :
    free p s = Ok (tt, s') -> ustep (s, L1 ++ (p, n) :: L2) (s', L1 ++ L2)
| us_write s L p n a c :
    (p, n) ∈ L -> p <= a < p + n -> ustep (s, L) (set_umem (put8 (umem s) a c) s, L).

Inductive ureach : ust * list (Z * Z) -> Prop :=
| ur_start m : heap0 < KERNBASE -> ureach (mkust m 0 heap0, [])
| ur_step x y : ureach x -> ustep x y -> ureach y.

Lemma lives_elem T : forall a p n, (p, n) ∈ lives a T -> exists A u B, T = A ++ (Some n, u) :: B /\ p = tend a A + HDR.
Proof using.
  induction T as [|[[k|] u] T IH]; intros a p n; cbn [lives]; [by intros ?%elem_of_nil|..].
  - rewrite list.elem_of_cons. intros [[= -> ->]|Hin]; [by exists [], u, T|].
    destruct (IH _ _ _ Hin) as (A & w & B & -> & ->). by exists ((Some k, u) :: A), w, B.
  - intros Hin. destruct (IH _ _ _ Hin) as (A & w & B & -> & ->). by exists ((None, u) :: A), w, B.
Qed.

(** Writes of the program do not touch headers. *)
Lemma program_write_ok s T p n a c :
  rep s T -> (p, n) ∈ lives heap0 T -> p <= a < p + n -> rep (set_umem (put8 (umem s) a c) s) T.
Proof using Hgeom.
  intros Hr Hin Ha. destruct (lives_elem _ _ _ _ Hin) as (A & u & B & -> & ->). pose proof (r_ok _ _ Hr) as Hok. pose proof (rep_inside _ _ Hr) as Hi.
  apply Forall_app in Hok as [HA HB]. apply Forall_cons in HB as [Hu HB]. cbn in Hu. pose proof (tend_le A heap0 HA) as Hle.
  assert (Hpa : tend heap0 A + HDR <= a < tend heap0 A + HDR * u) by (unfold HDR in *; lia).
  destruct Hr as [Hs Hf Hh He Hl Hok Hm]. split; try done; cbn [umem set_umem].
  - apply (seg_ext (umem s)); [|done]. intros b w Hb.
    assert (Hout : b + HDR <= a \/ a < b).
    { rewrite frees_app in Hb. cbn [frees] in Hb. apply list.elem_of_cons in Hb as [[= -> _]|Hb]; [unfold HDR in *; lia|].
      apply elem_of_app in Hb as [Hb|Hb].
      - destruct (frees_range A HA heap0 b w Hb). unfold HDR in *. lia.
      - destruct (frees_range B HB _ b w Hb). lia. }
    unfold HDR in *. split; apply get32_ext; intros x Hx; apply put8_ne; lia.
  - apply headers_app in Hh as [H1 H2]. cbn [headers] in H2. destruct H2 as [H2 H3]. apply headers_app. split; [|split].
    + apply (headers_live (umem s)); [done| |done]. apply live_same_out; [done|]. intros x Hx. apply put8_ne. unfold HDR in *. lia.
    + rewrite <- H2. apply get32_ext. intros x Hx. apply put8_ne. unfold HDR in *. lia.
    + apply (headers_live (umem s)); [done| |done]. apply live_same_out; [done|]. intros x Hx. apply put8_ne. unfold HDR in *. lia.
Qed.

(** [free] of a block the program has. *)
Lemma free_live s T p n :
  rep s T -> (p, n) ∈ lives heap0 T ->
  exists s' T' L, free p s = Ok (tt, s') /\ rep s' T' /\ lives heap0 T ≡ₚ (p, n) :: L /\ lives heap0 T' = L /\ payload_same (umem s) (umem s') L.
Proof using Hgeom.
  intros Hr Hin. destruct (lives_elem _ _ _ _ Hin) as (A & u & B & -> & ->).
  destruct (free_ok s A n u B Hr) as (s' & T' & R & Hr' & _ & Hl & Hsame & _). exists s', T', (lives heap0 T'). split_and!; try done.
  - rewrite lives_app, Hl. cbn [lives]. symmetry. apply Permutation_middle.
  - pose proof (r_ok _ _ Hr) as Hok. apply Forall_app in Hok as [HA HB]. apply Forall_cons in HB as [Hu HB]. cbn in Hu.
    rewrite Hl. apply live_same_app in Hsame as [S1 S2]. cbn [live_same] in S2. apply (live_payload _ _ A HA) in S1. apply (live_payload _ _ B HB) in S2.
    intros q k x [Hq|Hq]%elem_of_app Hx; [by apply (S1 q k)|by apply (S2 q k)].
Qed.

Lemma live_rep s T p n : heap_ok s T -> (p, n) ∈ lives heap0 T -> rep s T.
Proof using. intros [H|(_ & -> & _)]; [done|]. by intros ?%elem_of_nil. Qed.

Lemma ureach_ok s L : ureach (s, L) -> exists T, heap_ok s T /\ L ≡ₚ lives heap0 T.
Proof using Hgeom.
  intros H. remember (s, L) as x eqn:E. revert s L E. induction H as [m Hlim|x y Hx IH Hstep]; intros s L E.
  - injection E as <- <-. exists []. split; [right|done]. split_and!; try done. unfold KERNBASE in Hlim. lia.
  - destruct Hstep as [s0 L0 n p s' Hn R|s0 L1 p n L2 s' R|s0 L0 p n a c Hin Ha]; injection E as <- <-; destruct (IH _ _ eq_refl) as (T & HT & HL).
    + destruct (malloc_ok s0 T n HT Hn) as (a & s1 & R1 & Ha & T' & Hr & Hl & _). rewrite R in R1. injection R1 as <- <-.
      exists T'. split; [by left|]. by rewrite Hl, HL.
    + assert (Hin : (p, n) ∈ lives heap0 T) by (rewrite <- HL, elem_of_app; right; left).
      destruct (free_live s0 T p n (live_rep _ _ _ _ HT Hin) Hin) as (s1 & T' & L & R1 & Hr & Hl & Hl' & _). rewrite R in R1. injection R1 as <-.
      exists T'. split; [by left|]. rewrite Hl'. apply (Permutation_cons_inv (a := (p, n))). rewrite <- Hl, <- HL. apply Permutation_middle.
    + assert (Hin' : (p, n) ∈ lives heap0 T) by (by rewrite <- HL). exists T. split; [|done]. left. eapply program_write_ok; [by eapply live_rep|done|done].
Qed.

Lemma lives_apart T : Forall blk_ok T -> forall a i j p n q k,
  (i < j)%nat -> lives a T !! i = Some (p, n) -> lives a T !! j = Some (q, k) -> p + n + HDR <= q.
Proof using.
  induction 1 as [|[[m|] u] T Hb HT IH]; intros a i j p n q k Hij Hi Hj; cbn [lives] in *; [done| |by eapply IH].
  destruct j as [|j]; [lia|]. cbn in Hj. destruct i as [|i]; [|by eapply (IH _ i j); [lia|..]].
  injection Hi as <- <-. apply list_elem_of_lookup_2 in Hj. destruct (lives_range T HT _ _ _ Hj). cbn in Hb. unfold HDR in *. lia.
Qed.

Lemma tend_align T : forall a, (tend a T - a) mod HDR = 0.
Proof using.
  induction T as [|[o u] T IH]; intros a; cbn [tend]; [by rewrite Z.sub_diag|]. specialize (IH (a + HDR * u)). unfold HDR in *. zlia.
Qed.

(** C15: the user allocator is safe as long as the heap stays below [KERNBASE].
    After any sequence of calls of [malloc] and [free] with any writes of the
    program to its own blocks in between, each [malloc] with room for what it may
    ask the kernel for (the end of the heap, and 32 KB or the request and two
    headers after it, below [KERNBASE]), the blocks the program has do not
    overlap, nor do the headers before them; they are in the heap, aligned, and as
    large as was asked for.  A further [malloc] there is room for returns another
    block.  [free] of any block returns.  Both leave the contents of all other
    blocks alone. *)
Theorem umalloc_safe s L :
  ureach (s, L) ->
  (forall i j p n q k, i <> j -> L !! i = Some (p, n) -> L !! j = Some (q, k) -> p + n + HDR <= q \/ q + k + HDR <= p) /\
  (forall p n, (p, n) ∈ L -> heap0 + HDR <= p /\ p + n <= brk s /\ (p - heap0) mod HDR = 0) /\
  (forall n, fits s n -> exists p s', malloc base n s = Ok (p, s') /\ p <> 0 /\ payload_same (umem s) (umem s') L) /\
  (forall L1 p n L2, L = L1 ++ (p, n) :: L2 -> exists s', free p s = Ok (tt, s') /\ payload_same (umem s) (umem s') (L1 ++ L2)).
Proof using Hgeom.
  intros Hreach. destruct (ureach_ok s L Hreach) as (T & HT & HL).
  assert (Hok : Forall blk_ok T) by (destruct HT as [HT|(_ & -> & _)]; [apply HT|done]).
  split_and!.
  - intros i j p n q k Hij Hi Hj. apply Permutation_inj in HL as (_ & f & Hinj & Hf). rewrite Hf in Hi, Hj.
    destruct (decide (f i < f j)%nat) as [Hlt|Hge]; [left; by eapply (lives_apart T Hok)|right].
    assert (f i <> f j) by (intros E; apply Hinj in E; done). eapply (lives_apart T Hok _ (f j) (f i)); [lia|done|done].
  - intros p n Hin. rewrite HL in Hin. pose proof (live_rep _ _ _ _ HT Hin) as Hr. destruct (lives_range T Hok _ _ _ Hin). rewrite (r_end _ _ Hr) in *.
    split_and!; try lia. destruct (lives_elem _ _ _ _ Hin) as (A & u & B & -> & ->). pose proof (tend_align A heap0). unfold HDR in *. zlia.
  - intros n Hn. destruct (malloc_ok s T n HT Hn) as (p & s' & R & Hp & T' & _ & _ & Hp'). exists p, s'.
    split_and!; [done|unfold HDR in *; lia|]. intros q k x Hq. apply (Hp' q k x). by rewrite <- HL.
  - intros L1 p n L2 ->. assert (Hin : (p, n) ∈ lives heap0 T) by (rewrite <- HL, elem_of_app; right; left).
    destruct (free_live s T p n (live_rep _ _ _ _ HT Hin) Hin) as (s' & T' & L & R & _ & Hl & _ & Hp). exists s'. split; [done|].
    assert (E : L1 ++ L2 ≡ₚ L) by (apply (Permutation_cons_inv (a := (p, n))); rewrite <- Hl, <- HL; apply Permutation_middle).
    intros q k x Hq. apply (Hp q k x). by rewrite <- E.
Qed.
End Heap.

(** A run: three blocks, the middle one given back, and a smaller one in its place. *)
Example run_reuses :
  match (let! a := malloc 16 100 in
         let! b := malloc 16 20 in
         let! c := malloc 16 8 in
         free b ;;!
         let! d := malloc 16 12 in
         mret (a, b, c, d)) (mkust (fun _ => 0) 0 4096) with
  | Ok (r, s) => Some (r, brk s)
  | _ => None
  end = Some (36760, 36728, 36712, 36736, 36864).
Proof. vm_compute. reflexivity. Qed.

(** Requests without room.  [sbrk] does not refuse to pass [KERNBASE], so [morecore]
    writes the header of a block there; two gigabytes make [sbrk] see a negative
    count, and the header of the block that was not made is written outside the
    memory; nearly four gigabytes wrap around to a block of one header. *)
Example morecore_past_end : morecore 1 (mkust (fun _ => 0) 16 KERNBASE) = Undef.
Proof. vm_compute. reflexivity. Qed.

Example morecore_huge_faults : morecore (units (2 ^ 31)) (mkust (fun _ => 0) 16 4096) = Undef.
Proof. vm_compute. reflexivity. Qed.

Example units_wrap : units (2 ^ 32 - 4) = 1.
Proof. reflexivity. Qed.

Lemma umalloc_safe_witness :
  exists s1 p s2, ureach 16 4096 (s1, [(p, 100)]) /\ free p s1 = Ok (tt, s2) /\ p mod 8 = 0.
Proof.
  assert (Hg : 0 < 16 /\ 16 + HDR <= 4096) by (unfold HDR; lia).
  pose proof (ur_start 16 4096 (fun _ => 0) ltac:(unfold KERNBASE; lia)) as H0.
  assert (Hfit : fits (mkust (fun _ => 0) 0 4096) 100) by (unfold fits, HDR, KERNBASE; cbn; lia).
  destruct (umalloc_safe 16 4096 Hg _ _ H0) as (_ & _ & Hm & _). destruct (Hm 100 Hfit) as (p & s1 & R & _).
  pose proof (ur_step _ _ _ _ H0 (us_malloc 16 _ _ 100 p s1 Hfit R)) as H1.
  destruct (umalloc_safe 16 4096 Hg _ _ H1) as (_ & Hin & _ & Hf).
  destruct (Hf [] p 100 [] eq_refl) as (s2 & R2 & _). destruct (Hin p 100 ltac:(left)) as (_ & _ & Ha).
  exists s1, p, s2. split; [exact H1|]. split; [exact R2|]. unfold HDR in Ha. zlia.
Defined.
