(* ===== verification/Grep.v ===== *)
(** * [grep.c]: the pattern matcher and the line buffer

    [matchhere], [matchstar] and [match_] translate the matcher; a character
    pointer is the string from it on.  [denotes] is the reference: the language
    of a pattern, read off its pieces, and [match_correct] shows that the
    matcher decides it.  [grep] is the loop that reads the input into the
    1024-byte buffer and cuts it into lines; [grep_file] shows that on a file
    it prints exactly the lines that match, and [grep_pipe_loses] that on short
    reads it does not. *)

From Stdlib Require Import ZArith Lia String Ascii.
From stdpp Require Import base numbers list.
From S2P Require Import Prelude Bytes Ulib.

Local Open Scope Z_scope.

(** ** The matcher *)

Fixpoint matchstar_at (here : list Z -> bool) (c : Z) (text : list Z) : bool :=
  here text ||
  match text with
  | t :: text' => negb (t =? 0) && ((t =? c) || (c =? ch ".")) && matchstar_at here c text'
  | [] => false
  end.

Fixpoint matchhere (re text : list Z) : bool :=
  match re with
  | [] => true
  | r0 :: re1 =>
      if r0 =? 0 then true
      else
        match re1 with
        | r1 :: re2 =>
            if r1 =? ch "*" then matchstar_at (matchhere re2) r0 text
            else if (r0 =? ch "$") && (r1 =? 0) then deref text =? 0
            else if negb (deref text =? 0) && ((r0 =? ch ".") || (r0 =? deref text))
            then matchhere re1 (tl text) else false
        | [] =>
            if r0 =? ch "$" then deref text =? 0
            else if negb (deref text =? 0) && ((r0 =? ch ".") || (r0 =? deref text))
            then matchhere re1 (tl text) else false
        end
  end.

Definition matchstar (c : Z) (re text : list Z) : bool := matchstar_at (matchhere re) c text.

Fixpoint match_from (re text : list Z) : bool :=
  matchhere re text ||
  match text with
  | t :: text' => negb (t =? 0) && match_from re text'
  | [] => false
  end.

Definition match_ (re text : list Z) : bool :=
  if deref re =? ch "^" then matchhere (tl re) text else match_from re text.

(** ** The reading loop *)

Definition BUFSZ : Z := 1024.

(** The inner loop: what it prints, and the bytes from [p] on it leaves.
    [None] is out of fuel. *)
Fixpoint grep_scan (fuel : nat) (pattern p : list Z) : option (list Z * list Z) :=
  match fuel with
  | O => None
  | S fuel' =>
      match strchr p NL with
      | None => Some ([], p)
      | Some q =>
          let line := take (length p - length q) p in
          let printed := if match_ pattern line then line ++ [NL] else [] in
          match grep_scan fuel' pattern (tl q) with
          | Some (out, rest) => Some (printed ++ out, rest)
          | None => None
          end
      end
  end.

Section reading.
  (** The most bytes the [k]-th [read] returns (0: it fails). *)
  Context (sz : nat -> Z).

(** [data] is [buf[0..m)], [input] what is still to be read. *)
Fixpoint grep_loop (fuel k : nat) (pattern data input : list Z) : option (list Z) :=
  match fuel with
  | O => None
  | S fuel' =>
      let n := Z.to_nat (Z.min (sz k) (BUFSZ - Z.of_nat (length data) - 1)) in
      match take n input with
      | [] => Some []
      | got =>
          let buf := data ++ got in
          match grep_scan (S (length buf)) pattern buf with
          | None => None
          | Some (out, p) =>
              let data' := if (length p =? length buf)%nat then [] else p in
              match grep_loop fuel' (S k) pattern data' (drop n input) with
              | None => None
              | Some out' => Some (out ++ out')
              end
          end
      end
  end.

Definition grep (pattern input : list Z) : option (list Z) :=
  grep_loop (S (length input)) 0 pattern [] input.

(** [main], over the contents of the files [open] finds.  The writes, each with
    its descriptor. *)
Definition usage_msg : list Z := chars "usage: grep pattern [file ...]" ++ [NL].

Fixpoint grep_files (open : list Z -> option (list Z)) (pattern : list Z) (names : list (list Z))
  : option (list (Z * list Z)) :=
  match names with
  | [] => Some []
  | name :: names' =>
      match open name with
      | None =>
          match printf (fun _ => name) (chars "grep: cannot open %s" ++ [NL]) [1] with
          | Some msg => Some [(1, msg)]
          | None => None
          end
      | Some contents =>
          match grep pattern contents, grep_files open pattern names' with
          | Some out, Some rest => Some ((1, out) :: rest)
          | _, _ => None
          end
      end
  end.

Definition grep_main (open : list Z -> option (list Z)) (stdin : list Z) (argv : list (list Z))
  : option (list (Z * list Z)) :=
  match argv with
  | [] | [_] => Some [(2, usage_msg)]
  | [_; pattern] =>
      match grep pattern stdin with Some out => Some [(1, out)] | None => None end
  | _ :: pattern :: names => grep_files open pattern names
  end.
End reading.

(** ** The language of a pattern *)

Inductive piece : Type :=
| One (c : Z)
| Star (c : Z).

(** The pieces of a pattern, and whether it ends in the anchor [$]. *)
Fixpoint pieces (re : list Z) : list piece * bool :=
  match re with
  | [] => ([], false)
  | c :: re1 =>
      match re1 with
      | [] => if c =? ch "$" then ([], true) else ([One c], false)
      | d :: re2 =>
          if d =? ch "*" then let '(ps, e) := pieces re2 in (Star c :: ps, e)
          else let '(ps, e) := pieces re1 in (One c :: ps, e)
      end
  end.

Definition char_ok (c t : Z) : Prop := c = ch "." \/ c = t.

Inductive denotes : list piece -> list Z -> Prop :=
| denotes_nil : denotes [] []
| denotes_one c t ps s : char_ok c t -> denotes ps s -> denotes (One c :: ps) (t :: s)
| denotes_star c ps s1 s2 : Forall (char_ok c) s1 -> denotes ps s2 -> denotes (Star c :: ps) (s1 ++ s2).

(** [text] has a prefix the pattern denotes, the whole of it under [$]. *)
Definition prefix_in (re text : list Z) : Prop :=
  exists s1 s2, text = s1 ++ s2 /\ denotes (fst (pieces re)) s1 /\ (snd (pieces re) = true -> s2 = []).

(** Some part of [text] is in the language of the pattern; a leading [^] ties
    it to the start. *)
Definition matches (re text : list Z) : Prop :=
  match re with
  | c :: re' =>
      if c =? ch "^" then prefix_in re' text
      else exists pre post, text = pre ++ post /\ prefix_in re post
  | [] => True
  end.

Lemma char_ok_bool c t : (t =? c) || (c =? ch ".") = true <-> char_ok c t.
Proof.
  unfold char_ok. destruct (Z.eqb_spec t c), (Z.eqb_spec c (ch ".")); simpl; split; intuition congruence.
Qed.

Lemma matchstar_spec here c text :
  nul_free text ->
  matchstar_at here c text = true <->
  exists s1 s2, text = s1 ++ s2 /\ Forall (char_ok c) s1 /\ here s2 = true.
Proof.
  induction 1 as [|t text [Ht _] Htext IH]; cbn [matchstar_at]; rewrite orb_true_iff.
  - split.
    + intros [H|H]; [|done]. by exists [], [].
    + intros (s1 & s2 & E & _ & H). left. by destruct s1, s2.
  - rewrite andb_true_iff, andb_true_iff, negb_true_iff, Z.eqb_neq, char_ok_bool, IH. split.
    + intros [H|[[_ Hc] (s1 & s2 & -> & Hs & H)]]; [by exists [], (t :: text)|].
      exists (t :: s1), s2. split; [done|]. split; [by constructor|done].
    + intros (s1 & s2 & E & Hs & H). destruct s1 as [|t' s1]; [left; by simplify_eq/=|].
      injection E as <- ->. apply Forall_cons in Hs as [Hc Hs]. right. eauto 10.
Qed.

Lemma denotes_nil_inv s : denotes [] s -> s = [].
Proof. inversion 1. done. Qed.

Lemma denotes_one_inv c ps s : denotes (One c :: ps) s -> exists t s', s = t :: s' /\ char_ok c t /\ denotes ps s'.
Proof. inversion 1; subst. eauto. Qed.

Lemma denotes_star_inv c ps s :
  denotes (Star c :: ps) s -> exists s1 s2, s = s1 ++ s2 /\ Forall (char_ok c) s1 /\ denotes ps s2.
Proof. inversion 1; subst. eauto 10. Qed.

Lemma prefix_one re c re1 text :
  pieces re = (One c :: fst (pieces re1), snd (pieces re1)) ->
  prefix_in re text <-> exists t text', text = t :: text' /\ char_ok c t /\ prefix_in re1 text'.
Proof.
  intros E. unfold prefix_in. rewrite E. cbn [fst snd]. split.
  - intros (s1 & s2 & -> & H & He). apply denotes_one_inv in H as (t & s' & -> & Hc & H).
    exists t, (s' ++ s2). eauto 10.
  - intros (t & text' & -> & Hc & s1 & s2 & -> & H & He). exists (t :: s1), s2.
    split; [done|]. split; [by constructor|done].
Qed.

Lemma prefix_star re c re2 text :
  pieces re = (Star c :: fst (pieces re2), snd (pieces re2)) ->
  prefix_in re text <-> exists s1 s2, text = s1 ++ s2 /\ Forall (char_ok c) s1 /\ prefix_in re2 s2.
Proof.
  intros E. unfold prefix_in. rewrite E. cbn [fst snd]. split.
  - intros (s1 & s2 & -> & H & He). apply denotes_star_inv in H as (a & b & -> & Hc & H).
    exists a, (b ++ s2). rewrite app_assoc. eauto 10.
  - intros (a & b' & -> & Hc & b & s2 & -> & H & He). exists (a ++ b), s2.
    rewrite app_assoc. split; [done|]. split; [by constructor|done].
Qed.

(** The step of [matchhere] on an ordinary character. *)
Lemma match_one_char c re1 text :
  nul_free text ->
  (forall text', nul_free text' -> matchhere re1 text' = true <-> prefix_in re1 text') ->
  (if negb (deref text =? 0) && ((c =? ch ".") || (c =? deref text)) then matchhere re1 (tl text) else false)
    = true <-> exists t text', text = t :: text' /\ char_ok c t /\ prefix_in re1 text'.
Proof.
  intros Ht IH. rewrite orb_comm, (Z.eqb_sym c (deref text)). destruct text as [|t text].
  - cbn. split; [done|]. by intros (? & ? & ? & _).
  - apply Forall_cons in Ht as [[Ht0 _] Ht]. unfold deref; cbn [hd tl].
    rewrite (proj2 (Z.eqb_neq t 0) Ht0). cbn [negb andb].
    destruct ((t =? c) || (c =? ch ".")) eqn:E.
    + apply char_ok_bool in E. rewrite IH by done. split; [eauto|].
      intros (? & ? & [= <- <-] & _ & H). done.
    + split; [done|]. intros (? & ? & [= <- <-] & Hc & _). apply char_ok_bool in Hc. congruence.
Qed.

Lemma matchhere_end text re : nul_free text -> pieces re = ([], true) -> (deref text =? 0) = true <-> prefix_in re text.
Proof.
  intros Ht E. rewrite Z.eqb_eq. unfold prefix_in. rewrite E. cbn [fst snd]. split.
  - intros H. destruct Ht as [|t text [Ht0 _] Ht]; [|done]. exists [], []. split; [done|]. split; [constructor|done].
  - intros (s1 & s2 & -> & H & He). apply denotes_nil_inv in H as ->. by rewrite He.
Qed.

Lemma pieces_cons2 c d re2 :
  pieces (c :: d :: re2) =
  if d =? ch "*" then (Star c :: fst (pieces re2), snd (pieces re2))
  else (One c :: fst (pieces (d :: re2)), snd (pieces (d :: re2))).
Proof.
  cbn [pieces]. destruct (d =? ch "*"); [by destruct (pieces re2)|].
  by destruct (match re2 with [] => _ | _ => _ end).
Qed.

Lemma matchhere_cons2 c d re2 text :
  c <> 0 -> d <> 0 ->
  matchhere (c :: d :: re2) text =
  if d =? ch "*" then matchstar_at (matchhere re2) c text
  else if negb (deref text =? 0) && ((c =? ch ".") || (c =? deref text))
  then matchhere (d :: re2) (tl text) else false.
Proof.
  intros Hc Hd. change (matchhere (c :: d :: re2) text) with
    (if c =? 0 then true else if d =? ch "*" then matchstar_at (matchhere re2) c text
     else if (c =? ch "$") && (d =? 0) then deref text =? 0
     else if negb (deref text =? 0) && ((c =? ch ".") || (c =? deref text))
          then matchhere (d :: re2) (tl text) else false).
  rewrite (proj2 (Z.eqb_neq c 0) Hc). destruct (d =? ch "*"); [done|].
  rewrite (proj2 (Z.eqb_neq d 0) Hd). by rewrite andb_false_r.
Qed.

Lemma matchhere_spec re text :
  nul_free re -> nul_free text -> matchhere re text = true <-> prefix_in re text.
Proof.
  revert text. induction re as [re IH] using (induction_ltof1 _ (@length Z)). unfold ltof in IH.
  intros text Hre Htext. destruct re as [|c re1].
  - cbn. split; [|done]. intros _. exists [], text. split; [done|]. split; [constructor|done].
  - apply Forall_cons in Hre as [[Hc _] Hre]. destruct re1 as [|d re2].
    + cbn [matchhere]. rewrite (proj2 (Z.eqb_neq c 0) Hc). destruct (Z.eqb_spec c (ch "$")) as [->|Hne].
      * by apply matchhere_end.
      * rewrite (prefix_one _ c []) by (cbn; by rewrite (proj2 (Z.eqb_neq _ _) Hne)).
        apply (match_one_char c [] text Htext). intros. apply IH; [simpl; lia|constructor|done].
    + pose proof Hre as [[Hd _] Hre2]%Forall_cons. pose proof (pieces_cons2 c d re2) as Ep.
      rewrite matchhere_cons2 by done. destruct (Z.eqb_spec d (ch "*")) as [->|Hne].
      * rewrite (prefix_star _ _ _ _ Ep), matchstar_spec by done.
        split; intros (s1 & s2 & -> & Hs & H); exists s1, s2; repeat split; try done.
        all: apply (IH re2); [simpl; lia|done| |done]; by apply Forall_app in Htext as [_ ?].
      * rewrite (prefix_one _ _ _ _ Ep).
        apply (match_one_char c (d :: re2) text Htext). intros. apply IH; [simpl; lia|done|done].
Qed.

Lemma match_from_spec re text :
  nul_free re -> nul_free text ->
  match_from re text = true <-> exists pre post, text = pre ++ post /\ prefix_in re post.
Proof.
  intros Hre. induction 1 as [|t text [Ht0 Htb] Htext IH]; cbn [match_from]; rewrite orb_true_iff.
  - rewrite matchhere_spec by (done || constructor). split.
    + intros [H|H]; [|done]. by exists [], [].
    + intros (pre & post & E & H). left. by destruct pre, post.
  - rewrite matchhere_spec by (done || by constructor). rewrite andb_true_iff, negb_true_iff, Z.eqb_neq, IH. split.
    + intros [H|(_ & pre & post & -> & H)]; [by exists [], (t :: text)|by exists (t :: pre), post].
    + intros ([|t' pre] & post & E & H); [left; by simplify_eq/=|]. injection E as <- ->. right. eauto.
Qed.

(** C21: the matcher of grep is equivalent to the language of the pattern: for
    every pattern and every line without NUL bytes, [match_] answers true
    exactly when some part of the line (its start under a leading [^], its end
    under a trailing [$]) is a string the pieces of the pattern denote, where
    [c*] stands for any number of [c] and [.] for any character. *)
Theorem match_correct re text :
  nul_free re -> nul_free text -> match_ re text = true <-> matches re text.
Proof.
  intros Hre Htext. unfold match_, matches. destruct re as [|c re].
  - change (match_from [] text = true <-> True). rewrite match_from_spec by done. split; [done|]. intros _. exists [], text. split; [done|].
    exists [], text. split; [done|]. split; [constructor|done].
  - pose proof Hre as [_ Hre']%Forall_cons. unfold deref; cbn [hd].
    destruct (c =? ch "^"); [by apply matchhere_spec|by apply match_from_spec].
Qed.

Lemma match_correct_witness :
  match_ (chars "^ab*.d$") (chars "abbcd") = true /\ matches (chars "^ab*.d$") (chars "abbcd").
Proof.
  split; [reflexivity|]. apply match_correct; [..|reflexivity]; by apply (bool_decide_unpack _).
Defined.

(** ** Lines *)

(** The lines of [s], given the start [cur] of the first one, and what follows
    the last newline. *)
Fixpoint lines_of (cur s : list Z) : list (list Z) * list Z :=
  match s with
  | [] => ([], cur)
  | c :: s' =>
      if c =? NL then let '(ls, t) := lines_of [] s' in (cur :: ls, t) else lines_of (cur ++ [c]) s'
  end.

Definition printed (pattern : list Z) (ls : list (list Z)) : list Z :=
  concat (map (fun l => if match_ pattern l then l ++ [NL] else []) ls).

Lemma lines_of_app cur a b :
  lines_of cur (a ++ b) =
  (fst (lines_of cur a) ++ fst (lines_of (snd (lines_of cur a)) b), snd (lines_of (snd (lines_of cur a)) b)).
Proof.
  revert cur. induction a as [|c a IH]; intros cur; simpl; [by destruct (lines_of cur b)|].
  destruct (c =? NL); [|apply IH]. rewrite IH. by destruct (lines_of [] a).
Qed.

Lemma lines_of_none cur s : NL ∉ s -> lines_of cur s = ([], cur ++ s).
Proof.
  revert cur. induction s as [|c s IH]; intros cur H; simpl; [by rewrite app_nil_r|].
  apply not_elem_of_cons in H as [Hc H]. rewrite (proj2 (Z.eqb_neq c NL)) by congruence.
  rewrite IH by done. by rewrite <- app_assoc.
Qed.

Lemma lines_of_first l s : NL ∉ l -> lines_of [] (l ++ NL :: s) = (l :: fst (lines_of [] s), snd (lines_of [] s)).
Proof. intros H. rewrite lines_of_app, (lines_of_none [] l) by done. simpl. by destruct (lines_of [] s). Qed.

Lemma lines_of_tail cur s : NL ∉ cur -> NL ∉ snd (lines_of cur s).
Proof.
  revert cur. induction s as [|c s IH]; intros cur H; simpl; [done|].
  destruct (Z.eqb_spec c NL) as [|Hc].
  - specialize (IH [] ltac:(apply not_elem_of_nil)). by destruct (lines_of [] s).
  - apply IH. rewrite elem_of_app, list_elem_of_singleton. intuition congruence.
Qed.

(** The lines of a text that has a newline start with what precedes it. *)
Lemma lines_of_long cur s :
  fst (lines_of cur s) = [] \/ exists l ls, fst (lines_of cur s) = l :: ls /\ (length cur <= length l)%nat.
Proof.
  revert cur. induction s as [|c s IH]; intros cur; simpl; [by left|].
  destruct (c =? NL).
  - right. destruct (lines_of [] s). simpl. eauto.
  - destruct (IH (cur ++ [c])) as [H|(l & ls & H & Hl)]; [by left|right].
    exists l, ls. split; [done|]. rewrite length_app in Hl. lia.
Qed.

Lemma lines_of_nil_any cur cur' s : fst (lines_of cur s) = [] -> fst (lines_of cur' s) = [].
Proof.
  revert cur cur'. induction s as [|c s IH]; intros cur cur' H; simpl in *; [done|].
  destruct (c =? NL); [by destruct (lines_of [] s)|]. eapply IH, H.
Qed.

Lemma tail_shorter s : fst (lines_of [] s) <> [] -> (length (snd (lines_of [] s)) < length s)%nat.
Proof.
  assert (H : forall s cur, (length (snd (lines_of cur s)) <= length cur + length s)%nat /\
                       (fst (lines_of cur s) <> [] -> (length (snd (lines_of cur s)) < length cur + length s)%nat)).
  { clear. induction s as [|c s IH]; intros cur; simpl; [split; [lia|done]|].
    destruct (c =? NL).
    - destruct (IH []) as [H _]. destruct (lines_of [] s); simpl in *. lia.
    - destruct (IH (cur ++ [c])) as [H1 H2]. rewrite length_app in *; simpl in *. split; [lia|]. intros H.
      specialize (H2 H). lia. }
  intros Hs. destruct (H s []) as [_ H']. simpl in H'. auto.
Qed.

(** The inner loop prints the matching lines of the buffer and stops at the
    unfinished one. *)
Lemma grep_scan_spec fuel pattern p :
  nul_free p -> (length p < fuel)%nat ->
  grep_scan fuel pattern p = Some (printed pattern (fst (lines_of [] p)), snd (lines_of [] p)).
Proof.
  revert p. induction fuel as [|fuel IH]; intros p Hp Hf; [lia|]. cbn [grep_scan].
  pose proof (strchr_split p NL Hp) as Hs. destruct (strchr p NL) as [q|].
  - destruct Hs as (l & -> & Hl & Hq). destruct q as [|c q]; [done|]. injection Hq as ->.
    apply Forall_app in Hp as [Hl0 [_ Hq0]%Forall_cons]. cbn [tl].
    rewrite length_app, Nat.add_sub, take_app_length. rewrite length_app in Hf; simpl in Hf.
    rewrite IH by (done || lia). rewrite lines_of_first by done. cbn [fst snd]. done.
  - by rewrite lines_of_none.
Qed.

Lemma printed_app pattern a b : printed pattern (a ++ b) = printed pattern a ++ printed pattern b.
Proof. unfold printed. by rewrite map_app, concat_app. Qed.

(** A line that, with its newline, fits the buffer. *)
Definition fits (l : list Z) : Prop := Z.of_nat (length l) + 1 <= BUFSZ - 1.

(** The invariant of the reading loop: [data] is the start of an unfinished
    line, shorter than the buffer. *)
Record loop_inv (data input : list Z) : Prop := {
  li_nul : nul_free (data ++ input);
  li_line : NL ∉ data;
  li_room : Z.of_nat (length data) <= BUFSZ - 2;
  li_fits : Forall fits (fst (lines_of [] (data ++ input)))
}.

(** The bytes one read adds: the buffer is full or the input is used up. *)
Lemma read_fills (data input : list Z) n :
  Z.of_nat (length data) <= BUFSZ - 2 -> n = Z.to_nat (BUFSZ - Z.of_nat (length data) - 1) ->
  (0 < n)%nat /\ (length (data ++ take n input) <= Z.to_nat (BUFSZ - 1))%nat /\
  (length (data ++ take n input) = Z.to_nat (BUFSZ - 1) \/ drop n input = []).
Proof.
  intros Hd ->. split; [lia|]. split; [rewrite length_app, length_take; lia|]. set (n := Z.to_nat _).
  destruct (Nat.le_gt_cases (length input) n) as [H|H].
  - right. by apply drop_ge.
  - left. rewrite length_app, length_take. lia.
Qed.

(** When the buffer has no newline in it and is dropped, no line is lost. *)
Lemma drop_harmless buf rest :
  NL ∉ buf -> length buf = Z.to_nat (BUFSZ - 1) \/ rest = [] ->
  Forall fits (fst (lines_of [] (buf ++ rest))) ->
  fst (lines_of [] (buf ++ rest)) = [] /\ fst (lines_of [] rest) = [].
Proof.
  intros Hb Hf Hl. rewrite lines_of_app, (lines_of_none [] buf) in * by done. cbn [fst snd app] in *.
  destruct Hf as [Hf| ->]; [|done].
  destruct (lines_of_long buf rest) as [E|(l & ls & E & Hlen)].
  - rewrite E. split; [done|]. by eapply lines_of_nil_any.
  - rewrite E in Hl. apply Forall_cons in Hl as [Hl _]. unfold fits, BUFSZ in *. lia.
Qed.

Lemma lines_of_forall P cur s : Forall P cur -> Forall P s -> Forall P (snd (lines_of cur s)).
Proof.
  revert cur. induction s as [|c s IH]; intros cur Hc Hs; simpl; [done|].
  apply Forall_cons in Hs as [Hc0 Hs]. destruct (c =? NL).
  - specialize (IH [] (Forall_nil_2 _) Hs). by destruct (lines_of [] s).
  - apply IH; [|done]. apply Forall_app. split; [done|]. by constructor.
Qed.

Lemma lines_of_in s : NL ∈ s -> fst (lines_of [] s) <> [].
Proof.
  intros (a & b & ->)%list_elem_of_split. rewrite lines_of_app. cbn [fst snd].
  destruct (fst (lines_of [] a)); [|done]. cbn [lines_of app].
  change (NL =? NL) with true. cbn. by destruct (lines_of [] b).
Qed.

(** One round: what it keeps satisfies the invariant, and what it prints and
    what is left make up what there was to print. *)
Lemma grep_round pattern data got rest (buf := data ++ got) (t := snd (lines_of [] buf))
  (data' := if (length t =? length buf)%nat then [] else t) :
  loop_inv data (got ++ rest) -> (length buf <= Z.to_nat (BUFSZ - 1))%nat ->
  length buf = Z.to_nat (BUFSZ - 1) \/ rest = [] ->
  loop_inv data' rest /\
  printed pattern (fst (lines_of [] (data ++ got ++ rest))) =
    printed pattern (fst (lines_of [] buf)) ++ printed pattern (fst (lines_of [] (data' ++ rest))).
Proof.
  intros [Hn Hl Hr Hf] Hlen Hfill. rewrite app_assoc in *. fold buf in Hn, Hf |- *.
  apply Forall_app in Hn as [Hbuf Hrest]. destruct (decide (NL ∈ buf)) as [Hin|Hout].
  - pose proof (tail_shorter _ (lines_of_in _ Hin)) as Hts. fold t in Hts.
    subst data'. rewrite (proj2 (Nat.eqb_neq _ _)) by lia.
    assert (Ht : NL ∉ t) by (apply lines_of_tail, not_elem_of_nil).
    assert (Et : lines_of [] (t ++ rest) = lines_of t rest).
    { rewrite lines_of_app, lines_of_none by done. cbn. by destruct (lines_of t rest). }
    rewrite lines_of_app in Hf |- *. cbn [fst snd] in *. fold t in Hf |- *.
    apply Forall_app in Hf as [_ Hf]. split; [constructor|].
    + apply Forall_app. split; [|done]. by apply lines_of_forall.
    + done.
    + unfold BUFSZ in *. lia.
    + by rewrite Et.
    + by rewrite printed_app, Et.
  - destruct (drop_harmless _ _ Hout Hfill Hf) as [E1 E2].
    subst data' t. rewrite (lines_of_none [] buf) by done. cbn [fst snd app]. rewrite Nat.eqb_refl, E1.
    cbn [app]. rewrite E2. split; [constructor; cbn [app]|done].
    + done.
    + apply not_elem_of_nil.
    + unfold BUFSZ. simpl. lia.
    + by rewrite E2.
Qed.

Lemma grep_loop_file sz fuel k pattern data input :
  (forall k, BUFSZ - 1 <= sz k) -> loop_inv data input -> (length input < fuel)%nat ->
  grep_loop sz fuel k pattern data input = Some (printed pattern (fst (lines_of [] (data ++ input)))).
Proof.
  intros Hsz. revert k data input. induction fuel as [|fuel IH]; intros k data input Hinv Hfuel; [lia|].
  cbn [grep_loop]. rewrite Z.min_r by (pose proof (li_room _ _ Hinv); specialize (Hsz k); lia).
  set (n := Z.to_nat _). destruct (read_fills data input n (li_room _ _ Hinv) eq_refl) as (Hn0 & Hlen & Hfill).
  rewrite <- (take_drop n input) in Hinv. 
  replace (data ++ input) with (data ++ take n input ++ drop n input) by (by rewrite take_drop).
  destruct (take n input) as [|c got] eqn:Egot.
  - destruct n; [lia|]. destruct input; [|done]. destruct Hinv.
    rewrite drop_nil, !app_nil_r, lines_of_none by done. done.
  - destruct (grep_round pattern data (c :: got) (drop n input) Hinv Hlen Hfill) as [Hinv' Hout].
    rewrite grep_scan_spec; [|by destruct Hinv as [H _ _ _]; rewrite app_assoc in H; apply Forall_app in H as [? _]|lia].
    assert (Hshort : (length (drop n input) < fuel)%nat).
    { rewrite length_drop. destruct input; [by rewrite take_nil in Egot|]. simpl in *. lia. }
    cbv zeta. cbn [fst snd]. rewrite IH by done. by rewrite Hout.
Qed.

(** grep on a file prints exactly the lines that match: when [read] returns
    as much as it is asked for, there are no NUL bytes and each line fits the
    buffer with its newline, the loop ends and prints, in order, every line the
    matcher accepts, and nothing else. *)
Theorem grep_file sz pattern input :
  (forall k, BUFSZ - 1 <= sz k) -> nul_free input -> Forall fits (fst (lines_of [] input)) ->
  grep sz pattern input = Some (printed pattern (fst (lines_of [] input))).
Proof.
  intros Hsz Hn Hf. apply (grep_loop_file sz _ 0 pattern []); [done| |lia].
  constructor; [done|apply not_elem_of_nil|unfold BUFSZ; simpl; lia|done].
Qed.

Definition two_lines : list Z := chars "one" ++ [NL] ++ chars "two" ++ [NL] ++ chars "end".

Lemma grep_file_witness : grep (fun _ => 1023) (chars "^t") two_lines = Some (chars "two" ++ [NL]).
Proof.
  rewrite grep_file; [reflexivity|unfold BUFSZ; lia|by apply (bool_decide_unpack _)|].
  repeat constructor; compute; discriminate.
Defined.

(** The buffer is emptied whenever it holds no newline, even when it is not
    full.  A line that arrives in two reads, as from a pipe or the console,
    loses its first part: here [abc] arrives as [a] and [bc], and neither is
    it found nor does [^bc] fail to match. *)
Example grep_pipe_loses :
  grep (fun _ => 1) (chars "abc") (chars "abc" ++ [NL]) = Some [] /\
  grep (fun k => if (k =? 0)%nat then 1 else 3) (chars "^bc") (chars "abc" ++ [NL]) = Some (chars "bc" ++ [NL]).
Proof. split; reflexivity. Qed.
