(* ===== verification/Shell.v ===== *)
(** * [sh.c]: the shell

    The parser works on one line of input, [buf], whose end [es] is the NUL
    after it; a pointer into the line is an index.  The commands it builds live
    in a heap of nodes, one per call of [malloc], and a [struct cmd *] is the
    number of its node: [parseexec] fills the [execcmd] it allocated while
    [parseredirs] already hands out [redircmd]s that point to it, so the nodes
    are shared and updated in place as in the code.  [malloc] is assumed to
    succeed, as the code assumes.  The calls of [panic], which print a message
    and leave the process, are [Panic] outcomes.

    [runcmd] and [main] are trees of system calls ([prog]). *)

From Stdlib Require Import ZArith Lia String Ascii.
From stdpp Require Import base numbers list.
From S2P Require Import Prelude Params Bytes Kalloc Vm Proc Trap Ulib.

Local Open Scope Z_scope.
Local Open Scope kernel_scope.

(** ** Commands *)

Definition MAXARGS : nat := 10.

Inductive node : Type :=
| EXEC (argv eargv : list (option nat))
| REDIR (cmd file efile : nat) (mode fd : Z)
| PIPE (left right : nat)
| LIST (left right : nat)
| BACK (cmd : nat).

(** The state of the parser: [*ps] and the heap. *)
Record ps : Type := mkps { pos : nat; heap : list node }.

Definition malloc_node (n : node) : M ps nat :=
  fun s => Ok (length (heap s), mkps (pos s) (heap s ++ [n])).

Definition execcmd : M ps nat := malloc_node (EXEC (replicate MAXARGS None) (replicate MAXARGS None)).
Definition redircmd (subcmd file efile : nat) (mode fd : Z) : M ps nat :=
  malloc_node (REDIR subcmd file efile mode fd).
Definition pipecmd (left right : nat) : M ps nat := malloc_node (PIPE left right).
Definition listcmd (left right : nat) : M ps nat := malloc_node (LIST left right).
Definition backcmd (subcmd : nat) : M ps nat := malloc_node (BACK subcmd).

(** ** Parsing *)

Definition whitespace : list Z := [32; 9; 13; 10; 11].
Definition symbols : list Z := chars "<|>&;()".

(** [strchr(set, c)] as a truth value. *)
Definition in_set (set : list Z) (c : Z) : bool :=
  match strchr set c with Some _ => true | None => false end.

(** How many characters at the head of [l] satisfy [f]. *)
Fixpoint span (f : Z -> bool) (l : list Z) : nat :=
  match l with
  | c :: l' => if f c then S (span f l') else O
  | [] => O
  end.

Section parser.
  Context (buf : list Z).

Definition at_ (s : nat) : Z := nth s buf 0.

(** [while(s < es && strchr(whitespace, *s)) s++;] *)
Definition skip (s : nat) : nat := (s + span (in_set whitespace) (drop s buf))%nat.

(** [while(s < es && !strchr(whitespace, *s) && !strchr(symbols, *s)) s++;] *)
Definition word_char (c : Z) : bool := negb (in_set whitespace c) && negb (in_set symbols c).
Definition word_end (s : nat) : nat := (s + span word_char (drop s buf))%nat.

(** The token at [s] and where it ends. *)
Definition token (s : nat) : Z * nat :=
  let c := at_ s in
  if c =? 0 then (c, s)
  else if in_set (chars "|();&<") c then (c, S s)
  else if c =? ch ">" then if at_ (S s) =? ch ">" then (ch "+", S (S s)) else (c, S s)
  else (ch "a", word_end s).

(** Returns the token with [*q] and [*eq]. *)
Definition gettoken : M ps (Z * nat * nat) :=
  fun s =>
    let q := skip (pos s) in
    let '(ret, eq) := token q in
    Ok ((ret, q, eq), mkps (skip eq) (heap s)).

Definition peek (toks : list Z) : M ps bool :=
  fun s =>
    let p := skip (pos s) in
    Ok (negb (at_ p =? 0) && in_set toks (at_ p), mkps p (heap s)).

Definition es : nat := length buf.

Fixpoint parseredirs_loop (n : nat) (cmd : nat) : M ps nat :=
  match n with
  | O => mnofuel
  | S n' =>
      let! more := peek (chars "<>") in
      if more then
        let! (tok, _, _) := gettoken in
        let! (t, q, eq) := gettoken in
        if negb (t =? ch "a") then mpanic "missing file for redirection"
        else
          let! cmd' :=
            (if tok =? ch "<" then redircmd cmd q eq O_RDONLY 0
             else if tok =? ch ">" then redircmd cmd q eq (Z.lor O_WRONLY O_CREATE) 1
             else if tok =? ch "+" then redircmd cmd q eq (Z.lor O_WRONLY O_CREATE) 1
             else mret cmd) in
          parseredirs_loop n' cmd'
      else mret cmd
  end.
Definition parseredirs (cmd : nat) : M ps nat := parseredirs_loop (S es) cmd.

(** [cmd->argv[argc] = v; cmd->eargv[argc] = e;] *)
Definition set_arg (cmd argc : nat) (v e : option nat) : M ps unit :=
  fun s =>
    match heap s !! cmd with
    | Some (EXEC argv eargv) =>
        if (argc <? MAXARGS)%nat
        then Ok (tt, mkps (pos s) (<[cmd := EXEC (<[argc := v]> argv) (<[argc := e]> eargv)]> (heap s)))
        else Undef
    | _ => Undef
    end.

Fixpoint parseargs_loop (n : nat) (cmd argc ret : nat) : M ps nat :=
  match n with
  | O => mnofuel
  | S n' =>
      let! stop := peek (chars "|)&;") in
      if stop then set_arg cmd argc None None ;;! mret ret
      else
        let! (tok, q, eq) := gettoken in
        if tok =? 0 then set_arg cmd argc None None ;;! mret ret
        else if negb (tok =? ch "a") then mpanic "syntax"
        else
          set_arg cmd argc (Some q) (Some eq) ;;!
          if (MAXARGS <=? S argc)%nat then mpanic "too many args"
          else
            let! ret' := parseredirs ret in
            parseargs_loop n' cmd (S argc) ret'
  end.

(** [while(peek(ps, es, "&"))] of [parseline]. *)
Fixpoint parseback_loop (n : nat) (cmd : nat) : M ps nat :=
  match n with
  | O => mnofuel
  | S n' =>
      let! more := peek (chars "&") in
      if more then
        gettoken ;;!
        let! cmd' := backcmd cmd in
        parseback_loop n' cmd'
      else mret cmd
  end.

Fixpoint parseline (fuel : nat) : M ps nat :=
  match fuel with
  | O => mnofuel
  | S fuel' =>
      let! cmd := parsepipe fuel' in
      let! cmd := parseback_loop (S es) cmd in
      let! more := peek (chars ";") in
      if more then
        gettoken ;;!
        let! rcmd := parseline fuel' in
        listcmd cmd rcmd
      else mret cmd
  end
with parsepipe (fuel : nat) : M ps nat :=
  match fuel with
  | O => mnofuel
  | S fuel' =>
      let! cmd := parseexec fuel' in
      let! more := peek (chars "|") in
      if more then
        gettoken ;;!
        let! rcmd := parsepipe fuel' in
        pipecmd cmd rcmd
      else mret cmd
  end
with parseblock (fuel : nat) : M ps nat :=
  match fuel with
  | O => mnofuel
  | S fuel' =>
      let! more := peek (chars "(") in
      if negb more then mpanic "parseblock"
      else
        gettoken ;;!
        let! cmd := parseline fuel' in
        let! more := peek (chars ")") in
        if negb more then mpanic "syntax - missing )"
        else
          gettoken ;;!
          parseredirs cmd
  end
with parseexec (fuel : nat) : M ps nat :=
  match fuel with
  | O => mnofuel
  | S fuel' =>
      let! more := peek (chars "(") in
      if more then parseblock fuel'
      else
        let! cmd := execcmd in
        let! ret := parseredirs cmd in
        parseargs_loop (S es) cmd 0 ret
  end.

(** Each nested block, pipe or list costs at most four calls and starts with a
    character of its own. *)
Definition parse_fuel : nat := (4 * S es)%nat.

(** [parsecmd] up to the call of [nulterminate]. *)
Definition parsetree : M ps nat :=
  let! cmd := parseline parse_fuel in
  peek [] ;;!
  let! p := mget pos in
  if (p =? es)%nat then mret cmd else mpanic "syntax".
End parser.

(** [for(i=0; ecmd->argv[i]; i++) *ecmd->eargv[i] = 0;]: the positions it
    writes; [None] if it runs past the arrays or follows a null [eargv]. *)
Fixpoint nul_args (argv eargv : list (option nat)) : option (list nat) :=
  match argv, eargv with
  | None :: _, _ => Some []
  | Some _ :: argv', Some e :: eargv' =>
      match nul_args argv' eargv' with Some l => Some (e :: l) | None => None end
  | _, _ => None
  end.

(** [*p = 0;] in the line; its NUL may be written again. *)
Definition nul_at (b : list Z) (p : nat) : outcome (list Z) :=
  if (p <=? length b)%nat then Ok (<[p := 0]> b) else Undef.

Fixpoint nul_all (b : list Z) (l : list nat) : outcome (list Z) :=
  match l with
  | [] => Ok b
  | p :: l' => obind (nul_at b p) (fun b' => nul_all b' l')
  end.

Fixpoint nulterminate (fuel : nat) (h : list node) (cmd : nat) (b : list Z) : outcome (list Z) :=
  match fuel with
  | O => NoFuel
  | S fuel' =>
      match h !! cmd with
      | None => Undef
      | Some (EXEC argv eargv) =>
          match nul_args argv eargv with Some l => nul_all b l | None => Undef end
      | Some (REDIR c _ efile _ _) => obind (nulterminate fuel' h c b) (fun b' => nul_at b' efile)
      | Some (PIPE l r) | Some (LIST l r) =>
          obind (nulterminate fuel' h l b) (fun b' => nulterminate fuel' h r b')
      | Some (BACK c) => nulterminate fuel' h c b
      end
  end.

(** The command and the heap and line it points into. *)
Definition parsecmd (s : list Z) : outcome (nat * list node * list Z) :=
  obind (parsetree s (mkps 0 [])) (fun '(cmd, st) =>
    obind (nulterminate (S cmd) (heap st) cmd s) (fun b => Ok (cmd, heap st, b))).

(** ** Running commands

    What a process of the shell does: a tree of system calls, branching on
    their results.  [Fork child parent] is the call of [fork1]: [parent] runs
    on with the pid, or [None] when [fork] fails, and the child runs [child]. *)
Inductive prog : Type :=
| Exit (status : Z)
| Exec (path : list Z) (argv : list (list Z)) (failed : prog)
| Close (fd : Z) (k : prog)
| Open (path : list Z) (mode : Z) (k : Z -> prog)
| Dup (fd : Z) (k : prog)
| Pipe (k : option (Z * Z) -> prog)
| Fork (child : prog) (parent : option Z -> prog)
| Wait (k : Z -> prog)
| Chdir (path : list Z) (k : Z -> prog)
| Print (fd : Z) (msg : list Z) (k : prog)
| Gets (max : Z) (k : list Z -> prog)
| Stuck.

(** [printf], with the arguments that are strings given as such. *)
Definition print_str (fd : Z) (fmt : list Z) (arg : list Z) (k : prog) : prog :=
  match printf (fun _ => arg) fmt [1] with Some msg => Print fd msg k | None => Stuck end.
Definition print_int (fd : Z) (fmt : list Z) (arg : Z) (k : prog) : prog :=
  match printf (fun _ => []) fmt [arg] with Some msg => Print fd msg k | None => Stuck end.

Definition panic (s : list Z) : prog := print_str 2 (chars "%s" ++ [NL]) s (Exit 0).

(** [if(fork1() == 0) child;] and then [k] with the pid. *)
Definition fork1 (child : prog) (k : Z -> prog) : prog :=
  Fork child (fun r => match r with Some pid => k pid | None => panic (chars "fork") end).

(** The string at a position of the line. *)
Definition string_at (b : list Z) (p : nat) : list Z := cstr (drop p b).

(** The arguments up to the null pointer. *)
Fixpoint args_of (b : list Z) (argv : list (option nat)) : list (list Z) :=
  match argv with
  | Some p :: argv' => string_at b p :: args_of b argv'
  | _ => []
  end.

Fixpoint runcmd (fuel : nat) (h : list node) (b : list Z) (cmd : nat) : prog :=
  match fuel with
  | O => Stuck
  | S fuel' =>
      match h !! cmd with
      | None => Stuck
      | Some (EXEC argv _) =>
          match args_of b argv with
          | [] => Exit 0
          | path :: args =>
              Exec path (path :: args) (print_str 2 (chars "exec %s failed" ++ [NL]) path (Exit 0))
          end
      | Some (REDIR c file _ mode fd) =>
          Close fd (Open (string_at b file) mode (fun r =>
            if r <? 0 then print_str 2 (chars "open %s failed" ++ [NL]) (string_at b file) (Exit 0)
            else runcmd fuel' h b c))
      | Some (LIST l r) =>
          fork1 (runcmd fuel' h b l) (fun _ => Wait (fun _ => runcmd fuel' h b r))
      | Some (PIPE l r) =>
          Pipe (fun p =>
            match p with
            | None => panic (chars "pipe")
            | Some (p0, p1) =>
                fork1 (Close 1 (Dup p1 (Close p0 (Close p1 (runcmd fuel' h b l))))) (fun _ =>
                fork1 (Close 0 (Dup p0 (Close p0 (Close p1 (runcmd fuel' h b r))))) (fun _ =>
                Close p0 (Close p1 (Wait (fun _ => Wait (fun _ => Exit 0))))))
            end)
      | Some (BACK c) => fork1 (runcmd fuel' h b c) (fun _ => Exit 0)
      end
  end.

(** [runcmd(parsecmd(buf))] in the child. *)
Definition run_line (s : list Z) : prog :=
  match parsecmd s with
  | Ok (cmd, h, b) => runcmd (S cmd) h b cmd
  | Panic msg => panic (chars msg)
  | _ => Stuck
  end.

(** [getcmd]; [None] at the end of the input. *)
Definition getcmd (nbuf : Z) (k : option (list Z) -> prog) : prog :=
  Print 2 (chars "$ ") (Gets nbuf (fun l => if deref l =? 0 then k None else k (Some (cstr l)))).

Definition CMD_BUF : Z := 100.
Definition out_fmt : list Z := chars "Output code  : %d" ++ [NL; 32].

(** The report of [main] on the status [wait] stored. *)
Definition report (status : Z) (k : prog) : prog :=
  if WIFEXITED status then print_int 1 out_fmt (WEXITSTATUS status) k
  else if WIFSIGNALED status then print_int 1 out_fmt (WEXITTRAP status) k
  else k.

(** The loop of [main], for [n] lines. *)
Fixpoint sh_loop (n : nat) : prog :=
  match n with
  | O => Stuck
  | S n' =>
      getcmd CMD_BUF (fun line =>
        match line with
        | None => Exit 0
        | Some s =>
            if (nth 0 s 0 =? ch "c") && (nth 1 s 0 =? ch "d") && (nth 2 s 0 =? 32) then
              let s := removelast s in
              Chdir (drop 3 s) (fun r =>
                if r <? 0 then print_str 2 (chars "cannot cd %s" ++ [NL]) (drop 3 s) (sh_loop n')
                else sh_loop n')
            else
              fork1 (run_line s) (fun _ => Wait (fun status => report status (sh_loop n')))
        end)
  end.

(** [while((fd = open("console", O_RDWR)) >= 0) if(fd >= 3){ close(fd); break; }] *)
Fixpoint open_console (n : nat) (k : prog) : prog :=
  match n with
  | O => Stuck
  | S n' =>
      Open (chars "console") O_RDWR (fun fd =>
        if fd <? 0 then k else if 3 <=? fd then Close fd k else open_console n' k)
  end.

(** [main] for [n] lines of input; the descriptors 0, 1 and 2 take three
    rounds of the first loop, the fourth ends it. *)
Definition sh_main (n : nat) : prog := open_console 4 (sh_loop n).
