(* ===== verification/ShellParse.v ===== *)
(** * The shell's parser on every line

    For any line without NUL bytes the parser ends, in a command or in a call
    of [panic]; the command is a tree whose pointers lead to nodes made before
    it, with at most nine arguments, each a non-empty stretch of word
    characters of the line, and [nulterminate] turns each of them into the
    string of that stretch. *)

From Stdlib Require Import ZArith Lia String Ascii.
From stdpp Require Import base numbers list.
From S2P Require Import Prelude Params Bytes Ulib Shell.

Local Open Scope Z_scope.
Local Open Scope kernel_scope.

Lemma MAXARGS_pos : (0 < MAXARGS)%nat.
Proof. unfold MAXARGS. lia. Qed.

Local Opaque MAXARGS.

(** ** Runs that end *)

(** [m] returns with [Q] or calls [panic]; it neither runs out of fuel nor
    reads outside its arrays. *)
Definition safe {S A} (m : M S A) (s : S) (Q : A -> S -> Prop) : Prop :=
  match m s with
  | Ok (a, s') => Q a s'
  | Panic _ => True
  | _ => False
  end.

Section rules.
  Context {S : Type}.
  Implicit Types s : S.

Lemma safe_bind {A B} (m : M S A) (k : A -> M S B) s Q :
  safe m s (fun a s' => safe (k a) s' Q) -> safe (mbind m k) s Q.
Proof. unfold safe, mbind. by destruct (m s) as [[a s']| | | |]. Qed.

Lemma safe_mono {A} (m : M S A) s (P Q : A -> S -> Prop) :
  safe m s P -> (forall a s', P a s' -> Q a s') -> safe m s Q.
Proof. unfold safe. destruct (m s) as [[a s']| | | |]; auto. Qed.

Lemma safe_ret {A} (a : A) s (Q : A -> S -> Prop) : Q a s -> safe (mret a) s Q.
Proof. done. Qed.

Lemma safe_panic {A} e s (Q : A -> S -> Prop) : safe (mpanic e) s Q.
Proof. done. Qed.

(** A call whose effect is known, then the rest. *)
Lemma safe_call {A B} (m : M S A) (k : A -> M S B) s (P : A -> S -> Prop) Q :
  safe m s P -> (forall a s', P a s' -> safe (k a) s' Q) -> safe (mbind m k) s Q.
Proof. intros Hm Hk. apply safe_bind. eapply safe_mono; eauto. Qed.
End rules.

(** ** Spans *)

Lemma span_le f l : (span f l <= length l)%nat.
Proof. induction l as [|c l IH]; simpl; [lia|]. destruct (f c); lia. Qed.

Lemma span_before f l i : (i < span f l)%nat -> exists c, l !! i = Some c /\ f c = true.
Proof.
  revert i. induction l as [|c l IH]; intros i H; simpl in *; [lia|].
  destruct (f c) eqn:E; [|lia]. destruct i as [|i]; [eauto|]. apply IH. lia.
Qed.

Lemma span_after f l c : l !! span f l = Some c -> f c = false.
Proof.
  induction l as [|d l IH]; simpl; [done|]. destruct (f d) eqn:E; [done|]. by intros [= <-].
Qed.

Lemma in_set_elem set c : nul_free set -> in_set set c = true <-> c ∈ set.
Proof.
  intros H. unfold in_set. pose proof (strchr_split set c H) as Hs. destruct (strchr set c) as [r|].
  - destruct Hs as (l & -> & _ & Hr). split; [|done]. intros _. destruct r as [|d r]; [done|].
    injection Hr as ->. apply elem_of_app. right. apply list_elem_of_here.
  - split; [done|]. intros Hin. by destruct (Hs Hin).
Qed.

Lemma symbols_split c : in_set symbols c = true -> in_set (chars "|();&<") c = true \/ c = ch ">".
Proof.
  rewrite !in_set_elem by (by apply (bool_decide_unpack _)). unfold symbols. cbn [chars].
  rewrite !list.elem_of_cons, !list.elem_of_nil. tauto.
Qed.

(** ** Command trees

    The commands as trees of strings, and when the node [i] of the heap [h] over
    the line [b] is such a tree. *)
Inductive cmd : Type :=
| CExec (args : list (list Z))
| CRedir (c : cmd) (file : list Z) (mode fd : Z)
| CPipe (l r : cmd)
| CList (l r : cmd)
| CBack (c : cmd).

Inductive tree (h : list node) (b : list Z) : nat -> cmd -> Prop :=
| tree_exec i argv eargv :
    h !! i = Some (EXEC argv eargv) -> None ∈ argv -> tree h b i (CExec (args_of b argv))
| tree_redir i j f e mode fd c :
    h !! i = Some (REDIR j f e mode fd) -> tree h b j c -> tree h b i (CRedir c (string_at b f) mode fd)
| tree_pipe i l r cl cr :
    h !! i = Some (PIPE l r) -> tree h b l cl -> tree h b r cr -> tree h b i (CPipe cl cr)
| tree_list i l r cl cr :
    h !! i = Some (LIST l r) -> tree h b l cl -> tree h b r cr -> tree h b i (CList cl cr)
| tree_back i j c : h !! i = Some (BACK j) -> tree h b j c -> tree h b i (CBack c).

(** The modes the parser gives a redirection. *)
Definition redir_ok (mode fd : Z) : Prop :=
  (mode = O_RDONLY /\ fd = 0) \/ (mode = Z.lor O_WRONLY O_CREATE /\ fd = 1).

Definition word (w : list Z) : Prop := w <> [] /\ Forall (fun c => word_char c = true) w /\ nul_free w.

Fixpoint wf_cmd (c : cmd) : Prop :=
  match c with
  | CExec args => (length args < MAXARGS)%nat /\ Forall word args
  | CRedir c file mode fd => wf_cmd c /\ word file /\ redir_ok mode fd
  | CPipe l r | CList l r => wf_cmd l /\ wf_cmd r
  | CBack c => wf_cmd c
  end.

Section parser.
  Context (buf : list Z) (Hbuf : nul_free buf).
  Abbreviation es := (es buf).
  Abbreviation at_ := (at_ buf).
  Abbreviation skip := (skip buf).

Lemma at_lookup s c : buf !! s = Some c -> at_ s = c.
Proof. intros H. by apply nth_lookup_Some. Qed.

Lemma at_end s : (es <= s)%nat -> at_ s = 0.
Proof. intros H. by apply nth_overflow. Qed.

Lemma at_inside s : at_ s <> 0 -> (s < es)%nat.
Proof. intros H. destruct (Nat.lt_ge_cases s es) as [|Hge]; [done|]. by rewrite at_end in H. Qed.

Lemma at_nonzero s : (s < es)%nat -> at_ s <> 0.
Proof.
  intros H. destruct (lookup_lt_is_Some_2 buf s H) as [c Hc]. rewrite (at_lookup _ _ Hc).
  by eapply (Forall_lookup_1 _ _ _ _ Hbuf) in Hc as [? _].
Qed.

Lemma span_bound f s : (s <= es)%nat -> (s <= s + span f (drop s buf) <= es)%nat.
Proof. intros H. pose proof (span_le f (drop s buf)). rewrite length_drop in *. unfold Shell.es in *. lia. Qed.

Lemma span_inside f s i : (s <= i < s + span f (drop s buf))%nat -> f (at_ i) = true.
Proof.
  intros H. destruct (span_before f (drop s buf) (i - s)) as (c & Hc & E); [lia|].
  rewrite lookup_drop in Hc. replace (s + (i - s))%nat with i in Hc by lia.
  by rewrite (at_lookup _ _ Hc).
Qed.

Lemma span_outside f s : (s <= es)%nat -> (s + span f (drop s buf) < es)%nat ->
  f (at_ (s + span f (drop s buf))) = false.
Proof.
  intros Hs H. destruct (lookup_lt_is_Some_2 buf _ H) as [c Hc]. rewrite (at_lookup _ _ Hc).
  apply (span_after f (drop s buf)). by rewrite lookup_drop.
Qed.

Lemma skip_bound s : (s <= es)%nat -> (s <= skip s <= es)%nat.
Proof. apply span_bound. Qed.

Lemma skip_stops s : (s <= es)%nat -> in_set whitespace (at_ (skip s)) = false.
Proof.
  intros Hs. destruct (Nat.lt_ge_cases (skip s) es) as [H|H]; [by apply span_outside|].
  by rewrite at_end by done.
Qed.

Lemma skip_stay s : (s <= es)%nat -> in_set whitespace (at_ s) = false -> skip s = s.
Proof.
  intros Hs H. unfold Shell.skip. destruct (drop s buf) as [|c l] eqn:E; [simpl; lia|].
  assert (Hc : buf !! s = Some c) by (replace s with (s + 0)%nat by lia; rewrite <- lookup_drop, E; done).
  rewrite (at_lookup _ _ Hc) in H. simpl. rewrite H. lia.
Qed.

Lemma skip_skip s : (s <= es)%nat -> skip (skip s) = skip s.
Proof. intros H. apply skip_stay; [by apply skip_bound|by apply skip_stops]. Qed.

(** ** Tokens *)

(** A word of the line: word characters up to the first that is none. *)
Record tok_ok (q eq : nat) : Prop := {
  tk_range : (q < eq <= es)%nat;
  tk_word i : (q <= i < eq)%nat -> word_char (at_ i) = true;
  tk_end : (eq < es)%nat -> word_char (at_ eq) = false
}.

Lemma token_spec s :
  (s <= es)%nat -> in_set whitespace (at_ s) = false ->
  let '(t, e) := token buf s in
  (at_ s = 0 /\ t = 0 /\ e = s) \/
  (at_ s <> 0 /\ t <> 0 /\ (s < e <= es)%nat /\ (t = ch "a" -> tok_ok s e)).
Proof.
  intros Hs Hw. unfold token. destruct (Z.eqb_spec (at_ s) 0) as [E|E]; [by left|].
  pose proof (at_inside _ E) as Hlt.
  destruct (in_set (chars "|();&<") (at_ s)) eqn:E1.
  { right. split; [done|]. split; [done|]. split; [lia|]. intros Ea. by rewrite Ea in E1. }
  destruct (Z.eqb_spec (at_ s) (ch ">")) as [E2|E2].
  { destruct (Z.eqb_spec (at_ (S s)) (ch ">")) as [E3|E3].
    - assert (S s < es)%nat by (apply at_inside; rewrite E3; done). right. split; [done|]. split; [done|]. split; [lia|done].
    - right. split; [done|]. split; [done|]. split; [lia|]. by rewrite E2. }
  assert (Hwc : word_char (at_ s) = true).
  { unfold word_char. rewrite Hw. simpl. apply negb_true_iff. apply not_true_iff_false. intros Hin.
    destruct (symbols_split _ Hin) as [H|H]; congruence. }
  unfold word_end. pose proof (span_bound word_char s ltac:(lia)) as Hb.
  assert (Hpos : (0 < span word_char (drop s buf))%nat).
  { destruct (lookup_lt_is_Some_2 buf s Hlt) as [c Hc]. rewrite (drop_S buf c s Hc). simpl.
    rewrite (at_lookup _ _ Hc) in Hwc. rewrite Hwc. lia. }
  right. split; [done|]. split; [done|]. split; [lia|]. intros _. split; [lia| |].
  - intros i Hi. by apply span_inside in Hi.
  - intros H. by apply span_outside; [lia|].
Qed.

(** ** The heap *)

(** An [execcmd] with the words [l]. *)
Definition exec_node (l : list (nat * nat)) : node :=
  EXEC (map (fun w => Some (fst w)) l ++ replicate (MAXARGS - length l) None)
       (map (fun w => Some (snd w)) l ++ replicate (MAXARGS - length l) None).

(** Node [i] points to nodes made before it and to words of the line. *)
Definition node_ok (i : nat) (n : node) : Prop :=
  match n with
  | EXEC _ _ => exists l, n = exec_node l /\ (length l < MAXARGS)%nat /\ Forall (fun w => tok_ok (fst w) (snd w)) l
  | REDIR c f e mode fd => (c < i)%nat /\ tok_ok f e /\ redir_ok mode fd
  | PIPE l r | LIST l r => (l < i)%nat /\ (r < i)%nat
  | BACK c => (c < i)%nat
  end.
Definition heap_ok (h : list node) : Prop := forall i n, h !! i = Some n -> node_ok i n.

Record ok (s : ps) : Prop := { ok_pos : (pos s <= es)%nat; ok_heap : heap_ok (heap s) }.

(** What a parsing function that starts with the heap [h0] at position [p0]
    leaves: [h0] untouched and a command on top of it. *)
Record parsed (p0 : nat) (h0 : list node) (c : nat) (s : ps) : Prop := {
  pd_ok : ok s;
  pd_pos : (p0 <= pos s)%nat;
  pd_heap : h0 `prefix_of` heap s;
  pd_cmd : (c < length (heap s))%nat
}.

Lemma heap_ok_snoc h n : heap_ok h -> node_ok (length h) n -> heap_ok (h ++ [n]).
Proof.
  intros Hh Hn i m [[_ H]|[-> <-]]%lookup_snoc_Some; [by apply Hh|done].
Qed.

Lemma heap_ok_insert h i n : heap_ok h -> node_ok i n -> heap_ok (<[i := n]> h).
Proof.
  intros Hh Hn j m H. apply list_lookup_insert_Some in H as [(-> & -> & _)|[_ H]]; [done|by apply Hh].
Qed.

Lemma safe_malloc {A} n (k : nat -> M ps A) s Q :
  safe (k (length (heap s))) (mkps (pos s) (heap s ++ [n])) Q -> safe (mbind (malloc_node n) k) s Q.
Proof. intros H. by apply safe_bind. Qed.

Lemma malloc_parsed n c p0 h0 s :
  parsed p0 h0 c s -> node_ok (length (heap s)) n ->
  parsed p0 h0 (length (heap s)) (mkps (pos s) (heap s ++ [n])).
Proof.
  intros [[Hp Hh] Hpos Hpre Hc] Hn. constructor; simpl.
  - constructor; [done|by apply heap_ok_snoc].
  - done.
  - by apply prefix_app_r.
  - rewrite length_app. simpl. lia.
Qed.

Lemma safe_peek {A} toks (k : bool -> M ps A) s Q :
  (forall b, b = negb (at_ (skip (pos s)) =? 0) && in_set toks (at_ (skip (pos s))) ->
     safe (k b) (mkps (skip (pos s)) (heap s)) Q) ->
  safe (mbind (peek buf toks) k) s Q.
Proof. intros H. apply safe_bind. unfold safe, peek. by apply H. Qed.

(** [gettoken] moves on unless it is at the end. *)
Lemma safe_gettoken {A} (k : Z * nat * nat -> M ps A) s Q :
  (pos s <= es)%nat ->
  (forall t q e, q = skip (pos s) -> (at_ q = 0 /\ t = 0 \/ at_ q <> 0 /\ t <> 0 /\ (q < e)%nat /\ (t = ch "a" -> tok_ok q e)) ->
     (e <= es)%nat -> (e <= skip e)%nat -> (q <= skip e <= es)%nat -> safe (k (t, q, e)) (mkps (skip e) (heap s)) Q) ->
  safe (mbind (gettoken buf) k) s Q.
Proof.
  intros Hp H. apply safe_bind. unfold safe, gettoken.
  pose proof (token_spec (skip (pos s))) as Ht. pose proof (skip_bound _ Hp) as Hsb.
  destruct (token buf (skip (pos s))) as [t e].
  destruct Ht as [(E & Et & ->)|(E & Et & He & Ha)]; [lia|by apply skip_stops| |].
  - pose proof (skip_bound (skip (pos s)) ltac:(lia)). apply H; auto; lia.
  - pose proof (skip_bound e ltac:(lia)). apply H; auto; try lia.
    right. split; [done|]. split; [done|]. split; [lia|done].
Qed.

Lemma set_arg_some s cmd l q e :
  heap s !! cmd = Some (exec_node l) -> (length l < MAXARGS)%nat ->
  set_arg cmd (length l) (Some q) (Some e) s =
    Ok (tt, mkps (pos s) (<[cmd := exec_node (l ++ [(q, e)])]> (heap s))).
Proof.
  intros H Hl. unfold set_arg. rewrite H. unfold exec_node at 1. rewrite (proj2 (Nat.ltb_lt _ _) Hl).
  do 5 f_equal. unfold exec_node. rewrite !map_app, length_app. cbn [length map fst snd].
  destruct (MAXARGS - length l)%nat as [|n] eqn:E; [lia|].
  replace (MAXARGS - (length l + 1))%nat with n by lia. cbn [replicate].
  rewrite !insert_app_r_alt by (rewrite length_map; lia). rewrite !length_map, Nat.sub_diag. cbn.
  by rewrite <- !app_assoc.
Qed.

Lemma set_arg_none s cmd l :
  heap s !! cmd = Some (exec_node l) -> (length l < MAXARGS)%nat ->
  set_arg cmd (length l) None None s = Ok (tt, s).
Proof.
  intros H Hl. unfold set_arg. rewrite H. unfold exec_node at 1. rewrite (proj2 (Nat.ltb_lt _ _) Hl).
  destruct s as [p h]; cbn [pos heap] in *. do 3 f_equal. apply list_insert_id. rewrite H. unfold exec_node.
  do 2 f_equal; symmetry; apply list_insert_id; rewrite lookup_app_r, length_map, Nat.sub_diag by (rewrite length_map; lia);
    apply lookup_replicate; (split; [done|lia]).
Qed.

(** ** The parsing functions end *)

Lemma parsed_weaken p0 h0 p h c s :
  parsed p h c s -> (p0 <= p)%nat -> h0 `prefix_of` h -> parsed p0 h0 c s.
Proof. intros [H1 H2 H3 H4] Hp Hh. constructor; [done|lia|by etrans|done]. Qed.

Lemma parsed_move p0 h0 c s p : parsed p0 h0 c s -> (pos s <= p <= es)%nat -> parsed p0 h0 c (mkps p (heap s)).
Proof. intros [[H1 H2] H3 H4 H5] Hp. constructor; [constructor|..]; simpl; auto; lia. Qed.

Lemma parseredirs_loop_safe n c s p0 h0 :
  parsed p0 h0 c s -> (es - pos s < n)%nat ->
  safe (parseredirs_loop buf n c) s (fun c' s' => parsed p0 h0 c' s' /\ heap s `prefix_of` heap s' /\ (pos s <= pos s')%nat).
Proof.
  revert c s. induction n as [|n IH]; intros c s Hpd Hn; [lia|]. cbn [parseredirs_loop].
  pose proof (ok_pos _ (pd_ok _ _ _ _ Hpd)) as Hp. pose proof (skip_bound _ Hp) as Hsb.
  apply safe_peek. intros b Hb. destruct b.
  2: { apply safe_ret. simpl. split; [by apply parsed_move|]. split; [done|lia]. }
  symmetry in Hb. apply andb_true_iff in Hb as [Hb _]. apply negb_true_iff, Z.eqb_neq in Hb.
  apply safe_gettoken; [simpl; lia|]. intros t q e -> Ht He Hse Hq. simpl in *. rewrite skip_skip in * by done.
  destruct Ht as [[? _]|(_ & _ & Hlt & _)]; [done|].
  apply safe_gettoken; [simpl; lia|]. intros t' q' e' -> Ht' He' Hse' Hq'. simpl in *.
  rewrite (skip_skip e) in * by done.
  destruct (Z.eqb_spec t' (ch "a")) as [->|]; [|apply safe_panic]. cbn [negb].
  destruct Ht' as [[_ ?]|(_ & _ & _ & Htok)]; [done|]. specialize (Htok eq_refl).
  assert (Hmove : parsed p0 h0 c (mkps (skip e') (heap s))) by (apply parsed_move; [done|lia]).
  assert (Hgo : forall mode fd, redir_ok mode fd ->
    safe (mbind (redircmd c (skip e) e' mode fd) (parseredirs_loop buf n)) (mkps (skip e') (heap s))
      (fun c' s' => parsed p0 h0 c' s' /\ heap s `prefix_of` heap s' /\ (pos s <= pos s')%nat)).
  { intros mode fd Hm. apply safe_malloc. simpl. eapply safe_mono; [apply IH|]; simpl.
    - apply (malloc_parsed _ c _ _ _ Hmove). split; [apply Hpd|done].
    - lia.
    - intros c' s' (H1 & H2 & H3). split; [done|]. split; [|lia]. etrans; [|done]. by apply prefix_app_r. }
  assert (Hskip : safe (mbind (mret c) (parseredirs_loop buf n)) (mkps (skip e') (heap s))
      (fun c' s' => parsed p0 h0 c' s' /\ heap s `prefix_of` heap s' /\ (pos s <= pos s')%nat)).
  { apply safe_bind, safe_ret. eapply safe_mono; [apply IH; [done|simpl; lia]|]. simpl.
    intros c' s' (H1 & H2 & H3). repeat split; done || lia || apply H1. }
  repeat zcase; apply Hgo || apply Hskip; [by left|by right|by right].
Qed.

Lemma exec_node_ok i l :
  (length l < MAXARGS)%nat -> Forall (fun w => tok_ok (fst w) (snd w)) l -> node_ok i (exec_node l).
Proof. intros H1 H2. exists l. done. Qed.

(** The [execcmd] at [cmd], above the heap [h0] of the caller, has the words
    [l] so far. *)
Record filling (h0 : list node) (cmd : nat) (l : list (nat * nat)) (s : ps) : Prop := {
  fl_above : (length h0 <= cmd)%nat;
  fl_node : heap s !! cmd = Some (exec_node l);
  fl_args : (length l < MAXARGS)%nat;
  fl_words : Forall (fun w => tok_ok (fst w) (snd w)) l
}.

(** Storing a word in it. *)
Lemma filling_insert h0 cmd l s w p p0 ret :
  filling h0 cmd l s -> parsed p0 h0 ret s -> (pos s <= p <= es)%nat -> tok_ok (fst w) (snd w) ->
  (S (length l) < MAXARGS)%nat ->
  let s' := mkps p (<[cmd := exec_node (l ++ [w])]> (heap s)) in
  filling h0 cmd (l ++ [w]) s' /\ parsed p0 h0 ret s'.
Proof.
  intros [Ha Hn Hl Hw] [[Hp Hh] Hpos [k Hk] Hc] Hpp Htok Hlen s'.
  assert (Hl' : (length (l ++ [w]) < MAXARGS)%nat) by (rewrite length_app; simpl; lia).
  assert (Hw' : Forall (fun w => tok_ok (fst w) (snd w)) (l ++ [w])).
  { apply Forall_app. split; [done|]. by constructor. }
  pose proof (lookup_lt_Some _ _ _ Hn) as Hlt. split; constructor; simpl; auto.
  - by apply list_lookup_insert_eq.
  - constructor; simpl; [lia|]. apply heap_ok_insert; [done|]. by apply exec_node_ok.
  - lia.
  - rewrite Hk, insert_app_r_alt by done. by apply prefix_app_r.
  - by rewrite length_insert.
Qed.

Lemma parseargs_loop_safe n cmd l ret s p0 h0 :
  filling h0 cmd l s -> parsed p0 h0 ret s -> (es - pos s < n)%nat ->
  safe (parseargs_loop buf n cmd (length l) ret) s (parsed p0 h0).
Proof.
  revert l ret s. induction n as [|n IH]; intros l ret s Hfl Hpd Hn; [lia|]. cbn [parseargs_loop].
  pose proof (ok_pos _ (pd_ok _ _ _ _ Hpd)) as Hp. pose proof (skip_bound _ Hp) as Hsb.
  assert (Hend : forall p, (pos s <= p <= es)%nat ->
    safe (set_arg cmd (length l) None None ;;! mret ret) (mkps p (heap s)) (parsed p0 h0)).
  { intros p Hpp. apply safe_bind. unfold safe. rewrite set_arg_none by apply Hfl. by apply parsed_move. }
  apply safe_peek. intros [] _; [by apply Hend|].
  apply safe_gettoken; [simpl; lia|]. intros t q e -> Ht He Hse Hq. simpl in *. rewrite skip_skip in * by done.
  destruct (Z.eqb_spec t 0) as [_|Hne]; [apply Hend; lia|].
  destruct (Z.eqb_spec t (ch "a")) as [->|]; [|apply safe_panic]. cbn [negb].
  destruct Ht as [[_ ?]|(_ & _ & Hlt & Htok)]; [done|]. specialize (Htok eq_refl).
  apply safe_bind. unfold safe at 1. rewrite set_arg_some by apply Hfl. cbn [pos heap].
  destruct (Nat.leb_spec MAXARGS (S (length l))) as [|Hlen]; [apply safe_panic|].
  destruct (filling_insert _ _ _ _ (skip (pos s), e) (skip e) _ _ Hfl Hpd) as [Hfl' Hpd']; [lia|done|done|].
  eapply safe_call; [apply (parseredirs_loop_safe (S es) ret _ _ _ Hpd'); simpl; lia|].
  cbn [pos heap]. intros ret' s' (Hpd2 & Hpre & Hpos). simpl in *.
  replace (S (length l)) with (length (l ++ [(skip (pos s), e)])) by (rewrite length_app; simpl; lia).
  apply IH; [|done|lia]. destruct Hfl' as [H1 H2 H3 H4]. constructor; [done| |done|done].
  destruct Hpre as [k ->]. apply lookup_app_l_Some. exact H2.
Qed.

Lemma parseback_loop_safe n c s p0 h0 :
  parsed p0 h0 c s -> (es - pos s < n)%nat -> safe (parseback_loop buf n c) s (parsed p0 h0).
Proof.
  revert c s. induction n as [|n IH]; intros c s Hpd Hn; [lia|]. cbn [parseback_loop].
  pose proof (ok_pos _ (pd_ok _ _ _ _ Hpd)) as Hp. pose proof (skip_bound _ Hp) as Hsb.
  apply safe_peek. intros b Hb. destruct b.
  2: { apply safe_ret. by apply parsed_move. }
  symmetry in Hb. apply andb_true_iff in Hb as [Hb _]. apply negb_true_iff, Z.eqb_neq in Hb.
  apply safe_gettoken; [simpl; lia|]. intros t q e -> Ht He Hse Hq. simpl in *. rewrite skip_skip in * by done.
  destruct Ht as [[? _]|(_ & _ & Hlt & _)]; [done|].
  assert (Hmove : parsed p0 h0 c (mkps (skip e) (heap s))) by (apply parsed_move; [done|lia]).
  apply safe_malloc. simpl. apply IH; [|simpl; lia]. apply (malloc_parsed _ c _ _ _ Hmove).
  exact (pd_cmd _ _ _ _ Hpd).
Qed.

(** The token after a successful [peek] is consumed. *)
Lemma safe_consume {A} toks (k : bool -> M ps A) (yes : M ps A) s Q :
  (pos s <= es)%nat -> k true = (gettoken buf ;;! yes) ->
  (forall p, (pos s < p <= es)%nat -> safe yes (mkps p (heap s)) Q) ->
  (forall p, (pos s <= p <= es)%nat -> safe (k false) (mkps p (heap s)) Q) ->
  safe (mbind (peek buf toks) k) s Q.
Proof.
  intros Hp Ek Hyes Hno. pose proof (skip_bound _ Hp) as Hsb.
  apply safe_peek. intros b Hb. destruct b; [|by apply Hno].
  symmetry in Hb. apply andb_true_iff in Hb as [Hb _]. apply negb_true_iff, Z.eqb_neq in Hb.
  rewrite Ek. apply safe_gettoken; [simpl; lia|]. intros t q e -> Ht He Hse Hq. simpl in *.
  rewrite skip_skip in * by done. destruct Ht as [[? _]|(_ & _ & Hlt & _)]; [done|].
  apply Hyes. lia.
Qed.

(** The functions, with fuel for the characters left and the calls above. *)
Definition line_safe f (extra : nat) (m : nat -> M ps nat) : Prop :=
  forall s, ok s -> (4 * (es - pos s) + extra <= f)%nat -> safe (m f) s (parsed (pos s) (heap s)).

Lemma parsed_ok p0 h0 c p (s : ps) : parsed p0 h0 c s -> (pos s <= p <= es)%nat -> ok (mkps p (heap s)).
Proof. intros H Hp. destruct (parsed_move _ _ _ _ _ H Hp). done. Qed.

Lemma ok_move s p : ok s -> (p <= es)%nat -> ok (mkps p (heap s)).
Proof. intros [H1 H2] Hp. by constructor. Qed.

Lemma parseexec_step f : line_safe f 1 (parseblock buf) -> line_safe (S f) 2 (parseexec buf).
Proof.
  intros Hblock s Hok Hf. pose proof (ok_pos _ Hok) as Hp. pose proof (skip_bound _ Hp) as Hsb.
  cbn [parseexec]. apply safe_peek. intros [] _.
  - eapply safe_mono; [apply Hblock; [apply ok_move; [done|lia]|simpl; lia]|]. simpl.
    intros c s' H. eapply parsed_weaken; [done|lia|done].
  - apply safe_malloc. cbn [pos heap]. set (cmd := length (heap s)). set (s1 := mkps _ _).
    assert (Hfl : filling (heap s) cmd [] s1).
    { constructor; simpl; [lia| |apply MAXARGS_pos|].
      - rewrite lookup_app_r by lia. unfold cmd. rewrite Nat.sub_diag. unfold exec_node. simpl.
        by rewrite Nat.sub_0_r.
      - by constructor. }
    assert (Hpd : parsed (pos s) (heap s) cmd s1).
    { constructor; simpl.
      - constructor; simpl; [lia|]. apply heap_ok_snoc; [apply Hok|].
        replace (EXEC _ _) with (exec_node []) by (unfold exec_node; simpl; by rewrite Nat.sub_0_r).
        apply exec_node_ok; [apply Hfl|constructor].
      - lia.
      - by apply prefix_app_r.
      - rewrite length_app. simpl. lia. }
    eapply safe_call; [apply (parseredirs_loop_safe (S es) cmd s1 _ _ Hpd); simpl; lia|].
    intros ret s2 (Hpd2 & [k Hk] & Hpos). apply (parseargs_loop_safe (S es) cmd [] ret s2); [|done|].
    + destruct Hfl as [H1 H2 H3 H4]. constructor; [done| |done|done]. rewrite Hk. by apply lookup_app_l_Some.
    + lia.
Qed.

Lemma parseblock_step f : line_safe f 4 (parseline buf) -> line_safe (S f) 1 (parseblock buf).
Proof.
  intros Hline s Hok Hf. pose proof (ok_pos _ Hok) as Hp. cbn [parseblock].
  eapply safe_consume; [done|done| |intros; apply safe_panic]. intros p Hpp.
  eapply safe_call; [apply Hline; [apply ok_move; [done|lia]|simpl; lia]|]. cbn [pos heap].
  intros c s1 Hpd. pose proof (ok_pos _ (pd_ok _ _ _ _ Hpd)) as Hp1. pose proof (pd_pos _ _ _ _ Hpd) as Hp2.
  eapply safe_consume; [done|done| |intros; apply safe_panic]. intros p' Hpp'.
  eapply safe_mono; [apply (parseredirs_loop_safe (S es) c _ p (heap s)); [by apply parsed_move; [|lia]|simpl; lia]|].
  intros c' s' (H & _). eapply parsed_weaken; [done|lia|done].
Qed.

Lemma parsepipe_step f :
  line_safe f 2 (parseexec buf) -> line_safe f 3 (parsepipe buf) -> line_safe (S f) 3 (parsepipe buf).
Proof.
  intros Hexec Hpipe s Hok Hf. cbn [parsepipe].
  eapply safe_call; [apply Hexec; [done|lia]|]. intros c s1 Hpd.
  pose proof (ok_pos _ (pd_ok _ _ _ _ Hpd)) as Hp1. pose proof (pd_pos _ _ _ _ Hpd) as Hp2.
  eapply safe_consume; [done|done| |].
  - intros p Hpp. eapply safe_call; [apply Hpipe; [by eapply parsed_ok; [|lia]|simpl; lia]|]. cbn [pos heap].
    intros r s2 Hr. pose proof (prefix_length _ _ (pd_heap _ _ _ _ Hr)) as Hlen.
    apply (malloc_parsed _ r); [eapply parsed_weaken; [done|lia|apply Hpd]|].
    pose proof (pd_cmd _ _ _ _ Hpd). pose proof (pd_cmd _ _ _ _ Hr). simpl. lia.
  - intros p Hpp. by apply parsed_move.
Qed.

Lemma parseline_step f :
  line_safe f 3 (parsepipe buf) -> line_safe f 4 (parseline buf) -> line_safe (S f) 4 (parseline buf).
Proof.
  intros Hpipe Hline s Hok Hf. cbn [parseline].
  eapply safe_call; [apply Hpipe; [done|lia]|]. intros c0 s0 Hpd0.
  eapply safe_call; [apply (parseback_loop_safe (S es) c0 s0 _ _ Hpd0); lia|]. intros c s1 Hpd.
  pose proof (ok_pos _ (pd_ok _ _ _ _ Hpd)) as Hp1. pose proof (pd_pos _ _ _ _ Hpd) as Hp2.
  eapply safe_consume; [done|done| |].
  - intros p Hpp. eapply safe_call; [apply Hline; [by eapply parsed_ok; [|lia]|simpl; lia]|]. cbn [pos heap].
    intros r s2 Hr. pose proof (prefix_length _ _ (pd_heap _ _ _ _ Hr)) as Hlen.
    apply (malloc_parsed _ r); [eapply parsed_weaken; [done|lia|apply Hpd]|].
    pose proof (pd_cmd _ _ _ _ Hpd). pose proof (pd_cmd _ _ _ _ Hr). simpl. lia.
  - intros p Hpp. by apply parsed_move.
Qed.

Lemma parse_safe f :
  line_safe f 4 (parseline buf) /\ line_safe f 3 (parsepipe buf) /\
  line_safe f 1 (parseblock buf) /\ line_safe f 2 (parseexec buf).
Proof.
  induction f as [|f (H1 & H2 & H3 & H4)]; [repeat split; intros s _ H; lia|].
  auto using parseline_step, parsepipe_step, parseblock_step, parseexec_step.
Qed.

(** ** From the words of the line to strings *)

Definition slice (q e : nat) : list Z := take (e - q) (drop q buf).

(** The tree of node [i], its words as stretches of the line. *)
Inductive rep (h : list node) : nat -> cmd -> Prop :=
| rep_exec i l :
    h !! i = Some (exec_node l) -> (length l < MAXARGS)%nat -> Forall (fun w => tok_ok (fst w) (snd w)) l ->
    rep h i (CExec (map (fun w => slice (fst w) (snd w)) l))
| rep_redir i j f e mode fd c :
    h !! i = Some (REDIR j f e mode fd) -> (j < i)%nat -> tok_ok f e -> redir_ok mode fd -> rep h j c ->
    rep h i (CRedir c (slice f e) mode fd)
| rep_pipe i l r cl cr :
    h !! i = Some (PIPE l r) -> (l < i)%nat -> (r < i)%nat -> rep h l cl -> rep h r cr -> rep h i (CPipe cl cr)
| rep_list i l r cl cr :
    h !! i = Some (LIST l r) -> (l < i)%nat -> (r < i)%nat -> rep h l cl -> rep h r cr -> rep h i (CList cl cr)
| rep_back i j c : h !! i = Some (BACK j) -> (j < i)%nat -> rep h j c -> rep h i (CBack c).

Lemma heap_rep h i : heap_ok h -> (i < length h)%nat -> exists c, rep h i c.
Proof.
  intros Hh. induction i as [i IH] using lt_wf_ind. intros Hi.
  destruct (lookup_lt_is_Some_2 h i Hi) as [n Hn]. pose proof (Hh _ _ Hn) as Hok.
  destruct n as [argv eargv|j f e mode fd|l r|l r|j]; simpl in Hok.
  - destruct Hok as (l & E & Hl & Hw). rewrite E in Hn. eexists. by eapply rep_exec.
  - destruct Hok as (Hj & Ht & Hm). destruct (IH j Hj) as [c Hc]; [lia|]. eexists. by eapply rep_redir.
  - destruct Hok as [Hl Hr]. destruct (IH l Hl) as [cl Hcl]; [lia|]. destruct (IH r Hr) as [cr Hcr]; [lia|].
    eexists. by eapply rep_pipe.
  - destruct Hok as [Hl Hr]. destruct (IH l Hl) as [cl Hcl]; [lia|]. destruct (IH r Hr) as [cr Hcr]; [lia|].
    eexists. by eapply rep_list.
  - destruct (IH j Hok) as [c Hc]; [lia|]. eexists. by eapply rep_back.
Qed.

Lemma slice_word q e : tok_ok q e -> word (slice q e).
Proof.
  intros [Hr Hw _]. unfold slice. repeat split.
  - intros E. apply (f_equal length) in E. rewrite length_take, length_drop in E. unfold Shell.es in *. simpl in E. lia.
  - apply Forall_lookup_2. intros i c Hc. apply lookup_take_Some in Hc as [Hc Hi]. rewrite lookup_drop in Hc.
    rewrite <- (at_lookup _ _ Hc). apply Hw. lia.
  - apply Forall_take, Forall_drop, Hbuf.
Qed.

Lemma rep_wf h i c : rep h i c -> wf_cmd c.
Proof.
  induction 1 as [i l H1 H2 H3| | | |]; simpl; auto.
  - rewrite length_map. split; [done|]. apply Forall_map. eapply Forall_impl; [done|]. intros [q e]. apply slice_word.
  - auto using slice_word.
Qed.

(** What [nulterminate] leaves of the line: the words untouched, the ends [ws]
    of the words zero. *)
Record nulled (ws : list nat) (b : list Z) : Prop := {
  nl_len : length b = es;
  nl_zero e : e ∈ ws -> nth e b 0 = 0;
  nl_word i : (i < es)%nat -> word_char (at_ i) = true -> nth i b 0 = at_ i
}.

Lemma word_string q e ws b : tok_ok q e -> nulled ws b -> e ∈ ws -> string_at b q = slice q e.
Proof.
  intros [Hr Hw _] [Hlen Hz Hu] Hin. specialize (Hz e Hin). unfold string_at, slice.
  remember (e - q)%nat as n eqn:En. revert q Hr Hw En. induction n as [|n IH]; intros q Hr Hw En; [lia|].
  assert (Hq : (q < length b)%nat) by lia. destruct (lookup_lt_is_Some_2 b q Hq) as [c Hc].
  assert (Hq' : (q < length buf)%nat) by (unfold Shell.es in *; lia).
  destruct (lookup_lt_is_Some_2 buf q Hq') as [c' Hc'].
  assert (c = c') as ->.
  { rewrite <- (at_lookup _ _ Hc'), <- (Hu q); [symmetry; by apply nth_lookup_Some|lia|apply Hw; lia]. }
  rewrite (drop_S b _ _ Hc), (drop_S buf _ _ Hc'). cbn [cstr take].
  assert (c' <> 0) by (rewrite <- (at_lookup _ _ Hc'); apply at_nonzero; done).
  rewrite (proj2 (Z.eqb_neq c' 0)) by done. f_equal. destruct n as [|n].
  - replace (S q) with e by lia. cbn [take]. destruct (drop e b) as [|d l] eqn:Ed; [done|]. cbn [cstr].
    assert (Hd : b !! e = Some d) by (replace e with (e + 0)%nat by lia; rewrite <- lookup_drop, Ed; done).
    apply nth_lookup_Some with (d := 0) in Hd. rewrite Hz in Hd. by subst d.
  - apply IH; [lia| |lia]. intros i Hi. apply Hw. lia.
Qed.

(** The positions [nulterminate] writes. *)
Fixpoint nul_list (fuel : nat) (h : list node) (i : nat) : option (list nat) :=
  match fuel with
  | O => None
  | S fuel' =>
      match h !! i with
      | None => None
      | Some (EXEC argv eargv) => nul_args argv eargv
      | Some (REDIR c _ efile _ _) => l ← nul_list fuel' h c; Some (l ++ [efile])
      | Some (PIPE l r) | Some (LIST l r) => a ← nul_list fuel' h l; b ← nul_list fuel' h r; Some (a ++ b)
      | Some (BACK c) => nul_list fuel' h c
      end
  end.

Lemma nul_all_app b l1 l2 : nul_all b (l1 ++ l2) = obind (nul_all b l1) (fun b' => nul_all b' l2).
Proof. revert b. induction l1 as [|p l1 IH]; intros b; simpl; [done|]. destruct (nul_at b p); simpl; auto. Qed.

Lemma nulterminate_writes fuel h i b ws :
  nul_list fuel h i = Some ws -> nulterminate fuel h i b = nul_all b ws.
Proof.
  revert i b ws. induction fuel as [|fuel IH]; intros i b ws H; [done|]. cbn [nul_list nulterminate] in *.
  destruct (h !! i) as [[argv eargv|j f e mode fd|l r|l r|j]|]; [..|done].
  - by rewrite H.
  - destruct (nul_list fuel h j) as [lj|] eqn:Ej; [|done]. injection H as <-.
    rewrite nul_all_app, (IH _ _ _ Ej). destruct (nul_all b lj); simpl; [|done..]. by destruct (nul_at a e).
  - destruct (nul_list fuel h l) as [ll|] eqn:El; [|done]. destruct (nul_list fuel h r) as [lr|] eqn:Er; [|done].
    injection H as <-. rewrite nul_all_app, (IH _ _ _ El). destruct (nul_all b ll); simpl; auto.
  - destruct (nul_list fuel h l) as [ll|] eqn:El; [|done]. destruct (nul_list fuel h r) as [lr|] eqn:Er; [|done].
    injection H as <-. rewrite nul_all_app, (IH _ _ _ El). destruct (nul_all b ll); simpl; auto.
  - auto.
Qed.

(** The end of a word. *)
Definition word_stop (e : nat) : Prop := (e <= es)%nat /\ ((e < es)%nat -> word_char (at_ e) = false).

Lemma tok_stop q e : tok_ok q e -> word_stop e.
Proof. intros [H1 _ H2]. split; [lia|done]. Qed.

Lemma nul_all_spec ws : Forall word_stop ws -> exists b, nul_all buf ws = Ok b /\ nulled ws b.
Proof.
  intros Hws. assert (H : forall done_ b, nulled done_ b -> exists b', nul_all b ws = Ok b' /\ nulled (done_ ++ ws) b').
  { induction Hws as [|e ws [He Hend] Hws IH]; intros dn b Hb; simpl; [rewrite app_nil_r; eauto|].
    unfold nul_at. rewrite (nl_len _ _ Hb), (proj2 (Nat.leb_le _ _) He). simpl.
    destruct (IH (dn ++ [e]) (<[e := 0]> b)) as (b' & Eb' & Hb').
    - destruct Hb as [Hlen Hz Hu]. constructor.
      + by rewrite length_insert.
      + intros j Hj. apply elem_of_app in Hj. rewrite !nth_lookup in *.
        destruct (decide (e = j)) as [<-|Hne].
        * destruct (Nat.lt_ge_cases e (length b)); [by rewrite list_lookup_insert_eq|].
          by rewrite lookup_ge_None_2 by (rewrite length_insert; done).
        * rewrite list_lookup_insert_ne by done. destruct Hj as [Hj|Hj%list_elem_of_singleton]; [|congruence].
          rewrite <- nth_lookup. by apply Hz.
      + intros j Hj Hw. destruct (decide (e = j)) as [<-|Hne]; [rewrite Hend in Hw by done; done|].
        rewrite nth_lookup, list_lookup_insert_ne, <- nth_lookup by done. by apply Hu.
    - exists b'. split; [done|]. by rewrite <- app_assoc in Hb'. }
  apply (H [] buf). constructor; [done| |done]. intros e He. by apply not_elem_of_nil in He.
Qed.

Lemma nul_args_exec l k :
  (0 < k)%nat ->
  nul_args (map (fun w : nat * nat => Some (fst w)) l ++ replicate k None)
           (map (fun w : nat * nat => Some (snd w)) l ++ replicate k None) = Some (map snd l).
Proof.
  intros Hk. induction l as [|[q e] l IH]; simpl; [by destruct k; [lia|]|]. by rewrite IH.
Qed.

Lemma args_of_exec b l ws k :
  nulled ws b -> Forall (fun w => tok_ok (fst w) (snd w)) l -> (forall w, w ∈ l -> snd w ∈ ws) ->
  args_of b (map (fun w : nat * nat => Some (fst w)) l ++ replicate k None) =
  map (fun w => slice (fst w) (snd w)) l.
Proof.
  intros Hb. induction 1 as [|[q e] l Hw Hl IH]; intros Hin; simpl in *; [by destruct k|].
  rewrite IH by (intros w H; apply Hin; by right).
  rewrite (word_string q e ws b) by (done || apply (Hin (q, e)); left). done.
Qed.

Lemma nulled_weaken ws ws' b : nulled ws' b -> (forall e, e ∈ ws -> e ∈ ws') -> nulled ws b.
Proof. intros [H1 H2 H3] H. constructor; auto. Qed.

(** On a tree [nulterminate] writes ends of words only, and all those that make
    its words strings. *)
Lemma rep_tree h i c fuel :
  rep h i c -> (i < fuel)%nat ->
  exists ws, nul_list fuel h i = Some ws /\ Forall word_stop ws /\ forall b, nulled ws b -> tree h b i c.
Proof.
  intros Hr. revert fuel. induction Hr as
    [i l Hn Hl Hw|i j f e mode fd c Hn Hj Ht Hm _ IH|i l r cl cr Hn Hl Hr _ IHl _ IHr
    |i l r cl cr Hn Hl Hr _ IHl _ IHr|i j c Hn Hj _ IH];
    intros [|fuel] Hf; try lia; cbn [nul_list]; rewrite Hn.
  - unfold exec_node. rewrite nul_args_exec by lia. eexists. split; [done|]. split.
    + apply Forall_map. eapply Forall_impl; [done|]. intros [q e]. apply tok_stop.
    + intros b Hb. rewrite <- (args_of_exec b l _ (MAXARGS - length l) Hb Hw).
      * eapply tree_exec; [done|]. apply elem_of_app. right. apply elem_of_replicate. split; [done|lia].
      * intros w Hin. by apply list_elem_of_fmap_2.
  - destruct (IH fuel ltac:(lia)) as (ws & -> & Hws & Htree). eexists. split; [done|]. split.
    + apply Forall_app. split; [done|]. constructor; [by eapply tok_stop|constructor].
    + intros b Hb. rewrite <- (word_string f e _ b Ht Hb) by (apply elem_of_app; right; left).
      eapply tree_redir; [done|]. apply Htree. eapply nulled_weaken; [done|]. intros. apply elem_of_app. by left.
  - destruct (IHl fuel ltac:(lia)) as (wl & -> & Hwl & Htl), (IHr fuel ltac:(lia)) as (wr & -> & Hwr & Htr).
    eexists. split; [done|]. split; [by apply Forall_app|]. intros b Hb.
    eapply tree_pipe; [done|apply Htl|apply Htr]; (eapply nulled_weaken; [done|]); intros; apply elem_of_app; auto.
  - destruct (IHl fuel ltac:(lia)) as (wl & -> & Hwl & Htl), (IHr fuel ltac:(lia)) as (wr & -> & Hwr & Htr).
    eexists. split; [done|]. split; [by apply Forall_app|]. intros b Hb.
    eapply tree_list; [done|apply Htl|apply Htr]; (eapply nulled_weaken; [done|]); intros; apply elem_of_app; auto.
  - destruct (IH fuel ltac:(lia)) as (ws & -> & Hws & Htree). eexists. split; [done|]. split; [done|].
    intros b Hb. eapply tree_back; [done|]. auto.
Qed.

(** A parsed tree becomes a command. *)
Lemma parsecmd_rep st i c :
  parsetree buf (mkps 0 []) = Ok (i, st) -> rep (heap st) i c ->
  exists b, parsecmd buf = Ok (i, heap st, b) /\ tree (heap st) b i c.
Proof.
  intros H Hrep. destruct (rep_tree _ _ _ (S i) Hrep ltac:(lia)) as (ws & Ews & Hws & Htree).
  destruct (nul_all_spec ws Hws) as (b & Eb & Hb). exists b. unfold parsecmd. rewrite H. cbn [obind].
  rewrite (nulterminate_writes _ _ _ _ _ Ews), Eb. split; [done|]. by apply Htree.
Qed.
End parser.

Lemma parsetree_safe buf : nul_free buf ->
  safe (parsetree buf) (mkps 0 []) (fun c s => heap_ok buf (heap s) /\ (c < length (heap s))%nat).
Proof.
  intros Hbuf. assert (Hok : ok buf (mkps 0 [])) by (constructor; [simpl; lia|by intros i n H]).
  destruct (parse_safe buf (parse_fuel buf)) as [Hline _]. unfold parsetree.
  eapply safe_call; [apply Hline; [done|unfold parse_fuel; simpl; lia]|].
  intros c s Hpd. apply safe_peek. intros _ _. apply safe_bind. unfold safe at 1, mget. cbn [pos].
  destruct (_ =? _)%nat; [|apply safe_panic]. apply safe_ret. simpl. destruct Hpd as [[_ Hh] _ _ Hc]. done.
Qed.

(** C13: the parser of the shell is total and its results are well typed: on
    every line without NUL bytes it ends (the fuel is enough, no array index is
    out of range), either in one of its calls of [panic] or with a command that
    is a finite tree in which every simple command has at most nine arguments,
    every argument and file name is a non-empty NUL-terminated string of word
    characters, and every redirection has one of the three modes. *)
Theorem parsecmd_total (s : list Z) :
  nul_free s ->
  (exists msg, parsecmd s = Panic msg) \/
  (exists i h b c, parsecmd s = Ok (i, h, b) /\ tree h b i c /\ wf_cmd c).
Proof.
  intros Hs. pose proof (parsetree_safe s Hs) as Hp. unfold safe in Hp.
  destruct (parsetree s (mkps 0 [])) as [[i st]|msg| | |] eqn:E; try done.
  - right. destruct Hp as [Hh Hi]. destruct (heap_rep s _ _ Hh Hi) as [c Hc].
    destruct (parsecmd_rep s Hs st i c E Hc) as (b & Eb & Hb). exists i, (heap st), b, c.
    split; [done|]. split; [done|]. by eapply rep_wf.
  - left. exists msg. unfold parsecmd. by rewrite E.
Qed.

Lemma parsecmd_total_witness :
  nul_free (chars "ls -l > out; (a | b) &") /\
  ((exists msg, parsecmd (chars "ls -l > out; (a | b) &") = Panic msg) \/
   (exists i h b c, parsecmd (chars "ls -l > out; (a | b) &") = Ok (i, h, b) /\ tree h b i c /\ wf_cmd c)).
Proof.
  assert (H : nul_free (chars "ls -l > out; (a | b) &")) by (by apply (bool_decide_unpack _)).
  split; [exact H|]. exact (parsecmd_total _ H).
Defined.
