(* ===== verification/ShellPrint.v ===== *)
(** * Printing and parsing shell commands

    [print] writes a command tree as a line, with parentheses where the grammar
    of sh.c needs them.  [parse_print] shows that [parsecmd] reads the line back
    as the same tree: the precedence of [|], [&] and [;], the nesting of blocks
    and the order of redirections are those of the grammar. *)

From Stdlib Require Import ZArith Lia String Ascii.
From stdpp Require Import base numbers list.
From S2P Require Import Prelude Params Bytes Ulib Shell ShellParse.

Local Open Scope Z_scope.
Local Open Scope kernel_scope.

(** ** Tokens *)

Inductive tok : Type :=
| TWord (w : list Z)
| TSym (c : Z).

Definition tok_text (t : tok) : list Z := match t with TWord w => w | TSym c => [c] end.

(** Each token is followed by a blank. *)
Definition render (ts : list tok) : list Z := concat (map (fun t => tok_text t ++ [32]) ts).

Definition wf_tok (t : tok) : Prop :=
  match t with TWord w => word w | TSym c => in_set symbols c = true end.

(** ** The printer

    The levels of the grammar, from the loosest. *)
Inductive level : Type := Line | Backs | Pipes | Simple.

Definition redir_toks (r : list Z * Z * Z) : list tok :=
  let '(f, _, fd) := r in [TSym (if fd =? 0 then ch "<" else ch ">"); TWord f].

Definition block (b : bool) (ts : list tok) : list tok :=
  if b then TSym (ch "(") :: ts ++ [TSym (ch ")")] else ts.

Fixpoint toks (lv : level) (c : cmd) : list tok :=
  match c with
  | CExec args => map TWord args
  | CRedir c f mode fd => toks Simple c ++ redir_toks (f, mode, fd)
  | CPipe l r =>
      block (match lv with Simple => true | _ => false end)
        (toks Simple l ++ TSym (ch "|") :: toks Pipes r)
  | CBack c =>
      block (match lv with Line | Backs => false | _ => true end)
        (toks Backs c ++ [TSym (ch "&")])
  | CList l r =>
      block (match lv with Line => false | _ => true end)
        (toks Backs l ++ TSym (ch ";") :: toks Line r)
  end.

Definition print (c : cmd) : list Z := render (toks Line c).

Lemma symbol_fact c : in_set symbols c = true -> c <> 0 /\ c <> 32 /\ is_byte c /\
  in_set whitespace c = false /\ word_char c = false /\ c <> ch "a" /\ c <> ch "+".
Proof.
  intros H. pose proof H as Hin. apply in_set_elem in Hin; [|by apply (bool_decide_unpack _)].
  unfold symbols in Hin. cbn [chars] in Hin. rewrite !list.elem_of_cons, list.elem_of_nil in Hin.
  destruct Hin as [->|[->|[->|[->|[->|[->|[->|[]]]]]]]]; by apply (bool_decide_unpack _).
Qed.

Lemma wf_tok_nul t : wf_tok t -> nul_free (tok_text t).
Proof.
  destruct t as [w|c]; simpl; [by intros (_ & _ & ?)|].
  intros H%symbol_fact. constructor; [tauto|constructor].
Qed.

Lemma render_nul_free ts : Forall wf_tok ts -> nul_free (render ts).
Proof.
  induction 1 as [|t ts Ht Hts IH]; [constructor|]. unfold render in *. simpl. apply Forall_app. split; [|done].
  apply Forall_app. split; [by apply wf_tok_nul|]. by apply (bool_decide_unpack _).
Qed.

Lemma render_length ts : Forall wf_tok ts -> (length ts <= length (render ts))%nat.
Proof.
  induction 1 as [|t ts Ht Hts IH]; [done|]. unfold render in *. simpl. rewrite !length_app. simpl. lia.
Qed.

Lemma render_head ts : Forall wf_tok ts -> span (in_set whitespace) (render ts) = 0%nat.
Proof.
  intros [|t ts' Ht _]; [done|]. unfold render. simpl. destruct t as [w|c]; simpl in *.
  - destruct Ht as (Hne & Hw & _). destruct w as [|c w]; [done|]. apply Forall_cons in Hw as [Hc _]. simpl.
    unfold word_char in Hc. apply andb_true_iff in Hc as [Hc%negb_true_iff _]. by rewrite Hc.
  - apply symbol_fact in Ht as (_ & _ & _ & H & _). by rewrite H.
Qed.

(** ** Reading the tokens *)

Section reading.
  Context (buf : list Z).
  Abbreviation es := (es buf).

(** The parser stands before the tokens [ts]. *)
Record here (s : ps) (ts : list tok) : Prop := {
  hr_pos : (pos s <= es)%nat;
  hr_rest : drop (pos s) buf = render ts;
  hr_wf : Forall wf_tok ts
}.

Lemma here_skip s ts : here s ts -> skip buf (pos s) = pos s.
Proof. intros [_ H Hw]. unfold skip. rewrite H, render_head by done. lia. Qed.

Lemma at_drop p c l : drop p buf = c :: l -> at_ buf p = c.
Proof.
  intros H. apply at_lookup. replace p with (p + 0)%nat by lia. by rewrite <- lookup_drop, H.
Qed.

Lemma drop_more p n l : drop p buf = l -> drop (p + n) buf = drop n l.
Proof. intros <-. by rewrite drop_drop. Qed.

(** After a token and its blank. *)
Lemma here_next s t ts h :
  here s (t :: ts) ->
  let e := (pos s + length (tok_text t))%nat in
  (e <= es)%nat /\ drop e buf = 32 :: render ts /\ here (mkps (skip buf e) h) ts.
Proof.
  intros [Hp Hr Hw] e. apply Forall_cons in Hw as [Ht Hw].
  assert (Hd : drop e buf = 32 :: render ts).
  { unfold e. rewrite (drop_more _ _ _ Hr). unfold render. simpl. by rewrite <- app_assoc, drop_app_length. }
  assert (He : (e < length buf)%nat).
  { apply (f_equal length) in Hd. rewrite length_drop in Hd. simpl in Hd. lia. }
  split; [unfold Shell.es; lia|]. split; [done|].
  assert (Es : skip buf e = S e).
  { unfold skip. rewrite Hd. change (span (in_set whitespace) (32 :: render ts))
      with (S (span (in_set whitespace) (render ts))). rewrite render_head by done. lia. }
  rewrite Es. constructor; simpl; [unfold Shell.es; lia| |done].
  replace (S e) with (e + 1)%nat by lia. by rewrite (drop_more _ _ _ Hd).
Qed.

Lemma peek_nil set s : here s [] -> peek buf set s = Ok (false, s).
Proof.
  intros H. unfold peek. rewrite (here_skip _ _ H). destruct H as [Hp Hr _].
  assert (at_ buf (pos s) = 0) as ->.
  { apply at_end. apply (f_equal length) in Hr. rewrite length_drop in Hr. simpl in Hr. unfold Shell.es. lia. }
  by destruct s.
Qed.

Lemma peek_sym set s c ts : here s (TSym c :: ts) -> peek buf set s = Ok (in_set set c, s).
Proof.
  intros H. unfold peek. rewrite (here_skip _ _ H). destruct H as [Hp Hr [Hc _]%Forall_cons]. simpl in Hc.
  rewrite (at_drop _ c (32 :: render ts)) by (by rewrite Hr). apply symbol_fact in Hc as [Hc _].
  rewrite (proj2 (Z.eqb_neq c 0)) by done. by destruct s.
Qed.

Lemma peek_word set s w ts :
  here s (TWord w :: ts) -> (forall c, in_set set c = true -> in_set symbols c = true) ->
  peek buf set s = Ok (false, s).
Proof.
  intros H Hset. unfold peek. rewrite (here_skip _ _ H). destruct H as [Hp Hr [(Hne & Hw & _) _]%Forall_cons].
  destruct w as [|c w]; [done|]. apply Forall_cons in Hw as [Hc _].
  rewrite (at_drop _ c (w ++ 32 :: render ts)).
  2: { rewrite Hr. unfold render. simpl. by rewrite <- app_assoc. }
  destruct (in_set set c) eqn:E; [|rewrite andb_false_r; by destruct s].
  apply Hset in E. unfold word_char in Hc. rewrite E, andb_false_r in Hc. done.
Qed.

Lemma gettoken_nil s : here s [] -> exists e, gettoken buf s = Ok ((0, pos s, e), s).
Proof.
  intros H. unfold gettoken. pose proof (here_skip _ _ H) as Hs. rewrite Hs. destruct H as [Hp Hr _].
  unfold token. assert (at_ buf (pos s) = 0) as ->.
  { apply at_end. apply (f_equal length) in Hr. rewrite length_drop in Hr. simpl in Hr. unfold Shell.es. lia. }
  simpl. rewrite Hs. exists (pos s). by destruct s.
Qed.

Lemma gettoken_sym s c ts :
  here s (TSym c :: ts) ->
  exists q e s', gettoken buf s = Ok ((c, q, e), s') /\ heap s' = heap s /\ here s' ts.
Proof.
  intros H. destruct (here_next _ _ _ (heap s) H) as (He & Hd & Hn). simpl in *.
  unfold gettoken. rewrite (here_skip _ _ H). destruct H as [Hp Hr [Hc _]%Forall_cons]. simpl in Hc.
  assert (Hat : at_ buf (pos s) = c) by (apply (at_drop _ c (32 :: render ts)); by rewrite Hr).
  assert (token buf (pos s) = (c, (pos s + 1)%nat)) as ->.
  { unfold token. rewrite Hat, Nat.add_1_r. pose proof (symbol_fact _ Hc) as (H0 & _).
    rewrite (proj2 (Z.eqb_neq c 0)) by done.
    destruct (symbols_split c Hc) as [->|Hgt]; [done|].
    assert (in_set (chars "|();&<") c = false) as -> by (by rewrite Hgt).
    rewrite Hgt. simpl. replace (S (pos s)) with (pos s + 1)%nat by lia. by rewrite (at_drop _ _ _ Hd). }
  eauto 10.
Qed.

Lemma span_app f w c l : Forall (fun c => f c = true) w -> f c = false -> span f (w ++ c :: l) = length w.
Proof. intros Hw Hc. induction Hw as [|d w Hd Hw IH]; simpl; [by rewrite Hc|]. rewrite Hd, IH. done. Qed.

Lemma gettoken_word s w ts :
  here s (TWord w :: ts) ->
  exists e s', gettoken buf s = Ok ((ch "a", pos s, e), s') /\ heap s' = heap s /\ here s' ts /\
    tok_ok buf (pos s) e /\ slice buf (pos s) e = w.
Proof.
  intros H. pose proof H as Hh. destruct (here_next _ _ _ (heap s) H) as (He & Hd & Hn). simpl in *.
  pose proof (here_skip _ _ H) as Hskip.
  unfold gettoken. rewrite Hskip. destruct H as [Hp Hr [(Hne & Hw & Hnul) _]%Forall_cons].
  assert (Hr' : drop (pos s) buf = w ++ 32 :: render ts).
  { rewrite Hr. unfold render. simpl. by rewrite <- app_assoc. }
  assert (Hlen : (0 < length w)%nat) by (destruct w; [done|simpl; lia]).
  assert (Ht : token buf (pos s) = (ch "a", (pos s + length w)%nat)).
  { unfold token, word_end. rewrite Hr', (span_app _ _ _ _ Hw) by done.
    destruct w as [|c w]; [done|]. apply Forall_cons in Hw as [Hc _]. apply Forall_cons in Hnul as [[Hc0 _] _].
    rewrite (at_drop _ c (w ++ 32 :: render ts)) by done. rewrite (proj2 (Z.eqb_neq c 0)) by done.
    unfold word_char in Hc. apply andb_true_iff in Hc as [_ Hsym%negb_true_iff].
    destruct (in_set (chars "|();&<") c) eqn:E1.
    { apply in_set_elem in E1; [|by apply (bool_decide_unpack _)].
      apply not_true_iff_false in Hsym. destruct Hsym. apply in_set_elem; [by apply (bool_decide_unpack _)|].
      unfold symbols. cbn [chars] in *. rewrite !list.elem_of_cons in *. tauto. }
    destruct (Z.eqb_spec c (ch ">")) as [->|]; [done|done]. }
  pose proof (token_spec buf (pos s) Hp) as Hspec. rewrite Ht in Hspec |- *.
  assert (Hws : in_set whitespace (at_ buf (pos s)) = false) by (rewrite <- Hskip; by apply skip_stops).
  destruct (Hspec Hws) as [(_ & ? & _)|(_ & _ & _ & Htok)]; [done|].
  eexists _, _. split; [done|]. split; [done|]. split; [done|]. split; [by apply Htok|].
  unfold slice. replace (pos s + length w - pos s)%nat with (length w) by lia. by rewrite Hr', take_app_length.
Qed.

(** ** Redirections *)

Definition wrap (c : cmd) (rs : list (list Z * Z * Z)) : cmd :=
  foldl (fun c '(f, mode, fd) => CRedir c f mode fd) c rs.

Definition wf_redir (r : list Z * Z * Z) : Prop := let '(f, mode, fd) := r in word f /\ redir_ok mode fd.

Lemma rep_prefix h h' i c : rep buf h i c -> h `prefix_of` h' -> rep buf h' i c.
Proof.
  intros H [k ->]. induction H; [eapply rep_exec|eapply rep_redir|eapply rep_pipe|eapply rep_list|eapply rep_back];
    try (by apply lookup_app_l_Some); done.
Qed.

(** A tail the commands of a level may stand before. *)
Definition follow (set : list Z) (ts : list tok) : Prop :=
  ts = [] \/ exists c ts', ts = TSym c :: ts' /\ in_set set c = true.

(** [peek] before such a tail. *)
Lemma peek_follow set other s ts :
  here s ts -> follow set ts -> (forall c, in_set set c = true -> in_set other c = false) ->
  peek buf other s = Ok (false, s).
Proof.
  intros H [->|(c & ts' & -> & Hc)] Hd; [by apply peek_nil|].
  rewrite (peek_sym _ _ _ _ H). by rewrite (Hd c Hc).
Qed.

(** What a call leaves: a command above the old heap, before the tokens [ts]. *)
Definition reads {A} (m : M ps A) (s : ps) (ts : list tok) (Q : A -> list node -> Prop) : Prop :=
  exists a s', m s = Ok (a, s') /\ here s' ts /\ heap s `prefix_of` heap s' /\ Q a (heap s').

Lemma reads_bind {A B} (m : M ps A) (k : A -> M ps B) s ts ts' P Q :
  reads m s ts P ->
  (forall a s1, here s1 ts -> heap s `prefix_of` heap s1 -> P a (heap s1) -> reads (k a) s1 ts' Q) ->
  reads (mbind m k) s ts' Q.
Proof.
  intros (a & s1 & E & Hh & Hpre & HP) Hk. destruct (Hk a s1 Hh Hpre HP) as (b & s2 & E2 & Hh2 & Hpre2 & HQ).
  exists b, s2. rewrite (mbind_ok _ _ _ _ _ E). split; [done|]. split; [done|]. split; [by etrans|done].
Qed.

Lemma reads_step {A B} (m : M ps A) (k : A -> M ps B) s a s1 ts Q :
  m s = Ok (a, s1) -> heap s1 = heap s -> reads (k a) s1 ts Q -> reads (mbind m k) s ts Q.
Proof.
  intros E Hh (b & s2 & E2 & H2 & Hpre & HQ). exists b, s2. rewrite (mbind_ok _ _ _ _ _ E).
  rewrite Hh in Hpre. done.
Qed.

Lemma reads_mono {A} (m : M ps A) s ts (P Q : A -> list node -> Prop) :
  reads m s ts P -> (forall a h, heap s `prefix_of` h -> P a h -> Q a h) -> reads m s ts Q.
Proof. intros (a & s1 & E & H1 & H2 & H3) HPQ. exists a, s1. auto. Qed.

Lemma reads_ret {A} (a : A) s ts (Q : A -> list node -> Prop) : here s ts -> Q a (heap s) -> reads (mret a) s ts Q.
Proof. intros H HQ. exists a, s. done. Qed.

(** Allocating a node. *)
Lemma reads_malloc n s ts (Q : nat -> list node -> Prop) :
  here s ts -> Q (length (heap s)) (heap s ++ [n]) -> reads (malloc_node n) s ts Q.
Proof.
  intros [H1 H2 H3] HQ. eexists _, _. split; [done|]. split; [by constructor|]. split; [by apply prefix_app_r|done].
Qed.

Lemma redirs_none n i s :
  peek buf (chars "<>") s = Ok (false, s) -> parseredirs_loop buf (S n) i s = Ok (i, s).
Proof. intros H. cbn [parseredirs_loop]. by rewrite (mbind_ok _ _ _ _ _ H). Qed.

Lemma lookup_snoc_length {A} (l : list A) x : (l ++ [x]) !! length l = Some x.
Proof. rewrite lookup_app_r by lia. by rewrite Nat.sub_diag. Qed.

Lemma rep_lt h i c : rep buf h i c -> (i < length h)%nat.
Proof. destruct 1; by eapply lookup_lt_Some. Qed.

Lemma redirs_here n i c rs rest s :
  rep buf (heap s) i c -> Forall wf_redir rs -> here s (mjoin (map redir_toks rs) ++ rest) ->
  follow (chars "|)&;") rest -> (length rs < n)%nat ->
  reads (parseredirs_loop buf n i) s rest (fun i' h => rep buf h i' (wrap c rs)).
Proof.
  revert i c rs s. induction n as [|n IH]; intros i c rs s Hrep Hrs Hh Hf Hn; [lia|].
  destruct rs as [|[[f mode] fd] rs].
  - simpl in Hh. exists i, s. rewrite redirs_none; [split; [done|]; split; [done|]; by split|].
    eapply peek_follow; [done|done|]. intros d Hd. apply in_set_elem in Hd; [|by apply (bool_decide_unpack _)].
    cbn [chars] in Hd. rewrite !list.elem_of_cons, list.elem_of_nil in Hd.
    by destruct Hd as [->|[->|[->|[->|[]]]]].
  - apply Forall_cons in Hrs as [[Hword Hm] Hrs]. cbn [mjoin list_join map app redir_toks] in Hh.
    set (sym := if fd =? 0 then ch "<" else ch ">") in *.
    assert (Hsym : in_set (chars "<>") sym = true) by (unfold sym; by destruct (fd =? 0)).
    destruct (gettoken_sym _ _ _ Hh) as (q1 & e1 & s1 & E1 & Hh1 & H1).
    destruct (gettoken_word _ _ _ H1) as (e2 & s2 & E2 & Hh2 & H2 & Htok & Hslice).
    cbn [parseredirs_loop]. eapply reads_step; [by eapply peek_sym|done|]. rewrite Hsym.
    eapply reads_step; [exact E1|done|]. cbv beta iota. eapply reads_step; [exact E2|congruence|]. cbv beta iota.
    change (negb (ch "a" =? ch "a")) with false. cbv iota.
    assert (Hgo : reads (mbind (redircmd i (pos s1) e2 mode fd) (parseredirs_loop buf n)) s2 rest
                    (fun i' h => rep buf h i' (wrap (CRedir c f mode fd) rs))).
    { eapply (reads_bind _ _ _ (mjoin (map redir_toks rs) ++ rest) _
                (fun i' h => rep buf h i' (CRedir c f mode fd))).
      - apply reads_malloc; [done|]. rewrite Hh2, Hh1, <- Hslice.
        eapply rep_redir; [apply lookup_snoc_length|by eapply rep_lt|done|done|].
        eapply rep_prefix; [eassumption|by apply prefix_app_r].
      - intros i' s3 H3 _ Hrep3. apply IH; try done. simpl in Hn. lia. }
    destruct Hm as [[-> ->]|[-> ->]]; exact Hgo.
Qed.

(** ** Simple commands *)

Lemma here_length s ts : here s ts -> (length ts <= es)%nat.
Proof.
  intros [Hp Hr Hw]. pose proof (render_length _ Hw) as H. rewrite <- Hr, length_drop in H. unfold Shell.es in *. lia.
Qed.

Lemma length_redirs rs : length (mjoin (map redir_toks rs)) = (2 * length rs)%nat.
Proof. induction rs as [|[[f mode] fd] rs IH]; [done|]. simpl in *. rewrite IH. lia. Qed.

Lemma args_last n h0 cmd l ret s rest :
  filling buf h0 cmd l s -> here s rest -> follow (chars "|)&;") rest ->
  parseargs_loop buf (S n) cmd (length l) ret s = Ok (ret, s).
Proof.
  intros [_ Hn Hl _] Hh Hf. cbn [parseargs_loop]. destruct Hf as [->|(c & ts & -> & Hc)].
  - rewrite (mbind_ok _ _ _ _ _ (peek_nil _ _ Hh)). cbv iota.
    destruct (gettoken_nil _ Hh) as (e & E). rewrite (mbind_ok _ _ _ _ _ E). cbv iota beta.
    change (0 =? 0) with true. cbv iota. by rewrite (mbind_ok _ _ _ _ _ (set_arg_none _ _ _ Hn Hl)).
  - rewrite (mbind_ok _ _ _ _ _ (peek_sym _ _ _ _ Hh)), Hc. cbv iota.
    by rewrite (mbind_ok _ _ _ _ _ (set_arg_none _ _ _ Hn Hl)).
Qed.

Lemma sub_symbols set c : forallb (in_set symbols) set = true -> nul_free set -> in_set set c = true -> in_set symbols c = true.
Proof.
  intros Hs Hn Hc. apply in_set_elem in Hc; [|done]. rewrite forallb_forall in Hs. apply Hs. by apply list_elem_of_In.
Qed.

(** Before a word [peek] finds none of the symbols. *)
Lemma peek_word_no set s w ts :
  forallb (in_set symbols) set = true -> nul_free set -> here s (TWord w :: ts) -> peek buf set s = Ok (false, s).
Proof. intros Hs Hn H. eapply peek_word; [done|]. intros c. by apply sub_symbols. Qed.

(** Storing one more word. *)
Lemma filling_word h0 cmd l s q e s1 :
  filling buf h0 cmd l s -> heap s1 = heap s -> tok_ok buf q e -> (S (length l) < MAXARGS)%nat ->
  h0 `prefix_of` heap s ->
  let s2 := mkps (pos s1) (<[cmd := exec_node (l ++ [(q, e)])]> (heap s1)) in
  set_arg cmd (length l) (Some q) (Some e) s1 = Ok (tt, s2) /\ filling buf h0 cmd (l ++ [(q, e)]) s2 /\
  h0 `prefix_of` heap s2.
Proof.
  intros [Ha Hn Hl Hw] Hh Htok Hlen [k Hk] s2.
  split; [apply set_arg_some; [by rewrite Hh|done]|]. pose proof (lookup_lt_Some _ _ _ Hn) as Hlt. split.
  - constructor; simpl; [done| |rewrite length_app; simpl; lia|].
    + rewrite Hh. by apply list_lookup_insert_eq.
    + apply Forall_app. split; [done|]. by constructor.
  - simpl. rewrite Hh, Hk, insert_app_r_alt by done. by apply prefix_app_r.
Qed.

Lemma filling_rep h0 cmd l s : filling buf h0 cmd l s ->
  rep buf (heap s) cmd (CExec (map (fun w => slice buf (fst w) (snd w)) l)).
Proof. intros [_ Hn Hl Hw]. by apply rep_exec. Qed.

Lemma filling_prefix h0 cmd l s s' : filling buf h0 cmd l s -> heap s `prefix_of` heap s' -> filling buf h0 cmd l s'.
Proof. intros [H1 H2 H3 H4] [k Hk]. constructor; try done. rewrite Hk. by apply lookup_app_l_Some. Qed.

(** The loop over the arguments, with the redirections after the last. *)
Lemma args_here n args l rs rest s cmd h0 :
  args <> [] -> filling buf h0 cmd l s -> h0 `prefix_of` heap s -> Forall wf_redir rs ->
  here s (map TWord args ++ mjoin (map redir_toks rs) ++ rest) -> follow (chars "|)&;") rest ->
  (length l + length args < MAXARGS)%nat -> (length args < n)%nat ->
  exists i s', parseargs_loop buf n cmd (length l) cmd s = Ok (i, s') /\ here s' rest /\
    h0 `prefix_of` heap s' /\
    rep buf (heap s') i (wrap (CExec (map (fun w => slice buf (fst w) (snd w)) l ++ args)) rs).
Proof.
  revert args l s. induction n as [|n IH]; intros args l s Hne Hfl Hpre Hrs Hh Hf Hlen Hn; [lia|].
  destruct args as [|a args]; [done|]. simpl in Hh, Hlen, Hn.
  cbn [parseargs_loop]. rewrite (mbind_ok _ _ _ _ _ (peek_word_no (chars "|)&;") _ _ _ eq_refl ltac:(by apply (bool_decide_unpack _)) Hh)).
  destruct (gettoken_word _ _ _ Hh) as (e & s1 & E1 & Hh1 & H1 & Htok & Hslice).
  cbv iota. rewrite (mbind_ok _ _ _ _ _ E1). cbv beta iota.
  change (ch "a" =? 0) with false. change (negb (ch "a" =? ch "a")) with false. cbv iota.
  destruct (filling_word h0 cmd l s (pos s) e s1 Hfl Hh1 Htok ltac:(lia) Hpre) as (E2 & Hfl2 & Hpre2).
  set (s2 := mkps _ _) in *. rewrite (mbind_ok _ _ _ _ _ E2).
  rewrite (proj2 (Nat.leb_gt _ _)) by lia.
  assert (H2 : here s2 (map TWord args ++ mjoin (map redir_toks rs) ++ rest)) by (destruct H1; by constructor).
  assert (El : length (l ++ [(pos s, e)]) = S (length l)) by (rewrite length_app; simpl; lia).
  assert (Em : map (fun w => slice buf (fst w) (snd w)) (l ++ [(pos s, e)]) ++ args =
               map (fun w => slice buf (fst w) (snd w)) l ++ a :: args).
  { rewrite map_app, <- app_assoc. simpl. by rewrite Hslice. }
  rewrite <- El, <- Em. unfold parseredirs. destruct args as [|a' args].
  - destruct (redirs_here (S es) cmd _ rs rest s2 (filling_rep _ _ _ _ Hfl2) Hrs H2 Hf) as (i & s3 & E3 & H3 & Hp3 & Hrep).
    { pose proof (here_length _ _ H2) as HL. rewrite !length_app, length_redirs in HL. lia. }
    exists i, s3. rewrite (mbind_ok _ _ _ _ _ E3), app_nil_r. destruct n as [|n]; [lia|].
    rewrite (args_last _ h0 _ _ _ _ rest); [|by eapply filling_prefix|done|done].
    split; [done|]. split; [done|]. split; [by etrans|done].
  - rewrite (mbind_ok _ _ _ _ _ (redirs_none _ _ _ (peek_word_no (chars "<>") _ _ _ eq_refl ltac:(by apply (bool_decide_unpack _)) H2))).
    apply IH; try done; rewrite ?El; simpl in *; lia.
Qed.

(** ** The levels of the grammar

    Each statement: before the tokens of [c] and a tail that may follow it, the
    parsing function of the level ends before the tail with a node for [c]. *)

Definition simple_ok (c : cmd) : Prop := forall f rs s rest,
  wf_cmd c -> Forall wf_redir rs -> here s (toks Simple c ++ mjoin (map redir_toks rs) ++ rest) ->
  follow (chars "|)&;") rest ->
  (4 * length (toks Simple c ++ mjoin (map redir_toks rs) ++ rest) + 2 <= f)%nat ->
  reads (parseexec buf f) s rest (fun i h => rep buf h i (wrap c rs)).

Definition pipes_ok (c : cmd) : Prop := forall f s rest,
  wf_cmd c -> here s (toks Pipes c ++ rest) -> follow (chars ")&;") rest ->
  (4 * length (toks Pipes c ++ rest) + 3 <= f)%nat ->
  reads (parsepipe buf f) s rest (fun i h => rep buf h i c).

(** [parsepipe] and the rounds of the loop over [&] that belong to [c]. *)
Definition backs_ok (c : cmd) : Prop := forall f n s rest,
  wf_cmd c -> here s (toks Backs c ++ rest) -> follow (chars ")&;") rest ->
  (4 * length (toks Backs c ++ rest) + 3 <= f)%nat -> (length (toks Backs c ++ rest) < n)%nat ->
  exists i s' m, mbind (parsepipe buf f) (parseback_loop buf n) s = parseback_loop buf m i s' /\
    (length rest < m)%nat /\ here s' rest /\ heap s `prefix_of` heap s' /\ rep buf (heap s') i c.

Definition line_ok (c : cmd) : Prop := forall f s rest,
  wf_cmd c -> here s (toks Line c ++ rest) -> follow (chars ")") rest ->
  (4 * length (toks Line c ++ rest) + 4 <= f)%nat ->
  reads (parseline buf f) s rest (fun i h => rep buf h i c).

(** Sets of symbols: one is part of another, or has nothing in common with it. *)
Lemma follow_mono set set' ts :
  forallb (in_set set') set = true -> nul_free set -> follow set ts -> follow set' ts.
Proof.
  intros Hs Hn [->|(c & ts' & -> & Hc)]; [by left|right]. exists c, ts'. split; [done|].
  apply in_set_elem in Hc; [|done]. rewrite forallb_forall in Hs. apply Hs. by apply list_elem_of_In.
Qed.

Lemma peek_not set other s ts :
  forallb (fun c => negb (in_set other c)) set = true -> nul_free set -> here s ts -> follow set ts ->
  peek buf other s = Ok (false, s).
Proof.
  intros Hs Hn Hh Hf. eapply peek_follow; [done|done|]. intros c Hc. apply in_set_elem in Hc; [|done].
  rewrite forallb_forall in Hs. apply negb_true_iff, Hs. by apply list_elem_of_In.
Qed.

Ltac sets := first [reflexivity | by apply (bool_decide_unpack _)].

Lemma exec_ok args : simple_ok (CExec args).
Proof.
  intros f rs s rest [Hlen Hw] Hrs Hh Hf Hfuel. destruct f as [|f]; [lia|]. cbn [parseexec toks] in *.
  assert (Hpk : peek buf (chars "(") s = Ok (false, s)).
  { destruct args as [|a args]; simpl in Hh; [|by eapply peek_word_no; [sets..|]].
    destruct rs as [|[[rf mode] fd] rs]; simpl in Hh.
    - by eapply (peek_not (chars "|)&;")); [sets..| |].
    - rewrite (peek_sym _ _ _ _ Hh). by destruct (fd =? 0). }
  eapply reads_step; [exact Hpk|done|]. cbv iota.
  set (h0 := heap s). set (s1 := mkps (pos s) (h0 ++ [EXEC (replicate MAXARGS None) (replicate MAXARGS None)])).
  assert (E1 : execcmd s = Ok (length h0, s1)) by done.
  assert (Hfl : filling buf h0 (length h0) [] s1).
  { constructor; [done| |apply MAXARGS_pos|constructor]. cbn [heap s1]. by rewrite lookup_snoc_length. }
  assert (Hpre : h0 `prefix_of` heap s1) by (by apply prefix_app_r).
  assert (H1 : here s1 (map TWord args ++ mjoin (map redir_toks rs) ++ rest)) by (destruct Hh; by constructor).
  unfold reads. rewrite (mbind_ok _ _ _ _ _ E1). unfold parseredirs. destruct args as [|a args].
  - destruct (redirs_here (S es) _ _ rs rest s1 (filling_rep _ _ _ _ Hfl) Hrs H1 Hf) as (i & s3 & E3 & H3 & Hp3 & Hrep).
    { pose proof (here_length _ _ H1) as HL. rewrite !length_app, length_redirs in HL. lia. }
    exists i, s3. rewrite (mbind_ok _ _ _ _ _ E3).
    rewrite (args_last es h0 _ [] i s3 rest); [|by eapply filling_prefix|done|done].
    split; [done|]. split; [done|]. split; [by etrans|done].
  - rewrite (mbind_ok _ _ _ _ _ (redirs_none _ _ _ (peek_word_no (chars "<>") _ _ _ ltac:(sets) ltac:(sets) H1))).
    apply (args_here (S es) (a :: args) [] rs rest s1 (length h0) h0); try done.
    pose proof (here_length _ _ H1) as HL. rewrite !length_app, length_map in HL. lia.
Qed.

Lemma redir_simple c f mode fd : simple_ok c -> simple_ok (CRedir c f mode fd).
Proof.
  intros IH fu rs s rest (Hc & Hword & Hm) Hrs Hh Hf Hfuel. cbn [toks] in *.
  assert (E : (toks Simple c ++ redir_toks (f, mode, fd)) ++ mjoin (map redir_toks rs) ++ rest =
              toks Simple c ++ mjoin (map redir_toks ((f, mode, fd) :: rs)) ++ rest).
  { rewrite <- !app_assoc. done. }
  rewrite E in *. apply (IH fu ((f, mode, fd) :: rs)); try done. by constructor.
Qed.

(** A parenthesised line. *)
Lemma block_simple c : toks Simple c = block true (toks Line c) -> line_ok c -> simple_ok c.
Proof.
  intros Et IH f rs s rest Hc Hrs Hh Hf Hfuel. rewrite Et in *. cbn [block app] in *.
  rewrite <- app_assoc in *. cbn [app] in *. destruct f as [|[|f]]; [lia..|].
  cbn [parseexec]. eapply reads_step; [by eapply peek_sym|done|].
  change (in_set (chars "(") (ch "(")) with true. cbv iota. cbn [parseblock].
  eapply reads_step; [by eapply peek_sym|done|]. change (negb (in_set (chars "(") (ch "("))) with false. cbv iota.
  destruct (gettoken_sym _ _ _ Hh) as (q & e & s1 & E1 & Hh1 & H1). eapply reads_step; [exact E1|done|].
  eapply reads_bind; [apply IH; [done|exact H1| |]|].
  - right. eexists _, _. split; [done|sets].
  - cbn [length] in Hfuel. lia.
  - intros i s2 H2 _ Hrep. eapply reads_step; [by eapply peek_sym|done|].
    change (negb (in_set (chars ")") (ch ")"))) with false. cbv iota.
    destruct (gettoken_sym _ _ _ H2) as (q3 & e3 & s3 & E3 & Hh3 & H3). eapply reads_step; [exact E3|done|].
    apply redirs_here; [by rewrite Hh3|done|done|done|].
    pose proof (here_length _ _ H3) as HL. rewrite length_app, length_redirs in HL. lia.
Qed.

Lemma pipes_of_simple c : toks Pipes c = toks Simple c -> simple_ok c -> pipes_ok c.
Proof.
  intros Et IH f s rest Hc Hh Hf Hfuel. rewrite Et in *. destruct f as [|f]; [lia|]. cbn [parsepipe].
  eapply reads_bind.
  - apply (IH f [] s rest); [done|constructor|done| |].
    + eapply follow_mono; [..|exact Hf]; sets.
    + simpl. lia.
  - intros i s1 H1 _ Hrep. eapply reads_step; [by eapply (peek_not (chars ")&;")); [sets..| |]|done|].
    by apply reads_ret.
Qed.

Lemma pipe_pipes l r : simple_ok l -> pipes_ok r -> pipes_ok (CPipe l r).
Proof.
  intros IHl IHr f s rest [Hl Hr] Hh Hf Hfuel. destruct f as [|f]; [lia|]. cbn [parsepipe toks block] in *.
  rewrite <- app_assoc in *. cbn [app] in *. rewrite length_app in Hfuel. cbn [length] in Hfuel.
  eapply reads_bind.
  - apply (IHl f [] s (TSym (ch "|") :: toks Pipes r ++ rest)); [done|constructor|done| |].
    + right. eexists _, _. split; [done|sets].
    + cbn [map mjoin list_join app]. rewrite length_app. cbn [length]. lia.
  - cbn [map wrap foldl]. intros i s1 H1 _ Hrepl. eapply reads_step; [by eapply peek_sym|done|].
    change (in_set (chars "|") (ch "|")) with true. cbv iota.
    destruct (gettoken_sym _ _ _ H1) as (q & e & s2 & E2 & Hh2 & H2). eapply reads_step; [exact E2|done|].
    eapply reads_bind; [apply IHr; [done|exact H2|done|lia]|]. intros j s3 H3 Hpre Hrepr.
    apply reads_malloc; [done|]. pose proof (rep_lt _ _ _ Hrepr). rewrite <- Hh2 in Hrepl.
    pose proof (rep_prefix _ _ _ _ Hrepl Hpre) as Hrepl'. pose proof (rep_lt _ _ _ Hrepl').
    eapply rep_pipe; [apply lookup_snoc_length|done|done|..]; (apply (rep_prefix (heap s3)); [done|by apply prefix_app_r]).
Qed.

Lemma backs_of_pipes c : toks Backs c = toks Pipes c -> pipes_ok c -> backs_ok c.
Proof.
  intros Et IH f n s rest Hc Hh Hf Hfuel Hn. rewrite Et in *.
  destruct (IH f s rest Hc Hh Hf Hfuel) as (i & s1 & E & H1 & Hpre & Hrep).
  exists i, s1, n. rewrite (mbind_ok _ _ _ _ _ E). rewrite length_app in Hn. repeat (split; [done || lia|]). done.
Qed.

Lemma back_backs c : backs_ok c -> backs_ok (CBack c).
Proof.
  intros IH f n s rest Hc Hh Hf Hfuel Hn. cbn [toks block] in *. rewrite <- app_assoc in *. cbn [app] in *.
  destruct (IH f n s (TSym (ch "&") :: rest)) as (i & s1 & m & E & Hm & H1 & Hpre & Hrep); try done.
  { right. eexists _, _. split; [done|sets]. }
  destruct m as [|m]; [lia|]. cbn [length] in Hm.
  destruct (gettoken_sym _ _ _ H1) as (q & e & s2 & E2 & Hh2 & H2).
  exists (length (heap s2)), (mkps (pos s2) (heap s2 ++ [BACK i])), m. split; [|split; [lia|]].
  - rewrite E. cbn [parseback_loop]. rewrite (mbind_ok _ _ _ _ _ (peek_sym _ _ _ _ H1)).
    change (in_set (chars "&") (ch "&")) with true. cbv iota. by rewrite (mbind_ok _ _ _ _ _ E2).
  - rewrite Hh2 in *. cbn [heap]. split; [destruct H2; by constructor|]. split; [etrans; [done|by apply prefix_app_r]|].
    eapply rep_back; [apply lookup_snoc_length|by eapply rep_lt|]. eapply rep_prefix; [eassumption|by apply prefix_app_r].
Qed.

(** The end of the loop over [&]. *)
Lemma backs_end m i s ts : here s ts -> follow (chars ");") ts -> (0 < m)%nat -> parseback_loop buf m i s = Ok (i, s).
Proof.
  intros H Hf Hm. destruct m as [|m]; [lia|]. cbn [parseback_loop].
  by rewrite (mbind_ok _ _ _ _ _ (peek_not (chars ");") (chars "&") _ _ ltac:(sets) ltac:(sets) H Hf)).
Qed.

Lemma line_of_backs c : toks Line c = toks Backs c -> backs_ok c -> line_ok c.
Proof.
  intros Et IH f s rest Hc Hh Hf Hfuel. rewrite Et in *. destruct f as [|f]; [lia|]. cbn [parseline].
  pose proof (here_length _ _ Hh) as HL.
  destruct (IH f (S es) s rest) as (i & s1 & m & E & Hm & H1 & Hpre & Hrep); try (done || lia).
  { eapply follow_mono; [..|exact Hf]; sets. }
  rewrite (backs_end m i s1 rest) in E; [|done|(eapply follow_mono; [..|exact Hf]; sets)|lia].
  exists i, s1. unfold reads. rewrite <- mbind_assoc. rewrite (mbind_ok _ _ _ _ _ E).
  rewrite (mbind_ok _ _ _ _ _ (peek_not (chars ")") (chars ";") _ _ ltac:(sets) ltac:(sets) H1 Hf)). done.
Qed.

Lemma list_line l r : backs_ok l -> line_ok r -> line_ok (CList l r).
Proof.
  intros IHl IHr f s rest [Hl Hr] Hh Hf Hfuel. destruct f as [|f]; [lia|]. cbn [parseline toks block] in *.
  rewrite <- app_assoc in *. cbn [app] in *. pose proof (here_length _ _ Hh) as HL.
  destruct (IHl f (S es) s (TSym (ch ";") :: toks Line r ++ rest)) as (i & s1 & m & E & Hm & H1 & Hpre & Hrepl);
    try (done || lia).
  { right. eexists _, _. split; [done|sets]. }
  rewrite (backs_end m i s1 _ H1) in E; [|right; eexists _, _; (split; [done|sets])|lia].
  destruct (gettoken_sym _ _ _ H1) as (q & e & s2 & E2 & Hh2 & H2).
  destruct (IHr f s2 rest) as (j & s3 & E3 & H3 & Hpre3 & Hrepr); try done.
  { rewrite length_app in Hfuel. cbn [length] in Hfuel. lia. }
  rewrite Hh2 in Hpre3. pose proof (rep_prefix _ _ _ _ Hrepl Hpre3) as Hrepl'.
  exists (length (heap s3)), (mkps (pos s3) (heap s3 ++ [LIST i j])).
  rewrite <- mbind_assoc. rewrite (mbind_ok _ _ _ _ _ E), (mbind_ok _ _ _ _ _ (peek_sym _ _ _ _ H1)).
  change (in_set (chars ";") (ch ";")) with true. cbv iota.
  rewrite (mbind_ok _ _ _ _ _ E2), (mbind_ok _ _ _ _ _ E3). split; [done|]. cbn [heap].
  split; [destruct H3; by constructor|]. split; [by repeat (etrans; [done|]); apply prefix_app_r|].
  pose proof (rep_lt _ _ _ Hrepr). pose proof (rep_lt _ _ _ Hrepl').
  eapply rep_list; [apply lookup_snoc_length|done|done|..]; (apply (rep_prefix (heap s3)); [done|by apply prefix_app_r]).
Qed.

Lemma levels_ok c : simple_ok c /\ pipes_ok c /\ backs_ok c /\ line_ok c.
Proof.
  induction c as [args|c (IH & _) f mode fd|l (IHl & _) r (_ & IHr & _)|l (_ & _ & IHl & _) r (_ & _ & _ & IHr)|c (_ & _ & IH & _)].
  - assert (H3 := exec_ok args). assert (H2 := pipes_of_simple (CExec args) eq_refl H3).
    assert (H1 := backs_of_pipes (CExec args) eq_refl H2). auto using line_of_backs.
  - assert (H3 := redir_simple c f mode fd IH). assert (H2 := pipes_of_simple (CRedir c f mode fd) eq_refl H3).
    assert (H1 := backs_of_pipes (CRedir c f mode fd) eq_refl H2). auto using line_of_backs.
  - assert (H2 := pipe_pipes l r IHl IHr). assert (H1 := backs_of_pipes (CPipe l r) eq_refl H2).
    assert (H0 := line_of_backs (CPipe l r) eq_refl H1). auto using block_simple.
  - assert (H0 := list_line l r IHl IHr). assert (H3 := block_simple (CList l r) eq_refl H0).
    assert (H2 := pipes_of_simple (CList l r) eq_refl H3). auto using backs_of_pipes.
  - assert (H1 := back_backs c IH). assert (H0 := line_of_backs (CBack c) eq_refl H1).
    assert (H3 := block_simple (CBack c) eq_refl H0). auto using pipes_of_simple.
Qed.
End reading.

(** ** The round trip *)

Lemma block_wf b ts : Forall wf_tok ts -> Forall wf_tok (block b ts).
Proof.
  intros H. destruct b; [|done]. simpl. constructor; [done|]. apply Forall_app. split; [done|]. by constructor.
Qed.

Lemma toks_wf lv c : wf_cmd c -> Forall wf_tok (toks lv c).
Proof.
  revert lv. induction c as [args|c IH f mode fd|l IHl r IHr|l IHl r IHr|c IH]; intros lv Hc; simpl in *.
  - apply Forall_map. apply Hc.
  - destruct Hc as (Hc & Hf & _). apply Forall_app. split; [by apply IH|].
    constructor; [simpl; by destruct (fd =? 0)|]. by constructor.
  - destruct Hc as [Hl Hr]. apply block_wf, Forall_app. split; [by apply IHl|]. constructor; [done|by apply IHr].
  - destruct Hc as [Hl Hr]. apply block_wf, Forall_app. split; [by apply IHl|]. constructor; [done|by apply IHr].
  - apply block_wf, Forall_app. split; [by apply IH|]. by constructor.
Qed.

Lemma here_end buf s : here buf s [] -> pos s = es buf.
Proof.
  intros [Hp Hr _]. apply (f_equal length) in Hr. rewrite length_drop in Hr. unfold Shell.es in *. simpl in Hr. lia.
Qed.

Lemma parsetree_print c : wf_cmd c ->
  exists i s, parsetree (print c) (mkps 0 []) = Ok (i, s) /\ rep (print c) (heap s) i c.
Proof.
  intros Hc. pose proof (toks_wf Line c Hc) as Hw. pose proof (render_nul_free _ Hw) as Hn.
  assert (Hh : here (print c) (mkps 0 []) (toks Line c)) by (constructor; [simpl; lia|done|done]).
  destruct (levels_ok (print c) c) as (_ & _ & _ & Hline).
  destruct (Hline (parse_fuel (print c)) (mkps 0 []) []) as (i & s & E & Hs & _ & Hrep).
  - done.
  - by rewrite app_nil_r.
  - by left.
  - rewrite app_nil_r. pose proof (here_length _ _ _ Hh). unfold parse_fuel. lia.
  - exists i, s. unfold parsetree. rewrite (mbind_ok _ _ _ _ _ E), (mbind_ok _ _ _ _ _ (peek_nil _ _ _ Hs)).
    change (mbind (mget pos) ?k s) with (k (pos s) s). cbv beta.
    rewrite (here_end _ _ Hs), Nat.eqb_refl. done.
Qed.

(** C12: printing then parsing gives the command back: for every command tree
    whose words are words and whose simple commands have fewer than [MAXARGS]
    arguments, [parsecmd] parses its printed form without [panic] and the heap
    it builds is that very tree, over the line [nulterminate] has cut into
    strings. *)
Theorem parse_print (c : cmd) :
  wf_cmd c -> exists i h b, parsecmd (print c) = Ok (i, h, b) /\ tree h b i c.
Proof.
  intros Hc. destruct (parsetree_print c Hc) as (i & s & E & Hrep).
  assert (Hn : nul_free (print c)) by (by apply render_nul_free, toks_wf).
  destruct (parsecmd_rep (print c) Hn s i c E Hrep) as (b & Eb & Hb). eauto.
Qed.

Definition sample : cmd :=
  CList (CBack (CPipe (CExec [chars "cat"; chars "f"]) (CRedir (CExec [chars "wc"]) (chars "out") (Z.lor O_WRONLY O_CREATE) 1)))
        (CPipe (CList (CExec [chars "a"]) (CExec [])) (CExec [chars "b"])).

Lemma parse_print_witness : exists i h b, parsecmd (print sample) = Ok (i, h, b) /\ tree h b i sample.
Proof.
  apply parse_print. unfold sample. cbn [wf_cmd].
  assert (H : forall s, bool_decide (chars s <> []) && forallb word_char (chars s) && bool_decide (nul_free (chars s)) = true ->
                word (chars s)).
  { intros s [[H1%bool_decide_eq_true_1 H2]%andb_true_iff H3%bool_decide_eq_true_1]%andb_true_iff. split; [done|].
    split; [|done]. apply Forall_forall. intros c Hin. rewrite forallb_forall in H2. apply H2. by apply list_elem_of_In. }
  unfold MAXARGS. repeat split; try (simpl; lia); try (by right).
  all: repeat (apply Forall_cons; split); try apply Forall_nil; try done; by apply H.
Defined.
