(* ===== verification/Console.v ===== *)
(** * The console: [console.c], [uart.c] and [kbd.c]

    The state is the screen (the cells of the CGA memory and the cursor its
    controller holds), what was sent to the serial port, and the input ring of
    128 bytes with its read, write and edit indices, 32-bit counters that wrap
    around.  [consoleintr] takes the characters [getc] returns until it is
    negative; [consoleread] is the code between two calls of [sleep].

    [console_refines] shows that the ring implements a line discipline on two
    plain lists: the committed input and the line being edited. *)

From Stdlib Require Import ZArith Lia String Ascii.
From stdpp Require Import base numbers list.
From S2P Require Import Prelude Bytes Ulib.

Local Open Scope Z_scope.
Local Open Scope kernel_scope.

(** ** State *)

Definition INPUT_BUF : Z := 128.
Definition BACKSPACE : Z := 0x100.

Record input : Type := mkinput { i_buf : list Z; i_r : Z; i_w : Z; i_e : Z }.

Record console : Type := mkconsole {
  c_lock : bool; c_locking : bool;
  panicked : bool;
  has_uart : bool; uart_out : list Z;
  crt : Z -> Z; cursor : Z;
  c_input : input;
  c_wakes : nat  (** calls of [wakeup(&input.r)] *)
}.

Definition set_c_lock (v : bool) (s : console) : console :=
  mkconsole v (c_locking s) (panicked s) (has_uart s) (uart_out s) (crt s) (cursor s) (c_input s) (c_wakes s).
Definition set_c_locking (v : bool) (s : console) : console :=
  mkconsole (c_lock s) v (panicked s) (has_uart s) (uart_out s) (crt s) (cursor s) (c_input s) (c_wakes s).
Definition set_uart_out (v : list Z) (s : console) : console :=
  mkconsole (c_lock s) (c_locking s) (panicked s) (has_uart s) v (crt s) (cursor s) (c_input s) (c_wakes s).
Definition set_screen (m : Z -> Z) (p : Z) (s : console) : console :=
  mkconsole (c_lock s) (c_locking s) (panicked s) (has_uart s) (uart_out s) m p (c_input s) (c_wakes s).
Definition set_input (v : input) (s : console) : console :=
  mkconsole (c_lock s) (c_locking s) (panicked s) (has_uart s) (uart_out s) (crt s) (cursor s) v (c_wakes s).
Definition add_wake (s : console) : console :=
  mkconsole (c_lock s) (c_locking s) (panicked s) (has_uart s) (uart_out s) (crt s) (cursor s) (c_input s) (S (c_wakes s)).

Abbreviation CM := (M console).

Definition cacquire : CM unit := acquire c_lock set_c_lock.
Definition crelease : CM unit := release c_lock set_c_lock.

(** ** Output *)

(** The wait for the transmitter is bounded and has no effect of its own. *)
Definition uartputc (c : Z) : CM unit :=
  fun s => if has_uart s then Ok (tt, set_uart_out (uart_out s ++ [u8 c]) s) else Ok (tt, s).

Definition put_cell (m : Z -> Z) (p v : Z) : Z -> Z := fun x => if x =? p then u16 v else m x.

(** [memmove(crt, crt+80, 2*23*80); memset(crt+pos, 0, 2*(24*80 - pos));] *)
Definition scroll_up (m : Z -> Z) (pos : Z) : Z -> Z :=
  let m1 := fun x => if (0 <=? x) && (x <? 23 * 80) then m (x + 80) else m x in
  fun x => if (pos <=? x) && (x <? 24 * 80) then 0 else m1 x.

Definition cgaputc (c : Z) : CM unit :=
  fun s =>
    let pos := cursor s in
    let '(m, pos) :=
      if c =? NL then (crt s, pos + (80 - pos mod 80))
      else if c =? BACKSPACE then (crt s, if 0 <? pos then pos - 1 else pos)
      else (put_cell (crt s) pos (Z.lor (Z.land c 255) 0x0700), pos + 1) in
    if (pos <? 0) || (25 * 80 <? pos) then Panic "pos under/overflow"
    else
      let '(m, pos) :=
        if 24 <=? pos / 80 then let pos := pos - 80 in (scroll_up m pos, pos) else (m, pos) in
      Ok (tt, set_screen (put_cell m pos (Z.lor 32 0x0700)) (u16 pos) s).

(** After a panic of another CPU [consputc] never returns. *)
Definition consputc (c : Z) : CM unit :=
  fun s =>
    if panicked s then Block
    else
      ((if c =? BACKSPACE then uartputc 8 ;;! uartputc 32 ;;! uartputc 8 else uartputc c) ;;!
       cgaputc c) s.

Fixpoint consputs (l : list Z) : CM unit :=
  match l with
  | [] => mret tt
  | c :: l' => consputc c ;;! consputs l'
  end.

Definition digits_lower : list Z := chars "0123456789abcdef".

Definition printint (xx base sign : Z) : CM unit :=
  match print_digits digits_lower (s32 xx) base sign with
  | Some l => consputs l
  | None => mundef
  end.

Section cprintf.
  (** The string at an address of the kernel. *)
  Context (str_at : Z -> list Z).

(** The next argument word; there must be one. *)
Definition with_arg (argp : list Z) (k : Z -> list Z -> CM unit) : CM unit :=
  match argp with x :: argp' => k x argp' | [] => mundef end.

Fixpoint cprintf_loop (fmt : list Z) (argp : list Z) : CM unit :=
  match fmt with
  | [] => mret tt
  | f :: fmt1 =>
      let c := Z.land f 255 in
      if c =? 0 then mret tt
      else if negb (c =? ch "%") then consputc c ;;! cprintf_loop fmt1 argp
      else
        match fmt1 with
        | [] => mret tt
        | f2 :: fmt2 =>
            let c := Z.land f2 255 in
            if c =? 0 then mret tt
            else if c =? ch "d" then
              with_arg argp (fun x argp' => printint x 10 1 ;;! cprintf_loop fmt2 argp')
            else if (c =? ch "x") || (c =? ch "p") then
              with_arg argp (fun x argp' => printint x 16 0 ;;! cprintf_loop fmt2 argp')
            else if c =? ch "s" then
              with_arg argp (fun s argp' =>
                consputs (if s =? 0 then chars "(null)" else cstr (str_at s)) ;;! cprintf_loop fmt2 argp')
            else if c =? ch "%" then consputc (ch "%") ;;! cprintf_loop fmt2 argp
            else consputc (ch "%") ;;! consputc c ;;! cprintf_loop fmt2 argp
        end
  end.

Definition cprintf (fmt : option (list Z)) (argp : list Z) : CM unit :=
  let! locking := mget c_locking in
  mwhen locking cacquire ;;!
  match fmt with
  | None => mpanic "null fmt"
  | Some fmt => cprintf_loop fmt argp ;;! mwhen locking crelease
  end.
End cprintf.

(** ** Input *)

Definition C (x : ascii) : Z := ch x - ch "@".

Definition ring_at (s : input) (p : Z) : Z := nth (Z.to_nat (p mod INPUT_BUF)) (i_buf s) 0.

Definition set_e (v : Z) (s : input) : input := mkinput (i_buf s) (i_r s) (i_w s) (u32 v).
Definition set_w (v : Z) (s : input) : input := mkinput (i_buf s) (i_r s) (u32 v) (i_e s).
Definition set_r (v : Z) (s : input) : input := mkinput (i_buf s) (u32 v) (i_w s) (i_e s).
Definition put_ring (p c : Z) (s : input) : input :=
  mkinput (<[Z.to_nat (p mod INPUT_BUF) := u8 c]> (i_buf s)) (i_r s) (i_w s) (i_e s).

Definition geti {A} (f : input -> A) : CM A := mget (fun s => f (c_input s)).
Definition seti (f : input -> input) : CM unit := mset (fun s => set_input (f (c_input s)) s).

(** The loop of [^U]; the ring bounds it. *)
Fixpoint kill_line (fuel : nat) : CM unit :=
  match fuel with
  | O => mnofuel
  | S fuel' =>
      let! i := geti (fun i => i) in
      if negb (i_e i =? i_w i) && negb (ring_at i (u32 (i_e i - 1)) =? NL) then
        seti (set_e (i_e i - 1)) ;;!
        consputc BACKSPACE ;;!
        kill_line fuel'
      else mret tt
  end.

(** One round of the loop of [consoleintr]; returns whether to call [procdump]. *)
Definition intr_char (c : Z) : CM bool :=
  if c =? C "P" then mret true
  else if c =? C "U" then kill_line (S (Z.to_nat INPUT_BUF)) ;;! mret false
  else if (c =? C "H") || (c =? 0x7f) then
    let! i := geti (fun i => i) in
    mwhen (negb (i_e i =? i_w i)) (seti (set_e (i_e i - 1)) ;;! consputc BACKSPACE) ;;!
    mret false
  else
    let! i := geti (fun i => i) in
    mwhen (negb (c =? 0) && (u32 (i_e i - i_r i) <? INPUT_BUF))
      (let c := if c =? 13 then NL else c in
       seti (fun i => set_e (i_e i + 1) (put_ring (i_e i) c i)) ;;!
       consputc c ;;!
       let! i := geti (fun i => i) in
       mwhen ((c =? NL) || (c =? C "D") || (i_e i =? u32 (i_r i + INPUT_BUF)))
         (seti (fun i => set_w (i_e i) i) ;;! mset add_wake)) ;;!
    mret false.

Fixpoint intr_loop (cs : list Z) (doprocdump : bool) : CM bool :=
  match cs with
  | [] => mret doprocdump
  | c :: cs' =>
      if c <? 0 then mret doprocdump
      else
        let! d := intr_char c in
        intr_loop cs' (doprocdump || d)
  end.

(** Returns whether [procdump] is called after the lock is released. *)
Definition consoleintr (cs : list Z) : CM bool :=
  cacquire ;;!
  let! d := intr_loop cs false in
  crelease ;;!
  mret d.

(** A read that has finished, with its result and the bytes stored, or that
    sleeps with [n] bytes still wanted. *)
Inductive rres : Type :=
| RDone (ret : Z) (got : list Z)
| RSleep (n : Z) (got : list Z).

Fixpoint read_loop (fuel : nat) (killed : bool) (n target : Z) (got : list Z) : CM rres :=
  match fuel with
  | O => mnofuel
  | S fuel' =>
      if negb (0 <? n) then mret (RDone (target - n) got)
      else
        let! i := geti (fun i => i) in
        if i_r i =? i_w i then
          if killed then mret (RDone (-1) got) else mret (RSleep n got)
        else
          let c := ring_at i (i_r i) in
          seti (set_r (i_r i + 1)) ;;!
          if c =? C "D" then
            mwhen (n <? target) (seti (fun i => set_r (i_r i - 1) i)) ;;!
            mret (RDone (target - n) got)
          else
            let got := got ++ [c] in
            let n := n - 1 in
            if c =? NL then mret (RDone (target - n) got)
            else read_loop fuel' killed n target got
  end.

(** The bytes in the ring bound the rounds between two sleeps. *)
Definition read_fuel : nat := S (S (Z.to_nat INPUT_BUF)).

(** The loop under the lock, which [sleep] gives up too. *)
Definition read_locked (killed : bool) (n target : Z) (got : list Z) : CM rres :=
  cacquire ;;!
  let! r := read_loop read_fuel killed n target got in
  crelease ;;!
  mret r.

Section device.
  (** The inode lock the device routines give up while they wait. *)
  Context {F : Type} (iunlock ilock : M F unit).

Definition onC {A} (c : CM A) : M (F * console) A :=
  fun s => obind (c s.2) (fun '(a, t) => Ok (a, (s.1, t))).
Definition onF {A} (c : M F A) : M (F * console) A :=
  fun s => obind (c s.1) (fun '(a, t) => Ok (a, (t, s.2))).

(** [ilock(ip)] before a return. *)
Definition read_end (r : rres) : M (F * console) rres :=
  match r with
  | RDone _ _ => onF ilock ;;! mret r
  | RSleep _ _ => mret r
  end.

Definition consoleread (killed : bool) (n : Z) : M (F * console) rres :=
  onF iunlock ;;!
  let! r := onC (read_locked killed n n []) in
  read_end r.

(** A reader that wakes up in [sleep]. *)
Definition consoleread_resume (killed : bool) (n target : Z) (got : list Z) : M (F * console) rres :=
  let! r := onC (read_locked killed n target got) in
  read_end r.

Definition consolewrite (buf : mem) (n : Z) : M (F * console) Z :=
  onF iunlock ;;!
  onC cacquire ;;!
  for_ (Z.to_nat n) 0 (fun i => onC (consputc (Z.land (buf i) 255))) ;;!
  onC crelease ;;!
  onF ilock ;;!
  mret n.
End device.

(** The entries of [devsw] are the two routines above. *)
Definition consoleinit : CM unit := mset (fun s => set_c_locking true (set_c_lock false s)).

(** ** The keyboard *)

Definition KBS_DIB : Z := 0x01.
Definition SHIFT : Z := 1.
Definition CTL : Z := 2.
Definition ALT : Z := 4.
Definition CAPSLOCK : Z := 8.
Definition NUMLOCK : Z := 16.
Definition SCROLLLOCK : Z := 32.
Definition E0ESC : Z := 64.

Definition KEY_HOME : Z := 0xE0.
Definition KEY_END : Z := 0xE1.
Definition KEY_UP : Z := 0xE2.
Definition KEY_DN : Z := 0xE3.
Definition KEY_LF : Z := 0xE4.
Definition KEY_RT : Z := 0xE5.
Definition KEY_PGUP : Z := 0xE6.
Definition KEY_PGDN : Z := 0xE7.
Definition KEY_INS : Z := 0xE8.
Definition KEY_DEL : Z := 0xE9.

(** A table with initial entries, designated entries, and zero elsewhere. *)
Fixpoint designated (l : list (Z * Z)) (d : Z) : Z :=
  match l with
  | [] => 0
  | (k, v) :: l' => if k =? d then v else designated l' d
  end.
Definition table (first : list Z) (rest : list (Z * Z)) (d : Z) : Z :=
  if d <? Z.of_nat (length first) then nth (Z.to_nat d) first 0 else designated rest d.

Definition shiftcode : Z -> Z :=
  table [] [(0x1D, CTL); (0x2A, SHIFT); (0x36, SHIFT); (0x38, ALT); (0x9D, CTL); (0xB8, ALT)].
Definition togglecode : Z -> Z := table [] [(0x3A, CAPSLOCK); (0x45, NUMLOCK); (0x46, SCROLLLOCK)].

Definition special_keys (enter div : Z) : list (Z * Z) :=
  [(0x9C, enter); (0xB5, div); (0xC8, KEY_UP); (0xD0, KEY_DN); (0xC9, KEY_PGUP); (0xD1, KEY_PGDN);
   (0xCB, KEY_LF); (0xCD, KEY_RT); (0x97, KEY_HOME); (0xCF, KEY_END); (0xD2, KEY_INS); (0xD3, KEY_DEL)].

Definition normalmap : Z -> Z := table
  ([0; 0x1B] ++ chars "1234567890-=" ++ [8; 9] ++ chars "qwertyuiop[]" ++ [NL; 0] ++ chars "asdfghjkl;'`" ++
   [0; 92] ++ chars "zxcvbnm,./" ++ [0; ch "*"; 0; 32] ++ replicate 13 0 ++ chars "789-456+1230." ++ replicate 4 0)
  (special_keys NL (ch "/")).

Definition shiftmap : Z -> Z := table
  ([0; 27] ++ chars "!@#$%^&*()_+" ++ [8; 9] ++ chars "QWERTYUIOP{}" ++ [NL; 0] ++ chars "ASDFGHJKL:" ++ [34; ch "~"] ++
   [0; ch "|"] ++ chars "ZXCVBNM<>?" ++ [0; ch "*"; 0; 32] ++ replicate 13 0 ++ chars "789-456+1230." ++ replicate 4 0)
  (special_keys NL (ch "/")).

Definition ctlmap : Z -> Z := table
  (replicate 16 0 ++ map (fun c => c - ch "@") (chars "QWERTYUIOP") ++ [0; 0; 13; 0] ++
   map (fun c => c - ch "@") (chars "ASDFGHJKL") ++ [0; 0; 0; 0] ++ [92 - ch "@"] ++
   map (fun c => c - ch "@") (chars "ZXCVBNM") ++ [0; 0; u8 (ch "/" - ch "@"); 0; 0])
  (special_keys 13 (u8 (ch "/" - ch "@"))).

Definition charcode (k : Z) : Z -> Z :=
  if k =? 0 then normalmap else if k =? 1 then shiftmap else ctlmap.

(** [kbdgetc] on the status and data ports and the static [shift]. *)
Definition kbdgetc (st data shift : Z) : Z * Z :=
  if Z.land st KBS_DIB =? 0 then (-1, shift)
  else if data =? 0xE0 then (0, Z.lor shift E0ESC)
  else if negb (Z.land data 0x80 =? 0) then
    let data := if negb (Z.land shift E0ESC =? 0) then data else Z.land data 0x7F in
    (0, Z.ldiff shift (Z.lor (shiftcode data) E0ESC))
  else
    let '(data, shift) :=
      if negb (Z.land shift E0ESC =? 0) then (Z.lor data 0x80, Z.ldiff shift E0ESC) else (data, shift) in
    let shift := Z.lor shift (shiftcode data) in
    let shift := Z.lxor shift (togglecode data) in
    let c := charcode (Z.land shift (Z.lor CTL SHIFT)) data in
    let c :=
      if negb (Z.land shift CAPSLOCK =? 0) then
        if (ch "a" <=? c) && (c <=? ch "z") then c + (ch "A" - ch "a")
        else if (ch "A" <=? c) && (c <=? ch "Z") then c + (ch "a" - ch "A") else c
      else c in
    (c, shift).

(** [kbdintr]: what the controller's ports give, round by round, until [kbdgetc]
    finds no data. *)
Fixpoint kbd_chars (ports : list (Z * Z)) (shift : Z) : list Z * Z :=
  match ports with
  | [] => ([], shift)
  | (st, data) :: ports' =>
      let '(c, shift) := kbdgetc st data shift in
      if c <? 0 then ([], shift) else let '(cs, shift) := kbd_chars ports' shift in (c :: cs, shift)
  end.
Definition kbdintr (ports : list (Z * Z)) (shift : Z) : CM (bool * Z) :=
  let '(cs, shift) := kbd_chars ports shift in
  let! d := consoleintr cs in
  mret (d, shift).

(** [uartintr]: the bytes [uartgetc] takes from the serial port. *)
Definition uartintr (present : bool) (bytes : list Z) : CM bool :=
  consoleintr (if present then map u8 bytes else []).

(** ** The line discipline *)

(** Input that readers may have, the line being edited, and the wakeups. *)
Record disc : Type := mkdisc { committed : list Z; line : list Z; wakes : nat }.

Definition d_len (d : disc) : Z := Z.of_nat (length (committed d) + length (line d)).

Definition d_char (c : Z) (d : disc) : disc :=
  if c =? C "P" then d
  else if c =? C "U" then mkdisc (committed d) [] (wakes d)
  else if (c =? C "H") || (c =? 0x7f) then mkdisc (committed d) (removelast (line d)) (wakes d)
  else if (c =? 0) || (INPUT_BUF <=? d_len d) then d
  else
    let c := if c =? 13 then NL else c in
    let l := line d ++ [u8 c] in
    if (c =? NL) || (c =? C "D") || (d_len d + 1 =? INPUT_BUF)
    then mkdisc (committed d ++ l) [] (S (wakes d))
    else mkdisc (committed d) l (wakes d).

Fixpoint d_read (q : list Z) (killed : bool) (n target : Z) (got : list Z) : rres * list Z :=
  if negb (0 <? n) then (RDone (target - n) got, q)
  else
    match q with
    | [] => (if killed then RDone (-1) got else RSleep n got, [])
    | c :: q' =>
        if c =? C "D" then (RDone (target - n) got, if n <? target then q else q')
        else if c =? NL then (RDone (target - (n - 1)) (got ++ [c]), q')
        else d_read q' killed (n - 1) target (got ++ [c])
    end.

Inductive event : Type :=
| EIntr (cs : list Z)
| ERead (killed : bool) (n target : Z) (got : list Z).

Inductive output : Type :=
| OIntr (doprocdump : bool)
| ORead (r : rres).

Definition con_event (e : event) : CM output :=
  match e with
  | EIntr cs => let! d := consoleintr cs in mret (OIntr d)
  | ERead killed n target got => let! r := read_locked killed n target got in mret (ORead r)
  end.

Fixpoint con_run (es : list event) : CM (list output) :=
  match es with
  | [] => mret []
  | e :: es' =>
      let! o := con_event e in
      let! os := con_run es' in
      mret (o :: os)
  end.

Definition d_event (e : event) (d : disc) : output * disc :=
  match e with
  | EIntr cs => (OIntr (existsb (Z.eqb (C "P")) cs), foldl (fun d c => d_char c d) d cs)
  | ERead killed n target got =>
      let '(r, q) := d_read (committed d) killed n target got in
      (ORead r, mkdisc q (line d) (wakes d))
  end.

Fixpoint d_run (es : list event) (d : disc) : list output * disc :=
  match es with
  | [] => ([], d)
  | e :: es' =>
      let '(o, d1) := d_event e d in
      let '(os, d2) := d_run es' d1 in
      (o :: os, d2)
  end.

(** The console refines the discipline: the ring holds its lists one after the
    other from the read index on. *)
Record ring_ok (i : input) (d : disc) : Prop := {
  ro_len : length (i_buf i) = Z.to_nat INPUT_BUF;
  ro_r : is_u32 (i_r i);
  ro_w : i_w i = u32 (i_r i + Z.of_nat (length (committed d)));
  ro_e : i_e i = u32 (i_r i + d_len d);
  ro_fits : d_len d <= INPUT_BUF;
  ro_data : forall k, (k < length (committed d) + length (line d))%nat ->
    Some (ring_at i (i_r i + Z.of_nat k)) = (committed d ++ line d) !! k;
  ro_line : NL ∉ line d
}.

(** The screen never overflows. *)
Record screen_ok (s : console) : Prop := {
  so_run : panicked s = false;
  so_cursor : 0 <= cursor s < 24 * 80
}.

Record con_ok (s : console) (d : disc) : Prop := {
  co_screen : screen_ok s;
  co_ring : ring_ok (c_input s) d;
  co_wakes : c_wakes s = wakes d
}.

(** ** Output keeps the screen and leaves the input alone *)

Record out_frame (s s' : console) : Prop := {
  of_screen : screen_ok s';
  of_input : c_input s' = c_input s;
  of_lock : c_lock s' = c_lock s;
  of_wakes : c_wakes s' = c_wakes s
}.

Lemma cgaputc_ok c s : screen_ok s -> exists s', cgaputc c s = Ok (tt, s') /\ out_frame s s'.
Proof.
  intros [Hp Hc]. unfold cgaputc.
  assert (Hstep : forall m pos, 0 <= pos <= 24 * 80 ->
    exists s', (if (pos <? 0) || (25 * 80 <? pos) then Panic "pos under/overflow"
      else let '(m, pos) := if 24 <=? pos / 80 then (scroll_up m (pos - 80), pos - 80) else (m, pos) in
           Ok (tt, set_screen (put_cell m pos (Z.lor 32 0x0700)) (u16 pos) s)) = Ok (tt, s') /\ out_frame s s').
  { intros m pos Hpos. rewrite (proj2 (Z.ltb_ge pos 0)), (proj2 (Z.ltb_ge (25 * 80) pos)) by lia. cbn [orb].
    destruct (Z.leb_spec 24 (pos / 80)) as [H|H]; eexists; (split; [reflexivity|]); constructor; try done;
      constructor; try done; simpl; unfold u16; rewrite Z.mod_small; zlia. }
  cbv zeta in *. destruct (c =? NL); [apply Hstep; zlia|]. destruct (c =? BACKSPACE); [|apply Hstep; lia].
  apply Hstep. destruct (Z.ltb_spec 0 (cursor s)); lia.
Qed.

Lemma uartputc_ok c s : screen_ok s -> exists s', uartputc c s = Ok (tt, s') /\ out_frame s s'.
Proof.
  intros H. unfold uartputc. destruct (has_uart s); eexists; (split; [reflexivity|]); constructor; try done.
  by destruct H.
Qed.

Lemma out_frame_trans s1 s2 s3 : out_frame s1 s2 -> out_frame s2 s3 -> out_frame s1 s3.
Proof. intros [] []. constructor; [done|congruence..]. Qed.

Lemma out_seq (m1 m2 : CM unit) s :
  (forall s, screen_ok s -> exists s', m1 s = Ok (tt, s') /\ out_frame s s') ->
  (forall s, screen_ok s -> exists s', m2 s = Ok (tt, s') /\ out_frame s s') ->
  screen_ok s -> exists s', (m1 ;;! m2) s = Ok (tt, s') /\ out_frame s s'.
Proof.
  intros H1 H2 Hs. destruct (H1 s Hs) as (s1 & E1 & F1). destruct (H2 s1 (of_screen _ _ F1)) as (s2 & E2 & F2).
  exists s2. rewrite (mbind_ok _ _ _ _ _ E1). split; [done|]. by eapply out_frame_trans.
Qed.

(** Whatever is printed, the cursor stays on the screen: [cgaputc] does not
    panic. *)
Lemma consputc_ok c s : screen_ok s -> exists s', consputc c s = Ok (tt, s') /\ out_frame s s'.
Proof.
  intros Hs. unfold consputc. rewrite (so_run _ Hs). apply out_seq; [|intros; by apply cgaputc_ok|done].
  intros t Ht. destruct (c =? BACKSPACE); [|by apply uartputc_ok].
  repeat (apply out_seq; [intros; by apply uartputc_ok| |done]; clear; intros ? ?). by apply uartputc_ok.
Qed.

(** ** The ring *)

Lemma ring_at_u32 i p : ring_at i (u32 p) = ring_at i p.
Proof.
  unfold ring_at, u32, INPUT_BUF. do 2 f_equal. change (2 ^ 32) with (128 * 2 ^ 25).
  rewrite Z.rem_mul_r by lia. zlia.
Qed.

Lemma u32_add_inj x a b : 0 <= a < 2 ^ 32 -> 0 <= b < 2 ^ 32 -> u32 (x + a) = u32 (x + b) -> a = b.
Proof. unfold u32. intros Ha Hb H. zlia. Qed.

Lemma ring_e_w i d : ring_ok i d -> i_e i = i_w i <-> line d = [].
Proof.
  intros H. destruct H as [_ _ -> -> Hf _ _]. unfold d_len, INPUT_BUF in *. split.
  - intros E. apply u32_add_inj in E; [|lia..]. apply length_zero_iff_nil. lia.
  - intros ->. simpl. by rewrite Nat.add_0_r.
Qed.

Lemma ring_r_w i d : ring_ok i d -> i_r i = i_w i <-> committed d = [].
Proof.
  intros H. destruct H as [_ Hr Hw _ Hf _ _]. rewrite Hw. unfold d_len, INPUT_BUF in *.
  rewrite <- (u32_small (i_r i)) at 1 by done. replace (i_r i) with (i_r i + 0) at 1 by lia. split.
  - intros E. apply u32_add_inj in E; [|lia..]. apply length_zero_iff_nil. lia.
  - intros ->. done.
Qed.

Lemma ring_used i d : ring_ok i d -> u32 (i_e i - i_r i) = d_len d.
Proof.
  intros [_ Hr _ -> Hf _ _]. rewrite u32_sub_u32. replace (i_r i + d_len d - i_r i) with (d_len d) by lia.
  apply u32_small. unfold is_u32, d_len, INPUT_BUF in *. lia.
Qed.

(** Typing a character. *)
Lemma ring_push i d c l' :
  ring_ok i d -> d_len d < INPUT_BUF -> is_byte c -> NL ∉ l' ->
  forall comm, comm ++ l' = committed d ++ line d ++ [c] -> 
  (l' = [] \/ comm = committed d) ->
  ring_ok (mkinput (i_buf (put_ring (i_e i) c i)) (i_r i) (u32 (i_r i + Z.of_nat (length comm))) (u32 (i_e i + 1)))
    (mkdisc comm l' 0).
Proof.
  intros [Hl Hr Hw He Hf Hd Hn] Hlt Hc Hn' comm Hcomm _.
  assert (Hlen : (length comm + length l' = S (length (committed d) + length (line d)))%nat).
  { apply (f_equal length) in Hcomm. rewrite !length_app in Hcomm. simpl in Hcomm. lia. }
  unfold d_len in *. constructor; cbn [committed line i_r i_w i_e i_buf put_ring].
  - by rewrite length_insert.
  - done.
  - done.
  - rewrite He, u32_add_u32. unfold d_len. cbn [committed line]. rewrite Hlen. f_equal. lia.
  - unfold d_len. cbn [committed line]. lia.
  - intros k Hk. rewrite Hcomm, app_assoc.
    unfold ring_at. cbn [i_buf put_ring]. rewrite nth_lookup.
    assert (He' : i_e i mod INPUT_BUF = (i_r i + Z.of_nat (length (committed d) + length (line d))) mod INPUT_BUF).
    { rewrite He. unfold u32, INPUT_BUF. change (2 ^ 32) with (128 * 2 ^ 25). rewrite Z.rem_mul_r by lia. zlia. }
    unfold INPUT_BUF in *.
    destruct (decide (k = length (committed d) + length (line d))%nat) as [->|Hne].
    + rewrite He', list_lookup_insert_eq by (rewrite Hl; zlia).
      rewrite lookup_app_r, length_app, Nat.sub_diag by (rewrite length_app; lia). simpl.
      unfold u8. rewrite Z.mod_small by (unfold is_byte in Hc; lia). done.
    + rewrite list_lookup_insert_ne by (rewrite He'; zlia).
      rewrite lookup_app_l by (rewrite length_app; lia). rewrite <- Hd by lia.
      unfold ring_at. by rewrite nth_lookup.
  - done.
Qed.

(** Erasing one. *)
Lemma ring_pop i comm l x w w' :
  ring_ok i (mkdisc comm (l ++ [x]) w) -> ring_ok (set_e (i_e i - 1) i) (mkdisc comm l w').
Proof.
  intros [Hl Hr Hw He Hf Hd Hn]. unfold d_len in *. cbn [committed line] in *. rewrite length_app in *. simpl in *.
  constructor; unfold d_len; cbn [committed line i_r i_w i_e i_buf set_e]; auto.
  - rewrite He, u32_sub_u32. f_equal. lia.
  - lia.
  - intros k Hk. specialize (Hd k ltac:(lia)). unfold ring_at in *. cbn [i_buf set_e]. rewrite Hd.
    rewrite app_assoc. apply lookup_app_l. rewrite length_app. lia.
  - intros H. apply Hn, elem_of_app. by left.
Qed.

Lemma ring_last i comm l x w : ring_ok i (mkdisc comm (l ++ [x]) w) -> ring_at i (u32 (i_e i - 1)) = x.
Proof.
  intros [Hl Hr Hw He Hf Hd Hn]. unfold d_len in *. cbn [committed line] in *. rewrite length_app in *. simpl in *.
  rewrite ring_at_u32. assert (E : ring_at i (i_e i - 1) = ring_at i (i_r i + Z.of_nat (length comm + length l))).
  { rewrite He, <- ring_at_u32, u32_sub_u32, ring_at_u32. f_equal. lia. }
  specialize (Hd (length comm + length l)%nat ltac:(lia)). rewrite E.
  rewrite lookup_app_r in Hd by lia. replace (length comm + length l - length comm)%nat with (length l) in Hd by lia.
  rewrite lookup_app_r, Nat.sub_diag in Hd by lia. by injection Hd.
Qed.

Lemma con_input s d i w :
  con_ok s d -> ring_ok i w -> wakes w = wakes d -> con_ok (set_input i s) w.
Proof. intros [[H1 H2] H3 H4] H5 H6. constructor; [by constructor|done|simpl; congruence]. Qed.

Lemma con_output c s d : con_ok s d -> exists s', consputc c s = Ok (tt, s') /\ con_ok s' d /\ c_lock s' = c_lock s.
Proof.
  intros [H1 H2 H3]. destruct (consputc_ok c s H1) as (s' & E & [F1 F2 F3 F4]). exists s'.
  split; [done|]. split; [|done]. constructor; [done|by rewrite F2|congruence].
Qed.

Lemma kill_line_ok fuel s d :
  con_ok s d -> (length (line d) < fuel)%nat ->
  exists s', kill_line fuel s = Ok (tt, s') /\ con_ok s' (mkdisc (committed d) [] (wakes d)) /\ c_lock s' = c_lock s.
Proof.
  revert s d. induction fuel as [|fuel IH]; intros s [comm l wk] Hs Hf; [lia|].
  cbn [kill_line]. unfold geti. mgo. cbn [committed line wakes] in *. pose proof (co_ring _ _ Hs) as Hring.
  destruct l as [|x l _] using rev_ind.
  - rewrite (proj2 (Z.eqb_eq _ _)) by (by apply (ring_e_w _ _ Hring)). simpl. eauto.
  - assert (Hne : i_e (c_input s) <> i_w (c_input s)).
    { intros E. apply (ring_e_w _ _ Hring) in E. simpl in E. by destruct l. }
    rewrite (proj2 (Z.eqb_neq _ _) Hne), (ring_last _ _ _ _ _ Hring).
    assert (Hx : x <> NL). { intros ->. apply (ro_line _ _ Hring). apply elem_of_app. right. left. }
    rewrite (proj2 (Z.eqb_neq _ _) Hx). cbn [negb andb]. unfold seti. mgo.
    set (s1 := set_input _ s).
    assert (Hs1 : con_ok s1 (mkdisc comm l wk)).
    { apply (con_input _ _ _ _ Hs); [by eapply ring_pop|done]. }
    destruct (con_output BACKSPACE s1 _ Hs1) as (s2 & E2 & Hs2 & L2). mby E2.
    destruct (IH s2 (mkdisc comm l wk) Hs2) as (s3 & E3 & Hs3 & L3).
    { simpl. rewrite length_app in Hf. simpl in Hf. lia. }
    exists s3. rewrite E3. split; [done|]. split; [done|]. rewrite L3, L2. done.
Qed.

(** Storing a character and, at the end of a line, committing it. *)
Lemma store_char_ok c s d :
  con_ok s d -> is_byte c -> d_len d < INPUT_BUF ->
  exists s', (seti (fun i => set_e (i_e i + 1) (put_ring (i_e i) c i)) ;;!
    consputc c ;;!
    let! i := geti (fun i => i) in
    mwhen ((c =? NL) || (c =? C "D") || (i_e i =? u32 (i_r i + INPUT_BUF)))
      (seti (fun i => set_w (i_e i) i) ;;! mset add_wake)) s = Ok (tt, s') /\
  con_ok s' (if (c =? NL) || (c =? C "D") || (d_len d + 1 =? INPUT_BUF)
             then mkdisc (committed d ++ line d ++ [u8 c]) [] (S (wakes d))
             else mkdisc (committed d) (line d ++ [u8 c]) (wakes d)) /\ c_lock s' = c_lock s.
Proof.
  intros Hs Hc Hlt. pose proof (co_ring _ _ Hs) as Hring.
  assert (Hu : u8 c = c) by (apply Z.mod_small; exact Hc). rewrite Hu.
  unfold seti at 1. mgo. set (i1 := set_e _ _). set (s1 := set_input i1 s).
  assert (Hsc : screen_ok s1) by (destruct (co_screen _ _ Hs); by constructor).
  destruct (consputc_ok c s1 Hsc) as (s2 & E2 & [F1 F2 F3 F4]). mby E2. unfold geti. mgo. rewrite F2. change (c_input s1) with i1.
  assert (Ee : (i_e i1 =? u32 (i_r i1 + INPUT_BUF)) = (d_len d + 1 =? INPUT_BUF)).
  { unfold i1. cbn [i_e i_r set_e put_ring]. rewrite (ro_e _ _ Hring), u32_add_u32, <- Z.add_assoc.
    pose proof (ro_fits _ _ Hring). apply eq_true_iff_eq. rewrite !Z.eqb_eq. split; [|by intros ->].
    unfold d_len, INPUT_BUF in *. apply u32_add_inj; lia. }
  rewrite Ee. destruct ((c =? NL) || (c =? C "D") || (d_len d + 1 =? INPUT_BUF)) eqn:Eb; cbn [mwhen].
  - unfold seti. mgo. eexists. split; [reflexivity|]. split; [|simpl; by rewrite F3].
    constructor; [destruct F1; by constructor| |simpl; rewrite F4; simpl; by rewrite (co_wakes _ _ Hs)].
    cbn [c_input add_wake set_input]. rewrite F2. change (c_input s1) with i1.
    pose proof (ring_push _ _ c [] Hring Hlt Hc (not_elem_of_nil _) (committed d ++ line d ++ [c])
                  (app_nil_r _) (or_introl eq_refl)) as [P1 P2 P3 P4 P5 P6 P7].
    constructor; unfold d_len in *; cbn [committed line i_r i_w i_e i_buf set_w set_e put_ring i1] in *; try done.
    rewrite u32_u32, P4. by rewrite Nat.add_0_r.
  - eexists. split; [reflexivity|]. split; [|by rewrite F3].
    apply orb_false_iff in Eb as [[Ec%Z.eqb_neq _]%orb_false_iff _].
    assert (Hn : NL ∉ line d ++ [c]).
    { intros [H|H%list_elem_of_singleton]%elem_of_app; [by apply (ro_line _ _ Hring)|congruence]. }
    pose proof (ring_push _ _ c (line d ++ [c]) Hring Hlt Hc Hn (committed d) eq_refl (or_intror eq_refl)) as Hp.
    rewrite <- (ro_w _ _ Hring) in Hp. constructor; [done|rewrite F2; by destruct Hp|].
    rewrite F4. apply (co_wakes _ _ Hs).
Qed.

Lemma intr_char_ok c s d :
  con_ok s d -> is_byte c ->
  exists s', intr_char c s = Ok (C "P" =? c, s') /\ con_ok s' (d_char c d) /\ c_lock s' = c_lock s.
Proof.
  intros Hs Hc. pose proof (co_ring _ _ Hs) as Hring. unfold intr_char, d_char. rewrite (Z.eqb_sym (C "P") c).
  destruct (Z.eqb_spec c (C "P")) as [_|_]; [by exists s|].
  destruct (Z.eqb_spec c (C "U")) as [_|_].
  { destruct (kill_line_ok (S (Z.to_nat INPUT_BUF)) s d Hs) as (s' & E & H).
    - pose proof (ro_fits _ _ Hring). unfold d_len in *. lia.
    - exists s'. by rewrite (mbind_ok _ _ _ _ _ E). }
  destruct ((c =? C "H") || (c =? 0x7f)).
  { unfold geti. mgo. destruct d as [comm l wk]. cbn [committed line wakes]. destruct l as [|x l _] using rev_ind.
    - rewrite (proj2 (Z.eqb_eq _ _)) by (by apply (ring_e_w _ _ Hring)). cbn [negb mwhen]. mgo. by exists s.
    - assert (Hne : i_e (c_input s) <> i_w (c_input s)).
      { intros E. apply (ring_e_w _ _ Hring) in E. simpl in E. by destruct l. }
      rewrite (proj2 (Z.eqb_neq _ _) Hne). cbn [negb mwhen]. unfold seti. mgo. set (s1 := set_input _ s).
      assert (Hs1 : con_ok s1 (mkdisc comm l wk)).
      { apply (con_input _ _ _ _ Hs); [by eapply ring_pop|done]. }
      destruct (con_output BACKSPACE s1 _ Hs1) as (s2 & E2 & Hs2 & L2). mby E2.
      rewrite removelast_last. exists s2. split; [done|]. split; [done|]. by rewrite L2. }
  unfold geti at 1. mgo. rewrite (ring_used _ _ Hring).
  destruct (Z.eqb_spec c 0) as [->|Hc0]; [cbn; by exists s|]. cbn [negb andb orb].
  destruct (Z.leb_spec INPUT_BUF (d_len d)) as [H|H].
  { rewrite (proj2 (Z.ltb_ge _ _)) by lia. cbn [mwhen]. mgo. by exists s. }
  rewrite (proj2 (Z.ltb_lt _ _)) by lia. cbn [mwhen].
  set (c' := if c =? 13 then NL else c).
  assert (Hc' : is_byte c') by (unfold c', is_byte, NL in *; destruct (c =? 13); lia).
  destruct (store_char_ok c' s d Hs Hc' H) as (s' & E & Hs' & L). exists s'.
  cbv zeta. rewrite (mbind_ok _ _ _ _ _ E). done.
Qed.

Lemma intr_loop_ok cs dump s d :
  con_ok s d -> Forall is_byte cs ->
  exists s', intr_loop cs dump s = Ok (dump || existsb (Z.eqb (C "P")) cs, s') /\
    con_ok s' (foldl (fun d c => d_char c d) d cs) /\ c_lock s' = c_lock s.
Proof.
  intros Hs Hcs. revert dump s d Hs. induction Hcs as [|c cs Hc Hcs IH]; intros dump s d Hs; cbn [intr_loop existsb foldl].
  - exists s. by rewrite orb_false_r.
  - rewrite (proj2 (Z.ltb_ge c 0)) by (unfold is_byte in Hc; lia).
    destruct (intr_char_ok c s d Hs Hc) as (s1 & E1 & Hs1 & L1). rewrite (mbind_ok _ _ _ _ _ E1).
    destruct (IH (dump || (C "P" =? c)) s1 _ Hs1) as (s2 & E2 & Hs2 & L2). exists s2.
    rewrite E2, orb_assoc. split; [done|]. split; [done|]. congruence.
Qed.

(** Reading one byte. *)
Lemma input_front i c q l w :
  ring_ok i (mkdisc (c :: q) l w) ->
  ring_at i (i_r i) = c /\ ring_ok (set_r (i_r i + 1) i) (mkdisc q l w).
Proof.
  intros [Hl Hr Hw He Hf Hd Hn]. unfold d_len in *. cbn [committed line length] in *. split.
  - specialize (Hd 0%nat ltac:(lia)). simpl in Hd. rewrite Z.add_0_r in Hd. by injection Hd.
  - constructor; unfold d_len; cbn [committed line i_r i_w i_e i_buf set_r]; auto.
    + apply u32_range.
    + rewrite Hw, u32_add_u32. f_equal. lia.
    + rewrite He, u32_add_u32. f_equal. lia.
    + lia.
    + intros k Hk. specialize (Hd (S k) ltac:(lia)). simpl in Hd. rewrite <- Hd. f_equal.
      rewrite <- ring_at_u32, u32_add_u32, ring_at_u32. unfold ring_at. cbn [i_buf set_r].
      by replace (i_r i + 1 + Z.of_nat k) with (i_r i + Z.of_nat (S k)) by lia.
Qed.

Lemma set_r_back i : is_u32 (i_r i) -> set_r (i_r (set_r (i_r i + 1) i) - 1) (set_r (i_r i + 1) i) = i.
Proof.
  intros H. destruct i as [b r w e]. unfold set_r. cbn [i_buf i_r i_w i_e] in *. f_equal.
  rewrite u32_sub_u32. replace (r + 1 - 1) with r by lia. by apply u32_small.
Qed.

Lemma read_loop_ok fuel killed n target got s q l w :
  con_ok s (mkdisc q l w) -> (S (length q) < fuel)%nat ->
  exists s', read_loop fuel killed n target got s = Ok (fst (d_read q killed n target got), s') /\
    con_ok s' (mkdisc (snd (d_read q killed n target got)) l w) /\ c_lock s' = c_lock s.
Proof.
  revert n got s q. induction fuel as [|fuel IH]; intros n got s q Hs Hf; [lia|]. cbn [read_loop].
  pose proof (co_ring _ _ Hs) as Hring. destruct q as [|c q]; cbn [d_read].
  - destruct (0 <? n); cbn [negb fst snd]; [|by exists s]. unfold geti. mgo.
    rewrite (proj2 (Z.eqb_eq _ _)) by (by apply (ring_r_w _ _ Hring)). destruct killed; by exists s.
  - destruct (0 <? n); cbn [negb fst snd]; [|by exists s]. unfold geti. mgo.
    assert (Hne : i_r (c_input s) <> i_w (c_input s)) by (intros E; by apply (ring_r_w _ _ Hring) in E).
    rewrite (proj2 (Z.eqb_neq _ _) Hne). destruct (input_front _ _ _ _ _ Hring) as [Ec Hr1]. rewrite Ec.
    unfold seti at 1. mgo. set (s1 := set_input _ s).
    assert (Hs1 : con_ok s1 (mkdisc q l w)) by (by apply (con_input _ _ _ _ Hs)).
    destruct (c =? C "D").
    { destruct (n <? target); cbn [mwhen fst snd]; unfold seti; mgo; eexists; (split; [reflexivity|]); [|done].
      split; [|done]. apply (con_input _ _ _ _ Hs1); [|done].
      change (c_input s1) with (set_r (i_r (c_input s) + 1) (c_input s)).
      rewrite set_r_back; [done|apply Hring]. }
    destruct (c =? NL); [by exists s1|].
    destruct (IH (n - 1) (got ++ [c]) s1 q Hs1) as (s2 & E2 & Hs2 & L2); [simpl in Hf; lia|]. by exists s2.
Qed.

Lemma con_lock b s d : con_ok s d -> con_ok (set_c_lock b s) d.
Proof. intros [[H1 H2] H3 H4]. constructor; [by constructor|done|done]. Qed.

(** A body that keeps the lock, between [acquire] and [release]. *)
Lemma console_locked {A} (m : CM A) a s d d' :
  c_lock s = false -> con_ok s d ->
  (forall t, con_ok t d -> exists t', m t = Ok (a, t') /\ con_ok t' d' /\ c_lock t' = c_lock t) ->
  exists s', (cacquire ;;! let! x := m in crelease ;;! mret x) s = Ok (a, s') /\ con_ok s' d' /\ c_lock s' = false.
Proof.
  intros Hl Hs Hm. destruct (Hm (set_c_lock true s) (con_lock _ _ _ Hs)) as (t & Et & Ht & Lt).
  exists (set_c_lock false t). split; [|split; [by apply con_lock|done]].
  assert (E1 : cacquire s = Ok (tt, set_c_lock true s)) by (unfold cacquire, acquire; by rewrite Hl).
  mby E1. mby Et. assert (E2 : crelease t = Ok (tt, set_c_lock false t)) by (unfold crelease, release; by rewrite Lt).
  by mby E2.
Qed.

Lemma con_event_ok e s d :
  c_lock s = false -> con_ok s d -> (match e with EIntr cs => Forall is_byte cs | _ => True end) ->
  exists s', con_event e s = Ok (fst (d_event e d), s') /\ con_ok s' (snd (d_event e d)) /\ c_lock s' = false.
Proof.
  intros Hl Hs He. destruct e as [cs|killed n target got]; cbn [con_event d_event].
  - destruct (console_locked (intr_loop cs false) (existsb (Z.eqb (C "P")) cs) s d
               (foldl (fun d c => d_char c d) d cs) Hl Hs) as (s' & E & H).
    { intros t Ht. apply (intr_loop_ok cs false t d Ht He). }
    exists s'. unfold consoleintr. by mby E.
  - destruct d as [q l w]. cbn [committed line wakes]. pose proof (ro_fits _ _ (co_ring _ _ Hs)) as Hf.
    destruct (console_locked (read_loop read_fuel killed n target got) (fst (d_read q killed n target got)) s (mkdisc q l w)
               (mkdisc (snd (d_read q killed n target got)) l w) Hl Hs) as (s' & E & H).
    { intros t Ht. apply read_loop_ok; [done|]. unfold read_fuel, d_len in *. simpl in Hf. lia. }
    exists s'. unfold read_locked. mby E. by destruct (d_read q killed n target got).
Qed.

(** C14: the console implements its line discipline: on any sequence of
    interrupts (from the keyboard or the serial port) and reads, the ring with
    its three wrapping indices answers as the two lists of [disc] do, no
    character overwrites one that is still to be read, and echoing never runs
    the cursor off the screen. *)
Theorem console_refines (es : list event) (s : console) (d : disc) :
  c_lock s = false -> con_ok s d ->
  Forall (fun e => match e with EIntr cs => Forall is_byte cs | _ => True end) es ->
  exists s', con_run es s = Ok (fst (d_run es d), s') /\ con_ok s' (snd (d_run es d)) /\ c_lock s' = false.
Proof.
  intros Hl Hs Hes. revert s d Hl Hs. induction Hes as [|e es He Hes IH]; intros s d Hl Hs; cbn [con_run d_run].
  - by exists s.
  - destruct (con_event_ok e s d Hl Hs He) as (s1 & E1 & Hs1 & L1). mby E1.
    destruct (d_event e d) as [o d1]. cbn [fst snd] in *.
    destruct (IH s1 d1 L1 Hs1) as (s2 & E2 & Hs2 & L2). exists s2. mby E2. by destruct (d_run es d1).
Qed.

(** The console after [consoleinit], with the cursor at the top. *)
Definition console0 : console :=
  mkconsole false true false true [] (fun _ => 0) 0 (mkinput (replicate 128 0) 0 0 0) 0.

Definition session : list event :=
  [ERead false 10 10 []; EIntr (chars "lz" ++ [C "H"] ++ chars "s" ++ [13] ++ chars "ab"); ERead false 10 10 [];
   EIntr [C "U"; C "D"]; ERead false 10 10 []].

Lemma console_refines_witness :
  exists s', con_run session console0 =
    Ok ([ORead (RSleep 10 []); OIntr false; ORead (RDone 3 (chars "ls" ++ [NL])); OIntr false; ORead (RDone 0 [])], s') /\
    con_ok s' (mkdisc [] [] 2) /\ c_lock s' = false.
Proof.
  apply (console_refines session console0 (mkdisc [] [] 0)); [reflexivity| |].
  - constructor; [constructor; [reflexivity|simpl; lia]|constructor; simpl; try reflexivity|reflexivity].
    + unfold is_u32. lia.
    + unfold d_len, INPUT_BUF. simpl. lia.
    + intros k Hk. lia.
    + apply not_elem_of_nil.
  - repeat (apply Forall_cons; split); try apply Forall_nil; try exact I; by apply (bool_decide_unpack _).
Defined.
