(* ===== verification/Split.v ===== *)
(** * [POSIX/split_files.c]

    [read_buffers] and [buffer_to_fdout], which the programs of POSIX/ share,
    over any [read] and [write] that may move fewer bytes than asked; then the
    program that deals the bytes of its input out to up to sixteen files.  A
    buffer with its offset is the list of the bytes before the offset.

    [split_exact] says what each file gets, for every input: its share of the
    bytes in order, but for the bytes that are still in the buffers when the
    last block read was a full one. *)

From Stdlib Require Import ZArith Lia.
From stdpp Require Import base numbers list.
From S2P Require Import Prelude.

Local Open Scope Z_scope.

(** ** Blocks of input and output *)

Section blocks.
  (** The result of [read] and [write] with [m] bytes left to read or write:
      the most they move, or -1. *)
  Context (rd wr : nat -> Z).
  (** The value the uninitialised [num_written] happens to have. *)
  Context (junk : Z).

(** The loop of [read_buffers]: the bytes read, the rest of the input, and the
    last result of [read]. *)
Fixpoint read_loop (fuel : nat) (num_left : Z) (input : list Z) (last : Z) : option (list Z * list Z * Z) :=
  match fuel with
  | O => None
  | S fuel' =>
      if negb (0 <? num_left) then Some ([], input, last)
      else
        let r := rd (length input) in
        let got := if r <? 0 then [] else take (Z.to_nat (Z.min r num_left)) input in
        let n := if r <? 0 then r else Z.of_nat (length got) in
        if negb (0 <? n) then Some ([], input, n)
        else
          match read_loop fuel' (num_left - n) (drop (length got) input) n with
          | Some (l, rest, last') => Some (got ++ l, rest, last')
          | None => None
          end
  end.

(** [None] is [exit(EXIT_FAILURE)] (or no fuel, which cannot be: each round
    reads a byte). *)
Definition read_buffers (buf_size : Z) (input : list Z) : option (list Z * list Z) :=
  match read_loop (S (Z.to_nat buf_size)) buf_size input junk with
  | Some (l, rest, last) => if last =? -1 then None else Some (l, rest)
  | None => None
  end.

(** The loop of [buffer_to_fdout]: what it writes and the last result. *)
Fixpoint write_loop (fuel : nat) (buf : list Z) (last : Z) : option (list Z * Z) :=
  match fuel with
  | O => None
  | S fuel' =>
      match buf with
      | [] => Some ([], last)
      | _ =>
          let r := Z.min (wr (length buf)) (Z.of_nat (length buf)) in
          if negb (0 <? r) then Some ([], r)
          else
            match write_loop fuel' (drop (Z.to_nat r) buf) r with
            | Some (l, last') => Some (take (Z.to_nat r) buf ++ l, last')
            | None => None
            end
      end
  end.
Definition buffer_to_fdout (buf : list Z) : option (list Z) :=
  match write_loop (S (length buf)) buf junk with
  | Some (l, last) => if last =? -1 then None else Some l
  | None => None
  end.

(** ** The program *)

(** The options: [Some v] is [-t v], [None] one [getopt] does not know. *)
Definition MAXFILES : nat := 16.
Fixpoint split_options (opts : list (option Z)) (t : Z) (error : bool) : Z * bool :=
  match opts with
  | [] => (t, error)
  | Some v :: opts' => split_options opts' v (error || (v <? 1) || (1048576 <? v))
  | None :: opts' => split_options opts' t true
  end.

Record split_st : Type := mksplit { outs : list (list Z); bufs : list (list Z); current_file : nat }.

(** [write_in_buffer] at the offset of buffer [i], of size [t]. *)
Definition write_in_buffer (t : Z) (i : nat) (c : Z) (st : split_st) : option split_st :=
  match bufs st !! i with
  | Some b => if Z.of_nat (length b) <? t
              then Some (mksplit (outs st) (<[i := b ++ [c]]> (bufs st)) (current_file st)) else None
  | None => None
  end.

(** The [for] over the files, from file [i] with [k] to go; [block] is what is
    left of the input buffer. *)
Fixpoint split_for (t : Z) (n : nat) (k i : nat) (block : list Z) (st : split_st) : option (list Z * split_st) :=
  match k with
  | O => Some (block, st)
  | S k' =>
      match block with
      | [] => Some ([], st)
      | c :: block' =>
          if (current_file st =? i)%nat then
            match write_in_buffer t i c st with
            | None => None
            | Some st1 =>
                let cur := S (current_file st1) in
                let cur := if (cur =? n)%nat then O else cur in
                split_for t n k' (S i) block' (mksplit (outs st1) (bufs st1) cur)
            end
          else
            let cur := if (current_file st =? n)%nat then O else current_file st in
            split_for t n k' (S i) block (mksplit (outs st) (bufs st) cur)
      end
  end.

Fixpoint split_while (fuel : nat) (t : Z) (n : nat) (block : list Z) (st : split_st) : option split_st :=
  match fuel with
  | O => None
  | S fuel' =>
      match block with
      | [] => Some st
      | _ =>
          match split_for t n n 0 block st with
          | Some (block', st') => split_while fuel' t n block' st'
          | None => None
          end
      end
  end.

(** The second [for]: the buffers that are full, or all after a short block. *)
Fixpoint flush (t num_readed : Z) (outs bufs : list (list Z)) : option (list (list Z) * list (list Z)) :=
  match outs, bufs with
  | o :: outs', b :: bufs' =>
      match flush t num_readed outs' bufs' with
      | None => None
      | Some (os, bs) =>
          if (Z.of_nat (length b) =? t) || (num_readed <? t) then
            match buffer_to_fdout b with
            | Some w => Some ((o ++ w) :: os, [] :: bs)
            | None => None
            end
          else Some (o :: os, b :: bs)
      end
  | _, _ => Some ([], [])
  end.

(** The loop over the blocks of the input; each reads at least a byte. *)
Fixpoint split_loop (fuel : nat) (t : Z) (n : nat) (input : list Z) (st : split_st) : option split_st :=
  match fuel with
  | O => None
  | S fuel' =>
      match read_buffers t input with
      | None => None
      | Some ([], _) => Some st
      | Some (block, rest) =>
          match split_while (S (length block)) t n block st with
          | None => None
          | Some st1 =>
              match flush t (Z.of_nat (length block)) (outs st1) (bufs st1) with
              | None => None
              | Some (os, bs) => split_loop fuel' t n rest (mksplit os bs (current_file st1))
              end
          end
      end
  end.

(** [main]: the contents of the output files, or [None] on an error exit. *)
Definition split_main (opts : list (option Z)) (open_ok : nat -> bool) (n : nat) (input : list Z)
  : option (list (list Z)) :=
  let '(t, error) := split_options opts 1024 false in
  if error || (n <? 1)%nat || (MAXFILES <? n)%nat then None
  else if negb (forallb open_ok (seq 0 n)) then None
  else
    match split_loop (S (length input)) t n input (mksplit (replicate n []) (replicate n []) 0) with
    | Some st => Some (outs st)
    | None => None
    end.
End blocks.

(** ** The shares *)

(** The bytes of [l] at the positions [k], [k + n], [k + 2n], ... *)
Fixpoint every (n k : nat) (l : list Z) : list Z :=
  match l with
  | [] => []
  | c :: l' => match k with O => c :: every n (n - 1) l' | S k' => every n k' l' end
  end.

(** How many of [m] positions are those. *)
Definition share (n i m : Z) : Z := (m + n - 1 - i) / n.

(** ** Reading and writing whole blocks *)

Section proofs.
  Context (rd wr : nat -> Z) (junk : Z).
  Hypothesis Hrd : forall m, 1 <= rd m.
  Hypothesis Hwr : forall m, 1 <= wr m.
  Hypothesis Hjunk : junk <> -1.

Lemma read_loop_spec fuel t input last :
  0 <= t -> last <> -1 -> (Z.to_nat t < fuel)%nat ->
  exists last', read_loop rd fuel t input last = Some (take (Z.to_nat t) input, drop (Z.to_nat t) input, last') /\ last' <> -1.
Proof.
  revert t input last. induction fuel as [|fuel IH]; intros t input last Ht Hl Hf; [lia|]. cbn [read_loop].
  destruct (Z.ltb_spec 0 t) as [Hpos|Hneg]; cbn [negb].
  2: { replace t with 0 by lia. exists last. done. }
  pose proof (Hrd (length input)) as Hr. rewrite (proj2 (Z.ltb_ge _ 0)) by lia.
  set (k := Z.to_nat (Z.min (rd (length input)) t)).
  assert (Hk : (0 < k <= Z.to_nat t)%nat) by lia. destruct input as [|c input].
  { exists 0. by rewrite !take_nil, !drop_nil. }
  destruct k as [|k]; [lia|]. cbn [take length].
  rewrite (proj2 (Z.ltb_lt _ _)) by lia. cbn [negb drop].
  set (got := take k input). assert (Hgot : (length got <= k)%nat) by (unfold got; rewrite length_take; lia).
  destruct (IH (t - Z.of_nat (S (length got))) (drop (length got) input) (Z.of_nat (S (length got)))) as (last' & -> & Hl');
    [lia|lia|lia|]. exists last'. split; [|done].
  replace (Z.to_nat t) with (S (length got + Z.to_nat (t - Z.of_nat (S (length got)))))%nat by lia.
  cbn [take drop]. rewrite drop_drop. do 3 f_equal. simpl. f_equal. rewrite <- take_take_drop. f_equal.
  unfold got. rewrite length_take. destruct (Nat.le_gt_cases k (length input)).
  - by rewrite Nat.min_l.
  - rewrite Nat.min_r by lia. rewrite !take_ge by lia. done.
Qed.

Lemma read_buffers_spec t input :
  0 <= t -> read_buffers rd junk t input = Some (take (Z.to_nat t) input, drop (Z.to_nat t) input).
Proof.
  intros Ht. unfold read_buffers.
  destruct (read_loop_spec (S (Z.to_nat t)) t input junk Ht Hjunk ltac:(lia)) as (last & -> & Hl).
  by rewrite (proj2 (Z.eqb_neq _ _) Hl).
Qed.

Lemma write_loop_spec fuel buf last :
  last <> -1 -> (length buf < fuel)%nat ->
  exists last', write_loop wr fuel buf last = Some (buf, last') /\ last' <> -1.
Proof.
  revert buf last. induction fuel as [|fuel IH]; intros buf last Hl Hf; [lia|]. cbn [write_loop].
  destruct buf as [|c buf]; [by exists last|]. set (b := c :: buf) in *.
  pose proof (Hwr (length b)) as Hw. assert (Hb : (0 < length b)%nat) by (simpl; lia).
  set (r := Z.min _ _). rewrite (proj2 (Z.ltb_lt 0 r)) by lia. cbn [negb].
  destruct (IH (drop (Z.to_nat r) b) r) as (last' & -> & Hl'); [lia|rewrite length_drop; lia|].
  exists last'. by rewrite take_drop.
Qed.

Lemma buffer_to_fdout_spec buf : buffer_to_fdout wr junk buf = Some buf.
Proof.
  unfold buffer_to_fdout. destruct (write_loop_spec (S (length buf)) buf junk Hjunk ltac:(lia)) as (last & -> & Hl).
  by rewrite (proj2 (Z.eqb_neq _ _) Hl).
Qed.
End proofs.

(** ** Shares of a longer input *)

Lemma share_S n i m :
  0 < n -> 0 <= i < n -> 0 <= m -> share n i (m + 1) = share n i m + (if m mod n =? i then 1 else 0).
Proof.
  intros Hn Hi Hm. unfold share. pose proof (Z.div_mod m n ltac:(lia)) as Hd. pose proof (Z.mod_pos_bound m n Hn) as Hb.
  set (q := m / n) in *. set (r := m mod n) in *. rewrite Hd.
  replace (n * q + r + 1 + n - 1 - i) with (q * n + (r + n - i)) by lia.
  replace (n * q + r + n - 1 - i) with (q * n + (r + n - 1 - i)) by lia.
  rewrite !Z.div_add_l by lia. destruct (Z.eqb_spec r i) as [->|Hne].
  - replace (i + n - i) with n by lia. rewrite Z.div_same, (Z.div_small (i + n - 1 - i)) by lia. lia.
  - destruct (Z.lt_ge_cases r i).
    + rewrite !Z.div_small by lia. lia.
    + assert (E : forall x, n <= x < 2 * n -> x / n = 1).
      { intros x Hx. symmetry. apply (Z.div_unique x n 1 (x - n)); lia. }
      rewrite !E by lia. lia.
Qed.

Lemma share_mono n i m m' : 0 < n -> m <= m' -> share n i m <= share n i m'.
Proof. intros Hn Hm. unfold share. apply Z.div_le_mono; lia. Qed.

(** A block never takes a share past the next multiple of its size. *)
Lemma share_block n i t k r :
  0 < n -> 0 <= i < n -> 0 < t -> 0 <= k -> 0 <= r <= t ->
  share n i (k * t + r) <= t * (share n i (k * t) / t) + t.
Proof.
  intros Hn Hi Ht Hk Hr. pose proof (Z.div_mod k n ltac:(lia)) as Hd. pose proof (Z.mod_pos_bound k n Hn) as Hb.
  set (q := k / n) in *. assert (Hq : 0 <= q) by (apply Z.div_pos; lia).
  assert (Hlow : q * t <= share n i (k * t)).
  { unfold share. apply Z.div_le_lower_bound; [lia|]. nia. }
  assert (Hhigh : share n i (k * t + r) <= (q + 1) * t).
  { unfold share. apply Z.lt_succ_r, Z.div_lt_upper_bound; [lia|]. nia. }
  assert (q <= share n i (k * t) / t) by (apply Z.div_le_lower_bound; lia). nia.
Qed.

Lemma mod_succ a n : (0 < n)%nat -> (S a mod n = if a mod n =? n - 1 then 0 else S (a mod n))%nat.
Proof.
  intros Hn. pose proof (Nat.mod_upper_bound a n ltac:(lia)) as Hb.
  rewrite <- Nat.add_1_r, <- Nat.Div0.add_mod_idemp_l. destruct (Nat.eqb_spec (a mod n) (n - 1)) as [->|E].
  - replace (n - 1 + 1)%nat with n by lia. apply Nat.Div0.mod_same.
  - rewrite Nat.mod_small by lia. lia.
Qed.

Lemma every_snoc n k l c :
  (0 < n)%nat -> (k < n)%nat ->
  every n k (l ++ [c]) = every n k l ++ (if (length l mod n =? k)%nat then [c] else []).
Proof.
  intros Hn. revert k. induction l as [|x l IH]; intros k Hk; cbn [app every length].
  - rewrite Nat.Div0.mod_0_l. by destruct k.
  - rewrite mod_succ by done. destruct k as [|k]; rewrite IH by lia; simpl; repeat f_equal.
    + by destruct (length l mod n =? n - 1)%nat.
    + destruct (Nat.eqb_spec (length l mod n) (n - 1)) as [->|]; [|done].
      by rewrite (proj2 (Nat.eqb_neq _ _)) by lia.
Qed.

Lemma length_every n k l :
  (0 < n)%nat -> (k < n)%nat -> Z.of_nat (length (every n k l)) = share (Z.of_nat n) (Z.of_nat k) (Z.of_nat (length l)).
Proof.
  intros Hn Hk. induction l as [|c l IH] using rev_ind.
  - simpl. unfold share. by rewrite Z.div_small by lia.
  - rewrite every_snoc, !length_app by done. simpl. rewrite !Nat2Z.inj_add, IH.
    rewrite share_S by lia. f_equal. rewrite <- Nat2Z.inj_mod.
    destruct (Nat.eqb_spec (length l mod n) k) as [->|E]; [by rewrite Z.eqb_refl|].
    by rewrite (proj2 (Z.eqb_neq _ _)) by lia.
Qed.

(** ** Dealing out the bytes *)

(** The state after the bytes [c]: file and buffer of each number hold its share. *)
Record dealt (n : nat) (c : list Z) (st : split_st) : Prop := {
  dl_outs : length (outs st) = n;
  dl_bufs : length (bufs st) = n;
  dl_cur : current_file st = (length c mod n)%nat;
  dl_share i o b : outs st !! i = Some o -> bufs st !! i = Some b -> o ++ b = every n i c
}.

(** The buffers have room for the share of [m] bytes in all. *)
Definition room (t : Z) (n : nat) (m : nat) (os : list (list Z)) : Prop :=
  forall i o, os !! i = Some o -> share (Z.of_nat n) (Z.of_nat i) (Z.of_nat m) <= Z.of_nat (length o) + t.

Lemma write_ok t n c x st m :
  (0 < n)%nat -> dealt n c st -> room t n m (outs st) -> (length c < m)%nat ->
  exists st1, write_in_buffer t (current_file st) x st = Some st1 /\ outs st1 = outs st /\
    current_file st1 = current_file st /\
    dealt n (c ++ [x]) (mksplit (outs st1) (bufs st1)
      (if (S (current_file st1) =? n)%nat then O else S (current_file st1))).
Proof.
  intros Hn [Ho Hb Hc Hs] Hroom Hm. pose proof (Nat.mod_upper_bound (length c) n ltac:(lia)) as Hcur.
  destruct (lookup_lt_is_Some_2 (bufs st) (current_file st)) as [b Eb]; [lia|].
  destruct (lookup_lt_is_Some_2 (outs st) (current_file st)) as [o Eo]; [lia|].
  assert (Hlt : Z.of_nat (length b) < t).
  { pose proof (Hroom _ _ Eo) as Hr. pose proof (Hs _ _ _ Eo Eb) as Hob. apply (f_equal length) in Hob.
    rewrite length_app in Hob. pose proof (length_every n (current_file st) c Hn ltac:(lia)) as Hl.
    pose proof (share_S (Z.of_nat n) (Z.of_nat (current_file st)) (Z.of_nat (length c)) ltac:(lia) ltac:(lia) ltac:(lia)) as HS.
    rewrite (proj2 (Z.eqb_eq _ _)) in HS by (rewrite <- Nat2Z.inj_mod; lia).
    pose proof (share_mono (Z.of_nat n) (Z.of_nat (current_file st)) (Z.of_nat (length c) + 1) (Z.of_nat m) ltac:(lia) ltac:(lia)).
    lia. }
  unfold write_in_buffer. rewrite Eb, (proj2 (Z.ltb_lt _ _) Hlt). eexists. split; [reflexivity|].
  split; [done|]. split; [done|]. cbn [outs bufs current_file]. constructor; cbn [outs bufs current_file].
  - done.
  - by rewrite length_insert.
  - rewrite length_app, Nat.add_1_r, mod_succ, <- Hc by done.
    destruct (Nat.eqb_spec (S (current_file st)) n), (Nat.eqb_spec (current_file st) (n - 1)); lia.
  - intros i o' b' Eo' Eb'. pose proof (lookup_lt_Some _ _ _ Eo') as Hi. rewrite every_snoc, <- Hc by lia.
    apply list_lookup_insert_Some in Eb' as [(<- & <- & _)|[Hne Eb']].
    + rewrite Nat.eqb_refl, app_assoc. f_equal. by apply Hs.
    + rewrite (proj2 (Nat.eqb_neq _ _)), app_nil_r by done. by apply Hs.
Qed.

(** One round of the [for]: the files from the current one on get a byte each. *)
Lemma split_for_ok t n k i block st c m :
  (0 < n)%nat -> (i + k = n)%nat -> (i <= current_file st)%nat -> (current_file st < n)%nat ->
  dealt n c st -> room t n m (outs st) -> (length c + length block <= m)%nat ->
  exists st' block' done_, split_for t n k i block st = Some (block', st') /\ block = done_ ++ block' /\
    dealt n (c ++ done_) st' /\ outs st' = outs st /\ (block = [] \/ done_ <> []).
Proof.
  intros Hn. revert i block st c. induction k as [|k IH]; intros i block st c Hik Hi Hcn Hd Hroom Hm; [lia|].
  cbn [split_for]. destruct block as [|x block].
  { exists st, [], []. rewrite (app_nil_r c). split; [done|]. split; [done|]. split; [done|]. split; [done|by left]. }
  destruct (Nat.eqb_spec (current_file st) i) as [Ei|Ei].
  - destruct (write_ok t n c x st m Hn Hd Hroom) as (st1 & Ew & Eo & Ec & Hd1); [simpl in Hm; lia|].
    rewrite Ei in Ew. rewrite Ew. set (st2 := mksplit _ _ _) in *.
    destruct (decide (k = 0%nat)) as [Hk|Hk].
    + rewrite Hk. cbn [split_for]. exists st2, block, [x]. split; [done|]. split; [done|]. split; [done|]. split; [done|]. by right.
    + assert (Ecur : current_file st2 = S i).
      { unfold st2. cbn [current_file]. rewrite Ec, Ei. destruct (Nat.eqb_spec (S i) n); [lia|done]. }
      destruct (IH (S i) block st2 (c ++ [x])) as (st' & block' & dn & E & -> & Hd' & Eo' & _); try (done || lia).
      { by rewrite <- Eo in Hroom. }
      { rewrite length_app. simpl in *. lia. }
      exists st', block', (x :: dn). split; [done|]. split; [done|]. split; [by rewrite <- app_assoc in Hd'|].
      split; [by rewrite Eo', <- Eo|by right].
  - rewrite (proj2 (Nat.eqb_neq (current_file st) n)) by lia.
    destruct st as [os bs cu]. cbn [outs bufs current_file] in *.
    apply (IH (S i) (x :: block) (mksplit os bs cu) c); try done; cbn [current_file]; lia.
Qed.

Lemma split_while_ok fuel t n block st c m :
  (0 < n)%nat -> dealt n c st -> room t n m (outs st) -> (length c + length block <= m)%nat ->
  (length block < fuel)%nat ->
  exists st', split_while fuel t n block st = Some st' /\ dealt n (c ++ block) st' /\ outs st' = outs st.
Proof.
  intros Hn. revert block st c. induction fuel as [|fuel IH]; intros block st c Hd Hroom Hm Hf; [lia|].
  cbn [split_while]. destruct block as [|x block]; [exists st; by rewrite app_nil_r|].
  assert (Hcn : (current_file st < n)%nat) by (rewrite (dl_cur _ _ _ Hd); apply Nat.mod_upper_bound; lia).
  destruct (split_for_ok t n n 0 (x :: block) st c m) as (st1 & block1 & dn & -> & E & Hd1 & Eo & Hp); try (done || lia).
  destruct Hp as [|Hp]; [done|]. assert (Hdn : (0 < length dn)%nat) by (destruct dn; [done|simpl; lia]).
  assert (El : length (x :: block) = (length dn + length block1)%nat) by (by rewrite E, length_app).
  destruct (IH block1 st1 (c ++ dn)) as (st' & -> & Hd' & Eo'); try (done || lia).
  { by rewrite Eo. }
  { rewrite length_app. lia. }
  exists st'. rewrite E, app_assoc. split; [done|]. split; [done|]. congruence.
Qed.

Lemma flush_ok wr junk t r os bs :
  (forall m, 1 <= wr m) -> junk <> -1 -> length os = length bs ->
  exists os' bs', flush wr junk t r os bs = Some (os', bs') /\ length os' = length os /\ length bs' = length os /\
  forall i o b, os !! i = Some o -> bs !! i = Some b ->
    if (Z.of_nat (length b) =? t) || (r <? t) then os' !! i = Some (o ++ b) /\ bs' !! i = Some []
    else os' !! i = Some o /\ bs' !! i = Some b.
Proof.
  intros Hwr Hj. revert bs. induction os as [|o os IH]; intros [|b bs] Hl; try done; cbn [flush].
  - exists [], []. done.
  - destruct (IH bs) as (os' & bs' & -> & Lo & Lb & H); [by injection Hl|].
    rewrite (buffer_to_fdout_spec wr junk Hwr Hj). destruct ((Z.of_nat (length b) =? t) || (r <? t)) eqn:E.
    + eexists _, _. split; [done|]. simpl. split; [by rewrite Lo|]. split; [by rewrite Lb|].
      intros [|i] o' b' Ho Hb; simpl in *; [|by apply H]. simplify_eq. by rewrite E.
    + eexists _, _. split; [done|]. simpl. split; [by rewrite Lo|]. split; [by rewrite Lb|].
      intros [|i] o' b' Ho Hb; simpl in *; [|by apply H]. simplify_eq. by rewrite E.
Qed.

(** ** The whole program *)

(** How much of its share of [m] bytes a file gets: all of it after a short
    last block, else what whole buffers of [t] bytes hold. *)
Definition kept (t n i m : Z) : Z :=
  if m mod t =? 0 then t * (share n i m / t) else share n i m.

(** Between two full blocks: the buffers were written out each time they were
    full. *)
Record boundary (t : Z) (n : nat) (k : Z) (c : list Z) (st : split_st) : Prop := {
  bd_dealt : dealt n c st;
  bd_len : Z.of_nat (length c) = k * t;
  bd_outs i o : outs st !! i = Some o ->
    Z.of_nat (length o) = t * (share (Z.of_nat n) (Z.of_nat i) (k * t) / t)
}.

Section program.
  Context (rd wr : nat -> Z) (junk : Z).
  Hypothesis Hrd : forall m, 1 <= rd m.
  Hypothesis Hwr : forall m, 1 <= wr m.
  Hypothesis Hjunk : junk <> -1.

Lemma boundary_room t n k c st m :
  (0 < n)%nat -> 0 < t -> 0 <= k -> boundary t n k c st -> k * t <= Z.of_nat m <= k * t + t -> room t n m (outs st).
Proof.
  intros Hn Ht Hk [Hd Hl Ho] Hm i o Eo. rewrite (Ho _ _ Eo).
  pose proof (lookup_lt_Some _ _ _ Eo) as Hi. rewrite (dl_outs _ _ _ Hd) in Hi.
  replace (Z.of_nat m) with (k * t + (Z.of_nat m - k * t)) by lia. apply share_block; lia.
Qed.

(** The files at the end of the input, after full blocks only. *)
Lemma boundary_end t n k c st i :
  (0 < n)%nat -> 0 < t -> boundary t n k c st -> (i < n)%nat ->
  outs st !! i = Some (take (Z.to_nat (kept t (Z.of_nat n) (Z.of_nat i) (Z.of_nat (length c)))) (every n i c)).
Proof.
  intros Hn Ht [Hd Hl Ho] Hi. destruct (lookup_lt_is_Some_2 (outs st) i) as [o Eo]; [by rewrite (dl_outs _ _ _ Hd)|].
  destruct (lookup_lt_is_Some_2 (bufs st) i) as [b Eb]; [by rewrite (dl_bufs _ _ _ Hd)|].
  rewrite Eo, <- (dl_share _ _ _ Hd _ _ _ Eo Eb). f_equal.
  unfold kept. rewrite Hl, Z.mod_mul by lia. cbn [Z.eqb]. rewrite <- (Ho _ _ Eo), Nat2Z.id. by rewrite take_app_length.
Qed.

(** After a full block and its flush. *)
Lemma boundary_next t n k c block st os bs :
  (0 < n)%nat -> 0 < t -> 0 <= k -> dealt n (c ++ block) st -> Z.of_nat (length c) = k * t ->
  Z.of_nat (length block) = t ->
  (forall i o, outs st !! i = Some o -> Z.of_nat (length o) = t * (share (Z.of_nat n) (Z.of_nat i) (k * t) / t)) ->
  length os = n -> length bs = n ->
  (forall i o b, outs st !! i = Some o -> bufs st !! i = Some b ->
    if (Z.of_nat (length b) =? t) || (Z.of_nat (length block) <? t) then os !! i = Some (o ++ b) /\ bs !! i = Some []
    else os !! i = Some o /\ bs !! i = Some b) ->
  boundary t n (k + 1) (c ++ block) (mksplit os bs (current_file st)).
Proof.
  intros Hn Ht Hk Hd Hc Hb Ho Lo Lb Hfl. rewrite (proj2 (Z.ltb_ge (Z.of_nat (length block)) t)) in Hfl by lia.
  assert (Hget : forall i, (i < n)%nat -> exists o b, outs st !! i = Some o /\ bufs st !! i = Some b).
  { intros i Hi. destruct (lookup_lt_is_Some_2 (outs st) i) as [o Eo]; [by rewrite (dl_outs _ _ _ Hd)|].
    destruct (lookup_lt_is_Some_2 (bufs st) i) as [b Eb]; [by rewrite (dl_bufs _ _ _ Hd)|]. eauto. }
  assert (Hlen : Z.of_nat (length (c ++ block)) = (k + 1) * t) by (rewrite length_app; lia).
  constructor; [constructor; cbn [outs bufs current_file]|done|cbn [outs]].
  - done.
  - done.
  - apply (dl_cur _ _ _ Hd).
  - intros i o' b' Eo' Eb'. pose proof (lookup_lt_Some _ _ _ Eo') as Hi. rewrite Lo in Hi.
    destruct (Hget i Hi) as (o & b & Eo & Eb). rewrite <- (dl_share _ _ _ Hd _ _ _ Eo Eb).
    specialize (Hfl _ _ _ Eo Eb). rewrite orb_false_r in Hfl.
    destruct (Z.of_nat (length b) =? t); destruct Hfl; simplify_eq; [by rewrite app_nil_r|done].
  - intros i o' Eo'. pose proof (lookup_lt_Some _ _ _ Eo') as Hi. rewrite Lo in Hi.
    destruct (Hget i Hi) as (o & b & Eo & Eb). specialize (Hfl _ _ _ Eo Eb). rewrite orb_false_r in Hfl.
    pose proof (Ho _ _ Eo) as Hol. pose proof (dl_share _ _ _ Hd _ _ _ Eo Eb) as Hob.
    apply (f_equal length) in Hob. rewrite length_app in Hob.
    pose proof (length_every n i (c ++ block) Hn Hi) as He. rewrite Hlen in He.
    pose proof (share_block (Z.of_nat n) (Z.of_nat i) t k t ltac:(lia) ltac:(lia) Ht Hk ltac:(lia)) as Hsb.
    replace (k * t + t) with ((k + 1) * t) in Hsb by lia.
    set (q := share (Z.of_nat n) (Z.of_nat i) (k * t) / t) in *. set (g := share _ _ ((k + 1) * t)) in *.
    destruct (Z.eqb_spec (Z.of_nat (length b)) t) as [Eb'|Eb']; destruct Hfl as [Hfl _];
      rewrite Eo' in Hfl; injection Hfl as ->.
    + rewrite length_app. replace (g / t) with (q + 1); [lia|].
      apply (Z.div_unique g t (q + 1) 0); lia.
    + rewrite Hol. f_equal. apply (Z.div_unique g t q (Z.of_nat (length b))); lia.
Qed.

Lemma split_loop_ok fuel t n k c input st :
  (0 < n)%nat -> 0 < t -> 0 <= k -> boundary t n k c st -> (length input < fuel)%nat ->
  exists st', split_loop rd wr junk fuel t n input st = Some st' /\ length (outs st') = n /\
    forall i, (i < n)%nat -> outs st' !! i =
      Some (take (Z.to_nat (kept t (Z.of_nat n) (Z.of_nat i) (Z.of_nat (length (c ++ input))))) (every n i (c ++ input))).
Proof.
  intros Hn Ht. revert k c input st. induction fuel as [|fuel IH]; intros k c input st Hk Hbd Hf; [lia|].
  cbn [split_loop]. rewrite (read_buffers_spec rd junk Hrd Hjunk) by lia. destruct input as [|x input].
  { rewrite take_nil. exists st. split; [done|]. rewrite app_nil_r. split; [apply Hbd|].
    intros i Hi. by eapply boundary_end. }
  destruct (take (Z.to_nat t) (x :: input)) as [|y block] eqn:Eblock.
  { apply (f_equal length) in Eblock. rewrite length_take in Eblock. simpl in Eblock. lia. }
  rewrite <- Eblock. set (blk := take (Z.to_nat t) (x :: input)) in *. set (rest := drop (Z.to_nat t) (x :: input)).
  assert (Hsplit : x :: input = blk ++ rest) by (symmetry; apply take_drop).
  assert (Hblk : (0 < length blk)%nat /\ Z.of_nat (length blk) <= t).
  { split; [rewrite Eblock; simpl; lia|]. unfold blk. rewrite length_take. lia. }
  pose proof (bd_len _ _ _ _ _ Hbd) as Hc.
  destruct (split_while_ok (S (length blk)) t n blk st c (length c + length blk)) as (st1 & Ew & Hd1 & Eo1); try (done || lia).
  { apply Hbd. }
  { eapply boundary_room; try done. lia. }
  rewrite Ew. destruct (flush_ok wr junk t (Z.of_nat (length blk)) (outs st1) (bufs st1) Hwr Hjunk)
    as (os & bs & -> & Lo & Lb & Hfl).
  { by rewrite (dl_outs _ _ _ Hd1), (dl_bufs _ _ _ Hd1). }
  rewrite (dl_outs _ _ _ Hd1) in Lo, Lb. rewrite Hsplit, app_assoc.
  assert (Hfr : (length rest < fuel)%nat).
  { apply (f_equal length) in Hsplit. rewrite length_app in Hsplit. simpl in Hsplit, Hf. lia. }
  destruct (Z.lt_ge_cases (Z.of_nat (length blk)) t) as [Hshort|Hfull].
  - assert (Er : rest = []).
    { apply drop_ge. unfold blk in Hshort. rewrite length_take in Hshort. lia. }
    rewrite Er, app_nil_r in *. destruct fuel as [|fuel]; [lia|]. cbn [split_loop].
    rewrite (read_buffers_spec rd junk Hrd Hjunk) by lia. rewrite take_nil.
    eexists. split; [reflexivity|]. split; [done|]. cbn [outs]. intros i Hi.
    destruct (lookup_lt_is_Some_2 (outs st1) i) as [o Eo]; [by rewrite (dl_outs _ _ _ Hd1)|].
    destruct (lookup_lt_is_Some_2 (bufs st1) i) as [b Eb]; [by rewrite (dl_bufs _ _ _ Hd1)|].
    specialize (Hfl _ _ _ Eo Eb). rewrite (proj2 (Z.ltb_lt _ _) Hshort), orb_true_r in Hfl. destruct Hfl as [-> _].
    rewrite (dl_share _ _ _ Hd1 _ _ _ Eo Eb). f_equal. symmetry. apply take_ge. unfold kept.
    rewrite length_app, Nat2Z.inj_add, Hc, Z.add_comm, Z.mod_add, Z.mod_small by lia.
    rewrite (proj2 (Z.eqb_neq _ _)) by lia. pose proof (length_every n i (c ++ blk) Hn Hi) as He.
    rewrite length_app, Nat2Z.inj_add, Hc in He. rewrite Z.add_comm in He. lia.
  - apply (IH (k + 1) (c ++ blk) rest); try done; [lia|].
    eapply boundary_next; try done; [lia|]. rewrite Eo1. apply (bd_outs _ _ _ _ _ Hbd).
Qed.
End program.

Lemma split_options_range opts t0 e t : split_options opts t0 e = (t, false) -> 1 <= t0 <= 1048576 -> 1 <= t <= 1048576.
Proof.
  revert t0 e. induction opts as [|[v|] opts IH]; intros t0 e H Ht; cbn [split_options] in H.
  - by injection H as <- _.
  - assert (Hmono : forall o t0, split_options o t0 true <> (t, false)).
    { clear. induction o as [|[v|] o IH]; intros t0; simpl; [congruence|apply IH|apply IH]. }
    destruct ((e || (v <? 1)) || (1048576 <? v)) eqn:E; [by apply Hmono in H|]. apply orb_false_iff in E as [[_ E1]%orb_false_iff E2]. zbool.
    eapply IH; [done|lia].
  - exfalso. revert H. clear. revert t0. induction opts as [|[v|] o IH]; intros t0; simpl; [congruence|apply IH|apply IH].
Qed.

Lemma boundary_start t n : 0 < t -> (0 < n)%nat -> boundary t n 0 [] (mksplit (replicate n []) (replicate n []) 0).
Proof.
  intros Ht Hn. constructor; [constructor; cbn [outs bufs current_file]|done|cbn [outs]].
  - apply length_replicate.
  - apply length_replicate.
  - symmetry. apply Nat.Div0.mod_0_l.
  - intros i o b [-> _]%lookup_replicate [-> _]%lookup_replicate. done.
  - intros i o [-> Hi]%lookup_replicate. cbn [length].
    replace (share (Z.of_nat n) (Z.of_nat i) (0 * t)) with 0 by (unfold share; symmetry; apply Z.div_small; lia).
    rewrite Z.div_0_l by lia. lia.
Qed.

Lemma split_main_spec rd wr junk opts open_ok n input t :
  (forall m, 1 <= rd m) -> (forall m, 1 <= wr m) -> junk <> -1 ->
  split_options opts 1024 false = (t, false) -> (1 <= n <= MAXFILES)%nat -> (forall i, open_ok i = true) ->
  exists files, split_main rd wr junk opts open_ok n input = Some files /\ length files = n /\
    forall i, (i < n)%nat -> files !! i =
      Some (take (Z.to_nat (kept t (Z.of_nat n) (Z.of_nat i) (Z.of_nat (length input)))) (every n i input)).
Proof.
  intros Hrd Hwr Hj Hopts Hn Hopen. pose proof (split_options_range _ _ _ _ Hopts ltac:(lia)) as Ht.
  unfold split_main. rewrite Hopts. cbn [orb].
  rewrite (proj2 (Nat.ltb_ge n 1)), (proj2 (Nat.ltb_ge MAXFILES n)) by lia. cbn [orb].
  rewrite (proj2 (forallb_forall open_ok (seq 0 n))) by auto. cbn [negb].
  destruct (split_loop_ok rd wr junk Hrd Hwr Hj (S (length input)) t n 0 [] input
              (mksplit (replicate n []) (replicate n []) 0)) as (st & -> & Hlen & Hst); try lia.
  { apply boundary_start; lia. }
  exists (outs st). done.
Qed.

(** what split_files writes, for every input: with a buffer of [t] bytes
    and [n] files, however few bytes each [read] and [write] moves, file [i]
    gets the bytes at the positions [i], [i + n], [i + 2n], ... in order; all of
    them when the input ends in a short block, and otherwise only the first
    multiple of [t]: what the buffers still hold is lost. *)
Theorem split_exact rd wr junk opts open_ok n input t :
  (forall m, 1 <= rd m) -> (forall m, 1 <= wr m) -> junk <> -1 ->
  split_options opts 1024 false = (t, false) -> (1 <= n <= MAXFILES)%nat -> (forall i, open_ok i = true) ->
  exists files, split_main rd wr junk opts open_ok n input = Some files /\ length files = n /\
    forall i, (i < n)%nat -> files !! i =
      Some (take (Z.to_nat (kept t (Z.of_nat n) (Z.of_nat i) (Z.of_nat (length input)))) (every n i input)).
Proof. apply split_main_spec. Qed.

Lemma split_exact_witness :
  exists files, split_main (fun _ => 3) (fun _ => 2) 0 [Some 4] (fun _ => true) 2 [1; 2; 3; 4; 5; 6; 7] = Some files /\
    length files = 2%nat /\ forall i, (i < 2)%nat -> files !! i =
      Some (take (Z.to_nat (kept 4 2 (Z.of_nat i) 7)) (every 2 i [1; 2; 3; 4; 5; 6; 7])).
Proof. apply (split_exact (fun _ => 3) (fun _ => 2) 0); [lia..|reflexivity|unfold MAXFILES; lia|done]. Defined.

(** With the default buffer nothing at all of 1024 bytes is written to two
    files. *)
Lemma split_loses input :
  length input = 1024%nat ->
  split_main (fun _ => 1024) (fun _ => 1024) 0 [] (fun _ => true) 2 input = Some [[]; []].
Proof.
  intros Hl. destruct (split_loop_ok (fun _ => 1024) (fun _ => 1024) 0 ltac:(lia) ltac:(lia) ltac:(lia)
    (S (length input)) 1024 2 0 [] input (mksplit [[]; []] [[]; []] 0)) as (st & E & Hlen & Hst); try lia.
  { apply (boundary_start 1024 2); lia. }
  cbn [app] in Hst. rewrite Hl in Hst.
  assert (H : forall i, (i < 2)%nat -> outs st !! i = Some []).
  { intros i Hi. rewrite Hst by done. by destruct i as [|[|i]]; [..|lia]. }
  unfold split_main. cbn [split_options orb Nat.ltb Nat.leb negb]. simpl forallb. cbv iota. cbn [negb replicate].
  rewrite E. f_equal. destruct (outs st) as [|a [|b [|]]]; try done.
  pose proof (H 0%nat ltac:(lia)) as H0. pose proof (H 1%nat ltac:(lia)) as H1. simpl in *. congruence.
Qed.

(** When a file gets no byte of a short block, [buffer_to_fdout] tests a
    variable it has not set: the program may end with an error. *)
Example split_uninitialised :
  split_main (fun _ => 8) (fun _ => 8) (-1) [Some 4] (fun _ => true) 2 [7] = None /\
  split_main (fun _ => 8) (fun _ => 8) 0 [Some 4] (fun _ => true) 2 [7] = Some [[7]; []].
Proof. split; reflexivity. Qed.
