(* ===== verification/Merge.v ===== *)
(** * [POSIX/merge_files.c]

    The program that merges its input files byte by byte.  An input buffer with
    its offset is the list of the bytes still to be merged; a file is the list
    of the bytes still to be read.  A store past the end of the output buffer is
    [Undef], an exit with an error is [Panic].

    [split_merge] shows that merging what split_files wrote gives the input
    back; [merge_overflows] that the output buffer overflows when its size is not
    a multiple of the number of files. *)

From Stdlib Require Import ZArith Lia String.
From stdpp Require Import base numbers list.
From S2P Require Import Prelude Split.

Local Open Scope Z_scope.

(** ** The program *)

Section program.
  Context (rd wr : nat -> Z) (junk : Z).

(** The same two functions as in split_files.c. *)
Definition read_buffers (buf_size : Z) (input : list Z) : outcome (list Z * list Z) :=
  match Split.read_buffers rd junk buf_size input with Some r => Ok r | None => Panic "exit" end.
Definition buffer_to_fdout (buf : list Z) : outcome (list Z) :=
  match Split.buffer_to_fdout wr junk buf with Some w => Ok w | None => Panic "exit" end.

(** [write_buffer], for each file that has bytes left: one round of the [for],
    with the bytes it stores from [buffer_out] on. *)
Fixpoint merge_round (t buffer_out : Z) (rems : list (list Z)) : outcome (list Z * list (list Z)) :=
  match rems with
  | [] => Ok ([], [])
  | [] :: rems' =>
      obind (merge_round t buffer_out rems') (fun '(out, rs) => Ok (out, [] :: rs))
  | (c :: r) :: rems' =>
      if buffer_out <? t then
        obind (merge_round t (buffer_out + 1) rems') (fun '(out, rs) => Ok (c :: out, r :: rs))
      else Undef
  end.

(** [while(buffer_out<t)]: rounds until the buffer is full or none has any left. *)
Fixpoint merge_fill (fuel : nat) (t buffer_out : Z) (rems : list (list Z)) : outcome (list Z * list (list Z)) :=
  match fuel with
  | O => NoFuel
  | S fuel' =>
      if negb (buffer_out <? t) then Ok ([], rems)
      else
        obind (merge_round t buffer_out rems) (fun '(out, rs) =>
          match out with
          | [] => Ok ([], rs)
          | _ =>
              obind (merge_fill fuel' t (buffer_out + Z.of_nat (length out)) rs) (fun '(out', rs') =>
                Ok (out ++ out', rs'))
          end)
  end.

(** The inner [while(1)]: what it writes until all buffers are used up. *)
Fixpoint merge_block (fuel : nat) (t : Z) (rems : list (list Z)) : outcome (list Z) :=
  match fuel with
  | O => NoFuel
  | S fuel' =>
      if forallb (fun r => match r with [] => true | _ => false end) rems then Ok []
      else
        obind (merge_fill (S (Z.to_nat t)) t 0 rems) (fun '(out, rs) =>
          obind (buffer_to_fdout out) (fun w =>
            obind (merge_block fuel' t rs) (fun out' => Ok (w ++ out'))))
  end.

(** A block of each file. *)
Fixpoint read_all (t : Z) (files : list (list Z)) : outcome (list (list Z) * list (list Z)) :=
  match files with
  | [] => Ok ([], [])
  | f :: files' =>
      obind (read_buffers t f) (fun '(b, rest) =>
        obind (read_all t files') (fun '(bs, rests) => Ok (b :: bs, rest :: rests)))
  end.

(** The outer [while(1)]. *)
Fixpoint merge_loop (fuel : nat) (t : Z) (files : list (list Z)) : outcome (list Z) :=
  match fuel with
  | O => NoFuel
  | S fuel' =>
      obind (read_all t files) (fun '(bs, rests) =>
        if forallb (fun b => match b with [] => true | _ => false end) bs then Ok []
        else
          obind (merge_block (S (length (mjoin bs))) t bs) (fun out =>
            obind (merge_loop fuel' t rests) (fun out' => Ok (out ++ out'))))
  end.

(** The options: [-t v], [-o file], and any other. *)
Inductive merge_opt : Type := OptT (v : Z) | OptO | OptOther.

(** The buffer size and the error flag; [None] is the exit of the [default]. *)
Fixpoint merge_options (opts : list merge_opt) (t : Z) (error : bool) : option (Z * bool) :=
  match opts with
  | [] => Some (t, error)
  | OptT v :: opts' => merge_options opts' v (error || (v <? 1) || (134217728 <? v))
  | OptO :: opts' => merge_options opts' t error
  | OptOther :: _ => None
  end.

(** [main]: the files are the contents of those that exist; the result is what
    is written to the output. *)
Definition merge_main (opts : list merge_opt) (files : list (option (list Z))) : outcome (list Z) :=
  match merge_options opts 1024 false with
  | None => Panic "exit"
  | Some (t, error) =>
      let no_args := match opts, files with [], [] => true | _, _ => false end in
      if error || no_args || (MAXFILES <? length files)%nat then Panic "exit"
      else
        let found := omap (fun f => f) files in
        match files with
        | [] => Ok []
        | _ => merge_loop (S (S (length (mjoin found)))) t found
        end
  end.
End program.

(** ** Shares, block by block *)

Definition pieces (n : nat) (l : list Z) : list (list Z) := map (fun i => every n i l) (seq 0 n).

Lemma every_nil n k : every n k [] = [].
Proof. done. Qed.

Lemma every_shift n a k l : every n (a + k) l = every n k (drop a l).
Proof.
  revert l. induction a as [|a IH]; intros l; [done|]. destruct l as [|c l]; [by destruct k|]. simpl. apply IH.
Qed.

Lemma every_step n i l :
  (i < n)%nat -> every n i l = match l !! i with Some c => c :: every n i (drop n l) | None => [] end.
Proof.
  intros Hi. replace (every n i l) with (every n 0 (drop i l)) by (rewrite <- every_shift; f_equal; lia).
  destruct (l !! i) as [c|] eqn:E.
  - rewrite (drop_S l c i E). cbn [every]. f_equal. replace (n - 1)%nat with ((n - 1 - i) + i)%nat at 1 by lia.
    rewrite every_shift, drop_drop. do 2 f_equal. lia.
  - rewrite drop_ge by (by apply lookup_ge_None). done.
Qed.

Lemma every_blocks n t i l :
  (i < n)%nat -> take t (every n i l) = every n i (take (n * t) l) /\ drop t (every n i l) = every n i (drop (n * t) l).
Proof.
  intros Hi. revert l. induction t as [|t IH]; intros l.
  - by rewrite Nat.mul_0_r.
  - rewrite (every_step n i l Hi), (every_step n i (take (n * S t) l) Hi).
    rewrite lookup_take_lt by nia. destruct (IH (drop n l)) as [IH1 IH2].
    replace (n * S t)%nat with (n + n * t)%nat by lia. rewrite <- drop_drop.
    replace (drop n (take (n + n * t) l)) with (take (n * t) (drop n l)) by (rewrite take_drop_commute; done).
    destruct (l !! i) as [c|] eqn:E; cbn [take drop]; [by rewrite IH1, IH2|].
    split; [done|]. apply lookup_ge_None in E. by rewrite drop_ge by (rewrite length_drop; lia).
Qed.

Lemma pieces_blocks n t l :
  map (take t) (pieces n l) = pieces n (take (n * t) l) /\ map (drop t) (pieces n l) = pieces n (drop (n * t) l).
Proof.
  unfold pieces. rewrite !map_map. split; apply map_ext_in; intros i [_ Hi]%in_seq; apply every_blocks; lia.
Qed.

Lemma pieces_empty n l : (0 < n)%nat ->
  forallb (fun r => match r with [] => true | _ => false end) (pieces n l) = true <-> l = [].
Proof.
  intros Hn. split.
  - intros H. destruct l as [|c l]; [done|]. rewrite forallb_forall in H. exfalso.
    enough (false = true) by done. apply (H (every n 0 (c :: l))). unfold pieces. apply in_map_iff. exists 0%nat.
    split; [done|]. apply in_seq. lia.
  - intros ->. apply forallb_forall. intros x Hx. unfold pieces in Hx. apply in_map_iff in Hx as (i & <- & _). done.
Qed.

(** ** Merging the shares *)

Section proofs.
  Context (rd wr : nat -> Z) (junk : Z).
  Hypothesis Hrd : forall m, 1 <= rd m.
  Hypothesis Hwr : forall m, 1 <= wr m.
  Hypothesis Hjunk : junk <> -1.
  Context (n : nat) (Hn : (0 < n)%nat).

Lemma round_from t k i b l :
  (i + k = n)%nat -> b + Z.of_nat (length (take k (drop i l))) <= t ->
  merge_round t b (map (fun i => every n i l) (seq i k)) =
  Ok (take k (drop i l), map (fun i => every n i (drop n l)) (seq i k)).
Proof.
  revert i b. induction k as [|k IH]; intros i b Hik Hb; [done|]. cbn [seq map].
  rewrite (every_step n i l) by lia. destruct (l !! i) as [c|] eqn:E.
  - rewrite (drop_S l c i E) in Hb |- *. cbn [merge_round take length] in *.
    rewrite (proj2 (Z.ltb_lt b t)) by lia. rewrite IH by lia. done.
  - apply lookup_ge_None in E. rewrite (drop_ge l i) in * by lia. rewrite (drop_ge l n) by lia.
    cbn [merge_round take]. rewrite IH; [|lia|rewrite drop_ge by lia; rewrite take_nil in *; simpl in *; lia].
    rewrite (drop_ge l (S i)), take_nil by lia. cbn [obind every]. by rewrite (drop_ge l n) by lia.
Qed.

Lemma round_ok t b l :
  b + Z.of_nat (length (take n l)) <= t -> merge_round t b (pieces n l) = Ok (take n l, pieces n (drop n l)).
Proof. intros H. apply (round_from t n 0 b l); [lia|]. by rewrite drop_0. Qed.

(** Filling the buffer from a multiple of [n] on. *)
Lemma fill_ok fuel q j l :
  (j <= q)%nat -> (n * q - n * j < fuel)%nat ->
  merge_fill fuel (Z.of_nat (n * q)) (Z.of_nat (n * j)) (pieces n l) =
  Ok (take (n * q - n * j) l, pieces n (drop (n * q - n * j) l)).
Proof.
  revert j l. induction fuel as [|fuel IH]; intros j l Hj Hf; [lia|]. cbn [merge_fill].
  destruct (Nat.eq_dec j q) as [->|Hne].
  { rewrite Z.ltb_irrefl, Nat.sub_diag. done. }
  assert (Hlt : (n * j + n <= n * q)%nat) by nia.
  rewrite (proj2 (Z.ltb_lt _ _)) by lia. cbn [negb].
  rewrite round_ok by (rewrite length_take; lia). cbn [obind]. destruct (take n l) as [|c out] eqn:Et.
  { destruct l; [|destruct n; [lia|done]]. by rewrite !drop_nil, take_nil. }
  assert (El : l = (c :: out) ++ drop n l) by (by rewrite <- Et, take_drop).
  assert (Hlen : length (c :: out) = (n `min` length l)%nat) by (by rewrite <- Et, length_take).
  destruct (Nat.le_gt_cases n (length l)) as [Hfull|Hshort].
  - rewrite Nat.min_l in Hlen by done.
    replace (Z.of_nat (n * j) + Z.of_nat (length (c :: out))) with (Z.of_nat (n * S j)) by lia.
    rewrite IH by nia. cbn [obind]. rewrite <- Et, drop_drop.
    replace (n + (n * q - n * S j))%nat with (n * q - n * j)%nat by lia. do 2 f_equal.
    rewrite take_take_drop. f_equal. lia.
  - rewrite (drop_ge l n) in * by lia. rewrite app_nil_r in El. subst l.
    rewrite Nat.min_r in Hlen by lia. rewrite take_ge, drop_ge by lia.
    destruct fuel as [|fuel]; [lia|]. cbn [merge_fill].
    destruct (Z.ltb_spec (Z.of_nat (n * j) + Z.of_nat (length (c :: out))) (Z.of_nat (n * q))); cbn [negb].
    + rewrite round_ok by (rewrite take_nil; cbn [length] in *; lia). rewrite take_nil. cbn [obind]. by rewrite drop_nil, app_nil_r.
    + cbn [obind]. by rewrite app_nil_r.
Qed.

Lemma block_ok fuel q l :
  (0 < q)%nat -> (length l < fuel)%nat -> merge_block wr junk fuel (Z.of_nat (n * q)) (pieces n l) = Ok l.
Proof.
  intros Hq. revert l. induction fuel as [|fuel IH]; intros l Hf; [lia|]. cbn [merge_block].
  destruct (forallb _ (pieces n l)) eqn:E.
  { apply pieces_empty in E as ->; done. }
  assert (Hl : (0 < length l)%nat).
  { destruct l; [|simpl; lia]. by rewrite (proj2 (pieces_empty n [] Hn)) in E. }
  pose proof (fill_ok (S (Z.to_nat (Z.of_nat (n * q)))) q 0 l ltac:(lia) ltac:(lia)) as Hfill.
  rewrite Nat.mul_0_r, Nat.sub_0_r in Hfill. change (Z.of_nat 0) with 0 in Hfill. rewrite Hfill. cbn [obind].
  unfold buffer_to_fdout. rewrite (buffer_to_fdout_spec wr junk Hwr Hjunk). cbn [obind].
  rewrite IH by (rewrite length_drop; nia). cbn [obind]. by rewrite take_drop.
Qed.

Lemma read_all_ok t files :
  0 <= t -> read_all rd junk t files = Ok (map (take (Z.to_nat t)) files, map (drop (Z.to_nat t)) files).
Proof.
  intros Ht. induction files as [|f files IH]; [done|]. cbn [read_all]. unfold read_buffers.
  rewrite (read_buffers_spec rd junk Hrd Hjunk) by done. cbn [obind]. by rewrite IH.
Qed.

Lemma round_length t b rems out rs :
  merge_round t b rems = Ok (out, rs) -> length (mjoin rems) = (length out + length (mjoin rs))%nat.
Proof.
  revert b out rs. induction rems as [|[|c r] rems IH]; intros b out rs H; cbn [merge_round] in H.
  - by injection H as <- <-.
  - destruct (merge_round t b rems) as [[o r]| | | |] eqn:E; try done. injection H as <- <-. apply (IH _ _ _ E).
  - destruct (b <? t); [|done]. destruct (merge_round t (b + 1) rems) as [[o r']| | | |] eqn:E; try done.
    injection H as <- <-. cbn [mjoin list_join]. rewrite !length_app. cbn [length]. pose proof (IH _ _ _ E) as IH'.
    unfold mjoin, list_join in *. lia.
Qed.

Lemma length_pieces_join l : length (mjoin (pieces n l)) = length l.
Proof.
  induction l as [l IH] using (induction_ltof1 _ (@length Z)). unfold ltof in IH.
  rewrite (round_length _ _ _ _ _ (round_ok (Z.of_nat (length (take n l))) 0 l ltac:(lia))).
  destruct l as [|c l].
  - rewrite take_nil, drop_nil. unfold pieces. generalize (seq 0 n). by induction l.
  - rewrite IH by (rewrite length_drop; simpl; lia). rewrite length_take, length_drop. lia.
Qed.

Lemma loop_ok fuel q l :
  (0 < q)%nat -> (length l < fuel)%nat -> merge_loop rd wr junk fuel (Z.of_nat (n * q)) (pieces n l) = Ok l.
Proof.
  intros Hq. revert l. induction fuel as [|fuel IH]; intros l Hf; [lia|]. cbn [merge_loop].
  rewrite read_all_ok by lia. cbn [obind]. rewrite Nat2Z.id. destruct (pieces_blocks n (n * q) l) as [-> ->].
  set (k := (n * (n * q))%nat). assert (Hk : (0 < k)%nat) by nia.
  destruct (forallb _ (pieces n (take k l))) eqn:E.
  { apply pieces_empty in E; [|done]. destruct l; [done|]. by destruct k; [lia|]. }
  rewrite block_ok by (done || rewrite length_pieces_join; lia). cbn [obind].
  assert (Hl : (0 < length l)%nat).
  { destruct l; [|simpl; lia]. rewrite take_nil in E. by rewrite (proj2 (pieces_empty n [] Hn)) in E. }
  rewrite IH by (rewrite length_drop; lia). cbn [obind]. by rewrite take_drop.
Qed.
End proofs.

(** ** Merge after split *)

Lemma kept_all t n i m : 0 < t -> 0 < n -> 0 <= i < n -> 0 <= m -> m mod t <> 0 \/ m mod (n * t) = 0 ->
  kept t n i m = share n i m.
Proof.
  intros Ht Hn Hi Hm H. unfold kept. destruct (Z.eqb_spec (m mod t) 0) as [E|E]; [|done].
  destruct H as [|H]; [done|]. apply Z.mod_divide in H as [k ->]; [|nia].
  assert (Es : share n i (k * (n * t)) = k * t).
  { unfold share. replace (k * (n * t) + n - 1 - i) with (k * t * n + (n - 1 - i)) by lia.
    rewrite Z.div_add_l, (Z.div_small (n - 1 - i)) by lia. lia. }
  rewrite Es, Z.div_mul by lia. lia.
Qed.

Lemma merge_options_range opts t0 e t : merge_options opts t0 e = Some (t, false) -> 1 <= t0 -> 1 <= t.
Proof.
  assert (Hmono : forall o t0, merge_options o t0 true <> Some (t, false)).
  { induction o as [|[v| |] o IH]; intros u; simpl; [congruence|apply IH|apply IH|done]. }
  revert t0 e. induction opts as [|[v| |] opts IH]; intros t0 e H Ht; cbn [merge_options] in H.
  - by injection H as <- _.
  - destruct ((e || (v <? 1)) || (134217728 <? v)) eqn:E; [by apply Hmono in H|].
    apply orb_false_iff in E as [[_ E1]%orb_false_iff E2]. zbool. eapply IH; [done|lia].
  - eapply IH; done.
  - done.
Qed.

Lemma merge_pieces rd wr junk opts n t l :
  (forall m, 1 <= rd m) -> (forall m, 1 <= wr m) -> junk <> -1 ->
  merge_options opts 1024 false = Some (t, false) -> (1 <= n <= MAXFILES)%nat -> t mod Z.of_nat n = 0 ->
  merge_main rd wr junk opts (map Some (pieces n l)) = Ok l.
Proof.
  intros Hrd Hwr Hj Hopts Hn Hdiv. pose proof (merge_options_range _ _ _ _ Hopts ltac:(lia)) as Ht.
  apply Z.mod_divide in Hdiv as [q Hq]; [|lia]. assert (Eq : t = Z.of_nat (n * Z.to_nat q)) by nia.
  assert (Hp : length (pieces n l) = n) by (unfold pieces; by rewrite length_map, length_seq).
  unfold merge_main. rewrite Hopts. cbn [orb].
  assert (Hne : exists f fs, map Some (pieces n l) = f :: fs).
  { unfold pieces. destruct n; [lia|]. cbn [seq map]. eauto. }
  rewrite (proj2 (Nat.ltb_ge MAXFILES (length (map Some (pieces n l))))) by (rewrite length_map; lia).
  replace (omap (fun f => f) (map Some (pieces n l))) with (pieces n l).
  2: { clear. generalize (pieces n l). induction l0 as [|x l0 IH]; [done|]. simpl. f_equal. apply IH. }
  destruct Hne as (f & fs & ->). destruct opts; cbn [orb]; rewrite Eq;
    (apply loop_ok; [done..|lia|nia|rewrite length_pieces_join; lia]).
Qed.

(** C22: merging undoes splitting: the files split_files makes of any input,
    merged by merge_files in the same order, give the input back, when the
    input does not end with a full block of unwritten bytes and the buffer of
    merge_files is a multiple of the number of files. *)
Theorem split_merge rd wr junk opts mopts open_ok n input t t' :
  (forall m, 1 <= rd m) -> (forall m, 1 <= wr m) -> junk <> -1 ->
  split_options opts 1024 false = (t, false) -> merge_options mopts 1024 false = Some (t', false) ->
  (1 <= n <= MAXFILES)%nat -> (forall i, open_ok i = true) ->
  Z.of_nat (length input) mod t <> 0 \/ Z.of_nat (length input) mod (Z.of_nat n * t) = 0 ->
  t' mod Z.of_nat n = 0 ->
  exists files, split_main rd wr junk opts open_ok n input = Some files /\
    merge_main rd wr junk mopts (map Some files) = Ok input.
Proof.
  intros Hrd Hwr Hj Hopts Hmopts Hn Hopen Hin Hdiv.
  destruct (split_main_spec rd wr junk opts open_ok n input t Hrd Hwr Hj Hopts Hn Hopen) as (files & E & Hlen & Hfiles).
  pose proof (split_options_range _ _ _ _ Hopts ltac:(lia)) as Ht.
  exists files. split; [done|]. replace files with (pieces n input); [by eapply merge_pieces|].
  apply list_eq. intros i. destruct (Nat.lt_ge_cases i n) as [Hi|Hi].
  - rewrite Hfiles by done. unfold pieces. rewrite list_lookup_fmap, lookup_seq_lt by done. simpl. f_equal.
    rewrite kept_all by (done || lia). rewrite <- length_every by lia. by rewrite Nat2Z.id, take_ge.
  - rewrite !lookup_ge_None_2; [done|lia|]. unfold pieces. rewrite length_map, length_seq. lia.
Qed.

Lemma split_merge_witness :
  exists files, split_main (fun _ => 3) (fun _ => 2) 0 [Some 4] (fun _ => true) 3 [1; 2; 3; 4; 5; 6; 7] = Some files /\
    merge_main (fun _ => 3) (fun _ => 2) 0 [OptT 6] (map Some files) = Ok [1; 2; 3; 4; 5; 6; 7].
Proof.
  apply (split_merge (fun _ => 3) (fun _ => 2) 0 _ _ _ 3 _ 4 6); try reflexivity; try lia.
  - unfold MAXFILES. lia.
  - left. discriminate.
Defined.

(** A buffer whose size is no multiple of the number of files: the inner loop
    tests for room once for all files, and stores past the end. *)
Example merge_overflows :
  merge_main (fun _ => 8) (fun _ => 8) 0 [OptT 4] [Some [1; 4; 7]; Some [2; 5; 8]; Some [3; 6; 9]] = Undef.
Proof. reflexivity. Qed.
