(* ===== verification/Mystrings.v ===== *)
(** * [POSIX/mystrings.c]

    The program that prints the strings of its input: the runs of at least [n]
    printable characters.  Input is read in blocks with [read_buffers] and written
    with [buffer_to_fdout] ([Split]).  [buf_out] with [offset_out] is the list of
    the bytes before the offset; a store past the end of the buffer is [Undef], an
    exit with an error is [Panic].

    [mystrings_prints] shows that the program prints exactly the strings of the
    input when no string reaches over the end of a block.  When one does it is
    printed twice ([mystrings_repeats]), and the buffer overflows when the string
    is longer than it ([mystrings_overflows]). *)

From Stdlib Require Import ZArith Lia String.
From stdpp Require Import base numbers list.
From S2P Require Import Prelude Split.

Local Open Scope Z_scope.
Local Open Scope kernel_scope.

(** ** The program *)

(** [isprint] of the C locale, newline, tabulator and space. *)
Definition printable (c : Z) : bool := ((32 <=? c) && (c <=? 126)) || (c =? 10) || (c =? 9) || (c =? 32).

Record mystr : Type := mkmystr { stdout : list Z; buf_out : list Z; actual_length : Z }.

Section program.
  Context (rd wr : nat -> Z) (junk : Z).

(** The same routines as in split_files.c. *)
Definition read_buffers (buf_size : Z) (input : list Z) : option (list Z * list Z) := Split.read_buffers rd junk buf_size input.
Definition buffer_to_fdout (buf : list Z) : option (list Z) := Split.buffer_to_fdout wr junk buf.

Definition write_out : M mystr unit :=
  fun s => match buffer_to_fdout (buf_out s) with
           | Some w => Ok (tt, mkmystr (stdout s ++ w) (buf_out s) (actual_length s))
           | None => Panic "write(fdin)"
           end.

(** The [for] of [tratar_cadena]. *)
Fixpoint tratar_for (t n : Z) (block : list Z) : M mystr unit :=
  match block with
  | [] => mret tt
  | c :: block' =>
      (if printable c then
         fun s => if Z.of_nat (length (buf_out s)) <? t
                  then Ok (tt, mkmystr (stdout s) (buf_out s ++ [c]) (actual_length s + 1)) else Undef
       else
         let! len := mget actual_length in
         mwhen (n <=? len) write_out ;;!
         mset (fun s => mkmystr (stdout s) [] 0)) ;;!
      tratar_for t n block'
  end.
Definition tratar_cadena (t n : Z) (block : list Z) : M mystr unit :=
  tratar_for t n block ;;!
  let! len := mget actual_length in
  mwhen (n <=? len) write_out.

(** The loop of [main]; each round reads at least a byte. *)
Fixpoint mystrings_loop (fuel : nat) (t n : Z) (input : list Z) : M mystr unit :=
  match fuel with
  | O => mnofuel
  | S fuel' =>
      match read_buffers t input with
      | None => mpanic "read"
      | Some ([], _) => mret tt
      | Some (block, rest) => tratar_cadena t n block ;;! mystrings_loop fuel' t n rest
      end
  end.

(** The options in their order: [inl v] is [-t v], [inr (Some v)] is [-n v], and
    [inr None] one that [getopt] does not know. *)
Fixpoint mystrings_options (opts : list (Z + option Z)) (t n : Z) (error : bool) : Z * Z * bool :=
  match opts with
  | [] => (t, n, error)
  | inl v :: opts' => mystrings_options opts' v n (error || (v <? n) || (1048576 <? v))
  | inr (Some v) :: opts' => mystrings_options opts' t v (error || (v <? 1) || (255 <? v))
  | inr None :: opts' => mystrings_options opts' t n true
  end.

(** [main]: what it writes.  The file that it opens and closes is not used. *)
Definition mystrings_main (opts : list (Z + option Z)) (input : list Z) : outcome (list Z) :=
  let '(t, n, error) := mystrings_options opts 1024 4 false in
  if error then Panic "Uso" else
  obind (mystrings_loop (S (length input)) t n input (mkmystr [] [] 0)) (fun '(_, s) => Ok (stdout s)).
End program.

(** ** The strings of a file *)

(** The maximal runs of printable characters, the empty ones included; [cur] is
    the part of the first that has been read. *)
Fixpoint runs (cur l : list Z) : list (list Z) :=
  match l with
  | [] => [cur]
  | c :: l' => if printable c then runs (cur ++ [c]) l' else cur :: runs [] l'
  end.
Definition long (n : Z) (r : list Z) : Prop := n <= Z.of_nat (length r).
#[global] Instance long_dec n r : Decision (long n r) := Z.le_dec n (Z.of_nat (length r)).
Definition strings (n : Z) (l : list Z) : list Z := concat (filter (long n) (runs [] l)).

(** No run goes on over the end of a block of [t] bytes. *)
Definition aligned (t : Z) (l : list Z) : Prop :=
  forall k, 0 < k -> k * t < Z.of_nat (length l) -> printable (nth (Z.to_nat (k * t - 1)) l 0) = false.

(** The runs that end in [l], and the one at its end. *)
Fixpoint ended (cur l : list Z) : list (list Z) :=
  match l with
  | [] => []
  | c :: l' => if printable c then ended (cur ++ [c]) l' else cur :: ended [] l'
  end.
Fixpoint open_run (cur l : list Z) : list Z :=
  match l with
  | [] => cur
  | c :: l' => if printable c then open_run (cur ++ [c]) l' else open_run [] l'
  end.

Lemma runs_app l l' : forall cur, runs cur (l ++ l') = ended cur l ++ runs (open_run cur l) l'.
Proof. induction l as [|c l IH]; intros cur; [done|]. cbn. destruct (printable c); [apply IH|]. cbn. by rewrite IH. Qed.

Lemma runs_ended l cur : runs cur l = ended cur l ++ [open_run cur l].
Proof. rewrite <- (app_nil_r l) at 1. apply runs_app. Qed.

Lemma open_run_end l c cur : printable c = false -> open_run cur (l ++ [c]) = [].
Proof. intros Hc. revert cur. induction l as [|d l IH]; intros cur; cbn; [by rewrite Hc|]. destruct (printable d); apply IH. Qed.

Lemma open_run_length l : forall cur, (length (open_run cur l) <= length cur + length l)%nat.
Proof.
  induction l as [|c l IH]; intros cur; cbn; [lia|]. destruct (printable c).
  - rewrite IH, length_app. cbn. lia.
  - rewrite IH. cbn. lia.
Qed.

Lemma strings_nil n : 1 <= n -> strings n [] = [].
Proof. intros Hn. unfold strings. change (runs [] []) with [@nil Z]. rewrite filter_cons_False; [done|]. unfold long. cbn. lia. Qed.

(** A block that ends in an unprintable byte ends the strings in it. *)
Lemma strings_app n l l' : 1 <= n -> open_run [] l = [] -> strings n (l ++ l') = strings n l ++ strings n l'.
Proof.
  intros Hn Hl. unfold strings. rewrite runs_app, (runs_ended l), Hl, !filter_app, !concat_app, filter_cons_False.
  - cbn. by rewrite app_nil_r.
  - unfold long. cbn. lia.
Qed.

Lemma aligned_drop t l : 0 < t -> aligned t l -> aligned t (drop (Z.to_nat t) l).
Proof.
  intros Ht Ha k Hk Hl. rewrite length_drop in Hl. specialize (Ha (k + 1) ltac:(lia) ltac:(lia)).
  rewrite nth_lookup, lookup_drop, <- nth_lookup.
  replace (Z.to_nat t + Z.to_nat (k * t - 1))%nat with (Z.to_nat ((k + 1) * t - 1)) by nia. done.
Qed.

(** A full block that is not the last ends in an unprintable byte. *)
Lemma aligned_block t l :
  0 < t -> aligned t l -> drop (Z.to_nat t) l <> [] -> open_run [] (take (Z.to_nat t) l) = [].
Proof.
  intros Ht Ha Hd. assert (Hlen : t < Z.of_nat (length l)).
  { destruct (Z.lt_ge_cases t (Z.of_nat (length l))) as [|Hle]; [done|]. rewrite drop_ge in Hd by lia. done. }
  specialize (Ha 1 ltac:(lia) ltac:(lia)). rewrite Z.mul_1_l in Ha. replace (Z.to_nat t) with (S (Z.to_nat (t - 1))) by lia.
  destruct (lookup_lt_is_Some_2 l (Z.to_nat (t - 1))) as (c & Hc); [lia|].
  rewrite (take_S_r _ _ c Hc). apply open_run_end. by rewrite (nth_lookup_Some l _ 0 c Hc) in Ha.
Qed.

Section proofs.
  Context (rd wr : nat -> Z) (junk : Z).
  Hypothesis Hrd : forall m, 1 <= rd m.
  Hypothesis Hwr : forall m, 1 <= wr m.
  Hypothesis Hjunk : junk <> -1.

Lemma write_out_ok o b a : write_out wr junk (mkmystr o b a) = Ok (tt, mkmystr (o ++ b) b a).
Proof using Hwr Hjunk. unfold write_out, buffer_to_fdout. cbn. by rewrite (buffer_to_fdout_spec wr junk Hwr Hjunk). Qed.

Lemma tratar_for_ok t n block : forall o cur,
  1 <= n -> Z.of_nat (length cur + length block) <= t ->
  tratar_for wr junk t n block (mkmystr o cur (Z.of_nat (length cur))) =
  Ok (tt, mkmystr (o ++ concat (filter (long n) (ended cur block))) (open_run cur block) (Z.of_nat (length (open_run cur block)))).
Proof using Hwr Hjunk.
  induction block as [|c block IH]; intros o cur Hn Ht; cbn [tratar_for ended open_run].
  - by rewrite app_nil_r.
  - cbn [length] in Ht. destruct (printable c).
    + unfold mbind at 1. cbn [buf_out stdout actual_length]. rewrite (proj2 (Z.ltb_lt _ _)) by lia. cbn [obind].
      replace (Z.of_nat (length cur) + 1) with (Z.of_nat (length (cur ++ [c]))) by (rewrite length_app; cbn; lia).
      apply IH; [done|]. rewrite length_app. cbn. lia.
    + assert (Ht' : Z.of_nat (length (@nil Z) + length block) <= t) by (cbn; lia). mgo. cbn [actual_length]. rewrite filter_cons. unfold long at 1.
      destruct (decide (n <= Z.of_nat (length cur))) as [Hl|Hl].
      * rewrite (proj2 (Z.leb_le _ _) Hl). cbn [mwhen]. mby (write_out_ok o cur (Z.of_nat (length cur))). mgo. cbn [stdout concat].
        etransitivity; [apply (IH (o ++ cur) [] Hn Ht')|]. by rewrite <- app_assoc.
      * rewrite (proj2 (Z.leb_gt _ _)) by lia. cbn [mwhen]. mgo. apply (IH o [] Hn Ht').
Qed.

Lemma tratar_cadena_ok t n block o :
  1 <= n -> Z.of_nat (length block) <= t ->
  exists a, tratar_cadena wr junk t n block (mkmystr o [] 0) =
  Ok (tt, mkmystr (o ++ strings n block) (open_run [] block) a) /\ (open_run [] block = [] -> a = 0).
Proof using Hwr Hjunk.
  intros Hn Ht. exists (Z.of_nat (length (open_run [] block))). split; [|by intros ->]. unfold tratar_cadena.
  mby (tratar_for_ok t n block o [] Hn Ht). mgo. cbn [actual_length]. unfold strings. rewrite runs_ended, filter_app, concat_app, filter_cons.
  unfold long at 3. destruct (decide (n <= Z.of_nat (length (open_run [] block)))) as [Hl|Hl].
  - rewrite (proj2 (Z.leb_le _ _) Hl). cbn [mwhen]. rewrite write_out_ok. cbn. by rewrite app_nil_r, <- app_assoc.
  - rewrite (proj2 (Z.leb_gt _ _)) by lia. cbn. by rewrite app_nil_r.
Qed.

Lemma mystrings_loop_ok fuel t n : forall input o,
  1 <= n -> 0 < t -> aligned t input -> (length input < fuel)%nat ->
  exists s', mystrings_loop rd wr junk fuel t n input (mkmystr o [] 0) = Ok (tt, s') /\ stdout s' = o ++ strings n input.
Proof using Hrd Hwr Hjunk.
  induction fuel as [|fuel IH]; intros input o Hn Ht Ha Hf; [lia|]. cbn [mystrings_loop]. unfold read_buffers.
  rewrite (read_buffers_spec rd junk Hrd Hjunk) by lia.
  destruct (take (Z.to_nat t) input) as [|c block] eqn:Eb.
  - assert (input = []) as -> by (destruct input; [done|]; destruct (Z.to_nat t) eqn:E; [lia|done]).
    eexists. split; [done|]. rewrite strings_nil by done. cbn. by rewrite app_nil_r.
  - rewrite <- Eb. set (blk := take (Z.to_nat t) input) in *.
    assert (Hblk : (0 < length blk)%nat /\ Z.of_nat (length blk) <= t) by (split; [rewrite Eb; cbn; lia|unfold blk; rewrite length_take; lia]).
    destruct (tratar_cadena_ok t n blk o Hn) as (a & R & Ha0); [lia|]. mby R.
    assert (Hin : input = blk ++ drop (Z.to_nat t) input) by (symmetry; apply take_drop).
    destruct (drop (Z.to_nat t) input) as [|d rest] eqn:Er.
    + rewrite Hin, app_nil_r. destruct fuel as [|fuel']; [apply (f_equal length) in Hin; rewrite length_app in Hin; cbn in Hin; lia|].
      cbn [mystrings_loop]. unfold read_buffers. rewrite (read_buffers_spec rd junk Hrd Hjunk) by lia. rewrite take_nil. by eexists.
    + assert (Ho : open_run [] blk = []) by (apply aligned_block; [done|done|by rewrite Er]). rewrite Ho, (Ha0 Ho).
      rewrite <- Er in *. destruct (IH (drop (Z.to_nat t) input) (o ++ strings n blk) Hn Ht) as (s' & R' & E').
      * by apply aligned_drop.
      * rewrite length_drop. unfold blk in Hblk. rewrite length_take in Hblk. lia.
      * exists s'. split; [done|]. rewrite E', <- app_assoc, <- strings_app by done. f_equal. f_equal. symmetry. exact Hin.
Qed.
End proofs.

Lemma mystrings_options_range opts : forall t0 n0 e t n,
  mystrings_options opts t0 n0 e = (t, n, false) -> (e = false -> 1 <= n0 /\ 1 <= t0) -> 1 <= n /\ 1 <= t.
Proof.
  induction opts as [|[v|[v|]] opts IH]; intros t0 n0 e t n H H0; cbn [mystrings_options] in H.
  - injection H as <- <- ->. by apply H0.
  - apply (IH _ _ _ _ _ H). intros [[-> H1]%orb_false_iff _]%orb_false_iff. specialize (H0 eq_refl). zbool. lia.
  - apply (IH _ _ _ _ _ H). intros [[-> H1]%orb_false_iff _]%orb_false_iff. specialize (H0 eq_refl). zbool. lia.
  - apply (IH _ _ _ _ _ H). done.
Qed.

(** C24: mystrings prints exactly the maximal runs of at least [n] printable
    characters, in their order, for any sizes of the single reads and writes, when
    every block of [t] bytes but the last ends in an unprintable byte. *)
Theorem mystrings_prints rd wr junk opts input t n :
  (forall m, 1 <= rd m) -> (forall m, 1 <= wr m) -> junk <> -1 ->
  mystrings_options opts 1024 4 false = (t, n, false) -> aligned t input ->
  mystrings_main rd wr junk opts input = Ok (strings n input).
Proof.
  intros Hrd Hwr Hj Ho Ha. destruct (mystrings_options_range _ _ _ _ _ _ Ho ltac:(lia)) as [Hn Ht].
  unfold mystrings_main. rewrite Ho.
  destruct (mystrings_loop_ok rd wr junk Hrd Hwr Hj (S (length input)) t n input [] Hn ltac:(lia) Ha ltac:(lia)) as (s & -> & E).
  cbn. by rewrite E.
Qed.

(** Blocks of eight bytes; a string in each, and one that is too short. *)
Lemma mystrings_prints_witness :
  let input := [97; 98; 99; 0; 100; 101; 200; 0; 9; 65; 66; 67] in
  mystrings_main (fun _ => 3) (fun _ => 2) 0 [inl 8; inr (Some 3)] input = Ok (strings 3 input) /\
  strings 3 input = [97; 98; 99; 9; 65; 66; 67].
Proof.
  intros input. split; [|vm_compute; reflexivity].
  apply (mystrings_prints (fun _ => 3) (fun _ => 2) 0 [inl 8; inr (Some 3)] input 8 3); [lia|lia|lia|reflexivity|].
  intros k Hk Hl. cbn in Hl. assert (k = 1) as -> by lia. reflexivity.
Defined.

(** A string over the end of a block is printed twice: once up to the end of the
    block, and again as a whole. *)
Example mystrings_repeats :
  mystrings_main (fun _ => 100) (fun _ => 100) 0 [inl 8] [0; 0; 0; 0; 97; 98; 99; 100; 101; 102; 103; 104] =
  Ok [97; 98; 99; 100; 97; 98; 99; 100; 101; 102; 103; 104].
Proof. vm_compute. reflexivity. Qed.

(** A string longer than the buffer is stored past its end. *)
Example mystrings_overflows :
  mystrings_main (fun _ => 100) (fun _ => 100) 0 [inl 8] [97; 98; 99; 100; 101; 102; 103; 104; 105] = Undef.
Proof. vm_compute. reflexivity. Qed.
