(* ===== verification/Pipeline.v ===== *)
(** * [POSIX/merge_mystrings_split.c] and [POSIX/ejemplo_3_tuberias.c]

    The programs that connect merge_files, mystrings and split_files with two
    pipes.  What a process does is a tree of system calls that branches on their
    results ([call]); [run] gives the processes it creates, each with the
    descriptors it has when it calls [exec], and the calls of [wait] in between.

    [pipeline_connects] shows that the three programs get the right ends of the
    pipes and no others.  The third program is started only after the first [wait]:
    [pipeline_hangs] shows that with more data than the pipes hold none of the
    processes ever ends. *)

From Stdlib Require Import ZArith Lia String.
From stdpp Require Import base numbers list relations.
From S2P Require Import Prelude.

Local Open Scope Z_scope.

(** ** System calls *)

Inductive arg : Type :=
| Str (s : string)
| Num (z : Z)
| Name (f : list Z).

Inductive call : Type :=
| CExit (status : Z)
| CPipe (k : option (nat * nat) -> call)
| CFork (child : call) (parent : bool -> call)
| CClose (fd : nat) (k : bool -> call)
| CDup2 (oldfd newfd : nat) (k : bool -> call)
| CExec (argv : list arg) (failed : call)
| CWait (k : bool -> call)
| CStuck.

(** [c ?? k] is [if (c == -1) { perror(...); exit(EXIT_FAILURE); } k]. *)
Definition or_die (k : call) (ok : bool) : call := if ok then k else CExit 1.
Declare Scope call_scope.
Notation "c ?? k" := (c (or_die k)) (at level 60, right associativity, format "'[v' c  ?? '/' k ']'") : call_scope.
Local Open Scope call_scope.

(** ** The programs *)

Definition STDIN : nat := 0.
Definition STDOUT : nat := 1.

(** The three children, after [fork]. *)
Definition first_child (p1 : nat * nat) (argv : list arg) : call :=
  CClose p1.1 ??
  CDup2 p1.2 STDOUT ??
  CClose p1.2 ??
  CExec argv (CExit 1).
Definition second_child (p1 p2 : nat * nat) (argv : list arg) : call :=
  CClose p1.2 ??
  CDup2 p1.1 STDIN ??
  CClose p1.1 ??
  CClose p2.1 ??
  CDup2 p2.2 STDOUT ??
  CClose p2.2 ??
  CExec argv (CExit 1).
Definition third_child (p2 : nat * nat) (argv : list arg) : call :=
  CClose p2.2 ??
  CDup2 p2.1 STDIN ??
  CClose p2.1 ??
  CExec argv (CExit 1).

(** The parent. *)
Definition pipeline_end (p1 p2 : nat * nat) (argv3 : list arg) : call :=
  CClose p1.1 ??
  CClose p1.2 ??
  CWait ??
  CFork (third_child p2 argv3) ??
  CClose p2.1 ??
  CClose p2.2 ??
  CWait ??
  CWait ??
  CExit 0.
Definition or_exit (k : nat * nat -> call) (r : option (nat * nat)) : call := match r with Some p => k p | None => CExit 1 end.
Definition pipeline (argv1 argv2 argv3 : list arg) : call :=
  CPipe (or_exit (fun p1 =>
  CFork (first_child p1 argv1) ??
  CPipe (or_exit (fun p2 =>
  CFork (second_child p1 p2 argv2) ??
  pipeline_end p1 p2 argv3)))).

(** ejemplo_3_tuberias.c, where the arguments are fixed. *)
Definition ejemplo_main : call :=
  pipeline [Str "./merge_files"; Str "t"; Str "1024"; Str "fi1"; Str "fi2"; Str "fi3"]
           [Str "./mystrings"; Str "t"; Str "1024"; Str "n"; Str "4"]
           [Str "./split_files"; Str "t"; Str "1024"; Str "fo1"; Str "fo2"; Str "fo3"].

(** The options of merge_mystrings_split.c; [error_flag] has no initial value. *)
Inductive opt : Type :=
| OptT (v : Z)
| OptN (v : Z)
| OptI (files : list Z)
| OptBad.
Fixpoint mms_options (opts : list opt) (t n : Z) (i : option (list Z)) (error : Z) : Z * Z * option (list Z) * Z :=
  match opts with
  | [] => (t, n, i, error)
  | OptT v :: opts' => mms_options opts' v n i (if (v <? 1) || (1048576 <? v) then 1 else error)
  | OptN v :: opts' => mms_options opts' t v i (if (v <? 1) || (255 <? v) then 1 else error)
  | OptI s :: opts' => mms_options opts' t n (Some s) error
  | OptBad :: opts' => mms_options opts' t n i 1
  end.

(** [strtok_r] with the separator [,]: the pieces that are not empty. *)
Fixpoint strtok (cur l : list Z) : list (list Z) :=
  match l with
  | [] => match cur with [] => [] | _ => [cur] end
  | c :: l' => if c =? 44 then match cur with [] => strtok [] l' | _ => cur :: strtok [] l' end else strtok (cur ++ [c]) l'
  end.
Definition numficheros_in (s : list Z) : nat := S (length (filter (fun c => c = 44) s)).

(** [main]: [exists_ f] is [access(f, F_OK) == 0].  With empty names in the list
    [fich_in] has elements that were never set. *)
Definition mms_main (exists_ : list Z -> bool) (junk : Z) (opts : list opt) (fich_out : list (list Z)) : call :=
  let '(t, n, i, error) := mms_options opts 1024 4 None junk in
  let error := match i with None => 1 | Some _ => if (length fich_out <? 1)%nat then 1 else error end in
  let fich_in := match i with None => [] | Some s => strtok [] s end in
  if negb (forallb exists_ fich_in) then CExit 1
  else if error =? 1 then CExit 1
  else
    match i with
    | None => CStuck
    | Some s =>
        if (length fich_in <? numficheros_in s)%nat then CStuck
        else pipeline ([Str "./merge_files"; Str "-t"; Num t] ++ (Name <$> fich_in))
                      [Str "./mystrings"]
                      ([Str "./split_files"; Str "-t"; Num t] ++ (Name <$> fich_out))
    end.

(** ** Running *)

(** What a descriptor refers to: one the program was started with, or an end of
    the pipe made in the [p]-th call of [pipe]. *)
Inductive endpoint : Type :=
| Inherited (fd : nat)
| ReadEnd (p : nat)
| WriteEnd (p : nat).
Abbreviation table := (list (option endpoint)).

(** The lowest free descriptor. *)
Fixpoint lowest (tab : table) : nat :=
  match tab with
  | Some _ :: tab' => S (lowest tab')
  | _ => O
  end.
Fixpoint set_fd (tab : table) (fd : nat) (e : option endpoint) : table :=
  match fd, tab with
  | O, _ :: tab' => e :: tab'
  | O, [] => [e]
  | S fd', x :: tab' => x :: set_fd tab' fd' e
  | S fd', [] => None :: set_fd [] fd' e
  end.
Definition get_fd (tab : table) (fd : nat) : option endpoint := match tab !! fd with Some e => e | None => None end.
(** The open descriptors. *)
Definition open_fds (tab : table) : list (nat * endpoint) := omap (fun '(fd, e) => pair fd <$> e) (imap pair tab).

Inductive event : Type :=
| EFork (child : list event)
| EExec (argv : list arg) (fds : list (nat * endpoint))
| EWait (fds : list (nat * endpoint))
| EExit (status : Z)
| EStuck.

(** The events of a process when [pipe], [fork], [exec] and [wait] succeed; [np]
    pipes have been made. *)
Fixpoint run (c : call) (tab : table) (np : nat) : list event :=
  match c with
  | CExit status => [EExit status]
  | CPipe k =>
      let r := lowest tab in
      let tab1 := set_fd tab r (Some (ReadEnd np)) in
      let w := lowest tab1 in
      run (k (Some (r, w))) (set_fd tab1 w (Some (WriteEnd np))) (S np)
  | CFork child parent => EFork (run child tab np) :: run (parent true) tab np
  | CClose fd k => match get_fd tab fd with Some _ => run (k true) (set_fd tab fd None) np | None => run (k false) tab np end
  | CDup2 oldfd newfd k =>
      match get_fd tab oldfd with Some e => run (k true) (set_fd tab newfd (Some e)) np | None => run (k false) tab np end
  | CExec argv _ => [EExec argv (open_fds tab)]
  | CWait k => EWait (open_fds tab) :: run (k true) tab np
  | CStuck => [EStuck]
  end.

Definition std : table := [Some (Inherited 0); Some (Inherited 1); Some (Inherited 2)].

(** The intended course of events. *)
Definition connected (argv1 argv2 argv3 : list arg) : list event :=
  [EFork [EExec argv1 [(0%nat, Inherited 0); (1%nat, WriteEnd 0); (2%nat, Inherited 2)]];
   EFork [EExec argv2 [(0%nat, ReadEnd 0); (1%nat, WriteEnd 1); (2%nat, Inherited 2)]];
   EWait [(0%nat, Inherited 0); (1%nat, Inherited 1); (2%nat, Inherited 2); (5%nat, ReadEnd 1); (6%nat, WriteEnd 1)];
   EFork [EExec argv3 [(0%nat, ReadEnd 1); (1%nat, Inherited 1); (2%nat, Inherited 2)]];
   EWait [(0%nat, Inherited 0); (1%nat, Inherited 1); (2%nat, Inherited 2)];
   EWait [(0%nat, Inherited 0); (1%nat, Inherited 1); (2%nat, Inherited 2)];
   EExit 0].

Lemma pipeline_run argv1 argv2 argv3 : run (pipeline argv1 argv2 argv3) std 0 = connected argv1 argv2 argv3.
Proof. reflexivity. Qed.

Lemma mms_connects exists_ junk opts fich_out t n s e :
  mms_options opts 1024 4 None junk = (t, n, Some s, e) -> e <> 1 -> fich_out <> [] ->
  forallb exists_ (strtok [] s) = true -> (numficheros_in s <= length (strtok [] s))%nat ->
  run (mms_main exists_ junk opts fich_out) std 0 =
  connected ([Str "./merge_files"; Str "-t"; Num t] ++ (Name <$> strtok [] s)) [Str "./mystrings"]
    ([Str "./split_files"; Str "-t"; Num t] ++ (Name <$> fich_out)).
Proof.
  intros Ho He Hf Hex Hn. unfold mms_main. rewrite Ho. destruct fich_out as [|f fs]; [done|]. cbn [length].
  rewrite (proj2 (Nat.ltb_ge (S (length fs)) 1)) by lia. rewrite Hex. cbn [negb]. rewrite (proj2 (Z.eqb_neq _ _) He).
  rewrite (proj2 (Nat.ltb_ge _ _)) by done. apply pipeline_run.
Qed.

(** ** The processes together

    A program started by [exec] reads bytes from its standard input and writes
    bytes to its standard output in some order, [image].  A pipe holds [cap]
    bytes: a write to a full one and a read from an empty one wait. *)
Inductive io : Type := In | Out.
Inductive act : Type := Rd (p : nat) | Wr (p : nat) | Other.

Definition act_of (fds : list (nat * endpoint)) (x : io) : act :=
  match x with
  | In => match list_find (fun e => e.1 = STDIN) fds with Some (_, (_, ReadEnd p)) => Rd p | _ => Other end
  | Out => match list_find (fun e => e.1 = STDOUT) fds with Some (_, (_, WriteEnd p)) => Wr p | _ => Other end
  end.

(** What the parent has still to do, what its children have still to do, the
    number of bytes in each pipe, and the children that ended. *)
Record net : Type := mknet { todo : list event; kids : list (list act); level : nat -> nat; zombies : nat }.

Section net.
  Context (cap : nat) (image : list arg -> list io).

Inductive nstep : net -> net -> Prop :=
| n_fork argv fds rest ks lv z :
    nstep (mknet (EFork [EExec argv fds] :: rest) ks lv z) (mknet rest (ks ++ [act_of fds <$> image argv]) lv z)
| n_wait fds rest ks lv z : nstep (mknet (EWait fds :: rest) ks lv (S z)) (mknet rest ks lv z)
| n_write td ks lv z i p k :
    ks !! i = Some (Wr p :: k) -> (lv p < cap)%nat ->
    nstep (mknet td ks lv z) (mknet td (<[i := k]> ks) (fun q => if decide (q = p) then S (lv p) else lv q) z)
| n_read td ks lv z i p k :
    ks !! i = Some (Rd p :: k) -> (0 < lv p)%nat ->
    nstep (mknet td ks lv z) (mknet td (<[i := k]> ks) (fun q => if decide (q = p) then pred (lv p) else lv q) z)
| n_other td ks lv z i k : ks !! i = Some (Other :: k) -> nstep (mknet td ks lv z) (mknet td (<[i := k]> ks) lv z)
| n_end td ks lv z i : ks !! i = Some [] -> nstep (mknet td ks lv z) (mknet td (delete i ks) lv (S z)).

End net.

(** The numbers of writes and reads in a program, and of the reads it can do with
    at most [c] writes. *)
Fixpoint outs (l : list io) : nat := match l with [] => O | Out :: l' => S (outs l') | In :: l' => outs l' end.
Fixpoint ins (l : list io) : nat := match l with [] => O | In :: l' => S (ins l') | Out :: l' => ins l' end.
Fixpoint ins_within (c : nat) (l : list io) : nat :=
  match l with
  | [] => O
  | In :: l' => S (ins_within c l')
  | Out :: l' => match c with O => O | S c' => ins_within c' l' end
  end.

Lemma outs_app l l' : outs (l ++ l') = (outs l + outs l')%nat.
Proof. induction l as [|[] l IH]; cbn; lia. Qed.

Lemma ins_app l l' : ins (l ++ l') = (ins l + ins l')%nat.
Proof. induction l as [|[] l IH]; cbn; lia. Qed.

Lemma ins_within_prefix l l' : forall c, (outs l <= c)%nat -> (ins l <= ins_within c (l ++ l'))%nat.
Proof.
  induction l as [|[] l IH]; intros c Hc; cbn in *; [lia| |].
  - specialize (IH c Hc). lia.
  - destruct c as [|c]; [lia|]. apply IH. lia.
Qed.

(** ** Too much data *)

Section hang.
  Context (cap : nat) (image : list arg -> list io) (argv1 argv2 argv3 : list arg).
  (** mystrings writes more than a pipe holds, and merge_files more than mystrings
      reads until then and a pipe holds. *)
  Hypothesis Hmy : (cap < outs (image argv2))%nat.
  Hypothesis Hmerge : (ins_within cap (image argv2) + cap < outs (image argv1))%nat.

Definition fds1 : list (nat * endpoint) := [(0%nat, Inherited 0); (1%nat, WriteEnd 0); (2%nat, Inherited 2)].
Definition fds2 : list (nat * endpoint) := [(0%nat, ReadEnd 0); (1%nat, WriteEnd 1); (2%nat, Inherited 2)].

(** Both programs are in the middle: [d] is done and [r] remains to be done. *)
Record stalled (m f : option (list io * list io)) (s : net) : Prop := {
  sl_kids : kids s = match m with Some (_, r) => [act_of fds1 <$> r] | None => [] end ++
                     match f with Some (_, r) => [act_of fds2 <$> r] | None => [] end;
  sl_merge : match m with Some (d, r) => image argv1 = d ++ r /\ (level s 0 + match f with Some (d', _) => ins d' | None => 0 end = outs d)%nat
             | None => level s 0 = O end;
  sl_my : match f with Some (d, r) => image argv2 = d ++ r /\ level s 1 = outs d | None => level s 1 = O end;
  sl_cap : (level s 0 <= cap)%nat /\ (level s 1 <= cap)%nat;
  sl_zombies : zombies s = O;
  sl_todo : todo s = drop (match m with Some _ => 1 | None => 0 end + match f with Some _ => 1 | None => 0 end) (connected argv1 argv2 argv3);
  sl_order : f <> None -> m <> None
}.

Lemma stalled_merge d r f s : stalled (Some (d, r)) f s -> r <> [].
Proof using Hmy Hmerge.
  intros [_ [Hm Hl] Hf [Hc Hc1] _ _ _] ->. rewrite app_nil_r in Hm. subst d. destruct f as [[d' r']|]; [|lia].
  destruct Hf as [Hf Hl1]. pose proof (ins_within_prefix d' r' cap ltac:(lia)) as H. rewrite <- Hf in H. lia.
Qed.

Lemma stalled_my m d r s : stalled m (Some (d, r)) s -> r <> [].
Proof using Hmy Hmerge.
  intros [_ _ [Hf Hl] [_ Hc] _ _ _] ->. rewrite app_nil_r in Hf. subst d. lia.
Qed.

Definition stall (s : net) : Prop := exists m f, stalled m f s.

(** Which child a step is of, and what it does. *)
Lemma stalled_kid m f s i a :
  stalled m f s -> kids s !! i = Some a ->
  (exists d x r, m = Some (d, x :: r) /\ i = 0%nat /\ a = act_of fds1 x :: (act_of fds1 <$> r)) \/
  (exists d x r, f = Some (d, x :: r) /\ m <> None /\ i = 1%nat /\ a = act_of fds2 x :: (act_of fds2 <$> r)).
Proof using Hmy Hmerge.
  intros H Hi. pose proof (sl_order _ _ _ H) as Ho. rewrite (sl_kids _ _ _ H) in Hi. destruct m as [[d r]|].
  - destruct i as [|i].
    + left. destruct r as [|x r]; [by apply stalled_merge in H|]. injection Hi as <-. by exists d, x, r.
    + right. destruct f as [[d' r']|]; [|done]. destruct i as [|i]; [|done]. destruct r' as [|x r']; [by apply stalled_my in H|].
      injection Hi as <-. exists d', x, r'. done.
  - destruct f as [p|]; [|done]. by specialize (Ho ltac:(done)).
Qed.

(** Progress of one of the two. *)
Lemma stalled_merge_next d x r f s lv' :
  stalled (Some (d, x :: r)) f s -> lv' 1%nat = level s 1 -> (lv' 0 <= cap)%nat ->
  lv' 0%nat = (level s 0 + outs [x])%nat ->
  stalled (Some (d ++ [x], r)) f (mknet (todo s) (<[0%nat := act_of fds1 <$> r]> (kids s)) lv' (zombies s)).
Proof using Hmy Hmerge.
  intros [H1 [H2 H2'] H3 [H4 H4'] H5 H6 H7] E1 E0 E. split; cbn [kids level zombies todo]; try done.
  - by rewrite H1.
  - rewrite <- app_assoc, outs_app, E. split; [done|lia].
  - rewrite E1. done.
  - lia.
Qed.

Lemma stalled_my_next m d x r s lv' :
  stalled m (Some (d, x :: r)) s -> m <> None -> (lv' 0 <= cap)%nat -> (lv' 1 <= cap)%nat ->
  (lv' 0%nat + ins [x] = level s 0)%nat -> lv' 1%nat = (level s 1 + outs [x])%nat ->
  stalled m (Some (d ++ [x], r)) (mknet (todo s) (<[1%nat := act_of fds2 <$> r]> (kids s)) lv' (zombies s)).
Proof using Hmy Hmerge.
  intros [H1 H2 [H3 H3'] [H4 H4'] H5 H6 H7] Hm C0 C1 E0 E1. destruct m as [[d' r']|]; [|done].
  split; cbn [kids level zombies todo]; try done.
  - by rewrite H1.
  - rewrite ins_app. split; [apply H2|lia].
  - rewrite <- app_assoc, outs_app. split; [done|lia].
Qed.

Lemma stall_step s s' : stall s -> nstep cap image s s' -> stall s'.
Proof using Hmy Hmerge.
  intros (m & f & H) Hs. destruct Hs as [argv fds rest ks lv z|fds rest ks lv z|td ks lv z i p k Hi Hp|td ks lv z i p k Hi Hp|td ks lv z i k Hi|td ks lv z i Hi].
  - pose proof H as [H1 H2 H3 H4 H5 H6 H7]. cbn [kids level zombies todo] in *. destruct m as [[d r]|], f as [[d' r']|]; try done.
    + injection H6 as -> -> ->. exists (Some (d, r)), (Some ([], image argv2)). split; cbn [kids level zombies todo]; try done. by rewrite H1.
    + by specialize (H7 ltac:(done)).
    + injection H6 as -> -> ->. exists (Some ([], image argv1)), None. split; cbn [kids level zombies todo]; try done.
      * by rewrite H1.
      * cbn. split; [done|lia].
  - by pose proof (sl_zombies _ _ _ H).
  - destruct (stalled_kid _ _ _ i _ H Hi) as [(d & x & r & -> & -> & [= Ex ->])|(d & x & r & -> & Hm & -> & [= Ex ->])]; destruct x; try done.
    + injection Ex as ->. exists (Some (d ++ [Out], r)), f. apply (stalled_merge_next d Out r f _ _ H); cbn; repeat case_decide; lia.
    + injection Ex as ->. exists m, (Some (d ++ [Out], r)). pose proof (sl_cap _ _ _ H). cbn in *.
      apply (stalled_my_next m d Out r _ _ H Hm); cbn; repeat case_decide; lia.
  - destruct (stalled_kid _ _ _ i _ H Hi) as [(d & x & r & -> & -> & [= Ex ->])|(d & x & r & -> & Hm & -> & [= Ex ->])]; destruct x; try done.
    injection Ex as ->. exists m, (Some (d ++ [In], r)). pose proof (sl_cap _ _ _ H). cbn in *.
    apply (stalled_my_next m d In r _ _ H Hm); cbn; repeat case_decide; lia.
  - destruct (stalled_kid _ _ _ i _ H Hi) as [(d & x & r & -> & -> & [= Ex ->])|(d & x & r & -> & Hm & -> & [= Ex ->])]; destruct x; try done.
    exists (Some (d ++ [In], r)), f. pose proof (sl_cap _ _ _ H). cbn in *. apply (stalled_merge_next d In r f _ _ H); cbn; repeat case_decide; lia.
  - by destruct (stalled_kid _ _ _ i _ H Hi) as [(d & x & r & _ & _ & ?)|(d & x & r & _ & _ & _ & ?)].
Qed.

Lemma stall_start : stall (mknet (connected argv1 argv2 argv3) [] (fun _ => O) O).
Proof using Hmy Hmerge. exists None, None. split; cbn; try done. lia. Qed.

Lemma stall_reach s : rtc (nstep cap image) (mknet (connected argv1 argv2 argv3) [] (fun _ => O) O) s -> stall s.
Proof using Hmy Hmerge.
  intros H. pose proof stall_start as H0. induction H as [|x y z Hxy Hyz IH]; [done|]. apply IH. by eapply stall_step.
Qed.

(** The third program is not started, nobody has ended, and the parent is not past
    its first [wait]. *)
Lemma stall_hangs s :
  stall s -> zombies s = O /\ ([] ∉ kids s) /\
  exists pre, todo s = pre ++ drop 2 (connected argv1 argv2 argv3).
Proof using Hmy Hmerge.
  intros (m & f & H). split_and!; [apply H| |].
  - intros Hin. apply list_elem_of_lookup in Hin as (i & Hi).
    by destruct (stalled_kid _ _ _ i _ H Hi) as [(d & x & r & _ & _ & ?)|(d & x & r & _ & _ & _ & ?)].
  - rewrite (sl_todo _ _ _ H). destruct m, f; [by exists []|by eexists [_]|by eexists [_]|by eexists [_; _]].
Qed.
End hang.

(** C23: merge_mystrings_split hangs when there is much data.  Once its options are
    accepted the three programs are connected as intended, but the program that
    empties the second pipe is started only when one of the other two has ended.
    If mystrings writes more than a pipe holds and merge_files more than mystrings
    reads until then and a pipe holds, then in every state the processes can reach
    none of them has ended, none is about to, and the parent still has its first
    [wait] to do. *)
Theorem pipeline_hangs cap image exists_ junk opts fich_out t n s e
    (argv1 := [Str "./merge_files"; Str "-t"; Num t] ++ (Name <$> strtok [] s)) (argv2 := [Str "./mystrings"]) st :
  mms_options opts 1024 4 None junk = (t, n, Some s, e) -> e <> 1 -> fich_out <> [] ->
  forallb exists_ (strtok [] s) = true -> (numficheros_in s <= length (strtok [] s))%nat ->
  (cap < outs (image argv2))%nat -> (ins_within cap (image argv2) + cap < outs (image argv1))%nat ->
  rtc (nstep cap image) (mknet (run (mms_main exists_ junk opts fich_out) std 0) [] (fun _ => O) O) st ->
  zombies st = O /\ ([] ∉ kids st) /\
  exists pre fds rest, todo st = pre ++ EWait fds :: EFork [EExec ([Str "./split_files"; Str "-t"; Num t] ++ (Name <$> fich_out))
    [(0%nat, ReadEnd 1); (1%nat, Inherited 1); (2%nat, Inherited 2)]] :: rest.
Proof.
  intros Ho He Hf Hex Hn Hmy Hm Hr. rewrite (mms_connects _ _ _ _ _ _ _ _ Ho He Hf Hex Hn) in Hr.
  apply (stall_reach _ _ _ _ _ Hmy Hm) in Hr. destruct (stall_hangs _ _ _ _ _ Hmy Hm _ Hr) as (Hz & Hk & pre & Hp).
  split_and!; [done|done|]. eexists pre, _, _. exact Hp.
Qed.

(** Pipes of one byte, merge_files with four bytes, and mystrings that copies its
    input byte by byte: the state where everybody waits. *)
Definition small_image (argv : list arg) : list io :=
  match argv with [_] => [In; Out; In; Out; In; Out; In; Out] | _ => [Out; Out; Out; Out] end.

Ltac net_write i := eapply rtc_l; [eapply (n_write _ _ _ _ _ _ i); [reflexivity|vm_compute; lia]|]; cbn [insert list_insert].
Ltac net_read i := eapply rtc_l; [eapply (n_read _ _ _ _ _ _ i); [reflexivity|vm_compute; lia]|]; cbn [insert list_insert].

Lemma pipeline_hangs_witness :
  exists st, rtc (nstep 1 small_image) (mknet (run (mms_main (fun _ => true) 0 [OptI [97; 44; 98]] [[99]]) std 0) [] (fun _ => O) O) st /\
    kids st = [[Wr 0]; [Wr 1; Rd 0; Wr 1; Rd 0; Wr 1]] /\ level st 0 = 1%nat /\ level st 1 = 1%nat /\
    zombies st = O /\ ([] ∉ kids st).
Proof.
  assert (Hreach : exists st, rtc (nstep 1 small_image) (mknet (run (mms_main (fun _ => true) 0 [OptI [97; 44; 98]] [[99]]) std 0) [] (fun _ => O) O) st /\
    kids st = [[Wr 0]; [Wr 1; Rd 0; Wr 1; Rd 0; Wr 1]] /\ level st 0 = 1%nat /\ level st 1 = 1%nat).
  { eexists. split.
    - eapply rtc_l; [apply n_fork|]. eapply rtc_l; [apply n_fork|]. cbn.
      net_write 0%nat. net_read 1%nat. net_write 1%nat. net_write 0%nat. net_read 1%nat. net_write 0%nat. apply rtc_refl.
    - by vm_compute. }
  destruct Hreach as (st & Hst & Hk & H0 & H1). exists st.
  destruct (pipeline_hangs 1 small_image (fun _ => true) 0 [OptI [97; 44; 98]] [[99]] 1024 4 [97; 44; 98] 0 st) as (Hz & He & _);
    [reflexivity|lia|done|reflexivity|vm_compute; lia|vm_compute; lia|vm_compute; lia|exact Hst|]. split_and!; done.
Defined.
