(* ===== verification/Spin.v ===== *)
(** * [spinlock.c]: spin locks on several CPUs

    The other files run one kernel path at a time and take [acquire] and
    [release] as the two tests of the prelude.  Here the routines are translated
    in full, with the interrupt flag and the nesting count of each CPU, and run
    on any number of CPUs that interleave between their accesses to the lock:
    the atomic [xchg], the stores to [lk->cpu] and the store that releases.
    The two loads of [holding] are one step: of the values other CPUs write,
    none makes the test true on this one.

    [spin_mutex] is mutual exclusion in every reachable state, with interrupts
    off on the CPU that holds a lock; [acquire_alone] and [release_alone] justify
    the one-CPU view of the prelude. *)

From Stdlib Require Import ZArith Lia String.
From stdpp Require Import base numbers list.
From S2P Require Import Prelude Bytes Params.

Local Open Scope Z_scope.
Local Open Scope kernel_scope.

(** ** CPUs and locks *)

Record cpu : Type := mkcpu { ncli : Z; intena : bool; iflag : bool }.
Record spinlock : Type := mklock { locked : Z; lk_cpu : option nat }.

Definition initlock : spinlock := mklock 0 None.

(** [mycpu]: the entry of [cpus] with the APIC number the processor reports. *)
Fixpoint cpu_index (apicid : Z) (ids : list Z) (i : nat) : option nat :=
  match ids with
  | [] => None
  | a :: ids' => if a =? apicid then Some i else cpu_index apicid ids' (S i)
  end.
Definition mycpu (ids : list Z) (apicid : Z) : M cpu nat :=
  fun c =>
    if iflag c then Panic "mycpu called with interrupts enabled"
    else match cpu_index apicid ids 0 with Some i => Ok (i, c) | None => Panic "unknown apicid" end.

Definition pushcli : M cpu unit :=
  mset (fun c =>
    let eflags := iflag c in
    mkcpu (ncli c + 1) (if ncli c =? 0 then eflags else intena c) false).

Definition popcli : M cpu unit :=
  fun c =>
    if iflag c then Panic "popcli - interruptible"
    else if ncli c - 1 <? 0 then Panic "popcli"
    else Ok (tt, mkcpu (ncli c - 1) (intena c) ((ncli c - 1 =? 0) && intena c)).

(** [holding] on the CPU [me]. *)
Definition holding (me : nat) (lk : spinlock) : M cpu bool :=
  pushcli ;;!
  let r := negb (locked lk =? 0) && match lk_cpu lk with Some k => (k =? me)%nat | None => false end in
  popcli ;;!
  mret r.

(** The accesses of [acquire] and [release], one by one. *)
Definition acquire_test (me : nat) (lk : spinlock) : M cpu unit :=
  pushcli ;;!
  let! h := holding me lk in
  if h then mpanic "acquire" else mret tt.

(** [xchg(&lk->locked, 1)] *)
Definition xchg_locked (lk : spinlock) : Z * spinlock := (locked lk, mklock 1 (lk_cpu lk)).

Definition acquire_mark (me : nat) (lk : spinlock) : spinlock := mklock (locked lk) (Some me).

Definition release_test (me : nat) (lk : spinlock) : M cpu unit :=
  let! h := holding me lk in
  if h then mret tt else mpanic "release".
Definition release_mark (lk : spinlock) : spinlock := mklock (locked lk) None.
Definition release_store (lk : spinlock) : spinlock := mklock 0 (lk_cpu lk).

(** The whole routines on a CPU no other interferes with; a lock another CPU
    holds makes [acquire] spin. *)
Definition acquire (me : nat) : M (cpu * spinlock) unit :=
  fun '(c, lk) =>
    obind (acquire_test me lk c) (fun '(_, c) =>
      let '(old, lk) := xchg_locked lk in
      if negb (old =? 0) then Block else Ok (tt, (c, acquire_mark me lk))).
Definition release (me : nat) : M (cpu * spinlock) unit :=
  fun '(c, lk) =>
    obind (release_test me lk c) (fun '(_, c) =>
      let lk := release_store (release_mark lk) in
      obind (popcli c) (fun '(_, c) => Ok (tt, (c, lk)))).

(** [getcallerpcs]: the return addresses along the chain of frame pointers. *)
Fixpoint callers (n : nat) (m : mem) (ebp : Z) : list Z :=
  match n with
  | O => []
  | S n' =>
      if (ebp =? 0) || (ebp <? KERNBASE) || (ebp =? 0xffffffff) then replicate n 0
      else get32 m (ebp + 4) :: callers n' m (get32 m ebp)
  end.
Definition getcallerpcs (m : mem) (v : Z) : list Z := callers 10 m (u32 (v - 8)).

(** ** Interleaving *)

(** Where a CPU is: outside the routines, or inside one of them with the lock. *)
Inductive phase : Type :=
| Outside
| Spinning (l : nat)
| Got (l : nat)
| Clearing (l : nat)
| Released.

Record machine : Type := mkmachine {
  m_cpu : nat -> cpu;
  m_phase : nat -> phase;
  m_lock : nat -> spinlock
}.

Definition upd {A} (f : nat -> A) (k : nat) (v : A) : nat -> A := fun i => if (i =? k)%nat then v else f i.

(** One step of CPU [k]. *)
Inductive mstep (k : nat) : machine -> machine -> Prop :=
| st_acquire s l c :
    m_phase s k = Outside -> acquire_test k (m_lock s l) (m_cpu s k) = Ok (tt, c) ->
    mstep k s (mkmachine (upd (m_cpu s) k c) (upd (m_phase s) k (Spinning l)) (m_lock s))
| st_xchg s l old lk :
    m_phase s k = Spinning l -> xchg_locked (m_lock s l) = (old, lk) ->
    mstep k s (mkmachine (m_cpu s) (upd (m_phase s) k (if old =? 0 then Got l else Spinning l)) (upd (m_lock s) l lk))
| st_mark s l :
    m_phase s k = Got l ->
    mstep k s (mkmachine (m_cpu s) (upd (m_phase s) k Outside) (upd (m_lock s) l (acquire_mark k (m_lock s l))))
| st_release s l c :
    m_phase s k = Outside -> release_test k (m_lock s l) (m_cpu s k) = Ok (tt, c) ->
    mstep k s (mkmachine (upd (m_cpu s) k c) (upd (m_phase s) k (Clearing l)) (upd (m_lock s) l (release_mark (m_lock s l))))
| st_store s l :
    m_phase s k = Clearing l ->
    mstep k s (mkmachine (m_cpu s) (upd (m_phase s) k Released) (upd (m_lock s) l (release_store (m_lock s l))))
| st_popcli s c :
    m_phase s k = Released -> popcli (m_cpu s k) = Ok (tt, c) ->
    mstep k s (mkmachine (upd (m_cpu s) k c) (upd (m_phase s) k Outside) (m_lock s))
| st_iflag s b :
    (** an interrupt, its return, or [sti], outside all critical sections *)
    m_phase s k = Outside -> ncli (m_cpu s k) = 0 ->
    mstep k s (mkmachine (upd (m_cpu s) k (mkcpu 0 (intena (m_cpu s k)) b)) (upd (m_phase s) k Outside) (m_lock s)).

Inductive mreach (s : machine) : machine -> Prop :=
| mreach_refl : mreach s s
| mreach_step k t u : mreach s t -> mstep k t u -> mreach s u.

Definition boot_machine : machine :=
  mkmachine (fun _ => mkcpu 0 false false) (fun _ => Outside) (fun _ => initlock).

(** The CPU [k] is in the critical section of lock [l]. *)
Definition inside (s : machine) (l k : nat) : Prop :=
  lk_cpu (m_lock s l) = Some k \/ m_phase s k = Got l \/ m_phase s k = Clearing l.

(** ** The routines *)

(** Interrupts are off while the count is positive. *)
Definition cpu_ok (c : cpu) : Prop := 0 <= ncli c /\ (ncli c <> 0 -> iflag c = false).

(** [lk->locked && lk->cpu == mycpu()] *)
Definition holds (me : nat) (lk : spinlock) : bool :=
  negb (locked lk =? 0) && match lk_cpu lk with Some k => (k =? me)%nat | None => false end.

(** Two matched calls leave the interrupt flag and the count as they were. *)
Lemma cpu_holding_eq me lk c :
  cpu_ok c -> exists b, holding me lk c = Ok (holds me lk, mkcpu (ncli c) b (iflag c)) /\ (ncli c <> 0 -> b = intena c).
Proof.
  intros [Hn Hf]. unfold holding, pushcli. mgo. unfold mbind, popcli. cbn [iflag ncli intena].
  replace (ncli c + 1 - 1) with (ncli c) by lia. rewrite (proj2 (Z.ltb_ge _ _) Hn). cbn [obind].
  destruct (Z.eqb_spec (ncli c) 0) as [E|E].
  - exists (iflag c). rewrite E. done.
  - exists (intena c). rewrite (Hf E). done.
Qed.

Lemma pushcli_popcli c : cpu_ok c ->
  exists b, (pushcli ;;! popcli) c = Ok (tt, mkcpu (ncli c) b (iflag c)).
Proof.
  intros [Hn Hf]. unfold pushcli. mgo. unfold popcli. cbn [iflag ncli intena].
  replace (ncli c + 1 - 1) with (ncli c) by lia. rewrite (proj2 (Z.ltb_ge _ _) Hn).
  destruct (Z.eqb_spec (ncli c) 0) as [E|E]; eexists; [by rewrite E|by rewrite (Hf E)].
Qed.

Lemma acquire_test_eq me lk c :
  cpu_ok c ->
  if holds me lk then acquire_test me lk c = Panic "acquire"
  else exists b, acquire_test me lk c = Ok (tt, mkcpu (ncli c + 1) b false).
Proof.
  intros [Hn Hf]. unfold acquire_test, pushcli. mgo.
  set (c1 := mkcpu _ _ _). assert (H1 : cpu_ok c1) by (split; [simpl; lia|done]).
  destruct (cpu_holding_eq me lk c1 H1) as (b & E & _). rewrite (mbind_ok _ _ _ _ _ E).
  destruct (holds me lk); [done|]. by exists b.
Qed.

Lemma release_test_eq me lk c :
  cpu_ok c ->
  if holds me lk then exists b, release_test me lk c = Ok (tt, mkcpu (ncli c) b (iflag c))
  else release_test me lk c = Panic "release".
Proof.
  intros H. unfold release_test. destruct (cpu_holding_eq me lk c H) as (b & E & _).
  rewrite (mbind_ok _ _ _ _ _ E). destruct (holds me lk); [by exists b|done].
Qed.

(** On one CPU, [acquire] and [release] are those of the prelude: a lock found
    held is held by this CPU, and the routines panic on a wrong use. *)
Lemma acquire_alone me c lk :
  cpu_ok c ->
  (lk = mklock 1 (Some me) -> acquire me (c, lk) = Panic "acquire") /\
  (lk = mklock 0 None -> exists c', acquire me (c, lk) = Ok (tt, (c', mklock 1 (Some me))) /\
     ncli c' = ncli c + 1 /\ iflag c' = false).
Proof.
  intros Hc. pose proof (acquire_test_eq me lk c Hc) as H. unfold acquire. split; intros ->.
  - unfold holds in H. cbn [locked lk_cpu] in H. rewrite Nat.eqb_refl in H. cbv iota in H.
    change (negb (1 =? 0) && true)%bool with true in H. cbv iota in H. by rewrite H.
  - destruct H as (b & E). rewrite E. cbn. eauto.
Qed.

Lemma release_alone me c lk :
  cpu_ok c ->
  (lk = mklock 0 None -> release me (c, lk) = Panic "release") /\
  (lk = mklock 1 (Some me) -> ncli c <> 0 ->
     exists c', release me (c, lk) = Ok (tt, (c', mklock 0 None)) /\ ncli c' = ncli c - 1).
Proof.
  intros Hc. pose proof (release_test_eq me lk c Hc) as H. unfold release. split.
  - intros ->. by rewrite H.
  - intros -> Hn. unfold holds in H. cbn [locked lk_cpu] in H. rewrite Nat.eqb_refl in H.
    change (negb (1 =? 0) && true)%bool with true in H. cbv iota in H. destruct H as (b & E). rewrite E. cbn [obind].
    destruct Hc as [Hc0 Hf]. unfold popcli. cbn [iflag ncli intena]. rewrite (Hf Hn).
    rewrite (proj2 (Z.ltb_ge _ _)) by lia. cbn. eauto.
Qed.

(** ** The invariant *)

Definition busy (p : phase) : Z := match p with Outside => 0 | _ => 1 end.

Record minv (s : machine) : Prop := {
  iv_free l k : locked (m_lock s l) = 0 -> ~ inside s l k;
  iv_one l j k : inside s l j -> inside s l k -> j = k;
  iv_phase l k : m_phase s k = Got l \/ m_phase s k = Clearing l -> lk_cpu (m_lock s l) = None;
  iv_cpu k : cpu_ok (m_cpu s k);
  iv_count k : exists held, NoDup held /\ (forall l, l ∈ held <-> lk_cpu (m_lock s l) = Some k) /\
    ncli (m_cpu s k) = Z.of_nat (length held) + busy (m_phase s k)
}.

Lemma upd_eq {A} (f : nat -> A) k v : upd f k v k = v.
Proof. unfold upd. by rewrite Nat.eqb_refl. Qed.

Lemma upd_ne {A} (f : nat -> A) k v i : i <> k -> upd f k v i = f i.
Proof. intros H. unfold upd. by rewrite (proj2 (Nat.eqb_neq _ _) H). Qed.

Lemma boot_inv : minv boot_machine.
Proof.
  split.
  - intros l k _ [H|[H|H]]; done.
  - intros l j k [H|[H|H]]; done.
  - intros l k [H|H]; done.
  - intros k. split; [simpl; lia|done].
  - intros k. exists []. split; [constructor|]. split; [|done]. intros l. split; [intros H; by apply not_elem_of_nil in H|done].
Qed.

(** Steps that change neither locks nor critical sections. *)
Lemma minv_quiet s k c p :
  minv s -> cpu_ok c -> ncli c = ncli (m_cpu s k) + busy p - busy (m_phase s k) ->
  (forall l, p <> Got l /\ p <> Clearing l) -> (forall l, m_phase s k <> Got l /\ m_phase s k <> Clearing l) ->
  minv (mkmachine (upd (m_cpu s) k c) (upd (m_phase s) k p) (m_lock s)).
Proof.
  intros [Hfree Hone Hph Hcpu Hcount] Hc Hn Hp Hp0.
  assert (Hin : forall l j, inside (mkmachine (upd (m_cpu s) k c) (upd (m_phase s) k p) (m_lock s)) l j -> inside s l j).
  { intros l j [H|H]; [by left|]. cbn in H. destruct (decide (j = k)) as [->|Hne].
    - rewrite upd_eq in H. destruct (Hp l), H; congruence.
    - rewrite upd_ne in H by done. by right. }
  split; cbn.
  - intros l j Hl H. exact (Hfree l j Hl (Hin _ _ H)).
  - intros l i j H1 H2. exact (Hone l i j (Hin _ _ H1) (Hin _ _ H2)).
  - intros l j H. destruct (decide (j = k)) as [->|Hne].
    + rewrite upd_eq in H. destruct (Hp l), H; congruence.
    + rewrite upd_ne in H by done. by apply (Hph l j).
  - intros j. destruct (decide (j = k)) as [->|Hne]; [by rewrite upd_eq|by rewrite upd_ne].
  - intros j. destruct (Hcount j) as (held & H1 & H2 & H3). exists held. split; [done|]. split; [done|].
    destruct (decide (j = k)) as [->|Hne]; [rewrite !upd_eq; lia|by rewrite !upd_ne].
Qed.

(** The phase is about lock [l] or about none. *)
Definition only (l : nat) (p : phase) : Prop := forall l', p = Got l' \/ p = Clearing l' -> l' = l.

Definition marked (lk : spinlock) : nat := match lk_cpu lk with Some _ => 1 | None => 0 end.

(** The locks marked with [k] when the mark of [l] changes. *)
Lemma held_update (locks : nat -> spinlock) k l lk held :
  NoDup held -> (forall l', l' ∈ held <-> lk_cpu (locks l') = Some k) ->
  (forall i, lk_cpu (locks l) = Some i -> i = k) -> (forall i, lk_cpu lk = Some i -> i = k) ->
  exists held', NoDup held' /\ (forall l', l' ∈ held' <-> lk_cpu (upd locks l lk l') = Some k) /\
    (length held' + marked (locks l) = length held + marked lk)%nat.
Proof.
  intros H1 H2 Hold Hnew.
  assert (Hrest : exists rest, NoDup rest /\ (l ∉ rest) /\
    (forall l', l' <> l -> l' ∈ rest <-> lk_cpu (locks l') = Some k) /\ length held = (length rest + marked (locks l))%nat).
  { unfold marked. destruct (lk_cpu (locks l)) as [i|] eqn:E.
    - assert (Hin : l ∈ held) by (apply H2; by rewrite E, (Hold i)). apply list_elem_of_split in Hin as (h1 & h2 & ->).
      assert (Hnd : NoDup (l :: h1 ++ h2)) by (by rewrite <- Permutation_middle in H1).
      apply NoDup_cons in Hnd as [Hnin Hnd]. exists (h1 ++ h2). split; [done|]. split; [done|].
      split; [|rewrite !length_app; simpl; lia].
      intros l' Hne. rewrite <- H2, !elem_of_app, list.elem_of_cons. intuition congruence.
    - exists held. split; [done|]. split; [intros Hin; apply H2 in Hin; congruence|]. split; [intros; apply H2|lia]. }
  destruct Hrest as (rest & Hnd & Hnin & Hmem & Hlen). unfold marked at 2. destruct (lk_cpu lk) as [i|] eqn:Ek.
  - exists (l :: rest). split; [by constructor|]. split; [|simpl; lia]. intros l'. rewrite list.elem_of_cons.
    destruct (decide (l' = l)) as [->|Hne].
    + rewrite upd_eq, Ek, (Hnew i) by done. tauto.
    + rewrite upd_ne by done. rewrite <- (Hmem l' Hne). tauto.
  - exists rest. split; [done|]. split; [|lia]. intros l'.
    destruct (decide (l' = l)) as [->|Hne]; [rewrite upd_eq, Ek; by split|by rewrite upd_ne, Hmem].
Qed.

(** Steps of [k] on lock [l], which nobody but [k] is or gets inside. *)
Lemma minv_lock s k l c p lk :
  minv s -> cpu_ok c -> only l (m_phase s k) -> only l p ->
  (forall j, inside s l j -> j = k) ->
  (forall j, lk_cpu lk = Some j -> j = k) ->
  (lk_cpu lk = Some k \/ p = Got l \/ p = Clearing l -> locked lk <> 0) ->
  (p = Got l \/ p = Clearing l -> lk_cpu lk = None) ->
  ncli c = ncli (m_cpu s k) + busy p - busy (m_phase s k)
    + Z.of_nat (marked lk) - Z.of_nat (marked (m_lock s l)) ->
  minv (mkmachine (upd (m_cpu s) k c) (upd (m_phase s) k p) (upd (m_lock s) l lk)).
Proof.
  intros [Hfree Hone Hph Hcpu Hcount] Hc Hp0 Hp Hins Hlk Hbit Hnone Hn. set (s' := mkmachine _ _ _).
  assert (Hl : forall j, inside s' l j -> j = k /\ locked lk <> 0).
  { intros j H. unfold inside in H. cbn in H. rewrite upd_eq in H. destruct (decide (j = k)) as [->|Hne].
    - rewrite upd_eq in H. auto.
    - rewrite upd_ne in H by done. destruct H as [H|H]; [by apply Hlk in H|]. destruct Hne. apply Hins. by right. }
  assert (Hother : forall l' j, l' <> l -> inside s' l' j -> inside s l' j).
  { intros l' j Hne H. unfold inside in H |- *. cbn in H. rewrite upd_ne in H by done. destruct H as [H|H]; [by left|].
    destruct (decide (j = k)) as [->|Hj]; [rewrite upd_eq in H; by apply Hp in H|rewrite upd_ne in H by done; by right]. }
  split.
  - intros l' j H0 H. cbn in H0. destruct (decide (l' = l)) as [->|Hne].
    + rewrite upd_eq in H0. by apply Hl in H as [_ H].
    + rewrite upd_ne in H0 by done. exact (Hfree _ _ H0 (Hother _ _ Hne H)).
  - intros l' i j H1 H2. destruct (decide (l' = l)) as [->|Hne].
    + apply Hl in H1 as [-> _], H2 as [-> _]. done.
    + exact (Hone _ _ _ (Hother _ _ Hne H1) (Hother _ _ Hne H2)).
  - intros l' j H. cbn in *. destruct (decide (j = k)) as [->|Hj].
    + rewrite upd_eq in H. pose proof (Hp _ H) as ->. rewrite upd_eq. auto.
    + rewrite upd_ne in H by done. destruct (decide (l' = l)) as [->|Hne].
      * destruct Hj. apply Hins. by right.
      * rewrite upd_ne by done. by apply (Hph l' j).
  - intros j. cbn. destruct (decide (j = k)) as [->|Hne]; [by rewrite upd_eq|by rewrite upd_ne].
  - intros j. cbn. destruct (Hcount j) as (held & H1 & H2 & H3). destruct (decide (j = k)) as [->|Hj].
    + rewrite !upd_eq. destruct (held_update (m_lock s) k l lk held) as (held' & H4 & H5 & H6); try done.
      { intros i Hi. apply Hins. by left. }
      exists held'. split; [done|]. split; [done|]. lia.
    + rewrite !upd_ne by done. exists held. split; [done|]. split; [|done].
      intros l'. destruct (decide (l' = l)) as [->|Hne]; [|by rewrite upd_ne]. rewrite upd_eq, H2.
      split; intros H; destruct Hj; [apply Hins; by left|by apply Hlk].
Qed.

Lemma only_phase l p : p = Outside \/ p = Spinning l \/ p = Got l \/ p = Clearing l \/ p = Released -> only l p.
Proof. intros H l' H'. destruct H as [->|[->|[->|[->| ->]]]], H' as [H'|H']; congruence. Qed.

(** The phase of a CPU that is busy keeps its interrupts off. *)
Lemma busy_off s k : minv s -> m_phase s k <> Outside -> 1 <= ncli (m_cpu s k) /\ iflag (m_cpu s k) = false.
Proof.
  intros H Hp. destruct (iv_count _ H k) as (held & _ & _ & Hn). destruct (iv_cpu _ H k) as [_ Hf].
  assert (busy (m_phase s k) = 1) by (by destruct (m_phase s k)). split; [lia|]. apply Hf. lia.
Qed.

Lemma upd_same {A} (f : nat -> A) k i : upd f k (f k) i = f i.
Proof. unfold upd. by destruct (Nat.eqb_spec i k) as [->|]. Qed.

(** The same for steps that leave the CPU alone. *)
Lemma minv_lock' s k l p lk :
  minv s -> only l (m_phase s k) -> only l p ->
  (forall j, inside s l j -> j = k) ->
  (forall j, lk_cpu lk = Some j -> j = k) ->
  (lk_cpu lk = Some k \/ p = Got l \/ p = Clearing l -> locked lk <> 0) ->
  (p = Got l \/ p = Clearing l -> lk_cpu lk = None) ->
  Z.of_nat (marked lk) + busy p = Z.of_nat (marked (m_lock s l)) + busy (m_phase s k) ->
  minv (mkmachine (m_cpu s) (upd (m_phase s) k p) (upd (m_lock s) l lk)).
Proof.
  intros H Hp0 Hp Hi Hlk Hbit Hnone Hn.
  destruct (minv_lock s k l (m_cpu s k) p lk H (iv_cpu _ H k) Hp0 Hp Hi Hlk Hbit Hnone ltac:(lia)) as [V1 V2 V3 V4 V5].
  constructor; [exact V1|exact V2|exact V3|apply H|].
  intros j. specialize (V5 j). cbn in *. by rewrite upd_same in V5.
Qed.

Lemma got_alone s l k : minv s -> m_phase s k = Got l \/ m_phase s k = Clearing l -> forall j, inside s l j -> j = k.
Proof. intros H Hp j Hj. apply (iv_one _ H l); [done|by right]. Qed.

Lemma got_locked s l k : minv s -> m_phase s k = Got l \/ m_phase s k = Clearing l -> locked (m_lock s l) <> 0.
Proof. intros H Hp E. apply (iv_free _ H l k E). by right. Qed.

(** [xchg]: it takes a free lock, or changes nothing that matters. *)
Lemma xchg_inv k s l :
  minv s -> m_phase s k = Spinning l ->
  minv (mkmachine (m_cpu s) (upd (m_phase s) k (if locked (m_lock s l) =? 0 then Got l else Spinning l))
    (upd (m_lock s) l (mklock 1 (lk_cpu (m_lock s l))))).
Proof.
  intros H Hp. destruct (Z.eqb_spec (locked (m_lock s l)) 0) as [E|E].
  - assert (Hn : forall j, ~ inside s l j) by (intros j; by apply (iv_free _ H)).
    assert (Hc : lk_cpu (m_lock s l) = None).
    { destruct (lk_cpu (m_lock s l)) as [j|] eqn:Ej; [|done]. destruct (Hn j). by left. }
    apply minv_lock'; rewrite ?Hp, ?Hc; try done; try (apply only_phase; tauto).
    + intros j Hj. by destruct (Hn j).
    + unfold marked. cbn. by rewrite Hc.
  - (* the lock stays as it was, up to the value of a flag that is set *)
    destruct H as [Hfree Hone Hph Hcpu Hcount].
    assert (Hlk : forall l', lk_cpu (upd (m_lock s) l (mklock 1 (lk_cpu (m_lock s l))) l') = lk_cpu (m_lock s l')).
    { intros l'. unfold upd. by destruct (Nat.eqb_spec l' l) as [->|]. }
    assert (Hphase : forall j, upd (m_phase s) k (Spinning l) j = m_phase s j).
    { intros j. rewrite <- Hp. apply upd_same. }
    assert (Hin : forall l' j, inside (mkmachine (m_cpu s) (upd (m_phase s) k (Spinning l))
      (upd (m_lock s) l (mklock 1 (lk_cpu (m_lock s l))))) l' j <-> inside s l' j).
    { intros l' j. unfold inside. cbn. by rewrite Hlk, Hphase. }
    split.
    + intros l' j H0 H. rewrite Hin in H. cbn in H0. unfold upd in H0. destruct (Nat.eqb_spec l' l); [done|].
      by apply (Hfree l' j).
    + intros l' i j. rewrite !Hin. apply Hone.
    + intros l' j. cbn. rewrite Hphase, Hlk. apply Hph.
    + apply Hcpu.
    + intros j. cbn. destruct (Hcount j) as (held & H1 & H2 & H3). exists held. rewrite Hphase.
      split; [done|]. split; [|done]. intros l'. by rewrite Hlk.
Qed.

Lemma mstep_inv k s s' : minv s -> mstep k s s' -> minv s'.
Proof.
  intros H Hstep. pose proof (iv_cpu _ H k) as Hck.
  destruct Hstep as [s l c Hp E|s l old lk Hp E|s l Hp|s l c Hp E|s l Hp|s c Hp E|s b Hp Hn].
  - pose proof (acquire_test_eq k (m_lock s l) _ Hck) as Ht. destruct (holds k (m_lock s l)); [congruence|].
    destruct Ht as (b & Ht). rewrite Ht in E. injection E as <-. destruct Hck as [Hc0 _].
    apply minv_quiet; try (rewrite Hp; done); [done|split; [simpl; lia|done]|rewrite Hp; simpl; lia|done].
  - injection E as <- <-. by apply xchg_inv.
  - pose proof (or_introl Hp : m_phase s k = Got l \/ m_phase s k = Clearing l) as Hp'.
    apply minv_lock'; rewrite ?Hp; try done; try (apply only_phase; tauto).
    + by apply got_alone.
    + by intros j [= <-].
    + intros _. cbn. by apply (got_locked s l k).
    + by intros [?|?].
    + unfold marked. cbn. by rewrite (iv_phase _ H l k Hp').
  - pose proof (release_test_eq k (m_lock s l) _ Hck) as Ht.
    destruct (holds k (m_lock s l)) eqn:Eh; [|congruence]. destruct Ht as (b & Ht). rewrite Ht in E. injection E as <-.
    unfold holds in Eh. apply andb_true_iff in Eh as [Eb%negb_true_iff%Z.eqb_neq Eh].
    destruct (lk_cpu (m_lock s l)) as [j|] eqn:Ej; [|done]. apply Nat.eqb_eq in Eh as ->.
    apply minv_lock; rewrite ?Hp; try done; try (apply only_phase; tauto).
    + intros j Hj. apply (iv_one _ H l); [done|by left].
    + unfold marked. cbn. rewrite Ej. lia.
  - pose proof (or_intror Hp : m_phase s k = Got l \/ m_phase s k = Clearing l) as Hp'.
    pose proof (iv_phase _ H l k Hp') as Hnone.
    apply minv_lock'; rewrite ?Hp; unfold release_store; cbn [lk_cpu locked]; try done; try (apply only_phase; tauto).
    + by apply got_alone.
    + by rewrite Hnone.
    + rewrite Hnone. by intros [?|[?|?]].
  - destruct (busy_off s k H) as [Hn1 Hoff]; [by rewrite Hp|]. unfold popcli in E. rewrite Hoff in E.
    rewrite (proj2 (Z.ltb_ge _ _)) in E by lia. injection E as <-.
    apply minv_quiet; try (rewrite Hp; done); [done| |rewrite Hp; simpl; lia|done].
    split; [simpl; lia|]. simpl. intros Hz. by rewrite (proj2 (Z.eqb_neq _ _) Hz).
  - apply minv_quiet; try (rewrite Hp; done); [done|split; [simpl; lia|done]|rewrite Hp; simpl; lia|done].
Qed.

(** C18: spin locks give mutual exclusion: in every state that any number of CPUs
    reach by any interleaving of their steps through [acquire] and [release],
    at most one CPU is inside the critical section of a lock; it runs with
    interrupts off until its last release; it can release the lock without a
    panic, and acquiring panics only on a lock the CPU itself holds. *)
Theorem spin_mutex s :
  mreach boot_machine s ->
  (forall l j k, inside s l j -> inside s l k -> j = k) /\
  (forall l k, inside s l k -> iflag (m_cpu s k) = false /\ 1 <= ncli (m_cpu s k)) /\
  (forall l k, lk_cpu (m_lock s l) = Some k -> exists c, release_test k (m_lock s l) (m_cpu s k) = Ok (tt, c)) /\
  (forall l k, acquire_test k (m_lock s l) (m_cpu s k) = Panic "acquire" -> lk_cpu (m_lock s l) = Some k).
Proof.
  intros Hr. assert (H : minv s).
  { induction Hr as [|k t u _ IH Hst]; [apply boot_inv|by eapply mstep_inv]. }
  split; [apply (iv_one _ H)|]. split; [|split].
  - intros l k Hin. destruct (iv_count _ H k) as (held & _ & Hh & Hn). destruct (iv_cpu _ H k) as [_ Hf].
    assert (1 <= ncli (m_cpu s k)) as Hge.
    { destruct Hin as [Hin|Hin].
      - apply Hh in Hin. destruct held; [by apply not_elem_of_nil in Hin|]. simpl in Hn. destruct (m_phase s k); simpl in Hn; lia.
      - destruct (busy_off s k H) as [? _]; [by destruct Hin as [-> | ->]|done]. }
    split; [apply Hf; lia|done].
  - intros l k Hl. pose proof (release_test_eq k (m_lock s l) _ (iv_cpu _ H k)) as Ht. unfold holds in Ht.
    rewrite Hl, Nat.eqb_refl, (proj2 (Z.eqb_neq _ _)) in Ht; [destruct Ht as (b & ->); eauto|].
    intros E. apply (iv_free _ H l k E). by left.
  - intros l k E. pose proof (acquire_test_eq k (m_lock s l) _ (iv_cpu _ H k)) as Ht.
    destruct (holds k (m_lock s l)) eqn:Eh; [|destruct Ht as (b & Ht); congruence].
    unfold holds in Eh. apply andb_true_iff in Eh as [_ Eh].
    destruct (lk_cpu (m_lock s l)) as [i|]; [|done]. by apply Nat.eqb_eq in Eh as ->.
Qed.

(** CPU 0 takes lock 0 while CPU 1 spins on it. *)
Definition contended : machine :=
  mkmachine (upd (upd (fun _ => mkcpu 0 false false) 0 (mkcpu 1 false false)) 1 (mkcpu 1 false false))
    (upd (upd (upd (upd (upd (fun _ => Outside) 0 (Spinning 0)) 1 (Spinning 0)) 0 (Got 0)) 1 (Spinning 0)) 0 Outside)
    (upd (upd (upd (fun _ => initlock) 0 (mklock 1 None)) 0 (mklock 1 None)) 0 (mklock 1 (Some 0%nat))).

Lemma contended_reach : mreach boot_machine contended.
Proof.
  assert (Hin : forall k t u, mreach boot_machine t -> mstep k t u -> mreach boot_machine u) by (intros; by eapply mreach_step).
  pose proof (mreach_refl boot_machine) as H0.
  pose proof (Hin _ _ _ H0 (st_acquire 0 boot_machine 0 (mkcpu 1 false false) eq_refl eq_refl)) as H1.
  match type of H1 with mreach _ ?t =>
    pose proof (Hin _ _ _ H1 (st_acquire 1 t 0 (mkcpu 1 false false) eq_refl eq_refl)) as H2 end.
  match type of H2 with mreach _ ?t =>
    pose proof (Hin _ _ _ H2 (st_xchg 0 t 0 0 (mklock 1 None) eq_refl eq_refl)) as H3 end.
  match type of H3 with mreach _ ?t =>
    pose proof (Hin _ _ _ H3 (st_xchg 1 t 0 1 (mklock 1 None) eq_refl eq_refl)) as H4 end.
  match type of H4 with mreach _ ?t => exact (Hin _ _ _ H4 (st_mark 0 t 0 eq_refl)) end.
Qed.

Lemma spin_mutex_witness :
  mreach boot_machine contended /\ inside contended 0 0 /\ m_phase contended 1%nat = Spinning 0 /\
  iflag (m_cpu contended 0%nat) = false /\ (forall k, inside contended 0 k -> k = 0%nat).
Proof.
  destruct (spin_mutex contended contended_reach) as (H1 & H2 & _).
  assert (Hin : inside contended 0 0) by (left; reflexivity).
  split; [exact contended_reach|]. split; [exact Hin|]. split; [reflexivity|].
  split; [exact (proj1 (H2 0%nat 0%nat Hin))|]. intros k Hk. exact (H1 0%nat k 0%nat Hk Hin).
Defined.
