(* ===== verification/Mp.v ===== *)
(** * The multiprocessor tables: [mp.c]

    The tables the firmware leaves in memory: the floating pointer structure,
    searched for in three areas, and the configuration table it leads to, a header
    and a list of entries of different sizes.  [mpinit_entries] shows that [mpinit]
    takes from the table the processors in their order, as many as there is room
    for, and the last I/O APIC.  On an entry of an unknown type it does not get to
    its [panic] but goes round for ever ([mpinit_unknown]). *)

From Stdlib Require Import ZArith Lia String.
From stdpp Require Import base numbers list.
From S2P Require Import Prelude Bytes Params.

Local Open Scope Z_scope.
Local Open Scope kernel_scope.

(** ** The code *)

Definition NCPU : Z := 8.

(** Sizes of [struct mp], [struct mpconf], [struct mpproc] and [struct mpioapic]. *)
Definition MP_SIZE : Z := 16.
Definition MPCONF_SIZE : Z := 44.
Definition MPPROC_SIZE : Z := 20.
Definition MPIOAPIC_SIZE : Z := 8.

Definition MPPROC : Z := 0.
Definition MPBUS : Z := 1.
Definition MPIOAPIC : Z := 2.
Definition MPIOINTR : Z := 3.
Definition MPLINTR : Z := 4.

(** [sum]: the bytes added up as an [int], and the low byte of the result. *)
Fixpoint sum_bytes (m : mem) (addr : Z) (len : nat) (acc : Z) : Z :=
  match len with
  | O => acc
  | S len' => sum_bytes m (addr + 1) len' (s32 (acc + m addr))
  end.
Definition sum (m : mem) (addr len : Z) : Z := u8 (sum_bytes m addr (Z.to_nat len) 0).

Definition mp_sig : list Z := [95; 77; 80; 95].
Definition conf_sig : list Z := [80; 67; 77; 80].
Definition signed (m : mem) (p : Z) (sig : list Z) : bool := bool_decide (load m p 4 = sig).

Fixpoint mpsearch_from (m : mem) (n : nat) (p : Z) : option Z :=
  match n with
  | O => None
  | S n' => if signed m p mp_sig && (sum m p MP_SIZE =? 0) then Some p else mpsearch_from m n' (p + MP_SIZE)
  end.
Definition mpsearch1 (m : mem) (a len : Z) : option Z :=
  mpsearch_from m (Z.to_nat ((len + MP_SIZE - 1) / MP_SIZE)) (P2V a).

Definition mpsearch (m : mem) : option Z :=
  let bda := P2V 0x400 in
  let p := Z.shiftl (Z.lor (Z.shiftl (m (bda + 0x0F)) 8) (m (bda + 0x0E))) 4 in
  let first :=
    if negb (p =? 0) then mpsearch1 m p 1024
    else
      let p := Z.lor (Z.shiftl (m (bda + 0x14)) 8) (m (bda + 0x13)) * 1024 in
      mpsearch1 m (u32 (p - 1024)) 1024 in
  match first with
  | Some mp => Some mp
  | None => mpsearch1 m 0xF0000 0x10000
  end.

(** The floating pointer structure and the table. *)
Definition mpconfig (m : mem) : option (Z * Z) :=
  match mpsearch m with
  | None => None
  | Some mp =>
      let physaddr := get32 m (mp + 4) in
      if physaddr =? 0 then None else
      let conf := P2V physaddr in
      if negb (signed m conf conf_sig) then None else
      let version := m (conf + 6) in
      if negb (version =? 1) && negb (version =? 4) then None else
      if negb (sum m conf (get16 m (conf + 4)) =? 0) then None else
      Some (mp, conf)
  end.

(** The globals, and what is sent to the ports of the IMCR. *)
Record mpst : Type := mkmpst { ncpu : Z; apicids : list Z; ioapicid : Z; lapic : Z; ports : list (Z * Z) }.

(** The loop of [mpinit] over the entries from [p] to [e]: whether all were known. *)
Fixpoint mp_loop (m : mem) (fuel : nat) (p e : Z) (ismp : bool) : M mpst bool :=
  match fuel with
  | O => mnofuel
  | S fuel' =>
      if negb (p <? e) then mret ismp else
      let type := m p in
      if type =? MPPROC then
        mset (fun s => if ncpu s <? NCPU
                       then mkmpst (ncpu s + 1) (<[Z.to_nat (ncpu s) := m (p + 1)]> (apicids s)) (ioapicid s) (lapic s) (ports s)
                       else s) ;;!
        mp_loop m fuel' (p + MPPROC_SIZE) e ismp
      else if type =? MPIOAPIC then
        mset (fun s => mkmpst (ncpu s) (apicids s) (m (p + 1)) (lapic s) (ports s)) ;;!
        mp_loop m fuel' (p + MPIOAPIC_SIZE) e ismp
      else if (type =? MPBUS) || (type =? MPIOINTR) || (type =? MPLINTR) then mp_loop m fuel' (p + 8) e ismp
      else mp_loop m fuel' p e false
  end.

(** [mpinit]; [imcr] is what port 0x23 reads. *)
Definition mpinit (m : mem) (imcr : Z) : M mpst unit :=
  match mpconfig m with
  | None => mpanic "Expect to run on an SMP"
  | Some (mp, conf) =>
      mset (fun s => mkmpst (ncpu s) (apicids s) (ioapicid s) (get32 m (conf + 36)) (ports s)) ;;!
      let len := get16 m (conf + 4) in
      let! ismp := mp_loop m (S (Z.to_nat len)) (conf + MPCONF_SIZE) (conf + len) true in
      if negb ismp then mpanic "Didn't find a suitable machine" else
      mwhen (negb (m (mp + 12) =? 0))
        (mset (fun s => mkmpst (ncpu s) (apicids s) (ioapicid s) (lapic s) (ports s ++ [(0x22, 0x70); (0x23, Z.lor imcr 1)])))
  end.

(** ** The entries of a table *)

Inductive mpentry : Type :=
| MProc (apicid : Z) (rest : list Z)
| MIoapic (apicno : Z) (rest : list Z)
| MOther (type : Z) (rest : list Z).

Definition encode (e : mpentry) : list Z :=
  match e with
  | MProc apicid rest => MPPROC :: apicid :: rest
  | MIoapic apicno rest => MPIOAPIC :: apicno :: rest
  | MOther type rest => type :: rest
  end.
Definition mpentry_ok (e : mpentry) : Prop :=
  match e with
  | MProc _ rest => length rest = 18%nat
  | MIoapic _ rest => length rest = 6%nat
  | MOther type rest => (type = MPBUS \/ type = MPIOINTR \/ type = MPLINTR) /\ length rest = 7%nat
  end.

Definition processors (es : list mpentry) : list Z := omap (fun e => match e with MProc a _ => Some a | _ => None end) es.
Definition ioapics (es : list mpentry) : list Z := omap (fun e => match e with MIoapic a _ => Some a | _ => None end) es.

(** The globals after the entries [es]. *)
Definition after (es : list mpentry) (s : mpst) : mpst :=
  mkmpst (Z.min NCPU (ncpu s + Z.of_nat (length (processors es))))
    (take (Z.to_nat (ncpu s)) (apicids s) ++ take (Z.to_nat (NCPU - ncpu s)) (processors es) ++
     drop (Z.to_nat (Z.min NCPU (ncpu s + Z.of_nat (length (processors es))))) (apicids s))
    (List.last (ioapics es) (ioapicid s)) (lapic s) (ports s).

Lemma after_proc a rest es s :
  0 <= ncpu s <= NCPU -> length (apicids s) = Z.to_nat NCPU ->
  after (MProc a rest :: es) s =
  after es (if ncpu s <? NCPU
            then mkmpst (ncpu s + 1) (<[Z.to_nat (ncpu s) := a]> (apicids s)) (ioapicid s) (lapic s) (ports s) else s).
Proof.
  intros Hn Hl. unfold after. change (processors (MProc a rest :: es)) with (a :: processors es).
  change (ioapics (MProc a rest :: es)) with (ioapics es). unfold NCPU in *. destruct (Z.ltb_spec (ncpu s) 8) as [Hlt|Hge].
  - cbn [ncpu apicids ioapicid lapic ports length].
    replace (Z.min 8 (ncpu s + 1 + Z.of_nat (length (processors es)))) with (Z.min 8 (ncpu s + Z.of_nat (S (length (processors es))))) by lia.
    f_equal. replace (Z.to_nat (ncpu s + 1)) with (S (Z.to_nat (ncpu s))) by lia.
    rewrite (take_S_r _ _ a) by (apply list_lookup_insert_eq; lia). rewrite take_insert_ge by lia. rewrite <- app_assoc.
    replace (Z.to_nat (8 - ncpu s)) with (S (Z.to_nat (8 - (ncpu s + 1)))) by lia. cbn [take app].
    rewrite (drop_insert_lt (apicids s)) by lia. done.
  - replace (ncpu s) with 8 by lia. cbn [length]. replace (Z.min 8 (8 + Z.of_nat (length (processors es)))) with 8 by lia.
    replace (Z.min 8 (8 + Z.of_nat (S (length (processors es))))) with 8 by lia. done.
Qed.

Lemma after_ioapic a rest es s :
  after (MIoapic a rest :: es) s = after es (mkmpst (ncpu s) (apicids s) a (lapic s) (ports s)).
Proof.
  unfold after. change (processors (MIoapic a rest :: es)) with (processors es). change (ioapics (MIoapic a rest :: es)) with (a :: ioapics es).
  cbn [ncpu apicids ioapicid lapic ports]. f_equal. destruct (ioapics es) as [|b l] eqn:E; [done|]. rewrite <- E.
  cbn [List.last]. rewrite E. clear E. revert b. induction l as [|c l IH]; intros b; [done|]. apply IH.
Qed.

Lemma after_other t rest es s : after (MOther t rest :: es) s = after es s.
Proof. reflexivity. Qed.

Lemma encode_length e : mpentry_ok e -> length (encode e) = match e with MProc _ _ => 20%nat | _ => 8%nat end.
Proof. destruct e; cbn; intros H; [by rewrite H|by rewrite H|destruct H as [_ H]; by rewrite H]. Qed.

Lemma mp_loop_ok m es : forall fuel p s,
  Forall mpentry_ok es -> load m p (length (concat (encode <$> es))) = concat (encode <$> es) ->
  (length es < fuel)%nat -> 0 <= ncpu s <= NCPU -> length (apicids s) = Z.to_nat NCPU ->
  mp_loop m fuel p (p + Z.of_nat (length (concat (encode <$> es)))) true s = Ok (true, after es s).
Proof.
  induction es as [|e es IH]; intros fuel p s Hok Hld Hf Hn Hl; (destruct fuel as [|fuel]; [cbn in Hf; lia|]); cbn [mp_loop].
  - cbn. rewrite Z.add_0_r, Z.ltb_irrefl. cbn. unfold after. cbn. unfold mret. do 2 f_equal. destruct s; cbn in *. f_equal; [lia|].
    rewrite take_nil. cbn. rewrite <- (take_drop (Z.to_nat ncpu0) apicids0) at 1. do 2 f_equal. lia.
  - apply Forall_cons in Hok as [He Hes]. rewrite fmap_cons in *. cbn [concat] in *. rewrite length_app in *.
    pose proof (encode_length e He) as Hlen. rewrite load_app in Hld. apply app_inj_1 in Hld as [Hld Hrest]; [|by rewrite length_load].
    rewrite Hlen in *. cbn [length] in Hf.
    assert (H01 : m p = nth 0 (encode e) 0 /\ m (p + 1) = nth 1 (encode e) 0).
    { rewrite <- Hld. destruct e; cbn; done. }
    destruct H01 as [H0 H1]. rewrite (proj2 (Z.ltb_lt _ _)) by (destruct e; lia). cbn [negb]. destruct e as [a rest|a rest|t rest]; cbn [encode nth] in *.
    + rewrite H0. change (MPPROC =? MPPROC) with true. cbv iota. mgo. rewrite H1, after_proc by done.
      replace (p + Z.of_nat (20 + length (concat (encode <$> es)))) with (p + MPPROC_SIZE + Z.of_nat (length (concat (encode <$> es)))) by (unfold MPPROC_SIZE; lia).
      apply IH; try done; [lia|destruct (Z.ltb_spec (ncpu s) NCPU); cbn; unfold NCPU in *; lia|]. destruct (ncpu s <? NCPU); cbn; [by rewrite length_insert|done].
    + rewrite H0. change (MPIOAPIC =? MPPROC) with false. change (MPIOAPIC =? MPIOAPIC) with true. cbv iota. mgo. rewrite H1, after_ioapic.
      replace (p + Z.of_nat (8 + length (concat (encode <$> es)))) with (p + MPIOAPIC_SIZE + Z.of_nat (length (concat (encode <$> es)))) by (unfold MPIOAPIC_SIZE; lia).
      apply IH; try done. lia.
    + rewrite H0, after_other.
      replace (p + Z.of_nat (8 + length (concat (encode <$> es)))) with (p + 8 + Z.of_nat (length (concat (encode <$> es)))) by lia.
      destruct He as [Ht _]. replace (t =? MPPROC) with false by (unfold MPPROC, MPBUS, MPIOINTR, MPLINTR in *; lia).
      replace (t =? MPIOAPIC) with false by (unfold MPIOAPIC, MPBUS, MPIOINTR, MPLINTR in *; lia).
      replace ((t =? MPBUS) || (t =? MPIOINTR) || (t =? MPLINTR)) with true by (unfold MPBUS, MPIOINTR, MPLINTR in *; lia).
      apply IH; try done. lia.
Qed.

(** An entry of an unknown type is not passed. *)
Lemma mp_loop_unknown m p e : forall fuel b s, p < e -> 4 < m p -> mp_loop m fuel p e b s = NoFuel.
Proof.
  induction fuel as [|fuel IH]; intros b s Hp Hm; [done|]. cbn [mp_loop]. rewrite (proj2 (Z.ltb_lt _ _) Hp). cbn [negb].
  replace (m p =? MPPROC) with false by (unfold MPPROC; lia). replace (m p =? MPIOAPIC) with false by (unfold MPIOAPIC; lia).
  replace ((m p =? MPBUS) || (m p =? MPIOINTR) || (m p =? MPLINTR)) with false by (unfold MPBUS, MPIOINTR, MPLINTR; lia). by apply IH.
Qed.

(** Only structures with the right signature and checksum are used. *)
Lemma mpsearch_from_valid m n : forall p q, mpsearch_from m n p = Some q -> load m q 4 = mp_sig /\ sum m q MP_SIZE = 0.
Proof.
  induction n as [|n IH]; intros p q; cbn [mpsearch_from]; [done|]. destruct (signed m p mp_sig && (sum m p MP_SIZE =? 0)) eqn:E; [|apply IH].
  intros [= <-]. apply andb_true_iff in E as [E1 E2]. apply bool_decide_eq_true in E1. split; [done|lia].
Qed.

Lemma mpsearch1_valid m a len q : mpsearch1 m a len = Some q -> load m q 4 = mp_sig /\ sum m q MP_SIZE = 0.
Proof. apply mpsearch_from_valid. Qed.

Lemma mpsearch_valid m q : mpsearch m = Some q -> load m q 4 = mp_sig /\ sum m q MP_SIZE = 0.
Proof.
  unfold mpsearch. set (first := if negb _ then _ else _).
  assert (Hf : forall r, first = Some r -> load m r 4 = mp_sig /\ sum m r MP_SIZE = 0).
  { intros r. unfold first. destruct (negb _); apply mpsearch1_valid. }
  destruct first as [r|]; [intros [= <-]; by apply Hf|apply mpsearch1_valid].
Qed.

Lemma mpconfig_valid m mp conf :
  mpconfig m = Some (mp, conf) ->
  load m mp 4 = mp_sig /\ sum m mp MP_SIZE = 0 /\ load m conf 4 = conf_sig /\ sum m conf (get16 m (conf + 4)) = 0.
Proof.
  unfold mpconfig. destruct (mpsearch m) as [mp'|] eqn:E; [|done]. destruct (get32 m (mp' + 4) =? 0); [done|].
  set (c := P2V _). destruct (signed m c conf_sig) eqn:E1; [|done]. cbn [negb]. destruct (negb (m (c + 6) =? 1) && _); [done|].
  destruct (Z.eqb_spec (sum m c (get16 m (c + 4))) 0) as [E2|]; [|done]. intros [= <- <-]. apply bool_decide_eq_true in E1.
  destruct (mpsearch_valid m mp' E) as [? ?]. done.
Qed.

(** C27: mpinit takes from a configuration table with the right signatures and
    checksums exactly what it lists: the identifiers of the first [NCPU]
    processors in their order, the last I/O APIC, and the address of the local
    APIC, whatever entries of other types are in between. *)
Theorem mpinit_entries m imcr es mp conf io la pts :
  mpconfig m = Some (mp, conf) -> Forall mpentry_ok es ->
  get16 m (conf + 4) = MPCONF_SIZE + Z.of_nat (length (concat (encode <$> es))) ->
  load m (conf + MPCONF_SIZE) (length (concat (encode <$> es))) = concat (encode <$> es) ->
  exists s', mpinit m imcr (mkmpst 0 (replicate (Z.to_nat NCPU) 0) io la pts) = Ok (tt, s') /\
    load m mp 4 = mp_sig /\ sum m mp MP_SIZE = 0 /\ load m conf 4 = conf_sig /\ sum m conf (get16 m (conf + 4)) = 0 /\
    ncpu s' = Z.min NCPU (Z.of_nat (length (processors es))) /\
    take (Z.to_nat (ncpu s')) (apicids s') = take (Z.to_nat NCPU) (processors es) /\
    ioapicid s' = List.last (ioapics es) io /\ lapic s' = get32 m (conf + 36) /\
    ports s' = pts ++ (if m (mp + 12) =? 0 then [] else [(0x22, 0x70); (0x23, Z.lor imcr 1)]).
Proof.
  intros Hc Hes Hlen Hld. destruct (mpconfig_valid m mp conf Hc) as (V1 & V2 & V3 & V4). rewrite Hlen in V4. unfold mpinit. rewrite Hc. mgo. cbn [ncpu apicids ioapicid lapic ports].
  set (s1 := mkmpst 0 _ _ _ _). rewrite Hlen. rewrite Z.add_assoc.
  assert (Hcnt : (length es <= length (concat (encode <$> es)))%nat).
  { clear - Hes. induction Hes as [|e es He Hes IH]; [done|]. rewrite fmap_cons. cbn [concat length]. rewrite length_app, (encode_length e He).
    destruct e; lia. }
  mby (mp_loop_ok m es (S (Z.to_nat (MPCONF_SIZE + Z.of_nat (length (concat (encode <$> es)))))) (conf + MPCONF_SIZE) s1 Hes Hld
    ltac:(unfold MPCONF_SIZE; lia) ltac:(done) ltac:(done)). cbn [negb].
  assert (Htake : take (Z.to_nat (ncpu (after es s1))) (apicids (after es s1)) = take (Z.to_nat NCPU) (processors es)).
  { unfold after. cbn [ncpu apicids s1]. rewrite Z.sub_0_r. change (Z.to_nat 0) with O. rewrite take_0, app_nil_l.
    rewrite take_app_le by (rewrite length_take; unfold NCPU; lia). apply take_ge. rewrite length_take. unfold NCPU. lia. }
  destruct (m (mp + 12) =? 0); cbn [negb mwhen].
  - exists (after es s1). rewrite app_nil_r. split_and!; try done.
  - eexists. split; [reflexivity|]. split_and!; try done.
Qed.

(** A machine with one processor, a bus and an I/O APIC. *)
Definition one_cpu : mem :=
  store (store (fun _ => 0) (P2V 0xF0000) [95; 77; 80; 95; 0; 1; 15; 0; 1; 4; 16; 0; 128; 0; 0; 0])
    (P2V 0xF0100) ([80; 67; 77; 80; 80; 0; 4; 147] ++ replicate 28 0 ++ [0; 0; 224; 254; 0; 0; 0; 0] ++
                   (0 :: 3 :: replicate 18 0) ++ (1 :: replicate 7 0) ++ (2 :: 5 :: replicate 6 0)).

Lemma mpinit_entries_witness :
  exists s', mpinit one_cpu 2 (mkmpst 0 (replicate (Z.to_nat NCPU) 0) 0 0 []) = Ok (tt, s') /\
    ncpu s' = 1 /\ take (Z.to_nat (ncpu s')) (apicids s') = [3] /\ ioapicid s' = 5 /\ lapic s' = 0xFEE00000 /\
    ports s' = [(0x22, 0x70); (0x23, 3)].
Proof.
  destruct (mpinit_entries one_cpu 2 [MProc 3 (replicate 18 0); MOther 1 (replicate 7 0); MIoapic 5 (replicate 6 0)]
    (P2V 0xF0000) (P2V 0xF0100) 0 0 []) as (s' & R & _ & _ & _ & _ & H1 & H2 & H3 & H4 & H5).
  - vm_compute. reflexivity.
  - repeat constructor.
  - vm_compute. reflexivity.
  - vm_compute. reflexivity.
  - exists s'. split_and!; [exact R|exact H1|exact H2|exact H3|rewrite H4; vm_compute; reflexivity|rewrite H5; vm_compute; reflexivity].
Defined.

(** With an entry of an unknown type [mpinit] does not return, and does not panic. *)
Lemma mpinit_unknown m imcr mp conf s :
  mpconfig m = Some (mp, conf) -> MPCONF_SIZE < get16 m (conf + 4) -> 4 < m (conf + MPCONF_SIZE) ->
  mpinit m imcr s = NoFuel /\ forall fuel b s', mp_loop m fuel (conf + MPCONF_SIZE) (conf + get16 m (conf + 4)) b s' = NoFuel.
Proof.
  intros Hc Hl Ht. assert (Hloop : forall fuel b s', mp_loop m fuel (conf + MPCONF_SIZE) (conf + get16 m (conf + 4)) b s' = NoFuel).
  { intros. apply mp_loop_unknown; [lia|done]. }
  split; [|done]. unfold mpinit. rewrite Hc. mgo. unfold mbind. by rewrite Hloop.
Qed.
