(* ===== verification/Entry.v ===== *)
(** * Into the kernel and back: descriptors, trap entry and context switch

    The tables of a CPU ([mmu.h], [seginit], [switchuvm] and [switchkvm] of vm.c,
    [tvinit] and [idtinit] of trap.c), the entry points vectors.pl writes,
    trapasm.S, swtch.S and the stubs of usys.S.

    The assembly is translated instruction by instruction on the registers of a
    CPU and the kernel's memory; [interrupt] is what the processor does when an
    interrupt is delivered or [int] executed, and [iret] how it returns.
    [trap_entry] and [trapret_restores] are the two halves of a trap;
    [fork_returns_twice] follows [fork] from the [int] of the parent to the first
    instruction of the child in user mode. *)

From Stdlib Require Import ZArith Lia String.
From stdpp Require Import base numbers functions sets list.
From S2P Require Import Prelude Bytes Params Kalloc Vm VmSpace Proc ProcInv ProcFork.

Local Open Scope Z_scope.
Local Open Scope kernel_scope.

(** ** Descriptors: [mmu.h] *)

Definition SEG_KCODE : Z := 1.
Definition SEG_KDATA : Z := 2.
Definition SEG_TSS : Z := 5.
Definition NSEGS : nat := 6.
Definition STA_X : Z := 0x8.
Definition STA_W : Z := 0x2.
Definition STA_R : Z := 0x2.
Definition STS_T32A : Z := 0x9.
Definition STS_IG32 : Z := 0xE.
Definition STS_TG32 : Z := 0xF.

Record segdesc := mksegdesc {
  lim_15_0 : Z; base_15_0 : Z; base_23_16 : Z; sd_type : Z; sd_s : Z; sd_dpl : Z; sd_p : Z;
  lim_19_16 : Z; sd_avl : Z; sd_rsv1 : Z; sd_db : Z; sd_g : Z; base_31_24 : Z
}.

Definition SEG (type base lim dpl : Z) : segdesc :=
  mksegdesc (Z.land (Z.shiftr lim 12) 0xffff) (Z.land base 0xffff) (Z.land (Z.shiftr base 16) 0xff)
    type 1 dpl 1 (Z.shiftr lim 28) 0 0 1 1 (Z.shiftr base 24).
Definition SEG16 (type base lim dpl : Z) : segdesc :=
  mksegdesc (Z.land lim 0xffff) (Z.land base 0xffff) (Z.land (Z.shiftr base 16) 0xff)
    type 1 dpl 1 (Z.shiftr lim 16) 0 0 1 0 (Z.shiftr base 24).
Definition set_sd_s (v : Z) (d : segdesc) : segdesc :=
  mksegdesc (lim_15_0 d) (base_15_0 d) (base_23_16 d) (sd_type d) v (sd_dpl d) (sd_p d)
    (lim_19_16 d) (sd_avl d) (sd_rsv1 d) (sd_db d) (sd_g d) (base_31_24 d).

(** The base and the last byte the processor puts together from the fields. *)
Definition seg_base (d : segdesc) : Z :=
  base_15_0 d + Z.shiftl (base_23_16 d) 16 + Z.shiftl (base_31_24 d) 24.
Definition seg_limit (d : segdesc) : Z :=
  let l := lim_15_0 d + Z.shiftl (lim_19_16 d) 16 in
  if sd_g d =? 1 then Z.shiftl l 12 + 0xfff else l.

Record gatedesc := mkgatedesc {
  off_15_0 : Z; gd_cs : Z; gd_args : Z; gd_rsv1 : Z; gd_type : Z; gd_s : Z; gd_dpl : Z; gd_p : Z; off_31_16 : Z
}.

Definition SETGATE (istrap : bool) (sel off d : Z) : gatedesc :=
  mkgatedesc (Z.land off 0xffff) sel 0 0 (if istrap then STS_TG32 else STS_IG32) 0 d 1 (Z.shiftr off 16).

Definition gate_off (g : gatedesc) : Z := off_15_0 g + Z.shiftl (off_31_16 g) 16.

(** ** The tables of a CPU *)

(** The fields of [struct taskstate] the kernel sets. *)
Record taskstate := mkts { ts_esp0 : Z; ts_ss0 : Z; ts_iomb : Z }.

(** [struct cpu] as far as it concerns the processor, with the registers
    [lgdt], [lidt], [ltr] and [lcr3] load.  [c_addr] is where it is in memory. *)
Record percpu := mkpercpu {
  c_addr : Z;
  c_gdt : list segdesc;
  c_ts : taskstate;
  r_gdtr : Z * Z;
  r_idtr : Z * Z;
  r_tr : Z;
  r_cr3 : Z
}.

Definition set_c_gdt (v : list segdesc) (c : percpu) : percpu :=
  mkpercpu (c_addr c) v (c_ts c) (r_gdtr c) (r_idtr c) (r_tr c) (r_cr3 c).
Definition set_c_ts (v : taskstate) (c : percpu) : percpu :=
  mkpercpu (c_addr c) (c_gdt c) v (r_gdtr c) (r_idtr c) (r_tr c) (r_cr3 c).
Definition set_r_gdtr (v : Z * Z) (c : percpu) : percpu :=
  mkpercpu (c_addr c) (c_gdt c) (c_ts c) v (r_idtr c) (r_tr c) (r_cr3 c).
Definition set_r_idtr (v : Z * Z) (c : percpu) : percpu :=
  mkpercpu (c_addr c) (c_gdt c) (c_ts c) (r_gdtr c) v (r_tr c) (r_cr3 c).
Definition set_r_tr (v : Z) (c : percpu) : percpu :=
  mkpercpu (c_addr c) (c_gdt c) (c_ts c) (r_gdtr c) (r_idtr c) v (r_cr3 c).
Definition set_r_cr3 (v : Z) (c : percpu) : percpu :=
  mkpercpu (c_addr c) (c_gdt c) (c_ts c) (r_gdtr c) (r_idtr c) (r_tr c) v.

(** The six bytes [lgdt] and [lidt] hand to the processor: limit and base. *)
Definition table_reg (p size : Z) : Z * Z :=
  let pd0 := u16 (size - 1) in
  let pd1 := u16 p in
  let pd2 := u16 (Z.shiftr p 16) in
  (pd0, pd1 + Z.shiftl pd2 16).
Definition lgdt (p size : Z) : M percpu unit := mset (set_r_gdtr (table_reg p size)).
Definition lidt (p size : Z) : M percpu unit := mset (set_r_idtr (table_reg p size)).
Definition ltr (sel : Z) : M percpu unit := mset (set_r_tr sel).
Definition lcr3 (v : Z) : M percpu unit := mset (set_r_cr3 v).

Definition set_seg (i : Z) (d : segdesc) : M percpu unit :=
  mset (fun c => set_c_gdt (<[Z.to_nat i := d]> (c_gdt c)) c).

(** Offsets of [ts] and [gdt] in [struct cpu], and the size of a TSS. *)
Definition CPU_TS : Z := 8.
Definition TS_SIZE : Z := 104.
Definition CPU_GDT : Z := CPU_TS + TS_SIZE.

Definition seginit : M percpu unit :=
  set_seg SEG_KCODE (SEG (Z.lor STA_X STA_R) 0 0xffffffff 0) ;;!
  set_seg SEG_KDATA (SEG STA_W 0 0xffffffff 0) ;;!
  set_seg SEG_UCODE (SEG (Z.lor STA_X STA_R) 0 0xffffffff DPL_USER) ;;!
  set_seg SEG_UDATA (SEG STA_W 0 0xffffffff DPL_USER) ;;!
  let! a := mget c_addr in
  lgdt (a + CPU_GDT) (8 * Z.of_nat NSEGS).

Definition switchkvm (kpgdir : Z) : M percpu unit := lcr3 (V2P kpgdir).

(** [p] is [None] for the null pointer. *)
Definition switchuvm (p : option proc) : M percpu unit :=
  match p with
  | None => mpanic "switchuvm: no process"
  | Some p =>
      if p_kstack p =? 0 then mpanic "switchuvm: no kstack" else
      if p_pgdir p =? 0 then mpanic "switchuvm: no pgdir" else
      let! a := mget c_addr in
      set_seg SEG_TSS (SEG16 STS_T32A (a + CPU_TS) (TS_SIZE - 1) 0) ;;!
      mset (fun c => set_c_gdt (alter (set_sd_s 0) (Z.to_nat SEG_TSS) (c_gdt c)) c) ;;!
      mset (fun c => set_c_ts (mkts (ts_esp0 (c_ts c)) (Z.shiftl SEG_KDATA 3) (ts_iomb (c_ts c))) c) ;;!
      mset (fun c => set_c_ts (mkts (u32 (p_kstack p + KSTACKSIZE)) (ts_ss0 (c_ts c)) (ts_iomb (c_ts c))) c) ;;!
      mset (fun c => set_c_ts (mkts (ts_esp0 (c_ts c)) (ts_ss0 (c_ts c)) 0xFFFF) c) ;;!
      ltr (Z.shiftl SEG_TSS 3) ;;!
      lcr3 (V2P (p_pgdir p))
  end.

(** [vectors] is the table of entry addresses in vectors.S; the initialisation of
    [tickslock] is that of [Spin.initlock]. *)
Definition vector_at (vectors : list Z) (i : Z) : M (list gatedesc) Z :=
  match vectors !! Z.to_nat i with Some v => mret v | None => mundef end.
Definition tvinit (vectors : list Z) : M (list gatedesc) unit :=
  for_ 256 0 (fun i =>
    let! v := vector_at vectors i in
    mset (insert (Z.to_nat i) (SETGATE false (Z.shiftl SEG_KCODE 3) v 0))) ;;!
  let! v := vector_at vectors T_SYSCALL in
  mset (insert (Z.to_nat T_SYSCALL) (SETGATE true (Z.shiftl SEG_KCODE 3) v DPL_USER)).
Definition idtinit (idt_addr : Z) : M percpu unit := lidt idt_addr (8 * 256).

(** ** The processor *)

Inductive reg := EAX | ECX | EDX | EBX | ESP | EBP | ESI | EDI | DS | ES | FS | GS | SS | CS | EIP | EFLAGS.

#[export] Instance reg_eq_dec : EqDecision reg.
Proof. solve_decision. Defined.

Definition is_seg (r : reg) : bool :=
  match r with DS | ES | FS | GS | SS | CS => true | _ => false end.

(** Registers and the memory of the kernel. *)
Record hw := mkhw { rg : reg -> Z; hmem : mem }.

Definition getr (r : reg) : M hw Z := mget (fun h => rg h r).
Definition setr (r : reg) (v : Z) : M hw unit := mset (fun h => mkhw (<[r := v]> (rg h)) (hmem h)).

(** What a register keeps of a word loaded into it. *)
Definition fit (r : reg) (v : Z) : Z := if is_seg r then u16 v else v.

Definition movl (r : reg) (v : Z) : M hw unit := setr r (u32 v).
Definition load_word (a : Z) : M hw Z := mget (fun h => get32 (hmem h) (u32 a)).
Definition store_word (a v : Z) : M hw unit := mset (fun h => mkhw (rg h) (put32 (hmem h) (u32 a) v)).

Definition push (v : Z) : M hw unit :=
  let! sp := getr ESP in
  setr ESP (u32 (sp - 4)) ;;!
  store_word (sp - 4) v.
Definition pushl (r : reg) : M hw unit := let! v := getr r in push v.
Definition pop : M hw Z :=
  let! sp := getr ESP in
  let! v := load_word sp in
  setr ESP (u32 (sp + 4)) ;;!
  mret v.
Definition popl (r : reg) : M hw unit := let! v := pop in setr r (fit r v).
Definition addl_esp (n : Z) : M hw unit := let! sp := getr ESP in setr ESP (u32 (sp + n)).
Definition ret : M hw unit := popl EIP.

Definition pushal : M hw unit :=
  let! temp := getr ESP in
  pushl EAX ;;! pushl ECX ;;! pushl EDX ;;! pushl EBX ;;! push temp ;;! pushl EBP ;;! pushl ESI ;;! pushl EDI.
Definition popal : M hw unit :=
  popl EDI ;;! popl ESI ;;! popl EBP ;;! addl_esp 4 ;;! popl EBX ;;! popl EDX ;;! popl ECX ;;! popl EAX.

(** The privilege level of a selector. *)
Definition rpl (sel : Z) : Z := Z.land sel 3.

(** Exceptions for which the processor pushes an error code. *)
Definition has_err (n : Z) : bool := (n =? 8) || (10 <=? n) && (n <=? 14) || (n =? 17).

(** The flags after a gate: the processor clears TF, NT, RF and VM, and through an
    interrupt gate FL_IF as well. *)
Definition FL_TRAP : Z := Z.lor (Z.lor 0x100 0x4000) (Z.lor 0x10000 0x20000).
Definition gate_flags (ig : bool) (fl : Z) : Z :=
  let fl := Z.land fl (Z.lnot FL_TRAP) in
  if ig then Z.land fl (Z.lnot FL_IF) else fl.

(** Interrupt [n], requested by hardware, raised as an exception with the error
    code [err], or by the instruction [int].  The result says whether it was
    delivered: [int] needs a gate the current privilege level may use. *)
Inductive source := External | Exception (err : Z) | Instruction.

Definition interrupt (idt : list gatedesc) (c : percpu) (n : Z) (src : source) : M hw bool :=
  match idt !! Z.to_nat n with
  | None => mundef
  | Some g =>
      let! cs := getr CS in
      if match src with Instruction => gd_dpl g <? rpl cs | _ => false end then mret false else
      match c_gdt c !! Z.to_nat (Z.shiftr (gd_cs g) 3) with
      | None => mundef
      | Some code =>
          let! ss := getr SS in
          let! esp := getr ESP in
          mwhen (sd_dpl code <? rpl cs)
            (setr SS (ts_ss0 (c_ts c)) ;;! setr ESP (ts_esp0 (c_ts c)) ;;! push ss ;;! push esp) ;;!
          pushl EFLAGS ;;!
          push cs ;;!
          pushl EIP ;;!
          match src with Exception err => mwhen (has_err n) (push err) | _ => mret tt end ;;!
          let! fl := getr EFLAGS in
          setr EFLAGS (gate_flags (gd_type g =? STS_IG32) fl) ;;!
          setr CS (gd_cs g) ;;!
          setr EIP (gate_off g) ;;!
          mret true
      end
  end.

Definition iret : M hw unit :=
  let! cs := getr CS in
  popl EIP ;;! popl CS ;;! popl EFLAGS ;;!
  let! cs' := getr CS in
  mwhen (rpl cs <? rpl cs')
    (let! esp := pop in
     let! ss := pop in
     setr ESP esp ;;! setr SS (fit SS ss)).

(** ** The assembly of the kernel *)

(** The code vectors.pl writes at [vector$i], up to the jump to [alltraps]. *)
Definition vector (i : Z) : M hw unit :=
  mwhen (negb ((i =? 8) || ((i >=? 10) && (i <=? 14)) || (i =? 17))) (push 0) ;;!
  push i.

(** [alltraps] up to the call of [trap], whose argument is pushed last. *)
Definition alltraps : M hw unit :=
  pushl DS ;;!
  pushl ES ;;!
  pushl FS ;;!
  pushl GS ;;!
  pushal ;;!
  let! eax := getr EAX in
  setr EAX (Z.lor (Z.land eax 0xffff0000) (Z.shiftl SEG_KDATA 3)) ;;!
  let! eax := getr EAX in
  setr DS (u16 eax) ;;!
  setr ES (u16 eax) ;;!
  pushl ESP.

(** What follows when [trap] has returned, and where a new process begins. *)
Definition after_trap : M hw unit := addl_esp 4.
Definition trapret : M hw unit :=
  popal ;;!
  popl GS ;;!
  popl FS ;;!
  popl ES ;;!
  popl DS ;;!
  addl_esp 8 ;;!
  iret.

(** [swtch(old, new)], its arguments on the stack above the return address. *)
Definition swtch : M hw unit :=
  let! sp := getr ESP in
  let! a := load_word (sp + 4) in
  movl EAX a ;;!
  let! d := load_word (sp + 8) in
  movl EDX d ;;!
  pushl EBP ;;!
  pushl EBX ;;!
  pushl ESI ;;!
  pushl EDI ;;!
  let! old := getr EAX in
  let! sp := getr ESP in
  store_word old sp ;;!
  let! new := getr EDX in
  setr ESP new ;;!
  popl EDI ;;!
  popl ESI ;;!
  popl EBX ;;!
  popl EBP ;;!
  ret.

(** The stub of system call [num] up to the kernel: [call] has pushed the return
    address; [eip] is that of the [ret] after the [int]. *)
Definition SYSCALL (idt : list gatedesc) (c : percpu) (num eip : Z) : M hw bool :=
  movl EAX num ;;!
  setr EIP eip ;;!
  interrupt idt c T_SYSCALL Instruction.

(** ** Words on a stack *)

(** [w] stored at [a], and a list of words from [a] up. *)
Definition word_at (m : mem) (a w : Z) : Prop := forall j, 0 <= j < 4 -> m (a + j) = u8 (Z.shiftr w (8 * j)).
Definition words_at (m : mem) (a : Z) (ws : list Z) : Prop :=
  forall k w, ws !! k = Some w -> word_at m (a + 4 * Z.of_nat k) w.

Lemma word_at_put m a w : word_at (put32 m a w) a w.
Proof.
  intros j Hj. unfold put32. assert (j = 0 \/ j = 1 \/ j = 2 \/ j = 3) as [?|[?|[?|?]]] by lia; subst j;
    rewrite ?Z.add_0_r; put8_solve; done.
Qed.

Lemma word_at_get32 m a w : word_at m a w -> is_u32 w -> get32 m a = w.
Proof.
  intros H Hw. unfold get32. pose proof (H 0 ltac:(lia)) as H0. rewrite Z.add_0_r in H0.
  rewrite H0, (H 1), (H 2), (H 3) by lia. by apply shiftr_bytes.
Qed.

Lemma word_at_get16 m a w : word_at m a w -> get16 m a = u16 w.
Proof.
  intros H. unfold get16. pose proof (H 0 ltac:(lia)) as H0. rewrite Z.add_0_r in H0.
  rewrite H0, (H 1) by lia. unfold u8, u16. change (8 * 0) with 0. change (8 * 1) with 8.
  rewrite Z.shiftr_0_r, Z.shiftr_div_pow2 by lia. zlia.
Qed.

Lemma word_at_ext m m' a w : (forall x, a <= x < a + 4 -> m' x = m x) -> word_at m a w -> word_at m' a w.
Proof. intros He H j Hj. rewrite He by lia. by apply H. Qed.

Lemma words_at_ext m m' a ws :
  (forall x, a <= x < a + 4 * Z.of_nat (length ws) -> m' x = m x) -> words_at m a ws -> words_at m' a ws.
Proof.
  intros He H k w Hk. apply lookup_lt_Some in Hk as Hl. apply (word_at_ext m); [|by apply H].
  intros x Hx. apply He. lia.
Qed.

Lemma words_at_put m a w ws : words_at m a ws -> words_at (put32 m (a - 4) w) (a - 4) (w :: ws).
Proof.
  intros H [|k] v Hk.
  - injection Hk as <-. rewrite Z.add_0_r. apply word_at_put.
  - apply (word_at_ext m). { intros x Hx. apply put32_ne. lia. }
    replace (a - 4 + 4 * Z.of_nat (S k)) with (a + 4 * Z.of_nat k) by lia. by apply H.
Qed.

(** The stack of a CPU whose top is [top], with the words [ws] pushed since [h0]. *)
Record stack (h0 : hw) (top : Z) (ws : list Z) (h : hw) : Prop := {
  st_sp : rg h ESP = top - 4 * Z.of_nat (length ws);
  st_words : words_at (hmem h) (rg h ESP) ws;
  st_rest : forall x, ~ (rg h ESP <= x < top) -> hmem h x = hmem h0 x
}.

(** The other registers. *)
Definition same_regs (h h' : hw) : Prop := forall r, r <> ESP -> rg h' r = rg h r.

Lemma stack_empty h0 h top : rg h ESP = top -> hmem h = hmem h0 -> stack h0 top [] h.
Proof. intros E1 E2. split; [cbn; lia|by intros []|by rewrite E2]. Qed.

Lemma stack_regs h0 top ws h h' : stack h0 top ws h -> rg h' ESP = rg h ESP -> hmem h' = hmem h -> stack h0 top ws h'.
Proof. intros [H1 H2 H3] E1 E2. split; rewrite ?E1, ?E2; done. Qed.

Lemma push_stack h0 top ws h v :
  stack h0 top ws h -> 4 * Z.of_nat (S (length ws)) <= top < 2 ^ 32 ->
  exists h', push v h = Ok (tt, h') /\ stack h0 top (v :: ws) h' /\ same_regs h h'.
Proof.
  intros [Hsp Hws Hr] Ht. eexists. split; [reflexivity|].
  assert (E : u32 (rg h ESP - 4) = rg h ESP - 4) by (apply u32_small; unfold is_u32; lia).
  split; [split|]; cbn [rg hmem]; rewrite ?fn_lookup_insert, ?E.
  - cbn [length]. lia.
  - by apply words_at_put.
  - intros x Hx. rewrite put32_ne by lia. apply Hr. lia.
  - intros r Hne. cbn [rg]. by rewrite fn_lookup_insert_ne.
Qed.

Lemma pushl_stack h0 top ws b h r :
  stack h0 top ws h -> same_regs b h -> r <> ESP -> 4 * Z.of_nat (S (length ws)) <= top < 2 ^ 32 ->
  exists h', pushl r h = Ok (tt, h') /\ stack h0 top (rg b r :: ws) h' /\ same_regs b h'.
Proof.
  intros Hs Hb Hr Ht. destruct (push_stack h0 top ws h (rg b r) Hs Ht) as (h' & E & Hs' & Hb').
  exists h'. split; [unfold pushl, getr; mgo; by rewrite Hb|]. split; [done|]. intros r' Hne. by rewrite Hb', Hb.
Qed.

Lemma push_stack_regs h0 top ws b h v :
  stack h0 top ws h -> same_regs b h -> 4 * Z.of_nat (S (length ws)) <= top < 2 ^ 32 ->
  exists h', push v h = Ok (tt, h') /\ stack h0 top (v :: ws) h' /\ same_regs b h'.
Proof.
  intros Hs Hb Ht. destruct (push_stack h0 top ws h v Hs Ht) as (h' & E & Hs' & Hb').
  exists h'. split; [done|]. split; [done|]. intros r' Hne. by rewrite Hb', Hb.
Qed.

(** Runs the pushes at the head of the goal; [S] and [R] describe the stack and
    the registers so far. *)
Ltac do_push h' S R E :=
  let S' := fresh in let R' := fresh in
  first [ lazymatch goal with |- context [mbind (pushl ?r) _ ?h] =>
            destruct (pushl_stack _ _ _ _ h r S R ltac:(done) ltac:(cbn [length]; lia)) as (h' & E & S' & R') end
        | lazymatch goal with |- context [mbind (push ?v) _ ?h] =>
            destruct (push_stack_regs _ _ _ _ h v S R ltac:(cbn [length]; lia)) as (h' & E & S' & R') end ];
  rewrite (mbind_ok _ _ _ _ _ E); cbv beta; pose proof (st_sp _ _ _ _ S'); clear E S R; rename S' into S; rename R' into R.
Ltac pushes S R := mgo; repeat (let h' := fresh "h" in let E := fresh in do_push h' S R E; mgo).

(** ** Entering the kernel *)

(** The words [alltraps] adds to the stack, from its register values and the
    stack pointer it found; [tf] is where they end. *)
Definition saved (f : reg -> Z) (sp : Z) : list Z :=
  [f EDI; f ESI; f EBP; sp; f EBX; f EDX; f ECX; f EAX; f GS; f FS; f ES; f DS].

Lemma alltraps_stack h0 top ws h :
  stack h0 top ws h -> 4 * Z.of_nat (13 + length ws) <= top < 2 ^ 32 ->
  exists h', alltraps h = Ok (tt, h') /\
    stack h0 top ((rg h ESP - 48) :: saved (rg h) (rg h ESP - 16) ++ ws) h' /\
    rg h' DS = Z.shiftl SEG_KDATA 3 /\ rg h' ES = Z.shiftl SEG_KDATA 3 /\
    forall r, r <> ESP -> r <> EAX -> r <> DS -> r <> ES -> rg h' r = rg h r.
Proof.
  intros S Ht. assert (R : same_regs h h) by done. pose proof (st_sp _ _ _ _ S) as Hsp. unfold alltraps, pushal, getr.
  pushes S R.
  match goal with |- context [setr EAX ?v] => set (eax := v) end. unfold setr. mgo.
  match goal with H : stack _ _ _ ?g |- context [pushl ESP ?g'] =>
    set (hk := g'); pose proof (stack_regs _ _ _ g hk H eq_refl eq_refl) as S1 end.
  destruct (push_stack _ _ _ hk (rg hk ESP) S1 ltac:(cbn [length]; lia)) as (h' & E & S2 & R2).
  exists h'. split; [exact E|]. pose proof (st_sp _ _ _ _ S1).
  cbn [length] in *.
  replace (rg h ESP - 48) with (rg hk ESP) by lia. replace (rg h ESP - 16) with (rg h4 ESP) by lia.
  assert (Eax : u16 eax = Z.shiftl SEG_KDATA 3).
  { unfold u16, eax. rewrite <- Z.land_ones by lia. rewrite Z.land_lor_distr_l, <- Z.land_assoc.
    change (Z.land 4294901760 (Z.ones 16)) with 0. by rewrite Z.land_0_r. }
  split_and!; [exact S2|by rewrite R2|by rewrite R2|].
  intros r N1 N2 N3 N4. rewrite R2, <- R by done. subst hk. cbn [rg]. by rewrite !fn_lookup_insert_ne by done.
Qed.

Lemma vector_stack h0 top ws h n :
  stack h0 top ws h -> 4 * Z.of_nat (2 + length ws) <= top < 2 ^ 32 ->
  exists h', vector n h = Ok (tt, h') /\
    stack h0 top (n :: (if has_err n then [] else [0]) ++ ws) h' /\ same_regs h h'.
Proof.
  intros S Ht. assert (R : same_regs h h) by done. unfold vector, has_err. rewrite Z.geb_leb.
  destruct ((n =? 8) || (10 <=? n) && (n <=? 14) || (n =? 17)) eqn:E; cbn [negb mwhen app]; mgo.
  - exact (push_stack_regs _ _ _ _ h n S R ltac:(lia)).
  - pushes S R. exact (push_stack_regs _ _ _ _ _ n S R ltac:(cbn [length]; lia)).
Qed.

(** The fields of [struct trapframe] that hold registers. *)
Definition tf_off (r : reg) : Z :=
  match r with
  | EDI => 0 | ESI => 4 | EBP => 8 | EBX => 16 | EDX => 20 | ECX => 24 | EAX => TF_EAX
  | GS => 32 | FS => 36 | ES => TF_ES | DS => TF_DS
  | EIP => TF_EIP | CS => TF_CS | EFLAGS => TF_EFLAGS | ESP => TF_ESP | SS => TF_SS
  end.
Definition TF_ERR : Z := 52.
Definition tf_field (m : mem) (tf : Z) (r : reg) : Z :=
  if is_seg r then get16 m (tf + tf_off r) else get32 m (tf + tf_off r).

(** Registers of a process in user mode. *)
Definition fits (r : reg) (v : Z) : Prop := if is_seg r then 0 <= v < 2 ^ 16 else is_u32 v.
Definition user_regs (f : reg -> Z) : Prop := (forall r, fits r (f r)) /\ rpl (f CS) = 3.

(** The words of a frame from its start. *)
Definition tf_words (f : reg -> Z) (oesp trapno err : Z) : list Z :=
  saved f oesp ++ [trapno; err; f EIP; f CS; f EFLAGS; f ESP; f SS].

Lemma frame_off f oesp n e r : tf_words f oesp n e !! Z.to_nat (tf_off r / 4) = Some (f r).
Proof. by destruct r. Qed.

Lemma frame_field m tf f oesp n e r :
  words_at m tf (tf_words f oesp n e) -> fits r (f r) -> tf_field m tf r = f r.
Proof.
  intros H Hf. pose proof (H _ _ (frame_off f oesp n e r)) as Hw.
  replace (tf + 4 * Z.of_nat (Z.to_nat (tf_off r / 4))) with (tf + tf_off r) in Hw by (by destruct r).
  unfold tf_field, fits in *. destruct (is_seg r).
  - rewrite (word_at_get16 _ _ _ Hw). unfold u16. by apply Z.mod_small.
  - by apply word_at_get32.
Qed.

(** What the tables must hold for a process with the kernel stack [ks]. *)
Record tables (vectors : list Z) (ks : Z) (idt : list gatedesc) (c : percpu) : Prop := {
  tb_gate n v : 0 <= n < 256 -> vectors !! Z.to_nat n = Some v ->
    idt !! Z.to_nat n = Some (SETGATE (n =? T_SYSCALL) (Z.shiftl SEG_KCODE 3) v (if n =? T_SYSCALL then DPL_USER else 0));
  tb_code : exists d, c_gdt c !! Z.to_nat SEG_KCODE = Some d /\ sd_dpl d = 0;
  tb_stack : c_ts c = mkts (ks + KSTACKSIZE) (Z.shiftl SEG_KDATA 3) 0xFFFF
}.

Lemma vector_at_ok vectors i v s : vectors !! Z.to_nat i = Some v -> vector_at vectors i s = Ok (v, s).
Proof. intros H. unfold vector_at. by rewrite H. Qed.

Lemma gate_off_set b sel off d : is_u32 off -> gate_off (SETGATE b sel off d) = off.
Proof.
  intros H. unfold gate_off, SETGATE. cbn [off_15_0 off_31_16]. change 0xffff with (Z.ones 16).
  rewrite Z.land_ones, Z.shiftl_mul_pow2, Z.shiftr_div_pow2 by lia. zlia.
Qed.

Lemma tvinit_gates vectors idt0 :
  length vectors = 256%nat -> length idt0 = 256%nat ->
  exists idt, tvinit vectors idt0 = Ok (tt, idt) /\
    forall n v, 0 <= n < 256 -> vectors !! Z.to_nat n = Some v ->
      idt !! Z.to_nat n = Some (SETGATE (n =? T_SYSCALL) (Z.shiftl SEG_KCODE 3) v (if n =? T_SYSCALL then DPL_USER else 0)).
Proof.
  intros Hv Hi. unfold tvinit.
  destruct (for_inv (fun i idt => length idt = 256%nat /\ forall n v, 0 <= n < i -> vectors !! Z.to_nat n = Some v ->
      idt !! Z.to_nat n = Some (SETGATE false (Z.shiftl SEG_KCODE 3) v 0)) (fun i =>
    let! v := vector_at vectors i in
    mset (insert (Z.to_nat i) (SETGATE false (Z.shiftl SEG_KCODE 3) v 0))) 256 0 idt0) as (idt & E & Hl & Hg).
  - split; [done|lia].
  - intros i idt Hb [Hl Hg]. destruct (lookup_lt_is_Some_2 vectors (Z.to_nat i)) as [v Ev]; [lia|].
    eexists. split; [mby (vector_at_ok vectors i v idt Ev); reflexivity|]. split; [by rewrite length_insert|].
    intros n w Hn Hw. destruct (decide (n = i)) as [->|Hne].
    + rewrite list_lookup_insert_eq by lia. congruence.
    + rewrite list_lookup_insert_ne by lia. apply Hg; [lia|done].
  - destruct (lookup_lt_is_Some_2 vectors (Z.to_nat T_SYSCALL)) as [v Ev]; [rewrite Hv; vm_compute; lia|].
    mby E. mby (vector_at_ok vectors T_SYSCALL v idt Ev). eexists. split; [reflexivity|].
    intros n w Hn Hw. destruct (Z.eqb_spec n T_SYSCALL) as [->|Hne].
    + rewrite list_lookup_insert_eq by (rewrite Hl; vm_compute; lia). congruence.
    + rewrite list_lookup_insert_ne by (unfold T_SYSCALL in *; lia). apply Hg; [lia|done].
Qed.

Lemma cpu_tables c0 p :
  length (c_gdt c0) = NSEGS -> p_kstack p <> 0 -> p_pgdir p <> 0 -> 0 <= p_kstack p < 2 ^ 32 - KSTACKSIZE ->
  exists c, (seginit ;;! switchuvm (Some p)) c0 = Ok (tt, c) /\
    (exists d, c_gdt c !! Z.to_nat SEG_KCODE = Some d /\ sd_dpl d = 0) /\
    c_ts c = mkts (p_kstack p + KSTACKSIZE) (Z.shiftl SEG_KDATA 3) 0xFFFF /\ r_cr3 c = V2P (p_pgdir p).
Proof.
  intros Hl Hk Hd Hb. unfold seginit, switchuvm, set_seg, lgdt, ltr, lcr3.
  rewrite !(proj2 (Z.eqb_neq _ _)) by done. mgo. eexists. split; [reflexivity|].
  cbn [c_gdt c_ts set_c_gdt set_c_ts set_r_gdtr set_r_tr set_r_cr3 r_cr3 c_addr ts_esp0 ts_ss0 ts_iomb].
  split_and!; [|by rewrite u32_small by (unfold is_u32, KSTACKSIZE in *; lia)|done].
  destruct (c_gdt c0) as [|? [|? [|? [|? [|? [|? [|]]]]]]]; try discriminate Hl. eexists. split; reflexivity.
Qed.

(** The frame below the top of the kernel stack. *)
Definition err_of (n : Z) (src : source) : Z := match src with Exception e => if has_err n then e else 0 | _ => 0 end.
Definition src_ok (n : Z) (src : source) : Prop :=
  match src with
  | External => 32 <= n
  | Exception e => n < 32 /\ is_u32 e
  | Instruction => n = T_SYSCALL
  end.

Lemma has_err_small n : 32 <= n -> has_err n = false.
Proof. intros H. unfold has_err. by rewrite !(proj2 (Z.eqb_neq _ _)), (proj2 (Z.leb_gt n 14)), andb_false_r by lia. Qed.

Lemma interrupt_stack vectors ks idt c h n v src :
  tables vectors ks idt c -> user_regs (rg h) -> 0 <= n < 256 -> vectors !! Z.to_nat n = Some v -> is_u32 v ->
  src_ok n src -> 0 < ks < 2 ^ 32 - KSTACKSIZE ->
  exists h', interrupt idt c n src h = Ok (true, h') /\
    stack h (ks + KSTACKSIZE)
      ((if has_err n then [err_of n src] else []) ++ [rg h EIP; rg h CS; rg h EFLAGS; rg h ESP; rg h SS]) h' /\
    rg h' EIP = v /\ rg h' CS = Z.shiftl SEG_KCODE 3 /\ rg h' SS = Z.shiftl SEG_KDATA 3 /\
    rg h' EFLAGS = gate_flags (negb (n =? T_SYSCALL)) (rg h EFLAGS) /\
    forall r, r <> ESP -> r <> SS -> r <> CS -> r <> EIP -> r <> EFLAGS -> rg h' r = rg h r.
Proof.
  intros [Tg (d & Td & Tp) Ts] [Hu Hcs] Hn Hv Hv32 Hsrc Hks. unfold interrupt, getr. rewrite (Tg n v Hn Hv).
  set (g := SETGATE _ _ _ _). change (gd_cs g) with (Z.shiftl SEG_KCODE 3).
  change (Z.shiftr (Z.shiftl SEG_KCODE 3) 3) with SEG_KCODE. rewrite Td, Tp, Ts. mgo. rewrite Hcs.
  assert (Hint : match src with Instruction => gd_dpl g <? 3 | _ => false end = false).
  { destruct src; [done|done|]. cbn in Hsrc. subst n. done. }
  rewrite Hint. mgo. cbn [mwhen Z.ltb Z.compare ts_ss0 ts_esp0]. mgo. unfold setr at 1 2. mgo.
  match goal with |- context [mbind (push (rg h SS)) _ ?g] => set (hb := g) end.
  assert (S : stack h (ks + KSTACKSIZE) [] hb) by (by apply stack_empty). assert (R : same_regs hb hb) by done.
  unfold KSTACKSIZE in *. pushes S R. change (rg hb EFLAGS) with (rg h EFLAGS) in S. change (rg hb EIP) with (rg h EIP) in S.
  match type of S with stack _ _ _ ?g => set (hc := g) in * end.
  assert (exists hd, (match src with Exception err => mwhen (has_err n) (push err) | _ => mret tt end) hc = Ok (tt, hd) /\
    stack h (ks + 4096) ((if has_err n then [err_of n src] else []) ++ [rg h EIP; rg h CS; rg h EFLAGS; rg h ESP; rg h SS]) hd /\
    same_regs hb hd) as (hd & E & S' & R').
  { destruct src as [|e|]; cbn [err_of src_ok] in *.
    - rewrite (has_err_small n) by lia. by exists hc.
    - destruct (has_err n); cbn [mwhen]; [|by exists hc].
      exact (push_stack_regs _ _ _ _ hc e S R ltac:(cbn [length]; lia)).
    - subst n. by exists hc. }
  mby E. unfold setr. mgo. eexists. split; [reflexivity|]. cbn [rg].
  split_and!.
  - apply (stack_regs _ _ _ hd); done.
  - cbn. subst g. by apply gate_off_set.
  - done.
  - rewrite !fn_lookup_insert_ne, R' by done. reflexivity.
  - rewrite !fn_lookup_insert_ne, fn_lookup_insert, R' by done. subst g. by destruct (n =? T_SYSCALL).
  - intros r N1 N2 N3 N4 N5. rewrite !fn_lookup_insert_ne, R' by done. subst hb. cbn [rg]. by rewrite !fn_lookup_insert_ne by done.
Qed.

(** ** Leaving the kernel *)

(** The words on top of the stack of a CPU. *)
Record above (a : Z) (ws : list Z) (h : hw) : Prop := {
  ab_sp : rg h ESP = a;
  ab_words : words_at (hmem h) a ws;
  ab_u32 : Forall is_u32 ws;
  ab_rng : 0 <= a /\ a + 4 * Z.of_nat (length ws) < 2 ^ 32
}.

(** The state after a [pop] into [r]. *)
Definition popped (r : reg) (w a : Z) (h : hw) : hw := mkhw (<[r := fit r w]> (<[ESP := a]> (rg h))) (hmem h).

Lemma above_next a w ws h h' :
  above a (w :: ws) h -> rg h' ESP = a + 4 -> hmem h' = hmem h -> above (a + 4) ws h'.
Proof.
  intros [H1 H2 H3 H4] E1 E2. inversion H3; subst. cbn [length] in H4. split; [done| |done|lia].
  intros k v Hk. replace (rg h ESP + 4 + 4 * Z.of_nat k) with (rg h ESP + 4 * Z.of_nat (S k)) by lia.
  rewrite E2. by apply (H2 (S k)).
Qed.

Lemma pop_above a w ws h :
  above a (w :: ws) h -> pop h = Ok (w, mkhw (<[ESP := a + 4]> (rg h)) (hmem h)).
Proof.
  intros [H1 H2 H3 H4]. inversion H3; subst. unfold pop, getr, load_word, setr. mgo.
  cbn [length] in H4. rewrite !u32_small by (unfold is_u32; lia).
  pose proof (H2 0%nat w eq_refl) as Hw. rewrite Z.add_0_r in Hw.
  by rewrite (word_at_get32 _ _ _ Hw).
Qed.

Lemma popl_above a w ws h r :
  above a (w :: ws) h -> r <> ESP ->
  popl r h = Ok (tt, popped r w (a + 4) h) /\ above (a + 4) ws (popped r w (a + 4) h).
Proof.
  intros H Hr. split.
  - unfold popl. by rewrite (mbind_ok _ _ _ _ _ (pop_above a w ws h H)).
  - apply (above_next a w ws h); [done| |done]. unfold popped. cbn [rg]. by rewrite fn_lookup_insert_ne, fn_lookup_insert.
Qed.

Lemma add_above a w ws h :
  above a (w :: ws) h ->
  addl_esp 4 h = Ok (tt, mkhw (<[ESP := a + 4]> (rg h)) (hmem h)) /\
  above (a + 4) ws (mkhw (<[ESP := a + 4]> (rg h)) (hmem h)).
Proof.
  intros H. split.
  - destruct H as [H1 H2 H3 H4]. unfold addl_esp, getr, setr. mgo. cbn [length] in H4.
    by rewrite H1, u32_small by (unfold is_u32; lia).
  - apply (above_next a w ws h); [done| |done]. cbn [rg]. by rewrite fn_lookup_insert.
Qed.

Lemma add8_above a w1 w2 ws h :
  above a (w1 :: w2 :: ws) h ->
  addl_esp 8 h = Ok (tt, mkhw (<[ESP := a + 8]> (rg h)) (hmem h)) /\
  above (a + 8) ws (mkhw (<[ESP := a + 8]> (rg h)) (hmem h)).
Proof.
  intros H. split.
  - destruct H as [H1 H2 H3 H4]. unfold addl_esp, getr, setr. mgo. cbn [length] in H4.
    by rewrite H1, u32_small by (unfold is_u32; lia).
  - destruct (add_above a w1 _ h H) as [_ H1]. apply (above_next _ w2 _ _ (mkhw (<[ESP := a + 8]> (rg h)) (hmem h))) in H1; [|cbn [rg]; rewrite fn_lookup_insert; lia|done].
    by replace (a + 4 + 4) with (a + 8) in H1 by lia.
Qed.

(** Runs the pops at the head of the goal. *)
Ltac do_pop A :=
  let E := fresh in let A' := fresh in
  first [ lazymatch goal with |- context [mbind (popl ?r) _ ?h] =>
            destruct (popl_above _ _ _ h r A ltac:(done)) as [E A'] end
        | lazymatch goal with |- context [mbind (addl_esp 4) _ ?h] => destruct (add_above _ _ _ h A) as [E A'] end
        | lazymatch goal with |- context [mbind (addl_esp 8) _ ?h] => destruct (add8_above _ _ _ _ h A) as [E A'] end ];
  rewrite (mbind_ok _ _ _ _ _ E); cbv beta; clear E A; rename A' into A;
  match type of A with above _ _ ?g => let h' := fresh "h" in set (h' := g) in * end; mgo.

Lemma fit_fits r v : fits r v -> fit r v = v.
Proof. unfold fits, fit, u16. destruct (is_seg r); [apply Z.mod_small|done]. Qed.

Lemma fits_u32 r v : fits r v -> is_u32 v.
Proof. unfold fits, is_u32. destruct (is_seg r); lia. Qed.

Lemma trapret_restores h tf f oesp n e :
  words_at (hmem h) tf (tf_words f oesp n e) -> user_regs f -> is_u32 oesp -> is_u32 n -> is_u32 e ->
  rpl (rg h CS) = 0 -> rg h ESP = tf -> 0 <= tf < 2 ^ 32 - TF_SIZE ->
  exists h', trapret h = Ok (tt, h') /\ hmem h' = hmem h /\ forall r, rg h' r = f r.
Proof.
  intros Hw [Hf Hcs] Ho Hn He Hk Hsp Hb.
  assert (A : above tf (tf_words f oesp n e) h).
  { split; [done|done| |unfold TF_SIZE in Hb; cbn; lia].
    unfold tf_words, saved. cbn [app]. repeat (apply Forall_cons; split; [first [done|by eapply fits_u32, Hf]|]). by apply Forall_nil. }
  unfold tf_words, saved in A. cbn [app] in A. unfold trapret, popal.
  mgo. repeat do_pop A. unfold iret, getr. mgo. do 3 do_pop A.
  change (rg h12 CS) with (rg h CS). change (rg h15 CS) with (fit CS (f CS)). rewrite fit_fits, Hk, Hcs by done.
  cbn [mwhen Z.ltb Z.compare]. rewrite (mbind_ok _ _ _ _ _ (pop_above _ _ _ _ A)). cbv beta.
  eapply (above_next _ _ _ _ (mkhw _ _)) in A; [|apply fn_lookup_insert|reflexivity].
  rewrite (mbind_ok _ _ _ _ _ (pop_above _ _ _ _ A)). unfold setr. mgo.
  eexists. split; [reflexivity|]. split; [done|].
  intros r. transitivity (fit r (f r)); [|by apply fit_fits]. by destruct r.
Qed.

Lemma saved_ext f g sp :
  (forall r, r <> ESP -> r <> SS -> r <> CS -> r <> EIP -> r <> EFLAGS -> f r = g r) -> saved f sp = saved g sp.
Proof. intros H. unfold saved. by rewrite !(H EDI), (H ESI), (H EBP), (H EBX), (H EDX), (H ECX), (H EAX), (H GS), (H FS), (H ES), (H DS). Qed.

(** The two halves of a trap.  From user mode, with the tables the kernel has set
    up, [interrupt], the entry point and [alltraps] leave a [struct trapframe] of
    the user's registers at the top of the kernel stack. *)
Lemma trap_frame vectors ks idt c h n v src :
  tables vectors ks idt c -> user_regs (rg h) -> 0 <= n < 256 -> vectors !! Z.to_nat n = Some v -> is_u32 v ->
  src_ok n src -> 0 < ks < 2 ^ 32 - KSTACKSIZE ->
  let tf := ks + KSTACKSIZE - TF_SIZE in
  exists h1 h' oesp, interrupt idt c n src h = Ok (true, h1) /\ rg h1 EIP = v /\ rg h1 CS = Z.shiftl SEG_KCODE 3 /\
    (vector n ;;! alltraps) h1 = Ok (tt, h') /\ is_u32 oesp /\
    words_at (hmem h') tf (tf_words (rg h) oesp n (err_of n src)) /\
    get32 (hmem h') (tf - 4) = tf /\ rg h' ESP = tf - 4 /\
    (forall x, ~ (tf - 4 <= x < ks + KSTACKSIZE) -> hmem h' x = hmem h x) /\
    rg h' CS = Z.shiftl SEG_KCODE 3 /\ rg h' SS = Z.shiftl SEG_KDATA 3 /\
    rg h' DS = Z.shiftl SEG_KDATA 3 /\ rg h' ES = Z.shiftl SEG_KDATA 3 /\
    rg h' EFLAGS = gate_flags (negb (n =? T_SYSCALL)) (rg h EFLAGS).
Proof.
  intros T Hu Hn Hv Hv32 Hsrc Hks tf. unfold KSTACKSIZE, TF_SIZE in *.
  destruct (interrupt_stack vectors ks idt c h n v src T Hu Hn Hv Hv32 Hsrc Hks) as (h1 & E1 & S1 & Ei & Ec & Es & Ef & R1).
  destruct (vector_stack _ _ _ h1 n S1) as (h2 & E2 & S2 & R2). { destruct (has_err n); cbn; unfold KSTACKSIZE; lia. }
  assert (Ews : n :: (if has_err n then [] else [0]) ++ (if has_err n then [err_of n src] else []) ++
    [rg h EIP; rg h CS; rg h EFLAGS; rg h ESP; rg h SS] = [n; err_of n src; rg h EIP; rg h CS; rg h EFLAGS; rg h ESP; rg h SS]).
  { unfold err_of. destruct (has_err n); [done|]. by destruct src. }
  rewrite Ews in S2.
  destruct (alltraps_stack _ _ _ h2 S2) as (h3 & E3 & S3 & Ed & Ee & R3). { unfold KSTACKSIZE; cbn [length]; lia. }
  pose proof (st_sp _ _ _ _ S2) as Hsp. pose proof (st_sp _ _ _ _ S3) as Hsp'. unfold KSTACKSIZE in *. cbn in Hsp, Hsp'.
  assert (Hf : saved (rg h2) (rg h2 ESP - 16) = saved (rg h) (rg h2 ESP - 16)).
  { apply saved_ext. intros r N1 N2 N3 N4 N5. by rewrite R2, R1. }
  rewrite Hf in S3. exists h1, h3, (rg h2 ESP - 16).
  pose proof (st_words _ _ _ _ S3) as Hw. rewrite Hsp' in Hw.
  split_and!; [done|done|done|by mby E2|unfold is_u32; lia| | |lia| |by rewrite R3, R2, Ec|by rewrite R3, R2, Es|done|done|by rewrite R3, R2, Ef].
  - intros k w Hk. pose proof (Hw (S k) w Hk) as H. by replace (tf + 4 * Z.of_nat k) with (ks + 4096 - 80 + 4 * Z.of_nat (S k)) by lia.
  - pose proof (Hw 0%nat _ eq_refl) as H. apply word_at_get32 in H; [|unfold is_u32; lia].
    replace (tf - 4) with (ks + 4096 - 4 * Z.of_nat 20 + 4 * Z.of_nat 0) by lia. rewrite H. lia.
  - intros x Hx. apply (st_rest _ _ _ _ S3). lia.
Qed.

(** ** The context switch *)

Lemma popl_raw a h r :
  rg h ESP = a -> 0 <= a < 2 ^ 32 - 4 -> r <> ESP ->
  popl r h = Ok (tt, popped r (get32 (hmem h) a) (a + 4) h) /\
  rg (popped r (get32 (hmem h) a) (a + 4) h) ESP = a + 4.
Proof.
  intros Hs Ha Hr. split.
  - unfold popl, pop, getr, load_word, setr. mgo. by rewrite Hs, !u32_small by (unfold is_u32; lia).
  - unfold popped. cbn [rg]. by rewrite fn_lookup_insert_ne, fn_lookup_insert.
Qed.

Ltac do_pop_raw A :=
  let E := fresh in let A' := fresh in
  lazymatch goal with |- context [mbind (popl ?r) _ ?h] =>
    destruct (popl_raw _ h r A ltac:(lia) ltac:(done)) as [E A'] end;
  rewrite (mbind_ok _ _ _ _ _ E); cbv beta; clear E A; rename A' into A;
  match type of A with rg ?g _ = _ => let h' := fresh "h" in set (h' := g) in * end.

(** The registers of a [struct context], in the order of its fields. *)
Definition context (f : reg -> Z) : list Z := [f EDI; f ESI; f EBX; f EBP].

Lemma swtch_stacks h old new :
  let sp := rg h ESP in
  16 <= sp < 2 ^ 32 - 12 -> get32 (hmem h) (sp + 4) = old -> get32 (hmem h) (sp + 8) = new ->
  0 <= old < 2 ^ 32 - 4 -> 0 <= new < 2 ^ 32 - CTX_SIZE ->
  (old + 4 <= sp - 16 \/ sp + 4 <= old) ->
  (new + CTX_SIZE <= sp - 16 \/ sp + 4 <= new) -> (new + CTX_SIZE <= old \/ old + 4 <= new) ->
  exists h', swtch h = Ok (tt, h') /\
    rg h' ESP = new + CTX_SIZE /\ rg h' EIP = get32 (hmem h) (new + CTX_EIP) /\
    rg h' EDI = get32 (hmem h) new /\ rg h' ESI = get32 (hmem h) (new + 4) /\
    rg h' EBX = get32 (hmem h) (new + 8) /\ rg h' EBP = get32 (hmem h) (new + 12) /\
    (forall r, is_seg r = true \/ r = EFLAGS -> rg h' r = rg h r) /\
    get32 (hmem h') old = sp - 16 /\ words_at (hmem h') (sp - 16) (context (rg h)) /\
    (forall x, ~ (sp - 16 <= x < sp) -> ~ (old <= x < old + 4) -> hmem h' x = hmem h x).
Proof.
  intros sp Hsp Ho Hn Bo Bn D1 D2 D3. unfold CTX_SIZE, CTX_EIP in *. unfold swtch, getr, load_word, movl. mgo. fold sp.
  rewrite (u32_small (sp + 4)), (u32_small (sp + 8)) by (unfold is_u32; lia). rewrite Ho.
  unfold setr at 1. mgo. cbn [hmem]. rewrite Hn. unfold setr at 1. mgo.
  match goal with |- context [mbind (pushl EBP) _ ?g] => set (hb := g) end.
  assert (S : stack h sp [] hb) by (by apply stack_empty). assert (R : same_regs hb hb) by done.
  pushes S R. match type of S with stack _ _ _ ?g => set (hc := g) in * end.
  unfold store_word. mgo. cbn [rg hmem]. rewrite !R by done. change (rg hb EAX) with (u32 old). change (rg hb EDX) with (u32 new).
  rewrite u32_u32, (u32_small old), (u32_small new) by (unfold is_u32; lia). unfold setr. mgo.
  set (m1 := put32 (hmem hc) old (rg hc ESP)). cbn [rg hmem]. fold m1.
  match goal with |- context [mbind (popl EDI) _ ?g] => set (hd := g) end.
  assert (A : rg hd ESP = new) by (by apply fn_lookup_insert).
  do 4 do_pop_raw A. unfold ret.
  destruct (popl_raw _ h7 EIP A ltac:(lia) ltac:(done)) as [E A']. eexists. split; [exact E|].
  cbn [length] in H5. pose proof (st_words _ _ _ _ S) as Hw.
  assert (Hm : forall x, ~ (sp - 16 <= x < sp) -> ~ (old <= x < old + 4) -> m1 x = hmem h x).
  { intros x N1 N2. unfold m1. rewrite put32_ne by lia. apply (st_rest _ _ _ _ S). lia. }
  assert (Hg : forall k, 0 <= k <= 16 -> get32 m1 (new + k) = get32 (hmem h) (new + k)).
  { intros k Hk. apply get32_ext. intros x Hx. apply Hm; lia. }
  assert (Hg0 : get32 m1 new = get32 (hmem h) new) by (rewrite <- (Z.add_0_r new); apply Hg; lia).
  split_and!.
  - rewrite A'. lia.
  - rewrite <- (Hg 16) by lia. replace (new + 16) with (new + 4 + 4 + 4 + 4) by lia. reflexivity.
  - rewrite <- Hg0. reflexivity.
  - rewrite <- (Hg 4) by lia. reflexivity.
  - rewrite <- (Hg 8) by lia. replace (new + 8) with (new + 4 + 4) by lia. reflexivity.
  - rewrite <- (Hg 12) by lia. replace (new + 12) with (new + 4 + 4 + 4) by lia. reflexivity.
  - intros r Hr. transitivity (rg hc r); [|rewrite R by (by destruct Hr as [? | ->]; [intros ->|])]; by destruct r, Hr.
  - change (get32 m1 old = sp - 16). unfold m1. rewrite get32_put32_eq by (unfold is_u32; lia). lia.
  - change (words_at m1 (sp - 16) (context (rg h))). replace (sp - 16) with (rg hc ESP) by lia.
    apply (words_at_ext (hmem hc)); [|done]. intros x Hx. unfold m1. apply put32_ne. cbn [length context] in Hx. lia.
  - exact Hm.
Qed.

(** ** Traps from user mode *)

Lemma user_int_refused vectors ks idt c h n v :
  tables vectors ks idt c -> user_regs (rg h) -> 0 <= n < 256 -> vectors !! Z.to_nat n = Some v -> n <> T_SYSCALL ->
  interrupt idt c n Instruction h = Ok (false, h).
Proof.
  intros T [_ Hcs] Hn Hv Hne. unfold interrupt. rewrite (tb_gate _ _ _ _ T n v Hn Hv). unfold getr. mgo.
  rewrite Hcs, (proj2 (Z.eqb_neq _ _) Hne). done.
Qed.

Lemma trap_returns h tf f oesp n e :
  words_at (hmem h) tf (tf_words f oesp n e) -> user_regs f -> is_u32 oesp -> is_u32 n -> is_u32 e ->
  rg h CS = Z.shiftl SEG_KCODE 3 -> rg h ESP = tf - 4 -> 4 <= tf < 2 ^ 32 - TF_SIZE ->
  exists h', (after_trap ;;! trapret) h = Ok (tt, h') /\ forall r, rg h' r = f r.
Proof.
  intros Hw Hf Ho Hn He Hk Hsp Hb. unfold after_trap, addl_esp, getr, setr. mgo. cbn [rg].
  replace (u32 (rg h ESP + 4)) with tf by (rewrite Hsp, u32_small; unfold is_u32, TF_SIZE in *; lia).
  assert (C : rpl (rg (mkhw (<[ESP := tf]> (rg h)) (hmem h)) CS) = 0) by (cbn [rg]; rewrite fn_lookup_insert_ne, Hk by done; reflexivity).
  destruct (trapret_restores (mkhw (<[ESP := tf]> (rg h)) (hmem h)) tf f oesp n e Hw Hf Ho Hn He C
    (fn_lookup_insert _ _ _) ltac:(lia)) as (h' & E & _ & R).
  exists h'. split; [exact E|exact R].
Qed.

(** C17: traps.  With the interrupt table of [tvinit] and the segments and task
    state of [seginit] and [switchuvm], the instruction [int] in user mode reaches
    the kernel for system calls only.  Every interrupt and exception enters at its
    own vector, with interrupts off but for system calls and the flags TF, NT, RF
    and VM cleared, on the kernel stack of
    the process, where vector and [alltraps] build the [struct trapframe] that
    [trap] gets: every register in its field, the trap number and the error code;
    nothing else is written.  If [trap] leaves the frame as it was, [trapret]
    gives back every register. *)
Theorem trap_roundtrip vectors idt0 c0 p h :
  length vectors = 256%nat -> Forall is_u32 vectors -> length idt0 = 256%nat -> length (c_gdt c0) = NSEGS ->
  0 < p_kstack p < 2 ^ 32 - KSTACKSIZE -> p_pgdir p <> 0 -> user_regs (rg h) ->
  exists idt c, tvinit vectors idt0 = Ok (tt, idt) /\ (seginit ;;! switchuvm (Some p)) c0 = Ok (tt, c) /\
    (forall n, 0 <= n < 256 -> n <> T_SYSCALL -> interrupt idt c n Instruction h = Ok (false, h)) /\
    forall n src, 0 <= n < 256 -> src_ok n src ->
      let tf := p_kstack p + KSTACKSIZE - TF_SIZE in
      exists h1 h2, interrupt idt c n src h = Ok (true, h1) /\ vectors !! Z.to_nat n = Some (rg h1 EIP) /\
        (vector n ;;! alltraps) h1 = Ok (tt, h2) /\
        (forall r, tf_field (hmem h2) tf r = rg h r) /\
        get32 (hmem h2) (tf + TF_TRAPNO) = n /\ get32 (hmem h2) (tf + TF_ERR) = err_of n src /\
        get32 (hmem h2) (rg h2 ESP) = tf /\
        (forall x, ~ (tf - 4 <= x < p_kstack p + KSTACKSIZE) -> hmem h2 x = hmem h x) /\
        rpl (rg h2 CS) = 0 /\
        rg h2 EFLAGS = gate_flags (negb (n =? T_SYSCALL)) (rg h EFLAGS) /\
        forall h3, rg h3 ESP = rg h2 ESP -> rg h3 CS = rg h2 CS ->
          (forall x, tf <= x < tf + TF_SIZE -> hmem h3 x = hmem h2 x) ->
          exists h4, (after_trap ;;! trapret) h3 = Ok (tt, h4) /\ forall r, rg h4 r = rg h r.
Proof.
  intros Hv Hv32 Hi Hg Hks Hpg Hu.
  destruct (tvinit_gates vectors idt0 Hv Hi) as (idt & Ei & Gi).
  destruct (cpu_tables c0 p Hg ltac:(lia) Hpg ltac:(lia)) as (c & Ec & Gc & Sc & _).
  assert (T : tables vectors (p_kstack p) idt c) by done.
  assert (Hvn : forall n, 0 <= n < 256 -> exists v, vectors !! Z.to_nat n = Some v) by (intros n Hn; apply lookup_lt_is_Some_2; lia).
  exists idt, c. split_and!; [done|done| |].
  - intros n Hn Hne. destruct (Hvn n Hn) as [v Ev]. by eapply user_int_refused.
  - intros n src Hn Hsrc tf. destruct (Hvn n Hn) as [v Ev].
    destruct (trap_frame _ _ _ _ h n v src T Hu Hn Ev (Forall_lookup_1 _ _ _ _ Hv32 Ev) Hsrc Hks)
      as (h1 & h2 & oesp & E1 & Ep & _ & E2 & Ho & Hw & Harg & Hsp & Hm & Hcs & _ & _ & _ & Hfl).
    fold tf in Hw, Harg, Hsp, Hm. assert (He : is_u32 (err_of n src)).
    { unfold err_of. destruct src; [done| |done]. destruct (has_err n); [apply Hsrc|done]. }
    exists h1, h2. rewrite Hsp, Ep. split_and!; try done.
    + intros r. apply (frame_field _ _ _ _ _ _ _ Hw), Hu.
    + apply (word_at_get32 _ _ _ (Hw 12%nat n eq_refl)). unfold is_u32. lia.
    + by apply (word_at_get32 _ _ _ (Hw 13%nat _ eq_refl)).
    + by rewrite Hcs.
    + intros h3 S3 C3 M3. apply (trap_returns h3 tf (rg h) oesp n (err_of n src)); try done; [|unfold is_u32; lia|by rewrite C3|].
      * apply (words_at_ext (hmem h2)); [|done]. intros x Hx. apply M3. unfold TF_SIZE. cbn in Hx. lia.
      * unfold tf, TF_SIZE, KSTACKSIZE in *. lia.
Qed.

(** ** [fork] *)

Lemma word_at_of m a : wf_mem m -> word_at m a (get32 m a).
Proof.
  intros Hw j Hj. unfold get32. pose proof (Hw a). pose proof (Hw (a + 1)). pose proof (Hw (a + 2)). pose proof (Hw (a + 3)).
  unfold is_byte, u8 in *. rewrite Z.shiftr_div_pow2 by lia.
  assert (j = 0 \/ j = 1 \/ j = 2 \/ j = 3) as [?|[?|[?|?]]] by lia; subst j; rewrite ?Z.add_0_r;
    [change (2 ^ (8 * 0)) with 1|change (2 ^ (8 * 1)) with 256|change (2 ^ (8 * 2)) with 65536|change (2 ^ (8 * 3)) with 16777216];
    change (2 ^ 8) with 256; zlia.
Qed.

(** A frame whose %eax is replaced. *)
Lemma words_at_eax m m' tf tf' f oesp n e v :
  words_at m tf (tf_words f oesp n e) ->
  (forall o, 0 <= o < TF_SIZE -> ~ (TF_EAX <= o < TF_EAX + 4) -> m' (tf' + o) = m (tf + o)) ->
  word_at m' (tf' + TF_EAX) v ->
  words_at m' tf' (tf_words (<[EAX := v]> f) oesp n e).
Proof.
  intros Hw He Ha k w Hk. destruct (decide (k = 7%nat)) as [->|Hne].
  - injection Hk as <-. rewrite fn_lookup_insert. exact Ha.
  - assert (Hk' : tf_words f oesp n e !! k = Some w).
    { rewrite <- Hk. unfold tf_words, saved. rewrite fn_lookup_insert.
      rewrite !fn_lookup_insert_ne by done. do 7 (destruct k as [|k]; [done|]). by destruct k. }
    pose proof (lookup_lt_Some _ _ _ Hk') as Hl. change (length (tf_words f oesp n e)) with 19%nat in Hl.
    pose proof (Hw k w Hk') as H. intros j Hj. rewrite <- H by done.
    replace (tf' + 4 * Z.of_nat k + j) with (tf' + (4 * Z.of_nat k + j)) by lia.
    rewrite He by (unfold TF_SIZE, TF_EAX; lia). f_equal. lia.
Qed.

Lemma user_regs_eax f v : user_regs f -> is_u32 v -> user_regs (<[EAX := v]> f).
Proof.
  intros [H1 H2] Hv. split; [|by rewrite fn_lookup_insert_ne].
  intros r. destruct (decide (r = EAX)) as [->|Hne]; [by rewrite fn_lookup_insert|by rewrite fn_lookup_insert_ne].
Qed.

Section Fork.
Context {St F : Type} {PA : PageAllocator St} {FL : FileLayer St F}.
Variables (data trapret_addr forkret_addr : Z).
Hypothesis (Htr : is_u32 trapret_addr) (Hfr : is_u32 forkret_addr).
Hypothesis (Hdata : data mod PGSIZE = 0) (Hdata' : KERNLINK < data < KERNBASE + PHYSTOP).


(** The CPU whose scheduler picks process [c], with the memory [m] on the kernel
    stack of [c]: [swtch] goes to [forkret], and when [forkret] returns [trapret]
    takes it to user mode with the registers [f].  [h2] is the state at the return
    of [forkret], which leaves the stack above its own part alone. *)
Definition starts_as (m : mem) (c : proc) (f : reg -> Z) : Prop :=
  forall h old, let sp := rg h ESP in
    16 <= sp < 2 ^ 32 - 12 -> get32 (hmem h) (sp + 4) = old -> get32 (hmem h) (sp + 8) = p_context c ->
    0 <= old < 2 ^ 32 - 4 -> (old + 4 <= sp - 16 \/ sp + 4 <= old) ->
    (sp + 4 <= p_kstack c \/ p_kstack c + KSTACKSIZE <= sp - 16) ->
    (old + 4 <= p_kstack c \/ p_kstack c + KSTACKSIZE <= old) ->
    (forall x, p_kstack c <= x < p_kstack c + KSTACKSIZE -> hmem h x = m x) ->
    rg h CS = Z.shiftl SEG_KCODE 3 ->
    exists h1, swtch h = Ok (tt, h1) /\ rg h1 EIP = forkret_addr /\
      forall h2, rg h2 ESP = rg h1 ESP -> rg h2 CS = rg h1 CS ->
        (forall x, rg h1 ESP <= x < p_kstack c + KSTACKSIZE -> hmem h2 x = hmem h1 x) ->
        exists h3 h4, ret h2 = Ok (tt, h3) /\ rg h3 EIP = trapret_addr /\
          trapret h3 = Ok (tt, h4) /\ forall r, rg h4 r = f r.

Lemma child_starts m m' l l' me p c f oesp n e :
  forked data trapret_addr forkret_addr m m' l l' me p c -> wf_mem m' ->
  words_at m (p_tf p) (tf_words f oesp n e) -> user_regs f -> is_u32 oesp -> is_u32 n -> is_u32 e ->
  pa_page (p_kstack c) -> starts_as m' c (<[EAX := 0]> f).
Proof.
  intros (_ & _ & _ & _ & _ & _ & _ & _ & _ & _ & _ & _ & _ & Hax & Hcp & Htra & Hfra & Hctx & Htf) Hwf Hw Hu Ho Hn He Hpg
    h old sp Hsp Hold Hnew Bo D1 D2 D3 Hm Hcs.
  pose proof (pa_page_range _ Hpg) as (_ & Hk1 & Hk2). unfold KERNBASE, PHYSTOP, PGSIZE in Hk1, Hk2.
  unfold KSTACKSIZE, TF_SIZE, CTX_SIZE in *.
  destruct (swtch_stacks h old (p_context c) Hsp Hold Hnew Bo ltac:(unfold CTX_SIZE; lia) D1
    ltac:(fold sp; unfold CTX_SIZE; lia) ltac:(unfold CTX_SIZE; lia))
    as (h1 & E1 & S1 & P1 & _ & _ & _ & _ & G1 & _ & _ & M1).
  unfold CTX_SIZE in S1. exists h1. split; [exact E1|]. split.
  { rewrite P1, <- Hfra. apply get32_ext. intros x Hx. apply Hm. unfold CTX_EIP in Hx. lia. }
  clear E1. intros h2 S2 C2 M2. assert (Hmm : forall x, p_tf c - 4 <= x < p_kstack c + 4096 -> hmem h2 x = m' x).
  { intros x Hx. rewrite M2, M1, Hm by lia. done. }
  destruct (popl_raw (p_tf c - 4) h2 EIP ltac:(lia) ltac:(lia) ltac:(done)) as [E3 S3].
  set (h3 := popped EIP _ _ h2) in *.
  assert (C3 : rpl (rg h3 CS) = 0).
  { change (rg h3 CS) with (rg h2 CS). rewrite C2, G1, Hcs by (by left). reflexivity. }
  destruct (trapret_restores h3 (p_tf c) (<[EAX := 0]> f) oesp n e) as (h4 & E4 & _ & R4);
    [|by apply user_regs_eax|exact Ho|exact Hn|exact He|exact C3|rewrite S3; lia|unfold TF_SIZE; lia|].
  { change (hmem h3) with (hmem h2). apply (words_at_eax m (hmem h2) (p_tf p) (p_tf c) f oesp n e 0 Hw).
    - unfold TF_SIZE. intros o Ho1 Ho2. rewrite Hmm by lia. by apply Hcp.
    - apply (word_at_ext m'). { intros x Hx. apply Hmm. unfold TF_EAX in Hx. lia. }
      rewrite <- Hax. by apply word_at_of. }
  exists h3, h4. split; [exact E3|]. split; [|split; [exact E4|exact R4]].
  change (get32 (hmem h2) (p_tf c - 4) = trapret_addr). rewrite <- Htra. apply get32_ext. intros x Hx. apply Hmm. lia.
Qed.

(** C9: [fork] returns twice.  A process in user mode calls the stub of [fork]; the
    trap saves its registers [f] at the time of the [int] in the trap frame.  When
    [fork] has run on that frame and [syscall] has stored its result, the return
    from the trap gives the parent the registers [f] with the result in %eax.  If
    there is a free slot and [fork_cost] pages are free, the result is the pid of
    the child: the scheduler that switches to it reaches [forkret], and from there
    [trapret] and user mode with the registers [f] and 0 in %eax, that is the child
    returns from the same call.  Otherwise the result is -1. *)
Theorem fork_returns_twice p vectors v idt c h eip :
  pa_page (p_kstack p) -> p_tf p = p_kstack p + KSTACKSIZE - TF_SIZE ->
  tables vectors (p_kstack p) idt c -> vectors !! Z.to_nat T_SYSCALL = Some v -> is_u32 v ->
  user_regs (rg h) -> is_u32 eip ->
  let f := <[EIP := eip]> (<[EAX := SYS_fork]> (rg h)) in
  exists h1 h2 oesp, SYSCALL idt c SYS_fork eip h = Ok (true, h1) /\ rg h1 EIP = v /\
    (vector T_SYSCALL ;;! alltraps) h1 = Ok (tt, h2) /\ words_at (hmem h2) (p_tf p) (tf_words f oesp T_SYSCALL 0) /\
    forall (s : pst St F) me l, fork_pre s me p l ->
     (forall x, p_tf p <= x < p_tf p + TF_SIZE -> pa_mem (t_kern s) x = hmem h2 x) ->
     exists r s', fork data trapret_addr forkret_addr s = Ok (r, s') /\
       (forall h3, rg h3 ESP = rg h2 ESP -> rg h3 CS = rg h2 CS ->
          (forall x, p_tf p <= x < p_tf p + TF_SIZE ->
             hmem h3 x = put32 (pa_mem (t_kern s')) (p_tf p + TF_EAX) (u32 r) x) ->
          exists h4, (after_trap ;;! trapret) h3 = Ok (tt, h4) /\ forall q, rg h4 q = (<[EAX := u32 r]> f) q) /\
       match find_proc (is_state UNUSED) 0 (t_procs s), (fork_cost data (pa_mem (t_kern s)) p <=? length l)%nat with
       | Some i, true => r = t_nextpid s /\ exists ch, t_procs s' !! i = Some ch /\ p_state ch = RUNNABLE /\ p_pid ch = r /\
           starts_as (pa_mem (t_kern s')) ch (<[EAX := 0]> f)
       | _, _ => r = -1
       end.
Proof.
  intros Hkp Htf T Hv Hv32 Hu Heip f.
  pose proof (pa_page_range _ Hkp) as (_ & Hk1 & Hk2). unfold KERNBASE, PHYSTOP, PGSIZE in Hk1, Hk2.
  assert (Huf : user_regs f).
  { destruct (user_regs_eax _ SYS_fork Hu) as [H1 H2]; [by vm_compute|]. split; [|exact H2].
    intros r. unfold f. destruct (decide (r = EIP)) as [->|Hne]; [by rewrite fn_lookup_insert|rewrite fn_lookup_insert_ne by done; apply H1]. }
  destruct (trap_frame vectors (p_kstack p) idt c (mkhw f (hmem h)) T_SYSCALL v Instruction T Huf ltac:(by vm_compute) Hv Hv32
    eq_refl ltac:(unfold KSTACKSIZE; lia))
    as (h1 & h2 & oesp & E1 & Ep & _ & E2 & Ho & Hw & _ & Hsp & _ & Hcs & _).
  rewrite <- Htf in Hw, Hsp. cbn [rg] in Hw. exists h1, h2, oesp. split; [exact E1|]. split; [exact Ep|]. split; [exact E2|]. split; [exact Hw|].
  clear E1 E2. intros s me l Hpre Hfr'. pose proof Hpre as (_ & _ & _ & Hinv & _ & _ & _ & Hkpl & _). destruct (fork_spec data trapret_addr forkret_addr Htr Hfr Hdata Hdata' s me p l Hpre)
    as (r & s' & l' & Hrun & Hinv' & Hm & Hres).
  exists r, s'. split; [exact Hrun|]. clear Hrun.
  destruct (pa_inv_pages _ _ Hinv) as (Hpl & _ & _). destruct (pa_inv_pages _ _ Hinv') as (_ & _ & Hwf').
  rewrite Forall_forall in Hpl.
  assert (Hws : words_at (pa_mem (t_kern s)) (p_tf p) (tf_words f oesp T_SYSCALL (err_of T_SYSCALL Instruction))).
  { apply (words_at_ext (hmem h2)); [|exact Hw]. intros x Hx. apply Hfr'. exact Hx. }
  split.
  - intros h3 S3 C3 M3.
    assert (Hd : forall x, p_tf p <= x < p_tf p + TF_SIZE -> pa_mem (t_kern s') x = pa_mem (t_kern s) x).
    { intros x Hx. apply Hm. intros q Hq. apply (page_disjoint (p_kstack p)); [done|by apply Hpl|by intros <-|].
      unfold on_page, PGSIZE. unfold TF_SIZE, KSTACKSIZE in *. lia. }
    apply (trap_returns h3 (p_tf p) (<[EAX := u32 r]> f) oesp T_SYSCALL 0); [| |exact Ho|by vm_compute|by vm_compute| | |].
    + apply (words_at_eax _ _ _ _ _ _ _ _ _ Hws).
      * intros o H1 H2. rewrite M3, put32_ne, Hd by lia. done.
      * apply (word_at_ext (put32 (pa_mem (t_kern s')) (p_tf p + TF_EAX) (u32 r))); [|apply word_at_put].
        intros x Hx. apply M3. unfold TF_SIZE, TF_EAX in *. lia.
    + apply user_regs_eax; [exact Huf|apply u32_range].
    + by rewrite C3.
    + by rewrite S3.
    + unfold TF_SIZE, KSTACKSIZE in *. lia.
  - destruct Hres as [(-> & _ & Hno & _)|(-> & Hlen & i & c0 & ch & Hi & _ & Hps & Hpid & _ & _ & Hf & Hfk)].
    { destruct (find_proc _ 0 (t_procs s)) as [i|]; [|done]. destruct Hno as [?|Hno]; [done|]. by rewrite (proj2 (Nat.leb_gt _ _)). }
    rewrite Hf, (proj2 (Nat.leb_le _ _)) by lia. split; [done|].
    exists ch. split; [rewrite Hps; apply list_lookup_insert_eq; by eapply lookup_lt_Some|].
    pose proof Hfk as (Hst & _ & _ & _ & _ & _ & Hin & _). split; [exact Hst|]. split; [exact Hpid|].
    eapply (child_starts _ _ _ _ _ _ _ f oesp T_SYSCALL 0 Hfk Hwf' Hws Huf Ho); [by vm_compute|by vm_compute|by apply Hpl].
Qed.

End Fork.

(** ** A concrete machine *)

Definition w_vectors : list Z := (fun i => 0x80105000 + 16 * Z.of_nat i) <$> seq 0 256.
Definition w_idt : list gatedesc := replicate 256 (mkgatedesc 0 0 0 0 0 0 0 0 0).
Definition w_cpu : percpu := mkpercpu 0x80113000 (replicate 6 (SEG 0 0 0 0)) (mkts 0 0 0) (0, 0) (0, 0) 0 0.
Definition w_regs (r : reg) : Z :=
  match r with
  | CS => 0x1b | SS | DS | ES => 0x23 | FS | GS => 0
  | EFLAGS => 0x202 | EIP => 0x1000 | ESP => 0x2ff0 | _ => 7
  end.
Definition w_hw : hw := mkhw w_regs (fun _ => 0).

Lemma w_vectors_u32 : Forall is_u32 w_vectors.
Proof. apply Forall_fmap, Forall_forall. intros i Hi. apply elem_of_seq in Hi. unfold compose, is_u32. lia. Qed.

Lemma w_user : user_regs (rg w_hw).
Proof. split; [by intros []|reflexivity]. Qed.

Lemma trap_roundtrip_witness :
  exists idt c, tvinit w_vectors w_idt = Ok (tt, idt) /\ (seginit ;;! switchuvm (Some init_slot)) w_cpu = Ok (tt, c) /\
    interrupt idt c 3 Instruction w_hw = Ok (false, w_hw).
Proof.
  destruct (trap_roundtrip w_vectors w_idt w_cpu init_slot w_hw eq_refl w_vectors_u32 eq_refl eq_refl
    ltac:(by vm_compute) ltac:(by vm_compute) w_user) as (idt & c & E1 & E2 & H & _).
  exists idt, c. split; [exact E1|]. split; [exact E2|]. apply H; [lia|by vm_compute].
Defined.

(** The memory [m] with the words [ws] at [a]. *)
Fixpoint put_words (m : mem) (a : Z) (ws : list Z) : mem :=
  match ws with
  | [] => m
  | w :: ws => put32 (put_words m (a + 4) ws) a w
  end.

Lemma put_words_at ws : forall m a, words_at (put_words m a ws) a ws.
Proof.
  induction ws as [|w ws IH]; intros m a; [by intros k v Hk|]. cbn [put_words].
  pose proof (words_at_put _ (a + 4) w ws (IH m (a + 4))) as H. by replace (a + 4 - 4) with a in H by lia.
Qed.

Lemma put_words_ne ws : forall m a x, ~ (a <= x < a + 4 * Z.of_nat (length ws)) -> put_words m a ws x = m x.
Proof.
  induction ws as [|w ws IH]; intros m a x Hx; [done|]. cbn [put_words length] in *.
  rewrite put32_ne by lia. apply IH. lia.
Qed.

Lemma put_words_wf ws : forall m a, wf_mem m -> wf_mem (put_words m a ws).
Proof. induction ws as [|w ws IH]; intros m a Hm; [done|]. by apply wf_put32, IH. Qed.

Lemma words_at_eq m m' a ws x :
  words_at m a ws -> words_at m' a ws -> a <= x < a + 4 * Z.of_nat (length ws) -> m' x = m x.
Proof.
  intros H H' Hx. destruct (lookup_lt_is_Some_2 ws (Z.to_nat ((x - a) / 4))) as [w Hw]; [zlia|].
  pose proof (H _ _ Hw ((x - a) mod 4) ltac:(zlia)) as E. pose proof (H' _ _ Hw ((x - a) mod 4) ltac:(zlia)) as E'.
  replace (a + 4 * Z.of_nat (Z.to_nat ((x - a) / 4)) + (x - a) mod 4) with x in E, E' by zlia. congruence.
Qed.

(** A kernel whose memory has the words [ws] on the kernel stack of init. *)
Definition stacked (k : kstate) (ws : list Z) : kstate :=
  mkK (k_locked k) (k_use_lock k) (k_freelist k) (put_words (k_mem k) (0x80500000 + KSTACKSIZE - TF_SIZE) ws).

Lemma stacked_pre k l ws :
  length ws = 19%nat -> pa_inv (PageAllocator := witness_pa) k l ->
  as_ok (PA := witness_pa) (pa_mem (PageAllocator := witness_pa) k) 0x80400000 l -> (forall q, q ∈ l -> q ∈ pool 80) ->
  mapped (pa_mem (PageAllocator := witness_pa) k) 0x80400000 8192 = [4096] ->
  (forall q, pt_page (pa_mem (PageAllocator := witness_pa) k) 0x80400000 q -> q = 0x80400000 \/ q ∈ pool 80) ->
  fork_pre (PA := witness_pa) (FL := witness_files) (forking_state 0 (stacked k ws)) 0 (forking_slot 0) l /\
  fork_cost 0x80110000 (k_mem (stacked k ws)) (forking_slot 0) = 68%nat.
Proof.
  intros Hn Hinv Has Hl Hm Hpt.
  assert (Hk : kpage 0x80200000 0x80500000) by (unfold kpage; split_and!; by vm_compute).
  assert (Hw : page_write (k_mem k) (k_mem (stacked k ws)) 0x80500000).
  { intros x Hx. apply put_words_ne. unfold on_page, KSTACKSIZE, TF_SIZE, PGSIZE in *. lia. }
  assert (Hn' : ~ pt_page (k_mem k) 0x80400000 0x80500000) by (intros [H|H%pool_range]%Hpt; lia).
  destruct code_ok as (C1 & C2 & C3 & C4).
  destruct (page_write_space (PA := witness_pa) (FL := witness_files) _ _ _ C1 C2 C3 C4 _ _ 0x80400000 l 0x80500000 Has Hk Hn' Hw) as (Has' & _ & Hpte). split.
  - apply forking_pre; [|exact Has'|exact Hl]. destruct Hinv as (I1 & I2 & I3 & I4 & I5). split_and!; [exact I1|by apply put_words_wf| |exact I4|exact I5].
    apply (chain_ext (k_mem k)); [|exact I3]. intros q x Hq Hx. apply Hw.
    apply Hl, pool_range in Hq. unfold on_page, PGSIZE in *. lia.
  - apply forking_cost. rewrite <- Hm. apply (mapped_ext (PA := witness_pa) (FL := witness_files) _ _ _ C1 C2 C3 C4). exact Hpte.
Qed.

Lemma fork_returns_twice_witness :
  exists idt c h1 h2 s s' ch, SYSCALL idt c SYS_fork 0x1007 w_hw = Ok (true, h1) /\ (vector T_SYSCALL ;;! alltraps) h1 = Ok (tt, h2) /\
    fork (PA := witness_pa) (FL := witness_files) 0x80110000 0x80105000 0x80103000 s = Ok (2, s') /\
    t_procs s' !! 1%nat = Some ch /\ p_pid ch = 2 /\ p_state ch = RUNNABLE.
Proof.
  destruct (tvinit_gates w_vectors w_idt eq_refl eq_refl) as (idt & _ & Gi).
  destruct (cpu_tables w_cpu init_slot eq_refl ltac:(by vm_compute) ltac:(by vm_compute) ltac:(by vm_compute)) as (c & _ & Gc & Sc & _).
  destruct code_ok as (C1 & C2 & C3 & C4).
  assert (Hk : kpage 0x80200000 (p_kstack (forking_slot 0))) by (unfold kpage; split_and!; by vm_compute).
  destruct (fork_returns_twice (PA := witness_pa) (FL := witness_files) 0x80110000 0x80105000 0x80103000 C1 C2 C3 C4
    (forking_slot 0) w_vectors 0x80105400 idt c w_hw 0x1007 Hk eq_refl
    (Build_tables _ _ _ _ Gi Gc Sc) eq_refl ltac:(by vm_compute) w_user ltac:(by vm_compute)) as (h1 & h2 & oesp & E1 & _ & E2 & Hw & H).
  destruct half_space as (l & Hinv & Hlen & Hl & Has & Hm & Hpt). revert Hinv Has Hm Hpt. generalize half_state as k. intros k Hinv Has Hm Hpt.
  set (ws := tf_words _ _ _ _) in Hw.
  destruct (stacked_pre k l ws eq_refl Hinv Has Hl Hm Hpt) as [Hpre Hc].
  destruct (H (forking_state 0 (stacked k ws)) 0%nat l Hpre) as (r & s' & Hrun & _ & Hres).
  { intros x Hx. exact (words_at_eq _ _ _ ws x Hw (put_words_at ws (k_mem k) _) Hx). }
  assert (E : find_proc (is_state UNUSED) 0 (t_procs (forking_state 0 (stacked k ws))) = Some 1%nat) by reflexivity.
  change (pa_mem (t_kern (forking_state 0 (stacked k ws)))) with (k_mem (stacked k ws)) in Hres.
  rewrite E, Hc, Hlen in Hres. destruct Hres as (-> & ch & Hch & Hst & Hpid & _).
  exists idt, c, h1, h2, (forking_state 0 (stacked k ws)), s', ch.
  split; [exact E1|]. split; [exact E2|]. split; [exact Hrun|]. split; [exact Hch|]. split; [exact Hpid|exact Hst].
Defined.
