(* ===== verification/Ide.v ===== *)
(** * The disk driver [ide.c]

    The rest of the development runs on the memory disk of [memide.c], whose
    [iderw] ([Bio.iderw]) does a transfer at once.  This file is the driver for a
    real controller: requests wait in a queue, the controller works on the first,
    and its interrupt ends a request and starts the next.

    The controller is an interface: its ports ([IdePorts]) and what its
    documentation promises about them ([IdeDisk]).  [istep] runs any number of
    processes that call [iderw], their clients and the interrupts in any order.
    [ide_refines] shows that the driver implements the memory disk: each call takes
    effect at one point, as a call of [Bio.iderw]. *)

From Stdlib Require Import ZArith Lia String.
From stdpp Require Import base numbers gmap functions relations list.
From S2P Require Import Prelude Bytes Params Locks Bio.

Local Open Scope Z_scope.
Local Open Scope kernel_scope.

Definition SECTOR_SIZE : Z := 512.
Definition IDE_BSY : Z := 0x80.
Definition IDE_DRDY : Z := 0x40.
Definition IDE_DF : Z := 0x20.
Definition IDE_ERR : Z := 0x01.
Definition IDE_CMD_READ : Z := 0x20.
Definition IDE_CMD_WRITE : Z := 0x30.
Definition IDE_CMD_RDMUL : Z := 0xc4.
Definition IDE_CMD_WRMUL : Z := 0xc5.

(** ** The controller *)

(** The instructions on its ports; [insl] and [outsl] move [cnt] words, here as
    their bytes. *)
Class IdePorts (C : Type) := {
  inb : Z -> C -> Z * C;
  outb : Z -> Z -> C -> C;
  insl : Z -> Z -> C -> list Z * C;
  outsl : Z -> list Z -> C -> C
}.

(** A command of the controller with the drive and the sector it is for. *)
Inductive command := Idle | Reading (d n : Z) | Writing (d n : Z).

(** What the driver relies on.  [sector] are the contents of the drives, [ireg]
    the values last written to the command registers; the status register shows
    when the controller is [ready], which it is after at most [patience] looks,
    and no errors.  Registers are written and commands given when it is ready and
    idle; a command is for the drive and the sector in the registers. *)
Class IdeDisk (C : Type) `{IdePorts C} := {
  sector : C -> Z -> Z -> list Z;
  ireg : C -> Z -> Z;
  cmd : C -> command;
  ready : C -> bool;
  delay : C -> nat;
  patience : nat;
  drive_sel (c : C) : Z := Z.land (Z.shiftr (ireg c 0x1f6) 4) 1;
  lba (c : C) : Z :=
    ireg c 0x1f3 + Z.shiftl (ireg c 0x1f4) 8 + Z.shiftl (ireg c 0x1f5) 16 + Z.shiftl (Z.land (ireg c 0x1f6) 0x0f) 24;
  set_up (c : C) : Prop :=
    ready c = true /\ cmd c = Idle /\ ireg c 0x1f2 = 1 /\ Z.land (ireg c 0x1f6) 0xe0 = 0xe0;
  sector_size c d n : length (sector c d n) = Z.to_nat SECTOR_SIZE;
  sector_bytes c d n : Forall is_byte (sector c d n);
  delay_bound c : (delay c < patience)%nat;
  inb_status c r c' : inb 0x1f7 c = (r, c') ->
    (forall d n, sector c' d n = sector c d n) /\ (forall p, ireg c' p = ireg c p) /\ cmd c' = cmd c /\
    (if Z.land r (Z.lor IDE_BSY IDE_DRDY) =? IDE_DRDY
     then ready c' = true /\ Z.land r (Z.lor IDE_DF IDE_ERR) = 0
     else (delay c' < delay c)%nat);
  outb_reg c p v : ready c = true -> cmd c = Idle -> p ∈ [0x3f6; 0x1f2; 0x1f3; 0x1f4; 0x1f5; 0x1f6] ->
    (forall d n, sector (outb p v c) d n = sector c d n) /\ (forall q, ireg (outb p v c) q = (<[p := v]> (ireg c)) q) /\
    cmd (outb p v c) = Idle /\ ready (outb p v c) = true;
  outb_read c : set_up c ->
    (forall d n, sector (outb 0x1f7 IDE_CMD_READ c) d n = sector c d n) /\
    cmd (outb 0x1f7 IDE_CMD_READ c) = Reading (drive_sel c) (lba c);
  outb_write c : set_up c ->
    (forall d n, sector (outb 0x1f7 IDE_CMD_WRITE c) d n = sector c d n) /\
    cmd (outb 0x1f7 IDE_CMD_WRITE c) = Writing (drive_sel c) (lba c);
  insl_data c d n l c' : cmd c = Reading d n -> ready c = true -> insl 0x1f0 (SECTOR_SIZE / 4) c = (l, c') ->
    l = sector c d n /\ (forall d n, sector c' d n = sector c d n) /\ cmd c' = Idle;
  outsl_data c d n l : cmd c = Writing d n -> length l = Z.to_nat SECTOR_SIZE -> Forall is_byte l ->
    (forall d' n', sector (outsl 0x1f0 l c) d' n' = if decide (d' = d /\ n' = n) then l else sector c d' n') /\
    cmd (outsl 0x1f0 l c) = Idle
}.

(** ** The driver *)

(** [idequeue] and the links [qnext] of the buffers; [wakes] are the calls of
    [wakeup] since it was last emptied. *)
Record ide (C : Type) := mkide {
  idelock : bool;
  idequeue : option nat;
  qnext : nat -> option nat;
  havedisk1 : bool;
  ibufs : list buf;
  ctl : C;
  wakes : list nat
}.
Arguments mkide {C}.
Arguments idelock {C}.
Arguments idequeue {C}.
Arguments qnext {C}.
Arguments havedisk1 {C}.
Arguments ibufs {C}.
Arguments ctl {C}.
Arguments wakes {C}.

Definition set_idelock {C} (v : bool) (s : ide C) : ide C :=
  mkide v (idequeue s) (qnext s) (havedisk1 s) (ibufs s) (ctl s) (wakes s).
Definition set_idequeue {C} (v : option nat) (s : ide C) : ide C :=
  mkide (idelock s) v (qnext s) (havedisk1 s) (ibufs s) (ctl s) (wakes s).
Definition set_qnext {C} (v : nat -> option nat) (s : ide C) : ide C :=
  mkide (idelock s) (idequeue s) v (havedisk1 s) (ibufs s) (ctl s) (wakes s).
Definition set_havedisk1 {C} (v : bool) (s : ide C) : ide C :=
  mkide (idelock s) (idequeue s) (qnext s) v (ibufs s) (ctl s) (wakes s).
Definition set_ibufs {C} (v : list buf) (s : ide C) : ide C :=
  mkide (idelock s) (idequeue s) (qnext s) (havedisk1 s) v (ctl s) (wakes s).
Definition set_ctl {C} (v : C) (s : ide C) : ide C :=
  mkide (idelock s) (idequeue s) (qnext s) (havedisk1 s) (ibufs s) v (wakes s).
Definition set_wakes {C} (v : list nat) (s : ide C) : ide C :=
  mkide (idelock s) (idequeue s) (qnext s) (havedisk1 s) (ibufs s) (ctl s) v.

Section Driver.
Context {C : Type} {IP : IdePorts C}.
(** How often [idewait] looks at the status at most. *)
Variable (fuel : nat).

Abbreviation IM := (M (ide C)).

Definition in_port (p : Z) : IM Z := fun s => let '(r, c) := inb p (ctl s) in Ok (r, set_ctl c s).
Definition out_port (p v : Z) : IM unit := mset (fun s => set_ctl (outb p (u8 v) (ctl s)) s).

Definition get_buf (i : nat) : IM buf :=
  fun s => match ibufs s !! i with Some b => Ok (b, s) | None => Undef end.
Definition set_buf (i : nat) (f : buf -> buf) : IM unit := mset (fun s => set_ibufs (alter f i (ibufs s)) s).

Definition ilockd : IM unit := acquire idelock set_idelock.
Definition iunlockd : IM unit := release idelock set_idelock.

Fixpoint idewait_loop (n : nat) (checkerr : bool) : IM Z :=
  match n with
  | O => mnofuel
  | S n' =>
      let! r := in_port 0x1f7 in
      if negb (Z.land r (Z.lor IDE_BSY IDE_DRDY) =? IDE_DRDY) then idewait_loop n' checkerr
      else if checkerr && negb (Z.land r (Z.lor IDE_DF IDE_ERR) =? 0) then mret (-1)
      else mret 0
  end.
Definition idewait (checkerr : bool) : IM Z := idewait_loop fuel checkerr.

(** The loop of [ideinit] that looks for disk 1. *)
Fixpoint find_disk1 (n : nat) : IM unit :=
  match n with
  | O => mret tt
  | S n' =>
      let! r := in_port 0x1f7 in
      if negb (r =? 0) then mset (set_havedisk1 true) else find_disk1 n'
  end.

(** [ideinit]; the call of [ioapicenable] is [Ioapic.ioapicenable]. *)
Definition ideinit : IM unit :=
  mset (set_idelock false) ;;!
  idewait false ;;!
  out_port 0x1f6 (Z.lor 0xe0 (Z.shiftl 1 4)) ;;!
  find_disk1 1000 ;;!
  out_port 0x1f6 (Z.lor 0xe0 (Z.shiftl 0 4)).

(** [None] is the null pointer. *)
Definition idestart (b : option nat) : IM unit :=
  match b with
  | None => mpanic "idestart"
  | Some i =>
      let! b := get_buf i in
      if b_blockno b >=? FSSIZE then mpanic "incorrect blockno" else
      let sector_per_block := BSIZE / SECTOR_SIZE in
      let sector := s32 (b_blockno b * sector_per_block) in
      let read_cmd := if sector_per_block =? 1 then IDE_CMD_READ else IDE_CMD_RDMUL in
      let write_cmd := if sector_per_block =? 1 then IDE_CMD_WRITE else IDE_CMD_WRMUL in
      if sector_per_block >? 7 then mpanic "idestart" else
      idewait false ;;!
      out_port 0x3f6 0 ;;!
      out_port 0x1f2 sector_per_block ;;!
      out_port 0x1f3 (Z.land sector 0xff) ;;!
      out_port 0x1f4 (Z.land (Z.shiftr sector 8) 0xff) ;;!
      out_port 0x1f5 (Z.land (Z.shiftr sector 16) 0xff) ;;!
      out_port 0x1f6 (Z.lor (Z.lor 0xe0 (Z.shiftl (Z.land (b_dev b) 1) 4)) (Z.land (Z.shiftr sector 24) 0x0f)) ;;!
      if negb (Z.land (b_flags b) B_DIRTY =? 0) then
        out_port 0x1f7 write_cmd ;;!
        mset (fun s => set_ctl (outsl 0x1f0 (load (b_data b) 0 (Z.to_nat (BSIZE / 4 * 4))) (ctl s)) s)
      else out_port 0x1f7 read_cmd
  end.

Definition ideintr : IM unit :=
  ilockd ;;!
  let! b := mget idequeue in
  match b with
  | None => iunlockd
  | Some i =>
      let! q := mget (fun s => qnext s i) in
      mset (set_idequeue q) ;;!
      let! b := get_buf i in
      (if Z.land (b_flags b) B_DIRTY =? 0 then
         let! r := idewait true in
         mwhen (r >=? 0)
           (fun s => let '(l, c) := insl 0x1f0 (BSIZE / 4) (ctl s) in
                     Ok (tt, set_ibufs (alter (fun b => set_b_data (store (b_data b) 0 l) b) i (ibufs s)) (set_ctl c s)))
       else mret tt) ;;!
      set_buf i (fun b => set_b_flags (Z.lor (b_flags b) B_VALID) b) ;;!
      set_buf i (fun b => set_b_flags (Z.land (b_flags b) (Z.lnot B_DIRTY)) b) ;;!
      mset (fun s => set_wakes (wakes s ++ [i]) s) ;;!
      let! q := mget idequeue in
      mwhen (match q with Some _ => true | None => false end) (idestart q) ;;!
      iunlockd
  end.

(** The pointer [pp] of [iderw]: [idequeue], or the link of a buffer. *)
Definition link_of (pp : option nat) (s : ide C) : option nat :=
  match pp with None => idequeue s | Some j => qnext s j end.
Definition set_link (pp v : option nat) : IM unit :=
  match pp with
  | None => mset (set_idequeue v)
  | Some j => mset (fun s => set_qnext (<[j := v]> (qnext s)) s)
  end.
Fixpoint queue_end (n : nat) (pp : option nat) : IM (option nat) :=
  let! v := mget (link_of pp) in
  match v with
  | None => mret pp
  | Some j => match n with O => mnofuel | S n' => queue_end n' (Some j) end
  end.

(** The test of the loop at the end of [iderw]: the call returns, or sleeps on the
    buffer, which gives [idelock] up. *)
Definition iderw_test (i : nat) : IM bool :=
  let! b := get_buf i in
  if negb (Z.land (b_flags b) (Z.lor B_VALID B_DIRTY) =? B_VALID) then iunlockd ;;! mret false
  else iunlockd ;;! mret true.

(** [iderw] of the process [pid] up to its first sleep, and after each [wakeup]. *)
Definition iderw (pid : Z) (i : nat) : IM bool :=
  let! b := get_buf i in
  let! h := (fun s => obind (holdingsleep pid (b_lock b)) (fun '(h, l) => Ok (h, set_ibufs (alter (set_b_lock l) i (ibufs s)) s))) in
  if negb h then mpanic "iderw: buf not locked" else
  if Z.land (b_flags b) (Z.lor B_VALID B_DIRTY) =? B_VALID then mpanic "iderw: nothing to do" else
  let! have := mget havedisk1 in
  if negb (b_dev b =? 0) && negb have then mpanic "iderw: ide disk 1 not present" else
  ilockd ;;!
  mset (fun s => set_qnext (<[i := None]> (qnext s)) s) ;;!
  let! n := mget (fun s => length (ibufs s)) in
  let! pp := queue_end n None in
  set_link pp (Some i) ;;!
  let! q := mget idequeue in
  mwhen (bool_decide (q = Some i)) (idestart (Some i)) ;;!
  iderw_test i.
Definition iderw_resume (i : nat) : IM bool := ilockd ;;! iderw_test i.
End Driver.

(** ** Processes, clients and interrupts *)

(** The driver and the calls of [iderw] in progress, by their buffer; the boolean
    says that the call has been woken. *)
Record isys (C : Type) := mkisys { drv : ide C; calls : gmap nat bool }.
Arguments mkisys {C}.
Arguments drv {C}.
Arguments calls {C}.

(** The calls after the wakeups recorded in [d]. *)
Definition settle {C} (d : ide C) (cs : gmap nat bool) : isys C :=
  mkisys (set_wakes [] d) (map_imap (fun i aw => Some (aw || bool_decide (i ∈ wakes d))) cs).

(** What [bread] and [bwrite] see to before they call [iderw]: the buffer is
    locked, needs a transfer, and is for a block of the disk with the file system. *)
Definition block (b : buf) : list Z := load (b_data b) 0 (Z.to_nat BSIZE).
Definition dirty (b : buf) : bool := negb (Z.land (b_flags b) B_DIRTY =? 0).
Definition fresh (b : buf) : bool := Z.land (b_flags b) (Z.lor B_VALID B_DIRTY) =? B_VALID.
Definition request (b : buf) : Prop :=
  b_lock b = sl_held (sl_pid (b_lock b)) /\ fresh b = false /\ b_dev b = 1 /\ 0 <= b_blockno b < FSSIZE /\
  Forall is_byte (block b).

(** A client that changes its buffer, and the end of a transfer. *)
Inductive event := Client (i : nat) (b : buf) | Served (i : nat).

Section System.
Context {C : Type} {IP : IdePorts C} {ID : IdeDisk C}.

Inductive istep : isys C -> list event -> isys C -> Prop :=
| is_call s i b r d :
    calls s !! i = None -> ibufs (drv s) !! i = Some b -> request b ->
    iderw patience (sl_pid (b_lock b)) i (drv s) = Ok (r, d) ->
    istep s [] (settle d (if r then calls s else <[i := false]> (calls s)))
| is_client s i b b' :
    calls s !! i = None -> ibufs (drv s) !! i = Some b ->
    istep s [Client i b'] (mkisys (set_ibufs (<[i := b']> (ibufs (drv s))) (drv s)) (calls s))
| is_intr s d :
    ideintr patience (drv s) = Ok (tt, d) ->
    istep s (match idequeue (drv s) with Some i => [Served i] | None => [] end) (settle d (calls s))
| is_resume s i r d :
    calls s !! i = Some true -> iderw_resume i (drv s) = Ok (r, d) ->
    istep s [] (settle d (if r then delete i (calls s) else <[i := false]> (calls s))).

Inductive isteps : isys C -> list event -> isys C -> Prop :=
| isteps_nil s : isteps s [] s
| isteps_snoc s es t e u : isteps s es t -> istep t e u -> isteps s (es ++ e) u.

(** The same events on the memory disk. *)
Definition apply_event (e : event) (a : bst) : outcome bst :=
  match e with
  | Client i b => Ok (set_bufs (<[i := b]> (bufs a)) a)
  | Served i =>
      match bufs a !! i with
      | None => Undef
      | Some b => obind (Bio.iderw i (set_curpid (sl_pid (b_lock b)) a)) (fun '(_, a') => Ok a')
      end
  end.
Fixpoint apply_events (es : list event) (a : bst) : outcome bst :=
  match es with [] => Ok a | e :: es' => obind (apply_event e a) (apply_events es') end.

(** ** The invariant *)

(** Buffers that differ at most in what is beyond the block. *)
Definition same_buf (b b' : buf) : Prop :=
  b_flags b = b_flags b' /\ b_dev b = b_dev b' /\ b_blockno b = b_blockno b' /\ b_lock b = b_lock b' /\
  b_refcnt b = b_refcnt b' /\ block b = block b'.

(** The queue as a list. *)
Fixpoint chain (o : option nat) (nx : nat -> option nat) (q : list nat) : Prop :=
  match q with [] => o = None | i :: q' => o = Some i /\ chain (nx i) nx q' end.

(** The controller while it works for [b]: what is to be written has been handed
    over. *)
Definition active (c : C) (b : buf) : Prop :=
  if dirty b then cmd c = Idle /\ sector c 1 (b_blockno b) = block b else cmd c = Reading 1 (b_blockno b).

(** The block on which disk and memory disk may differ: the one being written. *)
Definition in_write (d : ide C) (q : list nat) (n : Z) : Prop :=
  exists i q' b, q = i :: q' /\ ibufs d !! i = Some b /\ dirty b = true /\ b_blockno b = n.

Record iinv (s : isys C) (a : bst) (q : list nat) : Prop := {
  iv_lock : idelock (drv s) = false;
  iv_have : havedisk1 (drv s) = true;
  iv_wakes : wakes (drv s) = [];
  iv_chain : chain (idequeue (drv s)) (qnext (drv s)) q;
  iv_nodup : NoDup q;
  iv_queued i : i ∈ q -> calls s !! i = Some false;
  iv_asleep i : calls s !! i = Some false -> i ∈ q;
  iv_awake i : calls s !! i = Some true -> exists b, ibufs (drv s) !! i = Some b /\ fresh b = true;
  iv_req i : i ∈ q -> exists b, ibufs (drv s) !! i = Some b /\ request b;
  iv_bufs : Forall2 same_buf (ibufs (drv s)) (bufs a);
  iv_cmd : match q with
           | [] => cmd (ctl (drv s)) = Idle
           | i :: _ => exists b, ibufs (drv s) !! i = Some b /\ active (ctl (drv s)) b
           end;
  iv_disk n : 0 <= n < FSSIZE -> ~ in_write (drv s) q n ->
    sector (ctl (drv s)) 1 n = load (disk a n) 0 (Z.to_nat BSIZE);
  iv_size : disksize a = FSSIZE
}.

(** ** The controller's side *)

(** [c'] is [c] after polling. *)
Definition polled (c c' : C) : Prop :=
  (forall d n, sector c' d n = sector c d n) /\ (forall p, ireg c' p = ireg c p) /\ cmd c' = cmd c.

Lemma polled_trans c1 c2 c3 : polled c1 c2 -> polled c2 c3 -> polled c1 c3.
Proof. intros (A1 & A2 & A3) (B1 & B2 & B3). split_and!; intros; by rewrite ?B1, ?B2, ?B3. Qed.

Lemma idewait_loop_ok n checkerr (s : ide C) :
  (delay (ctl s) < n)%nat ->
  exists c', idewait_loop n checkerr s = Ok (0, set_ctl c' s) /\ polled (ctl s) c' /\ ready c' = true.
Proof.
  revert s. induction n as [|n IH]; intros s Hn; [lia|]. cbn [idewait_loop]. unfold in_port, mbind at 1.
  destruct (inb 0x1f7 (ctl s)) as [r c1] eqn:E. cbn [obind]. destruct (inb_status _ _ _ E) as (A1 & A2 & A3 & A4).
  destruct (Z.land r (Z.lor IDE_BSY IDE_DRDY) =? IDE_DRDY); cbn [negb].
  - destruct A4 as [A4 A5]. rewrite A5, Z.eqb_refl, andb_false_r. by exists c1.
  - destruct (IH (set_ctl c1 s)) as (c' & Hrun & Hp & Hr); [cbn; lia|].
    exists c'. split_and!; [by rewrite Hrun|by apply (polled_trans _ c1)|done].
Qed.

Lemma idewait_ok checkerr (s : ide C) :
  exists c', idewait patience checkerr s = Ok (0, set_ctl c' s) /\ polled (ctl s) c' /\ ready c' = true.
Proof. apply idewait_loop_ok, delay_bound. Qed.

(** [c], idle and ready, with the registers [m] and the drives of [c0]. *)
Definition programmed (c0 c : C) (m : Z -> Z) : Prop :=
  ready c = true /\ cmd c = Idle /\ (forall d n, sector c d n = sector c0 d n) /\ (forall q, ireg c q = m q).

Lemma programmed_outb c0 c m p v :
  programmed c0 c m -> p ∈ [0x3f6; 0x1f2; 0x1f3; 0x1f4; 0x1f5; 0x1f6] -> programmed c0 (outb p v c) (<[p := v]> m).
Proof.
  intros (A1 & A2 & A3 & A4) Hp. destruct (outb_reg c p v A1 A2 Hp) as (B1 & B2 & B3 & B4).
  split_and!; [done|done|intros; by rewrite B1|]. intros q. rewrite B2. unfold insert, fn_insert. destruct (decide _); [done|apply A4].
Qed.

Lemma lba_bytes n :
  0 <= n < 2 ^ 24 ->
  u8 (Z.land n 0xff) + Z.shiftl (u8 (Z.land (Z.shiftr n 8) 0xff)) 8 + Z.shiftl (u8 (Z.land (Z.shiftr n 16) 0xff)) 16 = n.
Proof.
  intros Hn. unfold u8. change 0xff with (Z.ones 8). rewrite !Z.land_ones, !Z.shiftl_mul_pow2, !Z.shiftr_div_pow2 by lia.
  change (2 ^ 8) with 256. change (2 ^ 16) with 65536. zlia.
Qed.

(** The registers when a request for sector [n] of drive 1 is set up. *)
Definition lba_regs (n : Z) (m : Z -> Z) : Z -> Z :=
  <[0x1f6 := 0xf0]> (<[0x1f5 := u8 (Z.land (Z.shiftr n 16) 0xff)]> (<[0x1f4 := u8 (Z.land (Z.shiftr n 8) 0xff)]>
    (<[0x1f3 := u8 (Z.land n 0xff)]> (<[0x1f2 := 1]> (<[0x3f6 := 0]> m))))).

Lemma programmed_set_up c0 c n m :
  programmed c0 c (lba_regs n m) -> 0 <= n < FSSIZE -> set_up c /\ drive_sel c = 1 /\ lba c = n.
Proof.
  intros (A1 & A2 & A3 & A4) Hn. unfold set_up, drive_sel, lba. rewrite !A4. split_and!; [done..|].
  unfold FSSIZE in Hn. change (Z.shiftl (Z.land (lba_regs n m 502) 15) 24) with 0. rewrite Z.add_0_r. apply lba_bytes. lia.
Qed.

(** The controller after [idestart] for the buffer [b]. *)
Definition started (c0 c : C) (b : buf) : Prop :=
  if dirty b then
    cmd c = Idle /\
    (forall d n, sector c d n = if decide (d = 1 /\ n = b_blockno b) then block b else sector c0 d n)
  else cmd c = Reading 1 (b_blockno b) /\ (forall d n, sector c d n = sector c0 d n).

Lemma idestart_ok (s : ide C) i b :
  ibufs s !! i = Some b -> request b -> cmd (ctl s) = Idle ->
  exists c', idestart patience (Some i) s = Ok (tt, set_ctl c' s) /\ started (ctl s) c' b.
Proof.
  intros Hb (_ & _ & Hdev & Hblk & Hby) Hc. unfold idestart. rewrite (mbind_ok _ _ s b s) by (unfold get_buf; by rewrite Hb).
  rewrite Z.geb_leb, (proj2 (Z.leb_gt _ _)) by (unfold FSSIZE in *; lia).
  change (BSIZE / SECTOR_SIZE) with 1. change (1 =? 1) with true. change (1 >? 7) with false. cbv iota zeta.
  rewrite Z.mul_1_r, s32_small by (unfold FSSIZE in *; lia). rewrite Hdev. change (Z.shiftl (Z.land 1 1) 4) with 16.
  assert (H24 : Z.shiftr (b_blockno b) 24 = 0) by (rewrite Z.shiftr_div_pow2 by lia; apply Z.div_small; unfold FSSIZE in *; lia).
  rewrite H24. destruct (idewait_ok false s) as (c1 & E1 & (P1 & P2 & P3) & R1). mby E1.
  assert (H0 : programmed (ctl s) c1 (ireg c1)) by (split_and!; [done|by rewrite P3|done|done]).
  unfold out_port. mgo. cbn [ctl set_ctl].
  set (c2 := outb 0x1f6 _ _).
  assert (H2 : programmed (ctl s) c2 (lba_regs (b_blockno b) (ireg c1))).
  { unfold c2, lba_regs. repeat (apply programmed_outb; [|rewrite list_elem_of_In; cbn; lia]). exact H0. }
  destruct (programmed_set_up _ _ _ _ H2 Hblk) as (U & Ud & Ul).
  destruct H2 as (_ & _ & S2 & _). unfold started. change (negb (Z.land (b_flags b) B_DIRTY =? 0)) with (dirty b).
  destruct (dirty b); mgo; cbn [ctl set_ctl].
  - change (u8 IDE_CMD_WRITE) with IDE_CMD_WRITE. destruct (outb_write c2 U) as [W1 W2]. rewrite Ud, Ul in W2.
    destruct (outsl_data _ _ _ (block b) W2) as [X1 X2]; [unfold block; by rewrite length_load|done|].
    eexists. split; [reflexivity|]. split; [exact X2|]. intros d n. rewrite <- S2, <- W1. apply X1.
  - change (u8 IDE_CMD_READ) with IDE_CMD_READ. destruct (outb_read c2 U) as [W1 W2]. rewrite Ud, Ul in W2.
    eexists. split; [reflexivity|]. split; [exact W2|]. intros d n. by rewrite <- S2, <- W1.
Qed.

(** ** The queue *)

Lemma chain_insert o nx q i v : i ∉ q -> chain o nx q -> chain o (<[i := v]> nx) q.
Proof.
  revert o. induction q as [|j q IH]; intros o Hi; [done|]. intros [-> H]. apply not_elem_of_cons in Hi as [Hne Hi].
  split; [done|]. rewrite fn_lookup_insert_ne by done. by apply IH.
Qed.

(** The walk to the end of the queue, and the new link there. *)
Lemma queue_end_ok q n pp (s : ide C) :
  chain (link_of pp s) (qnext s) q -> (length q <= n)%nat ->
  queue_end n pp s = Ok (match last q with Some j => Some j | None => pp end, s).
Proof.
  revert n pp. induction q as [|j q IH]; intros n pp Hc Hn.
  - cbn in Hc. destruct n; cbn [queue_end]; mgo; by rewrite Hc.
  - destruct Hc as [Hl Hc]. destruct n as [|n]; [cbn in Hn; lia|]. cbn [queue_end]. mgo. rewrite Hl.
    rewrite (IH n (Some j)) by (done || (cbn in Hn; lia)). rewrite last_cons. by destruct (last q).
Qed.

Lemma chain_snoc o nx q i :
  chain o nx q -> NoDup q -> i ∉ q -> nx i = None ->
  match last q with
  | Some j => chain o (<[j := Some i]> nx) (q ++ [i])
  | None => o = None /\ q = []
  end.
Proof.
  revert o. induction q as [|j q IH]; intros o Hc Hn Hi Hx; [done|]. destruct Hc as [-> Hc].
  apply NoDup_cons in Hn as [Hj Hn]. apply not_elem_of_cons in Hi as [Hne Hi]. specialize (IH _ Hc Hn Hi Hx).
  rewrite last_cons. destruct (last q) as [k|] eqn:El.
  - cbn [app chain]. split; [done|]. rewrite fn_lookup_insert_ne; [exact IH|]. intros ->.
    apply Hj. apply last_Some in El as [l' ->]. apply elem_of_app. right. by apply list_elem_of_singleton.
  - destruct IH as [_ ->]. cbn. rewrite fn_lookup_insert, fn_lookup_insert_ne by done. done.
Qed.

Lemma queue_bound (q : list nat) n : NoDup q -> (forall i, i ∈ q -> (i < n)%nat) -> (length q <= n)%nat.
Proof.
  intros Hn Hb. rewrite <- (length_seq n 0). apply submseteq_length, NoDup_submseteq; [done|].
  intros i Hi. apply elem_of_seq. specialize (Hb i Hi). lia.
Qed.

Lemma settle_nil (d : ide C) cs : wakes d = [] -> settle d cs = mkisys d cs.
Proof.
  intros Hw. unfold settle. f_equal.
  - destruct d; cbn in *. by subst.
  - apply map_eq. intros i. rewrite map_lookup_imap, Hw. destruct (cs !! i) as [[]|]; reflexivity.
Qed.

Lemma set_ibufs_id (s : ide C) i b l : ibufs s !! i = Some b -> b_lock b = l -> set_ibufs (alter (set_b_lock l) i (ibufs s)) s = s.
Proof.
  intros Hb <-. rewrite (alter_insert _ _ _ _ Hb). replace (set_b_lock (b_lock b) b) with b by (by destruct b).
  rewrite list_insert_id by done. by destruct s.
Qed.

Lemma iderw_test_wait (s : ide C) i b :
  ibufs s !! i = Some b -> fresh b = false -> idelock s = true -> iderw_test i s = Ok (false, set_idelock false s).
Proof.
  intros Hb Hf Hl. unfold iderw_test. rewrite (mbind_ok _ _ s b s) by (unfold get_buf; by rewrite Hb).
  change (Z.land (b_flags b) (Z.lor B_VALID B_DIRTY) =? B_VALID) with (fresh b). rewrite Hf. cbn [negb].
  unfold iunlockd, release. unfold mbind at 1. by rewrite Hl.
Qed.

(** The queue with the request for [i] at its end. *)
Definition enqueue (i : nat) (q : list nat) (s : ide C) : ide C :=
  match last q with
  | None => set_idequeue (Some i) (set_qnext (<[i := None]> (qnext s)) (set_idelock true s))
  | Some j => set_qnext (<[j := Some i]> (<[i := None]> (qnext s))) (set_idelock true s)
  end.

Lemma enqueue_chain i q (s : ide C) :
  chain (idequeue s) (qnext s) q -> NoDup q -> i ∉ q -> chain (idequeue (enqueue i q s)) (qnext (enqueue i q s)) (q ++ [i]).
Proof.
  intros Hc Hn Hi. pose proof (chain_snoc (idequeue s) (<[i := None]> (qnext s)) q i (chain_insert _ _ _ _ _ Hi Hc) Hn Hi
    (fn_lookup_insert _ _ _)) as H. unfold enqueue. destruct (last q) as [j|]; [done|]. destruct H as [_ ->]. cbn. by rewrite fn_lookup_insert.
Qed.

Lemma iderw_enqueues (s : ide C) q i b :
  idelock s = false -> havedisk1 s = true -> chain (idequeue s) (qnext s) q -> i ∉ q -> (length q <= length (ibufs s))%nat ->
  ibufs s !! i = Some b -> request b ->
  iderw patience (sl_pid (b_lock b)) i s =
    (mwhen (bool_decide (idequeue (enqueue i q s) = Some i)) (idestart patience (Some i)) ;;! iderw_test i) (enqueue i q s).
Proof.
  intros Hl Hh Hc Hi Hq Hb (Hlk & Hf & Hdev & _). unfold iderw. rewrite (mbind_ok _ _ s b s) by (unfold get_buf; by rewrite Hb).
  unfold mbind at 1. rewrite Hlk, holdingsleep_held. cbn [obind sl_pid sl_held]. rewrite (set_ibufs_id _ _ b) by done.
  cbn [negb]. change (Z.land (b_flags b) (Z.lor B_VALID B_DIRTY) =? B_VALID) with (fresh b). rewrite Hf. mgo.
  rewrite Hh, andb_false_r. unfold ilockd, acquire. unfold mbind at 1. rewrite Hl. cbn [obind]. mgo.
  set (s1 := set_qnext _ _).
  assert (Hc1 : chain (link_of None s1) (qnext s1) q) by (by apply chain_insert).
  rewrite (mbind_ok _ _ _ _ _ (queue_end_ok q _ None s1 Hc1 Hq)). unfold enqueue. destruct (last q); cbn [set_link]; mgo; reflexivity.
Qed.

(** The parts of the invariant that do not depend on the controller. *)
Lemma iinv_enqueue (s : isys C) a q i b c' :
  iinv s a q -> calls s !! i = None -> ibufs (drv s) !! i = Some b -> request b ->
  match q ++ [i] with
  | [] => True
  | j :: _ => exists b, ibufs (drv s) !! j = Some b /\ active c' b
  end ->
  (forall n, 0 <= n < FSSIZE -> ~ in_write (drv s) (q ++ [i]) n -> sector c' 1 n = load (disk a n) 0 (Z.to_nat BSIZE)) ->
  iinv (mkisys (set_idelock false (set_ctl c' (enqueue i q (drv s)))) (<[i := false]> (calls s))) a (q ++ [i]).
Proof.
  intros [V1 V2 V3 V4 V5 V6 V7 V8 V9 V10 V11 V12 V13] Hi Hb Hr Hcmd Hdisk.
  assert (Hiq : i ∉ q) by (intros H; by rewrite (V6 _ H) in Hi).
  assert (Ef : ibufs (enqueue i q (drv s)) = ibufs (drv s) /\ havedisk1 (enqueue i q (drv s)) = havedisk1 (drv s) /\
    wakes (enqueue i q (drv s)) = wakes (drv s)) by (unfold enqueue; by destruct (last q)).
  destruct Ef as (Eb & Eh & Ew).
  split; cbn [drv calls idelock havedisk1 wakes idequeue qnext ibufs ctl set_idelock set_ctl]; rewrite ?Eb, ?Eh, ?Ew; try done.
  - by apply enqueue_chain.
  - apply NoDup_app. split_and!; [done| |apply NoDup_singleton]. intros x Hx ->%list_elem_of_singleton. done.
  - intros j [Hj| ->%list_elem_of_singleton]%elem_of_app; [|by rewrite lookup_insert_eq].
    rewrite lookup_insert_ne by (by intros ->). by apply V6.
  - intros j Hj. apply elem_of_app. destruct (decide (j = i)) as [->|Hne]; [right; by apply list_elem_of_singleton|left].
    rewrite lookup_insert_ne in Hj by done. by apply V7.
  - intros j Hj. destruct (decide (j = i)) as [->|Hne]; [by rewrite lookup_insert_eq in Hj|].
    rewrite lookup_insert_ne in Hj by done. by apply V8.
  - intros j [Hj| ->%list_elem_of_singleton]%elem_of_app; [by apply V9|by exists b].
  - by destruct (q ++ [i]) eqn:E; [destruct q|].
  - intros n Hn Hw. apply Hdisk; [done|]. intros (j & q' & b' & Hw'). apply Hw. exists j, q', b'. cbn. by rewrite Eb.
Qed.

Lemma iderw_step (s : isys C) a q i b :
  iinv s a q -> calls s !! i = None -> ibufs (drv s) !! i = Some b -> request b ->
  exists d, iderw patience (sl_pid (b_lock b)) i (drv s) = Ok (false, d) /\
    iinv (settle d (<[i := false]> (calls s))) a (q ++ [i]).
Proof.
  intros V Hi Hb Hr. pose proof V as [V1 V2 V3 V4 V5 V6 V7 V8 V9 V10 V11 V12 V13].
  assert (Hiq : i ∉ q) by (intros H; by rewrite (V6 _ H) in Hi).
  assert (Hlen : (length q <= length (ibufs (drv s)))%nat).
  { apply queue_bound; [done|]. intros j Hj. destruct (V9 j Hj) as (b' & Hb' & _). by eapply lookup_lt_Some. }
  rewrite (iderw_enqueues (drv s) q i b V1 V2 V4 Hiq Hlen Hb Hr). pose proof Hr as (_ & Hf & _).
  destruct q as [|h q].
  - set (e := enqueue i [] (drv s)). change (bool_decide (idequeue e = Some i)) with (bool_decide (Some i = Some i)).
    rewrite bool_decide_true by done. cbn [mwhen]. destruct (idestart_ok e i b Hb Hr V11) as (c' & E & Hs). mby E.
    eexists. split; [apply (iderw_test_wait _ i b); done|]. rewrite settle_nil by done.
    unfold started in Hs. apply (iinv_enqueue s a [] i b c'); try done; cbn [app].
    + exists b. split; [done|]. unfold active. destruct (dirty b); [|apply Hs]. destruct Hs as [Hs1 Hs2].
      split; [done|]. rewrite Hs2. by rewrite decide_True.
    + intros n Hn Hw. transitivity (sector (ctl (drv s)) 1 n).
      2:{ apply V12; [done|]. by intros (? & ? & ? & ? & _). }
      destruct (dirty b) eqn:Ed; [|apply Hs]. destruct Hs as [_ Hs]. rewrite Hs. apply decide_False. intros [_ ->].
      apply Hw. by exists i, [], b.
  - destruct V4 as [V4 V4']. set (e := enqueue i (h :: q) (drv s)). assert (Ee : idequeue e = Some h).
    { unfold e, enqueue. destruct (last (h :: q)) eqn:El; [done|]. by apply last_None in El. }
    rewrite Ee, bool_decide_false by (intros [= ->]; apply Hiq; by left). cbn [mwhen]. mgo.
    assert (Eb : ibufs e = ibufs (drv s) /\ idelock e = true /\ ctl e = ctl (drv s) /\ wakes e = wakes (drv s)) by (unfold e, enqueue; by destruct (last (h :: q))).
    destruct Eb as (Eb & El & Ec & Ew). eexists. split; [apply (iderw_test_wait _ i b); [by rewrite Eb|done|done]|].
    rewrite settle_nil by (by rewrite <- V3, <- Ew). replace e with (set_ctl (ctl (drv s)) e) by (rewrite <- Ec; by destruct e).
    apply (iinv_enqueue s a (h :: q) i b (ctl (drv s)) V Hi Hb Hr); [exact V11|].
    intros n Hn Hw. apply V12; [done|]. intros (j & q' & b' & Hq & Hw'). apply Hw. injection Hq as <- <-. by exists h, (q ++ [i]), b'.
Qed.

(** ** The end of a request *)

(** The buffer when its request is done; [l] is the block on the disk. *)
Definition serve (b : buf) (l : list Z) : buf :=
  set_b_flags (Z.land (Z.lor (b_flags b) B_VALID) (Z.lnot B_DIRTY))
    (if dirty b then b else set_b_data (store (b_data b) 0 l) b).

Lemma alter_alter_insert (f g : buf -> buf) i (l : list buf) b :
  l !! i = Some b -> alter f i (alter g i l) = <[i := f (g b)]> l.
Proof.
  intros H. rewrite (alter_insert g i l b H). rewrite (alter_insert f i _ (g b)).
  - apply list_insert_insert_eq.
  - apply list_lookup_insert_eq. by eapply lookup_lt_Some.
Qed.

Lemma ideintr_serves (s : ide C) i b :
  idelock s = false -> idequeue s = Some i -> wakes s = [] -> ibufs s !! i = Some b -> request b -> active (ctl s) b ->
  exists c', cmd c' = Idle /\ (forall d n, sector c' d n = sector (ctl s) d n) /\
    ideintr patience s =
      (mwhen (match qnext s i with Some _ => true | None => false end) (idestart patience (qnext s i)) ;;! iunlockd)
        (mkide true (qnext s i) (qnext s) (havedisk1 s)
           (<[i := serve b (sector (ctl s) 1 (b_blockno b))]> (ibufs s)) c' [i]).
Proof.
  intros Hl Hq Hw Hb Hr Ha. unfold ideintr, ilockd, acquire. unfold mbind at 1. rewrite Hl. cbn [obind]. mgo.
  change (idequeue (set_idelock true s)) with (idequeue s). rewrite Hq. mgo.
  rewrite (mbind_ok _ _ _ b (set_idequeue (qnext s i) (set_idelock true s))) by (unfold get_buf; cbn; by rewrite Hb).
  unfold active in Ha. unfold dirty in *. destruct (Z.land (b_flags b) B_DIRTY =? 0) eqn:Ed; cbn [negb] in *.
  - destruct (idewait_ok true (set_idequeue (qnext s i) (set_idelock true s))) as (c1 & E1 & (P1 & P2 & P3) & R1).
    cbv beta. mgo. mby E1. cbn [mwhen Z.geb Z.compare]. change (BSIZE / 4) with (SECTOR_SIZE / 4).
    unfold mbind at 1. cbn [ctl set_ctl]. destruct (insl 0x1f0 (SECTOR_SIZE / 4) c1) as [l c2] eqn:E2.
    cbn [ctl set_idequeue set_idelock] in P1, P3. rewrite Ha in P3.
    destruct (insl_data _ _ _ _ _ P3 R1 E2) as (-> & S2 & C2). cbn [obind].
    exists c2. split; [done|]. split; [intros; by rewrite S2, P1|]. unfold set_buf. mgo.
    cbn [ibufs set_ibufs set_ctl set_idequeue set_idelock set_wakes wakes idequeue qnext havedisk1 ctl]. rewrite Hw.
    rewrite (alter_insert _ i _ b Hb). rewrite (alter_alter_insert _ _ i _ (set_b_data (store (b_data b) 0 (sector c1 1 (b_blockno b))) b))
      by (apply list_lookup_insert_eq; by eapply lookup_lt_Some).
    rewrite list_insert_insert_eq. unfold serve, dirty. rewrite Ed, P1. reflexivity.
  - exists (ctl s). destruct Ha as [Ha _]. split; [done|]. split; [done|]. unfold set_buf. mgo.
    cbn [ibufs set_ibufs set_ctl set_idequeue set_idelock set_wakes wakes idequeue qnext havedisk1 ctl]. rewrite Hw.
    rewrite (alter_alter_insert _ _ i _ b Hb). unfold serve, dirty. rewrite Ed. reflexivity.
Qed.

Lemma flags_served f : Z.land (Z.lor f B_VALID) (Z.lnot B_DIRTY) = Z.lor (Z.land f (Z.lnot B_DIRTY)) B_VALID.
Proof. by rewrite Z.land_lor_distr_l. Qed.

Lemma flags_clean f : Z.land f B_DIRTY = 0 -> Z.land f (Z.lnot B_DIRTY) = f.
Proof.
  intros H. rewrite <- Z.ldiff_land. apply Z.bits_inj'. intros n Hn. rewrite Z.ldiff_spec.
  apply (f_equal (fun x => Z.testbit x n)) in H. rewrite Z.land_spec, Z.bits_0 in H.
  destruct (Z.testbit f n), (Z.testbit B_DIRTY n); done.
Qed.

Lemma serve_fresh b l : fresh (serve b l) = true.
Proof.
  unfold fresh, serve. apply Z.eqb_eq. cbn [b_flags set_b_flags].
  assert (E : Z.land (Z.land (Z.lor (b_flags b) B_VALID) (Z.lnot B_DIRTY)) (Z.lor B_VALID B_DIRTY) = Z.land (Z.lor (b_flags b) B_VALID) B_VALID).
  { rewrite <- Z.land_assoc. done. }
  transitivity (Z.land (Z.land (Z.lor (b_flags b) B_VALID) (Z.lnot B_DIRTY)) (Z.lor B_VALID B_DIRTY)).
  { destruct (dirty b); done. }
  rewrite E. apply Z.bits_inj'. intros n Hn. rewrite Z.land_spec, Z.lor_spec. by destruct (Z.testbit (b_flags b) n), (Z.testbit B_VALID n).
Qed.

(** [serve] is what [iderw] of the memory disk does. *)
Lemma memide_serves a i b b' :
  same_buf b b' -> bufs a !! i = Some b' -> request b -> disksize a = FSSIZE ->
  (dirty b = false -> Forall is_byte (load (disk a (b_blockno b)) 0 (Z.to_nat BSIZE))) ->
  exists a' b1, apply_event (Served i) a = Ok a' /\ bufs a' = <[i := b1]> (bufs a) /\
    same_buf (serve b (load (disk a (b_blockno b)) 0 (Z.to_nat BSIZE))) b1 /\
    disk a' = (if dirty b then <[b_blockno b := b_data b']> (disk a) else disk a) /\ disksize a' = FSSIZE.
Proof.
  intros (S1 & S2 & S3 & S4 & S5 & S6) Hb (Hlk & Hf & Hdev & Hblk & Hby) Hsz Hld. unfold apply_event. rewrite Hb.
  set (a0 := set_curpid (sl_pid (b_lock b')) a). assert (Hb0 : bufs a0 !! i = Some b') by done.
  assert (Hl0 : b_lock b' = sl_held (curpid a0)) by (cbn; by rewrite <- S4, <- Hlk).
  unfold Bio.iderw. mgo. mby (holding_eq a0 i b' Hb0 Hl0). cbn [negb]. mby (getb_eq a0 i b' Hb0).
  change (Z.land (b_flags b') (Z.lor B_VALID B_DIRTY) =? B_VALID) with (fresh b').
  change (negb (Z.land (b_flags b') B_DIRTY =? 0)) with (dirty b').
  assert (Ef : fresh b' = false) by (unfold fresh in *; by rewrite <- S1). rewrite Ef, <- S2, Hdev, <- S3. cbn [negb Z.eqb Pos.eqb]. mgo.
  change (disksize a0) with (disksize a). rewrite Hsz, u32_small, Z.geb_leb, (proj2 (Z.leb_gt _ _)) by (unfold is_u32, FSSIZE in *; lia).
  assert (Ed : dirty b' = dirty b) by (unfold dirty; by rewrite S1). rewrite Ed. unfold serve, dirty in *.
  destruct (Z.land (b_flags b) B_DIRTY =? 0) eqn:E0; cbn [negb]; mgo.
  - mby (setb_eq a0 i (set_b_data (disk a0 (b_blockno b))) b' Hb0). rewrite (setb_eq _ i _ _ (upd_lookup a0 i _ b' Hb0)), upd_upd.
    cbn [obind]. eexists _, _. split; [reflexivity|]. split; [reflexivity|]. split; [|done].
    apply Z.eqb_eq in E0. unfold same_buf, block. cbn. rewrite <- S1, flags_served, flags_clean by done. split_and!; try done.
    rewrite <- (length_load (disk a (b_blockno b)) 0 (Z.to_nat BSIZE)) at 2. apply load_store, Hld. reflexivity.
  - mby (setb_eq a0 i (fun b => set_b_flags (Z.land (b_flags b) (Z.lnot B_DIRTY)) b) b' Hb0). set (a1 := set_written _ _).
    rewrite (setb_eq a1 i _ _ (upd_lookup a0 i _ b' Hb0)). cbn [obind]. eexists _, _. split; [reflexivity|].
    split; [unfold upd, a1; cbn; by rewrite list_insert_insert_eq|]. split; [|done].
    unfold same_buf. cbn. rewrite <- S1, flags_served. split_and!; done.
Qed.

Lemma chain_nodup_next o nx i q : chain o nx (i :: q) -> chain (nx i) nx q.
Proof. by intros [_ H]. Qed.

Lemma same_bufs_lookup l l' i b : Forall2 same_buf l l' -> l !! i = Some b -> exists b', l' !! i = Some b' /\ same_buf b b'.
Proof. intros H Hb. destruct (Forall2_lookup_l _ _ _ _ _ H Hb) as (b' & ? & ?). by exists b'. Qed.

(** The next request is started, if there is one. *)
Lemma start_next (s : ide C) q :
  chain (idequeue s) (qnext s) q -> (forall i, i ∈ q -> exists b, ibufs s !! i = Some b /\ request b) ->
  cmd (ctl s) = Idle -> idelock s = true ->
  exists c', (mwhen (match idequeue s with Some _ => true | None => false end) (idestart patience (idequeue s)) ;;! iunlockd) s =
      Ok (tt, set_idelock false (set_ctl c' s)) /\
    match q with [] => cmd c' = Idle | i :: _ => exists b, ibufs s !! i = Some b /\ active c' b end /\
    forall n, ~ in_write s q n -> sector c' 1 n = sector (ctl s) 1 n.
Proof.
  intros Hc Hr Hi Hl. destruct q as [|i q].
  - cbn in Hc. rewrite Hc. cbn [mwhen]. mgo. exists (ctl s). split_and!; [|done|done].
    unfold iunlockd, release. rewrite Hl. by destruct s.
  - destruct Hc as [Hc _]. rewrite Hc. cbn [mwhen]. destruct (Hr i) as (b & Hb & Hrq); [by left|].
    destruct (idestart_ok s i b Hb Hrq Hi) as (c' & E & Hs). mby E. exists c'. unfold started in Hs. split_and!.
    + unfold iunlockd, release. cbn. by rewrite Hl.
    + exists b. split; [done|]. unfold active. destruct (dirty b); [|apply Hs]. destruct Hs as [Hs1 Hs2].
      split; [done|]. rewrite Hs2. by rewrite decide_True.
    + intros n Hn. destruct (dirty b) eqn:Ed; [|apply Hs]. destruct Hs as [_ Hs]. rewrite Hs. apply decide_False. intros [_ ->].
      apply Hn. by exists i, q, b.
Qed.

Lemma settle_lookup (d : ide C) cs j : calls (settle d cs) !! j = (fun aw => aw || bool_decide (j ∈ wakes d)) <$> cs !! j.
Proof. unfold settle. cbn [calls]. rewrite map_lookup_imap. by destruct (cs !! j). Qed.

(** The invariant after the request for [i] is done and the next one started. *)
Lemma iinv_served (s : isys C) a a' i q b b1 c' :
  iinv s a (i :: q) -> ibufs (drv s) !! i = Some b ->
  let bs := <[i := serve b (sector (ctl (drv s)) 1 (b_blockno b))]> (ibufs (drv s)) in
  let d := mkide false (qnext (drv s) i) (qnext (drv s)) (havedisk1 (drv s)) bs c' [i] in
  same_buf (serve b (sector (ctl (drv s)) 1 (b_blockno b))) b1 -> bufs a' = <[i := b1]> (bufs a) -> disksize a' = FSSIZE ->
  match q with [] => cmd c' = Idle | j :: _ => exists b, bs !! j = Some b /\ active c' b end ->
  (forall n, 0 <= n < FSSIZE -> ~ in_write d q n -> sector c' 1 n = load (disk a' n) 0 (Z.to_nat BSIZE)) ->
  iinv (settle d (calls s)) a' q.
Proof.
  intros [V1 V2 V3 V4 V5 V6 V7 V8 V9 V10 V11 V12 V13] Hb bs d Hsb Hba Hsz Hcmd Hdisk.
  apply NoDup_cons in V5 as [Hiq Hnd]. destruct V4 as [V4 V4'].
  assert (Hl : (i < length (ibufs (drv s)))%nat) by (by eapply lookup_lt_Some).
  assert (Hne : forall j, j ∈ q -> j <> i) by (by intros j Hj ->).
  assert (Hbs : forall j, j <> i -> bs !! j = ibufs (drv s) !! j) by (intros j Hj; by apply list_lookup_insert_ne).
  split; try done; intros; rewrite ?settle_lookup in *.
  - rewrite V6 by (by right). cbn. f_equal. apply bool_decide_false. intros ?%list_elem_of_singleton. by apply (Hne i0).
  - destruct (calls s !! i0) as [aw|] eqn:E; [|done]. cbn in H. destruct aw; [done|]. cbn in H. injection H as H.
    apply bool_decide_eq_false in H. destruct (proj1 (elem_of_cons _ _ _) (V7 _ E)) as [->|]; [|done].
    exfalso. apply H. by apply list_elem_of_singleton.
  - destruct (decide (i0 = i)) as [->|Hn].
    + exists (serve b (sector (ctl (drv s)) 1 (b_blockno b))). split; [by apply list_lookup_insert_eq|apply serve_fresh].
    + destruct (calls s !! i0) as [aw|] eqn:E; [|done]. cbn in H. rewrite bool_decide_false in H by (by intros ?%list_elem_of_singleton).
      rewrite orb_false_r in H. injection H as ->. change (ibufs (drv (settle d (calls s)))) with bs. rewrite Hbs by done. by apply V8.
  - change (ibufs (drv (settle d (calls s)))) with bs. rewrite Hbs by (by apply Hne). apply V9. by right.
  - rewrite Hba. by apply Forall2_insert.
Qed.

Lemma ideintr_step (s : isys C) a i q :
  iinv s a (i :: q) ->
  exists d a', ideintr patience (drv s) = Ok (tt, d) /\ apply_event (Served i) a = Ok a' /\ iinv (settle d (calls s)) a' q /\
    calls (settle d (calls s)) !! i = Some true.
Proof.
  intros V. pose proof V as [V1 V2 V3 V4 V5 V6 V7 V8 V9 V10 V11 V12 V13].
  destruct (V9 i) as (b & Hb & Hr); [by left|]. destruct V11 as (b0 & Hb0 & Ha). rewrite Hb in Hb0. injection Hb0 as <-.
  destruct V4 as [V4 V4']. apply NoDup_cons in V5 as [Hiq Hnd].
  destruct (ideintr_serves (drv s) i b V1 V4 V3 Hb Hr Ha) as (c1 & C1 & S1 & E1). rewrite E1.
  set (l := sector (ctl (drv s)) 1 (b_blockno b)) in *. pose proof Hr as (_ & _ & _ & Hblk & _).
  destruct (start_next (mkide true (qnext (drv s) i) (qnext (drv s)) (havedisk1 (drv s)) (<[i := serve b l]> (ibufs (drv s))) c1 [i]) q V4')
    as (c' & E2 & Hcmd & Hsec); [|exact C1|done|].
  { intros j Hj. cbn. rewrite list_lookup_insert_ne by (by intros ->). apply V9. by right. }
  cbn [idequeue] in E2. rewrite E2. cbn [ibufs ctl] in Hcmd, Hsec.
  destruct (same_bufs_lookup _ _ _ _ V10 Hb) as (b' & Hb' & Hs).
  assert (Hld : dirty b = false -> l = load (disk a (b_blockno b)) 0 (Z.to_nat BSIZE)).
  { intros Hd. apply V12; [done|]. intros (j & q' & b2 & [= <- <-] & Hb2 & Hd2 & _). congruence. }
  destruct (memide_serves a i b b' Hs Hb' Hr V13) as (a' & b1 & Eev & Hba & Hsb & Hda & Hsz).
  { intros Hd. rewrite <- Hld by done. apply sector_bytes. }
  exists (set_idelock false (set_ctl c' (mkide true (qnext (drv s) i) (qnext (drv s)) (havedisk1 (drv s)) (<[i := serve b l]> (ibufs (drv s))) c1 [i]))), a'.
  split_and!; [done|done| |].
  - apply (iinv_served s a a' i q b b1 c' V Hb); try done.
    + unfold serve in *. destruct (dirty b); [done|]. fold l. by rewrite Hld.
    + intros n Hn Hw. rewrite Hsec, S1, Hda by done. destruct (dirty b) eqn:Ed.
      * destruct (decide (n = b_blockno b)) as [->|Hne].
        -- rewrite fn_lookup_insert. unfold active in Ha. rewrite Ed in Ha. destruct Ha as [_ ->]. apply Hs.
        -- rewrite fn_lookup_insert_ne by done. apply V12; [done|].
           intros (j & q' & b2 & [= <- <-] & Hb2 & _ & Hn2). congruence.
      * apply V12; [done|]. intros (j & q' & b2 & [= <- <-] & Hb2 & Hd2 & _). congruence.
  - rewrite settle_lookup, V6 by (by left). cbn. f_equal. apply bool_decide_true. by apply list_elem_of_singleton.
Qed.

Lemma ideintr_idle (s : isys C) a : iinv s a [] -> ideintr patience (drv s) = Ok (tt, drv s).
Proof.
  intros [V1 V2 V3 V4 V5 V6 V7 V8 V9 V10 V11 V12 V13]. cbn in V4. unfold ideintr, ilockd, acquire. unfold mbind at 1. rewrite V1. cbn [obind]. mgo.
  change (idequeue (set_idelock true (drv s))) with (idequeue (drv s)). rewrite V4. unfold iunlockd, release. cbn. do 2 f_equal.
  destruct (drv s). cbn in *. by subst.
Qed.

Lemma iderw_resume_returns (s : isys C) a q i :
  iinv s a q -> calls s !! i = Some true -> iderw_resume i (drv s) = Ok (true, drv s).
Proof.
  intros [V1 V2 V3 V4 V5 V6 V7 V8 V9 V10 V11 V12 V13] Hi. destruct (V8 i Hi) as (b & Hb & Hf).
  unfold iderw_resume, ilockd, acquire. unfold mbind at 1. rewrite V1. cbn [obind]. unfold iderw_test.
  rewrite (mbind_ok _ _ _ b (set_idelock true (drv s))) by (unfold get_buf; cbn; by rewrite Hb).
  change (Z.land (b_flags b) (Z.lor B_VALID B_DIRTY) =? B_VALID) with (fresh b). rewrite Hf. cbn [negb].
  unfold iunlockd, release. unfold mbind at 1. cbn. do 2 f_equal. destruct (drv s). cbn in *. by subst.
Qed.

(** ** Refinement *)

Lemma same_buf_refl b : same_buf b b.
Proof. done. Qed.

Lemma iinv_client (s : isys C) a q i b b' :
  iinv s a q -> calls s !! i = None -> ibufs (drv s) !! i = Some b ->
  iinv (mkisys (set_ibufs (<[i := b']> (ibufs (drv s))) (drv s)) (calls s)) (set_bufs (<[i := b']> (bufs a)) a) q.
Proof.
  intros [V1 V2 V3 V4 V5 V6 V7 V8 V9 V10 V11 V12 V13] Hi Hb.
  assert (Hne : forall j aw, calls s !! j = Some aw -> <[i := b']> (ibufs (drv s)) !! j = ibufs (drv s) !! j).
  { intros j aw Hj. apply list_lookup_insert_ne. by intros ->; rewrite Hi in Hj. }
  split; try done; cbn [drv calls ibufs set_ibufs ctl].
  - intros j Hj. rewrite (Hne _ _ Hj). by apply V8.
  - intros j Hj. rewrite (Hne _ _ (V6 _ Hj)). by apply V9.
  - by apply Forall2_insert.
  - destruct q as [|j q]; [done|]. rewrite (Hne j false) by (apply V6; by left). done.
  - intros n Hn Hw. apply V12; [done|]. intros (j & q' & b2 & -> & Hb2 & Hd). apply Hw. exists j, q', b2.
    cbn. rewrite (Hne j false) by (apply V6; by left). done.
Qed.

Lemma iinv_return (s : isys C) a q i : iinv s a q -> calls s !! i = Some true -> iinv (mkisys (drv s) (delete i (calls s))) a q.
Proof.
  intros [V1 V2 V3 V4 V5 V6 V7 V8 V9 V10 V11 V12 V13] Hi. split; try done; cbn [drv calls].
  - intros j Hj. rewrite lookup_delete_ne; [by apply V6|]. intros ->. by rewrite (V6 _ Hj) in Hi.
  - intros j [_ Hj]%lookup_delete_Some. by apply V7.
  - intros j [_ Hj]%lookup_delete_Some. by apply V8.
Qed.

Lemma istep_inv s a q es s' : iinv s a q -> istep s es s' -> exists a' q', apply_events es a = Ok a' /\ iinv s' a' q'.
Proof.
  intros V Hs. destruct Hs as [s i b r d Hi Hb Hr E|s i b b' Hi Hb|s d E|s i r d Hi E].
  - destruct (iderw_step s a q i b V Hi Hb Hr) as (d' & E' & V'). rewrite E in E'. injection E' as -> <-. by exists a, (q ++ [i]).
  - eexists _, q. split; [reflexivity|]. by eapply iinv_client.
  - destruct q as [|i q].
    + rewrite (ideintr_idle s a V) in E. injection E as <-. exists a, []. rewrite (iv_chain _ _ _ V).
      split; [done|]. rewrite settle_nil by apply V. by destruct s.
    + destruct (ideintr_step s a i q V) as (d' & a' & E' & Ea & V' & _). rewrite E in E'. injection E' as <-.
      exists a', q. destruct (iv_chain _ _ _ V) as [-> _]. split; [|done]. cbn [apply_events]. by rewrite Ea.
  - rewrite (iderw_resume_returns s a q i V Hi) in E. injection E as <- <-. exists a, q. split; [done|].
    rewrite settle_nil by apply V. by apply iinv_return.
Qed.

Lemma apply_events_app es es' a a1 : apply_events es a = Ok a1 -> apply_events (es ++ es') a = apply_events es' a1.
Proof.
  revert a. induction es as [|e es IH]; intros a H; [by injection H as ->|]. cbn [app apply_events] in *.
  destruct (apply_event e a); try done. by apply IH.
Qed.

(** The driver at rest, over the drive that holds what the memory disk holds. *)
Definition quiet (d : ide C) (a : bst) : Prop :=
  idelock d = false /\ havedisk1 d = true /\ wakes d = [] /\ idequeue d = None /\ cmd (ctl d) = Idle /\
  Forall2 same_buf (ibufs d) (bufs a) /\ disksize a = FSSIZE /\
  forall n, 0 <= n < FSSIZE -> sector (ctl d) 1 n = load (disk a n) 0 (Z.to_nat BSIZE).

Lemma isteps_inv d a0 es s :
  quiet d a0 -> isteps (mkisys d ∅) es s -> exists a q, apply_events es a0 = Ok a /\ iinv s a q.
Proof.
  intros (Q1 & Q2 & Q3 & Q4 & Q5 & Q6 & Q7 & Q8) Hs. remember (mkisys d ∅) as s0 eqn:E0.
  induction Hs as [s0|s0 es t e u Hs IH He].
  - exists a0, []. split; [done|]. subst. split; try done; cbn [drv calls ctl].
    + apply NoDup_nil. done.
    + intros i H. by apply not_elem_of_nil in H.
    + intros i H. by apply not_elem_of_nil in H.
    + intros n Hn _. by apply Q8.
  - destruct (IH E0) as (a & q & Ha & V). destruct (istep_inv t a q e u V He) as (a' & q' & Ha' & V').
    exists a', q'. split; [|done]. by rewrite (apply_events_app _ _ _ _ Ha).
Qed.

(** C10: the driver of [ide.c] implements the memory disk.  Processes call [iderw]
    for locked buffers, clients change buffers no call is in progress for, and
    interrupts come at any time.  The events of any run, each transfer at the
    interrupt that ends it, succeed in the same order on the memory disk, and give
    the same buffers and, when no call is in progress, the same disk.  A new call
    is accepted and a woken call returns, with its buffer valid and clean; no
    interrupt fails, and while a call sleeps every interrupt ends one. *)
Theorem ide_refines (d : ide C) a0 es s :
  quiet d a0 -> isteps (mkisys d ∅) es s ->
  exists a, apply_events es a0 = Ok a /\
    Forall2 same_buf (ibufs (drv s)) (bufs a) /\
    (calls s = ∅ -> forall n, 0 <= n < FSSIZE -> sector (ctl (drv s)) 1 n = load (disk a n) 0 (Z.to_nat BSIZE)) /\
    (forall i b, calls s !! i = None -> ibufs (drv s) !! i = Some b -> request b ->
       exists d', iderw patience (sl_pid (b_lock b)) i (drv s) = Ok (false, d')) /\
    (forall i, calls s !! i = Some true ->
       exists d' b, iderw_resume i (drv s) = Ok (true, d') /\ ibufs d' !! i = Some b /\ fresh b = true) /\
    exists d', ideintr patience (drv s) = Ok (tt, d') /\
      ((exists i, calls s !! i = Some false) ->
       exists j, idequeue (drv s) = Some j /\ calls s !! j = Some false /\ calls (settle d' (calls s)) !! j = Some true).
Proof.
  intros Hq Hs. destruct (isteps_inv d a0 es s Hq Hs) as (a & q & Ha & V). exists a. split_and!; [done|apply V| | | |].
  - intros Hc n Hn. apply (iv_disk _ _ _ V); [done|]. intros (i & q' & b & -> & _).
    pose proof (iv_queued _ _ _ V i ltac:(by left)) as H. by rewrite Hc in H.
  - intros i b Hi Hb Hr. destruct (iderw_step s a q i b V Hi Hb Hr) as (d' & E & _). by exists d'.
  - intros i Hi. destruct (iv_awake _ _ _ V i Hi) as (b & Hb & Hf). exists (drv s), b.
    split; [by eapply iderw_resume_returns|done].
  - destruct q as [|j q].
    + exists (drv s). split; [by eapply ideintr_idle|]. intros [i Hi]. apply (iv_asleep _ _ _ V), not_elem_of_nil in Hi. done.
    + destruct (ideintr_step s a j q V) as (d' & a' & E & _ & _ & Hj). exists d'. split; [done|]. intros _. exists j.
      destruct (iv_chain _ _ _ V) as [-> _]. split_and!; [done|by apply (iv_queued _ _ _ V); left|done].
Qed.
End System.

(** ** A disk error *)

(** If the status shows an error at the end of a read, the buffer keeps what it
    held and is marked valid all the same. *)
Lemma ideintr_error {C} {IP : IdePorts C} fuel (s : ide C) i b r c' :
  idelock s = false -> idequeue s = Some i -> qnext s i = None -> ibufs s !! i = Some b -> dirty b = false ->
  inb 0x1f7 (ctl s) = (r, c') -> Z.land r (Z.lor IDE_BSY IDE_DRDY) = IDE_DRDY -> Z.land r (Z.lor IDE_DF IDE_ERR) <> 0 ->
  exists d b', ideintr (S fuel) s = Ok (tt, d) /\ ibufs d !! i = Some b' /\ fresh b' = true /\ b_data b' = b_data b.
Proof.
  intros Hl Hq Hn Hb Hd Hin Hrdy Herr. unfold dirty in Hd. apply negb_false_iff in Hd.
  unfold ideintr, ilockd, acquire. unfold mbind at 1. rewrite Hl. cbn [obind]. mgo.
  change (idequeue (set_idelock true s)) with (idequeue s). rewrite Hq. mgo.
  rewrite (mbind_ok _ _ _ b (set_idequeue (qnext s i) (set_idelock true s))) by (unfold get_buf; cbn; by rewrite Hb).
  rewrite Hd. cbv beta. mgo. unfold idewait. cbn [idewait_loop]. unfold in_port.
  rewrite (mbind_ok _ _ _ (-1) (set_ctl c' (set_idequeue (qnext s i) (set_idelock true s)))).
  2:{ unfold mbind. cbn [ctl set_idequeue set_idelock]. rewrite Hin. cbn [obind]. rewrite Hrdy, Z.eqb_refl. cbn [negb].
      by rewrite (proj2 (Z.eqb_neq _ _) Herr). }
  cbn [mwhen Z.geb Z.compare]. unfold set_buf. mgo.
  cbn [ibufs set_ibufs set_ctl set_idequeue set_idelock set_wakes wakes idequeue qnext havedisk1 ctl]. rewrite Hn. cbn [mwhen]. mgo.
  eexists _, (set_b_flags (Z.land (Z.lor (b_flags b) B_VALID) (Z.lnot B_DIRTY)) b). split; [reflexivity|].
  cbn [ibufs set_ibufs set_idelock]. rewrite (alter_alter_insert _ _ i _ b Hb). split_and!.
  - apply list_lookup_insert_eq. by eapply lookup_lt_Some.
  - transitivity (fresh (serve b (replicate 0 0))); [|apply serve_fresh]. unfold fresh, serve. by destruct (dirty b).
  - done.
Qed.

(** ** A controller *)

(** One that keeps its sectors in a function and is busy for one look after each
    command. *)
Record toy := mktoy { t_sec : Z -> Z -> list Z; t_reg : Z -> Z; t_cmd : command; t_busy : bool; t_ready : bool }.

Definition toy_sector (c : toy) (d n : Z) : list Z := resize (Z.to_nat SECTOR_SIZE) 0 (u8 <$> t_sec c d n).
Definition toy_drive (c : toy) : Z := Z.land (Z.shiftr (t_reg c 0x1f6) 4) 1.
Definition toy_lba (c : toy) : Z :=
  t_reg c 0x1f3 + Z.shiftl (t_reg c 0x1f4) 8 + Z.shiftl (t_reg c 0x1f5) 16 + Z.shiftl (Z.land (t_reg c 0x1f6) 0x0f) 24.

#[export] Instance toy_ports : IdePorts toy := {
  inb p c := if t_busy c then (IDE_BSY, mktoy (t_sec c) (t_reg c) (t_cmd c) false false)
             else (IDE_DRDY, mktoy (t_sec c) (t_reg c) (t_cmd c) false true);
  outb p v c :=
    if p =? 0x1f7 then
      mktoy (t_sec c) (t_reg c) ((if v =? IDE_CMD_READ then Reading else Writing) (toy_drive c) (toy_lba c)) true false
    else mktoy (t_sec c) (<[p := v]> (t_reg c)) (t_cmd c) (t_busy c) (t_ready c);
  insl p n c :=
    match t_cmd c with
    | Reading d n => (toy_sector c d n, mktoy (t_sec c) (t_reg c) Idle false (t_ready c))
    | _ => ([], c)
    end;
  outsl p l c :=
    match t_cmd c with
    | Writing d n =>
        mktoy (fun d' n' => if decide (d' = d /\ n' = n) then l else t_sec c d' n') (t_reg c) Idle true false
    | _ => c
    end
}.

Lemma resize_bytes l : length l = Z.to_nat SECTOR_SIZE -> Forall is_byte l -> resize (Z.to_nat SECTOR_SIZE) 0 (u8 <$> l) = l.
Proof.
  intros Hl Hb. rewrite <- Hl, <- (length_fmap u8), resize_all. rewrite <- (list_fmap_id l) at 2.
  apply list_fmap_ext. intros i x Hx. apply u8_byte. by eapply Forall_lookup_1.
Qed.

#[export] Instance toy_disk : IdeDisk toy.
Proof.
  refine {| sector := toy_sector; ireg := t_reg; cmd := t_cmd; ready := t_ready;
            delay := fun c => if t_busy c then 1%nat else 0%nat; patience := 2 |}.
  - intros c d n. apply length_resize.
  - intros c d n. unfold toy_sector. apply Forall_resize; [done|]. apply Forall_fmap, Forall_true. intros x. apply is_byte_u8.
  - intros c. destruct (t_busy c); lia.
  - intros c r c' E. cbn in E. destruct (t_busy c) eqn:Eb; injection E as <- <-; rewrite ?Eb; split_and!; try done; vm_compute; first [done|lia|by split].
  - intros c p v Hr Hc Hp. cbn. rewrite (proj2 (Z.eqb_neq p 0x1f7)) by (rewrite list_elem_of_In in Hp; cbn in Hp; lia). done.
  - intros c Hs. done.
  - intros c Hs. done.
  - intros c d n l c' Hc Hr E. cbn in E. rewrite Hc in E. by injection E as <- <-.
  - intros c d n l Hc Hl Hb. cbn. rewrite Hc. split; [|done]. intros d' n'. unfold toy_sector. cbn.
    destruct (decide (d' = d /\ n' = n)); [by apply resize_bytes|done].
Defined.

(** A driver with one buffer, locked by process 1, to be read. *)
Definition toy_buf : buf := mkbuf 0 1 7 (sl_held 1) 1 (fun _ => 0).
Definition toy_ide : ide toy :=
  mkide false None (fun _ => None) true [toy_buf] (mktoy (fun _ _ => []) (fun _ => 0) Idle false false) [].
Definition toy_bst : bst := mkbst false [toy_buf] (fun _ => 0%nat) (fun _ => 0%nat) (fun _ _ => 0) FSSIZE [] 1.

Lemma toy_quiet : quiet toy_ide toy_bst.
Proof.
  split_and!; try done.
  apply Forall2_cons. split; [done|by apply Forall2_nil].
Qed.

Lemma ide_refines_witness :
  exists s, isteps (mkisys toy_ide ∅) [] s /\ calls s !! 0%nat = Some false /\
    exists a, apply_events [] toy_bst = Ok a /\ Forall2 same_buf (ibufs (drv s)) (bufs a).
Proof.
  destruct (isteps_inv toy_ide toy_bst [] _ toy_quiet (isteps_nil _)) as (a & q & Ha & V).
  assert (Hr : request toy_buf) by (split_and!; try done; apply Forall_load; apply wf_zero).
  destruct (iderw_step (mkisys toy_ide ∅) a q 0 toy_buf V eq_refl eq_refl Hr) as (d & E & V').
  pose proof (is_call (mkisys toy_ide ∅) 0 toy_buf false d eq_refl eq_refl Hr E) as Hs.
  pose proof (isteps_snoc _ _ _ _ _ (isteps_nil _) Hs) as Hss.
  destruct (ide_refines toy_ide toy_bst _ _ toy_quiet Hss) as (a' & Ha' & Hb & _).
  eexists. split; [exact Hss|]. split; [|by exists a'].
  apply (iv_queued _ _ _ V'), elem_of_app. right. by apply list_elem_of_singleton.
Defined.
