(* ===== verification/Boot.v ===== *)
(** * The boot loader: [bootmain.c]

    [bootmain] reads the kernel, an ELF file from sector 1 of the first disk on,
    and puts its segments where they belong.  It works on the controller of
    [Ide.IdeDisk] and the memory of the machine.  It reads whole sectors, so it
    writes more than a segment; [bootmain_loads] says when this does no harm. *)

From Stdlib Require Import ZArith Lia String.
From stdpp Require Import base numbers functions list.
From S2P Require Import Prelude Bytes Params Ide.

Local Open Scope Z_scope.
Local Open Scope kernel_scope.

Definition SECTSIZE : Z := 512.
Definition ELF_MAGIC : Z := 0x464C457F.

(** The memory and the disk controller. *)
Record loader (C : Type) := mkloader { lmem : mem; lctl : C }.
Arguments mkloader {C}.
Arguments lmem {C}.
Arguments lctl {C}.

Section Loader.
Context {C : Type} {IP : IdePorts C}.
(** How often [waitdisk] looks at the status at most. *)
Variable (fuel : nat).

Abbreviation LM := (M (loader C)).

Definition l_inb (p : Z) : LM Z := fun s => let '(r, c) := inb p (lctl s) in Ok (r, mkloader (lmem s) c).
Definition l_outb (p v : Z) : LM unit := mset (fun s => mkloader (lmem s) (outb p (u8 v) (lctl s))).
Definition l_insl (p dst cnt : Z) : LM unit :=
  fun s => let '(l, c) := insl p cnt (lctl s) in Ok (tt, mkloader (store (lmem s) dst l) c).

Fixpoint waitdisk_loop (n : nat) : LM unit :=
  match n with
  | O => mnofuel
  | S n' => let! r := l_inb 0x1F7 in if negb (Z.land r 0xC0 =? 0x40) then waitdisk_loop n' else mret tt
  end.
Definition waitdisk : LM unit := waitdisk_loop fuel.

Definition readsect (dst offset : Z) : LM unit :=
  waitdisk ;;!
  l_outb 0x1F2 1 ;;!
  l_outb 0x1F3 offset ;;!
  l_outb 0x1F4 (Z.shiftr offset 8) ;;!
  l_outb 0x1F5 (Z.shiftr offset 16) ;;!
  l_outb 0x1F6 (Z.lor (Z.shiftr offset 24) 0xE0) ;;!
  l_outb 0x1F7 0x20 ;;!
  waitdisk ;;!
  l_insl 0x1F0 dst (SECTSIZE / 4).

Fixpoint readseg_loop (n : nat) (pa epa offset : Z) : LM unit :=
  if pa <? epa then
    match n with
    | O => mnofuel
    | S n' => readsect pa offset ;;! readseg_loop n' (u32 (pa + SECTSIZE)) epa (u32 (offset + 1))
    end
  else mret tt.

(** The loop goes over [count] bytes and what precedes them in their sector. *)
Definition readseg (pa count offset : Z) : LM unit :=
  let epa := u32 (pa + count) in
  let pa := u32 (pa - offset mod SECTSIZE) in
  let offset := u32 (offset / SECTSIZE + 1) in
  readseg_loop (Z.to_nat (count / SECTSIZE + 2)) pa epa offset.

(** The fields of the headers, at their offsets. *)
Definition eh_magic (m : mem) (elf : Z) : Z := get32 m elf.
Definition eh_entry (m : mem) (elf : Z) : Z := get32 m (elf + 24).
Definition eh_phoff (m : mem) (elf : Z) : Z := get32 m (elf + 28).
Definition eh_phnum (m : mem) (elf : Z) : Z := get16 m (elf + 44).
Definition pr_off (m : mem) (ph : Z) : Z := get32 m (ph + 4).
Definition pr_paddr (m : mem) (ph : Z) : Z := get32 m (ph + 12).
Definition pr_filesz (m : mem) (ph : Z) : Z := get32 m (ph + 16).
Definition pr_memsz (m : mem) (ph : Z) : Z := get32 m (ph + 20).
Definition PROGHDR : Z := 32.

Definition load_segment (ph : Z) : LM unit :=
  let! m := mget lmem in
  let pa := pr_paddr m ph in
  readseg pa (pr_filesz m ph) (pr_off m ph) ;;!
  let! m := mget lmem in
  mwhen (pr_memsz m ph >? pr_filesz m ph)
    (mset (fun s => mkloader (stosb (lmem s) (pa + pr_filesz m ph) 0 (Z.to_nat (pr_memsz m ph - pr_filesz m ph))) (lctl s))).

Fixpoint load_segments (n : nat) (ph : Z) : LM unit :=
  match n with
  | O => mret tt
  | S n' => load_segment ph ;;! load_segments n' (ph + PROGHDR)
  end.

(** The result is the entry point it calls, or nothing if it returns. *)
Definition bootmain : LM (option Z) :=
  let elf := 0x10000 in
  readseg elf 4096 0 ;;!
  let! m := mget lmem in
  if negb (eh_magic m elf =? ELF_MAGIC) then mret None else
  load_segments (Z.to_nat (eh_phnum m elf)) (elf + eh_phoff m elf) ;;!
  let! m := mget lmem in
  mret (Some (eh_entry m elf)).
End Loader.

(** ** Reading sectors *)

Section Spec.
Context {C : Type} {IP : IdePorts C} {ID : IdeDisk C}.

(** The kernel file: the bytes from sector 1 of drive 0 on. *)
Definition image (c : C) : mem := fun o => nth (Z.to_nat (o mod SECTSIZE)) (sector c 0 (1 + o / SECTSIZE)) 0.

(** [c'] holds the same sectors and is idle. *)
Definition rests (c c' : C) : Prop := cmd c' = Idle /\ forall d n, sector c' d n = sector c d n.

Lemma rests_image c c' o : rests c c' -> image c' o = image c o.
Proof. intros [_ H]. unfold image. by rewrite H. Qed.

Lemma rests_trans c1 c2 c3 : rests c1 c2 -> rests c2 c3 -> rests c1 c3.
Proof. intros [_ H1] [H2 H3]. split; [done|]. intros. by rewrite H3. Qed.

Lemma waitdisk_ok (s : loader C) :
  exists c', waitdisk patience s = Ok (tt, mkloader (lmem s) c') /\ polled (lctl s) c' /\ ready c' = true.
Proof.
  unfold waitdisk. pose proof (delay_bound (lctl s)) as Hn. revert s Hn. generalize patience as n.
  induction n as [|n IH]; intros s Hn; [lia|]. cbn [waitdisk_loop]. unfold l_inb, mbind at 1.
  change 0x1F7 with 503. destruct (inb 503 (lctl s)) as [r c1] eqn:E. cbn [obind]. destruct (inb_status _ _ _ E) as (A1 & A2 & A3 & A4).
  change (Z.lor IDE_BSY IDE_DRDY) with 0xC0 in A4. change IDE_DRDY with 0x40 in A4.
  destruct (Z.land r 0xC0 =? 0x40); cbn [negb].
  - destruct A4 as [A4 _]. by exists c1.
  - destruct (IH (mkloader (lmem s) c1)) as (c' & Hrun & Hp & Hr); [cbn; lia|].
    exists c'. split_and!; [by rewrite Hrun|by apply (polled_trans _ c1)|done].
Qed.

Lemma sector_bytes_lba n :
  0 <= n < 2 ^ 24 -> u8 n + Z.shiftl (u8 (Z.shiftr n 8)) 8 + Z.shiftl (u8 (Z.shiftr n 16)) 16 = n.
Proof.
  intros Hn. unfold u8. rewrite !Z.shiftl_mul_pow2, !Z.shiftr_div_pow2 by lia.
  change (2 ^ 24) with 16777216 in Hn. change (2 ^ 8) with 256. change (2 ^ 16) with 65536. zlia.
Qed.

Lemma readsect_ok (s : loader C) dst n :
  cmd (lctl s) = Idle -> 0 <= n < 2 ^ 24 ->
  exists c', readsect patience dst n s = Ok (tt, mkloader (store (lmem s) dst (sector (lctl s) 0 n)) c') /\ rests (lctl s) c'.
Proof.
  intros Hc Hn. unfold readsect. destruct (waitdisk_ok s) as (c1 & E1 & (P1 & P2 & P3) & R1). mby E1.
  assert (H24 : Z.shiftr n 24 = 0) by (rewrite Z.shiftr_div_pow2 by lia; apply Z.div_small; lia). rewrite H24.
  assert (H0 : programmed (lctl s) c1 (ireg c1)) by (split_and!; [done|by rewrite P3|done|done]).
  unfold l_outb. mgo. cbn [lctl lmem]. set (c2 := outb 0x1F6 _ _).
  assert (H2 : programmed (lctl s) c2 (<[0x1f6 := 0xe0]> (<[0x1f5 := u8 (Z.shiftr n 16)]> (<[0x1f4 := u8 (Z.shiftr n 8)]>
    (<[0x1f3 := u8 n]> (<[0x1f2 := 1]> (ireg c1))))))).
  { unfold c2. repeat (apply programmed_outb; [|rewrite list_elem_of_In; cbn; lia]). exact H0. }
  destruct H2 as (A1 & A2 & A3 & A4). assert (U : set_up c2) by (unfold set_up; rewrite !A4; by split_and!).
  assert (Ed : drive_sel c2 = 0) by (unfold drive_sel; by rewrite A4).
  assert (El : lba c2 = n).
  { unfold lba. rewrite !A4. change (Z.shiftl (Z.land _ 15) 24) with 0. rewrite Z.add_0_r. by apply sector_bytes_lba. }
  destruct (outb_read c2 U) as [W1 W2]. rewrite Ed, El in W2. change (u8 0x20) with IDE_CMD_READ. change 0x1F7 with 503.
  set (c3 := outb 503 IDE_CMD_READ c2) in *. destruct (waitdisk_ok (mkloader (lmem s) c3)) as (c4 & E4 & (Q1 & Q2 & Q3) & R4). mby E4.
  unfold l_insl. cbn [lctl lmem] in *. destruct (insl 0x1F0 (SECTSIZE / 4) c4) as [l c5] eqn:E5. rewrite W2 in Q3.
  destruct (insl_data c4 0 n l c5 Q3 R4 E5) as (-> & S5 & C5). exists c5.
  assert (Hs : forall d k, sector c4 d k = sector (lctl s) d k) by (intros; by rewrite Q1, W1, A3).
  rewrite Hs. split; [done|]. split; [done|]. intros. by rewrite S5.
Qed.

Lemma store_in m a l x :
  Forall is_byte l -> a <= x < a + Z.of_nat (length l) -> store m a l x = nth (Z.to_nat (x - a)) l 0.
Proof.
  revert m a. induction l as [|v l IH]; intros m a Hb Hx; [cbn in Hx; lia|]. inversion Hb; subst. cbn [store length] in *.
  destruct (decide (x = a)) as [->|Hne].
  - rewrite store_out by lia. rewrite put8_eq, u8_byte, Z.sub_diag by done. done.
  - rewrite IH by (done || lia). replace (Z.to_nat (x - a)) with (S (Z.to_nat (x - (a + 1)))) by lia. done.
Qed.

(** Sector [k] of the disk holds the file from [512 * (k - 1)] on. *)
Lemma sector_image c k x :
  0 < k -> 0 <= x < 512 -> nth (Z.to_nat x) (sector c 0 k) 0 = image c (512 * (k - 1) + x).
Proof.
  intros Hk Hx. unfold image, SECTSIZE. replace ((512 * (k - 1) + x) mod 512) with x by zlia.
  by replace (1 + (512 * (k - 1) + x) / 512) with k by zlia.
Qed.

Lemma readseg_loop_ok n (s : loader C) pa epa k :
  cmd (lctl s) = Idle -> 0 <= pa -> epa + 512 <= 2 ^ 32 -> epa - pa <= 512 * Z.of_nat n -> 0 < k -> k + Z.of_nat n <= 2 ^ 24 ->
  exists s', readseg_loop patience n pa epa k s = Ok (tt, s') /\ rests (lctl s) (lctl s') /\
    (forall x, pa <= x < epa -> lmem s' x = image (lctl s) (512 * (k - 1) + (x - pa))) /\
    (forall x, x < pa \/ epa + 511 <= x -> lmem s' x = lmem s x).
Proof.
  revert s pa k. induction n as [|n IH]; intros s pa k Hc Hp He Hn Hk Hk'; cbn [readseg_loop].
  - rewrite (proj2 (Z.ltb_ge pa epa)) by lia. exists s. split_and!; [done|done|lia|done].
  - destruct (Z.ltb_spec pa epa) as [Hlt|Hge]; [|exists s; split_and!; [done|done|lia|done]].
    destruct (readsect_ok s pa k Hc ltac:(lia)) as (c1 & E1 & R1). mby E1. unfold SECTSIZE.
    rewrite (u32_small (pa + 512)), (u32_small (k + 1)) by (unfold is_u32; lia).
    destruct (IH (mkloader (store (lmem s) pa (sector (lctl s) 0 k)) c1) (pa + 512) (k + 1)) as (s' & E2 & R2 & Hin & Hout);
      cbn [lmem lctl] in *; [apply R1|lia|lia|lia|lia|lia|].
    pose proof (sector_size (lctl s) 0 k) as Hl. change (Z.to_nat SECTOR_SIZE) with 512%nat in Hl.
    exists s'. split; [exact E2|]. split; [by apply (rests_trans _ c1)|]. split.
    + intros x Hx. destruct (decide (x < pa + 512)).
      * rewrite Hout by lia. rewrite store_in by (apply sector_bytes || (rewrite Hl; lia)). apply sector_image; lia.
      * rewrite Hin by lia. rewrite (rests_image _ _ _ R1). f_equal. lia.
    + intros x Hx. rewrite Hout by lia. apply store_out. rewrite Hl. lia.
Qed.

Lemma readseg_ok (s : loader C) pa count offset :
  cmd (lctl s) = Idle -> is_u32 offset -> 0 <= count -> offset mod 512 <= pa -> pa + count + 512 <= 2 ^ 32 ->
  offset + count <= 2 ^ 32 ->
  exists s', readseg patience pa count offset s = Ok (tt, s') /\ rests (lctl s) (lctl s') /\
    (forall x, pa <= x < pa + count -> lmem s' x = image (lctl s) (offset + (x - pa))) /\
    (forall x, x < pa - offset mod 512 \/ pa + count + 511 <= x -> lmem s' x = lmem s x).
Proof.
  intros Hc Ho Hn Hp He Hf. unfold readseg, SECTSIZE, is_u32 in *.
  rewrite (u32_small (pa + count)), (u32_small (pa - offset mod 512)), (u32_small (offset / 512 + 1)) by (unfold is_u32; zlia).
  destruct (readseg_loop_ok (Z.to_nat (count / 512 + 2)) s (pa - offset mod 512) (pa + count) (offset / 512 + 1))
    as (s' & E & R & Hin & Hout); [done|lia|lia|zlia|zlia|zlia|].
  exists s'. split; [exact E|]. split; [done|]. split; [|exact Hout].
  intros x Hx. rewrite Hin by zlia. f_equal. zlia.
Qed.

(** ** Segments *)

Record segment := mkseg { g_off : Z; g_paddr : Z; g_filesz : Z; g_memsz : Z }.
Definition segment_at (f : mem) (o : Z) : segment := mkseg (pr_off f o) (pr_paddr f o) (pr_filesz f o) (pr_memsz f o).

(** What loading a segment may write, and the segment itself. *)
Definition g_lo (g : segment) : Z := g_paddr g - g_off g mod 512.
Definition g_hi (g : segment) : Z := Z.max (g_paddr g + g_filesz g + 511) (g_paddr g + g_memsz g).
Definition g_end (g : segment) : Z := g_paddr g + Z.max (g_filesz g) (g_memsz g).

(** It is inside the address space and spares the page with the headers. *)
Definition seg_fits (g : segment) : Prop :=
  0 <= g_lo g /\ g_paddr g + g_filesz g + 512 <= 2 ^ 32 /\ g_off g + g_filesz g <= 2 ^ 32 /\ g_end g <= 2 ^ 32 /\
  (g_hi g <= 0x10000 \/ 0x11000 <= g_lo g).

(** Loading [g'] after [g] leaves [g] as it is. *)
Definition spares (g g' : segment) : Prop := g_hi g' <= g_paddr g \/ g_end g <= g_lo g'.

Definition placed (f : mem) (g : segment) (m : mem) : Prop :=
  (forall x, g_paddr g <= x < g_paddr g + g_filesz g -> m x = f (g_off g + (x - g_paddr g))) /\
  (forall x, g_paddr g + g_filesz g <= x < g_paddr g + g_memsz g -> m x = 0).

(** The page with the headers. *)
Definition headed (f m : mem) : Prop := forall x, 0 <= x < 4096 -> m (0x10000 + x) = f x.

Lemma image_wf c : wf_mem (image c).
Proof.
  intros o. unfold image. destruct (nth_in_or_default (Z.to_nat (o mod SECTSIZE)) (sector c 0 (1 + o / SECTSIZE)) 0) as [H| ->]; [|done].
  apply list_elem_of_In in H. by apply (proj1 (Forall_forall _ _) (sector_bytes _ _ _)) in H.
Qed.

Lemma headed_segment f m o : headed f m -> 0 <= o -> o + PROGHDR <= 4096 -> segment_at m (0x10000 + o) = segment_at f o.
Proof.
  intros H Ho Hl. unfold PROGHDR in Hl. unfold segment_at, pr_off, pr_paddr, pr_filesz, pr_memsz.
  f_equal; unfold get32; rewrite <- !Z.add_assoc, !H by lia; done.
Qed.

Lemma load_segment_ok (s : loader C) f o :
  cmd (lctl s) = Idle -> (forall x, image (lctl s) x = f x) -> wf_mem f -> headed f (lmem s) -> 0 <= o -> o + PROGHDR <= 4096 ->
  seg_fits (segment_at f o) ->
  exists s', load_segment patience (0x10000 + o) s = Ok (tt, s') /\ rests (lctl s) (lctl s') /\
    placed f (segment_at f o) (lmem s') /\
    (forall x, x < g_lo (segment_at f o) \/ g_hi (segment_at f o) <= x -> lmem s' x = lmem s x).
Proof.
  intros Hc Hf Hwf Hh Ho Hl (F1 & F2 & F2' & F3 & F4). pose proof (headed_segment f (lmem s) o Hh Ho Hl) as E.
  set (g := segment_at f o) in *. unfold load_segment. mgo.
  assert (Eo : pr_off (lmem s) (0x10000 + o) = g_off g) by (by rewrite <- E).
  assert (Ep : pr_paddr (lmem s) (0x10000 + o) = g_paddr g) by (by rewrite <- E).
  assert (Ef : pr_filesz (lmem s) (0x10000 + o) = g_filesz g) by (by rewrite <- E).
  rewrite Eo, Ep, Ef. assert (Ho32 : is_u32 (g_off g) /\ is_u32 (g_filesz g)) by (split; by apply get32_range).
  unfold is_u32 in Ho32. unfold g_lo, g_hi, g_end in *. pose proof (Z.mod_pos_bound (g_off g) 512 ltac:(lia)).
  destruct (readseg_ok s (g_paddr g) (g_filesz g) (g_off g) Hc) as (s1 & E1 & R1 & Hin & Hout); [apply Ho32|lia|lia|lia|lia|]. mby E1.
  assert (Hh1 : headed f (lmem s1)). { intros x Hx. rewrite Hout by lia. by apply Hh. }
  pose proof (headed_segment f (lmem s1) o Hh1 Ho Hl) as E2. fold g in E2.
  assert (Ef1 : pr_filesz (lmem s1) (0x10000 + o) = g_filesz g) by (by rewrite <- E2).
  assert (Em1 : pr_memsz (lmem s1) (0x10000 + o) = g_memsz g) by (by rewrite <- E2).
  rewrite Ef1, Em1. destruct (Z.gtb_spec (g_memsz g) (g_filesz g)) as [Hgt|Hle]; cbn [mwhen].
  - eexists. split; [reflexivity|]. cbn [lctl lmem]. split; [done|].
    split; [split|]; intros x Hx; rewrite stosb_fill.
    + rewrite fill_out by lia. rewrite Hin by lia. apply Hf.
    + rewrite fill_in by lia. done.
    + rewrite fill_out by lia. apply Hout. lia.
  - exists s1. split; [done|]. split; [done|]. split; [split|].
    + intros x Hx. rewrite Hin by lia. apply Hf.
    + intros x Hx. lia.
    + intros x Hx. apply Hout. lia.
Qed.

(** The segments in the order of their headers, the first at [o]. *)
Fixpoint segments (f : mem) (n : nat) (o : Z) : list segment :=
  match n with O => [] | S n' => segment_at f o :: segments f n' (o + PROGHDR) end.

Lemma placed_ext f g m m' : 0 <= g_filesz g -> (forall x, g_paddr g <= x < g_end g -> m' x = m x) -> placed f g m -> placed f g m'.
Proof. unfold g_end. intros Hz He [H1 H2]. split; intros x Hx; rewrite He by lia; auto. Qed.

Lemma load_segments_ok n (s : loader C) f o :
  cmd (lctl s) = Idle -> (forall x, image (lctl s) x = f x) -> wf_mem f -> headed f (lmem s) ->
  0 <= o -> o + PROGHDR * Z.of_nat n <= 4096 ->
  Forall seg_fits (segments f n o) -> ForallOrdPairs spares (segments f n o) ->
  exists s', load_segments patience n (0x10000 + o) s = Ok (tt, s') /\ headed f (lmem s') /\
    Forall (fun g => placed f g (lmem s')) (segments f n o) /\
    (forall x, Forall (fun g => x < g_lo g \/ g_hi g <= x) (segments f n o) -> lmem s' x = lmem s x).
Proof.
  revert s o. induction n as [|n IH]; intros s o Hc Hf Hwf Hh Ho Hl Hfit Hsp; cbn [segments load_segments] in *.
  - exists s. split_and!; [done|done|by apply Forall_nil|done].
  - inversion Hfit as [|? ? Hg Hfit']; subst. inversion Hsp as [|? ? Hsp1 Hsp2]; subst. unfold PROGHDR in *.
    destruct (load_segment_ok s f o Hc Hf Hwf Hh Ho ltac:(unfold PROGHDR; lia) Hg) as (s1 & E1 & R1 & P1 & O1). mby E1.
    rewrite <- Z.add_assoc. destruct (IH s1 (o + 32)) as (s' & E2 & Hh' & P2 & O2); [apply R1| |done| |lia|lia|done|done|].
    { intros x. by rewrite (rests_image _ _ _ R1). }
    { destruct Hg as (_ & _ & _ & _ & Hg). intros x Hx. rewrite O1 by lia. by apply Hh. }
    exists s'. split; [exact E2|]. split; [done|]. split.
    + apply Forall_cons. split; [|done]. apply (placed_ext _ _ (lmem s1)); [by apply get32_range| |done]. intros x Hx. apply O2.
      eapply Forall_impl; [exact Hsp1|]. intros g'. unfold spares. lia.
    + intros x Hx. apply Forall_cons in Hx as [Hx1 Hx2]. by rewrite O2, O1.
Qed.

(** C25: [bootmain].  If the disk holds an ELF file whose headers are on its first
    page, and the segments can be loaded in their order (none reaches the page
    with the headers or, with the rest of the sectors it is in, a segment loaded
    before), then every segment ends up at its physical address, followed by
    zeros up to its size in memory, and the entry point of the file is called.
    Without the magic number [bootmain] returns. *)
Theorem bootmain_loads (s : loader C) :
  let f := image (lctl s) in
  let segs := segments f (Z.to_nat (eh_phnum f 0)) (eh_phoff f 0) in
  cmd (lctl s) = Idle ->
  (eh_magic f 0 <> ELF_MAGIC -> exists s', bootmain patience s = Ok (None, s')) /\
  (eh_magic f 0 = ELF_MAGIC -> eh_phoff f 0 + PROGHDR * eh_phnum f 0 <= 4096 ->
   Forall seg_fits segs -> ForallOrdPairs spares segs ->
   exists s', bootmain patience s = Ok (Some (eh_entry f 0), s') /\ Forall (fun g => placed f g (lmem s')) segs).
Proof.
  intros f segs Hc.
  destruct (readseg_ok s 0x10000 4096 0 Hc) as (s1 & E1 & R1 & Hin & _); [unfold is_u32; lia|lia|by vm_compute|lia|lia|].
  assert (Hh : headed f (lmem s1)). { intros x Hx. rewrite Hin by lia. unfold f. f_equal. lia. }
  assert (Hg : forall m k, headed f m -> 0 <= k -> k + 4 <= 4096 -> get32 m (0x10000 + k) = get32 f k).
  { intros m k Hm Hk1 Hk2. unfold get32. rewrite <- !Z.add_assoc, !Hm by lia. done. }
  assert (Em : eh_magic (lmem s1) 0x10000 = eh_magic f 0) by (apply (Hg _ 0); [done|lia|lia]).
  unfold bootmain. rewrite (mbind_ok _ _ _ _ _ E1). mgo. rewrite Em. split.
  - intros Hne. rewrite (proj2 (Z.eqb_neq _ _) Hne). by exists s1.
  - intros -> Hph Hfit Hsp. rewrite Z.eqb_refl. cbn [negb].
    assert (Ep : eh_phoff (lmem s1) 0x10000 = eh_phoff f 0) by (apply (Hg _ 28); [done|lia|lia]).
    assert (En : eh_phnum (lmem s1) 0x10000 = eh_phnum f 0).
    { unfold eh_phnum, get16. rewrite <- !Z.add_assoc, !Hh by lia. done. }
    assert (Hwf : wf_mem f) by apply image_wf.
    assert (Hr : 0 <= eh_phoff f 0 /\ 0 <= eh_phnum f 0).
    { split; [apply (get32_range f _ Hwf)|]. unfold eh_phnum, get16. pose proof (Hwf (0 + 44)). pose proof (Hwf (0 + 44 + 1)). unfold is_byte in *. lia. }
    rewrite Ep, En. destruct (load_segments_ok (Z.to_nat (eh_phnum f 0)) s1 f (eh_phoff f 0)) as (s' & E2 & Hh' & P & _);
      [apply R1|intros x; apply (rests_image _ _ _ R1)|done|done|lia|unfold PROGHDR in *; lia|done|done|].
    mby E2. exists s'. split; [|done]. unfold mret. do 3 f_equal. apply (Hg _ 24); [done|lia|lia].
Qed.
End Spec.

(** A disk with a kernel of one segment: 16 bytes of the file from offset 4096,
    to be put at 1 MB and followed by 16 zeros. *)
Definition word (v : Z) : list Z := [u8 v; u8 (Z.shiftr v 8); u8 (Z.shiftr v 16); u8 (Z.shiftr v 24)].
Definition tiny_head : list Z :=
  word ELF_MAGIC ++ replicate 20 0 ++ word 0x10000c ++ word 52 ++ replicate 12 0 ++ [1; 0] ++ replicate 6 0 ++
  word 1 ++ word 4096 ++ word 0 ++ word 0x100000 ++ word 16 ++ word 32 ++ word 0 ++ word 0.
Definition tiny_disk : loader toy :=
  mkloader (fun _ => 7) (mktoy (fun _ n => if n =? 1 then tiny_head else if n =? 9 then replicate 16 5 else []) (fun _ => 0) Idle false false).

Lemma tiny_segments :
  segments (image (lctl tiny_disk)) (Z.to_nat (eh_phnum (image (lctl tiny_disk)) 0)) (eh_phoff (image (lctl tiny_disk)) 0) =
  [mkseg 4096 0x100000 16 32].
Proof. vm_compute. reflexivity. Qed.

Lemma tiny_fits : seg_fits (mkseg 4096 0x100000 16 32).
Proof. split_and!; [by vm_compute..|right; by vm_compute]. Qed.

Lemma bootmain_loads_witness : exists s', bootmain patience tiny_disk = Ok (Some 0x10000c, s').
Proof.
  destruct (bootmain_loads (ID := toy_disk) tiny_disk eq_refl) as [_ H]. rewrite tiny_segments in H.
  destruct (H ltac:(by vm_compute) ltac:(by vm_compute)) as (s' & E & _).
  - apply Forall_cons. split; [apply tiny_fits|by apply Forall_nil].
  - repeat constructor.
  - exists s'. exact E.
Defined.
