(* ===== verification/Start.v ===== *)
(** * Interrupt controllers and the other CPUs: [lapic.c], [ioapic.c], [picirq.c],
    [main.c], [entryother.S]

    The registers of the two interrupt controllers, and how [startothers] brings
    up the other CPUs: it copies [entryother.S] to 0x7000, leaves a stack, the
    address of [mpenter] and a page table in the words before it, and sends the
    CPU there.  That CPU ([ap_start]) runs the code it finds at 0x7000, on the
    page table [entrypgdir], which maps the first 4 MB only, and then [mpenter]
    and [mpmain] on its entry of [cpus]; the boot CPU waits for the flag that
    [mpmain] sets.  [startothers_runs] shows that the code is there, that the
    stack is inside the 4 MB, and that every CPU gets to the end of [mpmain].
    [kvmalloc] of vm.c makes the kernel's page table. *)

From Stdlib Require Import ZArith Lia String.
From stdpp Require Import base numbers functions list.
From S2P Require Import Prelude Bytes Params Spin Kalloc Vm VmSpace Proc ProcInv ProcFork Entry.

Local Open Scope Z_scope.
Local Open Scope kernel_scope.

(** ** [ioapic.c] *)

Module Ioapic.
Definition REG_ID : Z := 0x00.
Definition REG_VER : Z := 0x01.
Definition REG_TABLE : Z := 0x10.
Definition INT_DISABLED : Z := 0x00010000.

(** [struct ioapic]: the index register and the registers behind [data]. *)
Record ioapic := mkioapic { io_reg : Z; io_regs : Z -> Z }.

Definition ioapicread (reg : Z) : M ioapic Z :=
  mset (fun s => mkioapic reg (io_regs s)) ;;!
  mget (fun s => io_regs s (io_reg s)).
Definition ioapicwrite (reg data : Z) : M ioapic unit :=
  mset (fun s => mkioapic reg (io_regs s)) ;;!
  mset (fun s => mkioapic (io_reg s) (<[io_reg s := data]> (io_regs s))).

(** The result says whether the message about the identifier is printed. *)
Definition ioapicinit (ioapicid : Z) : M ioapic bool :=
  let! v := ioapicread REG_VER in
  let maxintr := Z.land (Z.shiftr v 16) 0xFF in
  let! r := ioapicread REG_ID in
  let id := Z.shiftr r 24 in
  for_ (Z.to_nat (maxintr + 1)) 0 (fun i =>
    ioapicwrite (REG_TABLE + 2 * i) (Z.lor INT_DISABLED (T_IRQ0 + i)) ;;!
    ioapicwrite (REG_TABLE + 2 * i + 1) 0) ;;!
  mret (negb (id =? ioapicid)).

Definition ioapicenable (irq cpunum : Z) : M ioapic unit :=
  ioapicwrite (REG_TABLE + 2 * irq) (T_IRQ0 + irq) ;;!
  ioapicwrite (REG_TABLE + 2 * irq + 1) (u32 (Z.shiftl cpunum 24)).

(** An entry of the redirection table: the vector and the CPU, unless masked. *)
Definition route (s : ioapic) (irq : Z) : option (Z * Z) :=
  let low := io_regs s (REG_TABLE + 2 * irq) in
  if Z.land low INT_DISABLED =? 0 then Some (Z.land low 0xff, Z.shiftr (io_regs s (REG_TABLE + 2 * irq + 1)) 24) else None.

Lemma ioapicwrite_eq reg data s : ioapicwrite reg data s = Ok (tt, mkioapic reg (<[reg := data]> (io_regs s))).
Proof. reflexivity. Qed.

(** After [ioapicinit] no interrupt line leads anywhere, and [ioapicenable] opens
    the one it is called for, to the vector [trap] expects. *)
Lemma ioapicinit_masks ioapicid s :
  let maxintr := Z.land (Z.shiftr (io_regs s REG_VER) 16) 0xFF in
  exists b s', ioapicinit ioapicid s = Ok (b, s') /\ forall irq, 0 <= irq <= maxintr -> maxintr < 96 -> route s' irq = None.
Proof.
  intros maxintr. assert (Hm : 0 <= maxintr) by (apply Z.land_nonneg; right; lia).
  unfold ioapicinit, ioapicread. mgo. cbn [io_regs io_reg]. fold maxintr.
  set (body := fun i => ioapicwrite _ _ ;;! _). set (s0 := mkioapic _ _).
  destruct (for_inv (fun i s => forall irq, 0 <= irq < i -> io_regs s (REG_TABLE + 2 * irq) = Z.lor INT_DISABLED (T_IRQ0 + irq))
    body (Z.to_nat (maxintr + 1)) 0 s0) as (s' & E & Hs').
  - lia.
  - intros i t Hi Ht. unfold body. mby (ioapicwrite_eq (REG_TABLE + 2 * i) (Z.lor INT_DISABLED (T_IRQ0 + i)) t).
    rewrite ioapicwrite_eq. eexists. split; [reflexivity|]. intros irq Hirq. cbn [io_regs].
    rewrite fn_lookup_insert_ne by lia. destruct (decide (irq = i)) as [->|Hne]; [by rewrite fn_lookup_insert|].
    rewrite fn_lookup_insert_ne by lia. apply Ht. lia.
  - mby E. eexists _, s'. split; [reflexivity|]. intros irq Hirq Hmax. unfold route. rewrite Hs' by lia.
    rewrite Z.land_lor_distr_l. change (Z.land INT_DISABLED INT_DISABLED) with INT_DISABLED.
    destruct (Z.eqb_spec (Z.lor INT_DISABLED (Z.land (T_IRQ0 + irq) INT_DISABLED)) 0) as [H|]; [|done].
    apply Z.lor_eq_0_l in H. discriminate H.
Qed.

Lemma ioapicenable_routes irq cpunum s :
  0 <= irq < 96 -> 0 <= cpunum < 256 ->
  exists s', ioapicenable irq cpunum s = Ok (tt, s') /\ route s' irq = Some (T_IRQ0 + irq, cpunum) /\
    forall irq', irq' <> irq -> route s' irq' = route s irq'.
Proof.
  intros Hi Hc. unfold ioapicenable. mby (ioapicwrite_eq (REG_TABLE + 2 * irq) (T_IRQ0 + irq) s). rewrite ioapicwrite_eq.
  eexists. split; [reflexivity|]. unfold route. cbn [io_regs]. split.
  - rewrite fn_lookup_insert, fn_lookup_insert_ne, fn_lookup_insert by lia. unfold T_IRQ0.
    assert (H1 : Z.land (32 + irq) INT_DISABLED = 0).
    { apply Z.bits_inj'. intros n Hn. rewrite Z.land_spec, Z.bits_0. change INT_DISABLED with (2 ^ 16).
      rewrite Z.pow2_bits_eqb by lia. destruct (Z.eqb_spec 16 n) as [<-|]; [|apply andb_false_r].
      rewrite (Z.bits_above_log2 (32 + irq) 16); [done|lia|apply Z.log2_lt_pow2; lia]. }
    rewrite H1. cbn [Z.eqb]. f_equal. f_equal.
    + change 0xff with (Z.ones 8). rewrite Z.land_ones, Z.mod_small by lia. done.
    + rewrite Z.shiftl_mul_pow2, u32_small by (unfold is_u32; lia). rewrite Z.shiftr_div_pow2 by lia. apply Z.div_mul. lia.
  - intros irq' Hne. by rewrite !fn_lookup_insert_ne by lia.
Qed.

End Ioapic.

(** [picirq.c]: the ports written. *)
Definition picinit : M (list (Z * Z)) unit :=
  mset (fun l => l ++ [(0x20 + 1, 0xFF)]) ;;!
  mset (fun l => l ++ [(0xA0 + 1, 0xFF)]).

(** ** [lapic.c] *)

Definition LAPIC_ID : Z := 0x0020 / 4.
Definition LAPIC_VER : Z := 0x0030 / 4.
Definition LAPIC_TPR : Z := 0x0080 / 4.
Definition LAPIC_EOI : Z := 0x00B0 / 4.
Definition LAPIC_SVR : Z := 0x00F0 / 4.
Definition LAPIC_ESR : Z := 0x0280 / 4.
Definition ICRLO : Z := 0x0300 / 4.
Definition ICRHI : Z := 0x0310 / 4.
Definition LAPIC_TIMER : Z := 0x0320 / 4.
Definition LAPIC_PCINT : Z := 0x0340 / 4.
Definition LAPIC_LINT0 : Z := 0x0350 / 4.
Definition LAPIC_LINT1 : Z := 0x0360 / 4.
Definition LAPIC_ERROR : Z := 0x0370 / 4.
Definition LAPIC_TICR : Z := 0x0380 / 4.
Definition LAPIC_TDCR : Z := 0x03E0 / 4.
Definition LAPIC_ENABLE : Z := 0x00000100.
Definition INIT : Z := 0x00000500.
Definition STARTUP : Z := 0x00000600.
Definition DELIVS : Z := 0x00001000.
Definition ASSERT : Z := 0x00004000.
Definition LEVEL : Z := 0x00008000.
Definition BCAST : Z := 0x00080000.
Definition X1 : Z := 0x0000000B.
Definition PERIODIC : Z := 0x00020000.
Definition MASKED : Z := 0x00010000.
Definition IRQ_ERROR : Z := 19.

(** Reading a register of the local APIC may change it; the driver relies on the
    delivery status to clear after some reads. *)
Class Lapic (L : Type) := {
  la_read : Z -> L -> Z * L;
  la_write : Z -> Z -> L -> L;
  la_wait : L -> nat;
  la_patience : nat;
  la_bound l : (la_wait l < la_patience)%nat;
  la_delivers l v l' : la_read ICRLO l = (v, l') -> Z.land v DELIVS = 0 \/ (la_wait l' < la_wait l)%nat
}.

(** A local APIC with the writes to it so far. *)
Record lapic (L : Type) := mklapic { la_hw : L; la_log : list (Z * Z) }.
Arguments mklapic {L}.
Arguments la_hw {L}.
Arguments la_log {L}.

Section Lapic.
Context {L : Type} {LA : Lapic L}.

Definition lapic_rd (index : Z) : M (lapic L) Z :=
  fun s => let '(v, l) := la_read index (la_hw s) in Ok (v, mklapic l (la_log s)).
Definition lapicw (index value : Z) : M (lapic L) unit :=
  mset (fun s => mklapic (la_write index value (la_hw s)) (la_log s ++ [(index, value)])) ;;!
  lapic_rd LAPIC_ID ;;! mret tt.

Fixpoint wait_delivered (fuel : nat) : M (lapic L) unit :=
  match fuel with
  | O => mnofuel
  | S n => let! v := lapic_rd ICRLO in if negb (Z.land v DELIVS =? 0) then wait_delivered n else mret tt
  end.

(** [found] says that [mpinit] has found a local APIC. *)
Definition lapicinit (fuel : nat) (found : bool) : M (lapic L) unit :=
  if negb found then mret tt else
  lapicw LAPIC_SVR (Z.lor LAPIC_ENABLE (T_IRQ0 + IRQ_SPURIOUS)) ;;!
  lapicw LAPIC_TDCR X1 ;;!
  lapicw LAPIC_TIMER (Z.lor PERIODIC (T_IRQ0 + IRQ_TIMER)) ;;!
  lapicw LAPIC_TICR 10000000 ;;!
  lapicw LAPIC_LINT0 MASKED ;;!
  lapicw LAPIC_LINT1 MASKED ;;!
  let! ver := lapic_rd LAPIC_VER in
  mwhen (Z.land (Z.shiftr ver 16) 0xFF >=? 4) (lapicw LAPIC_PCINT MASKED) ;;!
  lapicw LAPIC_ERROR (T_IRQ0 + IRQ_ERROR) ;;!
  lapicw LAPIC_ESR 0 ;;!
  lapicw LAPIC_ESR 0 ;;!
  lapicw LAPIC_EOI 0 ;;!
  lapicw ICRHI 0 ;;!
  lapicw ICRLO (Z.lor (Z.lor BCAST INIT) LEVEL) ;;!
  wait_delivered fuel ;;!
  lapicw LAPIC_TPR 0.

Definition lapicid (found : bool) : M (lapic L) Z :=
  if negb found then mret 0 else let! v := lapic_rd LAPIC_ID in mret (Z.shiftr v 24).

Definition lapiceoi (found : bool) : M (lapic L) unit := mwhen found (lapicw LAPIC_EOI 0).

(** The last value written to a register. *)
Definition written_to (index : Z) (log : list (Z * Z)) : option Z :=
  snd <$> last (filter (fun w => w.1 = index) log).

Lemma lapicw_ok index value s : exists l, lapicw index value s = Ok (tt, mklapic l (la_log s ++ [(index, value)])).
Proof.
  unfold lapicw, lapic_rd. mgo. unfold mbind. cbn [la_hw la_log]. destruct (la_read _ _) as [v l]. by exists l.
Qed.

Lemma wait_delivered_ok fuel s : (la_wait (la_hw s) < fuel)%nat -> exists l, wait_delivered fuel s = Ok (tt, mklapic l (la_log s)).
Proof.
  revert s. induction fuel as [|n IH]; intros s Hn; [lia|]. cbn [wait_delivered]. unfold lapic_rd, mbind.
  destruct (la_read ICRLO (la_hw s)) as [v l] eqn:E. cbn [obind]. destruct (la_delivers _ _ _ E) as [Hv|Hw].
  - rewrite Hv. by exists l.
  - destruct (Z.land v DELIVS =? 0); [by exists l|]. apply (IH (mklapic l (la_log s))). cbn. lia.
Qed.

Ltac lapic_step :=
  match goal with |- context [mbind (lapicw ?i ?v) _ ?s] =>
    let l := fresh "l" in let E := fresh in destruct (lapicw_ok i v s) as [l E]; mby E; clear E; cbn [la_log] in * end.

(** [lapicinit] ends with the timer periodic on the vector [trap] has for it, the
    external lines masked and all priorities accepted; it broadcasts nothing but
    the INIT de-assertion. *)
Lemma lapicinit_ok s :
  exists l log, lapicinit la_patience true s = Ok (tt, mklapic l (la_log s ++ log)) /\
    written_to LAPIC_TIMER log = Some (Z.lor PERIODIC (T_IRQ0 + IRQ_TIMER)) /\
    written_to LAPIC_SVR log = Some (Z.lor LAPIC_ENABLE (T_IRQ0 + IRQ_SPURIOUS)) /\
    written_to LAPIC_LINT0 log = Some MASKED /\ written_to LAPIC_LINT1 log = Some MASKED /\ written_to LAPIC_TPR log = Some 0 /\
    snd <$> filter (fun w => w.1 = ICRLO) log = [Z.lor (Z.lor BCAST INIT) LEVEL].
Proof.
  unfold lapicinit. cbn [negb]. mgo. repeat lapic_step. unfold lapic_rd at 1. unfold mbind at 1. cbn [la_hw la_log].
  destruct (la_read LAPIC_VER _) as [v l']. cbn [obind].
  destruct (Z.land (Z.shiftr v 16) 255 >=? 4); cbn [mwhen]; mgo; repeat lapic_step;
    (match goal with |- context [mbind (wait_delivered _) _ ?t] =>
       destruct (wait_delivered_ok la_patience t (la_bound _)) as [lw E]; mby E; clear E; cbn [la_log] end);
    (match goal with |- context [lapicw ?i ?x ?t] => destruct (lapicw_ok i x t) as [le E]; rewrite E; clear E; cbn [la_log] end);
    rewrite <- !app_assoc; eexists _, _; (split; [reflexivity|]); by vm_compute.
Qed.
End Lapic.

(** ** Starting a CPU *)

Definition CR0_PE : Z := 0x00000001.
Definition CR0_WP : Z := 0x00010000.
Definition CR0_PG : Z := 0x80000000.
Definition CR4_PSE : Z := 0x00000010.
Definition PTE_PS : Z := 0x080.

(** [entrypgdir]: two 4 MB pages. *)
Definition entrypgdir (i : Z) : Z :=
  if (i =? 0) || (i =? Z.shiftr KERNBASE PDXSHIFT) then Z.lor (Z.lor PTE_P PTE_W) PTE_PS else 0.

(** What the processor makes of it. *)
Definition big_page (pgdir : Z -> Z) (va : Z) : option Z :=
  let e := pgdir (PDX va) in
  if negb (Z.land e PTE_P =? 0) && negb (Z.land e PTE_PS =? 0) then Some (Z.land e (Z.lnot 0x3fffff) + va mod 2 ^ 22) else None.

(** The registers of a CPU that starts, as far as they matter. *)
Record ap := mkap { ap_cr0 : Z; ap_cr3 : Z; ap_cr4 : Z; ap_esp : Z; ap_eip : Z }.

(** [entryother.S], run at physical address [start] up to the call, whose return
    address is [ret].  The kernel's memory is addressed from [KERNBASE]. *)
Definition entryother (start ret : Z) (cr0 cr4 : Z) (m : mem) : ap * mem :=
  let cr0 := Z.lor cr0 CR0_PE in
  let cr4 := Z.lor cr4 CR4_PSE in
  let cr3 := get32 m (P2V (start - 12)) in
  let cr0 := Z.lor cr0 (Z.lor (Z.lor CR0_PE CR0_PG) CR0_WP) in
  let esp := get32 m (P2V (start - 4)) in
  let eip := get32 m (P2V (start - 8)) in
  let esp := u32 (esp - 4) in
  (mkap cr0 cr3 cr4 esp eip, put32 m esp ret).

(** The interprocessor interrupts among some writes to a local APIC: a write to
    [ICRLO] sends one to the CPU in [ICRHI]. *)
Fixpoint ipis (hi : Z) (log : list (Z * Z)) : list (Z * Z) :=
  match log with
  | [] => []
  | (r, v) :: log' =>
      if r =? ICRHI then ipis v log'
      else if r =? ICRLO then (Z.shiftr hi 24, v) :: ipis hi log'
      else ipis hi log'
  end.

(** The address at which the CPU [apicid] starts: that of the first startup
    interrupt for it. *)
Fixpoint startup_at (apicid : Z) (sent : list (Z * Z)) : option Z :=
  match sent with
  | [] => None
  | (d, v) :: sent' =>
      if (d =? apicid) && (Z.land v 0x700 =? STARTUP) then Some (Z.shiftl (Z.land v 0xff) 12) else startup_at apicid sent'
  end.

(** ** The kernel's page table, and what a started CPU does *)

Section Cpu.
Context {St L : Type} {PA : PageAllocator St} {LA : Lapic L}.

(** A CPU: its tables and registers, its local APIC, its flag [started]. *)
Record cpu_state := mkcpu_state { cs_cpu : percpu; cs_lapic : lapic L; cs_started : bool }.

Definition on_cpu {A} (c : M percpu A) : M cpu_state A :=
  fun s => obind (c (cs_cpu s)) (fun '(a, k) => Ok (a, mkcpu_state k (cs_lapic s) (cs_started s))).
Definition on_lapic {A} (c : M (lapic L) A) : M cpu_state A :=
  fun s => obind (c (cs_lapic s)) (fun '(a, l) => Ok (a, mkcpu_state (cs_cpu s) l (cs_started s))).

(** Up to the call of [Proc.scheduler]; the message is left out. *)
Definition mpmain (idt_addr : Z) : M cpu_state unit :=
  on_cpu (idtinit idt_addr) ;;!
  mset (fun s => mkcpu_state (cs_cpu s) (cs_lapic s) true).
Definition mpenter (fuel : nat) (found : bool) (kpgdir idt_addr : Z) : M cpu_state unit :=
  on_cpu (switchkvm kpgdir) ;;!
  on_cpu seginit ;;!
  on_lapic (lapicinit fuel found) ;;!
  mpmain idt_addr.

(** The new value of [kpgdir]; [data] is where the linker put the kernel's data. *)
Definition kvmalloc (data : Z) : M (St * percpu) Z :=
  fun '(k, c) =>
    obind (setupkvm data k) (fun '(kpgdir, k') =>
    obind (switchkvm kpgdir c) (fun '(_, c') => Ok (kpgdir, (k', c')))).

(** What [mpenter] makes of a CPU: it runs on the kernel's page table, with its own
    segments and the interrupt table loaded and the timer on, and its flag is set. *)
Definition entered (kpgdir idt_addr : Z) (s s' : cpu_state) : Prop :=
  let c := cs_cpu s' in
  cs_started s' = true /\ r_cr3 c = V2P kpgdir /\ r_idtr c = table_reg idt_addr (8 * 256) /\
  r_gdtr c = table_reg (c_addr c + CPU_GDT) (8 * Z.of_nat NSEGS) /\
  (forall i dpl, (i, dpl) ∈ [(SEG_KCODE, 0); (SEG_KDATA, 0); (SEG_UCODE, DPL_USER); (SEG_UDATA, DPL_USER)] ->
     exists d, c_gdt c !! Z.to_nat i = Some d /\ seg_base d = 0 /\ seg_limit d = 0xffffffff /\ sd_dpl d = dpl) /\
  exists log, la_log (cs_lapic s') = la_log (cs_lapic s) ++ log /\
    written_to LAPIC_TIMER log = Some (Z.lor PERIODIC (T_IRQ0 + IRQ_TIMER)).

Lemma mpenter_ok kpgdir idt_addr s :
  length (c_gdt (cs_cpu s)) = NSEGS ->
  exists s', mpenter la_patience true kpgdir idt_addr s = Ok (tt, s') /\ entered kpgdir idt_addr s s'.
Proof.
  destruct s as [c0 la st]. cbn [cs_cpu cs_lapic]. intros Hl. destruct (lapicinit_ok la) as (l & log & E & Ht & _).
  unfold mpenter, mpmain, on_cpu, on_lapic, seginit, switchkvm, idtinit, set_seg, lgdt, lidt, lcr3.
  unfold mbind, mset, mget. cbn [obind cs_cpu cs_lapic cs_started]. rewrite E. cbn [obind cs_cpu cs_lapic cs_started].
  eexists. split; [reflexivity|]. unfold entered. cbn [cs_cpu cs_lapic cs_started la_log]. destruct c0 as [a g]. cbn in Hl.
  destruct g as [|? [|? [|? [|? [|? [|? [|]]]]]]]; try discriminate Hl. split_and!; try reflexivity; [|by exists log].
  intros i dpl Hi. repeat (apply elem_of_cons in Hi as [[= -> ->]|Hi]; [eexists; split; [reflexivity|by vm_compute]|]).
  by apply elem_of_nil in Hi.
Qed.

(** [kvmalloc] runs the CPU on a directory with the kernel's ranges; it does so
    with 0 for the directory when there is too little memory. *)
Lemma kvmalloc_ok data s c l :
  data mod PGSIZE = 0 -> KERNLINK < data < KERNBASE + PHYSTOP -> pa_inv s l ->
  exists r s' c' l', kvmalloc data (s, c) = Ok (r, (s', c')) /\ r_cr3 c' = V2P r /\ pa_inv s' l' /\
    (r <> 0 /\ space_of (pa_mem s) (pa_mem s') r l l' \/ r = 0 /\ forall q, q ∈ l' <-> q ∈ l).
Proof.
  intros Hd Hr Hinv. destruct (setupkvm_spec data s l Hd Hr Hinv) as (r & s' & l' & E & Hinv' & H).
  unfold kvmalloc. rewrite E. cbn. eexists r, s', _, l'. split_and!; [reflexivity|done|done|].
  destruct H as [(? & _ & ? & _)|(? & _ & ? & _)]; auto.
Qed.
End Cpu.

(** ** [startothers] *)

Section Others.
Context {St L : Type} {PA : PageAllocator St} {LA : Lapic L}.
(** Where the linker put [mpenter], [entrypgdir] and the image of entryother.S, the
    bytes of that image, the return address of its call, the kernel's page table
    and the interrupt table, and the APIC numbers in [cpus]. *)
Variables (mpenter_addr entrypgdir_addr image ret kpgdir idt_addr : Z) (entry_code ids : list Z).

(** The kernel's memory, the local APIC of the CPU that runs [startothers], the
    ports written, the entries of [cpus] with what belongs to each CPU, and the
    CPUs that have started. *)
Record smp := mksmp {
  mc_kern : St;
  mc_lapic : lapic L;
  mc_ports : list (Z * Z);
  mc_cpus : list (cpu_state (L := L));
  mc_aps : list (nat * ap)
}.

Definition mc_mem {A} (c : M St A) : M smp A :=
  fun s => obind (c (mc_kern s)) (fun '(a, k) => Ok (a, mksmp k (mc_lapic s) (mc_ports s) (mc_cpus s) (mc_aps s))).
Definition mc_la {A} (c : M (lapic L) A) : M smp A :=
  fun s => obind (c (mc_lapic s)) (fun '(a, l) => Ok (a, mksmp (mc_kern s) l (mc_ports s) (mc_cpus s) (mc_aps s))).
Definition mc_outb (p v : Z) : M smp unit :=
  mset (fun s => mksmp (mc_kern s) (mc_lapic s) (mc_ports s ++ [(p, v)]) (mc_cpus s) (mc_aps s)).

Definition lapicstartap (apicid addr : Z) : M smp unit :=
  mc_outb 0x70 0xF ;;!
  mc_outb (0x70 + 1) 0x0A ;;!
  let wrv := P2V (Z.lor (Z.shiftl 0x40 4) 0x67) in
  mc_mem (wr16 wrv 0) ;;!
  mc_mem (wr16 (wrv + 2) (Z.shiftr addr 4)) ;;!
  mc_la (lapicw ICRHI (u32 (Z.shiftl apicid 24))) ;;!
  mc_la (lapicw ICRLO (Z.lor (Z.lor INIT LEVEL) ASSERT)) ;;!
  mc_la (lapicw ICRLO (Z.lor INIT LEVEL)) ;;!
  for_ 2 0 (fun _ =>
    mc_la (lapicw ICRHI (u32 (Z.shiftl apicid 24))) ;;!
    mc_la (lapicw ICRLO (Z.lor STARTUP (Z.shiftr addr 12)))).

(** The code of entryother.S is at the physical address [start]. *)
Definition code_at (m : mem) (start : Z) : bool :=
  forallb (fun i => m (P2V start + i) =? entry_code !!! Z.to_nat i) (seqZ 0 (Z.of_nat (length entry_code))).

(** The CPU [apicid] starts at [start].  The code of entryother.S is linked to run
    at 0x7000; of a CPU that starts elsewhere, or that finds other code there,
    nothing is known.  It calls [mpenter], which works on the entry of [cpus] that
    [mycpu] finds. *)
Definition ap_start (apicid start : Z) : M smp unit :=
  fun s =>
    if (start =? 0x7000) && code_at (pa_mem (mc_kern s)) start then
      let '(a, m) := entryother start ret 0 0 (pa_mem (mc_kern s)) in
      if ap_eip a =? mpenter_addr then
        match cpu_index apicid ids 0 with
        | None => Panic "unknown apicid"
        | Some j =>
            match mc_cpus s !! j with
            | None => Undef
            | Some c => obind (mpenter la_patience true kpgdir idt_addr c) (fun '(_, c') =>
                Ok (tt, mksmp (pa_setmem m (mc_kern s)) (mc_lapic s) (mc_ports s) (<[j := c']> (mc_cpus s)) (mc_aps s ++ [(j, a)])))
            end
        end
      else Undef
    else Undef.

(** The wait for [c->started], while the CPU [apicid] runs if the interrupts [sent]
    start it.  A flag that stays clear is waited for forever. *)
Definition wait_started (i : nat) (apicid : Z) (sent : list (Z * Z)) : M smp unit :=
  match startup_at apicid sent with None => mret tt | Some start => ap_start apicid start end ;;!
  let! c := mget (fun s => mc_cpus s !! i) in
  match c with
  | None => mundef
  | Some c => if cs_started c then mret tt else mblock
  end.

Definition start_one (i : nat) (apicid : Z) : M smp unit :=
  let code := P2V 0x7000 in
  let! stack := mc_mem pa_kalloc in
  mc_mem (wr (code - 4) (u32 (stack + KSTACKSIZE))) ;;!
  mc_mem (wr (code - 8) mpenter_addr) ;;!
  mc_mem (wr (code - 12) (V2P entrypgdir_addr)) ;;!
  let! old := mget (fun s => length (la_log (mc_lapic s))) in
  lapicstartap apicid (V2P code) ;;!
  let! sent := mget (fun s => ipis 0 (drop old (la_log (mc_lapic s)))) in
  wait_started i apicid sent.

(** The loop over [cpus]; [me] is the CPU that runs it. *)
Fixpoint start_loop (me i : nat) (apicids : list Z) : M smp unit :=
  match apicids with
  | [] => mret tt
  | a :: l => (if (i =? me)%nat then mret tt else start_one i a) ;;! start_loop me (S i) l
  end.

Definition startothers (me : nat) : M smp unit :=
  let code := P2V 0x7000 in
  mc_mem (kmemmove code image (Z.of_nat (length entry_code))) ;;!
  start_loop me 0 ids.

(** ** The other CPUs run *)

(** The interrupts [lapicstartap] sends. *)
Definition startap_log (apicid addr : Z) : list (Z * Z) :=
  let hi := u32 (Z.shiftl apicid 24) in
  [(ICRHI, hi); (ICRLO, Z.lor (Z.lor INIT LEVEL) ASSERT); (ICRLO, Z.lor INIT LEVEL);
   (ICRHI, hi); (ICRLO, Z.lor STARTUP (Z.shiftr addr 12)); (ICRHI, hi); (ICRLO, Z.lor STARTUP (Z.shiftr addr 12))].

(** The memory with the warm reset vector set. *)
Definition warm_reset (m : mem) (addr : Z) : mem :=
  let wrv := P2V (Z.lor (Z.shiftl 0x40 4) 0x67) in put16 (put16 m wrv 0) (wrv + 2) (Z.shiftr addr 4).

Lemma mc_la_lapicw index value s :
  exists h, mc_la (lapicw index value) s =
    Ok (tt, mksmp (mc_kern s) (mklapic h (la_log (mc_lapic s) ++ [(index, value)])) (mc_ports s) (mc_cpus s) (mc_aps s)).
Proof. unfold mc_la. destruct (lapicw_ok index value (mc_lapic s)) as [h E]. rewrite E. by exists h. Qed.

Ltac la_step :=
  match goal with |- context [mbind (mc_la (lapicw ?i ?v)) _ ?s] =>
    let h := fresh "h" in let E := fresh in
    destruct (mc_la_lapicw i v s) as [h E]; mby E; clear E; cbn [la_log mc_lapic mc_kern mc_ports mc_cpus mc_aps] in * end.

Lemma lapicstartap_ok apicid addr s :
  exists h ports, lapicstartap apicid addr s =
    Ok (tt, mksmp (pa_setmem (warm_reset (pa_mem (mc_kern s)) addr) (mc_kern s))
              (mklapic h (la_log (mc_lapic s) ++ startap_log apicid addr)) ports (mc_cpus s) (mc_aps s)).
Proof.
  unfold lapicstartap, mc_outb. mgo.
  unfold mc_mem at 1 2, wr16 at 1 2. unfold mbind at 1 2. cbn [obind mset mc_kern mc_lapic mc_ports mc_cpus mc_aps].
  rewrite pa_mem_setmem, pa_setmem_setmem. repeat la_step. cbn [for_]. mgo. do 3 la_step.
  match goal with |- context [mbind (mc_la (lapicw ?i ?v)) _ ?s] =>
    destruct (mc_la_lapicw i v s) as [h' E]; mby E; clear E; cbn [la_log mc_lapic mc_kern mc_ports mc_cpus mc_aps] in * end.
  eexists _, _. unfold mret. rewrite <- !app_assoc. reflexivity.
Qed.

Lemma startap_starts apicid :
  0 <= apicid < 256 -> startup_at apicid (ipis 0 (startap_log apicid 0x7000)) = Some 0x7000.
Proof.
  intros Ha. unfold startap_log. cbn [ipis].
  change (ICRHI =? ICRHI) with true. change (ICRLO =? ICRHI) with false. change (ICRLO =? ICRLO) with true. cbv iota.
  assert (E : Z.shiftr (u32 (Z.shiftl apicid 24)) 24 = apicid).
  { rewrite Z.shiftl_mul_pow2, u32_small by (unfold is_u32; lia). rewrite Z.shiftr_div_pow2 by lia. apply Z.div_mul. lia. }
  rewrite E. cbn [startup_at]. rewrite Z.eqb_refl. reflexivity.
Qed.

(** The free pages are above the kernel and inside the first 4 MB: [kinit1] has
    run and [kinit2] has not. *)
Definition early (q : Z) : Prop := KERNBASE + EXTMEM <= q /\ q + PGSIZE <= KERNBASE + 4 * 1024 * 1024.

Lemma low_write k l m' :
  pa_inv k l -> Forall early l -> wf_mem m' -> (forall x, KERNBASE + EXTMEM <= x -> m' x = pa_mem k x) -> pa_inv (pa_setmem m' k) l.
Proof.
  intros Hinv He Hwf Hm. apply pa_inv_setmem; [done|done|]. intros q x Hq Hx.
  destruct (proj1 (Forall_forall _ _) He q Hq). apply Hm. lia.
Qed.

Lemma wf_put16 m a v : wf_mem m -> wf_mem (put16 m a v).
Proof. intros H. by apply wf_put8, wf_put8. Qed.

(** The words [start_one] leaves for the new CPU. *)
Definition prepared (m : mem) (stack : Z) : mem :=
  warm_reset (put32 (put32 (put32 m (KERNBASE + 0x7000 - 4) (u32 (stack + KSTACKSIZE))) (KERNBASE + 0x7000 - 8) mpenter_addr)
    (KERNBASE + 0x7000 - 12) (V2P entrypgdir_addr)) 0x7000.

Lemma warm_reset_out m x : x < KERNBASE + 0x467 \/ KERNBASE + 0x46b <= x -> warm_reset m 0x7000 x = m x.
Proof.
  intros Hx. unfold warm_reset. change (P2V (Z.lor (Z.shiftl 64 4) 103)) with (KERNBASE + 0x467).
  unfold put16. by rewrite !put8_ne by lia.
Qed.

Lemma prepared_words m stack :
  is_u32 mpenter_addr ->
  (wf_mem m -> wf_mem (prepared m stack)) /\ (forall x, KERNBASE + 0x7000 <= x -> prepared m stack x = m x) /\
  get32 (prepared m stack) (KERNBASE + 0x7000 - 4) = u32 (stack + KSTACKSIZE) /\
  get32 (prepared m stack) (KERNBASE + 0x7000 - 8) = mpenter_addr /\ get32 (prepared m stack) (KERNBASE + 0x7000 - 12) = V2P entrypgdir_addr.
Proof.
  intros Hm. unfold prepared. set (m1 := put32 (put32 (put32 _ _ _) _ _) _ _).
  assert (Hw : forall a, KERNBASE + 0x46b <= a -> get32 (warm_reset m1 0x7000) a = get32 m1 a).
  { intros a Ha. apply get32_ext. intros x Hx. apply warm_reset_out. lia. }
  unfold KERNBASE, EXTMEM in *. split_and!.
  - intros H. by apply wf_put16, wf_put16, wf_put32, wf_put32, wf_put32.
  - intros x Hx. rewrite warm_reset_out by (unfold KERNBASE; lia). unfold m1. by rewrite !put32_ne by lia.
  - rewrite Hw by lia. unfold m1. rewrite !get32_put32_ne by lia. apply get32_put32_eq, u32_range.
  - rewrite Hw by lia. unfold m1. rewrite get32_put32_ne by lia. by apply get32_put32_eq.
  - rewrite Hw by lia. unfold m1. apply get32_put32_eq, u32_range.
Qed.

(** A CPU that has been started with the page [p] for its stack. *)
Definition ap_of (p : Z) : ap :=
  mkap (Z.lor CR0_PE (Z.lor (Z.lor CR0_PE CR0_PG) CR0_WP)) (V2P entrypgdir_addr) CR4_PSE (p + KSTACKSIZE - 4) mpenter_addr.

Lemma code_at_ext m m' :
  (forall x, KERNBASE + 0x7000 <= x < KERNBASE + 0x7000 + Z.of_nat (length entry_code) -> m' x = m x) ->
  code_at m 0x7000 = true -> code_at m' 0x7000 = true.
Proof.
  intros He. unfold code_at. rewrite !forallb_forall. intros H i Hi. specialize (H i Hi).
  apply list_elem_of_In, elem_of_seqZ in Hi. rewrite He; [done|]. change (P2V 0x7000) with (KERNBASE + 0x7000). lia.
Qed.

Section Start.
Hypothesis (Hm : is_u32 mpenter_addr) (Hsz : Z.of_nat (length entry_code) <= PGSIZE).

(** The started CPU gets from 0x7000 to the end of [mpmain]. *)
Lemma ap_start_ok apicid i s c stack :
  cpu_index apicid ids 0 = Some i -> mc_cpus s !! i = Some c -> length (c_gdt (cs_cpu c)) = NSEGS ->
  code_at (pa_mem (mc_kern s)) 0x7000 = true ->
  get32 (pa_mem (mc_kern s)) (KERNBASE + 0x7000 - 4) = stack -> get32 (pa_mem (mc_kern s)) (KERNBASE + 0x7000 - 8) = mpenter_addr ->
  get32 (pa_mem (mc_kern s)) (KERNBASE + 0x7000 - 12) = V2P entrypgdir_addr -> 4 <= stack < 2 ^ 32 ->
  exists c', ap_start apicid 0x7000 s =
      Ok (tt, mksmp (pa_setmem (put32 (pa_mem (mc_kern s)) (stack - 4) ret) (mc_kern s)) (mc_lapic s) (mc_ports s)
            (<[i := c']> (mc_cpus s)) (mc_aps s ++ [(i, ap_of (stack - KSTACKSIZE))])) /\ entered kpgdir idt_addr c c'.
Proof.
  intros Hi Hc Hg Hcode W1 W2 W3 Hst. destruct (mpenter_ok kpgdir idt_addr c Hg) as (c' & E & Hent). exists c'.
  unfold ap_start. rewrite Hcode. cbn [Z.eqb Pos.eqb andb]. unfold entryother.
  change (P2V (28672 - 12)) with (KERNBASE + 0x7000 - 12).
  change (P2V (28672 - 4)) with (KERNBASE + 0x7000 - 4). change (P2V (28672 - 8)) with (KERNBASE + 0x7000 - 8). rewrite W1, W2, W3.
  cbn [ap_eip]. rewrite Z.eqb_refl, Hi, Hc, E. cbn [obind]. rewrite (u32_small (stack - 4)) by (unfold is_u32; lia).
  split; [|exact Hent]. unfold ap_of. by replace (stack - KSTACKSIZE + KSTACKSIZE - 4) with (stack - 4) by lia.
Qed.

Lemma start_one_ok i apicid s c p l :
  0 <= apicid < 256 -> cpu_index apicid ids 0 = Some i -> mc_cpus s !! i = Some c -> length (c_gdt (cs_cpu c)) = NSEGS ->
  code_at (pa_mem (mc_kern s)) 0x7000 = true -> pa_inv (mc_kern s) (p :: l) -> Forall early (p :: l) ->
  exists k h ports c', start_one i apicid s =
      Ok (tt, mksmp k (mklapic h (la_log (mc_lapic s) ++ startap_log apicid 0x7000)) ports (<[i := c']> (mc_cpus s))
            (mc_aps s ++ [(i, ap_of p)])) /\
    entered kpgdir idt_addr c c' /\ pa_inv k l /\ code_at (pa_mem k) 0x7000 = true.
Proof.
  intros Ha Hi Hc Hg Hcode Hinv He. destruct (pa_kalloc_cons _ _ _ Hinv) as (k1 & E1 & Hinv1 & Hm1).
  destruct (pa_inv_pages _ _ Hinv) as (Hpg & Hnd & Hwf). apply Forall_cons in He as [[He1 He2] He]. apply NoDup_cons in Hnd as [Hnp _].
  unfold KERNBASE, EXTMEM, PGSIZE in He1, He2.
  unfold start_one. change (P2V 0x7000) with (KERNBASE + 0x7000). change (V2P (KERNBASE + 0x7000)) with 0x7000.
  unfold mc_mem. unfold mbind at 1. rewrite E1. cbn [obind mc_kern mc_lapic mc_ports mc_cpus mc_aps].
  unfold wr. unfold mbind at 1 2 3. cbn [obind mset mc_kern mc_lapic mc_ports mc_cpus mc_aps].
  rewrite !pa_mem_setmem, !pa_setmem_setmem. mgo. cbn [mc_lapic].
  set (s1 := mksmp _ _ _ _ _). destruct (lapicstartap_ok apicid 0x7000 s1) as (h & ports & E2). mby E2.
  subst s1. cbn [mc_lapic mc_kern mc_cpus mc_aps la_log]. rewrite drop_app_length.
  unfold wait_started. rewrite startap_starts by done. cbn [mc_kern]. rewrite !pa_mem_setmem, !pa_setmem_setmem. rewrite Hm1.
  fold (prepared (pa_mem (mc_kern s)) p). destruct (prepared_words (pa_mem (mc_kern s)) p Hm) as (W1 & W2 & W3 & W4 & W5).
  unfold KSTACKSIZE in W3. rewrite (u32_small (p + 4096)) in W3 by (unfold is_u32; lia).
  set (s2 := mksmp (pa_setmem _ k1) _ _ _ _).
  destruct (ap_start_ok apicid i s2 c (p + 4096)) as (c' & E3 & Hent); try done; cbn [s2 mc_kern]; rewrite ?pa_mem_setmem; try done; [|lia|].
  { apply (code_at_ext (pa_mem (mc_kern s))); [|done]. intros x Hx. apply W2. lia. }
  mby E3. cbn [s2 mc_cpus mc_kern mc_lapic mc_ports mc_aps]. mgo. cbn [mc_cpus].
  rewrite list_lookup_insert_eq by (by eapply lookup_lt_Some). rewrite (proj1 Hent). cbn.
  unfold KSTACKSIZE. replace (p + 4096 - 4096) with p by lia.
  eexists _, _, _, c'. split; [reflexivity|]. rewrite ?pa_setmem_setmem, ?pa_mem_setmem. split; [done|]. split.
  - apply pa_inv_setmem; [exact Hinv1|by apply wf_put32, W1|].
    intros q x Hq Hx. apply Forall_cons in Hpg as [Hp Hpg]. pose proof (proj1 (Forall_forall _ _) Hpg q Hq) as Hq'.
    destruct (proj1 (Forall_forall _ _) He q Hq) as [Hq1 _]. unfold KERNBASE, EXTMEM in *. rewrite Hm1, <- (W2 x) by lia. apply put32_ne.
    apply pa_page_range in Hp as [Hp _]. apply pa_page_range in Hq' as [Hq' _]. assert (q <> p) by (by intros ->).
    unfold PGSIZE in *. zlia.
  - apply (code_at_ext (pa_mem (mc_kern s))); [|done]. intros x Hx. unfold KERNBASE, PGSIZE in *. rewrite put32_ne by lia. apply W2. lia.
Qed.

(** The CPUs [startothers] starts, from number [i] on. *)
Definition others (me i n : nat) : list nat := filter (fun j => j <> me) (seq i n).

Lemma elem_of_others me i n j : j ∈ others me i n <-> j <> me /\ (i <= j < i + n)%nat.
Proof. unfold others. by rewrite list_elem_of_filter, elem_of_seq. Qed.

Lemma start_loop_ok me apicids : forall i s l,
  (forall j a, apicids !! j = Some a -> 0 <= a < 256 /\ cpu_index a ids 0 = Some (i + j)%nat) ->
  (forall j c, (i <= j)%nat -> mc_cpus s !! j = Some c -> length (c_gdt (cs_cpu c)) = NSEGS) ->
  code_at (pa_mem (mc_kern s)) 0x7000 = true -> pa_inv (mc_kern s) l -> Forall early l ->
  (length (others me i (length apicids)) <= length l)%nat -> (i + length apicids <= length (mc_cpus s))%nat ->
  exists s' ps l', start_loop me i apicids s = Ok (tt, s') /\ l = ps ++ l' /\ pa_inv (mc_kern s') l' /\
    length ps = length (others me i (length apicids)) /\
    mc_aps s' = mc_aps s ++ zip_with (fun j p => (j, ap_of p)) (others me i (length apicids)) ps /\
    (forall j, j ∉ others me i (length apicids) -> mc_cpus s' !! j = mc_cpus s !! j) /\
    (forall j c, j ∈ others me i (length apicids) -> mc_cpus s !! j = Some c ->
       exists c', mc_cpus s' !! j = Some c' /\ entered kpgdir idt_addr c c').
Proof.
  induction apicids as [|a apicids IH]; intros i s l Hap Hg Hcode Hinv He Hlen Hst.
  - exists s, [], l. cbn. rewrite app_nil_r. split_and!; try done. intros j c Hj. by apply not_elem_of_nil in Hj.
  - destruct (Hap 0%nat a eq_refl) as [Ha Hi]. rewrite Nat.add_0_r in Hi.
    assert (Hap' : forall j a, apicids !! j = Some a -> 0 <= a < 256 /\ cpu_index a ids 0 = Some (S i + j)%nat).
    { intros j b Hj. rewrite Nat.add_succ_comm. by apply (Hap (S j)). }
    cbn [start_loop length]. cbn [length] in Hst. destruct (Nat.eqb_spec i me) as [->|Hne].
    + assert (Eo : others me me (S (length apicids)) = others me (S me) (length apicids)) by (by apply filter_cons_False; intros H).
      cbn [length] in Hlen. rewrite Eo in *. mgo. destruct (IH (S me) s l) as (s' & ps & l' & R); try done; [|lia|by exists s', ps, l'].
      intros j c Hj. apply Hg. lia.
    + assert (Eo : others me i (S (length apicids)) = i :: others me (S i) (length apicids)) by (by apply filter_cons_True).
      cbn [length] in Hlen. rewrite Eo in *. destruct l as [|p l]; [cbn in Hlen; lia|].
      destruct (lookup_lt_is_Some_2 (mc_cpus s) i) as [c Hc]; [lia|].
      destruct (start_one_ok i a s c p l Ha Hi Hc (Hg i c (le_n _) Hc) Hcode Hinv He) as (k & h & ports & c' & E1 & Hent & Hinv1 & Hcode1). mby E1.
      apply Forall_cons in He as [He1 He]. cbn [length] in *.
      match goal with |- context [start_loop me (S i) apicids ?t] => set (s1 := t) end.
      assert (Hni : i ∉ others me (S i) (length apicids)) by (rewrite elem_of_others; lia).
      destruct (IH (S i) s1 l) as (s' & ps & l' & E & -> & R2 & R3 & R4 & R5 & R6); try done; [|lia|cbn; rewrite length_insert; lia|].
      { intros j d Hj. cbn [s1 mc_cpus]. rewrite list_lookup_insert_ne by lia. apply Hg. lia. }
      exists s', (p :: ps), l'. cbn [mc_aps mc_cpus s1] in *. split_and!; try done.
      * cbn. by rewrite R3.
      * rewrite R4. rewrite <- app_assoc. done.
      * intros j [Hj1 Hj2]%not_elem_of_cons. by rewrite R5, list_lookup_insert_ne.
      * intros j d [->|Hj]%elem_of_cons Hd.
        -- exists c'. rewrite R5, list_lookup_insert_eq by (done || by eapply lookup_lt_Some). by simplify_eq.
        -- apply R6; [done|]. rewrite list_lookup_insert_ne; [done|]. by intros ->.
Qed.

Lemma cpu_index_at (l : list Z) : forall j a i, NoDup l -> l !! j = Some a -> cpu_index a l i = Some (i + j)%nat.
Proof.
  induction l as [|b l IH]; intros j a i Hnd Hj; [done|]. apply NoDup_cons in Hnd as [Hb Hnd]. cbn [cpu_index].
  destruct j as [|j]; [injection Hj as ->; by rewrite Z.eqb_refl, Nat.add_0_r|].
  rewrite (proj2 (Z.eqb_neq b a)); [rewrite (IH j) by done; f_equal; lia|].
  intros ->. apply Hb. by eapply list_elem_of_lookup_2.
Qed.

Lemma early_mapped p x : early p -> 0 <= x < PGSIZE -> big_page entrypgdir (p + x) = Some (V2P (p + x)).
Proof.
  unfold early, PGSIZE, EXTMEM. intros [H1 H2] Hx.
  assert (Ed : PDX (p + x) = 512).
  { unfold PDX, PDXSHIFT, KERNBASE in *. change 0x3FF with (Z.ones 10). rewrite Z.land_ones, Z.shiftr_div_pow2 by lia.
    change (2 ^ 22) with 4194304. change (2 ^ 10) with 1024. zlia. }
  unfold big_page. rewrite Ed. change (entrypgdir 512) with 131. cbn [Z.land Z.eqb negb andb Pos.land].
  change (Z.land 131 (Z.lnot 0x3fffff)) with 0. unfold V2P, KERNBASE in *. f_equal. rewrite u32_small by (unfold is_u32; lia).
  change (2 ^ 22) with 4194304. zlia.
Qed.

(** C26: [startothers].  The linked image holds the code of entryother.S, of at most
    a page; the CPUs have different APIC numbers, and [kinit1] has left a free
    page for each of the others.  Then the code gets to 0x7000 and stays there, every
    other CPU is sent to it and arrives in [mpenter] with paging on, each on a
    stack of its own, a page taken from the free list; the boot page table it
    runs on maps the whole page, because [kinit2] has not yet freed memory beyond
    the first 4 MB.  [mpenter] and [mpmain] run on the entry of [cpus] the wait
    loop looks at: in the end each of them is on the kernel's page table, with
    its segments, the interrupt table and the timer set up, and its flag
    set, and [startothers] returns. *)
Theorem startothers_runs (s : smp) me l :
  (forall i, 0 <= i < Z.of_nat (length entry_code) -> pa_mem (mc_kern s) (image + i) = entry_code !!! Z.to_nat i) ->
  NoDup ids -> Forall (fun a => 0 <= a < 256) ids -> length (mc_cpus s) = length ids ->
  Forall (fun c => length (c_gdt (cs_cpu c)) = NSEGS) (mc_cpus s) ->
  pa_inv (mc_kern s) l -> Forall early l -> (length (others me 0 (length ids)) <= length l)%nat -> mc_aps s = [] ->
  exists s' ps l', startothers me s = Ok (tt, s') /\ l = ps ++ l' /\ pa_inv (mc_kern s') l' /\ NoDup ps /\
    length ps = length (others me 0 (length ids)) /\
    mc_aps s' = zip_with (fun j p => (j, ap_of p)) (others me 0 (length ids)) ps /\
    (forall j c, j ∈ others me 0 (length ids) -> mc_cpus s !! j = Some c ->
       exists c', mc_cpus s' !! j = Some c' /\ entered kpgdir idt_addr c c') /\
    (forall j, j ∉ others me 0 (length ids) -> mc_cpus s' !! j = mc_cpus s !! j) /\
    (forall p x, p ∈ ps -> 0 <= x < PGSIZE -> big_page entrypgdir (p + x) = Some (V2P (p + x))).
Proof.
  intros Him Hnd Hap Hst Hg Hinv He Hlen Haps. unfold startothers, mc_mem, kmemmove. unfold mbind at 1. cbn [obind mset].
  change (P2V 0x7000) with (KERNBASE + 0x7000). set (s1 := mksmp _ _ _ _ _).
  destruct (pa_inv_pages _ _ Hinv) as (_ & Hndl & Hwf).
  assert (Hmm : forall x, pa_mem (mc_kern s1) x = copy (pa_mem (mc_kern s)) (KERNBASE + 0x7000) image (Z.of_nat (length entry_code)) x).
  { intros x. cbn [s1 mc_kern]. rewrite pa_mem_setmem. apply memmove_spec; [done|lia]. }
  assert (Hinv1 : pa_inv (mc_kern s1) l).
  { apply low_write; [done|done| |]; cbn [s1 mc_kern] in Hmm; rewrite pa_mem_setmem in Hmm.
    - intros x. rewrite Hmm. by apply wf_copy.
    - intros x Hx. rewrite Hmm. apply copy_out. unfold KERNBASE, EXTMEM, PGSIZE in *. lia. }
  assert (Hcode : code_at (pa_mem (mc_kern s1)) 0x7000 = true).
  { unfold code_at. apply forallb_forall. intros i Hi%list_elem_of_In%elem_of_seqZ. rewrite Hmm.
    change (P2V 0x7000) with (KERNBASE + 0x7000). rewrite copy_in by lia.
    replace (KERNBASE + 28672 + i - (KERNBASE + 28672)) with i by lia. rewrite Him by lia. apply Z.eqb_refl. }
  destruct (start_loop_ok me ids 0 s1 l) as (s' & ps & l' & E & -> & R2 & R3 & R4 & R5 & R6); try done; [| |cbn; lia|].
  { intros j a Hj. split; [by eapply (Forall_lookup_1 _ _ _ _ Hap)|]. by apply cpu_index_at. }
  { intros j c _ Hc. by eapply (Forall_lookup_1 _ _ _ _ Hg). }
  exists s', ps, l'. apply Forall_app in He as [He _].
  apply NoDup_app in Hndl as [Hndl _]. cbn [s1 mc_aps] in R4. rewrite Haps in R4. split_and!; try done.
  intros p x Hp Hx. apply early_mapped; [|done]. by apply (proj1 (Forall_forall _ _) He).
Qed.
End Start.
End Others.

(** A local APIC that delivers at once, and a machine with two CPUs. *)
#[export] Instance idle_lapic : Lapic unit.
Proof. refine {| la_read := fun _ l => (0, l); la_write := fun _ _ l => l; la_wait := fun _ => 0%nat; la_patience := 1 |}; [lia|]. intros l v l' [= <- <-]. by left. Defined.

Definition cpu_at (addr : Z) (started : bool) : cpu_state (L := unit) :=
  mkcpu_state (mkpercpu addr (replicate 6 (SEG 0 0 0 0)) (mkts 0 0 0) (0, 0) (0, 0) 0 0) (mklapic tt []) started.
Definition two_cpus : smp (St := kstate) (L := unit) :=
  mksmp witness_state (mklapic tt []) [] [cpu_at 0x80113000 true; cpu_at 0x801130b0 false] [].

(** The code is taken to be a few bytes 0, as in the memory of [witness_state]. *)
Lemma startothers_runs_witness :
  exists s' p c, startothers (PA := witness_pa) 0x80103000 0x80109000 0x8010a48c 0x7070 0x803ff000 0x80115000 (replicate 8 0) [0; 1] 0 two_cpus = Ok (tt, s') /\
    mc_aps s' = [(1%nat, ap_of 0x80103000 0x80109000 p)] /\ mc_cpus s' !! 1%nat = Some c /\ cs_started c = true.
Proof.
  destruct (startothers_runs (PA := witness_pa) 0x80103000 0x80109000 0x8010a48c 0x7070 0x803ff000 0x80115000 (replicate 8 0) [0; 1]
    ltac:(by vm_compute) ltac:(by vm_compute) two_cpus 0 [0x80300000])
    as (s' & ps & l' & E & Hl & _ & _ & Hlen & Haps & Hc & _).
  - intros i Hi. symmetry. apply lookup_total_replicate_2. cbn in Hi. lia.
  - by repeat (constructor; [rewrite ?elem_of_cons, ?elem_of_nil; lia|]); constructor.
  - repeat (apply Forall_cons; split; [lia|]). by apply Forall_nil.
  - reflexivity.
  - repeat (apply Forall_cons; split; [reflexivity|]). by apply Forall_nil.
  - apply witness_inv.
  - apply Forall_cons. split; [|by apply Forall_nil]. by split; vm_compute.
  - done.
  - done.
  - destruct ps as [|p [|]]; try discriminate Hlen. destruct (Hc 1%nat (cpu_at 0x801130b0 false)) as (c & Hc1 & Hst & _); [|reflexivity|].
    { apply elem_of_others. cbn. lia. }
    exists s', p, c. split; [exact E|]. split; [exact Haps|]. split; [exact Hc1|exact Hst].
Defined.
