(* ===== verification/Cmds.v ===== *)
(** * Small commands: [wc.c], [cat.c], [ls.c], [echo.c], [kill.c], [ln.c], [mkdir.c], [rm.c]

    The commands over what their system calls return: [sz] is the size of each
    single read, [fails] says which reads fail, and files are their contents.  A
    command is the list of what it does, its writes with their descriptor and the
    other calls that change something.  [wc_counts] and [cat_copies] do not depend
    on the sizes of the reads. *)

From Stdlib Require Import ZArith Lia String Ascii.
From stdpp Require Import base numbers list.
From S2P Require Import Prelude Bytes Params Ulib.

Local Open Scope Z_scope.

(** What a command does. *)
Inductive action :=
| Put (fd : Z) (out : list Z)
| Kill (pid : Z)
| Link (old new : list Z)
| Mkdir (path : list Z)
| Unlink (path : list Z).

(** [printf(fd, fmt, ...)]; the strings are numbered from 1. *)
Definition print (fd : Z) (fmt : list Z) (strs : list (list Z)) (ap : list Z) : option (list action) :=
  match printf (fun a => nth (Z.to_nat (a - 1)) strs []) fmt ap with Some l => Some [Put fd l] | None => None end.

Definition and_then (a b : option (list action)) : option (list action) :=
  match a, b with Some a, Some b => Some (a ++ b) | _, _ => None end.

Definition msg (s : string) : list Z := chars s ++ [NL].

(** ** [echo], [kill], [ln], [mkdir], [rm]; [argv] without the name of the command *)

Fixpoint echo (args : list (list Z)) : option (list action) :=
  match args with
  | [] => Some []
  | [a] => print 1 (chars "%s%s") [a; [NL]] [1; 2]
  | a :: args' => and_then (print 1 (chars "%s%s") [a; chars " "] [1; 2]) (echo args')
  end.

Definition kill_main (args : list (list Z)) : option (list action) :=
  match args with
  | [] => print 2 (msg "usage: kill pid...") [] []
  | _ => Some (Kill ∘ atoi <$> args)
  end.

(** [link], [mkdir] and [unlink] with the results of the calls. *)
Definition ln_main (link : list Z -> list Z -> Z) (args : list (list Z)) : option (list action) :=
  match args with
  | [old; new] =>
      and_then (Some [Link old new])
        (if link old new <? 0 then print 2 (msg "link %s %s: failed") [old; new] [1; 2] else Some [])
  | _ => print 2 (msg "Usage: ln old new") [] []
  end.

Fixpoint each (call : list Z -> Z) (act : list Z -> action) (fmt : list Z) (args : list (list Z)) : option (list action) :=
  match args with
  | [] => Some []
  | a :: args' =>
      and_then (Some [act a])
        (if call a <? 0 then print 2 fmt [a] [1] else each call act fmt args')
  end.
Definition mkdir_main (mkdir : list Z -> Z) (args : list (list Z)) : option (list action) :=
  match args with
  | [] => print 2 (msg "Usage: mkdir files...") [] []
  | _ => each mkdir Mkdir (msg "mkdir: %s failed to create") args
  end.
Definition rm_main (unlink : list Z -> Z) (args : list (list Z)) : option (list action) :=
  match args with
  | [] => print 2 (msg "Usage: rm files...") [] []
  | _ => each unlink Unlink (msg "rm: %s failed to delete") args
  end.

(** ** [cat] and [wc] *)

Section Reading.
Variables (sz : nat -> Z) (fails : nat -> bool).

(** Read [k] of at most [max] bytes: the bytes and the rest, or an error. *)
Definition read (k : nat) (max : Z) (input : list Z) : option (list Z * list Z) :=
  if fails k then None
  else let n := Z.to_nat (Z.min max (sz k)) in Some (take n input, drop n input).

(** How much write [k] is able to write; negative when it fails. *)
Variable (wrote : nat -> Z).

(** The result says whether the command goes on. *)
Fixpoint cat_loop (fuel k : nat) (input : list Z) : option (list action * bool) :=
  match fuel with
  | O => None
  | S fuel' =>
      match read k 512 input with
      | None => match print 1 (msg "cat: read error") [] [] with Some a => Some (a, false) | None => None end
      | Some ([], _) => Some ([], true)
      | Some (buf, rest) =>
          let n := Z.of_nat (length buf) in
          let w := Z.min n (wrote k) in
          if negb (w =? n) then
            match print 1 (msg "cat: write error") [] [] with Some a => Some (Put 1 (take (Z.to_nat w) buf) :: a, false) | None => None end
          else match cat_loop fuel' (S k) rest with Some (a, b) => Some (Put 1 buf :: a, b) | None => None end
      end
  end.
Definition cat (input : list Z) : option (list action * bool) := cat_loop (S (length input)) 0 input.

(** Lines, words, characters, and whether inside a word. *)
Record counts := mkcounts { wc_l : Z; wc_w : Z; wc_c : Z; wc_inword : bool }.

Definition wc_spaces : list Z := [32; 13; 9; 10; 11].
Definition wc_char (s : counts) (b : Z) : counts :=
  let c := s32 (wc_c s + 1) in
  let l := if b =? NL then s32 (wc_l s + 1) else wc_l s in
  match strchr (wc_spaces ++ [0]) b with
  | Some _ => mkcounts l (wc_w s) c false
  | None => if negb (wc_inword s) then mkcounts l (s32 (wc_w s + 1)) c true else mkcounts l (wc_w s) c (wc_inword s)
  end.

Fixpoint wc_loop (fuel k : nat) (s : counts) (input : list Z) : option (option counts) :=
  match fuel with
  | O => None
  | S fuel' =>
      match read k 512 input with
      | None => Some None
      | Some ([], _) => Some (Some s)
      | Some (buf, rest) => wc_loop fuel' (S k) (foldl wc_char s buf) rest
      end
  end.
Definition wc (name input : list Z) : option (list action * bool) :=
  match wc_loop (S (length input)) 0 (mkcounts 0 0 0 false) input with
  | None => None
  | Some None => match print 1 (msg "wc: read error") [] [] with Some a => Some (a, false) | None => None end
  | Some (Some s) =>
      match print 1 (msg "%d %d %d %s") [name] [wc_l s; wc_w s; wc_c s; 1] with Some a => Some (a, true) | None => None end
  end.
End Reading.

(** [main] of both: the files in turn, until one cannot be opened or [cmd] exits. *)
Fixpoint over_files (open : list Z -> option (list Z)) (cmd : list Z -> list Z -> option (list action * bool)) (cannot : list Z)
    (names : list (list Z)) : option (list action) :=
  match names with
  | [] => Some []
  | name :: names' =>
      match open name with
      | None => print 1 cannot [name] [1]
      | Some contents =>
          match cmd name contents with
          | None => None
          | Some (a, true) => and_then (Some a) (over_files open cmd cannot names')
          | Some (a, false) => Some a
          end
      end
  end.

Definition cat_main sz fails wrote (open : list Z -> option (list Z)) (stdin : list Z) (args : list (list Z)) : option (list action) :=
  match args with
  | [] => match cat sz fails wrote stdin with Some (a, _) => Some a | None => None end
  | _ => over_files open (fun _ => cat sz fails wrote) (msg "cat: cannot open %s") args
  end.
Definition wc_main sz fails (open : list Z -> option (list Z)) (stdin : list Z) (args : list (list Z)) : option (list action) :=
  match args with
  | [] => match wc sz fails [] stdin with Some (a, _) => Some a | None => None end
  | _ => over_files open (wc sz fails) (msg "wc: cannot open %s") args
  end.

(** ** [ls] *)

(** The scan of [fmtname] from the end of [path] back to the last slash. *)
Fixpoint after_slash (path : list Z) (i : nat) : nat :=
  if nth i path 0 =? ch "/" then S i else match i with O => O | S j => after_slash path j end.

(** The name padded with blanks, in the static buffer unless it fills it. *)
Definition fmtname (path : list Z) : list Z :=
  let p := drop (after_slash path (length path)) path in
  if Z.of_nat (length p) >=? DIRSIZ then p else p ++ replicate (Z.to_nat DIRSIZ - length p) (ch " ").

(** What [fstat] and [stat] tell. *)
Record stats := mkstats { st_type : Z; st_ino : Z; st_size : Z }.

Section Ls.
(** [open] with the [fstat] of what it finds, the entries of a directory as
    they are read (number and the bytes of the name), and [stat]. *)
Variables (open : list Z -> option (option stats)) (entries : list Z -> list (Z * list Z)) (stat : list Z -> option stats).

Definition ls_line (path : list Z) (st : stats) : option (list action) :=
  print 1 (msg "%s %d %d %d") [fmtname path] [1; st_type st; st_ino st; st_size st].

Fixpoint ls_dir (path : list Z) (es : list (Z * list Z)) : option (list action) :=
  match es with
  | [] => Some []
  | (inum, name) :: es' =>
      if inum =? 0 then ls_dir path es' else
      let buf := path ++ [ch "/"] ++ cstr (take (Z.to_nat DIRSIZ) name) in
      match stat buf with
      | None => and_then (print 1 (msg "ls: cannot stat %s") [buf] [1]) (ls_dir path es')
      | Some st => and_then (ls_line buf st) (ls_dir path es')
      end
  end.

Definition ls (path : list Z) : option (list action) :=
  match open path with
  | None => print 2 (msg "ls: cannot open %s") [path] [1]
  | Some None => print 2 (msg "ls: cannot stat %s") [path] [1]
  | Some (Some st) =>
      if st_type st =? T_FILE then ls_line path st
      else if st_type st =? T_DIR then
        if Z.of_nat (length path) + 1 + DIRSIZ + 1 >? 512 then print 1 (msg "ls: path too long") [] []
        else ls_dir path (entries path)
      else Some []
  end.

Fixpoint ls_all (args : list (list Z)) : option (list action) :=
  match args with [] => Some [] | a :: args' => and_then (ls a) (ls_all args') end.
Definition ls_main (args : list (list Z)) : option (list action) :=
  match args with [] => ls (chars ".") | _ => ls_all args end.
End Ls.

(** ** Theorems *)

(** The words of a text: its maximal runs of characters that are not spaces. *)
Definition is_space (c : Z) : bool := bool_decide (c ∈ wc_spaces).
Fixpoint words_from (cur : list Z) (s : list Z) : list (list Z) :=
  match s with
  | [] => match cur with [] => [] | _ => [cur] end
  | c :: s' =>
      if is_space c then match cur with [] => words_from [] s' | _ => cur :: words_from [] s' end
      else words_from (cur ++ [c]) s'
  end.
Definition words (s : list Z) : list (list Z) := words_from [] s.

Lemma strchr_none s b : Forall (fun c => c <> 0) s -> strchr (s ++ [0]) b = None <-> b ∉ s.
Proof.
  induction s as [|c s IH]; intros Hs; [split; [intros _; apply not_elem_of_nil|done]|].
  apply Forall_cons in Hs as [Hc Hs]. cbn [app strchr]. rewrite (proj2 (Z.eqb_neq c 0) Hc), not_elem_of_cons.
  destruct (Z.eqb_spec c b) as [->|Hne]; [split; [done|by intros [? _]]|]. rewrite IH by done. split; [by intros|by intros [_ ?]].
Qed.

Lemma strchr_spaces b : strchr (wc_spaces ++ [0]) b = None <-> is_space b = false.
Proof.
  unfold is_space. rewrite bool_decide_eq_false. apply strchr_none. unfold wc_spaces.
  repeat (apply Forall_cons; split; [done|]). by apply Forall_nil.
Qed.

(** ** [wc] *)

(** The counts of a text that goes on after [cur], the part of a word already read. *)
Definition counted (s0 : counts) (cur s : list Z) : counts :=
  mkcounts (wc_l s0 + Z.of_nat (length (filter (fun c => c = NL) s)))
    (wc_w s0 + Z.of_nat (length (words_from cur s)) - (if wc_inword s0 then 1 else 0))
    (wc_c s0 + Z.of_nat (length s))
    (match last s with Some c => negb (is_space c) | None => wc_inword s0 end).

Lemma words_from_le cur s : (length (words_from cur s) <= S (length s))%nat.
Proof. revert cur. induction s as [|c s IH]; intros [|d cur]; cbn; repeat case_match; cbn; try lia; rewrite ?IH; try lia; specialize (IH []); lia. Qed.

Lemma foldl_wc_char s : forall s0 cur,
  wc_inword s0 = match cur with [] => false | _ => true end ->
  0 <= wc_l s0 -> 0 <= wc_w s0 -> 0 <= wc_c s0 ->
  wc_l s0 + Z.of_nat (length s) < 2 ^ 31 -> wc_w s0 + Z.of_nat (length s) < 2 ^ 31 -> wc_c s0 + Z.of_nat (length s) < 2 ^ 31 ->
  foldl wc_char s0 s = counted s0 cur s.
Proof.
  induction s as [|b s IH]; intros s0 cur Hw Hl0 Hw0 Hc0 Hl Hwb Hc.
  - unfold counted. destruct s0 as [l w c i]. cbn in *. subst i. destruct cur; cbn; f_equal; lia.
  - cbn [foldl length] in *. unfold wc_char at 2. rewrite (s32_small (wc_c s0 + 1)), (s32_small (wc_l s0 + 1)), (s32_small (wc_w s0 + 1)) by lia.
    set (l1 := if b =? NL then wc_l s0 + 1 else wc_l s0).
    assert (El : l1 + Z.of_nat (length (filter (fun c => c = NL) s)) = wc_l s0 + Z.of_nat (length (filter (fun c => c = NL) (b :: s))) /\ wc_l s0 <= l1 <= wc_l s0 + 1).
    { unfold l1. rewrite filter_cons. destruct (Z.eqb_spec b NL); destruct (decide (b = NL)); try done; cbn [length]; lia. }
    destruct (strchr (wc_spaces ++ [0]) b) eqn:Es.
    + assert (Hsp : is_space b = true) by (destruct (is_space b) eqn:E; [done|apply strchr_spaces in E; congruence]).
      rewrite (IH _ []) by (cbn [wc_l wc_w wc_c wc_inword]; lia || done). unfold counted. cbn [wc_l wc_w wc_c wc_inword words_from]. rewrite Hsp, last_cons. f_equal; cbn [length]; try lia.
      * rewrite Hw. destruct cur; cbn; lia.
      * destruct (last s); cbn; by rewrite ?Hsp.
    + apply strchr_spaces in Es. destruct (wc_inword s0) eqn:Ei; cbn [negb].
      * rewrite (IH _ (cur ++ [b])) by (cbn [wc_l wc_w wc_c wc_inword]; try lia; by destruct cur). unfold counted. cbn [wc_l wc_w wc_c wc_inword words_from].
        rewrite Es, last_cons. f_equal; cbn [length]; rewrite ?Ei; try lia. destruct (last s); cbn; by rewrite ?Es.
      * destruct cur; [|done]. rewrite (IH _ [b]) by (cbn [wc_l wc_w wc_c wc_inword]; lia || done).
        unfold counted. cbn [wc_l wc_w wc_c wc_inword words_from]. rewrite Es, last_cons. f_equal; cbn [length app]; rewrite ?Ei; try lia. destruct (last s); cbn; by rewrite ?Es.
Qed.

Section Reads.
Variables (sz wrote : nat -> Z) (fails : nat -> bool).
Hypothesis (Hsz : forall k, 1 <= sz k) (Hok : forall k, fails k = false) (Hwrote : forall k, 512 <= wrote k).

Lemma read_some k input :
  exists buf rest, read sz fails k 512 input = Some (buf, rest) /\ input = buf ++ rest /\
    (input <> [] -> buf <> [] /\ (length rest < length input)%nat) /\ (input = [] -> buf = []).
Proof using Hsz Hok.
  unfold read. rewrite Hok. eexists _, _. split; [reflexivity|]. pose proof (Hsz k).
  set (n := Z.to_nat (Z.min 512 (sz k))). assert (Hn : (0 < n)%nat) by (unfold n; lia). rewrite take_drop.
  split; [done|]. split; [|by intros ->; rewrite take_nil].
  intros Hne. destruct input as [|c input]; [done|]. destruct n as [|n]; [lia|]. cbn [take drop]. split; [done|]. rewrite length_drop. cbn. lia.
Qed.

Lemma read_short k input buf rest : read sz fails k 512 input = Some (buf, rest) -> Z.of_nat (length buf) <= 512.
Proof using.
  unfold read. destruct (fails k); [done|]. intros [= <- _]. rewrite length_take. lia.
Qed.

Lemma wc_loop_ok fuel : forall k s input,
  (length input < fuel)%nat -> wc_loop sz fails fuel k s input = Some (Some (foldl wc_char s input)).
Proof using Hsz Hok.
  induction fuel as [|fuel IH]; intros k s input Hf; [lia|]. cbn [wc_loop].
  destruct (read_some k input) as (buf & rest & -> & E & Hne & He). destruct input as [|c input].
  - rewrite He by done. done.
  - destruct (Hne ltac:(done)) as [Hb Hr]. destruct buf as [|b buf]; [done|]. rewrite IH by lia. rewrite E, foldl_app. done.
Qed.

(** [wc] prints the numbers of newlines, words and bytes of the text, however it
    is cut into reads. *)
Lemma wc_counts name input :
  Z.of_nat (length input) < 2 ^ 31 ->
  wc sz fails name input =
    match print 1 (msg "%d %d %d %s") [name]
      [Z.of_nat (length (filter (fun c => c = NL) input)); Z.of_nat (length (words input)); Z.of_nat (length input); 1] with
    | Some a => Some (a, true)
    | None => None
    end.
Proof using Hsz Hok.
  intros Hl. unfold wc. rewrite wc_loop_ok by lia. rewrite (foldl_wc_char input _ []) by (cbn; lia || done).
  unfold counted. cbn [wc_l wc_w wc_c wc_inword]. rewrite !Z.add_0_l, Z.sub_0_r. done.
Qed.

Definition outputs (as_ : list action) : list Z :=
  concat ((fun a => match a with Put 1 l => l | _ => [] end) <$> as_).

(** [cat] writes its input to its output. *)
Lemma cat_copies input : exists a, cat sz fails wrote input = Some (a, true) /\ outputs a = input.
Proof using Hsz Hok Hwrote.
  unfold cat. assert (H : forall fuel k input, (length input < fuel)%nat ->
    exists a, cat_loop sz fails wrote fuel k input = Some (a, true) /\ outputs a = input).
  { induction fuel as [|fuel IH]; intros k inp Hf; [lia|]. cbn [cat_loop].
    destruct (read_some k inp) as (buf & rest & Er & E & Hne & He). rewrite Er. destruct inp as [|c inp].
    - rewrite He by done. by exists [].
    - destruct (Hne ltac:(done)) as [Hb Hr]. destruct buf as [|b buf]; [done|].
      pose proof (read_short _ _ _ _ Er) as Hs. pose proof (Hwrote k). rewrite Z.min_l, Z.eqb_refl by lia. cbn [negb].
      destruct (IH (S k) rest) as (a & -> & Ha); [lia|]. exists (Put 1 (b :: buf) :: a). split; [done|].
      rewrite E. unfold outputs in *. cbn. by rewrite Ha. }
  apply H. lia.
Qed.
End Reads.

(** ** [ls] *)

Lemma after_slash_step path i : nth i path 0 <> ch "/" -> after_slash path i = match i with O => O | S j => after_slash path j end.
Proof. intros H. destruct i; cbn [after_slash]; by rewrite (proj2 (Z.eqb_neq _ _) H). Qed.

Lemma nth_not_slash name j : ch "/" ∉ name -> nth j name 0 <> ch "/".
Proof.
  intros Hn E. destruct (nth_in_or_default j name 0) as [Hi|E0]; [|rewrite E0 in E; done].
  rewrite E in Hi. apply Hn. by apply list_elem_of_In.
Qed.

Lemma after_slash_app dir name j :
  ch "/" ∉ name -> after_slash (dir ++ ch "/" :: name) (length dir + j) = S (length dir).
Proof.
  intros Hn. induction j as [|j IH].
  - rewrite Nat.add_0_r. destruct dir as [|d dir]; [done|]. cbn [after_slash length].
    change (S (length dir)) with (length (d :: dir)). rewrite nth_middle. by rewrite Z.eqb_refl.
  - rewrite Nat.add_succ_r, after_slash_step; [exact IH|]. rewrite app_nth2 by lia.
    replace (S (length dir + j) - length dir)%nat with (S j) by lia. cbn [nth].
    by apply nth_not_slash.
Qed.

Lemma after_slash_none name j : ch "/" ∉ name -> after_slash name j = O.
Proof. intros Hn. induction j as [|j IH]; rewrite after_slash_step; auto using nth_not_slash. Qed.

(** [fmtname] is the last element of the path, padded to [DIRSIZ] characters. *)
Lemma fmtname_last dir name :
  ch "/" ∉ name ->
  fmtname name = name ++ replicate (Z.to_nat DIRSIZ - length name) (ch " ") /\
  fmtname (dir ++ ch "/" :: name) = fmtname name.
Proof.
  intros Hn. unfold fmtname. rewrite (after_slash_none name) by done. rewrite drop_0. split.
  - destruct (Z.of_nat (length name) >=? DIRSIZ) eqn:E; [|done]. apply Z.geb_le in E.
    replace (Z.to_nat DIRSIZ - length name)%nat with O by lia. by rewrite app_nil_r.
  - rewrite length_app, after_slash_app by done. replace (S (length dir)) with (length (dir ++ [ch "/"])) by (rewrite length_app; cbn; lia).
    replace (dir ++ ch "/" :: name) with ((dir ++ [ch "/"]) ++ name) by (by rewrite <- app_assoc). by rewrite drop_app_length.
Qed.
